(* ===== verification/_CoqProject ===== *)
-Q . S2P
Prelude.v
Bitmap.v
RateLimiter.v
RingBuffer.v
Pqueue.v
BbFtl.v
BbFtlInv.v
BbFtlThms.v
Zns.v
ZnsInv.v
ZnsIo.v
ZnsMgmt.v
ZnsSpec.v
ZnsThms.v
Stream.v
Kmeans.v
StreamInv.v
KmeansInv.v
KmeansRun.v
StreamThms.v
RteRing.v
RteRingInv.v
RteRingRun.v
RteRingThms.v
PblkAddr.v
PblkLine.v
PblkLineInv.v
PblkLineRun.v
PblkLineGc.v
PblkLineWrite.v
PblkInit.v
PblkInitInv.v
PblkInitLines.v
PblkLineThms.v
NvmCore.v
NvmCoreInv.v
NvmCoreThms.v
PblkMap.v
PblkMapInv.v
PblkMapRun.v
PblkMapThms.v
