(* ===== verification/Prelude.v ===== *)
(** * mStream: a verification library for the multi-stream storage stack

    mStream places data of different lifetimes in different streams of a flash
    drive.  Its parts, from the file system down to the emulated drive:

    - src/mstream_f2fs: the file system.  stream.c puts files into groups by path
      and application and measures how long their data live; kmeans.c divides the
      groups into clusters of similar lifetime, and the cluster of a group selects
      the log, and so the stream, its data are written to.
    - src/mstream-pblk: the kernel's flash translation layer for open-channel
      drives, with one write buffer per stream.  pblk-rl.c limits what user
      writes and garbage collection may put into a buffer, pblk-rb.c is the
      buffer, pblk-write.c and pblk-map.c move its sectors to the drive.  The
      drive is divided into lines, one block of each LUN; pblk-core.c takes, fills,
      closes and frees them, pblk-gc.c collects them, pblk-init.c computes their
      geometry and gives every stream its first ones.  The map from sectors to
      addresses (pblk.h, pblk-core.c) has one entry per segment of the size of a
      line; the stream of a segment decides whether it is mapped sector by sector,
      page by page or as a whole, and pblk-dftl.c counts what of the map is cached.
      core.c is the LightNVM core below it, which lends the LUNs of drives to
      targets such as pblk and converts their addresses.
    - src/femu-ocssd/hw/block/femu: the emulated drives, here the black-box drive
      (bbssd/ftl.c, with the priority queue lib/pqueue.c), the zoned one
      (zns/zns.c over backend/dram.c), and the ring that carries requests between
      the pollers and the thread of the drive (lib/rte_ring.c, inc/rte_ring.h).

    ** Files

    - [Prelude]: machine integers, field assignment, partiality, arrays, the hint
      database and the tactics all files use.  [Bitmap]: the bitmaps of the kernel.
    - [RateLimiter]: pblk-rl.c, and the collector's switch of pblk-gc.c.  The
      records [pblk_rl], [pblk_rl_per_rb] and [pblk_gc] are the structures; each
      function has the name of the C function.
    - [RingBuffer]: pblk-rb.c, pblk-write.c, pblk-map.c.  The record [pblk_rb] is
      the buffer with its four pointers; a step relation runs grants, fills,
      submissions, completions in any order and map updates.
    - [Pqueue]: lib/pqueue.c, over any store of objects that implements the
      accessors (a type class); the FTL is an instance.
    - [BbFtl] (operations), [BbFtlInv] (invariant), [BbFtlThms] (theorems):
      bbssd/ftl.c.
    - [Zns] (operations), [ZnsInv] (invariant), [ZnsIo] (reads, writes, appends),
      [ZnsMgmt] (management, reports, set-up, shutdown), [ZnsSpec] (the abstract
      device and the simulation), [ZnsThms] (theorems): zns/zns.c.
    - [Stream]: stream.c, with get_full_path of namei.c.  [f2fs_sb_info] is the
      part of the superblock it uses; trees are lists in the order of their keys.
    - [Kmeans]: kmeans.c, with f2fs_issue_expect_lifetime of segment.c.
    - [StreamInv] (invariant of the trees), [KmeansInv] (sort, nearest centres,
      centroids, ranks), [KmeansRun] (a round of clustering), [StreamThms]
      (theorems on both).
    - [RteRing]: lib/rte_ring.c and inc/rte_ring.h, as single accesses of threads
      to the shared ring.  [RteRingInv] (totals that do not wrap, invariant),
      [RteRingRun] (the queue it implements, each access), [RteRingThms] (set-up,
      interleavings, theorems).

    - [PblkAddr]: the formats of physical addresses (pblk.h, pblk_set_ppaf).
    - [PblkLine]: the lines of pblk-core.c and pblk-gc.c, with the metadata of
      pblk-write.c and the pages of pblk-map.c.  [pblk_line] is a line, [pblk] the
      lines with the lists, streams, buffers and counters of the line management.
      [PblkLineInv] (bitmaps, set-up of a line, pages, requests), [PblkLineRun]
      (invariant; invalidation and references), [PblkLineGc] (collection),
      [PblkLineWrite] (pages, metadata, switching lines).
    - [PblkInit]: bring-up, pblk-init.c.  [PblkInitInv] (first lines of the streams),
      [PblkInitLines] (geometry, good and bad lines), [PblkLineThms] (events, reachable
      states, theorems on lines).
    - [NvmCore]: core.c.  [nvm_dev] is a drive with its LUNs in use, targets and
      areas, [nvm_core] the lists of drives and types of targets; the operations of
      the driver and of target types are arguments.  [NvmCoreInv] (invariant),
      [NvmCoreThms] (requests, theorems).
    - [PblkMap]: the map of pblk, from pblk.h, pblk-dftl.c, pblk-core.c and
      pblk_l2p_init.  [l2p] is the map with its streams, the list of cached
      segments and what it sees of buffers and lines; [invalidated] lists the addresses handed to
      [__pblk_map_invalidate] of [PblkLine].  [PblkMapInv] (invariant, lookups, the three ways to change
      a sector), [PblkMapRun] (each request), [PblkMapThms] (the plain map, runs, theorems).

    ** Conventions

    A definition has the name of the C function it models, a part of a function
    (a loop, a branch) a name of its own.  Integers are [Z], converted where C
    converts ([u32], [u64], [s32], ...).  Code that stops (BUG_ON, assert, abort),
    waits for ever for a lock or leaves an array has the value [None]; so a theorem
    that a function returns [Some] says that none of this happens.  Code outside the
    repository is a parameter: the clock of QEMU, the allocator's failures, the
    order of completions, guest memory.

    ** Theorems

    - Write buffer ([RingBuffer]): in every state reached grants can be filled,
      the map update does not spin and pointers keep their order; completions in
      any order acknowledge all sectors in buffer order; grants are exclusive; the
      writer thread submits the oldest sectors; a sector is read back as written.
    - Lines ([PblkLineThms]): bring-up succeeds and every event that may happen from
      then on goes through without a warning; closed lines are counted and sorted
      exactly; lines that are needed are not freed; counters agree with the lines;
      pages get fresh addresses; the collector takes a victim with the fewest valid
      sectors and reads just those.
    - Map ([PblkMapThms]): every valid request is carried out and does what it would do
      to a plain map from sectors to addresses, with just the old addresses
      invalidated; addresses belong to one sector and are invalidated once; a segment
      that is mapped as a whole and written in order ends as one entry; the cached
      parts never exceed their room.
    - LightNVM core ([NvmCoreThms]): requests leave no array, the LUNs in use are those
      of the targets, targets are created just if they can be and never share a LUN;
      requests and addresses come back as they were; areas do not overlap; tables of
      bad blocks are folded exactly.
    - Addresses ([PblkAddr]): conversions lose nothing.
    - Streams ([StreamThms]): every operation returns and keeps the trees sorted;
      every file is written to a valid log; a round of clustering returns and
      orders the logs of the groups by their lifetimes; the moving average stays
      within the lifetimes measured.
    - Black-box FTL ([BbFtlThms]): with spare capacity every request is served; the
      two tables are inverse to each other; the counters of lines are exact;
      writes map their pages; a collection loses nothing and gains room.
    - Zoned drive ([ZnsThms]): each command is a step of an abstract device;
      no assertion fails; limits hold; writes are read back; management, reports,
      set-up and shutdown do what they are for.
    - Ring ([RteRingThms]): for any interleaving of any number of threads the ring
      is a queue of its capacity and calls return what they did to it; threads
      never wait for each other for ever; which sizes are accepted.
    - Priority queue ([Pqueue]): operations keep the heap order and positions, pop
      yields a first element, the validity test decides the order.
    - Rate limiter ([RateLimiter]): quotas follow the rate table and never shrink
      when blocks become free; the collector is switched at the threshold.
    - The last lemmas of [RingBuffer], [BbFtlThms], [ZnsThms], [StreamThms],
      [PblkLineThms] and [NvmCoreThms] show where the code does not do what it means to, among
      them the lock that a round of clustering keeps when there are few groups.

    ** Bounds and fuel

    Recursion is structural where the loop has a bound: the ten passes of k-means,
    the samples, the types of file, the elements of a queue.  Other loops have
    fuel: the length of the array for the heap, the number of pages of the drive
    for collections, the number of sectors of a request, the length of the
    completion list, the number of zones, the lines and sectors of a drive, the sectors of a discard.  The theorems that these functions
    return [Some] show that the fuel is enough.  Arrays allocated by vmalloc may be
    written up to the end of their last page ([vmalloc_ints]), as the kernel
    allocates whole pages.  A run of the ring's threads is a list of events, so it
    needs no fuel; it ends ([None]) if a thread is overtaken by 2^31 entries
    between its load of an index and its compare-and-set, where 32-bit indices
    become ambiguous, or if a ring made for one producer or consumer has two.

    ** Not modelled

    - Other threads between the steps of one operation, but for the orders of
      completions in [RingBuffer] and the ring, [RteRing].  f2fs_update_cluster releases its lock while it
      computes; the model runs it as one step.
    - In pblk: the entries reserved for page-mapped streams, failed writes, the
      contents of metadata, the data the collector moves, failures of memory in the
      middle of a line, reads, recovery, the split of requests over streams
      (pblk-cache.c), sysfs; rrpc.c, which the project does not use.
    - The operations on page-mapped segments are in [PblkMap], but the theorems of
      [PblkMapThms] are about segments that are mapped sector by sector or as a whole, since
      no build makes a stream page-mapped.  Segments have 32 to 32768 sectors there: a
      log of a larger one does not fit into the 61440 entries kept for cached parts.
    - In core.c: the requests of the control device that only list names, and calls
      that are handed on to the driver.
    - In kmeans.c: kmeans, uniform, convert_data and fixed_center, which nothing
      calls.
    - In FEMU: the front end (queues, DMA, interrupts), which works on memory and
      buses of QEMU, the open-channel controllers and the timing tables.
    - The rest of f2fs, QEMU, and the tool that replays traces: they are the
      environment of the project, or input and output only. *)

From stdpp Require Export base option list gmap numbers strings sorting.
From Stdlib Require Export ZArith Lia.

#[global] Open Scope Z_scope.

(** ** Machine integers

    A C integer is a [Z]; the conversions below are the ones C performs when a
    value is stored in an object of that width. *)

Definition u8 (z : Z) : Z := z mod 2 ^ 8.
Definition u16 (z : Z) : Z := z mod 2 ^ 16.
Definition u32 (z : Z) : Z := z mod 2 ^ 32.
Definition u64 (z : Z) : Z := z mod 2 ^ 64.

(** Conversion to a 32-bit two's complement [int]. *)
Definition s32 (z : Z) : Z := (z + 2 ^ 31) mod 2 ^ 32 - 2 ^ 31.

(** C's truth value of an integer, and the integer value of a comparison. *)
Definition nz (z : Z) : bool := negb (z =? 0).
Definition b2z (b : bool) : Z := if b then 1 else 0.

Lemma nz_spec z : reflect (z ≠ 0) (nz z).
Proof. unfold nz. destruct (Z.eqb_spec z 0); simpl; constructor; auto. Qed.

(** [flags & mask] as a condition. *)
Definition has (flags mask : Z) : bool := nz (Z.land flags mask).

(** ** Field assignment

    [r <| f := v |>] is the structure [r] with [r->f = v] executed, and
    [r <| f ::= g |>] the one with [r->f = g(r->f)].  A record type declares its
    fields once, as an instance of [Fields]; the setter of a field is then built
    by type-class resolution: the record is rebuilt from its projections with
    the one of the field replaced. *)

Class Fields (R : Type) : Type := fields : R → R.
Class Setter {R T : Type} (f : R → T) : Type := setter : (T → T) → R → R.
Arguments setter {R T} f {_} _ _ : simpl nomatch.

Ltac mk_setter R f :=
  let u := fresh "u" in let r := fresh "r" in
  intros u r;
  let e := constr:(_ : Fields R) in
  let t := eval hnf in e in
  let t := eval cbv beta in (t r) in
  let p := eval pattern (f r) in t in
  match p with ?g _ => let t := eval cbv beta in (g (u (f r))) in exact t end.

#[global] Hint Extern 1 (@Setter ?R ?T ?f) => mk_setter R f : typeclass_instances.

Notation "r <| f := v |>" := (setter f (λ _, v) r)
  (at level 12, f at next level, left associativity).
Notation "r <| f ::= g |>" := (setter f g r)
  (at level 12, f at next level, left associativity).

(** ** Partiality

    Code that stops (BUG_ON, assert, abort) or that touches memory outside an
    array has the value [None]; everything else is [Some] of its result.  The
    [option] monad of stdpp ([x ← e; k]) sequences such code. *)

Definition ensure (b : bool) : option unit := if b then Some () else None.

Section arrays.
Context {A : Type}.
Implicit Types (l : list A) (i : Z) (x : A).

(** [l[i]] *)
Definition rd l i : option A := if 0 <=? i then l !! Z.to_nat i else None.

(** [l[i] = x] *)
Definition wr l i x : option (list A) :=
  if (0 <=? i) && (i <? Z.of_nat (length l)) then Some (<[Z.to_nat i := x]> l) else None.

Lemma rd_Some l i x :
  rd l i = Some x ↔ 0 ≤ i ∧ l !! Z.to_nat i = Some x.
Proof. unfold rd. destruct (Z.leb_spec 0 i); naive_solver lia. Qed.

Lemma rd_lt l i x : rd l i = Some x → 0 ≤ i < Z.of_nat (length l).
Proof. rewrite rd_Some. intros [? H%lookup_lt_Some]. lia. Qed.

Lemma rd_is_Some l i : 0 ≤ i < Z.of_nat (length l) → is_Some (rd l i).
Proof.
  intros H. unfold rd. destruct (Z.leb_spec 0 i); [|lia].
  apply lookup_lt_is_Some. lia.
Qed.

Lemma rd_None l i : rd l i = None ↔ ¬ (0 ≤ i < Z.of_nat (length l)).
Proof.
  unfold rd. destruct (Z.leb_spec 0 i); rewrite ?lookup_ge_None; naive_solver lia.
Qed.

Lemma wr_Some l l' i x :
  wr l i x = Some l' ↔ 0 ≤ i < Z.of_nat (length l) ∧ l' = <[Z.to_nat i := x]> l.
Proof.
  unfold wr.
  destruct (Z.leb_spec 0 i), (Z.ltb_spec i (Z.of_nat (length l))); simpl; naive_solver lia.
Qed.

Lemma wr_in_range l i x :
  0 ≤ i < Z.of_nat (length l) → wr l i x = Some (<[Z.to_nat i := x]> l).
Proof. intros. by apply wr_Some. Qed.

Lemma wr_length l l' i x : wr l i x = Some l' → length l' = length l.
Proof. rewrite wr_Some. intros [_ ->]. apply length_insert. Qed.

Lemma rd_wr l l' i j x :
  wr l i x = Some l' → rd l' j = if decide (i = j) then Some x else rd l j.
Proof.
  rewrite wr_Some. intros [? ->]. unfold rd.
  destruct (Z.leb_spec 0 j); case_decide; try lia; subst; try done.
  - rewrite list_lookup_insert_eq; [done|lia].
  - rewrite list_lookup_insert_ne; [done|lia].
Qed.
End arrays.

(** An array given by a function of its index. *)
Lemma rd_table {A} (f : Z → A) n i : 0 ≤ i < n → rd (f <$> seqZ 0 n) i = Some (f i).
Proof.
  intros Hi. apply rd_Some. split; [lia|].
  rewrite list_lookup_fmap, lookup_seqZ_lt by lia. simpl. do 2 f_equal. lia.
Qed.

(** Predicates that agree on a list select the same elements. *)
Lemma list_filter_ext {A} (P Q : A → Prop) `{!∀ x, Decision (P x)} `{!∀ x, Decision (Q x)} (l : list A) :
  (∀ x, x ∈ l → P x ↔ Q x) → filter P l = filter Q l.
Proof.
  induction l as [|x l IH]; intros Hl; [done|]. rewrite !filter_cons, IH by (set_solver).
  destruct (Hl x) as [H1 H2]; [left|]. repeat case_decide; naive_solver.
Qed.

(** ** Lemmas on machine integers *)

Lemma u32_small z : 0 ≤ z < 2 ^ 32 → u32 z = z.
Proof. apply Z.mod_small. Qed.

Lemma u64_small z : 0 ≤ z < 2 ^ 64 → u64 z = z.
Proof. apply Z.mod_small. Qed.

Lemma u32_range z : 0 ≤ u32 z < 2 ^ 32.
Proof. apply Z.mod_pos_bound. lia. Qed.

Lemma u64_range z : 0 ≤ u64 z < 2 ^ 64.
Proof. apply Z.mod_pos_bound. lia. Qed.

Lemma s32_small z : - 2 ^ 31 ≤ z < 2 ^ 31 → s32 z = z.
Proof. intros. unfold s32. rewrite Z.mod_small; lia. Qed.

Lemma pow2_pos k : 0 ≤ k → 0 < 2 ^ k.
Proof. intros. apply Z.pow_pos_nonneg; lia. Qed.

(** [z & (2^k - 1)] is the remainder modulo [2^k]. *)
Lemma land_mask z k : 0 ≤ k → Z.land z (2 ^ k - 1) = z mod 2 ^ k.
Proof. intros. rewrite <- Z.land_ones, Z.ones_equiv by lia. f_equal. Qed.

(** A mask of one bit tests that bit. *)
Lemma has_bit f i : 0 ≤ i → has f (Z.shiftl 1 i) = Z.testbit f i.
Proof.
  intros Hi. unfold has, nz. rewrite Z.shiftl_1_l.
  destruct (Z.testbit f i) eqn:E; destruct (Z.eqb_spec (Z.land f (2 ^ i)) 0) as [H|H]; try done.
  - assert (Hb : Z.testbit (Z.land f (2 ^ i)) i = false) by (rewrite H; apply Z.bits_0).
    rewrite Z.land_spec, Z.pow2_bits_true, E in Hb by lia. done.
  - destruct H. apply Z.bits_inj'. intros j Hj.
    rewrite Z.land_spec, Z.pow2_bits_eqb, Z.bits_0 by lia.
    destruct (Z.eqb_spec i j); subst; rewrite ?E, ?andb_false_r; done.
Qed.

(** ** Automation *)

Create HintDb mstream.
#[export] Hint Resolve u32_range u64_range pow2_pos : mstream.
#[export] Hint Rewrite @length_insert @length_app @length_replicate @length_fmap : mstream.

(** Replace boolean tests of the code by the propositions they decide. *)
Ltac bools :=
  repeat match goal with
  | H : andb _ _ = true |- _ => apply andb_true_iff in H as [? ?]
  | H : orb _ _ = false |- _ => apply orb_false_iff in H as [? ?]
  | H : negb _ = true |- _ => apply negb_true_iff in H
  | H : negb _ = false |- _ => apply negb_false_iff in H
  | H : (_ <? _) = true |- _ => apply Z.ltb_lt in H
  | H : (_ <? _) = false |- _ => apply Z.ltb_ge in H
  | H : (_ <=? _) = true |- _ => apply Z.leb_le in H
  | H : (_ <=? _) = false |- _ => apply Z.leb_gt in H
  | H : (_ =? _) = true |- _ => apply Z.eqb_eq in H
  | H : (_ =? _) = false |- _ => apply Z.eqb_neq in H
  end.

(** Case analysis on the first boolean condition of the goal. *)
Ltac bcase :=
  match goal with
  | |- context [if ?b then _ else _] =>
      let E := fresh "E" in destruct b eqn:E; bools
  end.

(** Unfold a chain of [option] binds that is known to succeed. *)
Ltac run H :=
  repeat match type of H with
  | (_ ≫= _) = Some _ =>
      let x := fresh "x" in let E := fresh "E" in
      apply bind_Some in H as (x & E & H)
  end.

Lemma ensure_Some b u : ensure b = Some u ↔ b = true ∧ u = ().
Proof. destruct b, u; naive_solver. Qed.
