(* ===== verification/Bitmap.v ===== *)
(** * Bitmaps of the kernel

    Bitmaps as lists of bits, with the operations that pblk and the LightNVM core use.
    An access outside a bitmap is [None]. *)

From S2P Require Import Prelude.

(** ** Operations *)

(** The first zero bit at [off] or after it, [size] if there is none. *)
Definition find_next_zero_bit (b : list bool) (size off : Z) : Z :=
  match list_find (λ x, x = false) (drop (Z.to_nat off) (take (Z.to_nat size) b)) with
  | Some (k, _) => off + Z.of_nat k
  | None => size
  end.

Definition find_first_zero_bit (b : list bool) (size : Z) : Z := find_next_zero_bit b size 0.

Definition test_and_set_bit (b : list bool) (i : Z) : option (bool * list bool) :=
  old ← rd b i; b' ← wr b i true; Some (old, b').

Definition test_and_clear_bit (b : list bool) (i : Z) : option (bool * list bool) :=
  old ← rd b i; b' ← wr b i false; Some (old, b').

Definition bitmap_set (b : list bool) (off n : Z) : option (list bool) :=
  _ ← ensure ((0 <=? off) && (0 <=? n) && (off + n <=? Z.of_nat (length b)));
  Some (take (Z.to_nat off) b ++ replicate (Z.to_nat n) true ++ drop (Z.to_nat (off + n)) b).

Definition bitmap_shift_left (b : list bool) (off : Z) : list bool :=
  take (length b) (replicate (Z.to_nat off) false ++ b).

Definition bitmap_or : list bool → list bool → list bool := zip_with orb.

Definition zeros (b : list bool) : Z := Z.of_nat (length (filter (λ x, x = false) b)).

(** [bitmap_weight] counts the ones. *)
Definition bitmap_weight (b : list bool) : Z := Z.of_nat (length b) - zeros b.

Definition bitmap_full (b : list bool) : bool := zeros b =? 0.

(** ** Counting zeros *)

Lemma zeros_nil : zeros [] = 0.
Proof. done. Qed.

Lemma zeros_cons x b : zeros (x :: b) = (if x then 0 else 1) + zeros b.
Proof. unfold zeros. rewrite filter_cons. destruct x; case_decide; simpl; try done; lia. Qed.

Lemma zeros_app b c : zeros (b ++ c) = zeros b + zeros c.
Proof. unfold zeros. rewrite filter_app, length_app. lia. Qed.

Lemma zeros_bounds b : 0 ≤ zeros b ≤ Z.of_nat (length b).
Proof. unfold zeros. pose proof (length_filter (λ x, x = false) b). lia. Qed.

Lemma zeros_replicate n x : zeros (replicate n x) = if x then 0 else Z.of_nat n.
Proof. induction n; [by destruct x|]. cbn [replicate]. rewrite zeros_cons, IHn. destruct x; lia. Qed.

Lemma zeros_insert b k :
  b !! k = Some false → zeros (<[k := true]> b) = zeros b - 1.
Proof.
  revert k. induction b as [|x b IH]; intros [|k] H; simplify_eq/=.
  - rewrite !zeros_cons. lia.
  - rewrite !zeros_cons, IH by done. lia.
Qed.

Lemma zeros_take_drop k b : zeros (take k b) + zeros (drop k b) = zeros b.
Proof. by rewrite <- zeros_app, take_drop. Qed.

Lemma zeros_all_true b : (∀ k, (k < length b)%nat → b !! k = Some true) ↔ zeros b = 0.
Proof.
  induction b as [|x b IH]; [split; [done|intros _ k; simpl; lia]|]. rewrite zeros_cons.
  pose proof (zeros_bounds b). split; intros H1.
  - pose proof (H1 0%nat ltac:(simpl; lia)). simplify_eq/=.
    rewrite (proj1 IH); [done|]. intros k Hk. apply (H1 (S k)). simpl; lia.
  - destruct x; [|lia]. intros [|k] Hk; [done|]. apply IH; simpl in *; lia.
Qed.

(** ** The next zero bit *)

Lemma find_next_zero_spec b off r :
  0 ≤ off ≤ Z.of_nat (length b) →
  find_next_zero_bit b (Z.of_nat (length b)) off = r →
  off ≤ r ≤ Z.of_nat (length b) ∧
  (∀ k, (Z.to_nat off ≤ k < Z.to_nat r)%nat → b !! k = Some true) ∧
  (r < Z.of_nat (length b) → b !! Z.to_nat r = Some false).
Proof.
  intros Hoff <-. unfold find_next_zero_bit. rewrite Nat2Z.id, firstn_all.
  destruct (list_find _ _) as [[k x]|] eqn:E.
  - apply list_find_Some in E as (H1 & -> & H2). rewrite lookup_drop in H1.
    pose proof (lookup_lt_Some _ _ _ H1).
    split; [lia|]. replace (Z.to_nat (off + Z.of_nat k)) with (Z.to_nat off + k)%nat by lia.
    split; [|done]. intros j Hj.
    destruct (lookup_lt_is_Some_2 b j) as [y Hy]; [lia|]. rewrite Hy.
    specialize (H2 (j - Z.to_nat off)%nat y). rewrite lookup_drop in H2.
    replace (Z.to_nat off + (j - Z.to_nat off))%nat with j in H2 by lia.
    specialize (H2 Hy ltac:(lia)). by destruct y.
  - apply list_find_None in E. split; [lia|]. split; [|lia]. intros j Hj.
    destruct (lookup_lt_is_Some_2 b j) as [y Hy]; [lia|]. rewrite Hy.
    rewrite Forall_lookup in E. specialize (E (j - Z.to_nat off)%nat y).
    rewrite lookup_drop in E.
    replace (Z.to_nat off + (j - Z.to_nat off))%nat with j in E by lia.
    specialize (E Hy). by destruct y.
Qed.

(** The bit found is determined by these facts. *)
Lemma find_next_zero_unique b off r :
  0 ≤ off → off ≤ r < Z.of_nat (length b) →
  (∀ k, (Z.to_nat off ≤ k < Z.to_nat r)%nat → b !! k = Some true) →
  b !! Z.to_nat r = Some false →
  find_next_zero_bit b (Z.of_nat (length b)) off = r.
Proof.
  intros H0 Hr H1 H2.
  destruct (find_next_zero_spec b off _ ltac:(lia) eq_refl) as (A & B & C).
  set (r' := find_next_zero_bit b (Z.of_nat (length b)) off) in *.
  destruct (Z.lt_trichotomy r' r) as [Hl|[->|Hl]]; [|done|].
  - rewrite (H1 (Z.to_nat r')) in C by lia. naive_solver lia.
  - rewrite (B (Z.to_nat r)) in H2 by lia. done.
Qed.

(** ** Single bits *)

Lemma test_and_set_spec b k x :
  b !! k = Some x → test_and_set_bit b (Z.of_nat k) = Some (x, <[k := true]> b).
Proof.
  intros H. pose proof (lookup_lt_Some _ _ _ H). unfold test_and_set_bit.
  assert (E : rd b (Z.of_nat k) = Some x) by (apply rd_Some; rewrite Nat2Z.id; split; [lia|done]).
  rewrite E, wr_in_range by lia. cbn [mbind option_bind]. by rewrite Nat2Z.id.
Qed.
