(* ===== verification/RateLimiter.v ===== *)
(** * The write-buffer rate limiter of pblk (src/mstream-pblk/pblk-rl.c)

    The limiter splits the entries of each write buffer between user I/O and
    garbage collection.  [pblk_rl] is the device-wide part of the state
    (thresholds, the two quotas, the free-block counter) and [pblk_rl_per_rb]
    the per-buffer part (the entries each class holds).  The collector's
    on/off switch ([pblk_gc], src/mstream-pblk/pblk-gc.c) is driven from here. *)

From S2P Require Import Prelude.

(** ** Constants (pblk.h) *)

Definition PBLK_MAX_REQ_ADDRS : Z := 16.
Definition PBLK_MAX_REQ_ADDRS_PW : Z := 4.
Definition RESERVED_SPACE : Z := 16 + 5.
Definition PBLK_GC_RSV_LINE : Z := 1.

(** [OP_RATE] is 25, so the [#else] branch of the threshold table applies. *)
Definition PBLK_USER_HIGH_THRS : Z := 53.
Definition PBLK_USER_LOW_THRS : Z := 67.

Definition PBLK_RL_HIGH : Z := 1.
Definition PBLK_RL_MID : Z := 2.
Definition PBLK_RL_LOW : Z := 3.

(** The completion codes of LightNVM; [NVM_IO_OK] is the zero one. *)
Inductive nvm_io := NVM_IO_OK | NVM_IO_REQUEUE | NVM_IO_DONE | NVM_IO_ERR.

#[global] Instance nvm_io_eq_dec : EqDecision nvm_io.
Proof. solve_decision. Defined.

(** ** State *)

Record pblk_rl := {
  high : Z;            (* unsigned int *)
  low : Z;             (* unsigned int *)
  high_pw : Z;         (* unsigned int *)
  rb_windows_pw : Z;   (* int *)
  rb_budget : Z;       (* int *)
  rb_user_max : Z;     (* int *)
  rb_gc_max : Z;       (* int *)
  rb_state : Z;        (* int *)
  rb_max_io : Z;       (* int *)
  rsv_blocks : Z;      (* int *)
  total_blocks : Z;    (* unsigned long *)
  free_blocks : Z      (* atomic_t *)
}.

(** [u_timer] is the jiffy at which the pending timer fires, if it is armed. *)
Record pblk_rl_per_rb := {
  rb_space : Z;
  rb_user_cnt : Z;
  rb_gc_cnt : Z;
  rb_user_active : Z;
  rb_gc_active : Z;
  u_timer : option Z
}.

(** The switches of the collector, and how often its threads were woken. *)
Record pblk_gc := {
  gc_active : Z;
  gc_enabled : Z;
  gc_forced : Z;
  gc_kicks : nat
}.

#[global] Instance pblk_rl_fields : Fields pblk_rl := λ r,
  Build_pblk_rl (high r) (low r) (high_pw r) (rb_windows_pw r) (rb_budget r) (rb_user_max r)
    (rb_gc_max r) (rb_state r) (rb_max_io r) (rsv_blocks r) (total_blocks r) (free_blocks r).
#[global] Instance pblk_rl_per_rb_fields : Fields pblk_rl_per_rb := λ r,
  Build_pblk_rl_per_rb (rb_space r) (rb_user_cnt r) (rb_gc_cnt r) (rb_user_active r)
    (rb_gc_active r) (u_timer r).
#[global] Instance pblk_gc_fields : Fields pblk_gc := λ r,
  Build_pblk_gc (gc_active r) (gc_enabled r) (gc_forced r) (gc_kicks r).

(** ** Collector switch (pblk-gc.c) *)

Definition pblk_gc_start (g : pblk_gc) : pblk_gc := g <| gc_active := 1 |>.
Definition pblk_gc_stop (g : pblk_gc) : pblk_gc := g <| gc_active := 0 |>.
Definition pblk_gc_kick (g : pblk_gc) : pblk_gc := g <| gc_kicks ::= S |>.

Definition pblk_gc_should_start (g : pblk_gc) : pblk_gc :=
  let g := if nz (gc_enabled g) && negb (nz (gc_active g)) then pblk_gc_start g else g in
  pblk_gc_kick g.

Definition pblk_gc_should_stop (g : pblk_gc) : pblk_gc :=
  if nz (gc_active g) && negb (nz (gc_forced g)) then pblk_gc_stop g else g.

(** ** Per-buffer accounting (pblk-rl.c) *)

Definition pblk_rl_is_limit (r : pblk_rl_per_rb) : bool := rb_space r =? 0.

Definition pblk_rl_user_may_insert (rl : pblk_rl) (r : pblk_rl_per_rb) (nr_entries : Z)
    : nvm_io :=
  if (rb_space r >=? 0) && (rb_space r - nr_entries <? 0) then NVM_IO_ERR
  else if rb_user_cnt r >=? rb_user_max rl then NVM_IO_REQUEUE
  else NVM_IO_OK.

Definition pblk_rl_inserted (r : pblk_rl_per_rb) (nr_entries : Z) : pblk_rl_per_rb :=
  if rb_space r >=? 0 then r <| rb_space := s32 (rb_space r - nr_entries) |> else r.

Definition pblk_rl_gc_may_insert (rl : pblk_rl) (r : pblk_rl_per_rb) (nr_entries : Z)
    : bool :=
  negb ((rb_gc_cnt r >=? rb_gc_max rl) && nz (rb_user_active r)).

(** [msecs_to_jiffies] belongs to the kernel; [now] is [jiffies] and [five] the
    jiffies in 5000 ms. *)
Definition pblk_rl_kick_u_timer (now five : Z) (r : pblk_rl_per_rb) : pblk_rl_per_rb :=
  r <| u_timer := Some (now + five) |>.

Definition pblk_rl_user_in (now five : Z) (r : pblk_rl_per_rb) (nr_entries : Z)
    : pblk_rl_per_rb :=
  let r := r <| rb_user_cnt := s32 (rb_user_cnt r + nr_entries) |> in
  let r := r <| rb_user_active := 1 |> in
  pblk_rl_kick_u_timer now five r.

Definition pblk_rl_gc_in (r : pblk_rl_per_rb) (nr_entries : Z) : pblk_rl_per_rb :=
  r <| rb_gc_cnt := s32 (rb_gc_cnt r + nr_entries) |>.

Definition pblk_rl_out (r : pblk_rl_per_rb) (nr_user nr_gc : Z) : pblk_rl_per_rb :=
  r <| rb_user_cnt := s32 (rb_user_cnt r - nr_user) |>
    <| rb_gc_cnt := s32 (rb_gc_cnt r - nr_gc) |>.

(** The timer handler: no user write for five seconds. *)
Definition pblk_rl_u_timer (r : pblk_rl_per_rb) : pblk_rl_per_rb :=
  r <| rb_user_active := 0 |> <| u_timer := None |>.

Definition pblk_rl_free (r : pblk_rl_per_rb) : pblk_rl_per_rb := r <| u_timer := None |>.

(** ** Quotas *)

(** The [int] counter read as an [unsigned long]. *)
Definition pblk_rl_nr_free_blks (rl : pblk_rl) : Z := u64 (free_blocks rl).

(** [None] is the undefined behaviour of a shift by a negative amount or by 64
    and more. *)
Definition pblk_rl_update_rates (rl : pblk_rl) (max : Z) : option pblk_rl :=
  let free := pblk_rl_nr_free_blks rl in
  if high rl <=? free then
    Some (rl <| rb_user_max := s32 max |> <| rb_gc_max := 0 |> <| rb_state := PBLK_RL_HIGH |>)
  else
    let shift := s32 (u32 (high_pw rl - rb_windows_pw rl)) in
    _ ← ensure ((0 <=? shift) && (shift <? 64));
    let user_windows := s32 (Z.shiftr free shift) in
    let user_max := s32 (Z.shiftl user_windows PBLK_MAX_REQ_ADDRS_PW) in
    let rl := rl <| rb_user_max := user_max |>
                 <| rb_gc_max := s32 (u64 (max - user_max)) |> in
    let rl := if free <=? u64 (rsv_blocks rl)
              then rl <| rb_user_max := 0 |> <| rb_gc_max := s32 max |> else rl in
    Some (rl <| rb_state := PBLK_RL_LOW |>).

(** The two callers of [pblk_rl_update_rates] take the same decision. *)
Definition gc_decide (st : Z) (g : pblk_gc) : pblk_gc :=
  if st =? Z.lor PBLK_RL_MID PBLK_RL_LOW then pblk_gc_should_start g
  else pblk_gc_should_stop g.

Definition pblk_gc_should_kick (rl : pblk_rl) (g : pblk_gc) : option (pblk_rl * pblk_gc) :=
  rl ← pblk_rl_update_rates rl (u64 (rb_budget rl));
  Some (rl, gc_decide (rb_state rl) g).

Definition pblk_rl_free_lines_inc (rl : pblk_rl) (g : pblk_gc) (blk_in_line : Z)
    : option (pblk_rl * pblk_gc) :=
  let rl := rl <| free_blocks := s32 (free_blocks rl + blk_in_line) |> in
  pblk_gc_should_kick rl g.

Definition pblk_rl_free_lines_dec (rl : pblk_rl) (blk_in_line : Z) : pblk_rl :=
  rl <| free_blocks := s32 (free_blocks rl - blk_in_line) |>.

Definition pblk_rl_high_thrs (rl : pblk_rl) : Z := high rl.
Definition pblk_rl_low_thrs (rl : pblk_rl) : Z := low rl.
Definition pblk_rl_sysfs_rate_show (rl : pblk_rl) : Z := rb_user_max rl.
Definition pblk_rl_max_io (rl : pblk_rl) : Z := rb_max_io rl.

(** The collector runs while it is active, below the upper threshold, and has
    lines to reclaim ([gc_target]). *)
Definition pblk_gc_should_run (g : pblk_gc) (rl : pblk_rl) (gc_target : Z) : bool :=
  nz (gc_active g) && (u32 (pblk_rl_nr_free_blks rl) <? pblk_rl_high_thrs rl)
    && (0 <? u32 gc_target).

Definition pblk_rl_per_rb_init : pblk_rl_per_rb :=
  {| rb_space := -1; rb_user_cnt := 0; rb_gc_cnt := 0; rb_user_active := 0;
     rb_gc_active := 0; u_timer := None |}.

Section init.
(** [get_count_order] is the kernel's rounded-up binary logarithm. *)
Context (get_count_order : Z → Z).

(** [rl0] holds the fields [pblk_set_provision] filled in before
    ([total_blocks], [free_blocks]); [blk_per_line] is [pblk->lm.blk_per_line]
    and [nr_rwb] the number of write buffers. *)
Definition pblk_rl_init (rl0 : pblk_rl) (blk_per_line budget : Z) (nr_rwb : nat)
    : pblk_rl * list pblk_rl_per_rb :=
  let min_blocks := s32 (blk_per_line * PBLK_GC_RSV_LINE) in
  let rl := rl0 <| high := u32 (total_blocks rl0 / PBLK_USER_HIGH_THRS) |> in
  let rl := rl <| high_pw := u32 (get_count_order (high rl)) |> in
  let rl := rl <| low := u32 (total_blocks rl / PBLK_USER_LOW_THRS) |> in
  let rl := rl <| high := RESERVED_SPACE |> in
  let rl := rl <| high_pw := u32 (get_count_order (high rl)) |> in
  let rl := if low rl <? u32 min_blocks then rl <| low := u32 min_blocks |> else rl in
  let rl := rl <| rsv_blocks := min_blocks |> in
  let rb_windows := u32 (Z.quot budget PBLK_MAX_REQ_ADDRS) in
  let rl := rl <| rb_windows_pw := get_count_order rb_windows |> in
  let rl := rl <| rb_budget := budget |> <| rb_user_max := budget |>
               <| rb_max_io := Z.shiftr budget 1 |> <| rb_gc_max := 0 |>
               <| rb_state := PBLK_RL_HIGH |> in
  (rl, replicate nr_rwb pblk_rl_per_rb_init).
End init.

(** ** Invariant

    The budget is a power-of-two number of windows of one maximal request, the
    upper threshold fits its power-of-two rounding, and the two quotas share
    the budget. *)

Record rl_ok (rl : pblk_rl) : Prop := {
  ok_windows : 0 ≤ rb_windows_pw rl ≤ high_pw rl;
  ok_high_pw : high_pw rl < 31;
  ok_high : 0 ≤ high rl ≤ 2 ^ high_pw rl;
  ok_budget : rb_budget rl = 2 ^ rb_windows_pw rl * PBLK_MAX_REQ_ADDRS;
  ok_budget_int : rb_budget rl < 2 ^ 31;
  ok_free : 0 ≤ free_blocks rl < 2 ^ 31;
  ok_rsv : 0 ≤ rsv_blocks rl < 2 ^ 31;
  ok_user : 0 ≤ rb_user_max rl;
  ok_gc : 0 ≤ rb_gc_max rl;
  ok_split : rb_user_max rl + rb_gc_max rl = rb_budget rl
}.

(** The number of windows left to the user below the threshold. *)
Definition user_windows (rl : pblk_rl) : Z :=
  free_blocks rl / 2 ^ (high_pw rl - rb_windows_pw rl).

Lemma user_windows_bound rl :
  rl_ok rl → free_blocks rl < high rl → 0 ≤ user_windows rl < 2 ^ rb_windows_pw rl.
Proof.
  intros [] Hlt. unfold user_windows.
  assert (2 ^ high_pw rl = 2 ^ (high_pw rl - rb_windows_pw rl) * 2 ^ rb_windows_pw rl) as E.
  { rewrite <- Z.pow_add_r by lia. f_equal. lia. }
  pose proof (pow2_pos (high_pw rl - rb_windows_pw rl) ltac:(lia)).
  split; [apply Z.div_pos; lia | apply Z.div_lt_upper_bound; lia].
Qed.

(** What [pblk_rl_update_rates] computes from an admissible state. *)
Definition rates_spec (rl : pblk_rl) : pblk_rl :=
  if high rl <=? free_blocks rl then
    rl <| rb_user_max := rb_budget rl |> <| rb_gc_max := 0 |> <| rb_state := PBLK_RL_HIGH |>
  else
    let user := if free_blocks rl <=? rsv_blocks rl then 0
                else user_windows rl * PBLK_MAX_REQ_ADDRS in
    rl <| rb_user_max := user |> <| rb_gc_max := rb_budget rl - user |>
       <| rb_state := PBLK_RL_LOW |>.

Lemma pblk_rl_update_rates_spec rl :
  rl_ok rl → pblk_rl_update_rates rl (u64 (rb_budget rl)) = Some (rates_spec rl).
Proof.
  intros Hok. pose proof Hok as [Hw Hp Hh Hb Hbi Hf Hr _ _ _].
  unfold pblk_rl_update_rates, rates_spec, pblk_rl_nr_free_blks.
  pose proof (pow2_pos (rb_windows_pw rl) ltac:(lia)).
  unfold PBLK_MAX_REQ_ADDRS, PBLK_MAX_REQ_ADDRS_PW in *.
  rewrite (u64_small (rb_budget rl)), (u64_small (free_blocks rl)) by lia.
  destruct (Z.leb_spec (high rl) (free_blocks rl)); [by rewrite s32_small by lia|].
  rewrite (u32_small (high_pw rl - _)), (s32_small (high_pw rl - _)) by lia.
  replace ((0 <=? _) && _) with true by (symmetry; apply andb_true_iff; lia); simpl.
  pose proof (user_windows_bound rl Hok ltac:(lia)).
  rewrite Z.shiftr_div_pow2 by lia. fold (user_windows rl).
  rewrite (s32_small (user_windows rl)) by lia.
  rewrite Z.shiftl_mul_pow2 by lia. change (2 ^ 4) with 16.
  rewrite (s32_small (user_windows rl * 16)), (u64_small (rb_budget rl - _)),
    (s32_small (rb_budget rl - _)), (s32_small (rb_budget rl)) by lia.
  simpl. rewrite (u64_small (rsv_blocks rl)) by lia.
  destruct (free_blocks rl <=? rsv_blocks rl); [|done].
  by rewrite Z.sub_0_r.
Qed.

Lemma rates_spec_ok rl : rl_ok rl → rl_ok (rates_spec rl).
Proof.
  intros Hok. pose proof Hok as []. unfold rates_spec.
  destruct (Z.leb_spec (high rl) (free_blocks rl)).
  - pose proof (pow2_pos (rb_windows_pw rl) ltac:(lia)).
    split; simpl; unfold PBLK_MAX_REQ_ADDRS in *; lia.
  - pose proof (user_windows_bound rl Hok ltac:(lia)).
    destruct (free_blocks rl <=? rsv_blocks rl);
      split; simpl; unfold PBLK_MAX_REQ_ADDRS in *; lia.
Qed.

(** ** Properties *)

(** Whenever a line is returned to the free pool, the limiter recomputes the
    quotas without undefined behaviour, the invariant survives, and the user and
    collector quotas are non-negative and add up to the buffer.  Below the upper
    threshold the collector always keeps room for one maximal request, and at or
    below the reserved blocks it owns the whole buffer. *)
Lemma free_lines_inc_quota rl g blk_in_line
    (Hok : rl_ok rl)
    (Hblk : 0 ≤ blk_in_line)
    (Hint : free_blocks rl + blk_in_line < 2 ^ 31) :
  ∃ rl' g', pblk_rl_free_lines_inc rl g blk_in_line = Some (rl', g') ∧ rl_ok rl' ∧
    rb_user_max rl' + rb_gc_max rl' = rb_budget rl ∧
    free_blocks rl' = free_blocks rl + blk_in_line ∧
    (high rl ≤ free_blocks rl' → rb_user_max rl' = rb_budget rl) ∧
    (free_blocks rl' < high rl → PBLK_MAX_REQ_ADDRS ≤ rb_gc_max rl') ∧
    (free_blocks rl' < high rl → free_blocks rl' ≤ rsv_blocks rl → rb_user_max rl' = 0).
Proof.
  pose proof Hok as []. unfold pblk_rl_free_lines_inc, pblk_gc_should_kick.
  rewrite s32_small by lia.
  set (rl1 := rl <| free_blocks := free_blocks rl + blk_in_line |>).
  assert (rl_ok rl1) as Hok1 by (split; simpl; lia).
  rewrite (pblk_rl_update_rates_spec rl1 Hok1). simpl.
  eexists _, _. split; [done|].
  pose proof (rates_spec_ok rl1 Hok1) as Hok2. split; [done|].
  revert Hok2. unfold rates_spec.
  destruct (Z.leb_spec (high rl1) (free_blocks rl1)); intros []; simpl in *; [naive_solver lia|].
  pose proof (user_windows_bound rl1 Hok1 ltac:(simpl; lia)).
  destruct (Z.leb_spec (free_blocks rl + blk_in_line) (rsv_blocks rl)); simpl in *;
    unfold PBLK_MAX_REQ_ADDRS in *; naive_solver lia.
Qed.

(** The throttling is monotone in the number of free blocks. *)
Lemma user_windows_mono rl rl' :
  high_pw rl = high_pw rl' → rb_windows_pw rl = rb_windows_pw rl' →
  0 ≤ rb_windows_pw rl ≤ high_pw rl → free_blocks rl ≤ free_blocks rl' →
  user_windows rl ≤ user_windows rl'.
Proof.
  intros E1 E2 ? ?. unfold user_windows. rewrite E1, E2.
  apply Z.div_le_mono; [apply pow2_pos|]; lia.
Qed.

(** More free blocks never lower the user quota: the quota computed after
    reclaiming a line is at least the one computed before it. *)
Lemma user_quota_monotone rl more rl1 rl2
    (Hok : rl_ok rl) (Hmore : 0 ≤ more) (Hint : free_blocks rl + more < 2 ^ 31)
    (H1 : pblk_rl_update_rates rl (u64 (rb_budget rl)) = Some rl1)
    (H2 : pblk_rl_update_rates (rl <| free_blocks := free_blocks rl + more |>)
            (u64 (rb_budget rl)) = Some rl2) :
  rb_user_max rl1 ≤ rb_user_max rl2.
Proof.
  set (rl' := rl <| free_blocks := free_blocks rl + more |>) in *.
  pose proof Hok as [].
  assert (rl_ok rl') as Hok' by (split; simpl; lia).
  rewrite pblk_rl_update_rates_spec in H1 by done.
  change (rb_budget rl) with (rb_budget rl') in H2.
  rewrite pblk_rl_update_rates_spec in H2 by done. simplify_eq.
  pose proof (rates_spec_ok _ Hok) as []. pose proof (rates_spec_ok _ Hok') as [].
  pose proof (user_windows_mono rl rl' eq_refl eq_refl ltac:(lia) ltac:(simpl; lia)).
  revert ok_split1 ok_split2. revert ok_gc1. unfold rates_spec. simpl.
  destruct (Z.leb_spec (high rl) (free_blocks rl));
  destruct (Z.leb_spec (high rl) (free_blocks rl + more)); simpl; try lia.
  destruct (Z.leb_spec (free_blocks rl) (rsv_blocks rl));
  destruct (Z.leb_spec (free_blocks rl + more) (rsv_blocks rl)); simpl;
    unfold PBLK_MAX_REQ_ADDRS in *; try lia.
  pose proof (user_windows_bound rl' Hok' ltac:(simpl; lia)). intros; lia.
Qed.

(** The collector is switched on exactly when the free blocks fall below the
    upper threshold and it is enabled, and is switched off at or above it unless
    it was forced from user space; in the first case its threads are woken. *)
Lemma gc_switch_follows_threshold rl g rl' g'
    (Hok : rl_ok rl)
    (Hrun : pblk_gc_should_kick rl g = Some (rl', g')) :
  gc_enabled g' = gc_enabled g ∧ gc_forced g' = gc_forced g ∧
  if free_blocks rl <? high rl then
    (nz (gc_active g') = nz (gc_active g) || nz (gc_enabled g)) ∧
    gc_kicks g' = S (gc_kicks g)
  else
    (nz (gc_active g') = nz (gc_active g) && nz (gc_forced g)) ∧
    gc_kicks g' = gc_kicks g.
Proof.
  unfold pblk_gc_should_kick in Hrun.
  rewrite pblk_rl_update_rates_spec in Hrun by done. simpl in Hrun. simplify_eq.
  unfold rates_spec, gc_decide, pblk_gc_should_start, pblk_gc_should_stop.
  destruct (Z.leb_spec (high rl) (free_blocks rl));
    destruct (Z.ltb_spec (free_blocks rl) (high rl)); try lia; simpl;
    destruct (nz (gc_active g)) eqn:E1, (nz (gc_enabled g)) eqn:E2, (nz (gc_forced g)) eqn:E3;
    simpl; rewrite ?E1, ?E2, ?E3; repeat split; done.
Qed.

(** Initialisation establishes the invariant for every buffer of 16 to 512
    entries (a power of two), with the whole buffer given to user I/O, for any
    [get_count_order] that rounds up the binary logarithm. *)
Lemma pblk_rl_init_ok get_count_order rl0 blk_per_line k nr_rwb
    (Horder : ∀ n, 0 < n → 0 ≤ get_count_order n ∧
                2 ^ (get_count_order n - 1) < n ≤ 2 ^ get_count_order n)
    (Hk : 4 ≤ k ≤ 9)
    (Hblk : 0 ≤ blk_per_line < 2 ^ 31)
    (Hfree : 0 ≤ free_blocks rl0 < 2 ^ 31) :
  let '(rl, rbs) := pblk_rl_init get_count_order rl0 blk_per_line (2 ^ k) nr_rwb in
  rl_ok rl ∧ rb_user_max rl = 2 ^ k ∧ free_blocks rl = free_blocks rl0 ∧
  length rbs = nr_rwb ∧
  Forall (λ r, rb_user_cnt r = 0 ∧ rb_gc_cnt r = 0 ∧ pblk_rl_is_limit r = false) rbs.
Proof.
  assert (∀ n m, 0 ≤ m → 2 ^ (m - 1) < n ≤ 2 ^ m → 0 < n → get_count_order n = m) as Huniq.
  { intros n m ? ? Hn. destruct (Horder n Hn) as (? & ? & ?).
    assert (get_count_order n - 1 < m) by (apply (Z.pow_lt_mono_r_iff 2); lia).
    assert (m - 1 < get_count_order n) by (apply (Z.pow_lt_mono_r_iff 2); lia). lia. }
  assert (get_count_order RESERVED_SPACE = 5) as E5
    by (apply Huniq; unfold RESERVED_SPACE; simpl; lia).
  assert (2 ^ k = 2 ^ (k - 4) * 16) as Ek.
  { change 16 with (2 ^ 4). rewrite <- Z.pow_add_r by lia. f_equal. lia. }
  pose proof (pow2_pos (k - 4) ltac:(lia)).
  assert (2 ^ (k - 4) ≤ 2 ^ 5) by (apply Z.pow_le_mono_r; lia).
  assert (get_count_order (u32 (Z.quot (2 ^ k) PBLK_MAX_REQ_ADDRS)) = k - 4) as Ew.
  { unfold PBLK_MAX_REQ_ADDRS. rewrite Ek, Z.quot_mul, u32_small by lia.
    apply Huniq; try lia. split; [apply Z.pow_lt_mono_r; lia|lia]. }
  unfold pblk_rl_init. simpl. rewrite E5, Ew.
  rewrite (s32_small (blk_per_line * _)) by (unfold PBLK_GC_RSV_LINE; lia).
  split; [|split_and!; [done|by case_match|apply length_replicate
                       |by apply Forall_replicate]].
  case_match; split; simpl; unfold RESERVED_SPACE, PBLK_GC_RSV_LINE, PBLK_MAX_REQ_ADDRS in *;
    change (u32 5) with 5; lia.
Qed.

(** ** Witnesses *)

(** A device with 1000 blocks, lines of 8 blocks and the 32-entry buffer of the
    shipped configuration ([RWB_BUFFER]), with 15 free blocks left. *)
Definition rl_sample : pblk_rl :=
  (pblk_rl_init Z.log2_up
    {| high := 0; low := 0; high_pw := 0; rb_windows_pw := 0; rb_budget := 0;
       rb_user_max := 0; rb_gc_max := 0; rb_state := 0; rb_max_io := 0; rsv_blocks := 0;
       total_blocks := 1000; free_blocks := 15 |} 8 32 2).1.

Definition gc_sample : pblk_gc :=
  {| gc_active := 0; gc_enabled := 1; gc_forced := 0; gc_kicks := 0 |}.

Lemma rl_sample_ok : rl_ok rl_sample.
Proof. split; vm_compute; (done || (split; done)). Qed.
