(* ===== verification/RingBuffer.v ===== *)
(** * The write buffer of pblk (src/mstream-pblk/pblk-rb.c)

    Each stream owns a circular buffer of sectors.  Four pointers chase each
    other around it: [mem] (next entry to hand to a writer), [subm] (next entry
    to submit to the media), [sync] (next entry to be acknowledged by the media)
    and [l2p_update] (next entry whose logical-to-physical mapping has to leave
    the buffer).  Completions arrive out of order and wait on [compl_list]
    (src/mstream-pblk/pblk-write.c) until the gap in front of them closes.

    The build configuration modelled is the one the sources require:
    [CONFIG_PBLK_MULTIMAP], [CONFIG_PBLK_DFTL] and [CONFIG_NVM_DEBUG].  The
    streams modelled are the sector- and block-mapped ones; the reserved entries
    a page-mapped stream adds ([pblk_rb_reserved_entry] and the [_to_rrwb]
    functions) are left out, and with them the only way in which a map update
    writes back into a buffer ([pblk_cache_invalidate]). *)

From S2P Require Import Prelude RateLimiter.

(** ** Addresses

    [struct ppa_addr] belongs to the patched kernel header linux/lightnvm.h; the
    driver tells three kinds of values apart. *)

Inductive ppa_addr :=
  | ADDR_EMPTY                               (* ppa == ~0ULL *)
  | Cache (line nrb : Z) (reserved : bool)   (* c.is_cached *)
  | Dev (blk pg lun ch pl sec : Z).          (* g.* *)

#[global] Instance ppa_addr_eq_dec : EqDecision ppa_addr.
Proof. solve_decision. Defined.

Definition pblk_ppa_empty (p : ppa_addr) : bool := bool_decide (p = ADDR_EMPTY).
Definition pblk_addr_in_cache (p : ppa_addr) : bool :=
  match p with Cache _ _ _ => true | _ => false end.
Definition pblk_cacheline_to_addr (addr nrb : Z) : ppa_addr := Cache addr nrb false.
Definition pblk_addr_to_cacheline (p : ppa_addr) : Z :=
  match p with Cache l _ _ => l | _ => 0 end.
Definition pblk_ppa_comp (l r : ppa_addr) : bool := bool_decide (l = r).

(** The logical address [ADDR_EMPTY] of a padding entry. *)
Definition LBA_EMPTY : Z := 2 ^ 64 - 1.

(** ** Flags (pblk.h) *)

Definition PBLK_IOTYPE_USER : Z := Z.shiftl 1 0.
Definition PBLK_IOTYPE_GC : Z := Z.shiftl 1 1.
Definition PBLK_FLUSH_ENTRY : Z := Z.shiftl 1 2.
Definition PBLK_WRITTEN_DATA : Z := Z.shiftl 1 3.
Definition PBLK_SUBMITTED_ENTRY : Z := Z.shiftl 1 4.
Definition PBLK_WRITABLE_ENTRY : Z := Z.shiftl 1 5.
Definition PBLK_RESERVED_ENTRY : Z := Z.shiftl 1 6.
Definition PBLK_WAITREAD_ENTRY : Z := Z.shiftl 1 7.
Definition PBLK_INVALIDATE_ENTRY : Z := Z.shiftl 1 8.

(** [flags & ~mask] *)
Definition clr (flags mask : Z) : Z := Z.land flags (Z.lnot mask).

Definition EMPTY_ENTRY : Z := 2 ^ 32 - 1.

(** ** State *)

Record pblk_w_ctx := {
  bios : list nat;       (* bios to complete with the entry *)
  lba : Z;
  ppa : ppa_addr;
  flags : Z;
  submit_flags : Z
}.

(** [data] is the content of the sector the entry points to. *)
Record pblk_rb_entry := {
  cacheline : ppa_addr;
  data : list Z;
  w_ctx : pblk_w_ctx
}.

Record pblk_rb := {
  index : Z;
  entries : list pblk_rb_entry;
  mem : Z;
  subm : Z;
  sync : Z;
  sync_point : Z;
  l2p_update : Z;
  nr_entries : Z;
  seg_size : Z;
  submit_point : Z;
  nr_user : Z;
  inflight_sync_point : Z
}.

(** Completion context of a write request. *)
Record pblk_c_ctx := {
  sentry : Z;
  nr_valid : Z;
  nr_padded : Z
}.

Record pblk_rb_ctx := {
  rwb : pblk_rb;
  rb_rl : pblk_rl_per_rb;
  compl_list : list pblk_c_ctx
}.

#[global] Instance pblk_w_ctx_fields : Fields pblk_w_ctx := λ r,
  Build_pblk_w_ctx (bios r) (lba r) (ppa r) (flags r) (submit_flags r).
#[global] Instance pblk_rb_entry_fields : Fields pblk_rb_entry := λ r,
  Build_pblk_rb_entry (cacheline r) (data r) (w_ctx r).
#[global] Instance pblk_rb_fields : Fields pblk_rb := λ r,
  Build_pblk_rb (index r) (entries r) (mem r) (subm r) (sync r) (sync_point r)
    (l2p_update r) (nr_entries r) (seg_size r) (submit_point r) (nr_user r)
    (inflight_sync_point r).
#[global] Instance pblk_rb_ctx_fields : Fields pblk_rb_ctx := λ r,
  Build_pblk_rb_ctx (rwb r) (rb_rl r) (compl_list r).

(** ** Interfaces *)

(** The macros of the kernel's linux/circ_buf.h, for indices into a buffer
    whose size is a power of two. *)
Class CircBuf := {
  CIRC_CNT : Z → Z → Z → Z;
  CIRC_SPACE : Z → Z → Z → Z;
  CIRC_CNT_spec : ∀ k head tail, 0 ≤ k < 32 → 0 ≤ head < 2 ^ k → 0 ≤ tail < 2 ^ k →
    CIRC_CNT head tail (2 ^ k) = (head - tail) mod 2 ^ k;
  CIRC_SPACE_spec : ∀ k head tail, 0 ≤ k < 32 → 0 ≤ head < 2 ^ k → 0 ≤ tail < 2 ^ k →
    CIRC_SPACE head tail (2 ^ k) = 2 ^ k - 1 - (head - tail) mod 2 ^ k
}.

(** What the buffer asks of the logical-to-physical map and of the lines
    (src/mstream-pblk/pblk-core.c), on a state [M]: [map_cache] is
    [pblk_update_map_cache], [map_dev] is [pblk_update_map_dev] (it stops when
    handed a cache address), [map_gc] is [pblk_update_map_gc], [map_get] is
    [pblk_trans_map_get], [line_put] drops the reference an entry holds on the
    line of its address. *)
Class L2P (M : Type) := {
  map_cache : M → Z → ppa_addr → option M;
  map_dev : M → Z → ppa_addr → ppa_addr → option M;
  map_gc : M → Z → ppa_addr → Z → option (M * bool);
  map_get : M → Z → ppa_addr;
  line_put : M → ppa_addr → option M;
  map_dev_total : ∀ m lba p c, pblk_addr_in_cache p = false → is_Some (map_dev m lba p c);
  line_put_total : ∀ m p, pblk_addr_in_cache p = false → is_Some (line_put m p);
  map_cache_total : ∀ m lba p, pblk_addr_in_cache p = true → is_Some (map_cache m lba p);
  map_secs : M → Z;       (* sectors of the target *)
  map_cache_get : ∀ m m' lba p, 0 ≤ lba < map_secs m → map_cache m lba p = Some m' →
    map_get m' lba = p
}.

(** ** Operations *)

Section operations.
Context `{!CircBuf} {M : Type} `{!L2P M}.
Implicit Types (rb : pblk_rb) (m : M) (cx : pblk_rb_ctx).

(** [(rb->x + n) & (rb->nr_entries - 1)] *)
Definition ring_add rb (pos n : Z) : Z := Z.land (u32 (pos + n)) (u32 (nr_entries rb - 1)).

Definition pblk_rb_wrap_pos rb (pos : Z) : Z := Z.land pos (nr_entries rb - 1).
Definition pblk_rb_pos_oob rb (pos : Z) : bool := nr_entries rb <=? pos.

Definition pblk_rb_space rb : Z := CIRC_SPACE (mem rb) (sync rb) (nr_entries rb).
Definition pblk_rb_read_count rb : Z := CIRC_CNT (mem rb) (subm rb) (nr_entries rb).
Definition pblk_rb_sync_count rb : Z := CIRC_CNT (mem rb) (sync rb) (nr_entries rb).

Definition pblk_rb_read_commit rb (n : Z) : Z * pblk_rb :=
  (subm rb, rb <| subm := ring_add rb (subm rb) n |>).

(** The write context after [clean_wctx].  The function spins until the entry
    has been submitted; run on its own it never leaves the loop otherwise. *)
Definition clean_wctx (w : pblk_w_ctx) : option pblk_w_ctx :=
  _ ← ensure (has (submit_flags w) PBLK_SUBMITTED_ENTRY);
  Some (w <| flags := PBLK_WRITABLE_ENTRY |> <| submit_flags := PBLK_WRITABLE_ENTRY |>
          <| ppa := ADDR_EMPTY |> <| lba := LBA_EMPTY |>).

(** The body of the loop of [__pblk_rb_update_l2p]: the buffer, the map and
    the two counters of entries released. *)
Definition update_l2p_step (s : pblk_rb * M * Z * Z) : option (pblk_rb * M * Z * Z) :=
  let '(rb, m, user_io, gc_io) := s in
  entry ← rd (entries rb) (l2p_update rb);
  let w := w_ctx entry in
  let '(user_io, gc_io) :=
    if has (flags w) PBLK_IOTYPE_USER then (user_io + 1, gc_io)
    else if has (flags w) PBLK_IOTYPE_GC then (user_io, gc_io + 1)
    else (user_io, gc_io) in
  m ← map_dev m (lba w) (ppa w) (cacheline entry);
  m ← line_put m (ppa w);
  w ← clean_wctx w;
  es ← wr (entries rb) (l2p_update rb) (entry <| w_ctx := w |>);
  Some (rb <| entries := es |> <| l2p_update := ring_add rb (l2p_update rb) 1 |>,
        m, user_io, gc_io).

Fixpoint update_l2p_loop (n : nat) (s : pblk_rb * M * Z * Z)
    : option (pblk_rb * M * Z * Z) :=
  match n with
  | O => Some s
  | S n => s ← update_l2p_step s; update_l2p_loop n s
  end.

Definition __pblk_rb_update_l2p cx m (to_update : Z) : option (pblk_rb_ctx * M) :=
  '(rb, m, user_io, gc_io) ← update_l2p_loop (Z.to_nat to_update) (rwb cx, m, 0, 0);
  Some (cx <| rwb := rb |> <| rb_rl := pblk_rl_out (rb_rl cx) user_io gc_io |>, m).

Definition pblk_rb_update_l2p cx m (n mem0 : Z) : option (pblk_rb_ctx * M) :=
  let rb := rwb cx in
  let space := CIRC_SPACE mem0 (l2p_update rb) (nr_entries rb) in
  if n <? space then Some (cx, m)
  else __pblk_rb_update_l2p cx m (u32 (n - space)).

Definition pblk_rb_sync_l2p cx m : option (pblk_rb_ctx * M) :=
  let rb := rwb cx in
  __pblk_rb_update_l2p cx m (CIRC_CNT (sync rb) (l2p_update rb) (nr_entries rb)).

(** *** Writing entries *)

Definition __pblk_rb_write_entry (d : list Z) (w : pblk_w_ctx) (entry : pblk_rb_entry)
    : pblk_rb_entry :=
  entry <| data := d |>
        <| w_ctx := (w_ctx entry) <| lba := lba w |> <| ppa := ppa w |> |>.

Definition set_flags (f : Z) (entry : pblk_rb_entry) : pblk_rb_entry :=
  entry <| w_ctx := (w_ctx entry) <| flags := f |> |>.

Definition pblk_rb_write_entry_user rb m (d : list Z) (w : pblk_w_ctx) (ring_pos : Z)
    : option (pblk_rb * M) :=
  entry ← rd (entries rb) ring_pos;
  _ ← ensure (has (flags (w_ctx entry)) PBLK_WRITABLE_ENTRY);
  let entry := __pblk_rb_write_entry d w entry in
  m ← map_cache m (lba w) (cacheline entry);
  let entry := set_flags (Z.lor (flags w) PBLK_WRITTEN_DATA) entry in
  es ← wr (entries rb) ring_pos entry;
  Some (rb <| entries := es |>, m).

Definition pblk_rb_write_entry_gc rb m (d : list Z) (w : pblk_w_ctx) (gc_line ring_pos : Z)
    : option (pblk_rb * M) :=
  entry ← rd (entries rb) ring_pos;
  _ ← ensure (has (flags (w_ctx entry)) PBLK_WRITABLE_ENTRY);
  let entry := __pblk_rb_write_entry d w entry in
  let drop := entry <| w_ctx := (w_ctx entry) <| lba := LBA_EMPTY |> |> in
  '(entry, m) ←
    (if lba w =? LBA_EMPTY then Some (drop, m)
     else '(m, ok) ← map_gc m (lba w) (cacheline entry) gc_line;
          Some (if ok : bool then entry else drop, m));
  let entry := set_flags (Z.lor (flags w) PBLK_WRITTEN_DATA) entry in
  es ← wr (entries rb) ring_pos entry;
  Some (rb <| entries := es |>, m).

(** *** Admission *)

Definition __pblk_rb_may_write cx m (n : Z) : option (pblk_rb_ctx * M * option Z) :=
  let rb := rwb cx in
  let mem0 := mem rb in
  if CIRC_SPACE mem0 (sync rb) (nr_entries rb) <? n then Some (cx, m, None)
  else
    '(cx, m) ← pblk_rb_update_l2p cx m n mem0;
    Some (cx, m, Some mem0).

Definition pblk_rb_may_write cx m (n : Z) : option (pblk_rb_ctx * M * option Z) :=
  '(cx, m, r) ← __pblk_rb_may_write cx m n;
  match r with
  | None => Some (cx, m, None)
  | Some pos =>
      let rb := rwb cx in
      Some (cx <| rwb := rb <| mem := ring_add rb pos n |> |>, m, Some pos)
  end.

Definition pblk_rb_may_write_flush cx m (n : Z) : option (pblk_rb_ctx * M * option Z) :=
  '(cx, m, r) ← __pblk_rb_may_write cx m n;
  match r with
  | None => Some (cx, m, None)
  | Some pos =>
      let rb := rwb cx in
      Some (cx <| rwb := rb <| nr_user := u32 (nr_user rb + n) |>
                            <| mem := ring_add rb pos n |> |>, m, Some pos)
  end.

(** The result code and, when entries were granted, their position. *)
Definition pblk_rb_may_write_user (rl : pblk_rl) cx m (n : Z)
    : option (pblk_rb_ctx * M * nvm_io * option Z) :=
  match pblk_rl_user_may_insert rl (rb_rl cx) n with
  | NVM_IO_OK =>
      '(cx, m, r) ← pblk_rb_may_write_flush cx m n;
      match r with
      | None => Some (cx, m, NVM_IO_REQUEUE, None)
      | Some pos => Some (cx, m, NVM_IO_DONE, Some pos)
      end
  | io_ret => Some (cx, m, io_ret, None)
  end.

Definition pblk_rb_may_write_gc (rl : pblk_rl) cx m (n : Z)
    : option (pblk_rb_ctx * M * option Z) :=
  if negb (pblk_rl_gc_may_insert rl (rb_rl cx) n) then Some (cx, m, None)
  else
    '(cx, m, r) ← pblk_rb_may_write cx m n;
    match r with
    | None => Some (cx, m, None)
    | Some pos => Some (cx <| rb_rl := pblk_rl_gc_in (rb_rl cx) n |>, m, Some pos)
    end.

(** *** Sync points *)

(** The pointer to the last entry that must reach the media.  The result says
    whether the bio was attached to it. *)
Definition pblk_rb_sync_point_set rb (bio : option nat) (pos : Z) : option (pblk_rb * bool) :=
  let rb := rb <| inflight_sync_point ::= Z.succ |> in
  if pos =? subm rb then Some (rb, false)
  else
    let sp := if pos =? 0 then nr_entries rb - 1 else pos - 1 in
    entry ← rd (entries rb) sp;
    let entry := set_flags (Z.lor (flags (w_ctx entry)) PBLK_FLUSH_ENTRY) entry in
    let '(entry, attached) :=
      match bio with
      | None => (entry, false)
      | Some b => (entry <| w_ctx := (w_ctx entry) <| bios ::= λ l, l ++ [b] |> |>, true)
      end in
    es ← wr (entries rb) sp entry;
    Some (rb <| entries := es |> <| sync_point := sp |>, attached).

(** The second component: the writer thread of the buffer is woken. *)
Definition pblk_rb_flush rb : option (pblk_rb * bool) :=
  '(rb, attached) ← pblk_rb_sync_point_set rb None (mem rb);
  Some (rb, negb attached).

Definition pblk_rb_sync_point_count rb : Z :=
  if sync_point rb =? EMPTY_ENTRY then 0
  else u32 (CIRC_CNT (sync_point rb) (subm rb) (nr_entries rb) + 1).

(** *** Submission *)

(** One iteration of the loop of [pblk_rb_read_to_bio] that finds the data of
    the entry in place ([try:] spins until it is) and adds its page to the
    bio ([add_ok]).  The boolean tells a failure to add the page. *)
Definition read_entry rb (pos : Z) (add_ok : bool) : option (pblk_rb * bool) :=
  entry ← rd (entries rb) pos;
  let f := flags (w_ctx entry) in
  _ ← ensure (has f PBLK_WRITTEN_DATA || has f PBLK_INVALIDATE_ENTRY);
  let f := clr f PBLK_RESERVED_ENTRY in
  if negb add_ok then
    let f := Z.lor (clr f PBLK_WRITTEN_DATA) PBLK_SUBMITTED_ENTRY in
    es ← wr (entries rb) pos (set_flags f entry);
    Some (rb <| entries := es |>, false)
  else
    let '(rb, f) :=
      if has f PBLK_FLUSH_ENTRY then
        ((if sync_point rb =? pos then rb <| sync_point := EMPTY_ENTRY |> else rb)
           <| inflight_sync_point ::= Z.pred |>,
         clr f PBLK_FLUSH_ENTRY)
      else (rb, f) in
    let f := Z.lor (clr f PBLK_WRITTEN_DATA) PBLK_SUBMITTED_ENTRY in
    let rb := rb <| submit_point := pos |> in
    let entry := entry <| w_ctx := (w_ctx entry) <| flags := f |>
                                     <| submit_flags := PBLK_SUBMITTED_ENTRY |> |> in
    es ← wr (entries rb) pos entry;
    Some (rb <| entries := es |>, true).

Fixpoint read_entries (n : nat) rb (pos : Z) (add_ok : nat → bool) : option (pblk_rb * bool) :=
  match n with
  | O => Some (rb, true)
  | S n =>
      '(rb, ok) ← read_entry rb pos (add_ok n);
      if ok : bool then read_entries n rb (ring_add rb pos 1) add_ok else Some (rb, false)
  end.

(** [add_ok i] says whether the block layer takes the page added when [i]
    more are still to come, [pad_ok] whether the padding pages are found. *)
Definition pblk_rb_read_to_bio rb (pos n count : Z) (add_ok : nat → bool) (pad_ok : bool)
    : option (pblk_rb * pblk_c_ctx * nvm_io) :=
  let '(pad, to_read) := if count <? n then (n - count, count) else (0, n) in
  let c := {| sentry := pos; nr_valid := to_read; nr_padded := pad |} in
  '(rb, ok) ← read_entries (Z.to_nat to_read) rb pos add_ok;
  if negb ok then Some (rb, c, NVM_IO_ERR)
  else if nz pad && negb pad_ok then Some (rb, c, NVM_IO_ERR)
  else Some (rb, c, NVM_IO_OK).

(** *** The writer thread *)

(** [pblk_map_page_data] as far as the buffer sees it: the write contexts of
    the valid sectors learn the device addresses chosen for them. *)
Fixpoint set_ppas (ps : list ppa_addr) rb (pos : Z) : option pblk_rb :=
  match ps with
  | [] => Some rb
  | p :: ps =>
      let i := pblk_rb_wrap_pos rb pos in
      entry ← rd (entries rb) i;
      es ← wr (entries rb) i (entry <| w_ctx := (w_ctx entry) <| ppa := p |> |>);
      set_ppas ps (rb <| entries := es |>) (pos + 1)
  end.

Definition pblk_map_page_data rb (sentry : Z) (ppa_list : list ppa_addr) (valid_secs : Z)
    : option pblk_rb :=
  set_ppas (take (Z.to_nat valid_secs) ppa_list) rb sentry.

(** The loop of [pblk_map_rq]; the fuel is the number of sectors, and every
    turn covers [min >= 1] of them. *)
Fixpoint map_rq_loop (fuel : nat) rb (sentry : Z) (ppa_list : list ppa_addr)
    (min nr_ppas valid_secs i : Z) : option pblk_rb :=
  match fuel with
  | O => Some rb
  | S fuel =>
      if i <? nr_ppas then
        let map_secs := if valid_secs <? i + min then valid_secs mod min else min in
        rb ← pblk_map_page_data rb (sentry + i)
               (take (Z.to_nat min) (drop (Z.to_nat i) ppa_list)) map_secs;
        map_rq_loop fuel rb sentry ppa_list min nr_ppas valid_secs (i + min)
      else Some rb
  end.

Definition pblk_map_rq rb (c : pblk_c_ctx) (ppa_list : list ppa_addr) (min : Z)
    : option pblk_rb :=
  map_rq_loop (length ppa_list) rb (sentry c) ppa_list min (Z.of_nat (length ppa_list))
    (nr_valid c) 0.

(** [pblk_calc_secs] with [max = sec_per_write] and [min = min_write_pgs]. *)
Definition pblk_calc_secs (max min secs_avail secs_to_flush : Z) : Z :=
  if max <=? secs_avail then max
  else if min <=? secs_avail then min * (secs_avail / min)
  else if nz secs_to_flush then min
  else 0.

(** The environment of one turn of the writer thread: geometry, the state the
    thread reads, and the outcome of the calls that can fail. *)
Record writer_env := {
  sec_per_write : Z; min_write_pgs : Z; max_write_pgs : Z;
  is_gc : bool; free_blks : Z; inflight_ws : Z;
  rqd_ok : bool; bio_ok : bool; add_ok : nat → bool; pad_ok : bool;
  ppas : Z → list ppa_addr;       (* addresses of the next sectors of the line *)
  setup_ok : bool; io_ok : bool
}.

(** Sectors the thread may take: those in the buffer that are not held back
    by [nr_user]. *)
Definition secs_available rb : Z :=
  let avail := pblk_rb_read_count rb in
  if nr_user rb <? avail then avail - nr_user rb else 0.

(** [pblk_submit_write].  [Some (rb, Some c)]: the request [c] is on its way
    to the device; [Some (rb, None)]: the function returned 1. *)
Definition pblk_submit_write rb (env : writer_env) : option (pblk_rb * option pblk_c_ctx) :=
  if pblk_rb_read_count rb =? 0 then Some (rb, None) else
  let secs_to_flush := pblk_rb_sync_point_count rb in
  let secs_avail := secs_available rb in
  if secs_avail <? min_write_pgs env + 8 then Some (rb, None) else
  if negb (is_gc env) && (free_blks env <=? 1 + inflight_ws env) then Some (rb, None) else
  if negb (rqd_ok env) || negb (bio_ok env) then Some (rb, None) else
  let secs_to_sync :=
    pblk_calc_secs (sec_per_write env) (min_write_pgs env) secs_avail secs_to_flush in
  if max_write_pgs env <? secs_to_sync then Some (rb, None) else
  let secs_to_com := Z.min secs_avail secs_to_sync in
  let '(pos, rb) := pblk_rb_read_commit rb secs_to_com in
  '(rb, c, io) ← pblk_rb_read_to_bio rb pos secs_to_sync secs_avail (add_ok env) (pad_ok env);
  match io with
  | NVM_IO_OK =>
      if negb (setup_ok env) then Some (rb, None) else
      rb ← pblk_map_rq rb c (ppas env (nr_valid c + nr_padded c)) (min_write_pgs env);
      Some (rb, if io_ok env then Some c else None)
  | _ => Some (rb, None)
  end.

(** *** Completion *)

Fixpoint sync_advance_loop (n : nat) rb (s : Z) : Z :=
  match n with
  | O => s
  | S n => sync_advance_loop n rb (ring_add rb s 1)
  end.

Definition pblk_rb_sync_advance rb (n : Z) : pblk_rb * Z :=
  let s := sync_advance_loop (Z.to_nat n) rb (sync rb) in
  (rb <| sync := s |>, s).

(** The entries whose bios [pblk_end_w_bio] completes ([do ... while]: at
    least one), and the pointer update. *)
Fixpoint end_bios (n : nat) rb (pos : Z) : option (pblk_rb * list nat) :=
  match n with
  | O => Some (rb, [])
  | S n =>
      let p := pblk_rb_wrap_pos rb pos in
      entry ← rd (entries rb) p;
      es ← wr (entries rb) p (entry <| w_ctx := (w_ctx entry) <| bios := [] |> |>);
      '(rb, bs) ← end_bios n (rb <| entries := es |>) (pos + 1);
      Some (rb, bios (w_ctx entry) ++ bs)
  end.

Definition pblk_end_w_bio rb (c : pblk_c_ctx) : option (pblk_rb * Z * list nat) :=
  '(rb, ended) ← end_bios (Z.to_nat (Z.max 1 (nr_valid c))) rb (sentry c);
  let '(rb, pos) := pblk_rb_sync_advance rb (nr_valid c) in
  Some (rb, pos, ended).

(** The first queued completion that starts at [pos], and the others. *)
Fixpoint take_entry (pos : Z) (l : list pblk_c_ctx) : option (pblk_c_ctx * list pblk_c_ctx) :=
  match l with
  | [] => None
  | c :: l =>
      if sentry c =? pos then Some (c, l)
      else '(c', l') ← take_entry pos l; Some (c', c :: l')
  end.

(** [retry:] of [pblk_complete_write]; every turn removes one element of the
    list, whose length is the fuel. *)
Fixpoint drain (fuel : nat) rb (pos : Z) (l : list pblk_c_ctx)
    : option (pblk_rb * list pblk_c_ctx * list nat) :=
  match fuel, take_entry pos l with
  | S fuel, Some (c, l) =>
      '(rb, pos, ended) ← pblk_end_w_bio rb c;
      '(rb, l, ended') ← drain fuel rb pos l;
      Some (rb, l, ended ++ ended')
  | _, _ => Some (rb, l, [])
  end.

Definition pblk_complete_write cx (c : pblk_c_ctx) : option (pblk_rb_ctx * list nat) :=
  let rb := rwb cx in
  if sync rb =? sentry c then
    '(rb, pos, ended) ← pblk_end_w_bio rb c;
    '(rb, l, ended') ← drain (length (compl_list cx)) rb pos (compl_list cx);
    Some (cx <| rwb := rb |> <| compl_list := l |>, ended ++ ended')
  else Some (cx <| compl_list ::= λ l, l ++ [c] |>, []).

(** *** Reading back *)

(** [Some true]: the sector was copied from the buffer. *)
Definition pblk_rb_copy_to_bio rb m (lba0 : Z) (p : ppa_addr) : option (option (list Z)) :=
  let pos := pblk_addr_to_cacheline p in
  _ ← ensure (negb (pblk_rb_pos_oob rb pos));
  entry ← rd (entries rb) pos;
  let w := w_ctx entry in
  if negb (pblk_ppa_comp (map_get m lba0) p) || negb (lba w =? lba0)
     || has (flags w) PBLK_WRITABLE_ENTRY
  then Some None
  else Some (Some (data entry)).

(** *** Choice of a buffer

    [cnt] lists the entries user I/O (or the collector) holds in each buffer;
    the loop of the source reads [rb_ctx[nrb]], not [rb_ctx[i]]. *)
Fixpoint remain_loop (quota : Z) (cnt : list Z) (n : Z) (idx : list nat) (nrb : nat) (rmax : Z)
    : option nat :=
  match idx with
  | [] => Some nrb
  | i :: idx =>
      c ← cnt !! nrb;
      let remain_cnt := quota - c in
      if (n <=? rmax) && (rmax <? remain_cnt) then remain_loop quota cnt n idx i remain_cnt
      else remain_loop quota cnt n idx nrb rmax
  end.

Definition pblk_rb_remain_max (rl : pblk_rl) (rls : list pblk_rl_per_rb) (n : Z) (nr_rwb : nat)
    : option nat :=
  let cnt := rb_user_cnt <$> rls in
  c ← cnt !! 0%nat;
  remain_loop (rb_user_max rl) cnt n (seq 1 (nr_rwb - 1)) 0 (rb_user_max rl - c).

Definition pblk_rb_gc_remain_max (rl : pblk_rl) (rls : list pblk_rl_per_rb) (n : Z) (nr_rwb : nat)
    : option nat :=
  let cnt := rb_gc_cnt <$> rls in
  c ← cnt !! 0%nat;
  remain_loop (rb_gc_max rl) cnt n (seq 1 (nr_rwb - 1)) 0 (rb_gc_max rl - c).

(** *** Set-up *)

(** [rb_entry_base] as [pblk_rwb_init] allocates it, [fresh] the content of
    new pages.  [pblk_rb_lock] is a semaphore: taking it again while holding
    it never returns. *)
Definition down_write (held : bool) : option bool := ensure (negb held) ≫= λ _, Some true.
Definition up_write (held : bool) : option bool := Some false.

Definition pblk_rb_data_free (held : bool) (pages : list Z) : option (bool * list Z) :=
  held ← down_write held;
  held ← up_write held;
  Some (held, []).

Definition init_entry (nrb i : Z) (fresh : list Z) (e : pblk_rb_entry) : pblk_rb_entry :=
  e <| data := fresh |> <| cacheline := pblk_cacheline_to_addr i nrb |>
    <| w_ctx := (w_ctx e) <| flags := PBLK_WRITABLE_ENTRY |> <| bios := [] |> |>.

(** [set_size] entries from [i] on. *)
Fixpoint init_entries (n : nat) (nrb i : Z) (fresh : list Z) (es : list pblk_rb_entry)
    : option (list pblk_rb_entry) :=
  match n with
  | O => Some es
  | S n =>
      e ← rd es i;
      es ← wr es i (init_entry nrb i fresh e);
      init_entries n nrb (i + 1) fresh es
  end.

(** The [do ... while (iter > 0)] loop with the answers of [kmalloc] and
    [alloc_pages]; the pages obtained so far are named by their order.  The
    boolean is the return value: true for 0, false for -ENOMEM. *)
Fixpoint init_loop (iter : nat) (answers : list (bool * bool)) (held : bool) (nrb i order : Z)
    (fresh : list Z) (pages : list Z) (es : list pblk_rb_entry)
    : option (list pblk_rb_entry * bool) :=
  match iter, answers with
  | O, _ => held ← up_write held; Some (es, true)
  | S iter, (kmalloc_ok, pages_ok) :: answers =>
      if negb kmalloc_ok then held ← up_write held; Some (es, false)
      else if negb pages_ok then
        '(held, pages) ← pblk_rb_data_free held pages;
        held ← up_write held;
        Some (es, false)
      else
        es ← init_entries (Z.to_nat (2 ^ order)) nrb i fresh es;
        init_loop iter answers held nrb (i + 2 ^ order) order fresh (pages ++ [order]) es
  | S _, [] => None
  end.

(** [MAX_ORDER] is the kernel's bound on page allocations. *)
Definition pblk_rb_init (MAX_ORDER nrb : Z) (rb_entry_base : list pblk_rb_entry)
    (power_size power_seg_sz : Z) (answers : list (bool * bool)) (fresh : list Z)
    : option (pblk_rb * bool) :=
  held ← down_write false;
  let max_order := MAX_ORDER - 1 in
  let '(order, iter) :=
    if max_order <=? power_size then (max_order, Z.shiftl 1 (power_size - max_order))
    else (power_size, 1) in
  '(es, ok) ← init_loop (Z.to_nat iter) answers held nrb 0 order fresh [] rb_entry_base;
  Some ({| index := nrb; entries := es; mem := 0; subm := 0; sync := 0;
           sync_point := EMPTY_ENTRY; l2p_update := 0; nr_entries := Z.shiftl 1 power_size;
           seg_size := Z.shiftl 1 power_seg_sz; submit_point := 0; nr_user := 0;
           inflight_sync_point := 0 |}, ok).

End operations.

(** *** Set-up of the buffer *)

Lemma init_entries_ok nrb fresh n : ∀ i es,
  0 ≤ i → i + Z.of_nat n ≤ Z.of_nat (length es) →
  ∃ es', init_entries n nrb i fresh es = Some es' ∧ length es' = length es
    ∧ ∀ j, rd es' j = if decide (i ≤ j < i + Z.of_nat n)
                      then init_entry nrb j fresh <$> rd es j else rd es j.
Proof.
  induction n as [|n IH]; intros i es Hi Hn.
  - exists es. split_and!; try done. intros j. case_decide; [lia|done].
  - destruct (rd_is_Some es i) as [e He]; [lia|].
    destruct (wr es i (init_entry nrb i fresh e)) as [es1|] eqn:Hw;
      [|by rewrite wr_in_range in Hw by lia].
    destruct (IH (i + 1) es1) as (es2 & Hr & Hl & Hrd); [lia| |].
    { rewrite (wr_length _ _ _ _ Hw). lia. }
    exists es2. cbn [init_entries]. rewrite He. cbn -[init_entries wr]. rewrite Hw.
    cbn -[init_entries]. rewrite Hr, Hl, (wr_length _ _ _ _ Hw). split_and!; try done.
    intros j. rewrite Hrd, (rd_wr _ _ _ _ _ Hw). repeat case_decide; subst; try lia; try done.
    by rewrite He.
Qed.

Lemma init_loop_ok nrb fresh order iter : ∀ answers i pages es,
  0 ≤ i → 0 ≤ order → i + Z.of_nat iter * 2 ^ order ≤ Z.of_nat (length es) →
  (iter ≤ length answers)%nat → Forall (λ x, x = (true, true)) answers →
  ∃ es', init_loop iter answers true nrb i order fresh pages es = Some (es', true)
    ∧ length es' = length es
    ∧ ∀ j, rd es' j = if decide (i ≤ j < i + Z.of_nat iter * 2 ^ order)
                      then init_entry nrb j fresh <$> rd es j else rd es j.
Proof.
  induction iter as [|iter IH]; intros answers i pages es Hi Ho Hn Hans Hall.
  - exists es. split_and!; try done. intros j. case_decide; [lia|done].
  - destruct answers as [|x answers]; [simpl in Hans; lia|]. inversion Hall; subst. simpl in Hans.
    pose proof (pow2_pos order Ho).
    destruct (init_entries_ok nrb fresh (Z.to_nat (2 ^ order)) i es) as (es1 & Hr & Hl & Hrd);
      [lia|nia|].
    destruct (IH answers (i + 2 ^ order) (pages ++ [order]) es1) as (es2 & Hr2 & Hl2 & Hrd2);
      [lia|done|rewrite Hl; nia|lia|done|].
    exists es2. cbn -[init_loop init_entries Z.pow Z.to_nat]. cbn [init_loop negb].
    rewrite Hr. cbn -[init_loop]. rewrite Hr2, Hl2, Hl. split_and!; try done.
    intros j. rewrite Hrd2, Hrd. repeat case_decide; try nia; try done.
Qed.

(** ** The ring as counters

    The specification of the buffer has four counters that only grow,
    [L <= S <= U <= M <= L + N - 1] with [N = 2^k] entries; the pointers of the
    code are their remainders.  An entry is named by its counter. *)

Record ring := { cL : Z; cS : Z; cU : Z; cM : Z }.
#[global] Instance ring_fields : Fields ring := λ r, Build_ring (cL r) (cS r) (cU r) (cM r).

(** Counters of entries granted to a writer that has not copied its data yet. *)
Definition pending := gset Z.

(** An entry that holds no data and may be written. *)
Definition is_free (f : Z) : Prop :=
  has f PBLK_WRITABLE_ENTRY = true
  ∧ has f PBLK_WRITTEN_DATA = false ∧ has f PBLK_INVALIDATE_ENTRY = false.

Record entry_ok (a : ring) (pend : pending) (c : Z) (e : pblk_rb_entry) : Prop := {
  eo_submitted : c < cU a → has (submit_flags (w_ctx e)) PBLK_SUBMITTED_ENTRY = true
                            ∧ pblk_addr_in_cache (ppa (w_ctx e)) = false;
  eo_pending : cU a ≤ c < cM a → c ∈ pend → is_free (flags (w_ctx e));
  eo_written : cU a ≤ c < cM a → c ∉ pend → has (flags (w_ctx e)) PBLK_WRITTEN_DATA = true;
  eo_free : cM a ≤ c → is_free (flags (w_ctx e))
}.

Record ring_ok (k : Z) (a : ring) (pend : pending) (rb : pblk_rb) : Prop := {
  ro_k : 0 ≤ k ≤ 31;
  ro_nr : nr_entries rb = 2 ^ k;
  ro_len : Z.of_nat (length (entries rb)) = 2 ^ k;
  ro_order : cL a ≤ cS a ∧ cS a ≤ cU a ∧ cU a ≤ cM a ∧ cM a ≤ cL a + 2 ^ k - 1;
  ro_l2p : l2p_update rb = cL a mod 2 ^ k;
  ro_sync : sync rb = cS a mod 2 ^ k;
  ro_subm : subm rb = cU a mod 2 ^ k;
  ro_mem : mem rb = cM a mod 2 ^ k;
  ro_pend : ∀ c, c ∈ pend → cU a ≤ c < cM a;
  ro_cacheline : ∀ i e, rd (entries rb) i = Some e → pblk_addr_in_cache (cacheline e) = true;
  ro_entry : ∀ c e, cL a ≤ c < cL a + 2 ^ k → rd (entries rb) (c mod 2 ^ k) = Some e →
    entry_ok a pend c e
}.

Section ring_lemmas.
Context (k : Z).
Hypothesis k_range : 0 ≤ k ≤ 31.
Implicit Types (rb : pblk_rb) (c d n : Z).

Lemma pow_k : 0 < 2 ^ k ≤ 2 ^ 31.
Proof. split; [apply pow2_pos; lia|apply Z.pow_le_mono_r; lia]. Qed.

Lemma mod_k_range c : 0 ≤ c mod 2 ^ k < 2 ^ k.
Proof. apply Z.mod_pos_bound, pow_k. Qed.

Lemma mod_u32_k z : u32 z mod 2 ^ k = z mod 2 ^ k.
Proof.
  unfold u32. replace (2 ^ 32) with (2 ^ k * 2 ^ (32 - k)).
  - rewrite Z.rem_mul_r by (pose proof pow_k; pose proof (pow2_pos (32 - k)); lia).
    rewrite Z.mul_comm, Z.mod_add by (pose proof pow_k; lia).
    apply Z.mod_mod. pose proof pow_k; lia.
  - rewrite <- Z.pow_add_r by lia. f_equal. lia.
Qed.

(** The masked addition of the code is addition of counters. *)
Lemma ring_add_mod rb c n :
  nr_entries rb = 2 ^ k → ring_add rb (c mod 2 ^ k) n = (c + n) mod 2 ^ k.
Proof.
  intros Hn. unfold ring_add. rewrite Hn, (u32_small (2 ^ k - 1)) by (pose proof pow_k; lia).
  rewrite land_mask, mod_u32_k, Z.add_mod_idemp_l by (pose proof pow_k; lia). done.
Qed.

(** Counters less than [N] apart name different entries. *)
Lemma mod_k_inj c d : c mod 2 ^ k = d mod 2 ^ k → Z.abs (c - d) < 2 ^ k → c = d.
Proof.
  intros H ?. pose proof pow_k.
  assert (Hz : (c - d) mod 2 ^ k = 0) by (rewrite Zminus_mod, H, Z.sub_diag, Z.mod_0_l; lia).
  apply Z.mod_divide in Hz as [q Hq]; [|lia]. assert (q = 0) by nia. lia.
Qed.

Lemma mod_k_diff c d : d ≤ c < d + 2 ^ k → (c mod 2 ^ k - d mod 2 ^ k) mod 2 ^ k = c - d.
Proof.
  intros ?. rewrite <- Zminus_mod. apply Z.mod_small. lia.
Qed.
End ring_lemmas.

(** *** Releasing entries *)

Section release.
Context `{!CircBuf} {M : Type} `{!L2P M}.
Context (k : Z) (pend : pending).
Implicit Types (a : ring) (rb : pblk_rb) (m : M) (cx : pblk_rb_ctx).

Lemma ring_ok_rd a rb c :
  ring_ok k a pend rb → ∃ e, rd (entries rb) (c mod 2 ^ k) = Some e.
Proof.
  intros []. apply rd_is_Some. rewrite ro_len0. by apply mod_k_range.
Qed.

(** The entry at the back of the window becomes the free one at its front. *)
Lemma update_l2p_step_ok a rb m u g :
  ring_ok k a pend rb → cL a < cS a →
  ∃ rb' m' u' g', update_l2p_step (rb, m, u, g) = Some (rb', m', u', g')
    ∧ ring_ok k (a <| cL ::= Z.succ |>) pend rb'
    ∧ index rb' = index rb ∧ nr_user rb' = nr_user rb.
Proof.
  intros Hok Hlt. destruct (ring_ok_rd a rb (cL a) Hok) as [e He].
  pose proof Hok as [Hk Hn Hlen Hord HL HS HU HM Hp Hc Hent].
  pose proof (pow_k k Hk) as Hpow. pose proof (mod_k_range k Hk (cL a)) as HLr.
  destruct (eo_submitted _ _ _ _ (Hent (cL a) e ltac:(lia) He)) as [Hsub Hdev]; [lia|].
  destruct (map_dev_total m (lba (w_ctx e)) (ppa (w_ctx e)) (cacheline e) Hdev) as [m1 Hm1].
  destruct (line_put_total m1 (ppa (w_ctx e)) Hdev) as [m2 Hm2].
  set (e' := e <| w_ctx := (w_ctx e) <| flags := PBLK_WRITABLE_ENTRY |>
               <| submit_flags := PBLK_WRITABLE_ENTRY |> <| ppa := ADDR_EMPTY |>
               <| lba := LBA_EMPTY |> |>).
  assert (Hw : wr (entries rb) (cL a mod 2 ^ k) e'
               = Some (<[Z.to_nat (cL a mod 2 ^ k) := e']> (entries rb)))
    by (apply wr_in_range; lia).
  unfold update_l2p_step. rewrite HL, He; simpl.
  destruct (if has (flags (w_ctx e)) PBLK_IOTYPE_USER then _ else _) as [u1 g1].
  rewrite Hm1; simpl. rewrite Hm2; simpl. unfold clean_wctx. rewrite Hsub; simpl.
  fold e'. rewrite Hw; simpl. do 4 eexists. split; [done|]. split; [|done].
  split; simpl; try done; try lia.
  - by rewrite length_insert.
  - rewrite (ring_add_mod k) by done. f_equal.
  - intros i x. rewrite (rd_wr _ _ _ _ _ Hw). case_decide; [|by apply Hc].
    intros [= <-]. exact (Hc _ _ He).
  - intros c x Hcr. rewrite (rd_wr _ _ _ _ _ Hw). case_decide as Heq.
    + intros [= <-]. destruct (decide (c = cL a + 2 ^ k)) as [->|].
      { split; simpl; try done; lia. }
      apply (mod_k_inj k) in Heq; lia.
    + intros Hx. destruct (decide (c = cL a + 2 ^ k)) as [->|].
      { destruct Heq. rewrite Z.add_mod, Z.mod_same, Z.add_0_r, Z.mod_mod; lia. }
      destruct (Hent c x ltac:(lia) Hx). by split.
Qed.

Lemma update_l2p_loop_ok n : ∀ a rb m u g,
  ring_ok k a pend rb → cL a + Z.of_nat n ≤ cS a →
  ∃ rb' m' u' g', update_l2p_loop n (rb, m, u, g) = Some (rb', m', u', g')
    ∧ ring_ok k (a <| cL ::= Z.add (Z.of_nat n) |>) pend rb'
    ∧ index rb' = index rb ∧ nr_user rb' = nr_user rb.
Proof.
  induction n as [|n IH]; intros a rb m u g Hok Hn.
  - do 4 eexists. split; [done|]. by destruct a.
  - destruct (update_l2p_step_ok a rb m u g Hok) as (rb1 & m1 & u1 & g1 & Hs & Hok1 & ? & ?);
      [lia|].
    destruct (IH _ rb1 m1 u1 g1 Hok1) as (rb2 & m2 & u2 & g2 & Hs2 & Hok2 & ? & ?);
      [simpl; lia|].
    exists rb2, m2, u2, g2. cbn [update_l2p_loop]. rewrite Hs; cbn -[update_l2p_loop].
    rewrite Hs2. split; [done|]. split; [|by split; congruence].
    revert Hok2. unfold setter; simpl. replace (Z.of_nat n + Z.succ (cL a)) with (Z.of_nat (S n) + cL a) by lia.
    done.
Qed.

(** [pblk_rb_sync_l2p] brings the map up to date with every acknowledged
    entry, and [pblk_rb_update_l2p] with as few as make room for [n]. *)
Lemma rb_update_l2p_ok a cx m n :
  ring_ok k a pend (rwb cx) → 0 ≤ n ≤ 2 ^ k - 1 - (cM a - cS a) →
  ∃ cx' m', pblk_rb_update_l2p cx m n (mem (rwb cx)) = Some (cx', m')
    ∧ ring_ok k (a <| cL := Z.max (cL a) (cM a + n - (2 ^ k - 1)) |>) pend (rwb cx')
    ∧ compl_list cx' = compl_list cx ∧ nr_user (rwb cx') = nr_user (rwb cx).
Proof.
  intros Hok Hn. pose proof Hok as [Hk Hnr Hlen Hord HL HS HU HM Hp Hc Hent].
  pose proof (pow_k k Hk) as Hpow.
  pose proof (mod_k_range k Hk (cL a)). pose proof (mod_k_range k Hk (cM a)).
  unfold pblk_rb_update_l2p. rewrite HM, HL, Hnr, CIRC_SPACE_spec, (mod_k_diff k) by lia.
  bcase.
  - do 2 eexists. split; [done|]. rewrite Z.max_l by lia. by destruct a.
  - rewrite u32_small by lia.
    set (t := n - _). destruct (update_l2p_loop_ok (Z.to_nat t) a (rwb cx) m 0 0 Hok)
      as (rb1 & m1 & u1 & g1 & Hl & Hok1 & ? & ?); [lia|].
    unfold __pblk_rb_update_l2p. rewrite Hl; simpl. do 2 eexists. split; [done|]. simpl.
    split; [|done]. revert Hok1. unfold setter; simpl.
    replace (Z.of_nat (Z.to_nat t) + cL a) with (Z.max (cL a) (cM a + n - (2 ^ k - 1))) by lia.
    done.
Qed.

Lemma rb_sync_l2p_ok a cx m :
  ring_ok k a pend (rwb cx) →
  ∃ cx' m', pblk_rb_sync_l2p cx m = Some (cx', m')
    ∧ ring_ok k (a <| cL := cS a |>) pend (rwb cx') ∧ compl_list cx' = compl_list cx
    ∧ nr_user (rwb cx') = nr_user (rwb cx).
Proof.
  intros Hok. pose proof Hok as [Hk Hnr Hlen Hord HL HS HU HM Hp Hc Hent].
  pose proof (pow_k k Hk) as Hpow.
  pose proof (mod_k_range k Hk (cL a)). pose proof (mod_k_range k Hk (cS a)).
  unfold pblk_rb_sync_l2p. rewrite HS, HL, Hnr, CIRC_CNT_spec, (mod_k_diff k) by lia.
  destruct (update_l2p_loop_ok (Z.to_nat (cS a - cL a)) a (rwb cx) m 0 0 Hok)
    as (rb1 & m1 & u1 & g1 & Hl & Hok1 & ? & ?); [lia|].
  unfold __pblk_rb_update_l2p. rewrite Hl; simpl. do 2 eexists. split; [done|]. simpl.
  split; [|done]. revert Hok1. unfold setter; simpl.
  replace (Z.of_nat (Z.to_nat (cS a - cL a)) + cL a) with (cS a) by lia. done.
Qed.
End release.

(** *** Granting and filling entries *)

Definition grant (pend : pending) (lo n : Z) : pending := pend ∪ list_to_set (seqZ lo n).

Lemma elem_of_grant pend lo n c : c ∈ grant pend lo n ↔ c ∈ pend ∨ lo ≤ c < lo + n.
Proof. unfold grant. rewrite elem_of_union, elem_of_list_to_set, elem_of_seqZ. done. Qed.

(** The counters after [n] entries have been granted. *)
Definition granted (k : Z) (a : ring) (n : Z) : ring :=
  a <| cL := Z.max (cL a) (cM a + n - (2 ^ k - 1)) |> <| cM ::= λ M, M + n |>.

Section grants.
Context `{!CircBuf} {M : Type} `{!L2P M}.
Context (k : Z).
Implicit Types (a : ring) (pend : pending) (rb : pblk_rb) (m : M) (cx : pblk_rb_ctx).

Lemma ring_ok_advance a pend rb n u :
  ring_ok k a pend rb → 0 ≤ n → cM a + n ≤ cL a + 2 ^ k - 1 →
  ring_ok k (a <| cM ::= λ M, M + n |>) (grant pend (cM a) n)
    (rb <| nr_user := u |> <| mem := ring_add rb (mem rb) n |>).
Proof.
  intros [Hk Hnr Hlen Hord HL HS HU HM Hp Hc Hent] Hn Hfit.
  split; simpl; try done; try lia.
  - by rewrite HM, (ring_add_mod k).
  - intros c [?%Hp|?]%elem_of_grant; lia.
  - intros c e Hcr He. destruct (Hent c e Hcr He) as [H1 H2 H3 H4].
    split; simpl; [done| | |intros; apply H4; lia].
    + intros ? [?|?]%elem_of_grant; [apply H2; [by apply Hp|done]|apply H4; lia].
    + intros ? Hni. apply H3; [|by intros ?; apply Hni, elem_of_grant; left].
      destruct (decide (c < cM a)); [lia|]. destruct Hni. apply elem_of_grant. lia.
Qed.

Lemma may_write_refused a pend cx m n :
  ring_ok k a pend (rwb cx) → 2 ^ k - 1 - (cM a - cS a) < n →
  __pblk_rb_may_write cx m n = Some (cx, m, None).
Proof.
  intros [Hk Hnr Hlen Hord HL HS HU HM Hp Hc Hent] Hn.
  pose proof (mod_k_range k Hk (cS a)). pose proof (mod_k_range k Hk (cM a)).
  unfold __pblk_rb_may_write. rewrite HM, HS, Hnr, CIRC_SPACE_spec, (mod_k_diff k) by lia.
  by destruct (Z.ltb_spec (2 ^ k - 1 - (cM a - cS a)) n); [|lia].
Qed.

Lemma may_write_granted a pend cx m n :
  ring_ok k a pend (rwb cx) → 0 ≤ n ≤ 2 ^ k - 1 - (cM a - cS a) →
  ∃ cx' m', __pblk_rb_may_write cx m n = Some (cx', m', Some (cM a mod 2 ^ k))
    ∧ mem (rwb cx') = cM a mod 2 ^ k ∧ compl_list cx' = compl_list cx
    ∧ nr_user (rwb cx') = nr_user (rwb cx)
    ∧ ∀ u, ring_ok k (granted k a n) (grant pend (cM a) n)
             (rwb cx' <| nr_user := u |> <| mem := ring_add (rwb cx') (mem (rwb cx')) n |>).
Proof.
  intros Hok Hn. pose proof Hok as [Hk Hnr Hlen Hord HL HS HU HM Hp Hc Hent].
  pose proof (mod_k_range k Hk (cS a)). pose proof (mod_k_range k Hk (cM a)).
  destruct (rb_update_l2p_ok k pend a cx m n Hok Hn) as (cx' & m' & Hu & Hok' & Hcl & Hus).
  unfold __pblk_rb_may_write. rewrite Hu, HM, HS, Hnr, CIRC_SPACE_spec, (mod_k_diff k) by lia.
  destruct (Z.ltb_spec (2 ^ k - 1 - (cM a - cS a)) n); [lia|]. simpl.
  exists cx', m'. split_and!; [done|by destruct Hok'|done|done|].
  intros u. exact (ring_ok_advance _ _ _ n u Hok' ltac:(lia) ltac:(simpl; lia)).
Qed.

(** Copying the data of a granted entry never trips the BUG_ON of
    [pblk_rb_write_entry_user]. *)
Lemma write_entry_ok a pend rb c e e' es :
  ring_ok k a pend rb → c ∈ pend → rd (entries rb) (c mod 2 ^ k) = Some e →
  cacheline e' = cacheline e → has (flags (w_ctx e')) PBLK_WRITTEN_DATA = true →
  wr (entries rb) (c mod 2 ^ k) e' = Some es →
  ring_ok k a (pend ∖ {[c]}) (rb <| entries := es |>).
Proof.
  intros [Hk Hnr Hlen Hord HL HS HU HM Hp Hc Hent] Hcp He Hcl Hfl Hw.
  pose proof (Hp _ Hcp). pose proof (pow_k k Hk).
  split; simpl; try done; try lia.
  - by rewrite (wr_length _ _ _ _ Hw).
  - intros d ?. apply Hp. set_solver.
  - intros i x. rewrite (rd_wr _ _ _ _ _ Hw). case_decide; [|by apply Hc].
    intros [= <-]. rewrite Hcl. by eapply Hc.
  - intros d x Hd. rewrite (rd_wr _ _ _ _ _ Hw). case_decide as Heq.
    + apply (mod_k_inj k) in Heq; [subst d|lia|lia]. intros [= <-].
      split; intros; [lia|set_solver|done|lia].
    + intros Hx. destruct (Hent d x Hd Hx) as [Q1 Q2 Q3 Q4].
      assert (d ≠ c) by congruence.
      split; [done| | |done]; intros; [apply Q2|apply Q3]; set_solver.
Qed.

Lemma write_entry_user_ok a pend rb m c d w :
  ring_ok k a pend rb → c ∈ pend →
  ∃ rb' m', pblk_rb_write_entry_user rb m d w (c mod 2 ^ k) = Some (rb', m')
    ∧ ring_ok k a (pend ∖ {[c]}) rb'.
Proof.
  intros Hok Hc. destruct (ring_ok_rd k pend a rb c Hok) as [e He].
  pose proof (ro_pend _ _ _ _ Hok _ Hc). pose proof (ro_order _ _ _ _ Hok).
  destruct (ro_entry _ _ _ _ Hok c e ltac:(lia) He) as [_ Hwr _ _].
  unfold pblk_rb_write_entry_user. rewrite He; simpl. destruct Hwr as [-> _]; [lia|done|]; simpl.
  destruct (map_cache_total m (lba w) (cacheline e)
              (ro_cacheline _ _ _ _ Hok _ _ He)) as [m' Hm']. rewrite Hm'; simpl.
  rewrite wr_in_range by (by eapply rd_lt); simpl.
  do 2 eexists. split; [done|].
  eapply write_entry_ok; [done|done|done| | |by apply wr_in_range; eapply rd_lt].
  - done.
  - simpl. unfold PBLK_WRITTEN_DATA. rewrite has_bit, Z.lor_spec by lia.
    apply orb_true_r.
Qed.
End grants.

(** *** Submitting entries *)

(** [es'] is [es] with the entries of the counters [c, ..., c + n - 1] changed
    according to [R]. *)
Record upd_range (k : Z) (R : pblk_rb_entry → pblk_rb_entry → Prop) (c n : Z)
    (es es' : list pblk_rb_entry) : Prop := {
  ur_len : length es' = length es;
  ur_in : ∀ d, c ≤ d < c + n → ∃ e e', rd es (d mod 2 ^ k) = Some e
            ∧ rd es' (d mod 2 ^ k) = Some e' ∧ R e e';
  ur_out : ∀ i, (∀ d, c ≤ d < c + n → i ≠ d mod 2 ^ k) → rd es' i = rd es i
}.

Section ranges.
Context (k : Z).
Hypothesis k_range : 0 ≤ k ≤ 31.
Implicit Types (R Q : pblk_rb_entry → pblk_rb_entry → Prop) (es : list pblk_rb_entry).

Lemma upd_range_nil R c n es : n ≤ 0 → upd_range k R c n es es.
Proof. by split; [|intros; lia|]. Qed.

Lemma upd_range_cons R c n es es1 es2 e e' :
  0 ≤ n < 2 ^ k → rd es (c mod 2 ^ k) = Some e → R e e' →
  wr es (c mod 2 ^ k) e' = Some es1 → upd_range k R (c + 1) n es1 es2 →
  upd_range k R c (n + 1) es es2.
Proof.
  intros Hn He HR Hw [Hl Hin Hout]. split.
  - by rewrite Hl, (wr_length _ _ _ _ Hw).
  - intros d Hd. destruct (decide (d = c)) as [->|].
    + exists e, e'. split; [done|]. split; [|done]. rewrite Hout.
      * rewrite (rd_wr _ _ _ _ _ Hw). by case_decide.
      * intros d ? ?%(mod_k_inj k); lia.
    + destruct (Hin d) as (x & x' & Hx & ? & ?); [lia|]. exists x, x'.
      rewrite (rd_wr _ _ _ _ _ Hw) in Hx. case_decide as Heq; [|done].
      apply (mod_k_inj k) in Heq; lia.
  - intros i Hi. rewrite Hout by (intros; apply Hi; lia).
    rewrite (rd_wr _ _ _ _ _ Hw). case_decide as Heq; [|done].
    destruct (Hi c); [lia|done].
Qed.

Lemma upd_range_comp R Q c n es1 es2 es3 :
  upd_range k R c n es1 es2 → upd_range k Q c n es2 es3 →
  upd_range k (λ e e'', ∃ e', R e e' ∧ Q e' e'') c n es1 es3.
Proof.
  intros [? H1 O1] [? H2 O2]. split; [congruence| |].
  - intros d Hd. destruct (H1 d Hd) as (x & y & ? & Hy & ?).
    destruct (H2 d Hd) as (y' & z & Hy' & ? & ?). simplify_eq. by eauto 8.
  - intros i Hi. rewrite O2, O1; done.
Qed.

Lemma upd_range_impl R Q c n es es' :
  (∀ e e', R e e' → Q e e') → upd_range k R c n es es' → upd_range k Q c n es es'.
Proof. intros HRQ [? H1 O1]. split; naive_solver. Qed.

(** A range update changes an entry by [R] or not at all. *)
Lemma upd_range_at R c n es es' i e' :
  upd_range k R c n es es' → rd es' i = Some e' →
  ∃ e, rd es i = Some e ∧
    ((∃ d, c ≤ d < c + n ∧ i = d mod 2 ^ k ∧ R e e') ∨
     ((∀ d, c ≤ d < c + n → i ≠ d mod 2 ^ k) ∧ e' = e)).
Proof.
  intros [_ Hin Hout] He'.
  destruct (decide (i ∈ (λ d, d mod 2 ^ k) <$> seqZ c n)) as [Hi|Hi].
  - apply list_elem_of_fmap in Hi as (d & -> & Hd%elem_of_seqZ).
    destruct (Hin d Hd) as (x & x' & Hx & Hx' & HR). simplify_eq. eauto 10.
  - assert (Hi' : ∀ d, c ≤ d < c + n → i ≠ d mod 2 ^ k).
    { intros d Hd ->. apply Hi, list_elem_of_fmap. exists d. by rewrite elem_of_seqZ. }
    exists e'. rewrite <- Hout by done. auto.
Qed.

Lemma wrap_pos_mod rb c : nr_entries rb = 2 ^ k → pblk_rb_wrap_pos rb c = c mod 2 ^ k.
Proof. intros H. unfold pblk_rb_wrap_pos. rewrite H. apply land_mask. lia. Qed.
End ranges.

(** The pointers and the sizes of two buffers agree. *)
Definition same_ptrs (rb rb' : pblk_rb) : Prop :=
  nr_entries rb' = nr_entries rb ∧ mem rb' = mem rb ∧ subm rb' = subm rb ∧
  sync rb' = sync rb ∧ l2p_update rb' = l2p_update rb ∧ nr_user rb' = nr_user rb.

(** What submission does to an entry. *)
Definition submitted (e e' : pblk_rb_entry) : Prop :=
  cacheline e' = cacheline e ∧ data e' = data e ∧ lba (w_ctx e') = lba (w_ctx e)
  ∧ has (submit_flags (w_ctx e')) PBLK_SUBMITTED_ENTRY = true.

Definition addressed (e e' : pblk_rb_entry) : Prop :=
  cacheline e' = cacheline e ∧ data e' = data e ∧ lba (w_ctx e') = lba (w_ctx e)
  ∧ submit_flags (w_ctx e') = submit_flags (w_ctx e)
  ∧ pblk_addr_in_cache (ppa (w_ctx e')) = false.

Lemma set_ppas_app l1 l2 : ∀ rb pos,
  set_ppas (l1 ++ l2) rb pos
  = (rb ← set_ppas l1 rb pos; set_ppas l2 rb (pos + Z.of_nat (length l1))).
Proof.
  induction l1 as [|p l1 IH]; intros rb pos; cbn [app length set_ppas].
  - by rewrite Z.add_0_r.
  - destruct (rd _ _) as [e|]; cbn -[set_ppas wr Z.of_nat]; [|done].
    destruct (wr _ _ _) as [es|]; cbn -[set_ppas Z.of_nat]; [|done].
    rewrite IH, Nat2Z.inj_succ. by replace (pos + 1 + Z.of_nat (length l1))
      with (pos + Z.succ (Z.of_nat (length l1))) by lia.
Qed.

(** Without padding the chunks of [pblk_map_rq] tile the request. *)
Lemma map_rq_loop_eq fuel : ∀ rb s l min q,
  0 < min → 0 ≤ q → Z.of_nat (length l) - q * min ≤ Z.of_nat fuel →
  map_rq_loop fuel rb s l min (Z.of_nat (length l)) (Z.of_nat (length l)) (q * min)
  = set_ppas (drop (Z.to_nat (q * min)) l) rb (s + q * min).
Proof.
  induction fuel as [|fuel IH]; intros rb s l min q Hmin Hq Hf; cbn [map_rq_loop].
  { by rewrite drop_ge by lia. }
  destruct (Z.ltb_spec (q * min) (Z.of_nat (length l))); [|by rewrite drop_ge by lia].
  replace (q * min + min) with ((q + 1) * min) by lia.
  unfold pblk_map_page_data.
  rewrite <- (take_drop (Z.to_nat min) (drop (Z.to_nat (q * min)) l)) at 2.
  rewrite set_ppas_app, drop_drop, length_take, length_drop, take_take.
  replace (Z.to_nat (q * min) + Z.to_nat min)%nat with (Z.to_nat ((q + 1) * min)) by lia.
  destruct (Z.ltb_spec (Z.of_nat (length l)) ((q + 1) * min)).
  - replace (Z.of_nat (length l) mod min) with (Z.of_nat (length l) - q * min)
      by (apply (Z.mod_unique_pos _ _ q); lia).
    rewrite (drop_ge l (Z.to_nat ((q + 1) * min))), !take_ge
      by (rewrite ?length_drop; lia).
    destruct (set_ppas _ _ _) as [rb1|]; [|done]. cbn -[map_rq_loop].
    rewrite IH by lia. by rewrite drop_ge by lia.
  - rewrite Nat.min_id. destruct (set_ppas _ _ _) as [rb1|]; [|done]. cbn -[map_rq_loop].
    rewrite IH by lia. f_equal. lia.
Qed.

Lemma calc_secs_bounds max min avail flush :
  0 < min ≤ avail → 0 < max →
  0 < pblk_calc_secs max min avail flush ≤ avail ∧ pblk_calc_secs max min avail flush ≤ max.
Proof.
  intros. unfold pblk_calc_secs. do 2 (bcase; try lia).
  pose proof (Z.div_str_pos avail min). pose proof (Z.mul_div_le avail min). nia.
Qed.

Section submission.
Context `{!CircBuf} {M : Type} `{!L2P M}.
Context (k : Z).
Hypothesis k_range : 0 ≤ k ≤ 31.
Implicit Types (a : ring) (pend : pending) (rb : pblk_rb).

Lemma read_entry_ok rb c e :
  rd (entries rb) (c mod 2 ^ k) = Some e → has (flags (w_ctx e)) PBLK_WRITTEN_DATA = true →
  ∃ rb' e', read_entry rb (c mod 2 ^ k) true = Some (rb', true)
    ∧ wr (entries rb) (c mod 2 ^ k) e' = Some (entries rb')
    ∧ submitted e e' ∧ same_ptrs rb rb'.
Proof.
  intros He Hf. pose proof (rd_lt _ _ _ He) as Hlt.
  unfold read_entry. rewrite He; cbn [mbind option_bind]. rewrite Hf; cbn -[wr].
  destruct (if has (clr (flags (w_ctx e)) PBLK_RESERVED_ENTRY) PBLK_FLUSH_ENTRY
            then _ else _) as [rb1 f1] eqn:E.
  assert (Hr : entries rb1 = entries rb ∧ same_ptrs rb rb1).
  { unfold same_ptrs. destruct (has _ PBLK_FLUSH_ENTRY), (sync_point rb =? c mod 2 ^ k);
      by simplify_eq/=. }
  destruct Hr as [Hes Hp]. rewrite Hes, wr_in_range by done; simpl.
  do 2 eexists. split; [done|]. simpl.
  split; [by apply wr_in_range|]. by unfold same_ptrs, submitted in *.
Qed.

Lemma read_entries_ok n : ∀ rb c add_ok,
  nr_entries rb = 2 ^ k → Z.of_nat (length (entries rb)) = 2 ^ k → Z.of_nat n ≤ 2 ^ k →
  (∀ i, add_ok i = true) →
  (∀ d e, c ≤ d < c + Z.of_nat n → rd (entries rb) (d mod 2 ^ k) = Some e →
    has (flags (w_ctx e)) PBLK_WRITTEN_DATA = true) →
  ∃ rb', read_entries n rb (c mod 2 ^ k) add_ok = Some (rb', true)
    ∧ upd_range k submitted c (Z.of_nat n) (entries rb) (entries rb') ∧ same_ptrs rb rb'.
Proof.
  induction n as [|n IH]; intros rb c ao Hnr Hlen Hn Hao Hwr.
  - exists rb. by split; [|split; [apply upd_range_nil|]].
  - destruct (rd_is_Some (entries rb) (c mod 2 ^ k)) as [e He].
    { rewrite Hlen. by apply mod_k_range. }
    destruct (read_entry_ok rb c e He) as (rb1 & e1 & Hr1 & Hw & Hs & Hp).
    { apply (Hwr c); [lia|done]. }
    destruct (IH rb1 (c + 1) ao) as (rb2 & Hr2 & Hu & Hp2); [by destruct Hp as [-> _]| | | | |].
    + by rewrite (wr_length _ _ _ _ Hw).
    + lia.
    + done.
    + intros d x Hd. rewrite (rd_wr _ _ _ _ _ Hw). case_decide as Heq; [|apply Hwr; lia].
      apply (mod_k_inj k) in Heq; lia.
    + exists rb2. cbn [read_entries]. rewrite Hao, Hr1; cbn -[read_entries].
      rewrite (ring_add_mod k) by (done || by destruct Hp as [-> _]).
      split; [done|]. split; [|unfold same_ptrs in *; intuition congruence].
      rewrite Nat2Z.inj_succ. unfold Z.succ.
      eapply upd_range_cons; [done| |done|done|done|done]. lia.
Qed.

Lemma set_ppas_ok ps : ∀ rb c pos,
  nr_entries rb = 2 ^ k → Z.of_nat (length (entries rb)) = 2 ^ k →
  Z.of_nat (length ps) ≤ 2 ^ k → Forall (λ p, pblk_addr_in_cache p = false) ps →
  pos mod 2 ^ k = c mod 2 ^ k →
  ∃ rb', set_ppas ps rb pos = Some rb'
    ∧ upd_range k addressed c (Z.of_nat (length ps)) (entries rb) (entries rb')
    ∧ same_ptrs rb rb'.
Proof.
  induction ps as [|p ps IH]; intros rb c pos Hnr Hlen Hn Hps Hpos.
  - exists rb. by split; [|split; [apply upd_range_nil|]].
  - inversion Hps as [|?? Hp Hps']; subst. simpl in Hn.
    destruct (rd_is_Some (entries rb) (c mod 2 ^ k)) as [e He].
    { rewrite Hlen. by apply mod_k_range. }
    pose proof (rd_lt _ _ _ He) as Hlt. cbn [set_ppas].
    rewrite (wrap_pos_mod k), Hpos, He by done; cbn -[set_ppas wr].
    set (e' := e <| w_ctx := _ |>). destruct (wr _ _ e') as [es|] eqn:Hw;
      [|by rewrite wr_in_range in Hw]. cbn -[set_ppas].
    destruct (IH (rb <| entries := es |>) (c + 1) (pos + 1)) as (rb2 & -> & Hu & Hp2);
      [done|by simpl; rewrite (wr_length _ _ _ _ Hw)|lia|done| |].
    { rewrite (Z.add_mod pos), (Z.add_mod c), Hpos; pose proof (pow_k k k_range); lia. }
    exists rb2. split; [done|]. split; [|done].
    cbn [length]. rewrite Nat2Z.inj_succ. unfold Z.succ.
    eapply upd_range_cons; [done| |done| |done|done]; [lia|]. by unfold addressed.
Qed.

(** The entries submitted leave the readable part of the window. *)
Lemma submit_ring_ok a pend rb rb' s :
  ring_ok k a pend rb → 0 ≤ s → cU a + s ≤ cM a →
  (∀ c, c ∈ pend → cU a + s ≤ c) →
  nr_entries rb' = nr_entries rb → mem rb' = mem rb → sync rb' = sync rb →
  l2p_update rb' = l2p_update rb → subm rb' = (cU a + s) mod 2 ^ k →
  upd_range k (λ e e'', ∃ e', submitted e e' ∧ addressed e' e'') (cU a) s
    (entries rb) (entries rb') →
  ring_ok k (a <| cU ::= Z.add s |>) pend rb'.
Proof.
  intros [_ Hnr Hlen Hord HL HS HU HM Hp Hc Hent] Hs Hfit Hfree E1 E2 E3 E4 E5 Hu.
  split; simpl; try (congruence || lia).
  - by rewrite (ur_len _ _ _ _ _ _ Hu).
  - rewrite E5. f_equal. lia.
  - intros c Hcp. pose proof (Hp _ Hcp). pose proof (Hfree _ Hcp). lia.
  - intros i e' He'. destruct (upd_range_at _ _ _ _ _ _ _ _ Hu He') as (e & He & [Hi|[_ ->]]).
    + destruct Hi as (d & _ & _ & e1 & [Z1 _] & [Z2 _]). rewrite Z2, Z1. by eapply Hc.
    + by eapply Hc.
  - intros c e' Hcr He'. destruct (upd_range_at _ _ _ _ _ _ _ _ Hu He')
      as (e & He & [Hi|[Hout ->]]).
    + destruct Hi as (d & Hd & Heq & e1 & (? & ? & ? & Hsub) & (? & ? & ? & Hsf & Hdev)).
      apply (mod_k_inj k) in Heq; [subst d|lia|lia].
      split; simpl; intros; [by rewrite Hsf|lia|lia|lia].
    + destruct (Hent c e Hcr He) as [Q1 Q2 Q3 Q4]. split; simpl; intros.
      * apply Q1. destruct (decide (c < cU a)); [done|]. destruct (Hout c); [lia|done].
      * apply Q2; [lia|done].
      * apply Q3; [lia|done].
      * by apply Q4.
Qed.
End submission.

(** *** Completing requests *)

(** The requests in [rem] cover the counters from [S] to [U], in order. *)
Fixpoint tiles (k S : Z) (rem : list pblk_c_ctx) (U : Z) : Prop :=
  match rem with
  | [] => S = U
  | c :: rem => sentry c = S mod 2 ^ k ∧ 1 ≤ nr_valid c ∧ tiles k (S + nr_valid c) rem U
  end.

(** [rem]: the requests on the device or on the completion list.  The oldest one
    is still on the device. *)
Record compl_ok (k : Z) (a : ring) (rem queue : list pblk_c_ctx) : Prop := {
  co_tiles : tiles k (cS a) rem (cU a);
  co_sub : queue ⊆ rem;
  co_nodup : NoDup queue;
  co_head : ∀ c rem', rem = c :: rem' → c ∉ queue
}.

(** The bios attached to the entries of [n] counters. *)
Definition bios_at (k : Z) (es : list pblk_rb_entry) (c : Z) : list nat :=
  match rd es (c mod 2 ^ k) with Some e => bios (w_ctx e) | None => [] end.
Definition bios_of (k : Z) (es : list pblk_rb_entry) (c n : Z) : list nat :=
  mjoin (bios_at k es <$> seqZ c n).

Definition acked (e e' : pblk_rb_entry) : Prop :=
  e' = e <| w_ctx := (w_ctx e) <| bios := [] |> |>.

(** The entries of the counters from [S] to [U] are untouched. *)
Definition unacked_same (k S U : Z) (rb rb' : pblk_rb) : Prop :=
  ∀ d, S ≤ d < U → rd (entries rb') (d mod 2 ^ k) = rd (entries rb) (d mod 2 ^ k).

Section completion.
Context (k : Z).
Hypothesis k_range : 0 ≤ k ≤ 31.
Implicit Types (a : ring) (pend : pending) (rb : pblk_rb) (cx : pblk_rb_ctx)
  (rem l queue : list pblk_c_ctx).

Lemma bios_of_app es c n1 n2 :
  0 ≤ n1 → 0 ≤ n2 → bios_of k es c (n1 + n2) = bios_of k es c n1 ++ bios_of k es (c + n1) n2.
Proof. intros. unfold bios_of. by rewrite seqZ_app, fmap_app, join_app by done. Qed.

Lemma bios_of_ext es es' c n :
  (∀ d, c ≤ d < c + n → rd es' (d mod 2 ^ k) = rd es (d mod 2 ^ k)) →
  bios_of k es' c n = bios_of k es c n.
Proof.
  intros H. unfold bios_of, bios_at. f_equal. apply list_fmap_ext. intros i d Hd.
  apply list_elem_of_lookup_2, elem_of_seqZ in Hd. by rewrite H.
Qed.

Lemma tiles_le S rem U : tiles k S rem U → S ≤ U.
Proof.
  revert S. induction rem as [|c rem IH]; simpl; intros S H; [lia|].
  destruct H as (_ & ? & ?%IH). lia.
Qed.

Lemma tiles_in S rem U x :
  tiles k S rem U → x ∈ rem → ∃ s, S ≤ s < U ∧ sentry x = s mod 2 ^ k.
Proof.
  revert S. induction rem as [|c rem IH]; simpl; intros S; [by intros _ ?%elem_of_nil|].
  intros (Hs & ? & Ht) [->|Hx]%elem_of_cons.
  - exists S. pose proof (tiles_le _ _ _ Ht). split; [lia|done].
  - destruct (IH _ Ht Hx) as (s & ? & ?). exists s. split; [lia|done].
Qed.

Lemma tiles_head_unique S c rem U x :
  tiles k S (c :: rem) U → U - S < 2 ^ k → x ∈ c :: rem → sentry x = S mod 2 ^ k → x = c.
Proof.
  simpl. intros (Hs & ? & Ht) HU [->|Hx]%elem_of_cons; [done|]. intros Heq.
  destruct (tiles_in _ _ _ _ Ht Hx) as (s & ? & Hs'). rewrite Heq in Hs'.
  apply (mod_k_inj k) in Hs'; lia.
Qed.

Lemma tiles_nodup S rem U : tiles k S rem U → U - S < 2 ^ k → NoDup rem.
Proof.
  revert S. induction rem as [|c rem IH]; intros S Ht HU; constructor.
  - intros Hin. destruct Ht as (Hs & ? & Ht). destruct (tiles_in _ _ _ _ Ht Hin) as (s & ? & Hs').
    rewrite Hs in Hs'. apply (mod_k_inj k) in Hs'; lia.
  - destruct Ht as (_ & ? & Ht). eapply IH; [done|lia].
Qed.

Lemma tiles_app S rem c U :
  tiles k S rem U → sentry c = U mod 2 ^ k → 1 ≤ nr_valid c →
  tiles k S (rem ++ [c]) (U + nr_valid c).
Proof.
  revert S. induction rem as [|x rem IH]; intros S; simpl; [by intros ->|]. naive_solver.
Qed.

Lemma take_entry_Some pos l c l' :
  take_entry pos l = Some (c, l') → sentry c = pos ∧ l ≡ₚ c :: l'.
Proof.
  revert c l'. induction l as [|x l IH]; intros c l'; simpl; [done|].
  bcase; [by intros [= <- <-]|]. destruct (take_entry pos l) as [[c1 l1]|]; simpl; [|done].
  intros [= <- <-]. destruct (IH c1 l1 eq_refl) as [? ->]. split; [done|].
  apply Permutation_swap.
Qed.

Lemma take_entry_None pos l : take_entry pos l = None → ∀ c, c ∈ l → sentry c ≠ pos.
Proof.
  induction l as [|x l IH]; simpl; [by intros _ ? ?%elem_of_nil|].
  bcase; [done|]. destruct (take_entry pos l) as [[c1 l1]|]; simpl; [done|].
  intros _ c [->|?]%elem_of_cons; [done|]. by apply IH.
Qed.

Lemma sync_advance_mod n rb c :
  nr_entries rb = 2 ^ k →
  sync_advance_loop n rb (c mod 2 ^ k) = (c + Z.of_nat n) mod 2 ^ k.
Proof.
  intros Hnr. revert c. induction n as [|n IH]; intros c; simpl.
  - by rewrite Z.add_0_r.
  - rewrite (ring_add_mod k), IH by done. f_equal. lia.
Qed.

Lemma end_bios_ok n : ∀ rb c pos,
  nr_entries rb = 2 ^ k → Z.of_nat (length (entries rb)) = 2 ^ k → Z.of_nat n ≤ 2 ^ k →
  pos mod 2 ^ k = c mod 2 ^ k →
  ∃ rb', end_bios n rb pos = Some (rb', bios_of k (entries rb) c (Z.of_nat n))
    ∧ upd_range k acked c (Z.of_nat n) (entries rb) (entries rb') ∧ same_ptrs rb rb'.
Proof.
  induction n as [|n IH]; intros rb c pos Hnr Hlen Hn Hpos.
  - exists rb. by split; [|split; [apply upd_range_nil|]].
  - destruct (rd_is_Some (entries rb) (c mod 2 ^ k)) as [e He].
    { rewrite Hlen. by apply mod_k_range. }
    pose proof (rd_lt _ _ _ He) as Hlt. cbn [end_bios].
    rewrite (wrap_pos_mod k), Hpos, He by done; cbn -[end_bios wr Z.of_nat].
    destruct (wr (entries rb) _ _) as [es|] eqn:Hw; [|by rewrite wr_in_range in Hw].
    cbn -[end_bios Z.of_nat].
    destruct (IH (rb <| entries := es |>) (c + 1) (pos + 1)) as (rb2 & Hr & Hu & Hp2);
      [done|by simpl; rewrite (wr_length _ _ _ _ Hw)|lia| |].
    { rewrite (Z.add_mod pos), (Z.add_mod c), Hpos; pose proof (pow_k k k_range); lia. }
    rewrite Hr. cbn -[end_bios Z.of_nat]. exists rb2. split; [|split; [|done]].
    + do 2 f_equal. rewrite Nat2Z.inj_succ. unfold Z.succ.
      rewrite (Z.add_comm (Z.of_nat n) 1), bios_of_app by lia. f_equal.
      * unfold bios_of. rewrite (seqZ_cons c 1) by lia. cbn. unfold bios_at. by rewrite He, app_nil_r.
      * apply bios_of_ext. intros d Hd. simpl. rewrite (rd_wr _ _ _ _ _ Hw).
        case_decide as Heq; [|done]. apply (mod_k_inj k) in Heq; lia.
    + rewrite Nat2Z.inj_succ. unfold Z.succ.
      eapply upd_range_cons; [done| |done| |done|done]; [lia|done].
Qed.

(** Acknowledging the [n] oldest submitted entries. *)
Lemma ack_ring_ok a pend rb rb' n :
  ring_ok k a pend rb → 0 ≤ n → cS a + n ≤ cU a →
  nr_entries rb' = nr_entries rb → mem rb' = mem rb → subm rb' = subm rb →
  l2p_update rb' = l2p_update rb → sync rb' = (cS a + n) mod 2 ^ k →
  upd_range k acked (cS a) n (entries rb) (entries rb') →
  ring_ok k (a <| cS ::= Z.add n |>) pend rb'.
Proof.
  intros [_ Hnr Hlen Hord HL HS HU HM Hp Hc Hent] Hn Hfit E1 E2 E3 E4 E5 Hu.
  split; simpl; try (congruence || lia); try done.
  - by rewrite (ur_len _ _ _ _ _ _ Hu).
  - rewrite E5. f_equal. lia.
  - intros i e' He'. destruct (upd_range_at _ _ _ _ _ _ _ _ Hu He') as (e & He & [Hi|[_ ->]]).
    + destruct Hi as (d & _ & _ & ->). exact (Hc _ _ He).
    + exact (Hc _ _ He).
  - intros c e' Hcr He'. destruct (upd_range_at _ _ _ _ _ _ _ _ Hu He')
      as (e & He & [Hi|[_ ->]]).
    + destruct Hi as (d & _ & _ & ->). destruct (Hent c e Hcr He). by split.
    + destruct (Hent c e Hcr He). by split.
Qed.

Lemma end_w_bio_ok a pend rb c rem :
  ring_ok k a pend rb → tiles k (cS a) (c :: rem) (cU a) →
  ∃ rb', pblk_end_w_bio rb c = Some (rb', (cS a + nr_valid c) mod 2 ^ k,
                                     bios_of k (entries rb) (cS a) (nr_valid c))
    ∧ ring_ok k (a <| cS ::= Z.add (nr_valid c) |>) pend rb'
    ∧ tiles k (cS a + nr_valid c) rem (cU a)
    ∧ unacked_same k (cS a + nr_valid c) (cU a) rb rb'.
Proof.
  intros Hok (Hs & Hv & Ht). pose proof (tiles_le _ _ _ Ht) as Hle.
  pose proof Hok as [_ Hnr Hlen Hord HL HS HU HM Hp Hc Hent].
  pose proof (pow_k k k_range).
  destruct (end_bios_ok (Z.to_nat (nr_valid c)) rb (cS a) (sentry c))
    as (rb1 & Hr & Hu & Hp1); [done|done|lia| |].
  { rewrite Hs. apply Z.mod_mod. lia. }
  rewrite Z2Nat.id in Hr, Hu by lia. destruct Hp1 as (N1 & N2 & N3 & N4 & N5 & N6).
  unfold pblk_end_w_bio. rewrite Z.max_r, Hr by lia. cbn -[sync_advance_loop].
  rewrite N4, HS, sync_advance_mod, Z2Nat.id by (lia || congruence).
  eexists. split; [done|]. split; [|split; [done|]].
  - by eapply ack_ring_ok; [done|lia|lia|..].
  - intros d Hd. simpl. apply (ur_out _ _ _ _ _ _ Hu).
    intros d' ? ?%(mod_k_inj k); lia.
Qed.

(** The completion list gives up exactly the requests [pre] that became the
    oldest ones. *)
Lemma drain_ok pend fuel : ∀ a rb rem l,
  ring_ok k a pend rb → tiles k (cS a) rem (cU a) → l ⊆ rem → NoDup l →
  (length l ≤ fuel)%nat →
  ∃ rb' l' pre rem' n, drain fuel rb (cS a mod 2 ^ k) l
                       = Some (rb', l', bios_of k (entries rb) (cS a) n)
    ∧ 0 ≤ n ∧ cS a + n ≤ cU a ∧ rem = pre ++ rem' ∧ l ≡ₚ pre ++ l'
    ∧ ring_ok k (a <| cS ::= Z.add n |>) pend rb'
    ∧ compl_ok k (a <| cS ::= Z.add n |>) rem' l'
    ∧ unacked_same k (cS a + n) (cU a) rb rb'.
Proof.
  induction fuel as [|fuel IH]; intros a rb rem l Hok Ht Hsub Hnd Hf;
    pose proof (ro_order _ _ _ _ Hok) as Hord; pose proof (tiles_le _ _ _ Ht).
  { destruct l; simpl in Hf; [|lia]. exists rb, [], [], rem, 0.
    split_and!; try done; try lia; [by destruct a|].
    split; simpl; try done; try constructor; by intros ? ? _ ?%elem_of_nil. }
  cbn [drain]. destruct (take_entry (cS a mod 2 ^ k) l) as [[c l1]|] eqn:Htake.
  - apply take_entry_Some in Htake as [Hs Hperm].
    assert (Hc : c ∈ rem) by (apply Hsub; rewrite Hperm; left).
    destruct rem as [|c0 rem]; [by apply elem_of_nil in Hc|].
    assert (c = c0) as -> by (eapply tiles_head_unique; [done| |done|done]; lia).
    rewrite Hperm in Hnd. apply NoDup_cons in Hnd as [Hc0 Hnd].
    destruct (end_w_bio_ok a pend rb c0 rem Hok Ht) as (rb1 & -> & Hok1 & Ht1 & Hsame).
    destruct Ht as (_ & Hv & _). pose proof (tiles_le _ _ _ Ht1).
    destruct (IH (a <| cS ::= Z.add (nr_valid c0) |>) rb1 rem l1 Hok1)
      as (rb2 & l2 & pre & rem2 & n & Hd & ? & Hn & -> & Hp & Hok2 & Hco & Hun).
    + simpl. by rewrite Z.add_comm.
    + intros x Hx. assert (x ∈ c0 :: rem) as [->|?]%elem_of_cons; [|done..].
      apply Hsub. rewrite Hperm. by right.
    + done.
    + apply Permutation_length in Hperm. simpl in Hperm. lia.
    + cbn in Hd, Hn. rewrite (Z.add_comm (nr_valid c0)) in Hd. cbn. rewrite Hd. cbn.
      exists rb2, l2, (c0 :: pre), rem2, (nr_valid c0 + n). split_and!; try lia; try done.
      * rewrite bios_of_app by lia. do 3 f_equal. apply bios_of_ext. intros. apply Hsame. lia.
      * rewrite Hperm, Hp. done.
      * revert Hok2. unfold setter; simpl. by rewrite Z.add_assoc, (Z.add_comm n).
      * revert Hco. unfold setter; simpl. by rewrite Z.add_assoc, (Z.add_comm n).
      * intros d ?. rewrite Hun by (simpl; lia). apply Hsame. lia.
  - exists rb, l, [], rem, 0. split_and!; try done; try lia; [by destruct a|].
    split; simpl; try done. intros c rem' -> Hin.
    apply (take_entry_None _ _ Htake _ Hin). by destruct Ht.
Qed.

Lemma complete_write_ok a pend cx rem c :
  ring_ok k a pend (rwb cx) → compl_ok k a rem (compl_list cx) →
  c ∈ rem → c ∉ compl_list cx →
  ∃ cx' pre rem' n, pblk_complete_write cx c
                    = Some (cx', bios_of k (entries (rwb cx)) (cS a) n)
    ∧ 0 ≤ n ∧ cS a + n ≤ cU a ∧ rem = pre ++ rem' ∧ c :: compl_list cx ≡ₚ pre ++ compl_list cx'
    ∧ ring_ok k (a <| cS ::= Z.add n |>) pend (rwb cx')
    ∧ compl_ok k (a <| cS ::= Z.add n |>) rem' (compl_list cx')
    ∧ unacked_same k (cS a + n) (cU a) (rwb cx) (rwb cx').
Proof.
  intros Hok [Ht Hsub Hnd Hhead] Hc Hcq.
  pose proof (ro_order _ _ _ _ Hok) as Hord. pose proof (tiles_le _ _ _ Ht).
  destruct rem as [|c0 rem]; [by apply elem_of_nil in Hc|].
  unfold pblk_complete_write. rewrite (ro_sync _ _ _ _ Hok).
  destruct (Z.eqb_spec (cS a mod 2 ^ k) (sentry c)) as [Heq|Hne].
  - assert (c = c0) as -> by (eapply tiles_head_unique; [done| |done|done]; lia).
    destruct (end_w_bio_ok a pend (rwb cx) c0 rem Hok Ht) as (rb1 & -> & Hok1 & Ht1 & Hsame).
    destruct Ht as (_ & Hv & _). pose proof (tiles_le _ _ _ Ht1).
    destruct (drain_ok pend (length (compl_list cx)) (a <| cS ::= Z.add (nr_valid c0) |>)
                rb1 rem (compl_list cx) Hok1)
      as (rb2 & l2 & pre & rem2 & n & Hd & ? & Hn & -> & Hp & Hok2 & Hco & Hun).
    + simpl. by rewrite Z.add_comm.
    + intros x Hx. pose proof (Hsub x Hx) as [->|?]%elem_of_cons; done.
    + done.
    + done.
    + cbn in Hd, Hn. rewrite (Z.add_comm (nr_valid c0)) in Hd. cbn. rewrite Hd. cbn.
      exists (cx <| rwb := rb2 |> <| compl_list := l2 |>), (c0 :: pre), rem2, (nr_valid c0 + n).
       split_and!; try lia; try done; cbn.
      * rewrite bios_of_app by lia. do 3 f_equal. apply bios_of_ext. intros. apply Hsame. lia.
      * by rewrite Hp.
      * revert Hok2. unfold setter; simpl. by rewrite Z.add_assoc, (Z.add_comm n).
      * revert Hco. unfold setter; simpl. by rewrite Z.add_assoc, (Z.add_comm n).
      * intros d ?. rewrite Hun by (simpl; lia). apply Hsame. lia.
  - assert (Hc0 : c ≠ c0) by (intros ->; by destruct Ht as [Hs _]).
    exists (cx <| compl_list ::= λ l, l ++ [c] |>), [], (c0 :: rem), 0. split_and!; try done; try lia; cbn.
    + apply Permutation_cons_append.
    + by destruct a.
    + split; simpl; try done.
      * intros x [Hx| ->%list_elem_of_singleton]%elem_of_app; [by apply Hsub|done].
      * apply NoDup_app. split_and!; [done| |apply NoDup_singleton].
        by intros x Hx ->%list_elem_of_singleton.
      * intros c1 rem' [= <- <-] [Hx|Hx%list_elem_of_singleton]%elem_of_app; [|done].
        by eapply Hhead.
Qed.
End completion.

(** ** The buffer in operation

    The state of one buffer together with what its users hold: the positions
    granted to writers and the requests on the device.  A step is one call of
    the code. *)

Record sys (M : Type) := Sys {
  s_cx : pblk_rb_ctx;
  s_map : M;
  s_granted : gset Z;
  s_dev : list pblk_c_ctx
}.
Arguments Sys {M}.
Arguments s_cx {M}.
Arguments s_map {M}.
Arguments s_granted {M}.
Arguments s_dev {M}.

(** The device and the memory allocator serve the request. *)
Record env_ok (env : writer_env) : Prop := {
  ev_min : 0 < min_write_pgs env;
  ev_max : 0 < sec_per_write env ≤ max_write_pgs env;
  ev_add : ∀ i, add_ok env i = true;
  ev_setup : setup_ok env = true;
  ev_io : io_ok env = true;
  ev_len : ∀ n, 0 ≤ n → Z.of_nat (length (ppas env n)) = n;
  ev_dev : ∀ n, Forall (λ p, pblk_addr_in_cache p = false) (ppas env n)
}.

Section system.
Context `{!CircBuf} {M : Type} `{!L2P M}.
Implicit Types (s : sys M) (cx : pblk_rb_ctx) (m : M) (g : gset Z).

(** The positions of [n] entries from [pos] on. *)
Definition positions rb (pos n : Z) : gset Z := list_to_set (ring_add rb pos <$> seqZ 0 n).

Inductive rb_step : sys M → sys M → Prop :=
  | step_user rl n cx m g dev cx' m' pos : 0 ≤ n →
      pblk_rb_may_write_user rl cx m n = Some (cx', m', NVM_IO_DONE, Some pos) →
      rb_step (Sys cx m g dev) (Sys cx' m' (g ∪ positions (rwb cx) pos n) dev)
  | step_gc rl n cx m g dev cx' m' pos : 0 ≤ n →
      pblk_rb_may_write_gc rl cx m n = Some (cx', m', Some pos) →
      rb_step (Sys cx m g dev) (Sys cx' m' (g ∪ positions (rwb cx) pos n) dev)
  | step_fill pos d w cx m g dev rb' m' : pos ∈ g →
      pblk_rb_write_entry_user (rwb cx) m d w pos = Some (rb', m') →
      rb_step (Sys cx m g dev) (Sys (cx <| rwb := rb' |>) m' (g ∖ {[pos]}) dev)
  | step_nr_user u cx m g dev : 0 ≤ u →
      rb_step (Sys cx m g dev) (Sys (cx <| rwb := (rwb cx) <| nr_user := u |> |>) m g dev)
  | step_submit env cx m g dev rb' c : env_ok env →
      pblk_submit_write (rwb cx) env = Some (rb', Some c) →
      rb_step (Sys cx m g dev) (Sys (cx <| rwb := rb' |>) m g (c :: dev))
  | step_complete c dev1 dev2 cx m g cx' ended :
      pblk_complete_write cx c = Some (cx', ended) →
      rb_step (Sys cx m g (dev1 ++ c :: dev2)) (Sys cx' m g (dev1 ++ dev2))
  | step_l2p cx m g dev cx' m' :
      pblk_rb_sync_l2p cx m = Some (cx', m') →
      rb_step (Sys cx m g dev) (Sys cx' m' g dev).

(** The invariant: some counters explain the pointers, the granted positions
    are those of the pending counters, and the requests on the device and on
    the completion list tile what is submitted and not acknowledged. *)
Definition sys_ok_at k (a : ring) (pend : pending) (rem : list pblk_c_ctx) s : Prop :=
  ring_ok k a pend (rwb (s_cx s))
  ∧ compl_ok k a rem (compl_list (s_cx s))
  ∧ s_dev s ++ compl_list (s_cx s) ≡ₚ rem
  ∧ s_granted s = set_map (λ c, c mod 2 ^ k) pend
  ∧ 0 ≤ nr_user (rwb (s_cx s)).

Definition sys_ok k s : Prop := ∃ a pend rem, sys_ok_at k a pend rem s.

Lemma positions_mod k rb c n :
  0 ≤ k ≤ 31 → nr_entries rb = 2 ^ k →
  positions rb (c mod 2 ^ k) n = set_map (λ c, c mod 2 ^ k) (list_to_set (seqZ c n) : pending).
Proof.
  intros Hk Hn. apply set_eq. intros p. unfold positions.
  rewrite elem_of_list_to_set, list_elem_of_fmap, elem_of_map.
  setoid_rewrite elem_of_list_to_set. setoid_rewrite elem_of_seqZ. split.
  - intros (i & -> & ?). exists (c + i). rewrite (ring_add_mod k) by done. split; [done|lia].
  - intros (d & -> & ?). exists (d - c). rewrite (ring_add_mod k) by done.
    split; [f_equal; lia|lia].
Qed.

(** Moving the acknowledged counters alone keeps the requests tiled. *)
Lemma compl_ok_L k a a' rem q :
  cS a' = cS a → cU a' = cU a → compl_ok k a rem q → compl_ok k a' rem q.
Proof. intros HS HU [? ? ? ?]. split; [by rewrite HS, HU|done..]. Qed.

Lemma sys_ok_grant k a pend rem cx m g dev cx1 m1 n u rl' :
  sys_ok_at k a pend rem (Sys cx m g dev) → 0 ≤ n → 0 ≤ u →
  (n ≤ 2 ^ k - 1 - (cM a - cS a) → compl_list cx1 = compl_list cx →
   ring_ok k (granted k a n) (grant pend (cM a) n)
     (rwb cx1 <| nr_user := u |> <| mem := ring_add (rwb cx1) (mem (rwb cx1)) n |>) →
   sys_ok k (Sys (cx1 <| rb_rl := rl' |>
                      <| rwb := (rwb cx1) <| nr_user := u |>
                           <| mem := ring_add (rwb cx1) (mem (rwb cx1)) n |> |>)
               m1 (g ∪ positions (rwb cx) (cM a mod 2 ^ k) n) dev)).
Proof.
  intros (Hok & Hco & Hdev & Hg & Hu) Hn Hu' Hfit Hcl Hok'. simpl in *.
  exists (granted k a n), (grant pend (cM a) n), rem. split_and!; simpl; try done.
  - rewrite Hcl. by eapply compl_ok_L, Hco.
  - by rewrite Hcl.
  - rewrite Hg, (positions_mod k) by (by destruct Hok). unfold grant. set_solver.
Qed.

Lemma step_user_ok k s s' rl n cx m g dev cx' m' pos :
  s = Sys cx m g dev → s' = Sys cx' m' (g ∪ positions (rwb cx) pos n) dev →
  0 ≤ n → pblk_rb_may_write_user rl cx m n = Some (cx', m', NVM_IO_DONE, Some pos) →
  sys_ok k s → sys_ok k s'.
Proof.
  intros -> -> Hn Hrun (a & pend & rem & Hall). pose proof Hall as (Hok & _). simpl in Hok.
  unfold pblk_rb_may_write_user in Hrun. destruct (pblk_rl_user_may_insert _ _ _); try done.
  unfold pblk_rb_may_write_flush in Hrun.
  destruct (decide (n ≤ 2 ^ k - 1 - (cM a - cS a))) as [Hfit|Hfit].
  - destruct (may_write_granted k a pend cx m n Hok (conj Hn Hfit))
      as (cx1 & m1 & Hw & Hmem & Hcl & Hnu & Hok1).
    rewrite Hw in Hrun; cbn in Hrun. simplify_eq.
    replace (ring_add (rwb cx1) (cM a mod 2 ^ k) n)
      with (ring_add (rwb cx1) (mem (rwb cx1)) n) by (by rewrite Hmem).
    pose proof (sys_ok_grant k a pend rem cx m g dev cx1 m' n
      (u32 (nr_user (rwb cx1) + n)) (rb_rl cx1) Hall Hn ltac:(apply u32_range) Hfit Hcl
      (Hok1 _)) as H'. by destruct cx1.
  - rewrite (may_write_refused k a pend cx m n Hok) in Hrun by lia. done.
Qed.

Lemma step_gc_ok k s s' rl n cx m g dev cx' m' pos :
  s = Sys cx m g dev → s' = Sys cx' m' (g ∪ positions (rwb cx) pos n) dev →
  0 ≤ n → pblk_rb_may_write_gc rl cx m n = Some (cx', m', Some pos) →
  sys_ok k s → sys_ok k s'.
Proof.
  intros -> -> Hn Hrun (a & pend & rem & Hall). pose proof Hall as (Hok & _). simpl in Hok.
  unfold pblk_rb_may_write_gc in Hrun. destruct (pblk_rl_gc_may_insert _ _ _); try done.
  unfold pblk_rb_may_write in Hrun. cbn in Hrun.
  destruct (decide (n ≤ 2 ^ k - 1 - (cM a - cS a))) as [Hfit|Hfit].
  - destruct (may_write_granted k a pend cx m n Hok (conj Hn Hfit))
      as (cx1 & m1 & Hw & Hmem & Hcl & Hnu & Hok1).
    rewrite Hw in Hrun; cbn in Hrun. simplify_eq.
    replace (ring_add (rwb cx1) (cM a mod 2 ^ k) n)
      with (ring_add (rwb cx1) (mem (rwb cx1)) n) by (by rewrite Hmem).
    pose proof (sys_ok_grant k a pend rem cx m g dev cx1 m' n
      (nr_user (rwb cx1)) (pblk_rl_gc_in (rb_rl cx1) n) Hall Hn) as H'.
    rewrite Hnu in H' at 1. specialize (H' ltac:(by destruct Hall as (_ & _ & _ & _ & ?))
      Hfit Hcl (Hok1 _)).
    revert H'. destruct cx1 as [rb ? ?]; by destruct rb.
  - rewrite (may_write_refused k a pend cx m n Hok) in Hrun by lia. done.
Qed.

Lemma step_fill_ok k s s' pos d w cx m g dev rb' m' :
  s = Sys cx m g dev → s' = Sys (cx <| rwb := rb' |>) m' (g ∖ {[pos]}) dev →
  pos ∈ g → pblk_rb_write_entry_user (rwb cx) m d w pos = Some (rb', m') →
  sys_ok k s → sys_ok k s'.
Proof.
  intros -> -> Hpos Hrun (a & pend & rem & Hok & Hco & Hdev & Hg & Hu). simpl in *. subst g.
  apply elem_of_map in Hpos as (c & -> & Hc).
  destruct (write_entry_user_ok k a pend (rwb cx) m c d w Hok Hc) as (rb1 & m1 & Hr & Hok1).
  rewrite Hr in Hrun. simplify_eq.
  exists a, (pend ∖ {[c]}), rem. split_and!; simpl; try done.
  - apply set_eq. intros p. rewrite elem_of_difference, !elem_of_map, elem_of_singleton.
    split.
    + intros ((x & -> & Hx) & Hne). exists x. split; [done|]. set_solver.
    + intros (x & -> & [Hx Hxc]%elem_of_difference). split; [by eauto|].
      intros Heq. apply (mod_k_inj k) in Heq; [set_solver|by destruct Hok|].
      pose proof (ro_order _ _ _ _ Hok).
      pose proof (ro_pend _ _ _ _ Hok _ Hx). pose proof (ro_pend _ _ _ _ Hok _ Hc). lia.
  - revert Hr. unfold pblk_rb_write_entry_user. intros Hr. run Hr. by simplify_eq/=.
Qed.

(** The loop of the submission stops at an entry still waiting for data. *)
Lemma read_entries_filled k n : ∀ rb c ao rb',
  0 ≤ k ≤ 31 → nr_entries rb = 2 ^ k → Z.of_nat n ≤ 2 ^ k →
  (∀ i, ao i = true) → read_entries n rb (c mod 2 ^ k) ao = Some rb' →
  ∀ d e, c ≤ d < c + Z.of_nat n → rd (entries rb) (d mod 2 ^ k) = Some e →
    ¬ is_free (flags (w_ctx e)).
Proof.
  induction n as [|n IH]; intros rb c ao rb' Hk Hnr Hn Hao Hrun d e Hd He; [lia|].
  cbn [read_entries] in Hrun. rewrite Hao in Hrun. apply bind_Some in Hrun as ([rb1 ok] & H1 & Hrun).
  unfold read_entry in H1. run H1. rename x into e0, E into He0.
  apply ensure_Some in E0 as [Hf _].
  destruct (decide (d = c)) as [->|].
  { simplify_eq. intros (_ & W & I). by rewrite W, I in Hf. }
  destruct (if has (clr (flags (w_ctx e0)) PBLK_RESERVED_ENTRY) PBLK_FLUSH_ENTRY
            then _ else _) as [rb2 f1] eqn:E2.
  assert (Hr : entries rb2 = entries rb ∧ nr_entries rb2 = nr_entries rb).
  { destruct (has _ PBLK_FLUSH_ENTRY), (sync_point rb =? c mod 2 ^ k); by simplify_eq/=. }
  destruct Hr as [Hes Hnr2]. cbn -[wr] in H1. run H1. simplify_eq/=.
  rewrite (ring_add_mod k) in Hrun by (simpl; congruence).
  refine (IH _ (c + 1) ao _ Hk _ _ Hao Hrun d e _ _); simpl; [congruence|lia|lia|].
  rewrite (rd_wr _ _ _ _ _ E), Hes. case_decide as Heq; [|done].
  apply (mod_k_inj k) in Heq; lia.
Qed.

(** The conditions under which a turn of the writer thread takes sectors. *)
Definition may_submit rb (env : writer_env) : bool :=
  nz (pblk_rb_read_count rb) && (min_write_pgs env + 8 <=? secs_available rb)
  && (is_gc env || (1 + inflight_ws env <? free_blks env)) && rqd_ok env && bio_ok env.

Definition secs_taken rb (env : writer_env) : Z :=
  pblk_calc_secs (sec_per_write env) (min_write_pgs env) (secs_available rb)
    (pblk_rb_sync_point_count rb).

Lemma read_count_eq k a pend rb : ring_ok k a pend rb → pblk_rb_read_count rb = cM a - cU a.
Proof.
  intros [Hk Hnr Hlen Hord HL HS HU HM Hp Hc Hent]. unfold pblk_rb_read_count.
  pose proof (mod_k_range k Hk (cU a)). pose proof (mod_k_range k Hk (cM a)).
  rewrite HM, HU, Hnr, CIRC_CNT_spec, (mod_k_diff k) by lia. done.
Qed.

Lemma secs_taken_bounds k a pend rb env :
  ring_ok k a pend rb → env_ok env → 0 ≤ nr_user rb → may_submit rb env = true →
  0 < secs_taken rb env ≤ secs_available rb ∧ secs_taken rb env ≤ max_write_pgs env
  ∧ cU a + secs_taken rb env ≤ cM a.
Proof.
  intros Hok [Hmin Hmax _ _ _ _ _] Hu Hgo. pose proof (ro_order _ _ _ _ Hok).
  unfold may_submit in Hgo. bools. rename H1 into Hcnt.
  pose proof (calc_secs_bounds (sec_per_write env) (min_write_pgs env) (secs_available rb)
    (pblk_rb_sync_point_count rb)) as Hb.
  assert (secs_available rb ≤ cM a - cU a).
  { unfold secs_available. rewrite (read_count_eq k a pend) by done. bcase; lia. }
  fold (secs_taken rb env) in Hb. lia.
Qed.

Lemma submit_write_unfold k a pend rb env (s := secs_taken rb env) :
  ring_ok k a pend rb → env_ok env → 0 ≤ nr_user rb → may_submit rb env = true →
  pblk_submit_write rb env =
    ('(rb1, ok) ← read_entries (Z.to_nat s) (rb <| subm := (cU a + s) mod 2 ^ k |>)
                    (cU a mod 2 ^ k) (add_ok env);
     if ok : bool then
       rb2 ← set_ppas (ppas env s) rb1 (cU a mod 2 ^ k);
       Some (rb2, Some {| sentry := cU a mod 2 ^ k; nr_valid := s; nr_padded := 0 |})
     else Some (rb1, None)).
Proof.
  intros Hok Henv Hu Hgo.
  destruct (secs_taken_bounds k a pend rb env Hok Henv Hu Hgo) as (Hs & Hmx & HsM).
  fold s in Hs, Hmx, HsM. pose proof Henv as [Hmin Hmax Hadd Hset Hio Hlen Hdev].
  pose proof (ring_add_mod k (ro_k _ _ _ _ Hok) rb (cU a) s (ro_nr _ _ _ _ Hok)) as Hadv.
  pose proof Hgo as Hgo'. unfold may_submit, nz in Hgo'.
  apply andb_true_iff in Hgo' as [Hgo' Hbio]. apply andb_true_iff in Hgo' as [Hgo' Hrqd].
  apply andb_true_iff in Hgo' as [Hgo' Hfree]. apply andb_true_iff in Hgo' as [Hcnt Hav].
  unfold pblk_submit_write. apply negb_true_iff in Hcnt. rewrite Hcnt, Hrqd, Hbio. bools.
  destruct (Z.ltb_spec (secs_available rb) (min_write_pgs env + 8)); [lia|].
  replace (negb (is_gc env) && (free_blks env <=? 1 + inflight_ws env)) with false
    by (destruct (is_gc env); [done|]; simpl in *; bools; symmetry; apply Z.leb_gt; lia).
  cbn [negb orb]. fold (secs_taken rb env). fold s.
  destruct (Z.ltb_spec (max_write_pgs env) s); [lia|].
  rewrite Z.min_r by lia. unfold pblk_rb_read_commit. rewrite (ro_subm _ _ _ _ Hok), Hadv.
  unfold pblk_rb_read_to_bio. destruct (Z.ltb_spec (secs_available rb) s); [lia|].
  destruct (read_entries _ _ _ _) as [[rb1 [|]]|]; cbn -[pblk_map_rq set_ppas]; try done.
  rewrite Hset, Hio, Z.add_0_r. unfold pblk_map_rq; cbn -[map_rq_loop set_ppas].
  pose proof (map_rq_loop_eq (length (ppas env s)) rb1 (cU a mod 2 ^ k) (ppas env s)
    (min_write_pgs env) 0 Hmin ltac:(lia) ltac:(lia)) as Hmap.
  rewrite Z.mul_0_l, Z.add_0_r in Hmap. cbn [drop Z.to_nat] in Hmap.
  rewrite drop_0 in Hmap. rewrite (Hlen s) in Hmap |- * by lia. by rewrite Hmap.
Qed.

Lemma submit_write_refused rb env :
  may_submit rb env = false → pblk_submit_write rb env = Some (rb, None).
Proof.
  unfold may_submit, nz, pblk_submit_write. intros Hno.
  destruct (pblk_rb_read_count rb =? 0); [done|].
  rewrite Z.leb_antisym in Hno.
  destruct (secs_available rb <? min_write_pgs env + 8); [done|].
  rewrite Z.leb_antisym. cbn [negb andb] in Hno.
  destruct (is_gc env), (1 + inflight_ws env <? free_blks env), (rqd_ok env), (bio_ok env);
    done.
Qed.

(** A turn of the writer thread that finds its sectors filled. *)
Lemma submit_write_ok k a pend rb env (s := secs_taken rb env) :
  ring_ok k a pend rb → env_ok env → 0 ≤ nr_user rb → may_submit rb env = true →
  (∀ c, c ∈ pend → cU a + s ≤ c) →
  ∃ rb', pblk_submit_write rb env
         = Some (rb', Some {| sentry := cU a mod 2 ^ k; nr_valid := s; nr_padded := 0 |})
    ∧ ring_ok k (a <| cU ::= Z.add s |>) pend rb' ∧ nr_user rb' = nr_user rb.
Proof.
  intros Hok Henv Hu Hgo Hfree. rewrite (submit_write_unfold k a pend) by done. fold s.
  destruct (secs_taken_bounds k a pend rb env Hok Henv Hu Hgo) as (Hs & _ & HsM).
  fold s in Hs, HsM. destruct Henv as [_ _ Hadd _ _ Hlen Hdev].
  pose proof Hok as [Hk Hnr Hln Hord HL HS HU HM Hp Hc Hent].
  destruct (read_entries_ok k Hk (Z.to_nat s) (rb <| subm := (cU a + s) mod 2 ^ k |>) (cU a)
    (add_ok env)) as (rb1 & -> & Hu1 & Hp1); [done|done|lia|done| |].
  { intros d e Hd He. simpl in He.
    apply (eo_written _ _ _ _ (Hent d e ltac:(lia) He)); [lia|].
    intros Hin%Hfree. lia. }
  destruct Hp1 as (N1 & N2 & N3 & N4 & N5 & N6). cbn in Hu1, N1, N2, N3, N4, N5, N6.
  rewrite Z2Nat.id in Hu1 by lia. cbn -[set_ppas].
  destruct (set_ppas_ok k Hk (ppas env s) rb1 (cU a) (cU a mod 2 ^ k))
    as (rb2 & -> & Hu2 & Hp2); [congruence| | |done| |].
  { by rewrite (ur_len _ _ _ _ _ _ Hu1). }
  { rewrite Hlen by lia. lia. }
  { apply Z.mod_mod. pose proof (pow_k k Hk). lia. }
  rewrite Hlen in Hu2 by lia. destruct Hp2 as (P1 & P2 & P3 & P4 & P5 & P6).
  exists rb2. split; [done|]. split; [|congruence].
  eapply submit_ring_ok; [done|done|lia|done|exact Hfree|congruence..|].
  by eapply upd_range_comp.
Qed.

(** A request that reached the device took only filled entries. *)
Lemma submit_write_filled k a pend rb env rb' c :
  ring_ok k a pend rb → env_ok env → 0 ≤ nr_user rb →
  pblk_submit_write rb env = Some (rb', Some c) →
  may_submit rb env = true ∧ ∀ d, d ∈ pend → cU a + secs_taken rb env ≤ d.
Proof.
  intros Hok Henv Hu Hrun.
  destruct (may_submit rb env) eqn:Hgo; [|by rewrite submit_write_refused in Hrun].
  split; [done|]. rewrite (submit_write_unfold k a pend) in Hrun by done.
  destruct (secs_taken_bounds k a pend rb env Hok Henv Hu Hgo) as (Hs & _ & HsM).
  pose proof (ro_order _ _ _ _ Hok). apply bind_Some in Hrun as (r & Hread & _).
  intros d Hd. destruct (decide (d < cU a + secs_taken rb env)) as [Hlt|]; [|lia]. exfalso.
  pose proof (ro_pend _ _ _ _ Hok d Hd).
  destruct (ring_ok_rd k pend a rb d Hok) as [e He].
  eapply (read_entries_filled k _ _ _ _ _ (ro_k _ _ _ _ Hok)); [| | |exact Hread| |exact He|].
  - apply (ro_nr _ _ _ _ Hok).
  - lia.
  - apply Henv.
  - lia.
  - eapply (eo_pending _ _ _ _ (ro_entry _ _ _ _ Hok d e ltac:(lia) He)); [lia|done].
Qed.

Lemma compl_ok_submit k a rem q c :
  0 ≤ k ≤ 31 → compl_ok k a rem q → sentry c = cU a mod 2 ^ k → 1 ≤ nr_valid c →
  cU a + nr_valid c - cS a < 2 ^ k →
  compl_ok k (a <| cU ::= Z.add (nr_valid c) |>) (rem ++ [c]) q.
Proof.
  intros Hk [Ht Hsub Hnd Hhead] Hs Hv Hfit. pose proof (tiles_app k Hk _ _ c _ Ht Hs Hv) as Ht'.
  split; simpl; [by rewrite Z.add_comm| |done|].
  - intros x Hx. apply elem_of_app. left. by apply Hsub.
  - intros x rem' Heq Hx. destruct rem as [|c0 rem]; simplify_eq/=.
    + by apply Hsub, elem_of_nil in Hx.
    + by eapply Hhead.
Qed.

Lemma sys_ok_submit k s s' env cx m g dev rb' c :
  s = Sys cx m g dev → s' = Sys (cx <| rwb := rb' |>) m g (c :: dev) → env_ok env →
  pblk_submit_write (rwb cx) env = Some (rb', Some c) → sys_ok k s → sys_ok k s'.
Proof.
  intros -> -> Henv Hrun (a & pend & rem & Hok & Hco & Hdev & Hg & Hu). simpl in *.
  destruct (submit_write_filled k a pend _ env rb' c Hok Henv Hu Hrun) as [Hgo Hfree].
  destruct (submit_write_ok k a pend _ env Hok Henv Hu Hgo Hfree) as (rb1 & Hr & Hok1 & Hu1).
  destruct (secs_taken_bounds k a pend _ env Hok Henv Hu Hgo) as (Hs & _ & HsM).
  rewrite Hr in Hrun. simplify_eq. pose proof (ro_order _ _ _ _ Hok).
  exists (a <| cU ::= Z.add (secs_taken (rwb cx) env) |>), pend, (rem ++ [Build_pblk_c_ctx
    (cU a mod 2 ^ k) (secs_taken (rwb cx) env) 0]).
  split_and!; simpl; try done; [| |lia].
  - apply (compl_ok_submit k a rem _ (Build_pblk_c_ctx _ (secs_taken (rwb cx) env) 0));
      simpl; [by destruct Hok|done|done|lia|lia].
  - rewrite <- Hdev. by rewrite Permutation_cons_append.
Qed.

Lemma sys_ok_complete_pre k a pend rem cx m g dev1 dev2 c :
  sys_ok_at k a pend rem (Sys cx m g (dev1 ++ c :: dev2)) →
  c ∈ rem ∧ c ∉ compl_list cx.
Proof.
  intros (Hok & Hco & Hdev & Hg & Hu). simpl in *.
  pose proof (tiles_nodup k (ro_k _ _ _ _ Hok) _ _ _ (co_tiles _ _ _ _ Hco)) as Hnd.
  pose proof (ro_order _ _ _ _ Hok). specialize (Hnd ltac:(lia)). split.
  - rewrite <- Hdev. set_solver.
  - rewrite <- Hdev in Hnd. apply NoDup_app in Hnd as (_ & Hdis & _).
    apply Hdis. set_solver.
Qed.

Lemma end_w_bio_nr_user rb c rb' p bs :
  pblk_end_w_bio rb c = Some (rb', p, bs) → nr_user rb' = nr_user rb.
Proof.
  assert (Hnr : ∀ n rb p rb' bs, end_bios n rb p = Some (rb', bs) → nr_user rb' = nr_user rb).
  { clear. induction n as [|n IH]; simpl; intros rb p rb' bs Hr; [by simplify_eq|].
    run Hr. destruct x1. simplify_eq/=. by apply IH in E1. }
  unfold pblk_end_w_bio. intros Hr. run Hr. destruct x. simplify_eq/=. by eapply Hnr.
Qed.

Lemma drain_nr_user f : ∀ rb p l rb' l' bs,
  drain f rb p l = Some (rb', l', bs) → nr_user rb' = nr_user rb.
Proof.
  induction f as [|f IH]; simpl; intros rb p l rb' l' bs Hr; [by simplify_eq|].
  destruct (take_entry p l) as [[c l1]|]; [|by simplify_eq]. run Hr.
  destruct x as [[??]?]. run Hr. destruct x as [[??]?]. simplify_eq.
  apply IH in E0. apply end_w_bio_nr_user in E. congruence.
Qed.

Lemma complete_write_nr_user cx c cx' bs :
  pblk_complete_write cx c = Some (cx', bs) → nr_user (rwb cx') = nr_user (rwb cx).
Proof.
  unfold pblk_complete_write. bcase; [|by intros [= <- _]]. intros Hr. run Hr.
  destruct x as [[??]?]. run Hr. destruct x as [[??]?]. simplify_eq/=.
  apply drain_nr_user in E1. apply end_w_bio_nr_user in E0. congruence.
Qed.

Lemma sys_ok_complete k s s' c dev1 dev2 cx m g cx' ended :
  s = Sys cx m g (dev1 ++ c :: dev2) → s' = Sys cx' m g (dev1 ++ dev2) →
  pblk_complete_write cx c = Some (cx', ended) → sys_ok k s → sys_ok k s'.
Proof.
  intros -> -> Hrun (a & pend & rem & Hall).
  destruct (sys_ok_complete_pre _ _ _ _ _ _ _ _ _ _ Hall) as [Hin Hnq].
  destruct Hall as (Hok & Hco & Hdev & Hg & Hu). simpl in *.
  destruct (complete_write_ok k (ro_k _ _ _ _ Hok) a pend cx rem c Hok Hco Hin Hnq)
    as (cx1 & pre & rem' & n & Hr & Hn & HnU & -> & Hperm & Hok' & Hco' & _).
  rewrite Hr in Hrun. simplify_eq.
  exists (a <| cS ::= Z.add n |>), pend, rem'. split_and!; simpl; try done.
  - apply (Permutation_app_inv_l pre).
    rewrite <- Hdev, <- (Permutation_middle dev1), Permutation_app_comm, <- app_assoc.
    rewrite (Permutation_app_comm (compl_list cx') pre), <- Hperm. simpl.
    rewrite <- Permutation_middle. by constructor.
  - by rewrite (complete_write_nr_user _ _ _ _ Hr).
Qed.

Lemma sys_ok_l2p k s s' cx m g dev cx' m' :
  s = Sys cx m g dev → s' = Sys cx' m' g dev →
  pblk_rb_sync_l2p cx m = Some (cx', m') → sys_ok k s → sys_ok k s'.
Proof.
  intros -> -> Hrun (a & pend & rem & Hok & Hco & Hdev & Hg & Hu). simpl in *.
  destruct (rb_sync_l2p_ok k pend a cx m Hok) as (cx1 & m1 & Hr & Hok1 & Hcl & Hnu).
  rewrite Hr in Hrun. simplify_eq.
  exists (a <| cL := cS a |>), pend, rem. split_and!; simpl; rewrite ?Hcl, ?Hnu; try done.
  by eapply compl_ok_L, Hco.
Qed.

Lemma sys_ok_step k s s' : sys_ok k s → rb_step s s' → sys_ok k s'.
Proof.
  intros Hok Hstep. inversion Hstep; subst.
  - by eapply step_user_ok.
  - by eapply step_gc_ok.
  - by eapply step_fill_ok.
  - destruct Hok as (a & pend & rem & Hr & Hco & Hdev & Hg & Hu).
    exists a, pend, rem. split_and!; simpl in *; try done. by destruct Hr.
  - by eapply sys_ok_submit.
  - by eapply sys_ok_complete.
  - by eapply sys_ok_l2p.
Qed.

(** A buffer fresh from [pblk_rb_init] satisfies the invariant. *)
Lemma rb_init_ring_ok MAX_ORDER nrb base k seg answers fresh :
  1 ≤ MAX_ORDER → 0 ≤ k ≤ 31 → Z.of_nat (length base) = 2 ^ k →
  Forall (λ x, x = (true, true)) answers →
  Z.max 1 (2 ^ (k - (MAX_ORDER - 1))) ≤ Z.of_nat (length answers) →
  ∃ rb, pblk_rb_init MAX_ORDER nrb base k seg answers fresh = Some (rb, true)
    ∧ ring_ok k (Build_ring 0 0 0 0) ∅ rb ∧ nr_user rb = 0.
Proof.
  intros HM Hk Hlen Hall Hans. unfold pblk_rb_init. cbn -[init_loop].
  set (oi := if MAX_ORDER - 1 <=? k then _ else _).
  assert (Hoi : 0 ≤ oi.1 ∧ 0 ≤ oi.2 ∧ oi.2 * 2 ^ oi.1 = 2 ^ k ∧ oi.2 ≤ Z.of_nat (length answers)).
  { subst oi. rewrite Z.shiftl_1_l. bcase; cbn [fst snd]; [|lia].
    split_and!; [lia| |rewrite <- Z.pow_add_r by lia; f_equal; lia|lia].
    apply Z.pow_nonneg. lia. }
  destruct oi as [order iter]. cbn [fst snd] in Hoi. destruct Hoi as (Ho & Hi & Hp & Hit).
  destruct (init_loop_ok nrb fresh order (Z.to_nat iter) answers 0 [] base)
    as (es & -> & Hl & Hrd); [lia|lia|rewrite Z2Nat.id by lia; lia|lia|done|].
  rewrite Z2Nat.id in Hrd by lia. cbn. eexists. split; [done|]. split; [|done].
  pose proof (pow_k k Hk).
  assert (Hat : ∀ j e, rd es j = Some e → ∃ e0, e = init_entry nrb j fresh e0).
  { intros j e He. pose proof (rd_lt _ _ _ He). rewrite Hrd in He. case_decide; [|lia].
    destruct (rd base j); simplify_eq/=. eauto. }
  split; simpl; rewrite ?Z.mod_0_l by lia; try done; try lia.
  - apply Z.shiftl_1_l.
  - intros i e (e0 & ->)%Hat. done.
  - intros c e Hc (e0 & ->)%Hat. split; simpl; intros; try lia; done.
Qed.

(** The requests on the device are told complete one after the other. *)
Fixpoint complete_all cx (cs : list pblk_c_ctx) : option (pblk_rb_ctx * list nat) :=
  match cs with
  | [] => Some (cx, [])
  | c :: cs =>
      '(cx, ended) ← pblk_complete_write cx c;
      '(cx, ended') ← complete_all cx cs;
      Some (cx, ended ++ ended')
  end.

(** C2: whatever the order in which the device completes the outstanding
    requests, the completions end with every submitted entry acknowledged,
    nothing left on the completion list, and the bios of the acknowledged
    entries ended exactly once, in the order of the buffer. *)
Theorem complete_any_order k a pend rem cx cs :
  ring_ok k a pend (rwb cx) → compl_ok k a rem (compl_list cx) →
  cs ++ compl_list cx ≡ₚ rem →
  ∃ cx', complete_all cx cs = Some (cx', bios_of k (entries (rwb cx)) (cS a) (cU a - cS a))
    ∧ sync (rwb cx') = subm (rwb cx') ∧ compl_list cx' = [].
Proof.
  revert a rem cx. induction cs as [|c cs IH]; intros a rem cx Hok Hco Hperm.
  - destruct rem as [|c rem].
    + apply Permutation_nil_r in Hperm. exists cx. destruct Hco as [Ht _ _ _]. simpl in Ht.
      rewrite (ro_sync _ _ _ _ Hok), (ro_subm _ _ _ _ Hok), Ht, Z.sub_diag. done.
    + destruct (co_head _ _ _ _ Hco c rem eq_refl). simpl in Hperm. rewrite Hperm. left.
  - pose proof (tiles_nodup k (ro_k _ _ _ _ Hok) _ _ _ (co_tiles _ _ _ _ Hco)) as Hnd.
    pose proof (ro_order _ _ _ _ Hok). specialize (Hnd ltac:(lia)).
    rewrite <- Hperm in Hnd. apply NoDup_cons in Hnd as [Hc Hnd].
    destruct (complete_write_ok k (ro_k _ _ _ _ Hok) a pend cx rem c Hok Hco)
      as (cx1 & pre & rem' & n & Hr & Hn & HnU & -> & Hp & Hok' & Hco' & Hun).
    { rewrite <- Hperm. left. } { set_solver. }
    destruct (IH _ rem' cx1 Hok' Hco') as (cx2 & Hr2 & ? & ?).
    { apply (Permutation_app_inv_l pre). rewrite <- Hperm, Permutation_app_comm, <- app_assoc.
      rewrite (Permutation_app_comm (compl_list cx1) pre), <- Hp.
      simpl. by rewrite <- Permutation_middle. }
    exists cx2. split; [|done]. cbn [complete_all]. rewrite Hr. cbn -[complete_all].
    rewrite Hr2. cbn. do 2 f_equal.
    replace (cU a - cS a) with (n + (cU a - (n + cS a))) by lia.
    rewrite bios_of_app, (Z.add_comm n (cS a)) by lia. f_equal.
    apply bios_of_ext. intros d Hd. apply Hun. lia.
Qed.


(** C3: a grant is exclusive and leaves unacknowledged data alone: its [n]
    positions are different from each other and from every position granted
    before, and none of them holds an entry that is not acknowledged yet. *)
Theorem grant_exclusive k a pend rem cx m g dev rl n cx' m' pos :
  sys_ok_at k a pend rem (Sys cx m g dev) → 0 ≤ n →
  pblk_rb_may_write_user rl cx m n = Some (cx', m', NVM_IO_DONE, Some pos) →
  size (positions (rwb cx) pos n) = Z.to_nat n
  ∧ positions (rwb cx) pos n ## g
  ∧ (∀ c, cS a ≤ c < cM a → c mod 2 ^ k ∉ positions (rwb cx) pos n).
Proof.
  intros (Hok & _ & _ & Hg & _) Hn Hrun. simpl in *.
  pose proof Hok as [Hk Hnr _ Hord _ _ _ _ Hp _ _].
  unfold pblk_rb_may_write_user, pblk_rb_may_write_flush in Hrun.
  destruct (pblk_rl_user_may_insert _ _ _); try done.
  destruct (decide (n ≤ 2 ^ k - 1 - (cM a - cS a))) as [Hfit|Hfit];
    [|by rewrite (may_write_refused k a pend cx m n Hok) in Hrun by lia].
  destruct (may_write_granted k a pend cx m n Hok (conj Hn Hfit)) as (? & ? & Hw & _).
  rewrite Hw in Hrun. cbn in Hrun. simplify_eq. rewrite (positions_mod k) by done.
  assert (Hdisj : ∀ c, cS a ≤ c < cM a →
    c mod 2 ^ k ∉ (set_map (λ c, c mod 2 ^ k) (list_to_set (seqZ (cM a) n) : pending) : gset Z)).
  { intros c Hc (d & Heq & Hd%elem_of_list_to_set%elem_of_seqZ)%elem_of_map.
    apply (mod_k_inj k) in Heq; lia. }
  split_and!; [| |done].
  - rewrite <- (positions_mod k (rwb cx)) by done. unfold positions.
    rewrite size_list_to_set; [by rewrite length_fmap, length_seqZ|].
    apply NoDup_fmap_2_strong; [|apply NoDup_seqZ].
    intros u v Hu%elem_of_seqZ Hv%elem_of_seqZ. rewrite !(ring_add_mod k) by done.
    intros Heq%(mod_k_inj k); lia.
  - intros p Hpos (c & -> & Hc)%elem_of_map. pose proof (Hp _ Hc).
    eapply Hdisj; [|exact Hpos]. lia.
Qed.


(** A flush is ineffective on a short buffer: with fewer than
    [min_write_pgs + 8] sectors available the writer thread leaves the buffer
    as it is, whatever sync point is set. *)
Lemma flush_waits rb env sp :
  secs_available rb < min_write_pgs env + 8 →
  pblk_submit_write (rb <| sync_point := sp |>) env = Some (rb <| sync_point := sp |>, None).
Proof.
  intros Hlt. apply submit_write_refused. unfold may_submit.
  change (secs_available (rb <| sync_point := sp |>)) with (secs_available rb).
  destruct (Z.leb_spec (min_write_pgs env + 8) (secs_available rb)); [lia|].
  by rewrite andb_false_r.
Qed.


(** Whatever the load of the buffers, [pblk_rb_remain_max] answers the
    first one: its loop compares the current buffer with itself. *)
Lemma remain_max_is_first rl rls n nr_rwb :
  (0 < length rls)%nat → pblk_rb_remain_max rl rls n nr_rwb = Some 0%nat.
Proof.
  intros Hlen. unfold pblk_rb_remain_max.
  destruct rls as [|r rls]; simpl in *; [lia|]. generalize (seq 1 (nr_rwb - 1)).
  induction l as [|i idx IH]; [done|]. simpl.
  rewrite Z.ltb_irrefl, andb_false_r. exact IH.
Qed.

(** When [alloc_pages] fails, [pblk_rb_init] never returns:
    [pblk_rb_data_free] takes the semaphore its caller holds. *)
Lemma rb_init_nomem_deadlock MAX_ORDER nrb base k seg answers fresh :
  1 ≤ MAX_ORDER → 0 ≤ k →
  pblk_rb_init MAX_ORDER nrb base k seg ((true, false) :: answers) fresh = None.
Proof.
  intros HM Hk. unfold pblk_rb_init. cbn -[init_loop].
  set (oi := if MAX_ORDER - 1 <=? k then _ else _).
  assert (1 ≤ oi.2).
  { subst oi. bcase; cbn [snd]; [|lia]. rewrite Z.shiftl_1_l.
    pose proof (pow2_pos (k - (MAX_ORDER - 1))). lia. }
  destruct oi as [order iter]. cbn [snd] in *. destruct (Z.to_nat iter) eqn:E; [lia|done].
Qed.
End system.

(** ** A concrete buffer *)

(** linux/circ_buf.h *)
Definition circ_cnt (head tail size : Z) : Z := Z.land (head - tail) (size - 1).

Lemma circ_space_eq k head tail :
  0 ≤ k < 32 → circ_cnt tail (head + 1) (2 ^ k) = 2 ^ k - 1 - (head - tail) mod 2 ^ k.
Proof.
  intros Hk. unfold circ_cnt. rewrite land_mask by lia. pose proof (pow2_pos k).
  pose proof (Z.mod_pos_bound (head - tail) (2 ^ k)).
  pose proof (Z.div_mod (head - tail) (2 ^ k)).
  symmetry. apply (Z.mod_unique_pos _ _ (- ((head - tail) / 2 ^ k) - 1)); nia.
Qed.

#[local] Instance circ_buf : CircBuf := {
  CIRC_CNT := circ_cnt;
  CIRC_SPACE := λ head tail size, circ_cnt tail (head + 1) size;
  CIRC_CNT_spec := λ k head tail Hk _ _, land_mask (head - tail) k (proj1 Hk);
  CIRC_SPACE_spec := λ k head tail Hk _ _, circ_space_eq k head tail Hk
}.

(** A map of 64 sectors that keeps the latest address of each. *)
#[local] Instance gmap_l2p : L2P (gmap Z ppa_addr).
Proof.
  refine {| map_cache := λ m lba p, Some (<[lba := p]> m);
            map_dev := λ m lba p c, if pblk_addr_in_cache p then None
                                    else Some (if decide (m !! lba = Some c)
                                               then <[lba := p]> m else m);
            map_gc := λ m lba p _, Some (<[lba := p]> m, true);
            map_get := λ m lba, default ADDR_EMPTY (m !! lba);
            line_put := λ m _, Some m;
            map_secs := λ _, 64 |}.
  - intros m lba p c ->. eauto.
  - eauto.
  - eauto.
  - intros m m' lba p _ [= <-]. by rewrite lookup_insert_eq.
Defined.

Definition blank_entry : pblk_rb_entry :=
  {| cacheline := ADDR_EMPTY; data := [];
     w_ctx := {| bios := []; lba := 0; ppa := ADDR_EMPTY; flags := 0; submit_flags := 0 |} |}.

(** Thirty-two entries, as [RWB_BUFFER] asks for. *)
Definition rb_sample : option (pblk_rb * bool) :=
  pblk_rb_init 11 0 (replicate 32 blank_entry) 5 12 [(true, true)] [].

Definition rb0 : pblk_rb :=
  Eval vm_compute in match rb_sample with Some (rb, _) => rb | None =>
    {| index := 0; entries := []; mem := 0; subm := 0; sync := 0; sync_point := 0;
       l2p_update := 0; nr_entries := 0; seg_size := 0; submit_point := 0; nr_user := 0;
       inflight_sync_point := 0 |} end.

Definition cx0 : pblk_rb_ctx := Build_pblk_rb_ctx rb0 (pblk_rl_per_rb_init) [].


(** A busy buffer: sixteen sectors on the device in two requests, sixteen
    written ones waiting, the last of the buffer free. *)
Definition busy_entry (i : Z) : pblk_rb_entry :=
  {| cacheline := pblk_cacheline_to_addr i 0; data := [i];
     w_ctx := if i <? 16 then
                {| bios := [Z.to_nat i]; lba := i; ppa := Dev 3 0 0 0 0 i;
                   flags := Z.lor PBLK_IOTYPE_USER PBLK_SUBMITTED_ENTRY;
                   submit_flags := PBLK_SUBMITTED_ENTRY |}
              else if i <? 30 then
                {| bios := []; lba := i; ppa := ADDR_EMPTY;
                   flags := Z.lor PBLK_IOTYPE_USER PBLK_WRITTEN_DATA; submit_flags := 0 |}
              else
                {| bios := []; lba := 0; ppa := ADDR_EMPTY;
                   flags := PBLK_WRITABLE_ENTRY; submit_flags := 0 |} |}.

Definition rb_busy : pblk_rb :=
  {| index := 0; entries := busy_entry <$> seqZ 0 32; mem := 30; subm := 16; sync := 0;
     sync_point := EMPTY_ENTRY; l2p_update := 0; nr_entries := 32; seg_size := 4096;
     submit_point := 15; nr_user := 0; inflight_sync_point := 0 |}.

Definition reqs_busy : list pblk_c_ctx :=
  [ {| sentry := 0; nr_valid := 8; nr_padded := 0 |};
    {| sentry := 8; nr_valid := 8; nr_padded := 0 |} ].

Definition ring_busy : ring := Build_ring 0 0 16 30.

Lemma rb_busy_ok : ring_ok 5 ring_busy ∅ rb_busy.
Proof.
  split; try done.
  - intros i e He. pose proof (rd_lt _ _ _ He) as Hlt.
    change (entries rb_busy) with (busy_entry <$> seqZ 0 32) in He, Hlt.
    rewrite length_fmap, length_seqZ in Hlt. rewrite rd_table in He by lia. by simplify_eq.
  - intros c e Hc. change (entries rb_busy) with (busy_entry <$> seqZ 0 32).
    cbn in Hc. rewrite Z.mod_small, rd_table by lia. intros [= <-]. unfold busy_entry.
    split; simpl; intros; destruct (Z.ltb_spec c 16), (Z.ltb_spec c 30); try lia; try done.
Qed.

Lemma reqs_busy_ok : compl_ok 5 ring_busy reqs_busy [].
Proof. split; [done|set_solver|constructor|set_solver]. Qed.

(** The second request completes first. *)
Lemma complete_any_order_witness :
  ∃ cx', complete_all (Build_pblk_rb_ctx rb_busy pblk_rl_per_rb_init []) (rev reqs_busy)
         = Some (cx', bios_of 5 (entries rb_busy) 0 16) ∧ compl_list cx' = [].
Proof.
  destruct (complete_any_order 5 ring_busy ∅ reqs_busy
    (Build_pblk_rb_ctx rb_busy pblk_rl_per_rb_init []) (rev reqs_busy))
    as (cx' & Hr & _ & Hc).
  - apply rb_busy_ok.
  - apply reqs_busy_ok.
  - rewrite app_nil_r. symmetry. apply Permutation_rev.
  - exists cx'. split; [exact Hr|exact Hc].
Defined.

Definition cx_busy : pblk_rb_ctx := Build_pblk_rb_ctx rb_busy pblk_rl_per_rb_init [].

Lemma busy_sys_ok :
  sys_ok_at 5 ring_busy ∅ reqs_busy (Sys cx_busy (∅ : gmap Z ppa_addr) ∅ reqs_busy).
Proof.
  split_and!; simpl; [apply rb_busy_ok|apply reqs_busy_ok|done|done|lia].
Qed.

Lemma grant_exclusive_witness :
  ∃ cx' m', pblk_rb_may_write_user rl_sample cx_busy (∅ : gmap Z ppa_addr) 1
            = Some (cx', m', NVM_IO_DONE, Some 30) ∧ size (positions rb_busy 30 1) = 1%nat.
Proof.
  destruct (pblk_rb_may_write_user rl_sample cx_busy (∅ : gmap Z ppa_addr) 1)
    as [[[[cx' m'] io] r]|] eqn:E; [|by vm_compute in E].
  assert (io = NVM_IO_DONE ∧ r = Some 30) as [-> ->] by (vm_compute in E; by simplify_eq).
  exists cx', m'. split; [done|].
  exact (proj1 (grant_exclusive 5 ring_busy ∅ reqs_busy cx_busy ∅ ∅ reqs_busy rl_sample 1
                  cx' m' 30 busy_sys_ok ltac:(lia) E)).
Defined.

Definition env_sample : writer_env :=
  {| sec_per_write := 16; min_write_pgs := 4; max_write_pgs := 64; is_gc := false;
     free_blks := 100; inflight_ws := 0; rqd_ok := true; bio_ok := true;
     add_ok := λ _, true; pad_ok := true; ppas := λ n, Dev 4 0 0 0 0 <$> seqZ 0 n;
     setup_ok := true; io_ok := true |}.

Lemma env_sample_ok : env_ok env_sample.
Proof.
  split; simpl; try done.
  - intros n Hn. rewrite length_fmap, length_seqZ. lia.
  - intros n. by apply Forall_fmap, Forall_true.
Qed.


Definition w_sample : pblk_w_ctx :=
  {| bios := []; lba := 7; ppa := ADDR_EMPTY; flags := PBLK_IOTYPE_USER; submit_flags := 0 |}.

