(* ===== verification/Pqueue.v ===== *)
(** * The priority queue (src/femu-ocssd/hw/block/femu/lib/pqueue.c)

    A binary heap of pointers kept in an array whose element 0 is not used.  The
    objects live in a store of the client; the queue reaches them through the
    four accessors and the comparison given to [pqueue_init], so it also moves
    the position field of every object it touches.

    The theorems: every operation stays inside the array and terminates, keeps
    the heap order and the position fields, permutes the elements; [pqueue_pop]
    yields an element none is preferred to; [pqueue_is_valid] decides the heap
    order; popping until empty lists the elements in order. *)

From S2P Require Import Prelude.

(** ** Accessors

    [cmppri a b]: an element of priority [b] is to come out before one of
    priority [a].  The laws are those of fields of a structure and of a strict
    weak order. *)

Class PQOps (St ptr : Type) := {
  getpri : St → ptr → Z;
  setpri : St → ptr → Z → St;
  getpos : St → ptr → Z;
  setpos : St → ptr → Z → St;
  live : St → ptr → Prop;       (* the pointer refers to an object *)
  cmppri : Z → Z → bool
}.

(** What the order of the heap relies on. *)
Class PQHeap (St ptr : Type) `{!PQOps St ptr} : Prop := {
  getpri_setpos : ∀ (s : St) (p : ptr) i, getpri (setpos s p i) = getpri s;
  cmp_irrefl : ∀ u, cmppri u u = false;
  cmp_asym : ∀ u v, cmppri u v = true → cmppri v u = false;
  cmp_negtrans : ∀ u v w, cmppri u v = false → cmppri v w = false → cmppri u w = false
}.

(** What the position fields rely on. *)
Class PQPos (St ptr : Type) `{EqDecision ptr} `{!PQOps St ptr} : Prop := {
  getpos_setpos : ∀ (s : St) (p : ptr) i x, live s p →
    getpos (setpos s p i) x = if decide (x = p) then i else getpos s x;
  live_setpos : ∀ (s : St) (p : ptr) i x, live (setpos s p i) x ↔ live s x;
  getpri_setpri : ∀ (s : St) (p : ptr) v x, live s p →
    getpri (setpri s p v) x = if decide (x = p) then v else getpri s x;
  getpos_setpri : ∀ (s : St) (p : ptr) v x, getpos (setpri s p v) x = getpos s x;
  live_setpri : ∀ (s : St) (p : ptr) v x, live (setpri s p v) x ↔ live s x
}.

Definition heap_left (i : Z) : Z := Z.shiftl i 1.
Definition heap_right (i : Z) : Z := Z.shiftl i 1 + 1.
Definition parent (i : Z) : Z := Z.shiftr i 1.

Record pqueue_t (ptr : Type) := {
  q_size : Z;
  q_avail : Z;
  q_step : Z;
  q_d : list ptr
}.
Arguments q_size {ptr}.
Arguments q_avail {ptr}.
Arguments q_step {ptr}.
Arguments q_d {ptr}.

#[global] Instance pqueue_t_fields ptr : Fields (pqueue_t ptr) := λ r,
  Build_pqueue_t ptr (q_size r) (q_avail r) (q_step r) (q_d r).

Section code.
Context {St ptr : Type} `{!PQOps St ptr}.
Implicit Types (s : St) (q : pqueue_t ptr) (x p : ptr) (a : list ptr) (i n : Z).

(** [junk] is what fresh memory holds; [None] is the null pointer. *)
Definition pqueue_init (malloc1 malloc2 : bool) (junk : ptr) (n : Z) : option (pqueue_t ptr) :=
  if negb malloc1 then None
  else if negb malloc2 then None
  else Some {| q_size := 1; q_avail := n + 1; q_step := n + 1;
               q_d := replicate (Z.to_nat (n + 1)) junk |}.

Definition pqueue_size q : Z := q_size q - 1.

(** The loop of [bubble_up]: the store, the array and the final hole.  [i] at
    least halves each turn. *)
Fixpoint bubble_loop (fuel : nat) s a i (moving_pri : Z) : option (St * list ptr * Z) :=
  match fuel with
  | O => None
  | S fuel =>
      if negb (1 <? i) then Some (s, a, i) else
      p ← rd a (parent i);
      if cmppri (getpri s p) moving_pri then
        a ← wr a i p;
        bubble_loop fuel (setpos s p i) a (parent i) moving_pri
      else Some (s, a, i)
  end.

Definition bubble_up s a i : option (St * list ptr) :=
  moving_node ← rd a i;
  '(s, a, i) ← bubble_loop (Z.to_nat i) s a i (getpri s moving_node);
  a ← wr a i moving_node;
  Some (setpos s moving_node i, a).

Definition maxchild s a n i : option Z :=
  let child_node := heap_left i in
  if n <=? child_node then Some 0
  else if child_node + 1 <? n then
    l ← rd a child_node;
    r ← rd a (child_node + 1);
    Some (if cmppri (getpri s l) (getpri s r) then child_node + 1 else child_node)
  else Some child_node.

Fixpoint percolate_loop (fuel : nat) s a n i (moving_pri : Z) : option (St * list ptr * Z) :=
  match fuel with
  | O => None
  | S fuel =>
      child_node ← maxchild s a n i;
      if child_node =? 0 then Some (s, a, i) else
      c ← rd a child_node;
      if cmppri moving_pri (getpri s c) then
        a ← wr a i c;
        percolate_loop fuel (setpos s c i) a n child_node moving_pri
      else Some (s, a, i)
  end.

Definition percolate_down s a n i : option (St * list ptr) :=
  moving_node ← rd a i;
  '(s, a, i) ← percolate_loop (S (Z.to_nat n)) s a n i (getpri s moving_node);
  a ← wr a i moving_node;
  Some (setpos s moving_node i, a).

(** The result is true for the return value 0. *)
Definition pqueue_insert (realloc_ok : bool) (junk : ptr) s q x
    : option (St * pqueue_t ptr * bool) :=
  let grow := q_avail q <=? q_size q in
  if grow && negb realloc_ok then Some (s, q, false)
  else
    let q := if grow then
               let newsize := q_size q + q_step q in
               q <| q_d ::= λ a, take (Z.to_nat newsize)
                                 (a ++ replicate (Z.to_nat newsize - length a) junk) |>
                 <| q_avail := newsize |>
             else q in
    let i := q_size q in
    a ← wr (q_d q) i x;
    '(s, a) ← bubble_up s a i;
    Some (s, q <| q_size := i + 1 |> <| q_d := a |>, true).

Definition pqueue_change_priority s q (new_pri : Z) x : option (St * pqueue_t ptr) :=
  let old_pri := getpri s x in
  let s := setpri s x new_pri in
  let posn := getpos s x in
  '(s, a) ← (if cmppri old_pri new_pri then bubble_up s (q_d q) posn
             else percolate_down s (q_d q) (q_size q) posn);
  Some (s, q <| q_d := a |>).

Definition pqueue_remove s q x : option (St * pqueue_t ptr) :=
  let posn := getpos s x in
  let n := q_size q - 1 in
  l ← rd (q_d q) n;
  a ← wr (q_d q) posn l;
  '(s, a) ← (if cmppri (getpri s x) (getpri s l) then bubble_up s a posn
             else percolate_down s a n posn);
  Some (s, q <| q_size := n |> <| q_d := a |>).

Definition pqueue_pop s q : option (St * pqueue_t ptr * option ptr) :=
  if q_size q =? 1 then Some (s, q, None)
  else
    head ← rd (q_d q) 1;
    let n := q_size q - 1 in
    l ← rd (q_d q) n;
    a ← wr (q_d q) 1 l;
    '(s, a) ← percolate_down s a n 1;
    Some (s, q <| q_size := n |> <| q_d := a |>, Some head).

Definition pqueue_peek q : option (option ptr) :=
  if q_size q =? 1 then Some None else x ← rd (q_d q) 1; Some (Some x).

(** One of the two halves of [subtree_is_valid]: the child [c] of [pos]. *)
Definition check_child s q (pos c : Z) (subtree : Z → option bool) (rest : option bool)
    : option bool :=
  if c <? q_size q then
    x ← rd (q_d q) pos;
    y ← rd (q_d q) c;
    if cmppri (getpri s x) (getpri s y) then Some false
    else
      ok ← subtree c;
      if negb ok then Some false else rest
  else rest.

(** [fuel] bounds the depth; the position doubles at every level. *)
Fixpoint subtree_is_valid (fuel : nat) s q (pos : Z) : option bool :=
  match fuel with
  | O => None
  | S fuel =>
      check_child s q pos (heap_left pos) (subtree_is_valid fuel s q)
        (check_child s q pos (heap_right pos) (subtree_is_valid fuel s q) (Some true))
  end.

Definition pqueue_is_valid s q : option bool := subtree_is_valid (S (Z.to_nat (q_size q))) s q 1.
End code.

Section print.
Context {St ptr : Type} `{!PQOps St ptr}.
Implicit Types (s : St) (q : pqueue_t ptr).

(** The accessors [pqueue_print] gives to its copy: they change nothing. *)
Definition print_ops : PQOps St ptr :=
  {| getpri := getpri; setpri := λ s _ _, s; getpos := getpos; setpos := λ s _ _, s;
     live := live; cmppri := cmppri |}.

Fixpoint pop_all (fuel : nat) s q : option (list ptr) :=
  match fuel with
  | O => None
  | S fuel =>
      '(s, q, e) ← pqueue_pop (PQOps0 := print_ops) s q;
      match e with
      | None => Some []
      | Some x => l ← pop_all fuel s q; Some (x :: l)
      end
  end.

(** The elements in the order they are printed. *)
Definition pqueue_print (junk : ptr) s q : option (list ptr) :=
  let dup := {| q_size := q_size q; q_avail := q_avail q; q_step := q_step q;
                q_d := take (Z.to_nat (q_size q)) (q_d q) ++ [junk] |} in
  pop_all (S (Z.to_nat (q_size q))) s dup.
End print.

(** ** Arrays with a hole *)

Lemma parent_div i : parent i = i / 2.
Proof. unfold parent. by rewrite Z.shiftr_div_pow2 by lia. Qed.

Lemma heap_left_mul i : heap_left i = 2 * i.
Proof. unfold heap_left. rewrite Z.shiftl_mul_pow2 by lia. lia. Qed.

Lemma parent_child i j : parent j = i ↔ j = 2 * i ∨ j = 2 * i + 1.
Proof.
  rewrite parent_div. pose proof (Z.div_mod j 2). pose proof (Z.mod_pos_bound j 2).
  split; [lia|]. intros. Z.to_euclidean_division_equations. lia.
Qed.

Lemma parent_lt j : 2 ≤ j → 1 ≤ parent j < j.
Proof. rewrite parent_div. intros. Z.to_euclidean_division_equations. lia. Qed.

(** The array [a] with [x] put at [i]. *)
Definition full {A} (a : list A) (i : Z) (x : A) : list A := <[Z.to_nat i := x]> a.

Lemma rd_full {A} (a : list A) i j x :
  0 ≤ i < Z.of_nat (length a) → rd (full a i x) j = if decide (i = j) then Some x else rd a j.
Proof. intros Hi. apply rd_wr, wr_in_range, Hi. Qed.

Lemma wr_full {A} (a : list A) i x : 0 ≤ i < Z.of_nat (length a) → wr a i x = Some (full a i x).
Proof. apply wr_in_range. Qed.

Lemma full_length {A} (a : list A) i x : length (full a i x) = length a.
Proof. apply length_insert. Qed.

Lemma full_id {A} (a : list A) i x : rd a i = Some x → full a i x = a.
Proof. intros [_ H]%rd_Some. by apply list_insert_id. Qed.

Lemma full_full {A} (a : list A) i x y : full (full a i x) i y = full a i y.
Proof. apply list_insert_insert_eq. Qed.

Lemma full_comm {A} (a : list A) i j x y :
  0 ≤ i → 0 ≤ j → i ≠ j → full (full a i x) j y = full (full a j y) i x.
Proof. intros. apply list_insert_insert_ne. lia. Qed.

(** The elements of a queue of size [n]: positions 1 to [n - 1]. *)
Definition seg {A} (a : list A) (n : Z) : list A := take (Z.to_nat (n - 1)) (drop 1 a).

Lemma seg_full {A} (a : list A) n i x :
  1 ≤ i < n → seg (full a i x) n = <[Z.to_nat (i - 1) := x]> (seg a n).
Proof.
  intros Hi. unfold seg, full. destruct a as [|y a]; [by simpl; rewrite ?take_nil|].
  replace (Z.to_nat i) with (S (Z.to_nat (i - 1))) by lia. simpl. rewrite !drop_0.
  by rewrite take_insert_lt by lia.
Qed.

Lemma seg_full_out {A} (a : list A) n i x : n ≤ i → 1 ≤ n → seg (full a i x) n = seg a n.
Proof.
  intros Hi Hn. unfold seg, full. destruct a as [|y a]; [done|].
  replace (Z.to_nat i) with (S (Z.to_nat (i - 1))) by lia. simpl. rewrite !drop_0.
  by rewrite take_insert_ge by lia.
Qed.

Lemma seg_lookup {A} (a : list A) n i :
  1 ≤ i < n → seg a n !! Z.to_nat (i - 1) = rd a i.
Proof.
  intros Hi. unfold seg, rd. destruct (Z.leb_spec 0 i); [|lia].
  rewrite lookup_take_lt by lia. rewrite lookup_drop. f_equal. lia.
Qed.

Lemma elem_of_seg {A} (a : list A) n x :
  n ≤ Z.of_nat (length a) → x ∈ seg a n ↔ ∃ j, 1 ≤ j < n ∧ rd a j = Some x.
Proof.
  intros Hn. rewrite list_elem_of_lookup. split.
  - intros (k & Hk). pose proof (lookup_lt_Some _ _ _ Hk) as Hlt. unfold seg in Hlt.
    rewrite length_take in Hlt. exists (Z.of_nat k + 1). split; [lia|].
    rewrite <- (seg_lookup a n) by lia. rewrite <- Hk. f_equal. lia.
  - intros (j & Hj & Hr). exists (Z.to_nat (j - 1)). by rewrite seg_lookup.
Qed.

Lemma insert_swap_Permutation {A} (l : list A) i j x y :
  i ≠ j → l !! i = Some x → l !! j = Some y → <[i := y]> (<[j := x]> l) ≡ₚ l.
Proof.
  intros Hij Hx Hy. apply Permutation_inj. split; [by rewrite !length_insert|].
  exists (λ k, if decide (k = i) then j else if decide (k = j) then i else k). split.
  - intros u v. repeat case_decide; congruence.
  - pose proof (lookup_lt_Some _ _ _ Hx). pose proof (lookup_lt_Some _ _ _ Hy).
    intros k. repeat case_decide; subst.
    + rewrite list_lookup_insert_eq; [done|by rewrite length_insert].
    + rewrite list_lookup_insert_ne, list_lookup_insert_eq by done. done.
    + by rewrite !list_lookup_insert_ne by done.
Qed.

(** ** Heap order *)

Section order.
Context {St ptr : Type} `{!PQOps St ptr} `{!PQHeap St ptr}.
Implicit Types (s : St) (f : ptr → Z) (x y : ptr) (a : list ptr) (i j n : Z).

(** [j] does not come out before its parent. *)
Definition ordered f a j : Prop :=
  ∀ x y, rd a (parent j) = Some x → rd a j = Some y → cmppri (f x) (f y) = false.

Definition heap f a n : Prop := ∀ j, 2 ≤ j < n → ordered f a j.

(** The children of [i] do not come out before its parent. *)
Definition bridged f a n i : Prop :=
  ∀ j x y, 2 ≤ j < n → parent j = i → 1 < i →
    rd a (parent i) = Some x → rd a j = Some y → cmppri (f x) (f y) = false.

(** The order may fail only between [i] and its parent ... *)
Definition up_inv f a n i : Prop := (∀ j, 2 ≤ j < n → j ≠ i → ordered f a j) ∧ bridged f a n i.

(** ... or only between [i] and its children. *)
Definition down_inv f a n i : Prop :=
  (∀ j, 2 ≤ j < n → parent j ≠ i → ordered f a j) ∧ bridged f a n i.

Lemma swap_seg a n i j x y :
  1 ≤ i < n → 1 ≤ j < n → n ≤ Z.of_nat (length a) → i ≠ j → rd a j = Some y →
  seg (full (full a i y) j x) n ≡ₚ seg (full a i x) n.
Proof.
  intros Hi Hj Hn Hij Hy. rewrite full_comm, !seg_full by lia.
  rewrite <- (insert_swap_Permutation (<[Z.to_nat (i - 1) := x]> (seg a n))
    (Z.to_nat (i - 1)) (Z.to_nat (j - 1)) x y); [|lia| |].
  - rewrite (list_insert_insert_ne _ (Z.to_nat (j - 1))) by lia.
    by rewrite list_insert_insert_eq.
  - apply list_lookup_insert_eq. unfold seg. rewrite length_take, length_drop. lia.
  - rewrite list_lookup_insert_ne by lia. by rewrite seg_lookup.
Qed.

(** Moving the hole to the parent, whose element goes down. *)
Lemma up_inv_step f a n i x p :
  2 ≤ i < n → n ≤ Z.of_nat (length a) → rd a (parent i) = Some p →
  cmppri (f p) (f x) = true → up_inv f (full a i x) n i →
  up_inv f (full (full a i p) (parent i) x) n (parent i).
Proof.
  intros Hi Hn Hp Hcmp [H1 H2]. pose proof (parent_lt i ltac:(lia)) as Hpi.
  pose proof (cmp_asym _ _ Hcmp) as Hxp.
  assert (Hrd : ∀ j, rd (full (full a i p) (parent i) x) j =
    if decide (parent i = j) then Some x else if decide (i = j) then Some p else rd a j)
    by (intros j; rewrite !rd_full by (rewrite ?full_length; lia); done).
  assert (Hold : ∀ j, rd (full a i x) j = if decide (i = j) then Some x else rd a j)
    by (intros j; apply rd_full; lia).
  (* a sibling of [i] *)
  assert (Hsib : ∀ j y, 2 ≤ j < n → j ≠ i → parent j = parent i → rd a j = Some y →
    cmppri (f p) (f y) = false).
  { intros j y Hj Hne Hpj Hy. apply (H1 j Hj Hne); rewrite Hold.
    - rewrite Hpj. case_decide; [lia|done].
    - by case_decide. }
  split.
  - intros j Hj Hne u v. rewrite !Hrd. pose proof (parent_lt j ltac:(lia)).
    destruct (decide (parent i = parent j)) as [Heq|].
    + intros [= <-]. destruct (decide (parent i = j)); [lia|].
      destruct (decide (i = j)) as [<-|]; [by intros [= <-]|].
      intros Hv. eapply cmp_negtrans; [exact Hxp|]. by eapply (Hsib j).
    + destruct (decide (parent i = j)); [lia|]. destruct (decide (i = j)) as [->|]; [lia|].
      destruct (decide (i = parent j)) as [Heq|].
      * intros [= <-] Hv. eapply (H2 j p v Hj); [done|lia| |].
        -- rewrite Hold. by case_decide; [lia|].
        -- rewrite Hold. by case_decide.
      * intros Hu Hv. apply (H1 j Hj); [done| |]; rewrite Hold; by case_decide.
  - intros j u v Hj Hpj H1i. rewrite !Hrd. pose proof (parent_lt (parent i) ltac:(lia)).
    destruct (decide (parent i = parent (parent i))); [lia|].
    destruct (decide (i = parent (parent i))); [lia|]. intros Hu.
    assert (Hup : cmppri (f u) (f p) = false).
    { apply (H1 (parent i)); [lia|lia| |]; rewrite Hold; by case_decide; [lia|]. }
    destruct (decide (parent i = j)); [pose proof (parent_lt j); lia|].
    destruct (decide (i = j)) as [<-|]; [by intros [= <-]|].
    intros Hv. eapply cmp_negtrans; [exact Hup|]. by eapply (Hsib j).
Qed.

Lemma bubble_loop_ok n x fuel : ∀ s a i,
  1 ≤ i < n → n ≤ Z.of_nat (length a) → i ≤ Z.of_nat fuel →
  ∃ s' a' i', bubble_loop fuel s a i (getpri s x) = Some (s', a', i')
    ∧ 1 ≤ i' < n ∧ length a' = length a ∧ getpri s' = getpri s
    ∧ (up_inv (getpri s) (full a i x) n i → heap (getpri s) (full a' i' x) n)
    ∧ seg (full a' i' x) n ≡ₚ seg (full a i x) n.
Proof.
  induction fuel as [|fuel IH]; intros s a i Hi Hn Hf; [lia|]. cbn [bubble_loop].
  destruct (Z.ltb_spec 1 i) as [H1i|H1i]; cbn [negb].
  - pose proof (parent_lt i ltac:(lia)) as Hpi.
    destruct (rd_is_Some a (parent i)) as [p Hp]; [lia|]. rewrite Hp. cbn -[bubble_loop].
    destruct (cmppri (getpri s p) (getpri s x)) eqn:Hcmp.
    + rewrite wr_full by lia. cbn -[bubble_loop].
      destruct (IH (setpos s p i) (full a i p) (parent i)) as (s' & a' & i' & Hr & ? & Hl & Hg & Hh & Hs).
      * lia.
      * rewrite full_length. lia.
      * lia.
      * rewrite getpri_setpos in *. exists s', a', i'. rewrite full_length in Hl.
        split_and!; try done; try lia.
        -- intros Hinv. apply Hh, up_inv_step; done || lia.
        -- rewrite Hs. apply swap_seg; lia || done.
    + exists s, a, i. split_and!; try done; try lia. intros [Hi1 _] j Hj. destruct (decide (j = i)) as [->|]; [|by apply Hi1].
      intros u v. rewrite !rd_full by lia. rewrite decide_False by lia. rewrite decide_True by done.
      intros ? ?. by simplify_eq.
  - exists s, a, i. split_and!; try done; try lia. intros [Hi1 _] j Hj. apply Hi1; lia.
Qed.

Lemma maxchild_ok s a n i :
  1 ≤ i → n ≤ Z.of_nat (length a) →
  (maxchild s a n i = Some 0 ∧ ∀ j, 2 ≤ j < n → parent j ≠ i) ∨
  (∃ c cv, maxchild s a n i = Some c ∧ 2 ≤ c < n ∧ parent c = i ∧ rd a c = Some cv ∧
     ∀ j y, 2 ≤ j < n → parent j = i → rd a j = Some y →
       cmppri (getpri s cv) (getpri s y) = false).
Proof.
  intros Hi Hn. unfold maxchild. rewrite heap_left_mul. bcase.
  { left. split; [done|]. intros j Hj Hp%parent_child. lia. }
  right. destruct (rd_is_Some a (2 * i)) as [l Hl]; [lia|]. bcase.
  - destruct (rd_is_Some a (2 * i + 1)) as [r Hr]; [lia|]. rewrite Hl, Hr. cbn.
    destruct (cmppri (getpri s l) (getpri s r)) eqn:Hcmp.
    + exists (2 * i + 1), r. split_and!; try done; try lia; [by apply parent_child; lia|].
      intros j y Hj [->| ->]%parent_child Hy; simplify_eq; [by apply cmp_asym|apply cmp_irrefl].
    + exists (2 * i), l. split_and!; try done; try lia; [by apply parent_child; lia|].
      intros j y Hj [->| ->]%parent_child Hy; simplify_eq; [apply cmp_irrefl|done].
  - exists (2 * i), l. split_and!; try done; try lia; [by apply parent_child; lia|].
    intros j y Hj [->| ->]%parent_child Hy; simplify_eq; [apply cmp_irrefl|lia].
Qed.

(** Moving the hole to the preferred child, which goes up. *)
Lemma down_inv_step f a n i x c cv :
  1 ≤ i < n → n ≤ Z.of_nat (length a) → 2 ≤ c < n → parent c = i → rd a c = Some cv →
  (∀ j y, 2 ≤ j < n → parent j = i → rd a j = Some y → cmppri (f cv) (f y) = false) →
  cmppri (f x) (f cv) = true → down_inv f (full a i x) n i →
  down_inv f (full (full a i cv) c x) n c.
Proof.
  intros Hi Hn Hc Hpc Hcv Hmax Hcmp [H1 H2]. pose proof (parent_lt c ltac:(lia)) as Hlt.
  assert (Hrd : ∀ j, rd (full (full a i cv) c x) j =
    if decide (c = j) then Some x else if decide (i = j) then Some cv else rd a j)
    by (intros j; rewrite !rd_full by (rewrite ?full_length; lia); done).
  assert (Hold : ∀ j, rd (full a i x) j = if decide (i = j) then Some x else rd a j)
    by (intros j; apply rd_full; lia).
  split.
  - intros j Hj Hne u v. rewrite !Hrd. pose proof (parent_lt j ltac:(lia)).
    rewrite (decide_False (P := c = parent j)) by done.
    destruct (decide (i = parent j)) as [Heq|Hij].
    + intros [= <-]. destruct (decide (c = j)).
      * intros [= <-]. by apply cmp_asym.
      * rewrite decide_False by lia. intros Hv. by apply (Hmax j).
    + rewrite (decide_False (P := c = j)) by congruence.
      destruct (decide (i = j)) as [<-|].
      * intros Hu [= <-]. apply (H2 c u cv Hc Hpc); [lia| |]; rewrite Hold, decide_False; done || lia.
      * intros Hu Hv. apply (H1 j Hj); [congruence| |]; rewrite Hold, decide_False; done.
  - intros j u v Hj Hpj _. rewrite Hpc, !Hrd. rewrite decide_False, decide_True by (done || lia).
    intros [= <-]. pose proof (parent_lt j ltac:(lia)).
    rewrite !decide_False by lia. intros Hv.
    apply (H1 j Hj); [lia| |]; rewrite Hold, decide_False; congruence || lia.
Qed.

Lemma percolate_loop_ok n x fuel : ∀ s a i,
  1 ≤ i < n → n ≤ Z.of_nat (length a) → n ≤ i + Z.of_nat fuel →
  ∃ s' a' i', percolate_loop fuel s a n i (getpri s x) = Some (s', a', i')
    ∧ 1 ≤ i' < n ∧ length a' = length a ∧ getpri s' = getpri s
    ∧ (down_inv (getpri s) (full a i x) n i → heap (getpri s) (full a' i' x) n)
    ∧ seg (full a' i' x) n ≡ₚ seg (full a i x) n.
Proof.
  induction fuel as [|fuel IH]; intros s a i Hi Hn Hf; [lia|]. cbn [percolate_loop].
  destruct (maxchild_ok s a n i) as [[-> Hno]|(c & cv & -> & Hc & Hpc & Hcv & Hmax)]; [lia|lia| |].
  - cbn. exists s, a, i. split_and!; try done; try lia.
    intros [H1 _] j Hj. apply H1; [done|]. by apply Hno.
  - cbn -[percolate_loop]. destruct (Z.eqb_spec c 0); [lia|]. rewrite Hcv. cbn -[percolate_loop].
    pose proof (parent_lt c ltac:(lia)).
    destruct (cmppri (getpri s x) (getpri s cv)) eqn:Hcmp.
    + rewrite wr_full by lia. cbn -[percolate_loop].
      destruct (IH (setpos s cv i) (full a i cv) c)
        as (s' & a' & i' & Hr & ? & Hl & Hg & Hh & Hs).
      * lia.
      * rewrite full_length. lia.
      * lia.
      * rewrite getpri_setpos in *. exists s', a', i'. rewrite full_length in Hl.
        split_and!; try done; try lia.
        -- intros Hinv. by apply Hh, down_inv_step.
        -- rewrite Hs. apply swap_seg; done || lia.
    + exists s, a, i. split_and!; try done; try lia. intros [H1 _] j Hj. destruct (decide (parent j = i)) as [Hp|]; [|by apply H1].
      intros u v. pose proof (parent_lt j ltac:(lia)). rewrite !rd_full by lia.
      rewrite decide_True, decide_False by lia. intros [= <-] Hv.
      eapply cmp_negtrans; [exact Hcmp|]. by apply (Hmax j).
Qed.

(** The two repairs, started on an array whose order fails at one place. *)
Lemma bubble_up_ok s a n i x :
  1 ≤ i < n → n ≤ Z.of_nat (length a) → rd a i = Some x →
  ∃ s' a', bubble_up s a i = Some (s', a') ∧ length a' = length a ∧ getpri s' = getpri s
    ∧ (up_inv (getpri s) a n i → heap (getpri s) a' n) ∧ seg a' n ≡ₚ seg a n.
Proof.
  intros Hi Hn Hx. unfold bubble_up. rewrite Hx. cbn -[bubble_loop].
  destruct (bubble_loop_ok n x (Z.to_nat i) s a i) as (s' & a' & i' & -> & ? & Hl & Hg & Hh & Hs);
    [done|done|lia|].
  cbn. rewrite wr_full by lia. cbn. do 2 eexists. split; [done|].
  rewrite full_length, getpri_setpos. rewrite (full_id a i x Hx) in Hs, Hh. done.
Qed.

Lemma percolate_down_ok s a n i x :
  1 ≤ i < n → n ≤ Z.of_nat (length a) → rd a i = Some x →
  ∃ s' a', percolate_down s a n i = Some (s', a') ∧ length a' = length a ∧ getpri s' = getpri s
    ∧ (down_inv (getpri s) a n i → heap (getpri s) a' n) ∧ seg a' n ≡ₚ seg a n.
Proof.
  intros Hi Hn Hx. unfold percolate_down. rewrite Hx. cbn -[percolate_loop].
  destruct (percolate_loop_ok n x (S (Z.to_nat n)) s a i)
    as (s' & a' & i' & -> & ? & Hl & Hg & Hh & Hs); [done|done|lia|].
  cbn. rewrite wr_full by lia. cbn. do 2 eexists. split; [done|].
  rewrite full_length, getpri_setpos. rewrite (full_id a i x Hx) in Hs, Hh. done.
Qed.

(** At the end of the array nothing is below: the repair leaves it as it is. *)
Lemma percolate_down_last s a n x :
  1 ≤ n < Z.of_nat (length a) → rd a n = Some x →
  percolate_down s a n n = Some (setpos s x n, a).
Proof.
  intros Hn Hx. unfold percolate_down. rewrite Hx. cbn -[percolate_loop]. cbn [percolate_loop].
  unfold maxchild. rewrite heap_left_mul.
  destruct (Z.leb_spec n (2 * n)); [|lia]. cbn. rewrite wr_full by lia. cbn.
  by rewrite full_id.
Qed.
End order.

(** ** Position fields *)

Section positions.
Context {St ptr : Type} `{EqDecision ptr} `{!PQOps St ptr} `{!PQHeap St ptr} `{!PQPos St ptr}.
Implicit Types (s : St) (x y : ptr) (a : list ptr) (i j n : Z).

Definition pos_except s a n i : Prop :=
  ∀ j x, 1 ≤ j < n → j ≠ i → rd a j = Some x → getpos s x = j.

Definition pos_ok s a n : Prop := ∀ j x, 1 ≤ j < n → rd a j = Some x → getpos s x = j.

Lemma seg_inj a n j k x :
  NoDup (seg a n) → 1 ≤ j < n → 1 ≤ k < n → rd a j = Some x → rd a k = Some x → j = k.
Proof.
  intros Hnd Hj Hk Hx Hy. rewrite <- (seg_lookup a n) in Hx, Hy by done.
  pose proof (NoDup_lookup _ _ _ _ Hnd Hx Hy). lia.
Qed.

(** Exchanging the element at [j] with the one in the hole [i]. *)
Lemma pos_except_swap s a n i j x p :
  1 ≤ i < n → 1 ≤ j < n → n ≤ Z.of_nat (length a) → i ≠ j → rd a j = Some p →
  NoDup (seg (full a i x) n) → pos_except s (full a i x) n i → live s p →
  NoDup (seg (full (full a i p) j x) n)
  ∧ pos_except (setpos s p i) (full (full a i p) j x) n j
  ∧ ∀ y, y ∉ seg (full a i x) n → getpos (setpos s p i) y = getpos s y.
Proof.
  intros Hi Hj Hn Hij Hp Hnd Hpos Hlive.
  assert (Hold : ∀ k, rd (full a i x) k = if decide (i = k) then Some x else rd a k)
    by (intros k; apply rd_full; lia).
  split_and!.
  - by rewrite swap_seg.
  - intros k y Hk Hkj. rewrite !rd_full by (rewrite ?full_length; lia).
    rewrite decide_False, getpos_setpos by done. case_decide as Hik.
    + intros [= <-]. by rewrite decide_True.
    + intros Hy. case_decide as Hyp; [|apply Hpos; [done|done|by rewrite Hold, decide_False]].
      subst. destruct Hkj. apply (seg_inj (full a i x) n k j p); try done;
        by rewrite Hold, decide_False.
  - intros y Hy. rewrite getpos_setpos by done. case_decide as Hyp; [|done]. subst. destruct Hy.
    apply elem_of_seg; [by rewrite full_length|]. exists j. by rewrite Hold, decide_False.
Qed.

Lemma bubble_loop_pos n x mp fuel : ∀ s a i s' a' i',
  1 ≤ i < n → n ≤ Z.of_nat (length a) → bubble_loop fuel s a i mp = Some (s', a', i') →
  NoDup (seg (full a i x) n) → pos_except s (full a i x) n i →
  (∀ y, y ∈ seg (full a i x) n → live s y) →
  1 ≤ i' < n ∧ length a' = length a ∧ NoDup (seg (full a' i' x) n)
  ∧ pos_except s' (full a' i' x) n i' ∧ seg (full a' i' x) n ≡ₚ seg (full a i x) n
  ∧ (∀ y, y ∉ seg (full a i x) n → getpos s' y = getpos s y)
  ∧ (∀ y, live s' y ↔ live s y).
Proof.
  induction fuel as [|fuel IH]; intros s a i s' a' i' Hi Hn Hrun Hnd Hpos Hlive; [done|].
  cbn [bubble_loop] in Hrun. destruct (Z.ltb_spec 1 i); cbn [negb] in Hrun; [|by simplify_eq].
  apply bind_Some in Hrun as (p & Hp & Hrun). pose proof (parent_lt i ltac:(lia)).
  destruct (cmppri (getpri s p) mp); [|by simplify_eq].
  rewrite wr_full in Hrun by lia. cbn -[bubble_loop] in Hrun.
  assert (Hlp : live s p).
  { apply Hlive, elem_of_seg; [by rewrite full_length|]. exists (parent i).
    rewrite rd_full, decide_False by lia. split; [lia|done]. }
  destruct (pos_except_swap s a n i (parent i) x p) as (Hnd1 & Hpos1 & Hun); [done|lia|done|lia|done..|].
  destruct (λ E1 E2, IH _ _ _ _ _ _ E1 E2 Hrun Hnd1 Hpos1)
    as (? & Hl & ? & ? & Hperm & Hun' & Hlv); [lia|rewrite full_length; lia| |].
  { intros y. rewrite swap_seg, live_setpos by (done || lia). apply Hlive. }
  rewrite full_length in Hl.
  rewrite swap_seg in Hperm by (done || lia).
  split_and!; try done; try lia.
  - intros y Hy. rewrite Hun', Hun; [done|done|]. by rewrite swap_seg by (done || lia).
  - intros y. by rewrite Hlv, live_setpos.
Qed.

Lemma percolate_loop_pos n x mp fuel : ∀ s a i s' a' i',
  1 ≤ i < n → n ≤ Z.of_nat (length a) → percolate_loop fuel s a n i mp = Some (s', a', i') →
  NoDup (seg (full a i x) n) → pos_except s (full a i x) n i →
  (∀ y, y ∈ seg (full a i x) n → live s y) →
  1 ≤ i' < n ∧ length a' = length a ∧ NoDup (seg (full a' i' x) n)
  ∧ pos_except s' (full a' i' x) n i' ∧ seg (full a' i' x) n ≡ₚ seg (full a i x) n
  ∧ (∀ y, y ∉ seg (full a i x) n → getpos s' y = getpos s y)
  ∧ (∀ y, live s' y ↔ live s y).
Proof.
  induction fuel as [|fuel IH]; intros s a i s' a' i' Hi Hn Hrun Hnd Hpos Hlive; [done|].
  cbn [percolate_loop] in Hrun.
  destruct (maxchild_ok s a n i) as [[Hm Hno]|(c & cv & Hm & Hc & Hpc & Hcv & Hmax)];
    [lia|lia|by rewrite Hm in Hrun; cbn in Hrun; simplify_eq|].
  rewrite Hm in Hrun. cbn -[percolate_loop] in Hrun.
  destruct (Z.eqb_spec c 0); [lia|]. rewrite Hcv in Hrun. cbn -[percolate_loop] in Hrun.
  destruct (cmppri mp (getpri s cv)); [|by simplify_eq].
  rewrite wr_full in Hrun by lia. cbn -[percolate_loop] in Hrun. pose proof (parent_lt c ltac:(lia)).
  assert (Hlp : live s cv).
  { apply Hlive, elem_of_seg; [by rewrite full_length|]. exists c.
    rewrite rd_full, decide_False by lia. split; [lia|done]. }
  destruct (pos_except_swap s a n i c x cv) as (Hnd1 & Hpos1 & Hun); [done|lia|done|lia|done..|].
  destruct (λ E1 E2, IH _ _ _ _ _ _ E1 E2 Hrun Hnd1 Hpos1)
    as (? & Hl & ? & ? & Hperm & Hun' & Hlv); [lia|rewrite full_length; lia| |].
  { intros y. rewrite swap_seg, live_setpos by (done || lia). apply Hlive. }
  rewrite full_length in Hl.
  rewrite swap_seg in Hperm by (done || lia).
  split_and!; try done; try lia.
  - intros y Hy. rewrite Hun', Hun; [done|done|]. by rewrite swap_seg by (done || lia).
  - intros y. by rewrite Hlv, live_setpos.
Qed.

(** Storing the moving element in the final hole completes the positions. *)
Lemma pos_close s a n i x :
  1 ≤ i < n → n ≤ Z.of_nat (length a) → NoDup (seg (full a i x) n) →
  pos_except s (full a i x) n i → live s x → pos_ok (setpos s x i) (full a i x) n.
Proof.
  intros Hi Hn Hnd Hpos Hlive j y Hj Hy. rewrite getpos_setpos by done.
  assert (Hx : rd (full a i x) i = Some x) by (by rewrite rd_full, decide_True by lia).
  case_decide as Heq; [subst; by eapply seg_inj|].
  apply Hpos; [done| |done]. intros ->. congruence.
Qed.

Lemma bubble_up_pos s a n i x s' a' :
  1 ≤ i < n → n ≤ Z.of_nat (length a) → rd a i = Some x → NoDup (seg a n) → pos_except s a n i →
  (∀ y, y ∈ seg a n → live s y) → bubble_up s a i = Some (s', a') →
  pos_ok s' a' n ∧ (∀ y, y ∉ seg a n → getpos s' y = getpos s y) ∧ (∀ y, live s' y ↔ live s y).
Proof.
  intros Hi Hn Hx Hnd Hpos Hlive Hrun.
  assert (Hlx : live s x) by (apply Hlive, elem_of_seg; eauto). unfold bubble_up in Hrun. rewrite Hx in Hrun. cbn in Hrun.
  apply bind_Some in Hrun as ([[s1 a1] i1] & Hl & Hrun).
  destruct (bubble_loop_pos n x _ _ s a i s1 a1 i1 Hi Hn Hl) as (? & Hlen & ? & ? & Hperm & Hun & Hlv);
    [by rewrite full_id..|]. rewrite (full_id a i x Hx) in Hun.
  rewrite wr_full in Hrun by lia. cbn in Hrun. simplify_eq.
  split_and!; [apply pos_close; try done; [lia|by apply Hlv]| |].
  - intros y Hy. rewrite getpos_setpos, Hun by (done || by apply Hlv).
    rewrite decide_False; [done|]. intros ->. apply Hy, elem_of_seg; eauto.
  - intros y. by rewrite live_setpos, Hlv.
Qed.

Lemma percolate_down_pos s a n i x s' a' :
  1 ≤ i < n → n ≤ Z.of_nat (length a) → rd a i = Some x → NoDup (seg a n) → pos_except s a n i →
  (∀ y, y ∈ seg a n → live s y) → percolate_down s a n i = Some (s', a') →
  pos_ok s' a' n ∧ (∀ y, y ∉ seg a n → getpos s' y = getpos s y) ∧ (∀ y, live s' y ↔ live s y).
Proof.
  intros Hi Hn Hx Hnd Hpos Hlive Hrun.
  assert (Hlx : live s x) by (apply Hlive, elem_of_seg; eauto). unfold percolate_down in Hrun. rewrite Hx in Hrun.
  cbn -[percolate_loop] in Hrun.
  apply bind_Some in Hrun as ([[s1 a1] i1] & Hl & Hrun).
  destruct (percolate_loop_pos n x _ _ s a i s1 a1 i1 Hi Hn Hl) as (? & Hlen & ? & ? & Hperm & Hun & Hlv);
    [by rewrite full_id..|]. rewrite (full_id a i x Hx) in Hun.
  rewrite wr_full in Hrun by lia. cbn in Hrun. simplify_eq.
  split_and!; [apply pos_close; try done; [lia|by apply Hlv]| |].
  - intros y Hy. rewrite getpos_setpos, Hun by (done || by apply Hlv).
    rewrite decide_False; [done|]. intros ->. apply Hy, elem_of_seg; eauto.
  - intros y. by rewrite live_setpos, Hlv.
Qed.
End positions.

(** ** The operations *)

Lemma seg_snoc {A} (a : list A) n l :
  1 ≤ n → rd a n = Some l → seg a (n + 1) = seg a n ++ [l].
Proof.
  intros Hn [_ Hl]%rd_Some. unfold seg. replace (Z.to_nat (n + 1 - 1)) with (S (Z.to_nat (n - 1))) by lia.
  apply take_S_r. rewrite lookup_drop. rewrite <- Hl. f_equal. lia.
Qed.

Lemma cons_insert_Permutation {A} (l : list A) k x y :
  l !! k = Some x → x :: <[k := y]> l ≡ₚ y :: l.
Proof.
  intros Hk. rewrite <- (take_drop_middle l k x Hk) at 2.
  rewrite insert_take_drop by (by eapply lookup_lt_Some).
  rewrite <- !Permutation_middle. apply Permutation_swap.
Qed.

(** Filling the place of [x] with the last element removes [x]. *)
Lemma seg_remove {A} (a : list A) n i x l :
  1 ≤ i ≤ n → rd a i = Some x → rd a n = Some l →
  seg a (n + 1) ≡ₚ x :: seg (full a i l) n.
Proof.
  intros Hi Hx Hl. rewrite (seg_snoc a n l) by (done || lia). rewrite Permutation_app_comm. simpl.
  destruct (decide (i = n)) as [->|].
  - simplify_eq. by rewrite seg_full_out by lia.
  - rewrite seg_full by lia. symmetry. apply cons_insert_Permutation. rewrite seg_lookup; done || lia.
Qed.

Section operations.
Context {St ptr : Type} `{EqDecision ptr} `{!PQOps St ptr} `{!PQHeap St ptr} `{!PQPos St ptr}.
Implicit Types (s : St) (q : pqueue_t ptr) (x y : ptr) (a : list ptr) (i j n : Z).

Definition elems q : list ptr := seg (q_d q) (q_size q).

(** Well-formed queues: the array is large enough, no element occurs twice, and
    every element knows its position. *)
Record pq_wf s q : Prop := {
  ok_size : 1 ≤ q_size q ≤ q_avail q;
  ok_len : Z.of_nat (length (q_d q)) = q_avail q;
  ok_step : 1 ≤ q_step q;
  ok_nodup : NoDup (elems q);
  ok_live : ∀ x, x ∈ elems q → live s x;
  ok_pos : pos_ok s (q_d q) (q_size q)
}.

Definition pq_heap s q : Prop := heap (getpri s) (q_d q) (q_size q).

Definition pq_ok s q : Prop := pq_wf s q ∧ pq_heap s q.

Lemma heap_full_out f a n i x :
  n ≤ i < Z.of_nat (length a) → heap f a n → heap f (full a i x) n.
Proof.
  intros Hi Hh j Hj u v. pose proof (parent_lt j ltac:(lia)). rewrite !rd_full by lia.
  rewrite !decide_False by lia. by apply Hh.
Qed.

Lemma pos_full_out s a n i x :
  1 ≤ n ≤ i → i < Z.of_nat (length a) → pos_ok s a n → pos_except s (full a i x) n i.
Proof. intros Hi Hl Hp j y Hj Hne. rewrite rd_full, decide_False by (done || lia). by apply Hp. Qed.

(** The root is not preferred to by any element. *)
Lemma heap_root f a n j x y :
  heap f a n → n ≤ Z.of_nat (length a) → 1 ≤ j < n → rd a 1 = Some x → rd a j = Some y →
  cmppri (f x) (f y) = false.
Proof.
  intros Hh Hn Hj Hx Hy. assert (Hk : j ≤ Z.of_nat (Z.to_nat j)) by lia. revert Hk.
  generalize (Z.to_nat j) as k. intros k. revert j y Hj Hy.
  induction k as [|k IH]; intros j y Hj Hy Hk; [lia|].
  destruct (decide (j = 1)) as [->|]; [simplify_eq; apply cmp_irrefl|].
  pose proof (parent_lt j ltac:(lia)). destruct (rd_is_Some a (parent j)) as [p Hp]; [lia|].
  eapply cmp_negtrans; [apply (IH (parent j) p); done || lia|].
  apply (Hh j); [lia|done|done].
Qed.

Lemma insert_grow junk s q :
  pq_wf s q → q_avail q ≤ q_size q →
  let newsize := q_size q + q_step q in
  let q1 := q <| q_d ::= λ a, take (Z.to_nat newsize)
                   (a ++ replicate (Z.to_nat newsize - length a) junk) |>
              <| q_avail := newsize |> in
  pq_wf s q1 ∧ (pq_heap s q → pq_heap s q1)
  ∧ q_size q1 = q_size q ∧ elems q1 = elems q ∧ q_size q1 < q_avail q1.
Proof.
  intros [Hs Hl Hst Hnd Hlv Hp] Hge newsize q1.
  assert (Htk : q_d q1 = q_d q ++ replicate (Z.to_nat newsize - length (q_d q)) junk).
  { simpl. apply take_ge. rewrite length_app, length_replicate. lia. }
  assert (Hrd : ∀ j, j < q_size q → rd (q_d q1) j = rd (q_d q) j).
  { intros j Hj. rewrite Htk. unfold rd. bcase; [|done]. apply lookup_app_l. lia. }
  assert (Hel : elems q1 = elems q).
  { unfold elems, seg. rewrite Htk. change (q_size q1) with (q_size q).
    destruct (q_d q) as [|y a]; simpl in *; [lia|]. rewrite !drop_0, take_app_le by lia. done. }
  split_and!; [| |done|done|simpl; lia].
  - split; [simpl; lia| |done|by rewrite Hel|by rewrite Hel|].
    + rewrite Htk, length_app, length_replicate. simpl. lia.
    + intros j y Hj. simpl in Hj. rewrite Hrd by lia. by apply Hp.
  - intros Hh j Hj u v. simpl in Hj. pose proof (parent_lt j ltac:(lia)).
    rewrite !Hrd by lia. by apply Hh.
Qed.

Lemma insert_raw s q x :
  pq_wf s q → q_size q < q_avail q → x ∉ elems q → live s x →
  ∃ s' q', (a ← wr (q_d q) (q_size q) x;
            '(s, a) ← bubble_up s a (q_size q);
            Some (s, q <| q_size := q_size q + 1 |> <| q_d := a |>, true)) = Some (s', q', true)
    ∧ pq_wf s' q' ∧ (pq_heap s q → pq_heap s' q')
    ∧ elems q' ≡ₚ x :: elems q ∧ getpri s' = getpri s
    ∧ (∀ y, y ∉ elems q' → getpos s' y = getpos s y) ∧ (∀ y, live s' y ↔ live s y).
Proof.
  intros [Hs Hl Hst Hnd Hlv Hp] Hlt Hx Hlx. rewrite wr_full by lia. cbn -[bubble_up].
  set (n := q_size q) in *. set (a := full (q_d q) n x).
  assert (Hla : length a = length (q_d q)) by apply full_length.
  assert (Hax : rd a n = Some x) by (subst a; by rewrite rd_full, decide_True by lia).
  assert (Hseg : seg a (n + 1) ≡ₚ x :: elems q).
  { rewrite (seg_snoc a n x) by (done || lia). subst a. rewrite seg_full_out by lia.
    by rewrite Permutation_app_comm. }
  assert (Hndx : NoDup (seg a (n + 1))) by (rewrite Hseg; by constructor).
  destruct (bubble_up_ok s a (n + 1) n x) as (s' & a' & Hr & Hl' & Hg & Hh' & Hperm);
    [lia|lia|done|].
  destruct (bubble_up_pos s a (n + 1) n x s' a') as (Hpos & Hun & Hlv'); [lia|lia|done|done| | |done|].
  { intros j y Hj Hne Hy. subst a. rewrite rd_full, decide_False in Hy by lia. apply Hp; [lia|done]. }
  { intros y. rewrite Hseg. intros [->|?]%elem_of_cons; auto. }
  rewrite Hr. cbn. do 2 eexists. split; [done|]. split_and!.
  - split; simpl; [lia|lia|done|unfold elems; simpl; by rewrite Hperm| |done].
    unfold elems. simpl. intros y. rewrite Hperm, Hseg, Hlv'. intros [->|?]%elem_of_cons; auto.
  - intros Hh. unfold pq_heap. simpl. rewrite Hg. apply Hh'.
    pose proof (heap_full_out (getpri s) (q_d q) n n x ltac:(lia) Hh) as Hh1.
    split; [intros j Hj Hne; apply Hh1; lia|].
    intros j u v Hj Hpj. apply parent_child in Hpj. lia.
  - unfold elems at 1. simpl. by rewrite Hperm, Hseg.
  - done.
  - intros y Hy. apply Hun. unfold elems in Hy. simpl in Hy. by rewrite Hperm in Hy.
  - done.
Qed.

Lemma pqueue_insert_wf realloc_ok junk s q x :
  pq_wf s q → x ∉ elems q → live s x →
  ∃ s' q' ok, pqueue_insert realloc_ok junk s q x = Some (s', q', ok)
    ∧ (ok = false → realloc_ok = false ∧ q_size q = q_avail q ∧ s' = s ∧ q' = q)
    ∧ (ok = true → pq_wf s' q' ∧ (pq_heap s q → pq_heap s' q')
        ∧ elems q' ≡ₚ x :: elems q ∧ getpri s' = getpri s
        ∧ (∀ y, y ∉ elems q' → getpos s' y = getpos s y) ∧ (∀ y, live s' y ↔ live s y)).
Proof.
  intros Hok Hx Hlx. unfold pqueue_insert.
  destruct ((q_avail q <=? q_size q) && negb realloc_ok) eqn:Hg.
  { bools. exists s, q, false. destruct Hok. split_and!; try done; intros _; split_and!; done || lia. }
  set (q1 := if q_avail q <=? q_size q then _ else _).
  assert (Hok1 : pq_wf s q1 ∧ (pq_heap s q → pq_heap s q1)
    ∧ q_size q1 = q_size q ∧ elems q1 = elems q ∧ q_size q1 < q_avail q1).
  { subst q1. destruct (Z.leb_spec (q_avail q) (q_size q)); [|by destruct Hok].
    by apply insert_grow. }
  clearbody q1. destruct Hok1 as (Hok1 & Hh1 & Hsz & Hel & Hlt). clear Hok Hg. rewrite <- Hel in Hx.
  destruct (insert_raw s q1 x Hok1 Hlt Hx Hlx) as (s' & q' & -> & H1 & H2 & H3 & H4 & H5 & H6).
  exists s', q', true. rewrite <- Hel. split_and!; try done. intros _. split_and!; auto.
Qed.

(** Inserting an element that is not in the queue succeeds unless memory
    runs out, in which case nothing changes; the new queue is well formed and
    holds the old elements and the new one; priorities are untouched and so are
    the positions of objects outside the queue. *)
Lemma pqueue_insert_ok realloc_ok junk s q x :
  pq_ok s q → x ∉ elems q → live s x →
  ∃ s' q' ok, pqueue_insert realloc_ok junk s q x = Some (s', q', ok)
    ∧ (ok = false → realloc_ok = false ∧ q_size q = q_avail q ∧ s' = s ∧ q' = q)
    ∧ (ok = true → pq_ok s' q' ∧ elems q' ≡ₚ x :: elems q ∧ getpri s' = getpri s
        ∧ ∀ y, y ∉ elems q' → getpos s' y = getpos s y).
Proof.
  intros [Hwf Hh] Hx Hlx. destruct (pqueue_insert_wf realloc_ok junk s q x Hwf Hx Hlx)
    as (s' & q' & ok & Hr & Hf & Ht).
  exists s', q', ok. split_and!; [done|done|]. intros (? & ? & ? & ? & ? & ?)%Ht.
  split_and!; try done. split; auto.
Qed.

(** With [l] in the place of [x] the order can fail on one side of it only. *)
Lemma gap_inv f a n i x l :
  1 ≤ i < n → n < Z.of_nat (length a) → rd a i = Some x → heap f a (n + 1) →
  (cmppri (f x) (f l) = true → up_inv f (full a i l) n i)
  ∧ (cmppri (f x) (f l) = false ∨ i = 1 → down_inv f (full a i l) n i).
Proof.
  intros Hi Hn Hx Hh.
  assert (Hrd : ∀ j, i ≠ j → rd (full a i l) j = rd a j)
    by (intros j Hj; by rewrite rd_full, decide_False by lia).
  assert (Hii : rd (full a i l) i = Some l) by (by rewrite rd_full, decide_True by lia).
  assert (Hbr : bridged f (full a i l) n i).
  { intros j u v Hj Hpj H1 Hu Hv. pose proof (parent_lt i). pose proof (parent_lt j).
    rewrite Hrd in Hu, Hv by lia. eapply (cmp_negtrans _ (f x)).
    - apply (Hh i); [lia|done|done].
    - apply (Hh j); [lia|by rewrite Hpj|done]. }
  split; [intros Hc|intros Hc]; (split; [|done]); intros j Hj Hne u v Hu Hv;
    pose proof (parent_lt j ltac:(lia)).
  - rewrite (Hrd j) in Hv by done. destruct (decide (parent j = i)) as [Hpj|Hpj].
    + rewrite Hpj, Hii in Hu. simplify_eq. eapply (cmp_negtrans _ (f x)); [by apply cmp_asym|].
      apply (Hh j); [lia|done|done].
    + rewrite Hrd in Hu by done. by apply (Hh j); [lia|..].
  - rewrite Hrd in Hu by done. destruct (decide (i = j)) as [<-|].
    + rewrite Hii in Hv. simplify_eq. destruct Hc as [Hc|Hc]; [|lia].
      eapply (cmp_negtrans _ (f x)); [|done]. by apply (Hh i); [lia|..].
    + rewrite Hrd in Hv by done. by apply (Hh j); [lia|..].
Qed.

(** Closing the gap an element leaves at [i]: the last element [l] moves there
    and one of the two repairs follows. *)
Lemma close_gap s q i x l (up : bool) :
  pq_wf s q → let n := q_size q - 1 in
  1 ≤ i ≤ n → rd (q_d q) i = Some x → rd (q_d q) n = Some l →
  cmppri (getpri s x) (getpri s l) = up ∨ (i = 1 ∧ up = false) →
  ∃ s' a', (if up then bubble_up s (full (q_d q) i l) i
            else percolate_down s (full (q_d q) i l) n i) = Some (s', a')
    ∧ pq_wf s' (q <| q_size := n |> <| q_d := a' |>)
    ∧ (pq_heap s q → pq_heap s' (q <| q_size := n |> <| q_d := a' |>))
    ∧ elems q ≡ₚ x :: seg a' n ∧ getpri s' = getpri s
    ∧ (∀ y, y ∉ elems q → getpos s' y = getpos s y) ∧ (∀ y, live s' y ↔ live s y).
Proof.
  intros [Hs Hl Hst Hnd Hlv Hp] n Hi Hx Hln Hup. set (a := full (q_d q) i l).
  assert (Hla : length a = length (q_d q)) by apply full_length.
  assert (Hai : rd a i = Some l) by (subst a; by rewrite rd_full, decide_True by lia).
  assert (Hseg : elems q ≡ₚ x :: seg a n).
  { unfold elems. replace (q_size q) with (n + 1) by lia. by apply seg_remove. }
  assert (Hnd' : NoDup (seg a n)) by (rewrite Hseg in Hnd; by apply NoDup_cons in Hnd as [_ ?]).
  assert (Hrd : ∀ j, i ≠ j → rd a j = rd (q_d q) j)
    by (intros j Hj; subst a; by rewrite rd_full, decide_False by lia).
  assert (Hpos : pos_except s a n i).
  { intros j y Hj Hne. rewrite Hrd by done. apply Hp. lia. }
  assert (Hla' : ∀ y, y ∈ seg a n → live s y).
  { intros y Hy. apply Hlv. rewrite Hseg. by right. }
  assert (Hll : live s l) by (apply Hlv, elem_of_seg; [lia|]; exists n; split; [lia|done]).
  assert (Hout : ∀ y, y ∉ elems q → y ∉ seg a n) by (intros y Hy; rewrite Hseg in Hy; set_solver).
  destruct (decide (i = n)) as [->|Hne].
  - (* the last element itself *)
    assert (x = l) as -> by congruence.
    destruct up; [destruct Hup as [Hup|[_ ?]]; [by rewrite cmp_irrefl in Hup|done]|].
    rewrite (percolate_down_last s a n l) by (done || lia). do 2 eexists. split; [done|].
    assert (Ha : a = q_d q) by (by apply full_id).
    split_and!; try done; [| |by rewrite getpri_setpos| |by intros; rewrite live_setpos].
    + split; simpl; [lia|lia|done|done|by intros y; rewrite live_setpos; apply Hla'|].
      intros j y Hj Hy. rewrite getpos_setpos by done. rewrite Ha in Hy. case_decide; [|apply Hp; done || lia].
      subst. apply (seg_inj (q_d q) (q_size q) n j l); done || lia.
    + intros Hh. unfold pq_heap. simpl. rewrite getpri_setpos, Ha. intros j Hj. apply Hh. lia.
    + intros y Hy. rewrite getpos_setpos, decide_False by (done || by intros ->; apply Hy; rewrite Hseg; left).
      done.
  - pose proof (gap_inv (getpri s) (q_d q) n i x l ltac:(lia) ltac:(lia) Hx) as Hinv.
    replace (n + 1) with (q_size q) in Hinv by lia. fold a in Hinv.
    destruct up.
    + destruct Hup as [Hup|[_ ?]]; [|done].
      destruct (bubble_up_ok s a n i l) as (s' & a' & Hr & Hl' & Hg & Hh' & Hperm);
        [lia|lia|done|].
      destruct (bubble_up_pos s a n i l s' a') as (Hpos' & Hun & Hlv'); [lia|lia|done..|].
      exists s', a'. split_and!; try done; [| |by rewrite Hperm|by intros; apply Hun, Hout].
      * split; simpl; [lia|lia|done|unfold elems; simpl; by rewrite Hperm| |done].
        unfold elems. simpl. intros y. rewrite Hperm, Hlv'. apply Hla'.
      * intros Hh. unfold pq_heap. simpl. rewrite Hg. apply Hh', (Hinv Hh). naive_solver.
    + destruct (percolate_down_ok s a n i l) as (s' & a' & Hr & Hl' & Hg & Hh' & Hperm);
        [lia|lia|done|].
      destruct (percolate_down_pos s a n i l s' a') as (Hpos' & Hun & Hlv'); [lia|lia|done..|].
      exists s', a'. split_and!; try done; [| |by rewrite Hperm|by intros; apply Hun, Hout].
      * split; simpl; [lia|lia|done|unfold elems; simpl; by rewrite Hperm| |done].
        unfold elems. simpl. intros y. rewrite Hperm, Hlv'. apply Hla'.
      * intros Hh. unfold pq_heap. simpl. rewrite Hg. apply Hh', (Hinv Hh). naive_solver.
Qed.

Lemma pqueue_pop_wf s q :
  pq_wf s q →
  ∃ s' q' r, pqueue_pop s q = Some (s', q', r) ∧ pq_wf s' q' ∧ getpri s' = getpri s
    ∧ (pq_heap s q → pq_heap s' q')
    ∧ match r with
      | None => elems q = [] ∧ s' = s ∧ q' = q
      | Some x => rd (q_d q) 1 = Some x ∧ elems q ≡ₚ x :: elems q'
                  ∧ (∀ y, y ∉ elems q → getpos s' y = getpos s y) ∧ (∀ y, live s' y ↔ live s y)
      end.
Proof.
  intros Hok. pose proof Hok as [Hs Hl Hst Hnd Hlv Hp]. unfold pqueue_pop.
  destruct (Z.eqb_spec (q_size q) 1) as [H1|H1].
  { exists s, q, None. split_and!; try done. unfold elems, seg. by rewrite H1. }
  destruct (rd_is_Some (q_d q) 1) as [x Hx]; [lia|].
  destruct (rd_is_Some (q_d q) (q_size q - 1)) as [l Hln]; [lia|].
  rewrite Hx, Hln. cbn -[percolate_down]. rewrite wr_full by lia. cbn -[percolate_down].
  destruct (close_gap s q 1 x l false Hok) as (s' & a' & Hr & Hok' & Hh' & Hel & Hg & Hun & Hlv');
    [lia|done|done|by right|].
  rewrite Hr. cbn. do 3 eexists. split; [done|]. by split_and!.
Qed.

(** C39: [pqueue_pop] on an empty queue answers null and changes nothing;
    otherwise it takes out an element to which no element is preferred, and what
    is left is a well-formed queue of the other elements. *)
Theorem pqueue_pop_ok s q :
  pq_ok s q →
  ∃ s' q' r, pqueue_pop s q = Some (s', q', r) ∧ pq_ok s' q' ∧ getpri s' = getpri s
    ∧ match r with
      | None => elems q = [] ∧ s' = s ∧ q' = q
      | Some x => elems q ≡ₚ x :: elems q'
                  ∧ (∀ y, y ∈ elems q → cmppri (getpri s x) (getpri s y) = false)
                  ∧ (∀ y, y ∉ elems q → getpos s' y = getpos s y)
      end.
Proof.
  intros [Hwf Hh]. destruct (pqueue_pop_wf s q Hwf) as (s' & q' & r & Hr & Hwf' & Hg & Hh' & Hm).
  exists s', q', r. split_and!; [done|by split; auto|done|].
  destruct r as [x|]; [|done]. destruct Hm as (Hx & Hel & Hun & _). split_and!; [done| |done].
  intros y (j & Hj & Hy)%elem_of_seg; [|destruct Hwf; lia].
  apply (heap_root (getpri s) (q_d q) (q_size q) j x y); try done. destruct Hwf; lia.
Qed.

(** [pqueue_remove] takes exactly the given element out of the queue. *)
Lemma pqueue_remove_ok s q x :
  pq_ok s q → x ∈ elems q →
  ∃ s' q', pqueue_remove s q x = Some (s', q') ∧ pq_ok s' q' ∧ elems q ≡ₚ x :: elems q'
    ∧ getpri s' = getpri s ∧ ∀ y, y ∉ elems q → getpos s' y = getpos s y.
Proof.
  intros [Hok Hh] Hin. pose proof Hok as [Hs Hl Hst Hnd Hlv Hp].
  apply elem_of_seg in Hin as (j & Hj & Hx); [|lia]. unfold pqueue_remove.
  rewrite (Hp j x Hj Hx).
  destruct (rd_is_Some (q_d q) (q_size q - 1)) as [l Hln]; [lia|]. rewrite Hln. cbn -[percolate_down].
  rewrite wr_full by lia. cbn -[percolate_down bubble_up].
  destruct (close_gap s q j x l (cmppri (getpri s x) (getpri s l)) Hok)
    as (s' & a' & Hr & Hok' & Hh' & Hel & Hg & Hun & _); [lia|done|done|by left|].
  rewrite Hr. cbn. do 2 eexists. split; [done|]. split_and!; try done. split; auto.
Qed.

Lemma heap_setpri s q i x v :
  pq_ok s q → 1 ≤ i < q_size q → rd (q_d q) i = Some x → live s x →
  (cmppri (getpri s x) v = true → up_inv (getpri (setpri s x v)) (q_d q) (q_size q) i)
  ∧ (cmppri (getpri s x) v = false → down_inv (getpri (setpri s x v)) (q_d q) (q_size q) i).
Proof.
  intros [[Hs Hl Hst Hnd Hlv Hp] Hh] Hi Hx Hlx.
  assert (Hoth : ∀ j y, 1 ≤ j < q_size q → j ≠ i → rd (q_d q) j = Some y →
    getpri (setpri s x v) y = getpri s y).
  { intros j y Hj Hne Hy. rewrite getpri_setpri by done. rewrite decide_False; [done|]. intros ->.
    apply Hne. by eapply seg_inj. }
  assert (Hxx : getpri (setpri s x v) x = v) by (by rewrite getpri_setpri, decide_True by done).
  assert (Hbr : bridged (getpri (setpri s x v)) (q_d q) (q_size q) i).
  { intros j u w Hj Hpj H1 Hu Hw. pose proof (parent_lt i). pose proof (parent_lt j).
    rewrite (Hoth (parent i) u), (Hoth j w) by (done || lia).
    eapply (cmp_negtrans _ (getpri s x)); [by apply (Hh i); [lia|..]|].
    apply (Hh j); [lia|by rewrite Hpj|done]. }
  split; intros Hc; (split; [|done]); intros j Hj Hne u w Hu Hw;
    pose proof (parent_lt j ltac:(lia)).
  - rewrite (Hoth j w) by (done || lia). destruct (decide (parent j = i)) as [Hpj|Hpj].
    + rewrite Hpj in Hu. assert (u = x) as -> by congruence. rewrite Hxx.
      eapply (cmp_negtrans _ (getpri s x)); [by apply cmp_asym|].
      apply (Hh j); [lia|by rewrite Hpj|done].
    + rewrite (Hoth (parent j) u) by (done || lia). by apply (Hh j).
  - rewrite (Hoth (parent j) u) by (done || lia). destruct (decide (j = i)) as [->|].
    + assert (w = x) as -> by congruence. rewrite Hxx.
      eapply (cmp_negtrans _ (getpri s x)); [|done]. by apply (Hh i).
    + rewrite (Hoth j w) by (done || lia). by apply (Hh j).
Qed.

(** [pqueue_change_priority] gives the element its new priority, changes no
    other, and restores the order of the queue. *)
Lemma pqueue_change_priority_ok s q v x :
  pq_ok s q → x ∈ elems q →
  ∃ s' q', pqueue_change_priority s q v x = Some (s', q') ∧ pq_ok s' q'
    ∧ elems q' ≡ₚ elems q
    ∧ (∀ y, getpri s' y = if decide (y = x) then v else getpri s y)
    ∧ ∀ y, y ∉ elems q → getpos s' y = getpos s y.
Proof.
  intros Hok Hin. pose proof Hok as [[Hs Hl Hst Hnd Hlv Hp] Hh].
  apply elem_of_seg in Hin as (j & Hj & Hx); [|lia]. unfold pqueue_change_priority.
  rewrite getpos_setpri, (Hp j x Hj Hx).
  assert (Hlx : live s x) by (apply Hlv, elem_of_seg; [lia|eauto]).
  assert (Hla : ∀ y, y ∈ seg (q_d q) (q_size q) → live (setpri s x v) y)
    by (intros y ?; apply live_setpri; by apply Hlv).
  destruct (heap_setpri s q j x v Hok Hj Hx Hlx) as [Hu Hd].
  assert (Hpe : pos_except (setpri s x v) (q_d q) (q_size q) j)
    by (intros k y Hk _ Hy; rewrite getpos_setpri; by apply Hp).
  destruct (cmppri (getpri s x) v).
  - destruct (bubble_up_ok (setpri s x v) (q_d q) (q_size q) j x)
      as (s' & a' & Hr & Hl' & Hg & Hh' & Hperm); [done|lia|done|].
    destruct (bubble_up_pos (setpri s x v) (q_d q) (q_size q) j x s' a' Hj ltac:(lia) Hx Hnd Hpe Hla Hr) as (Hpos & Hun & Hlv').
    rewrite Hr. cbn. do 2 eexists. split; [done|]. split_and!; [|done| |].
    + split; [|unfold pq_heap; simpl; rewrite Hg; auto].
      split; simpl; [lia|lia|done|unfold elems; simpl; by rewrite Hperm| |done].
      unfold elems. simpl. intros y. rewrite Hperm, Hlv'. apply Hla.
    + intros y. rewrite Hg. by apply getpri_setpri.
    + intros y Hy. rewrite Hun by done. by rewrite getpos_setpri.
  - destruct (percolate_down_ok (setpri s x v) (q_d q) (q_size q) j x)
      as (s' & a' & Hr & Hl' & Hg & Hh' & Hperm); [done|lia|done|].
    destruct (percolate_down_pos (setpri s x v) (q_d q) (q_size q) j x s' a' Hj ltac:(lia) Hx Hnd Hpe Hla Hr) as (Hpos & Hun & Hlv').
    rewrite Hr. cbn. do 2 eexists. split; [done|]. split_and!; [|done| |].
    + split; [|unfold pq_heap; simpl; rewrite Hg; auto].
      split; simpl; [lia|lia|done|unfold elems; simpl; by rewrite Hperm| |done].
      unfold elems. simpl. intros y. rewrite Hperm, Hlv'. apply Hla.
    + intros y. rewrite Hg. by apply getpri_setpri.
    + intros y Hy. rewrite Hun by done. by rewrite getpos_setpri.
Qed.
End operations.

(** ** What the queue does to the store

    Inserting and removing elements only assigns position fields. *)

Section moves.
Context {St ptr : Type} `{!PQOps St ptr}.
Implicit Types (s : St) (q : pqueue_t ptr) (x : ptr) (a : list ptr) (i n : Z).

Definition moved : St → St → Prop := rtc (λ s s', ∃ (p : ptr) i, s' = setpos s p i).

Lemma moved_setpos s p i s' : moved (setpos s p i) s' → moved s s'.
Proof. intros Hm. eapply rtc_l; [by eauto|done]. Qed.

Lemma bubble_loop_moved mp fuel : ∀ s a i s' a' i',
  bubble_loop fuel s a i mp = Some (s', a', i') → moved s s'.
Proof.
  induction fuel as [|fuel IH]; intros s a i s' a' i' Hr; [done|]. cbn [bubble_loop] in Hr.
  destruct (1 <? i); cbn [negb] in Hr; [|simplify_eq; apply rtc_refl].
  apply bind_Some in Hr as (p & Hp & Hr).
  destruct (cmppri (getpri s p) mp); [|simplify_eq; apply rtc_refl].
  apply bind_Some in Hr as (a1 & _ & Hr). by eapply moved_setpos, IH.
Qed.

Lemma percolate_loop_moved n mp fuel : ∀ s a i s' a' i',
  percolate_loop fuel s a n i mp = Some (s', a', i') → moved s s'.
Proof.
  induction fuel as [|fuel IH]; intros s a i s' a' i' Hr; [done|]. cbn [percolate_loop] in Hr.
  apply bind_Some in Hr as (c & _ & Hr). destruct (c =? 0); [simplify_eq; apply rtc_refl|].
  apply bind_Some in Hr as (p & Hp & Hr).
  destruct (cmppri mp (getpri s p)); [|simplify_eq; apply rtc_refl].
  apply bind_Some in Hr as (a1 & _ & Hr). by eapply moved_setpos, IH.
Qed.

Lemma bubble_up_moved s a i s' a' : bubble_up s a i = Some (s', a') → moved s s'.
Proof.
  unfold bubble_up. intros Hr. apply bind_Some in Hr as (x & _ & Hr).
  apply bind_Some in Hr as ([[s1 a1] i1] & Hl%bubble_loop_moved & Hr).
  apply bind_Some in Hr as (a2 & _ & Hr). simplify_eq.
  eapply rtc_r; [done|by eauto].
Qed.

Lemma percolate_down_moved s a n i s' a' : percolate_down s a n i = Some (s', a') → moved s s'.
Proof.
  unfold percolate_down. intros Hr. apply bind_Some in Hr as (x & _ & Hr).
  apply bind_Some in Hr as ([[s1 a1] i1] & Hl%percolate_loop_moved & Hr).
  apply bind_Some in Hr as (a2 & _ & Hr). simplify_eq.
  eapply rtc_r; [done|by eauto].
Qed.

Lemma pqueue_insert_moved realloc_ok junk s q x s' q' ok :
  pqueue_insert realloc_ok junk s q x = Some (s', q', ok) → moved s s'.
Proof.
  unfold pqueue_insert. destruct (_ && _); [intros; simplify_eq; apply rtc_refl|].
  intros Hr. apply bind_Some in Hr as (a & _ & Hr).
  apply bind_Some in Hr as ([s1 a1] & Hb%bubble_up_moved & Hr). by simplify_eq.
Qed.

Lemma pqueue_pop_moved s q s' q' r : pqueue_pop s q = Some (s', q', r) → moved s s'.
Proof.
  unfold pqueue_pop. destruct (_ =? _); [intros; simplify_eq; apply rtc_refl|].
  intros Hr. apply bind_Some in Hr as (h & _ & Hr). apply bind_Some in Hr as (l & _ & Hr).
  apply bind_Some in Hr as (a & _ & Hr).
  apply bind_Some in Hr as ([s1 a1] & Hb%percolate_down_moved & Hr). by simplify_eq.
Qed.
End moves.

(** ** Validation and printing *)

Section validity.
Context {St ptr : Type} `{!PQOps St ptr}.
Implicit Types (s : St) (q : pqueue_t ptr) (i j n : Z).

(** [j] lies below [i] in the tree. *)
Definition below i j : Prop := ∃ k, Nat.iter k parent (parent j) = i.

Lemma below_split i j :
  below i j ↔ parent j = i ∨ below (2 * i) j ∨ below (2 * i + 1) j.
Proof.
  split.
  - intros [[|k] Hk]; [by left|]. simpl in Hk. apply parent_child in Hk as [Hk|Hk];
      [right; left|right; right]; by exists k.
  - intros [Hk|[[k Hk]|[k Hk]]]; [by exists 0%nat|exists (S k)..]; simpl; apply parent_child; lia.
Qed.

Lemma below_lt i j : 1 ≤ i → 2 ≤ j → below i j → i < j.
Proof.
  intros Hi Hj [k Hk]. pose proof (parent_lt j Hj).
  assert (Hle : ∀ z, 0 ≤ z → Nat.iter k parent z ≤ z ∧ 0 ≤ Nat.iter k parent z).
  { clear. induction k as [|k IH]; intros z Hz; simpl; [lia|].
    specialize (IH z Hz). rewrite parent_div. Z.to_euclidean_division_equations. lia. }
  specialize (Hle (parent j)). lia.
Qed.

Lemma below_root j : 2 ≤ j → below 1 j.
Proof.
  intros Hj. assert (Hk : j ≤ Z.of_nat (Z.to_nat j)) by lia. revert Hk.
  generalize (Z.to_nat j) as k. intros k. revert j Hj.
  induction k as [|k IH]; intros j Hj Hk; [lia|]. pose proof (parent_lt j Hj).
  destruct (decide (parent j = 1)); [by exists 0%nat|].
  destruct (IH (parent j)) as [m Hm]; [lia|lia|]. exists (S m). by rewrite Nat.iter_succ_r.
Qed.

Lemma check_child_ok s q pos c sub rest bs br (B : Prop) :
  1 ≤ pos < c → q_size q ≤ Z.of_nat (length (q_d q)) → parent c = pos →
  (c < q_size q → sub c = Some bs ∧ (bs = true ↔ B)) → rest = Some br →
  ∃ b, check_child s q pos c sub rest = Some b
    ∧ (b = true ↔ (c < q_size q → ordered (getpri s) (q_d q) c ∧ B) ∧ br = true).
Proof.
  intros Hpos Hlen Hpc Hsub ->. unfold check_child. bcase; [|exists br; split; [done|naive_solver lia]].
  destruct (rd_is_Some (q_d q) pos) as [x Hx]; [lia|].
  destruct (rd_is_Some (q_d q) c) as [y Hy]; [lia|].
  destruct Hsub as [-> Hbs]; [done|]. rewrite Hx, Hy. cbn.
  assert (Hord : ordered (getpri s) (q_d q) c ↔ cmppri (getpri s x) (getpri s y) = false).
  { unfold ordered. rewrite Hpc, Hx, Hy. naive_solver. }
  destruct (cmppri (getpri s x) (getpri s y)), bs; cbn; eexists; (split; [done|]); naive_solver.
Qed.

Lemma subtree_is_valid_ok s q fuel : ∀ pos,
  1 ≤ pos → q_size q ≤ Z.of_nat (length (q_d q)) → q_size q - pos < Z.of_nat fuel →
  (0 < fuel)%nat →
  ∃ b, subtree_is_valid fuel s q pos = Some b
    ∧ (b = true ↔ ∀ j, 2 ≤ j < q_size q → below pos j → ordered (getpri s) (q_d q) j).
Proof.
  induction fuel as [|fuel IH]; intros pos Hpos Hlen Hf H0; [lia|]. cbn [subtree_is_valid].
  unfold heap_right. fold (heap_left pos). rewrite heap_left_mul.
  set (B c := ∀ j, 2 ≤ j < q_size q → below c j → ordered (getpri s) (q_d q) j).
  assert (Hsub : ∀ c, pos < c → ∃ b, (c < q_size q →
    subtree_is_valid fuel s q c = Some b ∧ (b = true ↔ B c))).
  { intros c Hc. destruct (decide (c < q_size q)); [|by exists true].
    destruct (IH c) as (b & Hb & Hbi); [lia..|]. by exists b. }
  destruct (Hsub (2 * pos)) as [bl Hl]; [lia|]. destruct (Hsub (2 * pos + 1)) as [br Hr]; [lia|].
  destruct (check_child_ok s q pos (2 * pos + 1) (subtree_is_valid fuel s q) (Some true) br true
    (B (2 * pos + 1))) as (b1 & Hb1 & Hi1); [lia|done|apply parent_child; lia|done|done|].
  destruct (check_child_ok s q pos (2 * pos) (subtree_is_valid fuel s q) (Some b1) bl b1
    (B (2 * pos))) as (b2 & Hb2 & Hi2); [lia|done|apply parent_child; lia|done|done|].
  rewrite Hb1, Hb2. exists b2. split; [done|]. rewrite Hi2, Hi1. unfold B. split.
  - intros [Hbl [Hbr _]] j Hj [Hpj|[Hb|Hb]]%below_split.
    + apply parent_child in Hpj as [->| ->]; [by destruct Hbl; [lia|]|by destruct Hbr; [lia|]].
    + pose proof (below_lt (2 * pos) j ltac:(lia) ltac:(lia) Hb).
      destruct Hbl as [_ HB]; [lia|]. by apply HB.
    + pose proof (below_lt (2 * pos + 1) j ltac:(lia) ltac:(lia) Hb).
      destruct Hbr as [_ HB]; [lia|]. by apply HB.
  - intros Hall. split_and!; try done; intros Hc; split.
    + apply Hall; [lia|]. apply below_split. left. apply parent_child. lia.
    + intros j Hj Hb. apply Hall; [done|]. apply below_split. auto.
    + apply Hall; [lia|]. apply below_split. left. apply parent_child. lia.
    + intros j Hj Hb. apply Hall; [done|]. apply below_split. auto.
Qed.

(** [pqueue_is_valid] returns and answers true exactly for arrays in heap
    order. *)
Lemma pqueue_is_valid_iff s q :
  1 ≤ q_size q ≤ Z.of_nat (length (q_d q)) →
  ∃ b, pqueue_is_valid s q = Some b ∧ (b = true ↔ heap (getpri s) (q_d q) (q_size q)).
Proof.
  intros Hq. destruct (subtree_is_valid_ok s q (S (Z.to_nat (q_size q))) 1)
    as (b & Hb & Hi); [lia..|]. exists b. split; [done|]. rewrite Hi. unfold heap. split.
  - intros Hall j Hj. apply Hall; [done|]. apply below_root. lia.
  - intros Hall j Hj _. by apply Hall.
Qed.
End validity.

Section printing.
Context {St ptr : Type} `{!PQOps St ptr} `{!PQHeap St ptr}.
Implicit Types (s : St) (q : pqueue_t ptr) (x y : ptr).

(** [pqueue_pop] as far as the order goes. *)
Lemma pop_order s q :
  1 < q_size q ≤ Z.of_nat (length (q_d q)) → heap (getpri s) (q_d q) (q_size q) →
  ∃ s' q' x, pqueue_pop s q = Some (s', q', Some x) ∧ getpri s' = getpri s
    ∧ q_size q' = q_size q - 1 ∧ length (q_d q') = length (q_d q)
    ∧ heap (getpri s) (q_d q') (q_size q') ∧ elems q ≡ₚ x :: elems q'
    ∧ ∀ y, y ∈ elems q → cmppri (getpri s x) (getpri s y) = false.
Proof.
  intros Hs Hh. unfold pqueue_pop. destruct (Z.eqb_spec (q_size q) 1) as [|_]; [lia|].
  set (n := q_size q - 1).
  destruct (rd_is_Some (q_d q) 1) as [x Hx]; [lia|].
  destruct (rd_is_Some (q_d q) n) as [l Hln]; [lia|].
  assert (Hroot : ∀ y, y ∈ elems q → cmppri (getpri s x) (getpri s y) = false).
  { intros y (j & Hj & Hy)%elem_of_seg; [|lia].
    apply (heap_root (getpri s) (q_d q) (q_size q) j x y); done || lia. }
  assert (Hseg : elems q ≡ₚ x :: seg (full (q_d q) 1 l) n).
  { unfold elems. replace (q_size q) with (n + 1) by lia. apply seg_remove; done || lia. }
  rewrite Hx. cbn -[percolate_down]. rewrite Hln. cbn -[percolate_down].
  rewrite wr_full by lia. cbn -[percolate_down].
  assert (Hl : rd (full (q_d q) 1 l) 1 = Some l) by (by rewrite rd_full, decide_True by lia).
  destruct (decide (n = 1)) as [Hn|Hn].
  - rewrite Hn in *. rewrite (percolate_down_last s _ 1 l) by (rewrite ?full_length; done || lia).
    cbn. do 3 eexists. split; [done|]. simpl. rewrite full_length, getpri_setpos.
    split_and!; try done. intros j Hj. lia.
  - destruct (gap_inv (getpri s) (q_d q) n 1 x l) as [_ Hdown]; [lia|lia|done| |].
    { by replace (n + 1) with (q_size q) by lia. }
    destruct (percolate_down_ok s (full (q_d q) 1 l) n 1 l)
      as (s' & a' & Hr & Hl' & Hg & Hh' & Hperm); [lia|rewrite full_length; lia|done|].
    rewrite Hr. cbn. do 3 eexists. split; [done|]. simpl. rewrite full_length in Hl'.
    split_and!; try done; [by apply Hh', Hdown; right|]. unfold elems at 2. simpl. by rewrite Hperm.
Qed.
End printing.

Section printed.
Context {St ptr : Type} `{!PQOps St ptr} `{HH : !PQHeap St ptr}.
Implicit Types (s : St) (q : pqueue_t ptr) (x y : ptr).

Lemma print_heap : PQHeap St ptr (PQOps0 := print_ops).
Proof. by destruct HH. Qed.

Lemma pop_all_ok s0 fuel : ∀ s q,
  getpri s = getpri s0 → 1 ≤ q_size q ≤ Z.of_nat (length (q_d q)) →
  q_size q ≤ Z.of_nat fuel → heap (getpri s0) (q_d q) (q_size q) →
  ∃ l, pop_all fuel s q = Some l ∧ l ≡ₚ elems q
    ∧ StronglySorted (λ x y, cmppri (getpri s0 x) (getpri s0 y) = false) l.
Proof.
  induction fuel as [|fuel IH]; intros s q Hg Hs Hf Hh; [lia|]. cbn [pop_all].
  destruct (decide (q_size q = 1)) as [H1|H1].
  - unfold pqueue_pop. rewrite H1. cbn. exists []. split_and!; [done| |constructor].
    unfold elems, seg. by rewrite H1.
  - destruct (pop_order (PQOps0 := print_ops) (PQHeap0 := print_heap) s q)
      as (s' & q' & x & Hr & Hg' & Hsz & Hl & Hh' & Hel & Hmin); [lia| |].
    { change (heap (getpri s) (q_d q) (q_size q)). by rewrite Hg. }
    rewrite Hr. cbn -[pop_all].
    change (getpri s' = getpri s) in Hg'. rewrite Hg in Hg'.
    destruct (IH s' q' Hg') as (l & -> & Hperm & Hsort); [lia|lia| |].
    { change (heap (getpri s) (q_d q') (q_size q')) in Hh'. by rewrite Hg in Hh'. }
    cbn. exists (x :: l). split_and!; [done|by rewrite Hel, Hperm|].
    constructor; [done|]. apply Forall_forall. intros y Hy. rewrite <- Hg.
    apply Hmin. rewrite Hel, <- Hperm. by right.
Qed.

(** [pqueue_print] terminates and lists exactly the elements of the queue,
    each before those it is preferred to. *)
Lemma pqueue_print_sorted junk s q :
  1 ≤ q_size q ≤ Z.of_nat (length (q_d q)) → heap (getpri s) (q_d q) (q_size q) →
  ∃ l, pqueue_print junk s q = Some l ∧ l ≡ₚ elems q
    ∧ StronglySorted (λ x y, cmppri (getpri s x) (getpri s y) = false) l.
Proof.
  intros Hs Hh. unfold pqueue_print. set (a := take _ _ ++ [junk]).
  assert (Hrd : ∀ j, j < q_size q → rd a j = rd (q_d q) j).
  { intros j Hj. unfold rd. bcase; [|done]. subst a.
    rewrite lookup_app_l by (rewrite length_take; lia). apply lookup_take_lt. lia. }
  assert (Hel : elems {| q_size := q_size q; q_avail := q_avail q; q_step := q_step q; q_d := a |}
                = elems q).
  { unfold elems, seg. simpl. subst a. apply list_eq. intros i.
    destruct (decide (i < Z.to_nat (q_size q - 1))%nat);
      [|rewrite !lookup_take_ge by lia; done].
    rewrite !lookup_take_lt, !lookup_drop by lia.
    rewrite lookup_app_l by (rewrite length_take; lia). apply lookup_take_lt. lia. }
  rewrite <- Hel. apply pop_all_ok; simpl; [done| |lia|].
  - subst a. rewrite length_app, length_take. simpl. lia.
  - intros j Hj u v. pose proof (parent_lt j ltac:(lia)). rewrite !Hrd by lia. by apply Hh.
Qed.
End printed.

(** ** A concrete queue

    Objects are numbers, the store their priorities and positions; the smallest
    priority comes out first, as for the victim lines of the FTL. *)

#[local] Instance sample_ops : PQOps ((nat → Z) * (nat → Z)) nat := {
  getpri := λ s, s.1;
  setpri := λ s p v, (λ x, if decide (x = p) then v else s.1 x, s.2);
  getpos := λ s, s.2;
  setpos := λ s p i, (s.1, λ x, if decide (x = p) then i else s.2 x);
  live := λ _ _, True;
  cmppri := λ next curr, curr <? next
}.

#[local] Instance sample_heap : PQHeap ((nat → Z) * (nat → Z)) nat.
Proof.
  split; simpl; [done|apply Z.ltb_irrefl|..]; intros; bools; apply Z.ltb_ge; lia.
Qed.

#[local] Instance sample_pos : PQPos ((nat → Z) * (nat → Z)) nat.
Proof. by split. Qed.

Definition s_sample : (nat → Z) * (nat → Z) :=
  (λ x, nth x [0; 2; 9; 5; 7] 100, λ x, Z.of_nat x).

Definition q_sample : pqueue_t nat :=
  {| q_size := 4; q_avail := 4; q_step := 4; q_d := [0; 1; 2; 3]%nat |}.

Lemma sample_ordered : heap (getpri s_sample) (q_d q_sample) (q_size q_sample).
Proof.
  intros j Hj x y Hx Hy. simpl in Hj. assert (j = 2 ∨ j = 3) as [->| ->] by lia;
    vm_compute in Hx, Hy; simplify_eq; done.
Qed.

Lemma sample_ok : pq_ok s_sample q_sample.
Proof.
  split; [|apply sample_ordered]. split; simpl; try done; try lia.
  - unfold elems, seg. simpl. apply (bool_decide_unpack _). by vm_compute.
  - intros j x Hj Hx. assert (j = 1 ∨ j = 2 ∨ j = 3) as [->|[->| ->]] by lia;
      vm_compute in Hx; by simplify_eq.
Qed.

Lemma pqueue_pop_ok_witness :
  ∃ s' q', pqueue_pop s_sample q_sample = Some (s', q', Some 1%nat)
    ∧ elems q_sample ≡ₚ 1%nat :: elems q'.
Proof.
  destruct (pqueue_pop_ok s_sample q_sample sample_ok) as (s' & q' & r & Hr & _ & _ & Hm).
  assert (r = Some 1%nat) as -> by (vm_compute in Hr; congruence).
  exists s', q'. split; [exact Hr|exact (proj1 Hm)].
Defined.
