(* ===== verification/BbFtl.v ===== *)
(** * The flash translation layer of the black-box SSD
      (src/femu-ocssd/hw/block/femu/bbssd/ftl.c, ftl.h)

    The emulated drive maps logical pages to physical pages through [maptbl] and
    back through [rmap], writes at a write pointer that walks over the channels,
    the dies and the pages of one line at a time, keeps its lines in a free list,
    a priority queue of victims and a list of full lines, and collects the
    victims when free lines run short.

    The code is modelled function by function on nested arrays; [None] is an
    access outside an array or the [abort] of [ssd_advance_write_pointer].  The
    [ftl_assert]s are compiled out unless FEMU_DEBUG_FTL is set; the invariant
    below implies those on the mapping.  The clock of QEMU is a parameter. *)

From S2P Require Import Prelude Pqueue.
From Stdlib Require Import FunctionalExtensionality.

(** ** Physical page addresses *)

Definition BLK_BITS : Z := 16.
Definition PG_BITS : Z := 16.
Definition SEC_BITS : Z := 8.
Definition PL_BITS : Z := 8.
Definition LUN_BITS : Z := 8.
Definition CH_BITS : Z := 7.

Record ppa := {
  g_blk : Z; g_pg : Z; g_sec : Z; g_pl : Z; g_lun : Z; g_ch : Z; g_rsv : Z
}.

#[global] Instance ppa_fields : Fields ppa := λ r,
  Build_ppa (g_blk r) (g_pg r) (g_sec r) (g_pl r) (g_lun r) (g_ch r) (g_rsv r).

#[global] Instance ppa_eq_dec : EqDecision ppa.
Proof. solve_decision. Defined.

(** The 64-bit word the bit fields overlay, and back. *)
Definition ppa_word (p : ppa) : Z :=
  g_blk p + Z.shiftl (g_pg p) 16 + Z.shiftl (g_sec p) 32 + Z.shiftl (g_pl p) 40
  + Z.shiftl (g_lun p) 48 + Z.shiftl (g_ch p) 56 + Z.shiftl (g_rsv p) 63.

Definition word_ppa (w : Z) : ppa :=
  {| g_blk := w mod 2 ^ 16; g_pg := (w / 2 ^ 16) mod 2 ^ 16; g_sec := (w / 2 ^ 32) mod 2 ^ 8;
     g_pl := (w / 2 ^ 40) mod 2 ^ 8; g_lun := (w / 2 ^ 48) mod 2 ^ 8;
     g_ch := (w / 2 ^ 56) mod 2 ^ 7; g_rsv := (w / 2 ^ 63) mod 2 |}.

Definition INVALID_LPN : Z := 2 ^ 64 - 1.
Definition UNMAPPED_WORD : Z := 2 ^ 64 - 1.
Definition UNMAPPED_PPA : ppa := word_ppa UNMAPPED_WORD.

Definition PG_FREE : Z := 0.
Definition PG_INVALID : Z := 1.
Definition PG_VALID : Z := 2.
Definition SEC_FREE : Z := 0.

(** ** State *)

Record nand_page := { sec : list Z; nsecs : Z; status : Z }.
Record nand_block := {
  pg : list nand_page; npgs : Z; b_ipc : Z; b_vpc : Z; erase_cnt : Z; b_wp : Z
}.
Record nand_plane := { blk : list nand_block; nblks : Z }.
Record nand_lun := {
  pl : list nand_plane; npls : Z; next_lun_avail_time : Z; lun_busy : bool; gc_endtime : Z
}.
Record ssd_channel := {
  lun : list nand_lun; nluns : Z; next_ch_avail_time : Z; ch_busy : bool; ch_gc_endtime : Z
}.

Record ssdparams := {
  secsz : Z; secs_per_pg : Z; pgs_per_blk : Z; blks_per_pl : Z; pls_per_lun : Z;
  luns_per_ch : Z; nchs : Z;
  pg_rd_lat : Z; pg_wr_lat : Z; blk_er_lat : Z; ch_xfer_lat : Z;
  gc_thres_lines : Z; gc_thres_lines_high : Z; enable_gc_delay : bool;
  secs_per_blk : Z; secs_per_pl : Z; secs_per_lun : Z; secs_per_ch : Z; tt_secs : Z;
  pgs_per_pl : Z; pgs_per_lun : Z; pgs_per_ch : Z; tt_pgs : Z;
  blks_per_lun : Z; blks_per_ch : Z; tt_blks : Z;
  secs_per_line : Z; pgs_per_line : Z; blks_per_line : Z; tt_lines : Z;
  pls_per_ch : Z; tt_pls : Z; tt_luns : Z
}.

Record line := { l_id : Z; l_ipc : Z; l_vpc : Z; l_pos : Z }.

(** A pointer to a line is its index in [lines]. *)
Record write_pointer := {
  curline : nat; wp_ch : Z; wp_lun : Z; wp_pg : Z; wp_blk : Z; wp_pl : Z
}.

Record line_mgmt := {
  lines : list line;
  free_line_list : list nat;
  victim_line_pq : pqueue_t nat;
  full_line_list : list nat;
  free_line_cnt : Z;
  victim_line_cnt : Z;
  full_line_cnt : Z
}.

(** [clk] counts the readings of the clock. *)
Record ssd := {
  sp : ssdparams;
  ch : list ssd_channel;
  maptbl : list ppa;
  rmap : list Z;
  wp : write_pointer;
  lm : line_mgmt;
  clk : nat
}.

#[global] Instance nand_page_fields : Fields nand_page := λ r,
  Build_nand_page (sec r) (nsecs r) (status r).
#[global] Instance nand_block_fields : Fields nand_block := λ r,
  Build_nand_block (pg r) (npgs r) (b_ipc r) (b_vpc r) (erase_cnt r) (b_wp r).
#[global] Instance nand_plane_fields : Fields nand_plane := λ r,
  Build_nand_plane (blk r) (nblks r).
#[global] Instance nand_lun_fields : Fields nand_lun := λ r,
  Build_nand_lun (pl r) (npls r) (next_lun_avail_time r) (lun_busy r) (gc_endtime r).
#[global] Instance ssd_channel_fields : Fields ssd_channel := λ r,
  Build_ssd_channel (lun r) (nluns r) (next_ch_avail_time r) (ch_busy r) (ch_gc_endtime r).
#[global] Instance line_fields : Fields line := λ r,
  Build_line (l_id r) (l_ipc r) (l_vpc r) (l_pos r).
#[global] Instance write_pointer_fields : Fields write_pointer := λ r,
  Build_write_pointer (curline r) (wp_ch r) (wp_lun r) (wp_pg r) (wp_blk r) (wp_pl r).
#[global] Instance line_mgmt_fields : Fields line_mgmt := λ r,
  Build_line_mgmt (lines r) (free_line_list r) (victim_line_pq r) (full_line_list r)
    (free_line_cnt r) (victim_line_cnt r) (full_line_cnt r).
#[global] Instance ssd_fields : Fields ssd := λ r,
  Build_ssd (sp r) (ch r) (maptbl r) (rmap r) (wp r) (lm r) (clk r).

(** ** Victim lines as elements of the priority queue *)

Definition victim_line_get_pri (ls : list line) (a : nat) : Z := default 0 (l_vpc <$> ls !! a).
Definition victim_line_set_pri (ls : list line) (a : nat) (pri : Z) : list line :=
  alter (λ l, l <| l_vpc := pri |>) a ls.
Definition victim_line_get_pos (ls : list line) (a : nat) : Z := default 0 (l_pos <$> ls !! a).
Definition victim_line_set_pos (ls : list line) (a : nat) (pos : Z) : list line :=
  alter (λ l, l <| l_pos := pos |>) a ls.
Definition victim_line_cmp_pri (next curr : Z) : bool := curr <? next.

#[global] Instance victim_ops : PQOps (list line) nat := {
  getpri := victim_line_get_pri;
  setpri := victim_line_set_pri;
  getpos := victim_line_get_pos;
  setpos := victim_line_set_pos;
  live := λ ls a, is_Some (ls !! a);
  cmppri := victim_line_cmp_pri
}.

#[global] Instance victim_heap : PQHeap (list line) nat.
Proof.
  split.
  - intros s p i. simpl. apply functional_extensionality. intros x.
    unfold victim_line_get_pri, victim_line_set_pos.
    destruct (decide (p = x)) as [->|]; [|by rewrite list_lookup_alter_ne].
    rewrite list_lookup_alter_eq. by destruct (s !! x).
  - intros. apply Z.ltb_irrefl.
  - simpl. unfold victim_line_cmp_pri. intros. bools. apply Z.ltb_ge. lia.
  - simpl. unfold victim_line_cmp_pri. intros. bools. apply Z.ltb_ge. lia.
Qed.

#[global] Instance victim_pos : PQPos (list line) nat.
Proof.
  assert (Hl : ∀ (f : line → line) (s : list line) (p x : nat),
    is_Some (alter f p s !! x) ↔ is_Some (s !! x)).
  { intros f s p x. destruct (decide (p = x)) as [->|]; [|by rewrite list_lookup_alter_ne].
    by rewrite list_lookup_alter_eq, fmap_is_Some. }
  split; simpl; intros s p v x;
    unfold victim_line_get_pri, victim_line_get_pos, victim_line_set_pri, victim_line_set_pos.
  - intros [l Hp]. case_decide as Hx; [subst|by rewrite list_lookup_alter_ne].
    by rewrite list_lookup_alter_eq, Hp.
  - apply Hl.
  - intros [l Hp]. case_decide as Hx; [subst|by rewrite list_lookup_alter_ne].
    by rewrite list_lookup_alter_eq, Hp.
  - destruct (decide (p = x)) as [->|]; [|by rewrite list_lookup_alter_ne].
    rewrite list_lookup_alter_eq. by destruct (s !! x).
  - apply Hl.
Qed.

(** ** Accessors of the NAND array *)

Definition get_ch (s : ssd) (p : ppa) : option ssd_channel := rd (ch s) (g_ch p).
Definition get_lun (s : ssd) (p : ppa) : option nand_lun := c ← get_ch s p; rd (lun c) (g_lun p).
Definition get_pl (s : ssd) (p : ppa) : option nand_plane := l ← get_lun s p; rd (pl l) (g_pl p).
Definition get_blk (s : ssd) (p : ppa) : option nand_block := x ← get_pl s p; rd (blk x) (g_blk p).
Definition get_pg (s : ssd) (p : ppa) : option nand_page := b ← get_blk s p; rd (pg b) (g_pg p).

(** Storing through the pointers the accessors return. *)
Definition set_lun (s : ssd) (p : ppa) (l : nand_lun) : option ssd :=
  c ← get_ch s p;
  ls ← wr (lun c) (g_lun p) l;
  cs ← wr (ch s) (g_ch p) (c <| lun := ls |>);
  Some (s <| ch := cs |>).

Definition set_blk (s : ssd) (p : ppa) (b : nand_block) : option ssd :=
  l ← get_lun s p;
  x ← rd (pl l) (g_pl p);
  bs ← wr (blk x) (g_blk p) b;
  xs ← wr (pl l) (g_pl p) (x <| blk := bs |>);
  set_lun s p (l <| pl := xs |>).

Definition set_pg (s : ssd) (p : ppa) (x : nand_page) : option ssd :=
  b ← get_blk s p;
  xs ← wr (pg b) (g_pg p) x;
  set_blk s p (b <| pg := xs |>).

(** [&(ssd->lm.lines[ppa->g.blk])] *)
Definition get_line (s : ssd) (p : ppa) : nat := Z.to_nat (g_blk p).

Definition line_at (s : ssd) (a : nat) : option line := lines (lm s) !! a.
Definition set_line (s : ssd) (a : nat) (l : line) : ssd :=
  s <| lm := (lm s) <| lines := <[a := l]> (lines (lm s)) |> |>.

(** ** Mapping tables *)

Definition mapped_ppa (p : ppa) : bool := negb (ppa_word p =? UNMAPPED_WORD).

Definition valid_ppa (s : ssd) (p : ppa) : bool :=
  (0 <=? g_ch p) && (g_ch p <? nchs (sp s)) && (0 <=? g_lun p) && (g_lun p <? luns_per_ch (sp s))
  && (0 <=? g_pl p) && (g_pl p <? pls_per_lun (sp s)) && (0 <=? g_blk p)
  && (g_blk p <? blks_per_pl (sp s)) && (0 <=? g_pg p) && (g_pg p <? pgs_per_blk (sp s))
  && (0 <=? g_sec p) && (g_sec p <? secs_per_pg (sp s)).

Definition get_maptbl_ent (s : ssd) (lpn : Z) : option ppa := rd (maptbl s) lpn.

Definition set_maptbl_ent (s : ssd) (lpn : Z) (p : ppa) : option ssd :=
  t ← wr (maptbl s) lpn p;
  Some (s <| maptbl := t |>).

Definition ppa2pgidx (s : ssd) (p : ppa) : Z :=
  u64 (g_ch p * pgs_per_ch (sp s) + g_lun p * pgs_per_lun (sp s) + g_pl p * pgs_per_pl (sp s)
       + g_blk p * pgs_per_blk (sp s) + g_pg p).

Definition get_rmap_ent (s : ssd) (p : ppa) : option Z := rd (rmap s) (ppa2pgidx s p).

Definition set_rmap_ent (s : ssd) (lpn : Z) (p : ppa) : option ssd :=
  t ← wr (rmap s) (ppa2pgidx s p) lpn;
  Some (s <| rmap := t |>).

Definition should_gc (s : ssd) : bool := free_line_cnt (lm s) <=? gc_thres_lines (sp s).
Definition should_gc_high (s : ssd) : bool := free_line_cnt (lm s) <=? gc_thres_lines_high (sp s).

(** ** The write pointer *)

Section ftl.
(** Whether [realloc] answers, and the clock of QEMU. *)
Context (realloc_ok : bool) (clock : nat → Z).
Implicit Types (s : ssd) (p : ppa).

(** [pqueue_insert(lm->victim_line_pq, line)]; its result is ignored. *)
Definition victim_insert (m : line_mgmt) (a : nat) : option line_mgmt :=
  '(ls, q, _) ← pqueue_insert realloc_ok 0%nat (lines m) (victim_line_pq m) a;
  Some (m <| lines := ls |> <| victim_line_pq := q |>).

Definition get_next_free_line s : option (ssd * nat) :=
  match free_line_list (lm s) with
  | [] => None                       (* the caller aborts *)
  | a :: l => Some (s <| lm := (lm s) <| free_line_list := l |> <| free_line_cnt ::= Z.pred |> |>, a)
  end.

(** The current line is used up: it joins the full or the victim lines, and the
    next free line takes its place. *)
Definition retire_line s : option ssd :=
  let w := wp s in
  l ← line_at s (curline w);
  m ← (if l_vpc l =? pgs_per_line (sp s) then
         Some ((lm s) <| full_line_list ::= λ f, f ++ [curline w] |> <| full_line_cnt ::= Z.succ |>)
       else
         m ← victim_insert (lm s) (curline w);
         Some (m <| victim_line_cnt ::= Z.succ |>));
  '(s, a) ← get_next_free_line (s <| lm := m |>);
  l ← line_at s a;
  Some (s <| wp := (wp s) <| curline := a |> <| wp_blk := l_id l |> |>).

Definition ssd_advance_write_pointer s : option ssd :=
  let set f := s <| wp ::= f |> in
  let w := wp s in
  let c := wp_ch w + 1 in
  if negb (c =? nchs (sp s)) then Some (set (λ w, w <| wp_ch := c |>))
  else
    let l := wp_lun w + 1 in
    if negb (l =? luns_per_ch (sp s)) then Some (set (λ w, w <| wp_ch := 0 |> <| wp_lun := l |>))
    else
      let g := wp_pg w + 1 in
      if negb (g =? pgs_per_blk (sp s)) then
        Some (set (λ w, w <| wp_ch := 0 |> <| wp_lun := 0 |> <| wp_pg := g |>))
      else retire_line (set (λ w, w <| wp_ch := 0 |> <| wp_lun := 0 |> <| wp_pg := 0 |>)).

(** The assignments truncate to the width of the bit fields. *)
Definition get_new_page s : ppa :=
  let w := wp s in
  {| g_blk := wp_blk w mod 2 ^ BLK_BITS; g_pg := wp_pg w mod 2 ^ PG_BITS; g_sec := 0;
     g_pl := wp_pl w mod 2 ^ PL_BITS; g_lun := wp_lun w mod 2 ^ LUN_BITS;
     g_ch := wp_ch w mod 2 ^ CH_BITS; g_rsv := 0 |}.

(** ** Latencies *)

Inductive nand_op := NAND_READ | NAND_WRITE | NAND_ERASE.

Record nand_cmd := { cmd : nand_op; stime : Z }.

(** [stime == 0] asks for the current time. *)
Definition ssd_advance_status s p (c : nand_cmd) : option (ssd * Z) :=
  let '(s, cmd_stime) :=
    if stime c =? 0 then (s <| clk ::= S |>, clock (clk s)) else (s, stime c) in
  l ← get_lun s p;
  let nand_stime :=
    if next_lun_avail_time l <? cmd_stime then cmd_stime else next_lun_avail_time l in
  let cost := match cmd c with
              | NAND_READ => pg_rd_lat (sp s)
              | NAND_WRITE => pg_wr_lat (sp s)
              | NAND_ERASE => blk_er_lat (sp s)
              end in
  let avail := u64 (nand_stime + cost) in
  s ← set_lun s p (l <| next_lun_avail_time := avail |>);
  Some (s, u64 (avail - cmd_stime)).

(** ** Page, block and line status *)

Definition mark_page_invalid s p : option ssd :=
  x ← get_pg s p;
  s ← set_pg s p (x <| status := PG_INVALID |>);
  b ← get_blk s p;
  s ← set_blk s p (b <| b_ipc ::= Z.succ |> <| b_vpc ::= Z.pred |>);
  let a := get_line s p in
  l ← line_at s a;
  let was_full_line := l_vpc l =? pgs_per_line (sp s) in
  let s := set_line s a (l <| l_ipc ::= Z.succ |> <| l_vpc ::= Z.pred |>) in
  if was_full_line then
    (* QTAILQ_REMOVE *)
    let m := (lm s) <| full_line_list ::= filter (λ x, x ≠ a) |> <| full_line_cnt ::= Z.pred |> in
    m ← victim_insert m a;
    Some (s <| lm := m <| victim_line_cnt ::= Z.succ |> |>)
  else Some s.

Definition mark_page_valid s p : option ssd :=
  x ← get_pg s p;
  s ← set_pg s p (x <| status := PG_VALID |>);
  b ← get_blk s p;
  s ← set_blk s p (b <| b_vpc ::= Z.succ |>);
  let a := get_line s p in
  l ← line_at s a;
  Some (set_line s a (l <| l_vpc ::= Z.succ |>)).

(** The first [pgs_per_blk] pages of the block become free. *)
Definition mark_block_free s p : option ssd :=
  b ← get_blk s p;
  _ ← ensure (pgs_per_blk (sp s) <=? Z.of_nat (length (pg b)));
  let n := Z.to_nat (pgs_per_blk (sp s)) in
  let pgs := ((λ x, x <| status := PG_FREE |>) <$> take n (pg b)) ++ drop n (pg b) in
  set_blk s p (b <| pg := pgs |> <| b_ipc := 0 |> <| b_vpc := 0 |> <| erase_cnt ::= Z.succ |>).

Definition mark_line_free s p : option ssd :=
  let a := get_line s p in
  l ← line_at s a;
  let s := set_line s a (l <| l_ipc := 0 |> <| l_vpc := 0 |>) in
  Some (s <| lm := (lm s) <| free_line_list ::= λ f, f ++ [a] |> <| free_line_cnt ::= Z.succ |> |>).

(** ** Garbage collection *)

Definition gc_read_page s p : option ssd :=
  if enable_gc_delay (sp s) then
    '(s, _) ← ssd_advance_status s p {| cmd := NAND_READ; stime := 0 |}; Some s
  else Some s.

(** The steps by which both [gc_write_page] and [ssd_write] put logical page
    [lpn] on the next free page. *)
Definition program_page s (lpn : Z) : option (ssd * ppa) :=
  let p := get_new_page s in
  s ← set_maptbl_ent s lpn p;
  s ← set_rmap_ent s lpn p;
  s ← mark_page_valid s p;
  s ← ssd_advance_write_pointer s;
  Some (s, p).

Definition gc_write_page s (old_ppa : ppa) : option ssd :=
  lpn ← get_rmap_ent s old_ppa;
  '(s, new_ppa) ← program_page s lpn;
  s ← (if enable_gc_delay (sp s) then
         '(s, _) ← ssd_advance_status s new_ppa {| cmd := NAND_WRITE; stime := 0 |}; Some s
       else Some s);
  new_lun ← get_lun s new_ppa;
  set_lun s new_ppa (new_lun <| gc_endtime := next_lun_avail_time new_lun |>).

Definition select_victim_line s (force : bool) : option (ssd * option nat) :=
  v ← pqueue_peek (victim_line_pq (lm s));
  match v with
  | None => Some (s, None)
  | Some a =>
      l ← line_at s a;
      if negb force && (l_ipc l <? Z.quot (pgs_per_line (sp s)) 8) then Some (s, None)
      else
        '(ls, q, _) ← pqueue_pop (lines (lm s)) (victim_line_pq (lm s));
        Some (s <| lm := (lm s) <| lines := ls |> <| victim_line_pq := q |>
                           <| victim_line_cnt ::= Z.pred |> |>, Some a)
  end.

(** The page loop of [clean_one_block]. *)
Fixpoint clean_pages s p (pgs : list Z) : option ssd :=
  match pgs with
  | [] => Some s
  | g :: pgs =>
      let p := p <| g_pg := g mod 2 ^ PG_BITS |> in
      x ← get_pg s p;
      s ← (if status x =? PG_VALID then s ← gc_read_page s p; gc_write_page s p else Some s);
      clean_pages s p pgs
  end.

Definition clean_one_block s p : option ssd := clean_pages s p (seqZ 0 (pgs_per_blk (sp s))).

(** The two nested loops of [do_gc] over the blocks of a line. *)
Fixpoint clean_blocks s (blk0 : Z) (bs : list (Z * Z)) : option ssd :=
  match bs with
  | [] => Some s
  | (c, l) :: bs =>
      let p := {| g_blk := blk0; g_pg := 0; g_sec := 0; g_pl := 0; g_lun := l mod 2 ^ LUN_BITS;
                  g_ch := c mod 2 ^ CH_BITS; g_rsv := 0 |} in
      s ← clean_one_block s p;
      s ← mark_block_free s p;
      s ← (if enable_gc_delay (sp s) then
             '(s, _) ← ssd_advance_status s p {| cmd := NAND_ERASE; stime := 0 |}; Some s
           else Some s);
      lunp ← get_lun s p;
      s ← set_lun s p (lunp <| gc_endtime := next_lun_avail_time lunp |>);
      clean_blocks s blk0 bs
  end.

Definition line_blocks (s : ssd) : list (Z * Z) :=
  c ← seqZ 0 (nchs (sp s)); l ← seqZ 0 (luns_per_ch (sp s)); [(c, l)].

(** The boolean is true for the return value 0. *)
Definition do_gc s (force : bool) : option (ssd * bool) :=
  '(s, v) ← select_victim_line s force;
  match v with
  | None => Some (s, false)
  | Some a =>
      l ← line_at s a;
      let blk0 := l_id l mod 2 ^ BLK_BITS in
      s ← clean_blocks s blk0 (line_blocks s);
      s ← mark_line_free s {| g_blk := blk0; g_pg := 0; g_sec := 0; g_pl := 0; g_lun := 0;
                              g_ch := 0; g_rsv := 0 |};
      Some (s, true)
  end.

(** [while (should_gc_high(ssd))]: [None] also when the fuel is used up. *)
Fixpoint gc_loop (fuel : nat) s : option ssd :=
  if should_gc_high s then
    match fuel with
    | O => None
    | S fuel =>
        '(s, ok) ← do_gc s true;
        if ok : bool then gc_loop fuel s else Some s
    end
  else Some s.

(** ** Requests *)

Record NvmeRequest := { slba : Z; nlb : Z; req_stime : Z }.

Fixpoint read_pages s (req : NvmeRequest) (lpns : list Z) (maxlat : Z) : option (ssd * Z) :=
  match lpns with
  | [] => Some (s, maxlat)
  | lpn :: lpns =>
      p ← get_maptbl_ent s lpn;
      if negb (mapped_ppa p) || negb (valid_ppa s p) then read_pages s req lpns maxlat
      else
        '(s, sublat) ← ssd_advance_status s p {| cmd := NAND_READ; stime := req_stime req |};
        read_pages s req lpns (if maxlat <? sublat then sublat else maxlat)
  end.

Definition ssd_read s (req : NvmeRequest) : option (ssd * Z) :=
  let start_lpn := slba req / secs_per_pg (sp s) in
  let end_lpn := u64 (slba req + nlb req) / secs_per_pg (sp s) in
  read_pages s req (seqZ start_lpn (end_lpn - start_lpn + 1)) 0.

(** One turn of the loop of [ssd_write]. *)
Definition write_page s (req : NvmeRequest) (lpn : Z) : option (ssd * Z) :=
  p ← get_maptbl_ent s lpn;
  s ← (if mapped_ppa p then s ← mark_page_invalid s p; set_rmap_ent s INVALID_LPN p else Some s);
  '(s, p) ← program_page s lpn;
  ssd_advance_status s p {| cmd := NAND_WRITE; stime := req_stime req |}.

Fixpoint write_pages s (req : NvmeRequest) (lpns : list Z) (maxlat : Z) : option (ssd * Z) :=
  match lpns with
  | [] => Some (s, maxlat)
  | lpn :: lpns =>
      '(s, curlat) ← write_page s req lpn;
      write_pages s req lpns (if maxlat <? curlat then curlat else maxlat)
  end.

(** Each turn of the collection loop gains at least one page: the number of
    pages is fuel enough. *)
Definition ssd_write s (req : NvmeRequest) : option (ssd * Z) :=
  let start_lpn := slba req / secs_per_pg (sp s) in
  let end_lpn := u64 (slba req + nlb req - 1) / secs_per_pg (sp s) in
  s ← gc_loop (Z.to_nat (tt_pgs (sp s))) s;
  write_pages s req (seqZ start_lpn (end_lpn - start_lpn + 1)) 0.

(** What [ftl_thread] does with one request taken off the ring. *)
Definition ftl_serve s (is_write : bool) (req : NvmeRequest) : option (ssd * Z) :=
  '(s, lat) ← (if is_write then ssd_write s req else ssd_read s req);
  s ← (if should_gc s then '(s, _) ← do_gc s false; Some s else Some s);
  Some (s, lat).

(** The loop of [ftl_thread] over the requests it takes off the ring. *)
Fixpoint ftl_thread s (reqs : list (bool * NvmeRequest)) : option (ssd * list Z) :=
  match reqs with
  | [] => Some (s, [])
  | (is_write, req) :: reqs =>
      '(s, lat) ← ftl_serve s is_write req;
      '(s, lats) ← ftl_thread s reqs;
      Some (s, lat :: lats)
  end.
End ftl.

(** ** Set-up *)

(** The derived values of [ssd_init_params] for a geometry; the thresholds are
    the source's [(int)((1 - 0.75) * tt_lines)] and [(int)((1 - 0.95) * tt_lines)]. *)
Definition params_of (spg ppb bpp ppl lpc nch : Z) : ssdparams :=
  let spb := spg * ppb in
  let tl := lpc * nch in
  {| secsz := 512; secs_per_pg := spg; pgs_per_blk := ppb; blks_per_pl := bpp; pls_per_lun := ppl;
     luns_per_ch := lpc; nchs := nch;
     pg_rd_lat := 40000; pg_wr_lat := 200000; blk_er_lat := 2000000; ch_xfer_lat := 0;
     gc_thres_lines := 25 * (bpp * ppl) / 100; gc_thres_lines_high := 5 * (bpp * ppl) / 100;
     enable_gc_delay := true;
     secs_per_blk := spb; secs_per_pl := spb * bpp; secs_per_lun := spb * bpp * ppl;
     secs_per_ch := spb * bpp * ppl * lpc; tt_secs := spb * bpp * ppl * lpc * nch;
     pgs_per_pl := ppb * bpp; pgs_per_lun := ppb * bpp * ppl; pgs_per_ch := ppb * bpp * ppl * lpc;
     tt_pgs := ppb * bpp * ppl * lpc * nch;
     blks_per_lun := bpp * ppl; blks_per_ch := bpp * ppl * lpc; tt_blks := bpp * ppl * lpc * nch;
     secs_per_line := tl * ppb * spg; pgs_per_line := tl * ppb; blks_per_line := tl;
     tt_lines := bpp * ppl;
     pls_per_ch := ppl * lpc; tt_pls := ppl * lpc * nch; tt_luns := tl |}.

Definition ssd_init_params : ssdparams := params_of 8 256 256 1 8 8.

Definition ssd_init_nand_page (spp : ssdparams) : nand_page :=
  {| sec := replicate (Z.to_nat (secs_per_pg spp)) SEC_FREE; nsecs := secs_per_pg spp;
     status := PG_FREE |}.
Definition ssd_init_nand_blk (spp : ssdparams) : nand_block :=
  {| pg := replicate (Z.to_nat (pgs_per_blk spp)) (ssd_init_nand_page spp);
     npgs := pgs_per_blk spp; b_ipc := 0; b_vpc := 0; erase_cnt := 0; b_wp := 0 |}.
Definition ssd_init_nand_plane (spp : ssdparams) : nand_plane :=
  {| blk := replicate (Z.to_nat (blks_per_pl spp)) (ssd_init_nand_blk spp);
     nblks := blks_per_pl spp |}.
Definition ssd_init_nand_lun (spp : ssdparams) : nand_lun :=
  {| pl := replicate (Z.to_nat (pls_per_lun spp)) (ssd_init_nand_plane spp);
     npls := pls_per_lun spp; next_lun_avail_time := 0; lun_busy := false; gc_endtime := 0 |}.
Definition ssd_init_ch (spp : ssdparams) : ssd_channel :=
  {| lun := replicate (Z.to_nat (luns_per_ch spp)) (ssd_init_nand_lun spp);
     nluns := luns_per_ch spp; next_ch_avail_time := 0; ch_busy := false; ch_gc_endtime := 0 |}.

Definition ssd_init_maptbl (spp : ssdparams) : list ppa :=
  replicate (Z.to_nat (tt_pgs spp)) UNMAPPED_PPA.
Definition ssd_init_rmap (spp : ssdparams) : list Z :=
  replicate (Z.to_nat (tt_pgs spp)) INVALID_LPN.

Definition ssd_init_lines (spp : ssdparams) : option line_mgmt :=
  q ← pqueue_init true true 0%nat (tt_lines spp);
  let n := Z.to_nat (blks_per_pl spp) in
  Some {| lines := (λ i, {| l_id := Z.of_nat i; l_ipc := 0; l_vpc := 0; l_pos := 0 |}) <$> seq 0 n;
          free_line_list := seq 0 n; victim_line_pq := q; full_line_list := [];
          free_line_cnt := Z.of_nat n; victim_line_cnt := 0; full_line_cnt := 0 |}.

(** The first free line becomes the current one; a list without lines would be
    a null dereference. *)
Definition ssd_init_write_pointer (m : line_mgmt) : option (line_mgmt * write_pointer) :=
  match free_line_list m with
  | [] => None
  | a :: l =>
      Some (m <| free_line_list := l |> <| free_line_cnt ::= Z.pred |>,
            {| curline := a; wp_ch := 0; wp_lun := 0; wp_pg := 0; wp_blk := 0; wp_pl := 0 |})
  end.

(** [ssd_init] for the parameters [spp]. *)
Definition ssd_init (spp : ssdparams) : option ssd :=
  m ← ssd_init_lines spp;
  '(m, w) ← ssd_init_write_pointer m;
  Some {| sp := spp; ch := replicate (Z.to_nat (nchs spp)) (ssd_init_ch spp);
          maptbl := ssd_init_maptbl spp; rmap := ssd_init_rmap spp; wp := w; lm := m; clk := 0 |}.

(** ** Reading after writing in the NAND array *)

(** Everything but the NAND array and the clock is the same. *)
Definition frame (s s' : ssd) : Prop :=
  sp s' = sp s ∧ maptbl s' = maptbl s ∧ rmap s' = rmap s ∧ wp s' = wp s ∧ lm s' = lm s.

Definition bkey (p : ppa) : Z * Z * Z * Z := (g_ch p, g_lun p, g_pl p, g_blk p).
Definition pkey (p : ppa) : Z * Z * Z * Z * Z := (bkey p, g_pg p).

(** The status of a page. *)
Definition st (s : ssd) (p : ppa) : option Z := status <$> get_pg s p.

Lemma set_lun_spec s p l0 l :
  get_lun s p = Some l0 →
  ∃ s', set_lun s p l = Some s' ∧ frame s s' ∧ clk s' = clk s
    ∧ ∀ q, get_lun s' q = if decide (g_ch q = g_ch p ∧ g_lun q = g_lun p) then Some l
                          else get_lun s q.
Proof.
  unfold get_lun, set_lun. intros Hl. apply bind_Some in Hl as (c & Hc & Hl).
  rewrite Hc. cbn -[wr]. rewrite wr_in_range by (by eapply rd_lt). cbn -[wr].
  unfold get_ch in Hc. pose proof (rd_lt _ _ _ Hc) as Hcr. pose proof (rd_lt _ _ _ Hl) as Hlr.
  destruct (wr (ch s) (g_ch p) _) as [cs|] eqn:Hw; [|by rewrite wr_in_range in Hw].
  cbn. eexists. split; [done|]. split; [done|]. split; [done|].
  intros q. unfold get_ch. simpl. rewrite (rd_wr _ _ _ _ _ Hw).
  destruct (decide (g_ch p = g_ch q)) as [E|E].
  - cbn -[rd]. rewrite <- E, Hc. cbn -[rd].
    rewrite (rd_wr (lun c) _ (g_lun p) (g_lun q) l) by (by apply wr_in_range).
    destruct (decide (g_lun p = g_lun q)) as [E'|E'].
    + by rewrite decide_True by (split; congruence).
    + by rewrite decide_False by (intros [_ ?]; congruence).
  - by rewrite decide_False by (intros [? _]; congruence).
Qed.

Lemma set_blk_spec s p b0 b :
  get_blk s p = Some b0 →
  ∃ s', set_blk s p b = Some s' ∧ frame s s' ∧ clk s' = clk s
    ∧ ∀ q, get_blk s' q = if decide (bkey q = bkey p) then Some b else get_blk s q.
Proof.
  unfold get_blk, get_pl, set_blk. intros Hb. apply bind_Some in Hb as (x & Hx & Hb).
  apply bind_Some in Hx as (l & Hl & Hx). rewrite Hl. cbn -[wr set_lun rd]. rewrite Hx. cbn -[wr set_lun].
  pose proof (rd_lt _ _ _ Hb) as Hbr. pose proof (rd_lt _ _ _ Hx) as Hxr.
  rewrite wr_in_range by done. cbn -[wr set_lun].
  destruct (wr (pl l) (g_pl p) _) as [xs|] eqn:Hw; [|by rewrite wr_in_range in Hw].
  cbn -[set_lun]. destruct (set_lun_spec s p l (l <| pl := xs |>) Hl) as (s' & -> & Hf & Hk & Hg).
  exists s'. split; [done|]. split; [done|]. split; [done|]. intros q. rewrite Hg.
  unfold bkey. destruct (decide (g_ch q = g_ch p ∧ g_lun q = g_lun p)) as [[E1 E2]|E].
  - cbn -[rd]. rewrite (rd_wr _ _ _ _ _ Hw).
    assert (Hlq : get_lun s q = Some l) by (unfold get_lun, get_ch in *; by rewrite E1, E2).
    rewrite Hlq. cbn -[rd]. destruct (decide (g_pl p = g_pl q)) as [E3|E3].
    + cbn -[rd]. rewrite (rd_wr (blk x) _ (g_blk p) (g_blk q) b) by (by apply wr_in_range).
      rewrite <- E3, Hx. cbn -[rd]. destruct (decide (g_blk p = g_blk q)).
      * by rewrite decide_True by congruence.
      * by rewrite decide_False by congruence.
    + by rewrite decide_False by congruence.
  - by rewrite decide_False by (intros [= ? ? ? ?]; naive_solver).
Qed.

Lemma get_blk_key s p q : bkey q = bkey p → get_blk s q = get_blk s p.
Proof. unfold get_blk, get_pl, get_lun, get_ch. by intros [= -> -> -> ->]. Qed.

Lemma get_pg_key s p q : pkey q = pkey p → get_pg s q = get_pg s p.
Proof.
  intros E. assert (Hb : bkey q = bkey p) by (by injection E; unfold bkey; congruence).
  unfold get_pg. rewrite (get_blk_key s p q Hb). by injection E as _ _ _ _ ->.
Qed.

(** Blocks keep their number of pages. *)
Definition shape (s s' : ssd) : Prop :=
  ∀ q, length ∘ pg <$> get_blk s' q = length ∘ pg <$> get_blk s q.

Lemma shape_trans s1 s2 s3 : shape s1 s2 → shape s2 s3 → shape s1 s3.
Proof. intros H1 H2 q. by rewrite H2, H1. Qed.

Lemma frame_trans s1 s2 s3 : frame s1 s2 → frame s2 s3 → frame s1 s3.
Proof. unfold frame. intuition congruence. Qed.

Lemma set_pg_spec s p x0 x :
  get_pg s p = Some x0 →
  ∃ s', set_pg s p x = Some s' ∧ frame s s' ∧ shape s s'
    ∧ (∀ q, get_pg s' q = if decide (pkey q = pkey p) then Some x else get_pg s q).
Proof.
  unfold get_pg, set_pg. intros Hx. apply bind_Some in Hx as (b & Hb & Hx).
  rewrite Hb. cbn -[wr set_blk]. pose proof (rd_lt _ _ _ Hx) as Hxr.
  destruct (wr (pg b) (g_pg p) x) as [xs|] eqn:Hw; [|by rewrite wr_in_range in Hw].
  cbn -[set_blk]. destruct (set_blk_spec s p b (b <| pg := xs |>) Hb) as (s' & -> & Hf & _ & Hg).
  exists s'. split; [done|]. split; [done|]. split.
  - intros q. rewrite Hg. case_decide as E; [|done].
    rewrite (get_blk_key s p q E), Hb. simpl. by rewrite (wr_length _ _ _ _ Hw).
  - intros q. rewrite Hg. unfold pkey. destruct (decide (bkey q = bkey p)) as [E|E].
    + rewrite (get_blk_key s p q E), Hb. cbn -[rd].
      rewrite (rd_wr _ _ _ _ _ Hw). destruct (decide (g_pg p = g_pg q)).
      * by rewrite decide_True by congruence.
      * by rewrite decide_False by congruence.
    + by rewrite decide_False by congruence.
Qed.

(** Changing the counters of a block. *)
Lemma set_blk_counters s p b b' :
  get_blk s p = Some b → pg b' = pg b →
  ∃ s', set_blk s p b' = Some s' ∧ frame s s' ∧ shape s s' ∧ ∀ q, get_pg s' q = get_pg s q.
Proof.
  intros Hb Hpg. destruct (set_blk_spec s p b b' Hb) as (s' & Hs & Hf & _ & Hg).
  exists s'. split_and!; try done.
  - intros q. rewrite Hg. case_decide as E; [|done].
    rewrite (get_blk_key s p q E), Hb. simpl. by rewrite Hpg.
  - intros q. unfold get_pg. rewrite Hg. case_decide as E; [|done].
    rewrite (get_blk_key s p q E), Hb. simpl. by rewrite Hpg.
Qed.

(** Marking one page: its status, then the counters of its block. *)
Lemma mark_spec s p x v (f : nand_block → nand_block) :
  get_pg s p = Some x → (∀ b, pg (f b) = pg b) →
  ∃ s1 b s2, set_pg s p (x <| status := v |>) = Some s1 ∧ get_blk s1 p = Some b
    ∧ set_blk s1 p (f b) = Some s2 ∧ frame s s2 ∧ shape s s2
    ∧ ∀ q, st s2 q = if decide (pkey q = pkey p) then Some v else st s q.
Proof.
  intros Hx Hf. destruct (set_pg_spec s p x (x <| status := v |>) Hx) as (s1 & Hs1 & F1 & S1 & G1).
  assert (Hb : ∃ b, get_blk s1 p = Some b).
  { specialize (G1 p). rewrite decide_True in G1 by done. unfold get_pg in G1.
    destruct (get_blk s1 p); [by eauto|done]. }
  destruct Hb as [b Hb]. destruct (set_blk_counters s1 p b (f b) Hb (Hf b)) as (s2 & Hs2 & F2 & S2 & G2).
  exists s1, b, s2. split_and!; try done.
  - by eapply frame_trans.
  - by eapply shape_trans.
  - intros q. unfold st. rewrite G2, G1. by case_decide.
Qed.

(** Advancing the clock of a die leaves pages alone. *)
Lemma set_lun_time s p l l' :
  get_lun s p = Some l → pl l' = pl l →
  ∃ s', set_lun s p l' = Some s' ∧ frame s s' ∧ shape s s' ∧ ∀ q, get_pg s' q = get_pg s q.
Proof.
  intros Hl Hpl. destruct (set_lun_spec s p l l' Hl) as (s' & Hs & Hf & _ & Hg).
  assert (Hb : ∀ q, get_blk s' q = get_blk s q).
  { intros q. unfold get_blk, get_pl. rewrite Hg. case_decide as E; [|done].
    destruct E as [E1 E2]. assert (Hq : get_lun s q = Some l).
    { revert Hl. unfold get_lun, get_ch. by rewrite E1, E2. }
    rewrite Hq. simpl. by rewrite Hpl. }
  exists s'. split_and!; try done.
  - intros q. by rewrite Hb.
  - intros q. unfold get_pg. by rewrite Hb.
Qed.

Lemma get_lun_of_pg s p x : get_pg s p = Some x → ∃ l, get_lun s p = Some l.
Proof.
  unfold get_pg, get_blk, get_pl. intros H. apply bind_Some in H as (b & H & _).
  apply bind_Some in H as (y & H & _). apply bind_Some in H as (l & H & _). eauto.
Qed.

Lemma advance_status_spec clock s p c x :
  get_pg s p = Some x →
  ∃ s' lat, ssd_advance_status clock s p c = Some (s', lat) ∧ frame s s' ∧ shape s s'
    ∧ ∀ q, get_pg s' q = get_pg s q.
Proof.
  intros (l & Hl)%get_lun_of_pg. unfold ssd_advance_status.
  set (sc := if stime c =? 0 then _ else _).
  assert (Hsc : frame s sc.1 ∧ (∀ q, get_lun sc.1 q = get_lun s q) ∧ ∀ q, get_blk sc.1 q = get_blk s q)
    by (subst sc; by destruct (stime c =? 0)).
  destruct sc as [s0 t]. cbn [fst] in Hsc. destruct Hsc as (F0 & L0 & B0).
  rewrite L0, Hl. cbn -[set_lun].
  set (l' := l <| next_lun_avail_time := _ |>).
  destruct (set_lun_time s0 p l l') as (s' & -> & F & S & G); [by rewrite L0|done|].
  cbn. do 2 eexists. split; [done|]. split_and!.
  - by eapply frame_trans.
  - eapply shape_trans; [|done]. intros q. by rewrite B0.
  - intros q. rewrite G. unfold get_pg. by rewrite B0.
Qed.
