(* ===== verification/BbFtlInv.v ===== *)
(** * The invariant of the black-box FTL

    [page_at b k] names the pages of line [b] in the order of the write pointer.
    [finv] relates the tables, the pages, the write pointer and the line lists
    of [BbFtl]; it has parameters for what is in flight: the line being
    collected, the logical page that has been taken off its page, and a page
    programmed before the pointer moves.  Every step is shown to succeed and to
    keep it: programming a page, advancing the pointer, invalidating a page,
    collecting a line, then whole requests; [ssd_init] establishes it. *)

From S2P Require Import Prelude Pqueue BbFtl.

(** ** Pages of a line

    The write pointer visits the pages of a line in the order channel, die,
    page; [page_at b k] is the [k]-th page of line [b] in that order. *)

Record geo_ok (g : ssdparams) : Prop := {
  go_ch : 1 ≤ nchs g ≤ 128;
  go_lun : 1 ≤ luns_per_ch g ≤ 256;
  go_pg : 1 ≤ pgs_per_blk g ≤ 65536;
  go_blk : 2 ≤ blks_per_pl g ≤ 65536;
  go_pl : pls_per_lun g = 1;
  go_sec : 1 ≤ secs_per_pg g;
  go_ppl : pgs_per_pl g = pgs_per_blk g * blks_per_pl g;
  go_plun : pgs_per_lun g = pgs_per_blk g * blks_per_pl g;
  go_pch : pgs_per_ch g = pgs_per_blk g * blks_per_pl g * luns_per_ch g;
  go_tt : tt_pgs g = pgs_per_blk g * blks_per_pl g * luns_per_ch g * nchs g;
  go_line : pgs_per_line g = luns_per_ch g * nchs g * pgs_per_blk g;
  go_lines : tt_lines g = blks_per_pl g
}.

(** The address with the given coordinates. *)
Definition at_coord (b c l g : Z) : ppa :=
  {| g_blk := b; g_pg := g; g_sec := 0; g_pl := 0; g_lun := l; g_ch := c; g_rsv := 0 |}.

Definition page_at (g : ssdparams) (b k : Z) : ppa :=
  at_coord b (k mod nchs g) ((k / nchs g) mod luns_per_ch g) (k / nchs g / luns_per_ch g).

(** [page_at] at the coordinates of the write order. *)
Definition offset (g : ssdparams) (c l p : Z) : Z := (p * luns_per_ch g + l) * nchs g + c.

Definition in_geo (g : ssdparams) (b k : Z) : Prop := 0 ≤ b < blks_per_pl g ∧ 0 ≤ k < pgs_per_line g.

Section geometry.
Context (g : ssdparams).
Hypothesis Hg : geo_ok g.

Lemma page_at_offset b c l p :
  0 ≤ c < nchs g → 0 ≤ l < luns_per_ch g → 0 ≤ p →
  page_at g b (offset g c l p) = at_coord b c l p.
Proof using Hg.
  intros Hc Hl Hp. unfold page_at, offset. f_equal.
  - rewrite Z.add_comm, Z.mod_add by lia. apply Z.mod_small. lia.
  - rewrite Z.div_add_l, (Z.div_small c) by lia. rewrite Z.add_0_r, Z.add_comm, Z.mod_add by lia.
    apply Z.mod_small. lia.
  - rewrite Z.div_add_l, (Z.div_small c) by lia. rewrite Z.add_0_r, Z.div_add_l, (Z.div_small l) by lia.
    lia.
Qed.

Lemma offset_range c l p :
  0 ≤ c < nchs g → 0 ≤ l < luns_per_ch g → 0 ≤ p < pgs_per_blk g →
  0 ≤ offset g c l p < pgs_per_line g.
Proof using Hg.
  intros Hc Hl Hp. destruct Hg. unfold offset. rewrite go_line0.
  assert (0 ≤ p * luns_per_ch g + l < pgs_per_blk g * luns_per_ch g) by nia. nia.
Qed.

(** Every page of a line has coordinates in range. *)
Lemma page_coords k :
  0 ≤ k < pgs_per_line g →
  0 ≤ k mod nchs g < nchs g ∧ 0 ≤ (k / nchs g) mod luns_per_ch g < luns_per_ch g
  ∧ 0 ≤ k / nchs g / luns_per_ch g < pgs_per_blk g
  ∧ offset g (k mod nchs g) ((k / nchs g) mod luns_per_ch g) (k / nchs g / luns_per_ch g) = k.
Proof using Hg.
  intros Hk. destruct Hg. rewrite go_line0 in Hk.
  pose proof (Z.mod_pos_bound k (nchs g)). pose proof (Z.mod_pos_bound (k / nchs g) (luns_per_ch g)).
  pose proof (Z.div_mod k (nchs g)). pose proof (Z.div_mod (k / nchs g) (luns_per_ch g)).
  split_and!; try lia.
  - apply Z.div_pos; [apply Z.div_pos|]; lia.
  - apply Z.div_lt_upper_bound; [lia|]. apply Z.div_lt_upper_bound; nia.
  - unfold offset. nia.
Qed.

Lemma page_at_inj b k b' k' :
  0 ≤ k < pgs_per_line g → 0 ≤ k' < pgs_per_line g →
  pkey (page_at g b k) = pkey (page_at g b' k') → b = b' ∧ k = k'.
Proof using Hg.
  intros Hk Hk' E. unfold page_at, at_coord, pkey, bkey in E. simpl in E. injection E as E1 E2 E3 E4.
  split; [done|]. destruct (page_coords k Hk) as (_ & _ & _ & <-).
  destruct (page_coords k' Hk') as (_ & _ & _ & <-). by rewrite E1, E2, E4.
Qed.

Lemma page_at_rsv b k : g_rsv (page_at g b k) = 0.
Proof. done. Qed.

Lemma page_mapped b k : in_geo g b k → mapped_ppa (page_at g b k) = true.
Proof using Hg.
  intros [Hb Hk]. destruct (page_coords k Hk) as (H1 & H2 & H3 & _). destruct Hg.
  unfold mapped_ppa, page_at, at_coord, ppa_word, UNMAPPED_WORD. simpl.
  rewrite !Z.shiftl_mul_pow2 by lia. apply negb_true_iff, Z.eqb_neq. lia.
Qed.

Lemma unmapped_word : mapped_ppa UNMAPPED_PPA = false.
Proof. done. Qed.

(** The index of a page in the reverse map. *)
Definition idx (p : ppa) : Z :=
  ((g_ch p * luns_per_ch g + g_lun p) * blks_per_pl g + g_blk p) * pgs_per_blk g + g_pg p.

Lemma idx_range b k : in_geo g b k → 0 ≤ idx (page_at g b k) < tt_pgs g.
Proof using Hg.
  intros [Hb Hk]. destruct (page_coords k Hk) as (H1 & H2 & H3 & _). destruct Hg.
  unfold idx, page_at, at_coord. simpl. rewrite go_tt0.
  set (c := k mod nchs g) in *. set (l := (k / nchs g) mod luns_per_ch g) in *.
  set (p := k / nchs g / luns_per_ch g) in *. clearbody c l p.
  assert (c * luns_per_ch g + l < nchs g * luns_per_ch g) by nia.
  assert ((c * luns_per_ch g + l) * blks_per_pl g + b < nchs g * luns_per_ch g * blks_per_pl g) by nia.
  nia.
Qed.

Lemma mixed_radix_inj n x y x' y' :
  0 ≤ y < n → 0 ≤ y' < n → x * n + y = x' * n + y' → x = x' ∧ y = y'.
Proof. intros. assert (x = x') by nia. subst. lia. Qed.

Lemma offset_inj c l p c' l' p' :
  0 ≤ c < nchs g → 0 ≤ c' < nchs g → 0 ≤ l < luns_per_ch g → 0 ≤ l' < luns_per_ch g →
  offset g c l p = offset g c' l' p' → c = c' ∧ l = l' ∧ p = p'.
Proof.
  unfold offset. intros Hc Hc' Hl Hl' E. apply mixed_radix_inj in E as [E Ec]; [|done..].
  by apply mixed_radix_inj in E as [Ep El].
Qed.

Lemma idx_inj b k b' k' :
  in_geo g b k → in_geo g b' k' → idx (page_at g b k) = idx (page_at g b' k') → b = b' ∧ k = k'.
Proof using Hg.
  intros [Hb Hk] [Hb' Hk'] E. destruct (page_coords k Hk) as (H1 & H2 & H3 & Hk1).
  destruct (page_coords k' Hk') as (H1' & H2' & H3' & Hk1').
  unfold idx, page_at, at_coord in E. simpl in E.
  apply mixed_radix_inj in E as [E Ep]; [|done..]. apply mixed_radix_inj in E as [E Eb]; [|done..].
  apply mixed_radix_inj in E as [Ec El]; [|done..].
  split; [done|]. rewrite <- Hk1, <- Hk1'. by rewrite Ec, El, Ep.
Qed.

Lemma ppa2pgidx_eq s b k : sp s = g → in_geo g b k →
  ppa2pgidx s (page_at g b k) = idx (page_at g b k).
Proof using Hg.
  intros Hsp Hin. pose proof (idx_range b k Hin) as Hr. unfold ppa2pgidx. rewrite Hsp.
  destruct Hg. rewrite go_pch0, go_plun0, go_ppl0. rewrite u64_small.
  - unfold idx, page_at, at_coord. simpl. lia.
  - assert (tt_pgs g ≤ 65536 * 65536 * 256 * 128).
    { rewrite go_tt0. apply Z.mul_le_mono_nonneg; [nia| |lia|lia].
      apply Z.mul_le_mono_nonneg; [nia| |lia|lia]. nia. }
    unfold idx, page_at, at_coord in Hr |- *. simpl in Hr |- *. lia.
Qed.
End geometry.

(** ** The invariant *)

(** How many pages of a line have the status [v]. *)
Definition cnt (g : ssdparams) (f : Z → option Z) (v : Z) : Z :=
  Z.of_nat (length (filter (λ k, f k = Some v) (seqZ 0 (pgs_per_line g)))).

Lemma filter_length_update (l : list Z) (f f' : Z → option Z) k0 v :
  NoDup l → k0 ∈ l → (∀ k, k ∈ l → k ≠ k0 → f' k = f k) →
  Z.of_nat (length (filter (λ k, f' k = Some v) l))
  = Z.of_nat (length (filter (λ k, f k = Some v) l))
    + b2z (bool_decide (f' k0 = Some v)) - b2z (bool_decide (f k0 = Some v)).
Proof.
  intros Hnd Hin Hf. induction l as [|k l IH]; [by apply elem_of_nil in Hin|].
  apply NoDup_cons in Hnd as [Hk Hnd]. rewrite !filter_cons.
  destruct (decide (k = k0)) as [->|Hne].
  - assert (Heq : filter (λ k, f' k = Some v) l = filter (λ k, f k = Some v) l).
    { apply list_filter_ext. intros k Hkl. rewrite Hf; [done|by right|].
      intros ->. done. }
    rewrite Heq. repeat case_decide; case_bool_decide; case_bool_decide; simpl; try done; lia.
  - apply elem_of_cons in Hin as [->|Hin]; [done|]. rewrite Hf by (done || left).
    specialize (IH Hnd Hin ltac:(intros; apply Hf; [by right|done])). repeat case_decide; cbn [length]; try done; lia.
Qed.

Lemma cnt_update g f f' k0 v :
  0 ≤ k0 < pgs_per_line g → (∀ k, 0 ≤ k < pgs_per_line g → k ≠ k0 → f' k = f k) →
  cnt g f' v = cnt g f v + b2z (bool_decide (f' k0 = Some v)) - b2z (bool_decide (f k0 = Some v)).
Proof.
  intros Hk Hf. apply filter_length_update; [apply NoDup_seqZ|by apply elem_of_seqZ; lia|].
  intros k Hkr%elem_of_seqZ. apply Hf. lia.
Qed.

Lemma cnt_ext g f f' v :
  (∀ k, 0 ≤ k < pgs_per_line g → f' k = f k) → cnt g f' v = cnt g f v.
Proof.
  intros Hf. unfold cnt. do 2 f_equal. apply list_filter_ext.
  intros k Hk%elem_of_seqZ. by rewrite Hf by lia.
Qed.

Lemma cnt_le g f v : 0 ≤ pgs_per_line g → 0 ≤ cnt g f v ≤ pgs_per_line g.
Proof.
  intros Hg. unfold cnt. pose proof (length_filter (λ k, f k = Some v) (seqZ 0 (pgs_per_line g))) as H.
  rewrite length_seqZ in H. lia.
Qed.

Lemma cnt_lt g f v k :
  0 ≤ k < pgs_per_line g → f k ≠ Some v → cnt g f v < pgs_per_line g.
Proof.
  intros Hk Hf. unfold cnt.
  pose proof (length_filter_lt (λ k, f k = Some v) (seqZ 0 (pgs_per_line g)) k) as H.
  rewrite length_seqZ in H. specialize (H ltac:(apply elem_of_seqZ; lia) Hf). lia.
Qed.

Lemma cnt_pos g f v k : 0 ≤ k < pgs_per_line g → f k = Some v → 1 ≤ cnt g f v.
Proof.
  intros Hk Hf. unfold cnt.
  assert (Hin : k ∈ filter (λ k, f k = Some v) (seqZ 0 (pgs_per_line g)))
    by (apply list_elem_of_filter; split; [done|apply elem_of_seqZ; lia]).
  destruct (filter _ _); [by apply elem_of_nil in Hin|simpl; lia].
Qed.

Lemma cnt_split g f u v :
  u ≠ v → 0 ≤ pgs_per_line g → (∀ k, 0 ≤ k < pgs_per_line g → f k = Some u ∨ f k = Some v) →
  cnt g f u + cnt g f v = pgs_per_line g.
Proof.
  intros Huv Hg Hf. unfold cnt.
  rewrite <- (Z2Nat.id (pgs_per_line g)) at 3 by lia. rewrite <- (length_seqZ 0) at 1.
  assert (Hall : Forall (λ k, f k = Some u ∨ f k = Some v) (seqZ 0 (pgs_per_line g)))
    by (apply Forall_forall; intros k Hk%elem_of_seqZ; apply Hf; lia).
  induction Hall as [|k l Hk Hall IH]; [done|]. rewrite !filter_cons.
  destruct Hk as [Hk|Hk]; rewrite Hk; repeat case_decide; simplify_eq; simpl; lia.
Qed.

(** The line being collected and its pages still to be looked at, if any. *)
Definition gcst := option (nat * gset Z).
Definition tracked (gc : gcst) (b k : Z) : Prop :=
  match gc with None => True | Some (a, todo) => b = Z.of_nat a → k ∈ todo end.
Definition gc_lines (gc : gcst) : list nat := match gc with None => [] | Some (a, _) => [a] end.

(** The position of the write pointer in its line. *)
Definition off (s : ssd) : Z := offset (sp s) (wp_ch (wp s)) (wp_lun (wp s)) (wp_pg (wp s)).

(** The [k]-th page of a line, and its status. *)
Definition page (s : ssd) (b k : Z) : ppa := page_at (sp s) b k.
Definition pst (s : ssd) (b k : Z) : option Z := st s (page s b k).

Definition cur (s : ssd) : nat := curline (wp s).

Record wp_ok (s : ssd) : Prop := {
  wo_ch : 0 ≤ wp_ch (wp s) < nchs (sp s);
  wo_lun : 0 ≤ wp_lun (wp s) < luns_per_ch (sp s);
  wo_pg : 0 ≤ wp_pg (wp s) < pgs_per_blk (sp s);
  wo_pl : wp_pl (wp s) = 0;
  wo_blk : wp_blk (wp s) = Z.of_nat (cur s)
}.

(** The invariant in four parts.  [gc]: the collection in progress.  [ex]: a
    logical page that is being written and has no page for the moment.  [d]:
    pages programmed since the write pointer last moved. *)

(** The arrays have their dimensions. *)
Record dim_inv (s : ssd) : Prop := {
  fi_geo : geo_ok (sp s);
  fi_mlen : Z.of_nat (length (maptbl s)) = tt_pgs (sp s);
  fi_rlen : Z.of_nat (length (rmap s)) = tt_pgs (sp s);
  fi_llen : length (lines (lm s)) = Z.to_nat (blks_per_pl (sp s));
  fi_blk : ∀ b k, in_geo (sp s) b k →
    ∃ x, get_blk s (page s b k) = Some x ∧ Z.of_nat (length (pg x)) = pgs_per_blk (sp s);
  fi_st : ∀ b k, in_geo (sp s) b k →
    pst s b k = Some PG_FREE ∨ pst s b k = Some PG_INVALID ∨ pst s b k = Some PG_VALID
}.

(** [maptbl] and [rmap] are inverse to each other on the valid pages. *)
Record map_inv (s : ssd) (gc : gcst) (ex : option Z) : Prop := {
  fi_map : ∀ lpn p, rd (maptbl s) lpn = Some p → ex ≠ Some lpn →
    p = UNMAPPED_PPA ∨ ∃ b k, in_geo (sp s) b k ∧ tracked gc b k ∧ p = page s b k
      ∧ pst s b k = Some PG_VALID ∧ rd (rmap s) (idx (sp s) p) = Some lpn;
  fi_rmap : ∀ b k, in_geo (sp s) b k → tracked gc b k → pst s b k = Some PG_VALID →
    ∃ lpn, ex ≠ Some lpn ∧ rd (rmap s) (idx (sp s) (page s b k)) = Some lpn
      ∧ rd (maptbl s) lpn = Some (page s b k)
}.

(** The pages of the current line are free from the write pointer on. *)
Record ptr_inv (s : ssd) (d : Z) : Prop := {
  fi_wp : wp_ok s;
  fi_cur : ∀ k, 0 ≤ k < pgs_per_line (sp s) →
    (pst s (Z.of_nat (cur s)) k = Some PG_FREE ↔ off s + d ≤ k)
}.

(** Every line: the current one, those being collected, free, victim, full. *)
Definition all_lines (s : ssd) (gc : gcst) : list nat :=
  cur s :: gc_lines gc ++ free_line_list (lm s)
    ++ elems (victim_line_pq (lm s)) ++ full_line_list (lm s).

(** What the line lists promise, without the pages. *)
Record lists_ok (g : ssdparams) (m : line_mgmt) : Prop := {
  ls_vcnt : victim_line_cnt m = Z.of_nat (length (elems (victim_line_pq m)));
  ls_ucnt : full_line_cnt m = Z.of_nat (length (full_line_list m));
  ls_full : ∀ a l, a ∈ full_line_list m → lines m !! a = Some l → l_vpc l = pgs_per_line g;
  ls_vic : ∀ a l, a ∈ elems (victim_line_pq m) → lines m !! a = Some l → l_vpc l < pgs_per_line g;
  ls_pq : pq_wf (lines m) (victim_line_pq m);
  ls_avail : q_avail (victim_line_pq m) = blks_per_pl g + 1
}.

Record line_inv (s : ssd) (gc : gcst) : Prop := {
  fi_free : ∀ a k, a ∈ free_line_list (lm s) → 0 ≤ k < pgs_per_line (sp s) →
    pst s (Z.of_nat a) k = Some PG_FREE;
  fi_used : ∀ a k, a ∈ elems (victim_line_pq (lm s)) ++ full_line_list (lm s) →
    0 ≤ k < pgs_per_line (sp s) → pst s (Z.of_nat a) k ≠ Some PG_FREE;
  fi_part : all_lines s gc ≡ₚ seq 0 (Z.to_nat (blks_per_pl (sp s)));
  fi_fcnt : free_line_cnt (lm s) = Z.of_nat (length (free_line_list (lm s)));
  fi_id : ∀ a l, lines (lm s) !! a = Some l → l_id l = Z.of_nat a;
  fi_vpc : ∀ a l, lines (lm s) !! a = Some l → a ∉ gc_lines gc →
    l_vpc l = cnt (sp s) (pst s (Z.of_nat a)) PG_VALID;
  fi_ipc : ∀ a l, lines (lm s) !! a = Some l → a ∉ gc_lines gc →
    l_ipc l = cnt (sp s) (pst s (Z.of_nat a)) PG_INVALID;
  fi_lists : lists_ok (sp s) (lm s)
}.

Record finv (s : ssd) (gc : gcst) (ex : option Z) (d : Z) : Prop := {
  fi_dims :> dim_inv s;
  fi_maps :> map_inv s gc ex;
  fi_ptr :> ptr_inv s d;
  fi_lines :> line_inv s gc
}.

(** Pages that can be programmed before a free line is missing. *)
Definition avail (s : ssd) : Z :=
  pgs_per_line (sp s) - 1 - off s
  + pgs_per_line (sp s) * Z.of_nat (length (free_line_list (lm s))).

Section steps.
Context (realloc_ok : bool) (clock : nat → Z).
Implicit Types (s : ssd) (gc : gcst).

Lemma line_in_range s gc a :
  dim_inv s → line_inv s gc → a ∈ all_lines s gc →
  0 ≤ Z.of_nat a < blks_per_pl (sp s) ∧ is_Some (lines (lm s) !! a).
Proof.
  intros Hd Hi Ha. rewrite (fi_part _ _ Hi) in Ha. apply elem_of_seq in Ha.
  pose proof (go_blk _ (fi_geo _ Hd)). split; [lia|].
  apply lookup_lt_is_Some. rewrite (fi_llen _ Hd). lia.
Qed.

Lemma cur_in_geo s gc ex d : finv s gc ex d → in_geo (sp s) (Z.of_nat (cur s)) (off s).
Proof.
  intros [Hd _ Hp Hl]. split.
  - eapply (line_in_range s gc); [done|done|left].
  - destruct (fi_wp _ _ Hp). by apply offset_range; [apply Hd|..].
Qed.

Lemma new_page_eq s gc ex d :
  finv s gc ex d → get_new_page s = page s (Z.of_nat (cur s)) (off s).
Proof.
  intros Hi. destruct (cur_in_geo _ _ _ _ Hi) as [Hb _].
  pose proof (fi_geo _ Hi) as Hg. destruct (fi_wp _ _ Hi).
  unfold page, off. rewrite page_at_offset by (done || lia).
  unfold get_new_page, at_coord, BLK_BITS, PG_BITS, PL_BITS, LUN_BITS, CH_BITS.
  destruct Hg. rewrite wo_blk0, wo_pl0. rewrite !Z.mod_small by lia. done.
Qed.

Lemma pst_page s b k x : pst s b k = Some x → ∃ y, get_pg s (page s b k) = Some y ∧ status y = x.
Proof. unfold pst, st. intros (y & Hy & Hx)%fmap_Some. eauto. Qed.

Lemma get_pg_Some s b k : dim_inv s → in_geo (sp s) b k → ∃ y, get_pg s (page s b k) = Some y.
Proof.
  intros Hi Hin. destruct (fi_st _ Hi b k Hin) as [H|[H|H]];
    apply pst_page in H as (y & Hy & _); eauto.
Qed.

Lemma mark_page_valid_spec s p x l :
  get_pg s p = Some x → lines (lm s) !! get_line s p = Some l →
  ∃ s', mark_page_valid s p = Some s' ∧ sp s' = sp s ∧ maptbl s' = maptbl s ∧ rmap s' = rmap s
    ∧ wp s' = wp s ∧ shape s s'
    ∧ lm s' = (lm s) <| lines := <[get_line s p := l <| l_vpc ::= Z.succ |>]> (lines (lm s)) |>
    ∧ ∀ q, st s' q = if decide (pkey q = pkey p) then Some PG_VALID else st s q.
Proof.
  intros Hx Hl. unfold mark_page_valid. rewrite Hx. cbn -[set_pg set_blk].
  destruct (mark_spec s p x PG_VALID (λ b, b <| b_vpc ::= Z.succ |>) Hx)
    as (s1 & b & s2 & -> & Hb & H2 & (F1 & F2 & F3 & F4 & F5) & Hsh & Hst); [done|].
  cbn -[set_blk]. rewrite Hb. cbn -[set_blk]. rewrite H2. cbn. unfold line_at, get_line in *.
  rewrite F5, Hl. cbn. eexists. split; [done|].
  split_and!; [done|done|done|done|done|by simpl; rewrite F5|done].
Qed.

(** The status of one page of a line changes. *)
Definition pst_upd s s' (b0 k0 v : Z) : Prop :=
  ∀ b k, in_geo (sp s) b k →
    pst s' b k = if decide (b = b0 ∧ k = k0) then Some v else pst s b k.

Lemma pst_upd_intro s s' b0 k0 v :
  geo_ok (sp s) → sp s' = sp s → in_geo (sp s) b0 k0 →
  (∀ q, st s' q = if decide (pkey q = pkey (page s b0 k0)) then Some v else st s q) →
  pst_upd s s' b0 k0 v.
Proof.
  intros Hg Hsp [Hb0 Hk0] Hst b k [Hb Hk]. unfold pst, page. rewrite Hsp, Hst. case_decide as E.
  - apply (page_at_inj _ Hg) in E as [-> ->]; [|done..]. by rewrite decide_True.
  - rewrite decide_False; [done|]. intros [-> ->]. by apply E.
Qed.

Lemma pst_upd_cnt s s' b0 k0 v b w :
  pst_upd s s' b0 k0 v → in_geo (sp s) b0 k0 → 0 ≤ b < blks_per_pl (sp s) →
  cnt (sp s) (pst s' b) w = if decide (b = b0)
    then cnt (sp s) (pst s b) w + b2z (bool_decide (v = w)) - b2z (bool_decide (pst s b0 k0 = Some w))
    else cnt (sp s) (pst s b) w.
Proof.
  intros Hu [Hb0 Hk0] Hb. case_decide as E.
  - subst b. rewrite (cnt_update _ (pst s b0) (pst s' b0) k0 w Hk0).
    + rewrite (Hu b0 k0) by (split; done). rewrite decide_True by done.
      do 3 f_equal. apply bool_decide_ext. naive_solver.
    + intros k Hk Hne. rewrite (Hu b0 k) by (split; done). by rewrite decide_False by naive_solver.
  - apply cnt_ext. intros k Hk. rewrite (Hu b k) by (split; done). by rewrite decide_False by naive_solver.
Qed.

Lemma all_lines_nodup s gc : line_inv s gc → NoDup (all_lines s gc).
Proof. intros Hi. rewrite (fi_part _ _ Hi). apply NoDup_seq. Qed.

Lemma cur_not_listed s gc :
  line_inv s gc → cur s ∉ gc_lines gc ∧ cur s ∉ free_line_list (lm s)
    ∧ cur s ∉ elems (victim_line_pq (lm s)) ∧ cur s ∉ full_line_list (lm s).
Proof.
  intros Hnd%all_lines_nodup. apply NoDup_cons in Hnd as [Hn _]. set_solver.
Qed.

Lemma cur_tracked s gc k : line_inv s gc → tracked gc (Z.of_nat (cur s)) k.
Proof.
  intros (Hn & _)%cur_not_listed. destruct gc as [[a todo]|]; [|done]. intros E. exfalso.
  apply Hn. assert (cur s = a) as -> by lia. left.
Qed.

Lemma pq_wf_lines (ls ls' : list line) q :
  (∀ a, l_pos <$> ls' !! a = l_pos <$> ls !! a) → pq_wf ls q → pq_wf ls' q.
Proof.
  intros Hpos [? ? ? ? Hlive Hp]. split; try done.
  - intros x Hx%Hlive. simpl in *. specialize (Hpos x). destruct Hx as [l Hl].
    rewrite Hl in Hpos. destruct (ls' !! x); [by eauto|done].
  - intros j x Hj Hx. simpl. unfold victim_line_get_pos. rewrite Hpos. by apply Hp.
Qed.

Lemma insert_line_pos (ls : list line) a l l' :
  ls !! a = Some l → l_pos l' = l_pos l → ∀ b, l_pos <$> <[a := l']> ls !! b = l_pos <$> ls !! b.
Proof.
  intros Hl Hp b. destruct (decide (a = b)) as [<-|]; [|by rewrite list_lookup_insert_ne].
  rewrite list_lookup_insert_eq by (by eapply lookup_lt_Some). rewrite Hl. simpl. by rewrite Hp.
Qed.

(** Dimensions survive changes that keep lengths and page counts. *)
Lemma dim_inv_upd s s' b0 k0 v :
  dim_inv s → sp s' = sp s → length (maptbl s') = length (maptbl s) →
  length (rmap s') = length (rmap s) → length (lines (lm s')) = length (lines (lm s)) →
  shape s s' → pst_upd s s' b0 k0 v → v = PG_FREE ∨ v = PG_INVALID ∨ v = PG_VALID →
  dim_inv s'.
Proof.
  intros [Hg Hm Hr Hl Hb Hst] Esp E1 E2 E3 Hsh Hu Hv.
  split; rewrite ?Esp, ?E1, ?E2, ?E3; try done.
  - intros b k Hin. unfold page. rewrite Esp. destruct (Hb b k Hin) as (y & Hy & Hyl).
    specialize (Hsh (page s b k)). rewrite Hy in Hsh.
    change (page_at (sp s) b k) with (page s b k).
    destruct (get_blk s' (page s b k)) as [y'|]; [|done]. exists y'. split; [done|].
    by injection Hsh as ->.
  - intros b k Hin. rewrite Hu by done. case_decide; [naive_solver|by apply Hst].
Qed.

(** The new page becomes the place of the detached logical page. *)
Lemma map_inv_program s s' gc lpn b0 k0 (p := page s b0 k0) :
  geo_ok (sp s) → map_inv s gc (Some lpn) → in_geo (sp s) b0 k0 → tracked gc b0 k0 →
  pst s b0 k0 = Some PG_FREE → sp s' = sp s → pst_upd s s' b0 k0 PG_VALID →
  (∀ j, rd (maptbl s') j = if decide (lpn = j) then Some p else rd (maptbl s) j) →
  (∀ j, rd (rmap s') j = if decide (idx (sp s) p = j) then Some lpn else rd (rmap s) j) →
  map_inv s' gc None.
Proof.
  intros Hg [Hmap Hrmap] Hin Htr Hfr Esp Hu Hm Hr.
  assert (Epage : ∀ b k, page s' b k = page s b k) by (intros; unfold page; by rewrite Esp).
  assert (Hother : ∀ b k, in_geo (sp s) b k → pst s b k = Some PG_VALID →
    pst s' b k = Some PG_VALID ∧ idx (sp s) p ≠ idx (sp s) (page s b k)).
  { intros b k Hbk Hv. assert (Hne : ¬ (b = b0 ∧ k = k0)) by (intros [-> ->]; by rewrite Hfr in Hv).
    split; [by rewrite Hu, decide_False|]. intros E. apply Hne.
    destruct (idx_inj _ Hg b0 k0 b k Hin Hbk E). done. }
  split; rewrite Esp.
  - intros lpn' p' Hp' _. rewrite Hm in Hp'. destruct (decide (lpn = lpn')) as [<-|Hne].
    + injection Hp' as <-. right. exists b0, k0. split_and!; try done.
      * by rewrite Hu, decide_True.
      * by rewrite Hr, decide_True.
    + destruct (Hmap lpn' p' Hp') as [->|(b & k & Hbk & Ht & -> & Hv & Hrv)]; [congruence|by left|].
      right. exists b, k. destruct (Hother b k Hbk Hv) as [Hv' Hidx].
      rewrite Epage. split_and!; try done. by rewrite Hr, decide_False.
  - intros b k Hbk Ht Hv. rewrite Epage. rewrite Hu in Hv by done.
    destruct (decide (b = b0 ∧ k = k0)) as [[-> ->]|Hne].
    + exists lpn. rewrite Hr, Hm, !decide_True by done. done.
    + destruct (Hrmap b k Hbk Ht Hv) as (lpn' & Hex & Hrv & Hmv). exists lpn'.
      destruct (Hother b k Hbk Hv) as [_ Hidx]. rewrite Hr, Hm, !decide_False by congruence. done.
Qed.

Lemma ptr_inv_program s s' :
  ptr_inv s 0 → in_geo (sp s) (Z.of_nat (cur s)) (off s) → sp s' = sp s → wp s' = wp s →
  pst_upd s s' (Z.of_nat (cur s)) (off s) PG_VALID → ptr_inv s' 1.
Proof.
  intros [Hwp Hcur] Hin Esp Ewp Hu.
  assert (Ec : cur s' = cur s) by (unfold cur; by rewrite Ewp).
  assert (Eo : off s' = off s) by (unfold off; by rewrite Esp, Ewp).
  split; [destruct Hwp; split; by rewrite ?Esp, ?Ec, Ewp|].
  intros k Hk. rewrite Esp in Hk. rewrite Ec, Eo, Hu by (split; [apply Hin|done]).
  case_decide as E.
  - destruct E as [_ ->]. split; [done|lia].
  - rewrite Hcur by done. assert (k ≠ off s) by naive_solver. lia.
Qed.

(** One more page of the current line is valid. *)
Lemma line_inv_program s s' gc l :
  dim_inv s → line_inv s gc → in_geo (sp s) (Z.of_nat (cur s)) (off s) →
  pst s (Z.of_nat (cur s)) (off s) = Some PG_FREE → lines (lm s) !! cur s = Some l →
  sp s' = sp s → wp s' = wp s → pst_upd s s' (Z.of_nat (cur s)) (off s) PG_VALID →
  lm s' = (lm s) <| lines := <[cur s := l <| l_vpc ::= Z.succ |>]> (lines (lm s)) |> →
  line_inv s' gc.
Proof.
  intros Hd Hi Hin Hfr Hl Esp Ewp Hu E5.
  pose proof Hi as [Hfree Hused Hpart Hfc Hid Hvpc Hipc [Hvc Huc Hfull Hvic Hpq Hav]].
  assert (Ecur : cur s' = cur s) by (unfold cur; by rewrite Ewp).
  destruct (cur_not_listed _ _ Hi) as (Hng & Hncf & Hncv & Hncu).
  assert (Hne : ∀ a k, a ≠ cur s → a ∈ all_lines s gc → 0 ≤ k < pgs_per_line (sp s) →
    pst s' (Z.of_nat a) k = pst s (Z.of_nat a) k).
  { intros a k Hac Ha Hk. destruct (line_in_range s gc a Hd Hi Ha) as [Har _].
    rewrite Hu by done. by rewrite decide_False by (intros [E _]; lia). }
  assert (Hcnt : ∀ a y w, lines (lm s') !! a = Some y → PG_FREE ≠ w →
    ∃ y0, lines (lm s) !! a = Some y0 ∧ l_id y = l_id y0 ∧ l_ipc y = l_ipc y0
      ∧ l_vpc y = (if decide (a = cur s) then l_vpc y0 + 1 else l_vpc y0)
      ∧ cnt (sp s) (pst s' (Z.of_nat a)) w = cnt (sp s) (pst s (Z.of_nat a)) w
          + (if decide (a = cur s) then b2z (bool_decide (PG_VALID = w)) else 0)).
  { intros a y w. rewrite E5. simpl. intros Hy Hw.
    assert (Har : 0 ≤ Z.of_nat a < blks_per_pl (sp s)).
    { apply lookup_lt_Some in Hy. rewrite length_insert, (fi_llen _ Hd) in Hy.
      destruct (fi_geo _ Hd). lia. }
    rewrite (pst_upd_cnt s s' (Z.of_nat (cur s)) (off s) PG_VALID) by done.
    destruct (decide (a = cur s)) as [->|Hac].
    - rewrite list_lookup_insert_eq in Hy by (by eapply lookup_lt_Some). injection Hy as <-.
      exists l. rewrite decide_True, Hfr by done. rewrite (bool_decide_false (Some PG_FREE = Some w))
        by congruence. split_and!; try done; simpl; lia.
    - rewrite list_lookup_insert_ne in Hy by done. exists y. rewrite decide_False by lia.
      split_and!; try done. lia. }
  split; rewrite ?Esp; try (rewrite E5; done).
  - intros a k. rewrite E5. intros Ha Hk. rewrite Hne; [by apply Hfree| |set_solver|done].
    intros ->. done.
  - intros a k. rewrite E5. intros Ha Hk. simpl in Ha. rewrite Hne; [by apply Hused| | |done].
    + intros ->. set_solver.
    + set_solver.
  - unfold all_lines. by rewrite Ecur, E5.
  - intros a y Hy. destruct (Hcnt a y PG_VALID Hy) as (y0 & Hy0 & -> & _); [done|]. by apply Hid.
  - intros a y Hy Ha. destruct (Hcnt a y PG_VALID Hy) as (y0 & Hy0 & _ & _ & -> & ->); [done|].
    rewrite (Hvpc a y0 Hy0 Ha). case_decide; simpl; lia.
  - intros a y Hy Ha. destruct (Hcnt a y PG_INVALID Hy) as (y0 & Hy0 & _ & -> & _ & ->); [done|].
    rewrite (Hipc a y0 Hy0 Ha). case_decide; simpl; lia.
  - rewrite E5. split; simpl; try done.
    + intros a y Ha. rewrite list_lookup_insert_ne by set_solver. by apply Hfull.
    + intros a y Ha. rewrite list_lookup_insert_ne by set_solver. by apply Hvic.
    + eapply pq_wf_lines, Hpq. by eapply insert_line_pos.
Qed.

(** Programming the page at the write pointer with the detached logical page. *)
Lemma program_mark s gc lpn :
  finv s gc (Some lpn) 0 → 0 ≤ lpn < tt_pgs (sp s) →
  ∃ s1 s2 s', set_maptbl_ent s lpn (get_new_page s) = Some s1
    ∧ set_rmap_ent s1 lpn (get_new_page s) = Some s2
    ∧ mark_page_valid s2 (get_new_page s) = Some s' ∧ finv s' gc None 1
    ∧ sp s' = sp s ∧ wp s' = wp s ∧ free_line_list (lm s') = free_line_list (lm s)
    ∧ pst_upd s s' (Z.of_nat (cur s)) (off s) PG_VALID
    ∧ rd (maptbl s') lpn = Some (page s (Z.of_nat (cur s)) (off s))
    ∧ ∀ j, j ≠ lpn → rd (maptbl s') j = rd (maptbl s) j.
Proof.
  intros Hi Hlpn. rewrite (new_page_eq s gc (Some lpn) 0 Hi).
  pose proof (cur_in_geo s gc (Some lpn) 0 Hi) as Hin. destruct Hi as [Hd Hm Hp Hl].
  set (c := Z.of_nat (cur s)) in *. set (o := off s) in *. set (p := page s c o).
  pose proof (fi_geo _ Hd) as Hg. pose proof (fi_mlen _ Hd). pose proof (fi_rlen _ Hd).
  assert (Hfr : pst s c o = Some PG_FREE) by (apply (fi_cur _ _ Hp); [apply Hin|lia]).
  pose proof (idx_range (sp s) Hg c o Hin) as Hir. fold (page s c o) p in Hir.
  set (s1 := s <| maptbl := full (maptbl s) lpn p |>).
  set (s2 := s1 <| rmap := full (rmap s) (idx (sp s) p) lpn |>).
  assert (Hs1 : set_maptbl_ent s lpn p = Some s1)
    by (unfold set_maptbl_ent; by rewrite wr_full by lia).
  assert (Hs2 : set_rmap_ent s1 lpn p = Some s2).
  { unfold set_rmap_ent. replace (ppa2pgidx s1 p) with (idx (sp s) p)
      by (symmetry; by apply (ppa2pgidx_eq (sp s) Hg s1 c o)).
    change (rmap s1) with (rmap s). by rewrite wr_full by lia. }
  destruct (pst_page s c o _ Hfr) as (x & Hx & _).
  destruct (line_in_range s gc (cur s) Hd Hl) as [_ [l Hll]]; [left|].
  assert (Hgl : get_line s2 p = cur s) by (unfold get_line; simpl; lia).
  destruct (mark_page_valid_spec s2 p x l) as (s' & Hs' & E1 & E2 & E3 & E4 & Hsh & E5 & Hst');
    [exact Hx|by rewrite Hgl|]. rewrite Hgl in E5.
  assert (Hu : pst_upd s s' c o PG_VALID) by (by apply pst_upd_intro).
  assert (Hmt : ∀ j, rd (maptbl s') j = if decide (lpn = j) then Some p else rd (maptbl s) j)
    by (intros j; rewrite E2; apply rd_full; lia).
  exists s1, s2, s'.
  split_and!; [done|done|done| |done|done|by rewrite E5|done|by rewrite Hmt, decide_True|
               intros; by rewrite Hmt, decide_False].
  split.
  - apply (dim_inv_upd s s' c o PG_VALID); try done; [..|by auto].
    + rewrite E2. apply full_length.
    + rewrite E3. apply full_length.
    + rewrite E5. apply length_insert.
  - apply (map_inv_program s s' gc lpn c o); try done; [by apply cur_tracked|].
    intros j. rewrite E3. apply rd_full. change (page s c o) with p. lia.
  - by apply (ptr_inv_program s s').
  - by apply (line_inv_program s s' gc l).
Qed.
(** *** Advancing the write pointer *)

(** Lines that differ only in their position in the queue. *)
Definition same_lines (ls ls' : list line) : Prop :=
  ∀ a, (λ l, l <| l_pos := 0 |>) <$> ls' !! a = (λ l, l <| l_pos := 0 |>) <$> ls !! a.

Lemma same_lines_lookup ls ls' a l' :
  same_lines ls ls' → ls' !! a = Some l' →
  ∃ l, ls !! a = Some l ∧ l_id l' = l_id l ∧ l_ipc l' = l_ipc l ∧ l_vpc l' = l_vpc l.
Proof.
  intros Hs Hl. specialize (Hs a). rewrite Hl in Hs. destruct (ls !! a) as [l|]; [|done].
  exists l. simpl in Hs. by simplify_eq.
Qed.

Lemma same_lines_length ls ls' : same_lines ls ls' → length ls' = length ls.
Proof.
  intros Hs. apply Nat.le_antisymm; apply Nat.nlt_ge; intros Hlt;
    apply lookup_lt_is_Some in Hlt as [l Hl].
  - specialize (Hs (length ls)). rewrite Hl, (lookup_ge_None_2 ls) in Hs by lia. done.
  - specialize (Hs (length ls')). rewrite Hl, (lookup_ge_None_2 ls') in Hs by lia. done.
Qed.

Lemma moved_same_lines ls ls' : moved ls ls' → same_lines ls ls'.
Proof.
  induction 1 as [|ls1 ls2 ls3 (q & i & ->) _ IH]; [done|]. intros a. rewrite IH. simpl.
  unfold victim_line_set_pos. destruct (decide (q = a)) as [->|]; [|by rewrite list_lookup_alter_ne].
  rewrite list_lookup_alter_eq. by destruct (ls1 !! a).
Qed.

Lemma elems_length {A} (q : pqueue_t A) :
  1 ≤ q_size q ≤ q_avail q → Z.of_nat (length (q_d q)) = q_avail q →
  Z.of_nat (length (elems q)) = q_size q - 1.
Proof. intros. unfold elems, seg. rewrite length_take, length_drop. lia. Qed.

Lemma victim_insert_ok m a (n := length (lines m)) :
  pq_wf (lines m) (victim_line_pq m) → is_Some (lines m !! a) → a ∉ elems (victim_line_pq m) →
  q_avail (victim_line_pq m) = Z.of_nat n + 1 →
  ∃ ls q, victim_insert realloc_ok m a = Some (m <| lines := ls |> <| victim_line_pq := q |>)
    ∧ same_lines (lines m) ls ∧ pq_wf ls q ∧ elems q ≡ₚ a :: elems (victim_line_pq m)
    ∧ q_avail q = q_avail (victim_line_pq m).
Proof.
  intros Hpq Hl Ha Hav. set (q0 := victim_line_pq m) in *.
  assert (Hle : (length (a :: elems q0) ≤ length (seq 0 n))%nat).
  { apply submseteq_length, NoDup_submseteq; [by apply NoDup_cons; split; [|apply Hpq]|].
    intros x [->|Hx]%elem_of_cons; apply elem_of_seq; split; [lia| |lia|]; simpl.
    - by apply lookup_lt_is_Some.
    - by apply lookup_lt_is_Some, (ok_live _ _ Hpq). }
  rewrite length_seq in Hle. cbn [length] in Hle.
  pose proof (elems_length q0 (ok_size _ _ Hpq) (ok_len _ _ Hpq)) as Hsz.
  destruct (pqueue_insert_wf realloc_ok 0%nat (lines m) q0 a Hpq Ha Hl)
    as (ls & q & ok & Hins & Hf & Ht).
  destruct ok; [|destruct (Hf eq_refl) as (_ & Hsa & _); lia].
  destruct (Ht eq_refl) as (Hwf & _ & Hperm & _). exists ls, q.
  unfold victim_insert. fold q0. rewrite Hins. split_and!; try done.
  - by eapply moved_same_lines, pqueue_insert_moved.
  - unfold pqueue_insert in Hins. rewrite (proj2 (Z.leb_gt _ _)) in Hins by lia. simpl in Hins.
    apply bind_Some in Hins as (? & _ & Hins). apply bind_Some in Hins as ([? ?] & _ & Hins).
    by simplify_eq.
Qed.
(** A line joins the victims. *)
Lemma victim_join g m a l :
  lists_ok g m → Z.of_nat (length (lines m)) = blks_per_pl g → lines m !! a = Some l →
  a ∉ elems (victim_line_pq m) → l_vpc l < pgs_per_line g →
  ∃ m', victim_insert realloc_ok m a = Some m'
    ∧ lists_ok g (m' <| victim_line_cnt ::= Z.succ |>) ∧ same_lines (lines m) (lines m')
    ∧ free_line_list m' = free_line_list m ∧ free_line_cnt m' = free_line_cnt m
    ∧ full_line_list m' = full_line_list m
    ∧ elems (victim_line_pq m') ≡ₚ a :: elems (victim_line_pq m).
Proof.
  intros [Hvc Huc Hfull Hvic Hpq Hav] Hlen Hl Ha Hvpc.
  destruct (victim_insert_ok m a) as (ls & q & -> & Hs & Hwf & Hperm & Hq);
    [done|by eauto|done|lia|].
  eexists. split; [done|]. split_and!; try done. split; simpl; try done.
  - rewrite Hperm, Hvc. cbn [length]. lia.
  - intros b y Hb Hy. destruct (same_lines_lookup _ _ _ _ Hs Hy) as (y0 & Hy0 & _ & _ & ->). by eapply Hfull.
  - intros b y Hb Hy. destruct (same_lines_lookup _ _ _ _ Hs Hy) as (y0 & Hy0 & _ & _ & ->).
    rewrite Hperm in Hb. apply elem_of_cons in Hb as [->|Hb]; [by simplify_eq|by eapply Hvic].
  - lia.
Qed.

(** Where the current line goes when it is used up. *)
Lemma retire_target s gc l :
  dim_inv s → line_inv s gc → lines (lm s) !! cur s = Some l → l_vpc l ≤ pgs_per_line (sp s) →
  ∃ m, (if l_vpc l =? pgs_per_line (sp s) then
          Some ((lm s) <| full_line_list ::= λ f, f ++ [cur s] |> <| full_line_cnt ::= Z.succ |>)
        else
          m ← victim_insert realloc_ok (lm s) (cur s);
          Some (m <| victim_line_cnt ::= Z.succ |>)) = Some m
    ∧ lists_ok (sp s) m ∧ same_lines (lines (lm s)) (lines m)
    ∧ free_line_list m = free_line_list (lm s) ∧ free_line_cnt m = free_line_cnt (lm s)
    ∧ elems (victim_line_pq m) ++ full_line_list m
      ≡ₚ cur s :: elems (victim_line_pq (lm s)) ++ full_line_list (lm s).
Proof.
  intros Hd Hl Hll Hvpc. pose proof (fi_lists _ _ Hl) as Hlo.
  destruct (cur_not_listed _ _ Hl) as (_ & _ & Hncv & Hncu).
  destruct (Z.eqb_spec (l_vpc l) (pgs_per_line (sp s))) as [E|E].
  - eexists. split; [done|]. split_and!; try done.
    + destruct Hlo as [Hvc Huc Hfull Hvic Hpq Hav]. split; simpl; try done.
      * rewrite length_app, Huc. simpl. lia.
      * intros a y [Ha|Ha%list_elem_of_singleton]%elem_of_app Hy; [by eapply Hfull|]. by simplify_eq.
    + simpl. rewrite (assoc_L (++)). apply Permutation_app_comm.
  - destruct (victim_join (sp s) (lm s) (cur s) l Hlo) as (m & -> & Hm & Hs & E1 & E2 & E3 & Hp);
      [rewrite (fi_llen _ Hd); destruct (fi_geo _ Hd); lia|done|done|lia|].
    eexists. split; [done|]. split_and!; try done. simpl. by rewrite E3, Hp.
Qed.
(** The status of the pages lives in the channels. *)
Lemma pst_ch s s' b k : sp s' = sp s → ch s' = ch s → pst s' b k = pst s b k.
Proof. intros E1 E2. unfold pst, page, st, get_pg, get_blk, get_pl, get_lun, get_ch. by rewrite E1, E2. Qed.

Lemma dim_inv_ch s s' :
  dim_inv s → sp s' = sp s → ch s' = ch s → length (maptbl s') = length (maptbl s) →
  length (rmap s') = length (rmap s) → length (lines (lm s')) = length (lines (lm s)) → dim_inv s'.
Proof.
  intros [Hg Hm Hr Hl Hb Hst] E1 E2 E3 E4 E5.
  split; rewrite ?E1, ?E3, ?E4, ?E5; try done.
  - intros b k Hin. destruct (Hb b k Hin) as (x & Hx & Hp). exists x. split; [|done].
    unfold page, get_blk, get_pl, get_lun, get_ch in *. by rewrite E1, E2.
  - intros b k Hin. rewrite (pst_ch s) by done. by apply Hst.
Qed.

Lemma map_inv_ch s s' gc ex :
  map_inv s gc ex → sp s' = sp s → ch s' = ch s → maptbl s' = maptbl s → rmap s' = rmap s →
  map_inv s' gc ex.
Proof.
  intros [Hm Hr] E1 E2 E3 E4. split; unfold page in *; rewrite E1, E3, E4.
  - intros lpn p Hp Hex. destruct (Hm lpn p Hp Hex) as [->|(b & k & ?)]; [by left|].
    right. exists b, k. by rewrite (pst_ch s).
  - intros b k Hin Ht Hv. rewrite (pst_ch s) in Hv by done. by apply Hr.
Qed.

Lemma retire_ok s gc a fl :
  dim_inv s → line_inv s gc → free_line_list (lm s) = a :: fl →
  (∀ k, 0 ≤ k < pgs_per_line (sp s) → pst s (Z.of_nat (cur s)) k ≠ Some PG_FREE) →
  ∃ s', retire_line realloc_ok s = Some s' ∧ dim_inv s' ∧ line_inv s' gc
    ∧ sp s' = sp s ∧ ch s' = ch s ∧ maptbl s' = maptbl s ∧ rmap s' = rmap s
    ∧ wp s' = (wp s) <| curline := a |> <| wp_blk := Z.of_nat a |>
    ∧ free_line_list (lm s') = fl.
Proof.
  intros Hd Hl Hfl Hused. destruct (line_in_range s gc (cur s) Hd Hl) as [_ [l Hll]]; [left|].
  pose proof Hl as [Hfree Hus Hpart Hfc Hid Hvpc Hipc _].
  destruct (line_in_range s gc a Hd Hl) as [Har [la Hla]].
  { unfold all_lines. rewrite Hfl. set_solver. }
  destruct (cur_not_listed _ _ Hl) as (Hng & _).
  assert (Hle : l_vpc l ≤ pgs_per_line (sp s)).
  { rewrite (Hvpc _ _ Hll Hng). apply cnt_le. destruct (fi_geo _ Hd); nia. }
  destruct (retire_target s gc l Hd Hl Hll Hle) as (m & Hm & Hlo & Hs & E1 & E2 & Hperm).
  pose proof (Hs a) as Ha. rewrite Hla in Ha. destruct (lines m !! a) as [la'|] eqn:Hla'; [|done].
  assert (Hida : l_id la' = Z.of_nat a).
  { destruct (same_lines_lookup _ _ _ _ Hs Hla') as (y & Hy & -> & _). by apply Hid. }
  unfold retire_line, line_at, get_next_free_line. fold (cur s). rewrite Hll. cbn -[victim_insert]. rewrite Hm.
  cbn. rewrite E1, Hfl. cbn. rewrite Hla'. cbn. rewrite Hida. eexists. split; [done|].
  split_and!; try done.
  - apply (dim_inv_ch s); try done. simpl. by apply same_lines_length.
  - split; simpl; try by apply Hlo.
    + intros b k Hb Hk. rewrite (pst_ch s) by done. apply Hfree; [rewrite Hfl; by right|done].
    + intros b k Hb Hk. rewrite (pst_ch s) by done. rewrite Hperm in Hb.
      apply elem_of_cons in Hb as [->|Hb]; [by apply Hused|by apply Hus].
    + rewrite <- Hpart. unfold all_lines. simpl. rewrite Hperm, Hfl. solve_Permutation.
    + rewrite E2, Hfc, Hfl. cbn [length]. lia.
    + intros b y Hy. destruct (same_lines_lookup _ _ _ _ Hs Hy) as (y0 & Hy0 & -> & _). by apply Hid.
    + intros b y Hy Hb. destruct (same_lines_lookup _ _ _ _ Hs Hy) as (y0 & Hy0 & _ & _ & ->).
      rewrite (Hvpc b y0) by done. apply cnt_ext. intros. by apply (pst_ch s).
    + intros b y Hy Hb. destruct (same_lines_lookup _ _ _ _ Hs Hy) as (y0 & Hy0 & _ & -> & _).
      rewrite (Hipc b y0) by done. apply cnt_ext. intros. by apply (pst_ch s).
    + destruct Hlo. by split.
Qed.
(** The pointer moves to the next page of its line. *)
Lemma ptr_next s gc ex w (s' := s <| wp := w |>) :
  finv s gc ex 1 → wp_ok s' → curline w = cur s → off s' = off s + 1 →
  finv s' gc ex 0 ∧ avail s' = avail s - 1 ∧ sp s' = sp s ∧ ch s' = ch s
  ∧ maptbl s' = maptbl s ∧ rmap s' = rmap s.
Proof.
  intros [Hd Hm [Hwp Hcur] Hl] Hwp' Hc Ho.
  split; [|split; [unfold avail; rewrite Ho; simpl; lia|done]].
  split; [by apply (dim_inv_ch s)|by apply (map_inv_ch s)| |].
  - split; [done|]. unfold cur. simpl. rewrite Hc. intros k Hk. rewrite (pst_ch s) by done.
    rewrite Hcur by done. lia.
  - destruct Hl as [Hfree Hus Hpart Hfc Hid Hvpc Hipc Hlo]. unfold cur in Hc.
    split; try done. unfold all_lines, cur in *. simpl. by rewrite Hc.
Qed.

Lemma advance_ok s gc ex :
  finv s gc ex 1 → 1 ≤ avail s →
  ∃ s', ssd_advance_write_pointer realloc_ok s = Some s' ∧ finv s' gc ex 0
    ∧ avail s' = avail s - 1 ∧ sp s' = sp s ∧ ch s' = ch s ∧ maptbl s' = maptbl s ∧ rmap s' = rmap s.
Proof.
  intros Hi Hav. destruct (fi_wp _ _ Hi) as [Hc Hlu Hg Hpl Hb].
  pose proof (fi_geo _ Hi) as Hgeo. unfold ssd_advance_write_pointer.
  repeat case_match; bools;
    try (eexists; split; [done|];
         apply ptr_next; [done|split; simpl; try done; lia|done|unfold off, offset; simpl; nia]).
  assert (Ho : off s = pgs_per_line (sp s) - 1) by (unfold off, offset; destruct Hgeo; nia).
  destruct (free_line_list (lm s)) as [|a fl] eqn:Hfl.
  { unfold avail in Hav. rewrite Hfl in Hav. simpl in Hav. lia. }
  destruct Hi as [Hd Hm Hp Hl].
  set (s0 := s <| wp ::= _ |>).
  destruct (retire_ok s0 gc a fl) as (s' & Hr & Hd' & Hl' & E1 & E2 & E3 & E4 & E5 & E6).
  - by apply (dim_inv_ch s).
  - by destruct Hl; split.
  - done.
  - intros k Hk. rewrite (pst_ch s) by done. change (cur s0) with (cur s).
    rewrite (fi_cur _ _ Hp) by done. change (sp s0) with (sp s) in Hk. lia.
  - exists s'. split; [done|]. assert (off s' = 0) as Ho' by (unfold off, offset; rewrite E5; simpl; lia).
    split_and!; try done.
    + split; [done|by apply (map_inv_ch s)| |done].
      split; [split; rewrite ?E1, ?E5; unfold cur; rewrite ?E5; simpl; destruct Hgeo; lia|].
      intros k. unfold cur. rewrite E1, Ho', E5. simpl. intros Hk.
      rewrite (pst_ch s) by done. rewrite (fi_free _ _ Hl); [|rewrite Hfl; left|done]. split; [lia|done].
    + unfold avail. rewrite Ho', Ho, E1, E6, Hfl. simpl. lia.
Qed.

(** The steps of [program_page] together. *)
Lemma program_ok s gc lpn :
  finv s gc (Some lpn) 0 → 0 ≤ lpn < tt_pgs (sp s) → 1 ≤ avail s →
  ∃ s' p, program_page realloc_ok s lpn = Some (s', p) ∧ finv s' gc None 0
    ∧ avail s' = avail s - 1 ∧ sp s' = sp s ∧ p = page s (Z.of_nat (cur s)) (off s)
    ∧ pst_upd s s' (Z.of_nat (cur s)) (off s) PG_VALID
    ∧ ∀ j, rd (maptbl s') j = if decide (j = lpn) then Some p else rd (maptbl s) j.
Proof.
  intros Hi Hlpn Hav.
  destruct (program_mark s gc lpn Hi Hlpn)
    as (s1 & s2 & s3 & H1 & H2 & H3 & Hi3 & Esp & Ewp & Efl & Hu & Hm & Hmj).
  destruct (advance_ok s3 gc None Hi3) as (s' & Hs' & Hi' & Hav' & F1 & F2 & F3 & F4).
  { unfold avail, off in *. by rewrite Esp, Ewp, Efl. }
  exists s', (get_new_page s). unfold program_page.
  rewrite H1. cbn -[mark_page_valid ssd_advance_write_pointer set_rmap_ent]. rewrite H2.
  cbn -[mark_page_valid ssd_advance_write_pointer]. rewrite H3.
  cbn -[ssd_advance_write_pointer]. rewrite Hs'. cbn.
  split_and!; try done.
  - rewrite Hav'. unfold avail, off. by rewrite Esp, Ewp, Efl.
  - congruence.
  - by apply (new_page_eq s gc (Some lpn) 0).
  - intros b k Hin. rewrite (pst_ch s3) by done. by apply Hu.
  - intros j. rewrite F3, (new_page_eq s gc (Some lpn) 0) by done. case_decide as E; [by subst|by apply Hmj].
Qed.
(** *** Invalidating a page *)

Definition less_valid (l : line) : line := l <| l_ipc ::= Z.succ |> <| l_vpc ::= Z.pred |>.

Lemma filter_remove (f : list nat) a : NoDup f → a ∈ f → f ≡ₚ a :: filter (λ x, x ≠ a) f.
Proof.
  intros Hnd Ha. apply NoDup_Permutation; [done| |].
  - apply NoDup_cons. split; [|by apply NoDup_filter]. intros [? _]%list_elem_of_filter. done.
  - intros x. rewrite elem_of_cons, list_elem_of_filter. destruct (decide (x = a)); naive_solver.
Qed.

(** The line of an invalidated page: a full line becomes a victim. *)
Lemma less_valid_lists g m a l (m0 := m <| lines := <[a := less_valid l]> (lines m) |>) :
  lists_ok g m → Z.of_nat (length (lines m)) = blks_per_pl g → lines m !! a = Some l →
  NoDup (elems (victim_line_pq m) ++ full_line_list m) →
  (l_vpc l = pgs_per_line g → a ∈ full_line_list m) →
  ∃ m', (if l_vpc l =? pgs_per_line g then
           m' ← victim_insert realloc_ok
                  (m0 <| full_line_list ::= filter (λ x, x ≠ a) |> <| full_line_cnt ::= Z.pred |>) a;
           Some (m' <| victim_line_cnt ::= Z.succ |>)
         else Some m0) = Some m'
    ∧ lists_ok g m' ∧ same_lines (lines m0) (lines m')
    ∧ free_line_list m' = free_line_list m ∧ free_line_cnt m' = free_line_cnt m
    ∧ elems (victim_line_pq m') ++ full_line_list m'
      ≡ₚ elems (victim_line_pq m) ++ full_line_list m.
Proof.
  intros [Hvc Huc Hfull Hvic Hpq Hav] Hlen Hl Hnd Hin.
  assert (Hpq0 : pq_wf (lines m0) (victim_line_pq m)).
  { eapply pq_wf_lines, Hpq. by eapply insert_line_pos. }
  assert (Ha0 : lines m0 !! a = Some (less_valid l))
    by (apply list_lookup_insert_eq; by eapply lookup_lt_Some).
  assert (Hne : ∀ c, c ≠ a → lines m0 !! c = lines m !! c)
    by (intros c Hc; by apply list_lookup_insert_ne).
  apply NoDup_app in Hnd as (_ & Hdis & Hndf).
  destruct (Z.eqb_spec (l_vpc l) (pgs_per_line g)) as [E|E].
  - specialize (Hin E). pose proof (filter_remove _ _ Hndf Hin) as Hperm.
    destruct (victim_join g (m0 <| full_line_list ::= filter (λ x, x ≠ a) |> <| full_line_cnt ::= Z.pred |>)
                a (less_valid l)) as (m' & -> & Hm & Hs & E1 & E2 & E3 & Hp).
    + split; simpl; try done.
      * rewrite Huc, Hperm at 1. cbn [length]. lia.
      * intros c y [Hc Hcf]%list_elem_of_filter Hy. change (lines m0 !! c = Some y) in Hy.
        rewrite Hne in Hy by done. by eapply Hfull.
      * intros c y Hc Hy. change (lines m0 !! c = Some y) in Hy.
        rewrite Hne in Hy by (intros ->; by eapply Hdis). by eapply Hvic.
    + simpl. by rewrite length_insert.
    + done.
    + intros Hc. by eapply Hdis.
    + simpl. lia.
    + eexists. split; [done|]. split_and!; try done. simpl. rewrite E3, Hp. simpl.
      rewrite Hperm at 2. solve_Permutation.
  - exists m0. split_and!; try done. split; simpl; try done.
    + intros c y Hc Hy. change (lines m0 !! c = Some y) in Hy. destruct (decide (c = a)) as [->|Hca].
      * exfalso. by eapply E, Hfull.
      * rewrite Hne in Hy by done. by eapply Hfull.
    + intros c y Hc Hy. change (lines m0 !! c = Some y) in Hy. destruct (decide (c = a)) as [->|Hca].
      * rewrite Ha0 in Hy. simplify_eq. simpl. specialize (Hvic a l Hc Hl). lia.
      * rewrite Hne in Hy by done. by eapply Hvic.
Qed.
Lemma mark_page_invalid_spec s p x l (a := get_line s p)
    (m0 := (lm s) <| lines := <[a := less_valid l]> (lines (lm s)) |>) m' :
  get_pg s p = Some x → lines (lm s) !! a = Some l →
  (if l_vpc l =? pgs_per_line (sp s) then
     m' ← victim_insert realloc_ok
            (m0 <| full_line_list ::= filter (λ x, x ≠ a) |> <| full_line_cnt ::= Z.pred |>) a;
     Some (m' <| victim_line_cnt ::= Z.succ |>)
   else Some m0) = Some m' →
  ∃ s', mark_page_invalid realloc_ok s p = Some s' ∧ sp s' = sp s ∧ maptbl s' = maptbl s
    ∧ rmap s' = rmap s ∧ wp s' = wp s ∧ lm s' = m' ∧ shape s s'
    ∧ ∀ q, st s' q = if decide (pkey q = pkey p) then Some PG_INVALID else st s q.
Proof.
  intros Hx Hl Hm. unfold mark_page_invalid. rewrite Hx. cbn -[set_pg set_blk].
  destruct (mark_spec s p x PG_INVALID (λ b, b <| b_ipc ::= Z.succ |> <| b_vpc ::= Z.pred |>) Hx)
    as (s1 & b & s2 & -> & Hb & H2 & (F1 & F2 & F3 & F4 & F5) & Hsh & Hst); [done|].
  cbn -[set_blk victim_insert]. rewrite Hb. cbn -[set_blk victim_insert]. rewrite H2.
  cbn -[victim_insert]. unfold line_at. rewrite F5. change (get_line s2 p) with a. rewrite Hl.
  cbn -[victim_insert]. rewrite F1. subst m0. unfold less_valid in Hm.
  destruct (l_vpc l =? pgs_per_line (sp s)); cbn -[victim_insert] in Hm |- *.
  - apply bind_Some in Hm as (m1 & Hm1 & [= <-]). rewrite Hm1. cbn. eexists. by split.
  - injection Hm as <-. eexists. split; [done|]. split_and!; try done. simpl. by rewrite F5.
Qed.

Lemma map_inv_detach s s' gc lpn b0 k0 (p := page s b0 k0) :
  geo_ok (sp s) → map_inv s gc None → in_geo (sp s) b0 k0 → tracked gc b0 k0 →
  pst s b0 k0 = Some PG_VALID → rd (rmap s) (idx (sp s) p) = Some lpn →
  sp s' = sp s → maptbl s' = maptbl s → pst_upd s s' b0 k0 PG_INVALID →
  (∀ j, j ≠ idx (sp s) p → rd (rmap s') j = rd (rmap s) j) →
  map_inv s' gc (Some lpn).
Proof.
  intros Hg [Hmap Hrmap] Hin Htr Hv Hrl Esp Em Hu Hr.
  assert (Epage : ∀ b k, page s' b k = page s b k) by (intros; unfold page; by rewrite Esp).
  assert (Hidx : ∀ b k, in_geo (sp s) b k → ¬ (b = b0 ∧ k = k0) → idx (sp s) (page s b k) ≠ idx (sp s) p).
  { intros b k Hbk Hne E. apply Hne. by apply (idx_inj _ Hg). }
  destruct (Hrmap b0 k0 Hin Htr Hv) as (lpn0 & _ & Hr0 & Hm0). fold p in Hr0. simplify_eq.
  split; rewrite Esp, Em.
  - intros lpn' p' Hp' Hex. destruct (Hmap lpn' p' Hp') as [->|(b & k & Hbk & Ht & -> & Hv' & Hrv)];
      [done|by left|]. right. exists b, k.
    assert (Hne : ¬ (b = b0 ∧ k = k0)) by (intros [-> ->]; fold p in Hrv; congruence).
    rewrite Epage, Hu, decide_False, Hr by (done || by apply Hidx). done.
  - intros b k Hbk Ht Hv'. rewrite Hu in Hv' by done. case_decide as E; [done|].
    destruct (Hrmap b k Hbk Ht Hv') as (lpn' & _ & Hrv & Hmv). exists lpn'.
    rewrite Epage, Hr by (by apply Hidx). split_and!; try done. intros [= <-].
    assert (Hpp : page s b k = page s b0 k0) by congruence.
    apply E, (page_at_inj _ Hg); [apply Hbk|apply Hin|]. unfold page in Hpp. by rewrite Hpp.
Qed.

Lemma ptr_inv_free s s' d :
  dim_inv s → ptr_inv s d → 0 ≤ Z.of_nat (cur s) < blks_per_pl (sp s) → sp s' = sp s → wp s' = wp s →
  (∀ b k, in_geo (sp s) b k → pst s' b k = Some PG_FREE ↔ pst s b k = Some PG_FREE) → ptr_inv s' d.
Proof.
  intros Hd [Hwp Hcur] Hr Esp Ewp Hst.
  assert (Ec : cur s' = cur s) by (unfold cur; by rewrite Ewp).
  split; [destruct Hwp; split; by rewrite ?Esp, ?Ec, Ewp|].
  intros k Hk. unfold off. rewrite Esp, Ewp in *. rewrite Ec, Hst by done. by apply Hcur.
Qed.
Lemma less_valid_lookup ls ls' a l c y :
  ls !! a = Some l → same_lines (<[a := less_valid l]> ls) ls' → ls' !! c = Some y →
  ∃ y0, ls !! c = Some y0 ∧ l_id y = l_id y0
    ∧ l_ipc y = (if decide (c = a) then l_ipc y0 + 1 else l_ipc y0)
    ∧ l_vpc y = (if decide (c = a) then l_vpc y0 - 1 else l_vpc y0).
Proof.
  intros Hl Hs Hy. destruct (same_lines_lookup _ _ _ _ Hs Hy) as (y1 & Hy1 & -> & -> & ->).
  case_decide as E.
  - subst c. rewrite list_lookup_insert_eq in Hy1 by (by eapply lookup_lt_Some). injection Hy1 as <-.
    exists l. split_and!; try done; simpl; lia.
  - rewrite list_lookup_insert_ne in Hy1 by done. by exists y1.
Qed.

Lemma line_inv_invalid s s' a k0 l :
  dim_inv s → line_inv s None → in_geo (sp s) (Z.of_nat a) k0 →
  pst s (Z.of_nat a) k0 = Some PG_VALID → lines (lm s) !! a = Some l →
  sp s' = sp s → wp s' = wp s → pst_upd s s' (Z.of_nat a) k0 PG_INVALID →
  lists_ok (sp s) (lm s') → same_lines (<[a := less_valid l]> (lines (lm s))) (lines (lm s')) →
  free_line_list (lm s') = free_line_list (lm s) → free_line_cnt (lm s') = free_line_cnt (lm s) →
  elems (victim_line_pq (lm s')) ++ full_line_list (lm s')
    ≡ₚ elems (victim_line_pq (lm s)) ++ full_line_list (lm s) →
  line_inv s' None.
Proof.
  intros Hd Hi Hin Hv Hl Esp Ewp Hu Hlo Hs E1 E2 Hperm.
  pose proof Hi as [Hfree Hused Hpart Hfc Hid Hvpc Hipc _].
  assert (Hrange : ∀ c, is_Some (lines (lm s) !! c) → 0 ≤ Z.of_nat c < blks_per_pl (sp s)).
  { intros c Hc%lookup_lt_is_Some. rewrite (fi_llen _ Hd) in Hc. destruct (fi_geo _ Hd). lia. }
  assert (Hcnt : ∀ c w, is_Some (lines (lm s) !! c) →
    cnt (sp s) (pst s' (Z.of_nat c)) w = cnt (sp s) (pst s (Z.of_nat c)) w
      + (if decide (c = a) then b2z (bool_decide (PG_INVALID = w)) - b2z (bool_decide (PG_VALID = w))
         else 0)).
  { intros c w Hc. rewrite (pst_upd_cnt s s' (Z.of_nat a) k0 PG_INVALID) by auto.
    destruct (decide (c = a)) as [->|Hne]; [|rewrite decide_False by lia; lia].
    rewrite decide_True, Hv by done.
    rewrite (bool_decide_ext (Some PG_VALID = Some w) (PG_VALID = w)) by naive_solver. lia. }
  split; rewrite ?Esp, ?E1, ?E2; try done.
  - intros c k Hc Hk. assert (Hca : c ≠ a).
    { intros ->. rewrite Hfree in Hv; [done|done|apply Hin]. }
    destruct (line_in_range s None c Hd Hi) as [Hcr _]; [unfold all_lines; set_solver|].
    rewrite Hu by done. rewrite decide_False by lia. by apply Hfree.
  - intros c k Hc Hk. rewrite Hperm in Hc.
    destruct (line_in_range s None c Hd Hi) as [Hcr _]; [unfold all_lines; set_solver|].
    rewrite Hu by done. case_decide; [done|by apply Hused].
  - unfold all_lines, cur in *. by rewrite Ewp, E1, Hperm.
  - intros c y Hy. destruct (less_valid_lookup _ _ _ _ _ _ Hl Hs Hy) as (y0 & Hy0 & -> & _). by apply Hid.
  - intros c y Hy _. destruct (less_valid_lookup _ _ _ _ _ _ Hl Hs Hy) as (y0 & Hy0 & _ & _ & ->).
    rewrite Hcnt by eauto. rewrite (Hvpc c y0 Hy0) by set_solver. case_decide; simpl; lia.
  - intros c y Hy _. destruct (less_valid_lookup _ _ _ _ _ _ Hl Hs Hy) as (y0 & Hy0 & _ & -> & _).
    rewrite Hcnt by eauto. rewrite (Hipc c y0 Hy0) by set_solver. case_decide; simpl; lia.
Qed.

(** A line all of whose pages are valid is on the full list. *)
Lemma all_valid_full s a l k0 :
  dim_inv s → ptr_inv s 0 → line_inv s None → lines (lm s) !! a = Some l → in_geo (sp s) (Z.of_nat a) k0 →
  pst s (Z.of_nat a) k0 = Some PG_VALID → l_vpc l = pgs_per_line (sp s) → a ∈ full_line_list (lm s).
Proof.
  intros Hd Hp Hi Hl Hin Hv Hvpc.
  assert (Ha : a ∈ all_lines s None).
  { rewrite (fi_part _ _ Hi). apply elem_of_seq. apply lookup_lt_Some in Hl.
    rewrite (fi_llen _ Hd) in Hl. lia. }
  pose proof (fi_vpc _ _ Hi a l Hl ltac:(set_solver)) as Hc.
  assert (Ho : 0 ≤ off s < pgs_per_line (sp s))
    by (destruct (fi_wp _ _ Hp); by apply offset_range; [apply Hd|..]).
  unfold all_lines in Ha. rewrite !elem_of_cons, !elem_of_app in Ha.
  destruct Ha as [->|[Ha|[Ha|[Ha|Ha]]]]; [| |..|done].
  - pose proof (cnt_lt (sp s) (pst s (Z.of_nat (cur s))) PG_VALID (off s) Ho) as Hlt.
    rewrite (proj2 (fi_cur _ _ Hp (off s) Ho)) in Hlt by lia. specialize (Hlt ltac:(done)). lia.
  - by apply elem_of_nil in Ha.
  - rewrite (fi_free _ _ Hi a k0 Ha) in Hv; [done|apply Hin].
  - pose proof (ls_vic _ _ (fi_lists _ _ Hi) a l Ha Hl). lia.
Qed.

Lemma mark_invalid_ok s lpn b k (p := page s b k) :
  finv s None None 0 → in_geo (sp s) b k → pst s b k = Some PG_VALID →
  rd (rmap s) (idx (sp s) p) = Some lpn →
  ∃ s1 s', mark_page_invalid realloc_ok s p = Some s1 ∧ set_rmap_ent s1 INVALID_LPN p = Some s'
    ∧ finv s' None (Some lpn) 0 ∧ avail s' = avail s ∧ maptbl s' = maptbl s ∧ sp s' = sp s.
Proof.
  intros [Hd Hm Hp Hl] Hin Hv Hr. destruct (pst_page s b k _ Hv) as (x & Hx & _).
  pose proof (fi_geo _ Hd) as Hg. pose proof (idx_range (sp s) Hg b k Hin) as Hir.
  fold (page s b k) p in Hir. pose proof (fi_rlen _ Hd) as Hrl.
  set (a := Z.to_nat b). assert (Hb : Z.of_nat a = b) by (destruct Hin; lia).
  assert (Hla : is_Some (lines (lm s) !! a)).
  { apply lookup_lt_is_Some. rewrite (fi_llen _ Hd). destruct Hin. lia. }
  destruct Hla as [l Hla]. rewrite <- Hb in Hin, Hv.
  destruct (less_valid_lists (sp s) (lm s) a l) as (m' & Hm' & Hlo & Hs & E1 & E2 & Hperm);
    [apply Hl|rewrite (fi_llen _ Hd); destruct Hg; lia|done| |by eapply all_valid_full|].
  { pose proof (all_lines_nodup _ _ Hl) as Hnd. unfold all_lines in Hnd. simpl in Hnd.
    apply NoDup_cons in Hnd as [_ Hnd]. by apply NoDup_app in Hnd as (_ & _ & ?). }
  destruct (mark_page_invalid_spec s p x l m' Hx Hla Hm')
    as (s1 & Hs1 & F1 & F2 & F3 & F4 & F5 & Hsh & Hst).
  exists s1, (s1 <| rmap := full (rmap s) (idx (sp s) p) INVALID_LPN |>). split; [done|]. split.
  { unfold set_rmap_ent. replace (ppa2pgidx s1 p) with (idx (sp s) p)
      by (symmetry; by apply (ppa2pgidx_eq (sp s) Hg s1 b k); [|rewrite <- Hb]).
    rewrite F3. by rewrite wr_full by lia. }
  set (s' := s1 <| rmap := _ |>).
  assert (Hu : pst_upd s s' (Z.of_nat a) k PG_INVALID) by (apply pst_upd_intro; try done; by rewrite Hb).
  assert (Ewp : wp s' = wp s) by done. assert (Esp : sp s' = sp s) by done.
  split_and!; try done; [split|].
  - apply (dim_inv_upd s s' (Z.of_nat a) k PG_INVALID); try done; [by rewrite <- F2|simpl; apply full_length| |by auto].
    change (lm s') with (lm s1). rewrite F5, (same_lines_length _ _ Hs). apply length_insert.
  - apply (map_inv_detach s s' None lpn (Z.of_nat a) k); try done; [by rewrite Hb|].
    intros j Hj. simpl. rewrite rd_full by lia. rewrite Hb in Hj. by rewrite decide_False.
  - apply (ptr_inv_free s); try done.
    + by eapply (line_in_range s None); [..|left].
    + intros c j Hc. rewrite Hu by done. case_decide as E; [|done]. destruct E as [-> ->].
      rewrite Hv. split; intros [=].
  - apply (line_inv_invalid s s' a k l); try done; change (lm s') with (lm s1); by rewrite F5.
  - unfold avail, off. change (lm s') with (lm s1). by rewrite Ewp, Esp, F5, E1.
Qed.
(** *** Latencies do not matter, nor do collected pages *)

Lemma other_tracked gc a k : a ∉ gc_lines gc → tracked gc (Z.of_nat a) k.
Proof. destruct gc as [[v todo]|]; [|done]. intros Ha E. exfalso. apply Ha. assert (a = v) as -> by lia. left. Qed.

Lemma finv_frame s s' gc ex d :
  finv s gc ex d → frame s s' → shape s s' →
  (∀ b k, in_geo (sp s) b k → tracked gc b k → pst s' b k = pst s b k) →
  (∀ b k, in_geo (sp s) b k → pst s' b k = pst s b k ∨ pst s' b k = Some PG_FREE) →
  finv s' gc ex d ∧ avail s' = avail s.
Proof.
  intros Hi (E1 & E2 & E3 & E4 & E5) Hsh Htr Hfree'.
  assert (Hoth : ∀ a k, a ∈ all_lines s gc → a ∉ gc_lines gc → 0 ≤ k < pgs_per_line (sp s) →
    pst s' (Z.of_nat a) k = pst s (Z.of_nat a) k).
  { intros a k Ha Hn Hk. destruct (line_in_range s gc a Hi Hi Ha) as [Hr _].
    apply Htr; [done|by apply other_tracked]. }
  pose proof (all_lines_nodup _ _ (fi_lines _ _ _ _ Hi)) as Hnd.
  assert (Hall : ∀ a, is_Some (lines (lm s) !! a) → a ∈ all_lines s gc).
  { intros a Ha%lookup_lt_is_Some. rewrite (fi_llen _ Hi) in Ha.
    rewrite (fi_part _ _ Hi). apply elem_of_seq. lia. }
  unfold all_lines in Hnd, Hoth. apply NoDup_cons in Hnd as [Hcur' Hnd]. apply NoDup_app in Hnd as (_ & Hnd & _).
  destruct Hi as [[Hg Hm Hr Hl Hb Hst] [Hmap Hrmap] [Hwp Hcur] [Hfree Hus Hpart Hfc Hid Hvpc Hipc Hlo]].
  assert (Epage : ∀ b k, page s' b k = page s b k) by (intros; unfold page; by rewrite E1).
  assert (Ec : cur s' = cur s) by (unfold cur; by rewrite E4).
  assert (Eo : off s' = off s) by (unfold off; by rewrite E1, E4).
  split; [|unfold avail; by rewrite E1, E5, Eo].
  split; split; rewrite ?E1, ?E2, ?E3, ?E5, ?Ec, ?Eo; try done.
  - intros b k Hin. rewrite Epage. destruct (Hb b k Hin) as (y & Hy & Hyl).
    specialize (Hsh (page s b k)). rewrite Hy in Hsh.
    destruct (get_blk s' (page s b k)) as [y'|]; [|done]. exists y'. split; [done|]. by injection Hsh as ->.
  - intros b k Hin. destruct (Hfree' b k Hin) as [->|]; auto.
  - intros lpn p Hp Hex. destruct (Hmap lpn p Hp Hex) as [->|(b & k & ? & ? & ?)]; [by left|].
    right. exists b, k. by rewrite Htr, Epage.
  - intros b k Hin Ht Hv. rewrite Htr in Hv by done. rewrite Epage. by apply Hrmap.
  - destruct Hwp. split; rewrite ?E1, ?Ec, E4; done.
  - intros k Hk. rewrite Hoth; [by apply Hcur|left|set_solver|done].
  - intros a k Ha Hk. rewrite Hoth; [by apply Hfree|set_solver| |done].
    intros Hn. by apply (Hnd a Hn), elem_of_app; left.
  - intros a k Ha Hk. rewrite Hoth; [by apply Hus|set_solver| |done].
    intros Hn. by apply (Hnd a Hn), elem_of_app; right.
  - unfold all_lines. by rewrite Ec, E5.
  - intros a l Ha Hn. rewrite (Hvpc a l Ha Hn). symmetry. apply cnt_ext. intros k Hk.
    apply Hoth; [|done..]. apply Hall. eauto.
  - intros a l Ha Hn. rewrite (Hipc a l Ha Hn). symmetry. apply cnt_ext. intros k Hk.
    apply Hoth; [|done..]. apply Hall. eauto.
Qed.

Lemma finv_time s s' gc ex d :
  finv s gc ex d → frame s s' → shape s s' → (∀ q, get_pg s' q = get_pg s q) →
  finv s' gc ex d ∧ avail s' = avail s.
Proof.
  intros Hi Hf Hsh Hpg.
  assert (Ep : ∀ b k, pst s' b k = pst s b k).
  { intros. unfold pst, page, st. destruct Hf as (-> & _). by rewrite Hpg. }
  apply finv_frame; auto.
Qed.

Lemma advance_status_ok s gc ex d b k c :
  finv s gc ex d → in_geo (sp s) b k →
  ∃ s' lat, ssd_advance_status clock s (page s b k) c = Some (s', lat) ∧ finv s' gc ex d
    ∧ frame s s' ∧ avail s' = avail s ∧ ∀ q, get_pg s' q = get_pg s q.
Proof.
  intros Hi Hin. destruct (get_pg_Some s b k Hi Hin) as [y Hy].
  destruct (advance_status_spec clock s (page s b k) c y Hy) as (s' & lat & -> & Hf & Hsh & Hg).
  exists s', lat. split; [done|]. destruct (finv_time s s' gc ex d Hi Hf Hsh Hg). done.
Qed.

(** *** Writing a logical page *)

Lemma write_page_ok s req lpn :
  finv s None None 0 → 0 ≤ lpn < tt_pgs (sp s) → 1 ≤ avail s →
  ∃ s' lat, write_page realloc_ok clock s req lpn = Some (s', lat) ∧ finv s' None None 0
    ∧ avail s' = avail s - 1 ∧ sp s' = sp s
    ∧ ∃ b k, in_geo (sp s) b k
      ∧ ∀ j, rd (maptbl s') j = if decide (j = lpn) then Some (page s b k) else rd (maptbl s) j.
Proof.
  intros Hi Hlpn Hav. unfold write_page, get_maptbl_ent.
  destruct (rd (maptbl s) lpn) as [p|] eqn:Hp;
    [|apply rd_None in Hp; pose proof (fi_mlen _ Hi); lia].
  assert (Hdet : ∃ s1, (if mapped_ppa p then s1 ← mark_page_invalid realloc_ok s p; set_rmap_ent s1 INVALID_LPN p
                        else Some s) = Some s1
    ∧ finv s1 None (Some lpn) 0 ∧ avail s1 = avail s ∧ maptbl s1 = maptbl s ∧ sp s1 = sp s).
  { destruct (fi_map _ _ _ Hi lpn p Hp) as [->|(b & k & Hin & _ & -> & Hv & Hr)]; [done| |].
    - exists s. split_and!; try done. destruct Hi as [Hd [Hm Hr] Hpt Hl]. split; try done. split.
      + intros j q Hq _. by apply Hm.
      + intros b k Hin Ht Hv. destruct (Hr b k Hin Ht Hv) as (j & _ & Hj & Hmj). exists j.
        split_and!; try done. intros [= <-]. rewrite Hp in Hmj.
        pose proof (page_mapped (sp s) (fi_geo _ Hd) b k Hin) as Hmp.
        assert (E : UNMAPPED_PPA = page s b k) by congruence. unfold page in E. by rewrite <- E in Hmp.
    - pose proof (page_mapped (sp s) (fi_geo _ Hi) b k Hin) as Hmp.
      fold (page s b k) in Hmp. rewrite Hmp.
      destruct (mark_invalid_ok s lpn b k Hi Hin Hv Hr) as (s1 & s2 & -> & H2 & ?).
      cbn. exists s2. by rewrite H2. }
  destruct Hdet as (s1 & Hs1 & Hi1 & Hav1 & Em1 & Esp1). cbn -[mark_page_invalid set_rmap_ent program_page].
  rewrite Hs1. cbn -[program_page].
  pose proof (cur_in_geo _ _ _ _ Hi1) as Hin1.
  destruct (program_ok s1 None lpn Hi1) as (s2 & p2 & -> & Hi2 & Hav2 & Esp2 & -> & _ & Hm2);
    [by rewrite Esp1|lia|]. cbn -[ssd_advance_status].
  destruct (advance_status_ok s2 None None 0 (Z.of_nat (cur s1)) (off s1) {| cmd := NAND_WRITE; stime := req_stime req |})
    as (s' & lat & Hs' & Hi' & Hf & Hav' & _); [done|by rewrite Esp2|].
  unfold page in Hs' |- *. rewrite Esp2 in Hs'. exists s', lat. split; [done|].
  destruct Hf as (F1 & F2 & _). split_and!; [done|lia|congruence|].
  exists (Z.of_nat (cur s1)), (off s1). rewrite <- Esp1. split; [done|].
  intros j. rewrite F2, Hm2, Em1. done.
Qed.
(** *** Garbage collection *)

Implicit Types (v : nat) (todo : gset Z).

(** A page that has been looked at and holds nothing, or whose logical page has
    been taken off it. *)
Lemma skip_page s v todo k ex d :
  finv s (Some (v, todo)) ex d → pst s (Z.of_nat v) k ≠ Some PG_VALID →
  finv s (Some (v, todo ∖ {[k]})) ex d.
Proof.
  intros [Hd [Hm Hr] Hp Hl] Hk. split; try done; [|by destruct Hl; split]. split.
  - intros lpn p Hlp Hex. destruct (Hm lpn p Hlp Hex) as [->|(b & j & Hin & Ht & -> & Hv & Hrv)]; [by left|].
    right. exists b, j. split_and!; try done. intros ->. simpl in Ht.
    assert (j ≠ k) by (intros ->; done). set_solver.
  - intros b j Hin Ht. apply Hr; [done|]. intros E. simpl in Ht. set_solver.
Qed.

Lemma detach_page s v todo k :
  finv s (Some (v, todo)) None 0 → in_geo (sp s) (Z.of_nat v) k → k ∈ todo →
  pst s (Z.of_nat v) k = Some PG_VALID →
  ∃ lpn p, get_rmap_ent s (page s (Z.of_nat v) k) = Some lpn ∧ rd (maptbl s) lpn = Some p
    ∧ mapped_ppa p = true ∧ finv s (Some (v, todo ∖ {[k]})) (Some lpn) 0.
Proof.
  intros [Hd [Hm Hr] Hp Hl] Hin Hk Hv. pose proof (fi_geo _ Hd) as Hg.
  destruct (Hr (Z.of_nat v) k Hin (λ _, Hk) Hv) as (lpn & _ & Hrl & Hml).
  exists lpn, (page s (Z.of_nat v) k).
  split; [unfold get_rmap_ent, page in *; by rewrite (ppa2pgidx_eq (sp s) Hg)|].
  split; [done|]. split; [by apply page_mapped|].
  split; try done; [|by destruct Hl; split]. split.
  - intros lpn' p Hlp Hex. destruct (Hm lpn' p Hlp) as [->|(b & j & Hbj & Ht & -> & Hvj & Hrv)]; [done|by left|].
    right. exists b, j. split_and!; try done. intros ->. simpl in Ht.
    assert (j ≠ k) by (intros ->; congruence). set_solver.
  - intros b j Hbj Ht Hvj. destruct (Hr b j Hbj) as (lpn' & _ & Hr' & Hm'); [|done|].
    { intros E. simpl in Ht. set_solver. }
    exists lpn'. split_and!; try done. intros [= <-].
    assert (Hpp : page s b j = page s (Z.of_nat v) k) by congruence.
    destruct (page_at_inj _ Hg b j (Z.of_nat v) k) as [-> ->];
      [apply Hbj|apply Hin|unfold page in Hpp; by rewrite Hpp|]. simpl in Ht. set_solver.
Qed.

(** Logical pages stay mapped. *)
Definition kept s s' : Prop :=
  ∀ j p, rd (maptbl s) j = Some p → ∃ p', rd (maptbl s') j = Some p' ∧ mapped_ppa p' = mapped_ppa p.

Lemma kept_refl s s' : maptbl s' = maptbl s → kept s s'.
Proof. intros E j p Hj. rewrite E. eauto. Qed.

Lemma kept_trans s1 s2 s3 : kept s1 s2 → kept s2 s3 → kept s1 s3.
Proof.
  intros H1 H2 j p Hj. destruct (H1 j p Hj) as (p2 & Hj2 & <-).
  destruct (H2 j p2 Hj2) as (p3 & Hj3 & <-). eauto.
Qed.

(** What a step of the collection of line [v] keeps. *)
Definition gc_step s s' v : Prop :=
  sp s' = sp s ∧ kept s s' ∧ ∀ k, 0 ≤ k < pgs_per_line (sp s) → pst s' (Z.of_nat v) k = pst s (Z.of_nat v) k.

Lemma gc_step_refl s s' v : frame s s' → (∀ q, get_pg s' q = get_pg s q) → gc_step s s' v.
Proof.
  intros (E1 & E2 & _) Hg. split_and!; [done|by apply kept_refl|].
  intros k Hk. unfold pst, st, page. by rewrite E1, Hg.
Qed.

Lemma gc_step_trans s1 s2 s3 v : gc_step s1 s2 v → gc_step s2 s3 v → gc_step s1 s3 v.
Proof.
  intros (E1 & K1 & P1) (E2 & K2 & P2). split_and!; [congruence|by eapply kept_trans|].
  intros k Hk. rewrite P2, P1 by (by rewrite ?E1). done.
Qed.
Lemma delay_ok s gc ex d b k c :
  finv s gc ex d → in_geo (sp s) b k →
  ∃ s', (if enable_gc_delay (sp s) then '(s, _) ← ssd_advance_status clock s (page s b k) c; Some s
         else Some s) = Some s' ∧ finv s' gc ex d
    ∧ frame s s' ∧ avail s' = avail s ∧ ∀ q, get_pg s' q = get_pg s q.
Proof.
  intros Hi Hin. destruct (enable_gc_delay (sp s)); [|by exists s].
  destruct (advance_status_ok s gc ex d b k c Hi Hin) as (s' & lat & -> & ?). by exists s'.
Qed.

Lemma endtime_ok s gc ex d b k :
  finv s gc ex d → in_geo (sp s) b k →
  ∃ s', (l ← get_lun s (page s b k);
         set_lun s (page s b k) (l <| gc_endtime := next_lun_avail_time l |>)) = Some s'
    ∧ finv s' gc ex d ∧ frame s s' ∧ avail s' = avail s ∧ ∀ q, get_pg s' q = get_pg s q.
Proof.
  intros Hi Hin. destruct (get_pg_Some s b k Hi Hin) as (y & (l & Hl)%get_lun_of_pg).
  rewrite Hl. cbn -[set_lun].
  destruct (set_lun_time s (page s b k) l (l <| gc_endtime := next_lun_avail_time l |>) Hl)
    as (s' & Hs & Hf & Hsh & Hg); [done|].
  exists s'. split; [done|]. destruct (finv_time s s' gc ex d Hi Hf Hsh Hg). done.
Qed.

Lemma gc_write_page_ok s v todo k :
  finv s (Some (v, todo)) None 0 → in_geo (sp s) (Z.of_nat v) k → k ∈ todo →
  pst s (Z.of_nat v) k = Some PG_VALID → 1 ≤ avail s →
  ∃ s', gc_write_page realloc_ok clock s (page s (Z.of_nat v) k) = Some s'
    ∧ finv s' (Some (v, todo ∖ {[k]})) None 0 ∧ avail s' = avail s - 1 ∧ gc_step s s' v.
Proof.
  intros Hi Hin Hk Hv Hav. destruct (detach_page s v todo k Hi Hin Hk Hv) as (lpn & p & Hr & Hm & Hmp & Hi1).
  pose proof (cur_in_geo _ _ _ _ Hi) as Hcur. set (gc := Some (v, todo ∖ {[k]})) in *.
  assert (Hlpn : 0 ≤ lpn < tt_pgs (sp s)) by (apply rd_lt in Hm; by rewrite (fi_mlen _ Hi) in Hm).
  unfold gc_write_page. rewrite Hr. cbn [mbind option_bind].
  destruct (program_ok s gc lpn Hi1 Hlpn Hav) as (s2 & p2 & -> & Hi2 & Hav2 & E2 & -> & Hu & Hm2).
  cbn [mbind option_bind]. set (q := page s (Z.of_nat (cur s)) (off s)).
  assert (Hin2 : in_geo (sp s2) (Z.of_nat (cur s)) (off s)) by (by rewrite E2).
  destruct (delay_ok s2 gc None 0 (Z.of_nat (cur s)) (off s) {| cmd := NAND_WRITE; stime := 0 |} Hi2 Hin2)
    as (s3 & H3 & Hi3 & F3 & Hav3 & G3).
  replace (page s2 (Z.of_nat (cur s)) (off s)) with q in H3 by (unfold q, page; by rewrite E2).
  rewrite H3. cbn [mbind option_bind]. pose proof F3 as (E3 & _).
  destruct (endtime_ok s3 gc None 0 (Z.of_nat (cur s)) (off s) Hi3) as (s4 & H4 & Hi4 & F4 & Hav4 & G4);
    [by rewrite E3|].
  replace (page s3 (Z.of_nat (cur s)) (off s)) with q in H4 by (unfold q, page; by rewrite E3, E2).
  exists s4. split_and!; [done|done|lia|].
  apply gc_step_trans with s2; [|by eapply gc_step_trans; apply gc_step_refl].
  split_and!; [done| |].
  - intros j y Hj. rewrite Hm2. case_decide as E; [subst|by eauto].
    eexists. split; [done|]. rewrite Hm in Hj. simplify_eq. rewrite Hmp. apply page_mapped; [apply Hi|done].
  - intros j Hj. rewrite Hu by (split; [apply Hin|done]). rewrite decide_False; [done|].
    intros [E _]. destruct (cur_not_listed s _ (fi_lines _ _ _ _ Hi)) as (Hn & _). apply Hn.
    assert (cur s = v) as -> by lia. left.
Qed.

(** Valid pages among a list of pages of a line. *)
Definition nvalid s v (ks : list Z) : Z :=
  Z.of_nat (length (filter (λ k, pst s (Z.of_nat v) k = Some PG_VALID) ks)).

Lemma nvalid_step s s' v ks :
  gc_step s s' v → (∀ k, k ∈ ks → 0 ≤ k < pgs_per_line (sp s)) → nvalid s' v ks = nvalid s v ks.
Proof.
  intros (_ & _ & Hp) Hks. unfold nvalid. do 2 f_equal. apply list_filter_ext. intros k Hk.
  by rewrite Hp by auto.
Qed.

Lemma nvalid_cons s v k ks :
  nvalid s v (k :: ks) = b2z (bool_decide (pst s (Z.of_nat v) k = Some PG_VALID)) + nvalid s v ks.
Proof. unfold nvalid. rewrite filter_cons. case_decide; case_bool_decide; simpl; try done; lia. Qed.

Lemma clean_page_ok s v todo k (p := page s (Z.of_nat v) k) :
  finv s (Some (v, todo)) None 0 → in_geo (sp s) (Z.of_nat v) k → k ∈ todo →
  b2z (bool_decide (pst s (Z.of_nat v) k = Some PG_VALID)) ≤ avail s →
  ∃ x s1, get_pg s p = Some x ∧
    (if status x =? PG_VALID then s0 ← gc_read_page clock s p; gc_write_page realloc_ok clock s0 p
     else Some s) = Some s1 ∧ finv s1 (Some (v, todo ∖ {[k]})) None 0
    ∧ avail s1 = avail s - b2z (bool_decide (pst s (Z.of_nat v) k = Some PG_VALID)) ∧ gc_step s s1 v.
Proof.
  intros Hi Hin Hk Hav. destruct (get_pg_Some s _ _ Hi Hin) as [x Hx]. exists x. fold p in Hx. rewrite Hx.
  assert (Hst : pst s (Z.of_nat v) k = Some (status x)) by (unfold pst, st; fold p; by rewrite Hx).
  destruct (Z.eqb_spec (status x) PG_VALID) as [E|E].
  - rewrite bool_decide_eq_true_2 in Hav |- * by congruence. simpl in Hav |- *.
    destruct (delay_ok s _ None 0 _ _ {| cmd := NAND_READ; stime := 0 |} Hi Hin)
      as (s0 & H0 & Hi0 & F0 & Hav0 & G0).
    pose proof (gc_step_refl s s0 v F0 G0) as Hst0. pose proof F0 as (E0 & _).
    unfold gc_read_page. fold p in H0. rewrite H0. cbn [mbind option_bind].
    destruct (gc_write_page_ok s0 v todo k Hi0) as (s1 & H1 & Hi1 & Hav1 & Hst1);
      [by rewrite E0|done|destruct Hst0 as (_ & _ & ->); [congruence|apply Hin]|lia|].
    replace (page s0 (Z.of_nat v) k) with p in H1 by (unfold p, page; by rewrite E0).
    exists s1. split_and!; [done|done|done|lia|by eapply gc_step_trans].
  - rewrite bool_decide_eq_false_2 by congruence. exists s. split_and!; [done|done| |simpl; lia|by apply gc_step_refl].
    apply skip_page; [done|congruence].
Qed.

Lemma clean_pages_ok v c l gs : ∀ s p todo,
  finv s (Some (v, todo)) None 0 → 0 ≤ Z.of_nat v < blks_per_pl (sp s) →
  0 ≤ c < nchs (sp s) → 0 ≤ l < luns_per_ch (sp s) →
  (∀ g, p <| g_pg := g |> = at_coord (Z.of_nat v) c l g) →
  (∀ g, g ∈ gs → 0 ≤ g < pgs_per_blk (sp s) ∧ offset (sp s) c l g ∈ todo) → NoDup gs →
  nvalid s v (offset (sp s) c l <$> gs) ≤ avail s →
  ∃ s', clean_pages realloc_ok clock s p gs = Some s'
    ∧ finv s' (Some (v, todo ∖ list_to_set (offset (sp s) c l <$> gs))) None 0
    ∧ avail s' = avail s - nvalid s v (offset (sp s) c l <$> gs) ∧ gc_step s s' v.
Proof.
  induction gs as [|g gs IH]; intros s p todo Hi Hv Hc Hl Hp Hgs Hnd Hav.
  { exists s. split_and!; [done| |unfold nvalid; simpl; lia|by apply gc_step_refl].
    simpl. by replace (todo ∖ ∅) with todo by set_solver. }
  pose proof (fi_geo _ Hi) as Hg. apply NoDup_cons in Hnd as [Hng Hnd].
  destruct (Hgs g) as [Hgr Hk]; [left|]. rewrite fmap_cons. set (k := offset (sp s) c l g) in *.
  rewrite fmap_cons, nvalid_cons in Hav. fold k in Hav.
  assert (Hks : ∀ j, j ∈ offset (sp s) c l <$> gs → 0 ≤ j < pgs_per_line (sp s)).
  { intros j (x & -> & Hx)%list_elem_of_fmap. destruct (Hgs x) as [Hxr _]; [by right|].
    by apply offset_range. }
  assert (Hin : in_geo (sp s) (Z.of_nat v) k) by (split; [done|by apply offset_range]).
  cbn [clean_pages]. rewrite (Z.mod_small g) by (unfold PG_BITS; destruct Hg; lia).
  set (p' := p <| g_pg := g |>). assert (Hp' : p' = page s (Z.of_nat v) k).
  { unfold p', page, k. rewrite Hp. symmetry. apply page_at_offset; lia || done. }
  assert (Hnn : 0 ≤ nvalid s v (offset (sp s) c l <$> gs)) by (unfold nvalid; lia).
  destruct (clean_page_ok s v todo k Hi Hin Hk ltac:(lia)) as (x & s1 & Hx & Hs1 & Hi1 & Hav1 & Hst1).
  rewrite Hp', Hx. cbn [mbind option_bind].
  rewrite Hs1. cbn [mbind option_bind]. pose proof Hst1 as (E1 & _ & _).
  pose proof (nvalid_step s s1 v _ Hst1 Hks) as Hnv.
  destruct (IH s1 (page s (Z.of_nat v) k) (todo ∖ {[k]}) Hi1) as (s' & -> & Hi' & Hav' & Hst'); rewrite ?E1; try done.
  - intros g'. rewrite <- Hp'. apply Hp.
  - intros g' Hg'. destruct (Hgs g') as [Hr' Ht']; [by right|]. split; [done|].
    apply elem_of_difference. split; [done|]. rewrite elem_of_singleton. intros E.
    apply offset_inj in E as (_ & _ & ->); done.
  - rewrite Hnv. lia.
  - exists s'. split; [done|]. rewrite E1 in Hi', Hav'. split_and!; [| |by eapply gc_step_trans].
    + cbn [list_to_set foldr]. by replace (todo ∖ ({[k]} ∪ _)) with
        (todo ∖ {[k]} ∖ list_to_set (C := gset Z) (offset (sp s) c l <$> gs)) by set_solver.
    + rewrite nvalid_cons. lia.
Qed.
(** *** Erasing a block *)

Definition blk_pages (g : ssdparams) (c l : Z) : list Z := offset g c l <$> seqZ 0 (pgs_per_blk g).

Lemma elem_of_blk_pages g c l k :
  geo_ok g → 0 ≤ c < nchs g → 0 ≤ l < luns_per_ch g → 0 ≤ k < pgs_per_line g →
  k ∈ blk_pages g c l ↔ k mod nchs g = c ∧ (k / nchs g) mod luns_per_ch g = l.
Proof.
  intros Hg Hc Hl Hk. destruct (page_coords g Hg k Hk) as (H1 & H2 & H3 & H4).
  unfold blk_pages. rewrite list_elem_of_fmap. split.
  - intros (j & E & Hj%elem_of_seqZ). rewrite <- H4 in E at 1. apply offset_inj in E; naive_solver.
  - intros [<- <-]. eexists. split; [by symmetry|]. apply elem_of_seqZ. lia.
Qed.

Lemma mark_block_free_spec s p b :
  get_blk s p = Some b → Z.of_nat (length (pg b)) = pgs_per_blk (sp s) →
  ∃ s', mark_block_free s p = Some s' ∧ frame s s' ∧ shape s s'
    ∧ ∀ q, st s' q = if decide (bkey q = bkey p) then (λ _, PG_FREE) <$> get_pg s q else st s q.
Proof.
  intros Hb Hlen. unfold mark_block_free. rewrite Hb. cbn -[set_blk].
  rewrite (proj2 (Z.leb_le _ _)) by lia. cbn -[set_blk].
  rewrite take_ge, drop_ge, app_nil_r by lia.
  set (b' := b <| pg := _ |> <| b_ipc := 0 |> <| b_vpc := 0 |> <| erase_cnt ::= Z.succ |>).
  destruct (set_blk_spec s p b b' Hb) as (s' & Hs' & Hf & _ & Hg). exists s'. split_and!; try done.
  - intros q. rewrite Hg. case_decide as E; [|done]. rewrite (get_blk_key s p q E), Hb. simpl.
    by rewrite length_fmap.
  - intros q. unfold st, get_pg. rewrite Hg. case_decide as E; [|done].
    rewrite (get_blk_key s p q E), Hb. cbn -[rd]. unfold rd.
    case_match; [|done]. rewrite list_lookup_fmap. by destruct (pg b !! _).
Qed.

Lemma erase_ok s v todo c l (g := sp s) (p := at_coord (Z.of_nat v) c l 0) :
  finv s (Some (v, todo)) None 0 → 0 ≤ Z.of_nat v < blks_per_pl g → 0 ≤ c < nchs g →
  0 ≤ l < luns_per_ch g → (∀ k, k ∈ blk_pages g c l → k ∉ todo) →
  ∃ s', mark_block_free s p = Some s' ∧ finv s' (Some (v, todo)) None 0 ∧ avail s' = avail s
    ∧ frame s s' ∧ ∀ k, 0 ≤ k < pgs_per_line g →
        pst s' (Z.of_nat v) k = if decide (k ∈ blk_pages g c l) then Some PG_FREE
                                else pst s (Z.of_nat v) k.
Proof.
  intros Hi Hv Hc Hl Htodo. pose proof (fi_geo _ Hi) as Hg.
  assert (Hp : page s (Z.of_nat v) (offset g c l 0) = p) by (apply page_at_offset; lia || done).
  assert (Hin : in_geo g (Z.of_nat v) (offset g c l 0))
    by (split; [done|apply offset_range; [done..|pose proof (go_pg g Hg); lia]]).
  destruct (fi_blk _ Hi _ _ Hin) as (b & Hb & Hlen). rewrite Hp in Hb.
  destruct (mark_block_free_spec s p b Hb Hlen) as (s' & Hs' & Hf & Hsh & Hst).
  pose proof Hf as (E1 & _).
  assert (Hpst : ∀ b k, in_geo g b k → pst s' b k =
    if decide (b = Z.of_nat v ∧ k ∈ blk_pages g c l) then Some PG_FREE else pst s b k).
  { intros b1 k [Hb1 Hk]. unfold pst at 1, page. rewrite E1, Hst. fold (page s b1 k).
    destruct (get_pg_Some s b1 k Hi) as [y Hy]; [done|].
    rewrite Hy. rewrite (decide_ext (bkey (page s b1 k) = bkey p)
      (b1 = Z.of_nat v ∧ k ∈ blk_pages g c l)); [done|].
    rewrite elem_of_blk_pages by done. unfold page, page_at, at_coord, bkey, p. simpl. naive_solver. }
  exists s'. split; [done|].
  destruct (finv_frame s s' (Some (v, todo)) None 0 Hi Hf Hsh) as [Hi' Hav'].
  - intros b1 k Hb1 Ht. rewrite Hpst by done. rewrite decide_False; [done|].
    intros [E Hk]. by apply (Htodo k Hk), Ht.
  - intros b1 k Hb1. rewrite Hpst by done. case_decide; auto.
  - split_and!; try done. intros k Hk. rewrite Hpst by done.
    by rewrite (decide_ext (Z.of_nat v = Z.of_nat v ∧ k ∈ blk_pages g c l) (k ∈ blk_pages g c l)) by naive_solver.
Qed.
Definition line_pages (g : ssdparams) (bs : list (Z * Z)) : list Z :=
  '(c, l) ← bs; blk_pages g c l.

Definition blk_in (g : ssdparams) (x : Z * Z) : Prop := 0 ≤ x.1 < nchs g ∧ 0 ≤ x.2 < luns_per_ch g.

Lemma blk_pages_range g c l k : geo_ok g → blk_in g (c, l) → k ∈ blk_pages g c l → 0 ≤ k < pgs_per_line g.
Proof.
  intros Hg [Hc Hl] (x & -> & Hx%elem_of_seqZ)%list_elem_of_fmap. apply offset_range; [done..|lia].
Qed.

Lemma elem_of_line_pages g bs k :
  k ∈ line_pages g bs ↔ ∃ c l, (c, l) ∈ bs ∧ k ∈ blk_pages g c l.
Proof.
  unfold line_pages. rewrite list_elem_of_bind. split.
  - intros ([c l] & Hk & Hb). by exists c, l.
  - intros (c & l & Hb & Hk). by exists (c, l).
Qed.

Lemma nvalid_app s v ks ks' : nvalid s v (ks ++ ks') = nvalid s v ks + nvalid s v ks'.
Proof. unfold nvalid. rewrite filter_app, length_app. lia. Qed.

(** One turn of the loops of [do_gc]: a block is emptied and erased. *)
Lemma clean_block_ok s v todo c l (g := sp s) (p := at_coord (Z.of_nat v) c l 0) :
  finv s (Some (v, todo)) None 0 → 0 ≤ Z.of_nat v < blks_per_pl g → blk_in g (c, l) →
  (∀ k, k ∈ blk_pages g c l → k ∈ todo) → nvalid s v (blk_pages g c l) ≤ avail s →
  ∃ s', (s1 ← clean_one_block realloc_ok clock s p;
         s2 ← mark_block_free s1 p;
         s3 ← (if enable_gc_delay (sp s2) then
                 '(s, _) ← ssd_advance_status clock s2 p {| cmd := NAND_ERASE; stime := 0 |}; Some s
               else Some s2);
         lunp ← get_lun s3 p;
         set_lun s3 p (lunp <| gc_endtime := next_lun_avail_time lunp |>)) = Some s'
    ∧ finv s' (Some (v, todo ∖ list_to_set (blk_pages g c l))) None 0
    ∧ avail s' = avail s - nvalid s v (blk_pages g c l) ∧ sp s' = g ∧ kept s s'
    ∧ ∀ k, 0 ≤ k < pgs_per_line g →
        pst s' (Z.of_nat v) k = if decide (k ∈ blk_pages g c l) then Some PG_FREE
                                else pst s (Z.of_nat v) k.
Proof.
  subst g. intros Hi Hv [Hc Hl] Hks Hav. simpl in Hc, Hl. pose proof (fi_geo _ Hi) as Hg.
  assert (Hin : in_geo (sp s) (Z.of_nat v) (offset (sp s) c l 0))
    by (split; [done|apply offset_range; [done..|pose proof (go_pg (sp s) Hg); lia]]).
  assert (Hpage : ∀ s', sp s' = (sp s) → page s' (Z.of_nat v) (offset (sp s) c l 0) = p)
    by (intros s' E; unfold page; rewrite E; apply page_at_offset; lia || done).
  unfold clean_one_block.
  destruct (clean_pages_ok v c l (seqZ 0 (pgs_per_blk (sp s))) s p todo Hi Hv Hc Hl)
    as (s1 & -> & Hi1 & Hav1 & (E1 & K1 & P1)); [done| |apply NoDup_seqZ|done|].
  { intros x Hx. split; [apply elem_of_seqZ in Hx; lia|]. apply Hks. by apply list_elem_of_fmap_2. }
  change (offset (sp s) c l <$> seqZ 0 (pgs_per_blk (sp s))) with (blk_pages (sp s) c l) in *.
  set (todo' := todo ∖ list_to_set (blk_pages (sp s) c l)) in *. cbn [mbind option_bind].
  destruct (erase_ok s1 v todo' c l Hi1) as (s2 & H2 & Hi2 & Hav2 & F2 & P2); rewrite ?E1; try done.
  { intros k Hk. subst todo'. set_solver. }
  fold p in H2. rewrite H2. cbn [mbind option_bind]. pose proof F2 as (E2 & M2 & _).
  destruct (delay_ok s2 (Some (v, todo')) None 0 (Z.of_nat v) (offset (sp s) c l 0)
              {| cmd := NAND_ERASE; stime := 0 |} Hi2) as (s3 & H3 & Hi3 & F3 & Hav3 & G3).
  { by rewrite E2, E1. }
  rewrite Hpage in H3 by congruence. rewrite H3. cbn [mbind option_bind]. pose proof F3 as (E3 & M3 & _).
  destruct (endtime_ok s3 (Some (v, todo')) None 0 (Z.of_nat v) (offset (sp s) c l 0) Hi3)
    as (s4 & H4 & Hi4 & F4 & Hav4 & G4).
  { by rewrite E3, E2, E1. }
  rewrite Hpage in H4 by congruence. pose proof F4 as (E4 & M4 & _).
  exists s4. split_and!; [done|done|lia|congruence| |].
  - eapply kept_trans; [done|]. apply kept_refl. congruence.
  - intros k Hk. rewrite <- E1 in Hk. destruct (gc_step_refl s2 s3 v F3 G3) as (_ & _ & P3).
    destruct (gc_step_refl s3 s4 v F4 G4) as (_ & _ & P4).
    rewrite P4, P3, P2, E1 by (by rewrite ?E3, ?E2). case_decide; [done|]. apply P1. by rewrite <- E1.
Qed.
Lemma blk_pages_disjoint g c l c' l' k :
  geo_ok g → blk_in g (c, l) → blk_in g (c', l') → k ∈ blk_pages g c l → k ∈ blk_pages g c' l' →
  (c, l) = (c', l').
Proof.
  intros Hg H1 H2 K1 K2. pose proof (blk_pages_range g c l k Hg H1 K1) as Hk.
  destruct H1, H2. simpl in *.
  apply elem_of_blk_pages in K1 as [<- <-]; [|done..]. apply elem_of_blk_pages in K2 as [<- <-]; done.
Qed.

Lemma clean_blocks_ok v bs : ∀ s todo (g := sp s),
  finv s (Some (v, todo)) None 0 → 0 ≤ Z.of_nat v < blks_per_pl g → Forall (blk_in g) bs → NoDup bs →
  (∀ k, k ∈ line_pages g bs → k ∈ todo) → nvalid s v (line_pages g bs) ≤ avail s →
  ∃ s', clean_blocks realloc_ok clock s (Z.of_nat v) bs = Some s'
    ∧ finv s' (Some (v, todo ∖ list_to_set (line_pages g bs))) None 0
    ∧ avail s' = avail s - nvalid s v (line_pages g bs) ∧ sp s' = g ∧ kept s s'
    ∧ ∀ k, 0 ≤ k < pgs_per_line g →
        pst s' (Z.of_nat v) k = if decide (k ∈ line_pages g bs) then Some PG_FREE
                                else pst s (Z.of_nat v) k.
Proof.
  induction bs as [|[c l] bs IH]; intros s todo g Hi Hv Hbs Hnd Hks Hav; subst g.
  { exists s. split_and!; [done| |unfold nvalid; simpl; lia|done|by apply kept_refl|done].
    simpl. by replace (todo ∖ ∅) with todo by set_solver. }
  apply Forall_cons in Hbs as [Hcl Hbs]. apply NoDup_cons in Hnd as [Hn Hnd].
  pose proof (fi_geo _ Hi) as Hg. change (line_pages (sp s) ((c, l) :: bs)) with
    (blk_pages (sp s) c l ++ line_pages (sp s) bs) in *. rewrite nvalid_app in Hav |- *.
  assert (Hdis : ∀ k, k ∈ line_pages (sp s) bs → k ∉ blk_pages (sp s) c l).
  { intros k (c' & l' & Hb & Hk')%elem_of_line_pages Hk. rewrite Forall_forall in Hbs.
    pose proof (Hbs _ Hb) as Hb'. pose proof (blk_pages_disjoint _ _ _ _ _ k Hg Hcl Hb' Hk Hk'). congruence. }
  assert (Hr : ∀ k, k ∈ line_pages (sp s) bs → 0 ≤ k < pgs_per_line (sp s)).
  { intros k (c' & l' & Hb & Hk)%elem_of_line_pages. rewrite Forall_forall in Hbs.
    by eapply blk_pages_range, Hk; [|apply Hbs]. }
  destruct (clean_block_ok s v todo c l Hi Hv Hcl) as (s1 & H1 & Hi1 & Hav1 & E1 & K1 & P1).
  { intros k Hk. apply Hks, elem_of_app. by left. }
  { unfold nvalid in *. lia. }
  assert (Hnv : nvalid s1 v (line_pages (sp s) bs) = nvalid s v (line_pages (sp s) bs)).
  { unfold nvalid. do 2 f_equal. apply list_filter_ext. intros k Hk.
    by rewrite P1, decide_False by (by auto). }
  set (todo' := todo ∖ list_to_set (blk_pages (sp s) c l)) in *.
  destruct (IH s1 todo' Hi1) as (s' & H' & Hi' & Hav' & E' & K' & P'); rewrite ?E1; try done.
  { intros k Hk. apply elem_of_difference. split; [apply Hks, elem_of_app; by right|].
    rewrite elem_of_list_to_set. by apply Hdis. }
  { rewrite Hnv. lia. }
  rewrite E1 in Hi', Hav', P'. exists s'. split_and!.
  - cbn [clean_blocks]. rewrite (Z.mod_small l), (Z.mod_small c)
      by (unfold LUN_BITS, CH_BITS; destruct Hg, Hcl; simpl in *; lia).
    fold (at_coord (Z.of_nat v) c l 0). rewrite <- H'.
    repeat (apply bind_Some in H1 as (?y & -> & H1); cbn [mbind option_bind]). by rewrite H1.
  - rewrite list_to_set_app_L. by replace (todo ∖ _) with
      (todo' ∖ list_to_set (C := gset Z) (line_pages (sp s) bs)) by (subst todo'; set_solver).
  - rewrite Hav', Hnv. lia.
  - congruence.
  - by eapply kept_trans.
  - intros k Hk. rewrite P', P1 by done. rewrite (decide_ext (k ∈ blk_pages (sp s) c l ++ line_pages (sp s) bs)
      (k ∈ blk_pages (sp s) c l ∨ k ∈ line_pages (sp s) bs)) by apply elem_of_app.
    repeat case_decide; tauto.
Qed.
Lemma elem_of_line_blocks s x : x ∈ line_blocks s ↔ blk_in (sp s) x.
Proof.
  destruct x as [c l]. unfold line_blocks, blk_in. rewrite list_elem_of_bind. split.
  - intros (c' & Hl & Hc%elem_of_seqZ). apply list_elem_of_bind in Hl as (l' & [= -> ->]%list_elem_of_singleton & Hl%elem_of_seqZ).
    simpl. lia.
  - simpl. intros [Hc Hl]. exists c. split; [|by apply elem_of_seqZ; lia].
    apply list_elem_of_bind. exists l. split; [by left|apply elem_of_seqZ; lia].
Qed.

Lemma line_blocks_nodup s : NoDup (line_blocks s).
Proof.
  unfold line_blocks. apply NoDup_bind; [|intros c _|apply NoDup_seqZ].
  - intros c1 c2 x _ _ H1 H2. apply list_elem_of_bind in H1 as (l1 & ->%list_elem_of_singleton & _).
    by apply list_elem_of_bind in H2 as (l2 & [= ? ?]%list_elem_of_singleton & _).
  - apply NoDup_bind; [|intros l _; apply NoDup_singleton|apply NoDup_seqZ].
    intros l1 l2 x _ _ ->%list_elem_of_singleton H2. by apply list_elem_of_singleton in H2 as [= ->].
Qed.

Lemma blk_pages_nodup g c l : geo_ok g → blk_in g (c, l) → NoDup (blk_pages g c l).
Proof.
  intros Hg [Hc Hl]. apply NoDup_fmap_2_strong; [|apply NoDup_seqZ].
  intros x y _ _ E. by apply offset_inj in E as (_ & _ & ->).
Qed.

(** The blocks of a line make up its pages. *)
Lemma line_pages_all s :
  geo_ok (sp s) → line_pages (sp s) (line_blocks s) ≡ₚ seqZ 0 (pgs_per_line (sp s)).
Proof.
  intros Hg. apply NoDup_Permutation; [|apply NoDup_seqZ|].
  - unfold line_pages. apply NoDup_bind; [|intros [c l] H|apply line_blocks_nodup].
    + intros [c l] [c' l'] k H1 H2 K1 K2. apply elem_of_line_blocks in H1, H2.
      by eapply blk_pages_disjoint.
    + apply elem_of_line_blocks in H. by apply blk_pages_nodup.
  - intros k. rewrite elem_of_line_pages, elem_of_seqZ. split.
    + intros (c & l & Hb%elem_of_line_blocks & Hk). pose proof (blk_pages_range _ _ _ _ Hg Hb Hk). lia.
    + intros Hk. destruct (page_coords (sp s) Hg k) as (H1 & H2 & H3 & H4); [lia|].
      eexists _, _. rewrite elem_of_line_blocks, elem_of_blk_pages; [by split; [split|]|done..|lia].
Qed.

Lemma nvalid_all s v :
  geo_ok (sp s) → nvalid s v (line_pages (sp s) (line_blocks s)) = cnt (sp s) (pst s (Z.of_nat v)) PG_VALID.
Proof. intros Hg. unfold nvalid, cnt. by rewrite (line_pages_all s Hg). Qed.

(** *** The victim *)

(** All pages of a line that has just been chosen are still to be looked at. *)
Definition all_pages (g : ssdparams) : gset Z := list_to_set (seqZ 0 (pgs_per_line g)).

Lemma victim_pop m a :
  pq_wf (lines m) (victim_line_pq m) → pqueue_peek (victim_line_pq m) = Some (Some a) →
  ∃ ls q, pqueue_pop (lines m) (victim_line_pq m) = Some (ls, q, Some a)
    ∧ same_lines (lines m) ls ∧ pq_wf ls q ∧ elems (victim_line_pq m) ≡ₚ a :: elems q
    ∧ q_avail q = q_avail (victim_line_pq m).
Proof.
  intros Hpq Hpeek. unfold pqueue_peek in Hpeek. destruct (Z.eqb_spec (q_size (victim_line_pq m)) 1) as [|Hn]; [done|].
  apply bind_Some in Hpeek as (x & Hx & [= ->]).
  destruct (pqueue_pop_wf (lines m) _ Hpq) as (ls & q & r & Hpop & Hwf & _ & _ & Hr).
  pose proof (elems_length _ (ok_size _ _ Hpq) (ok_len _ _ Hpq)) as Hsz. pose proof (ok_size _ _ Hpq).
  destruct r as [y|]; [|destruct Hr as (He & _); rewrite He in Hsz; simpl in Hsz; lia].
  destruct Hr as (Hy & Hperm & _). simplify_eq. exists ls, q. split_and!; try done.
  - by eapply moved_same_lines, pqueue_pop_moved.
  - unfold pqueue_pop in Hpop. rewrite (proj2 (Z.eqb_neq _ _) Hn) in Hpop.
    apply bind_Some in Hpop as (? & _ & Hpop). apply bind_Some in Hpop as (? & _ & Hpop).
    apply bind_Some in Hpop as (? & _ & Hpop). apply bind_Some in Hpop as ([? ?] & _ & Hpop). by simplify_eq.
Qed.

(** Line [a] leaves the victims. *)
Lemma finv_pop s a ls q
    (s' := s <| lm := (lm s) <| lines := ls |> <| victim_line_pq := q |> <| victim_line_cnt ::= Z.pred |> |>) :
  finv s None None 0 → same_lines (lines (lm s)) ls → pq_wf ls q →
  elems (victim_line_pq (lm s)) ≡ₚ a :: elems q → q_avail q = q_avail (victim_line_pq (lm s)) →
  finv s' (Some (a, all_pages (sp s))) None 0.
Proof.
  intros [Hd Hm Hp Hl] Hs Hwf Hperm Hav.
  assert (Htr : ∀ b k, in_geo (sp s) b k → tracked (Some (a, all_pages (sp s))) b k).
  { intros b k [_ Hk] _. unfold all_pages. rewrite elem_of_list_to_set, elem_of_seqZ. lia. }
  split; [|apply (map_inv_ch s); [|done..]|by destruct Hp as [[] ?]; split|].
  - apply (dim_inv_ch s); try done. simpl. by apply same_lines_length.
  - destruct Hm as [Hm Hr]. split.
    + intros lpn p Hlp Hex. destruct (Hm lpn p Hlp Hex) as [->|(b & k & Hin & _ & ?)]; [by left|].
      right. exists b, k. auto.
    + intros b k Hin _. by apply Hr.
  - destruct Hl as [Hfree Hus Hpart Hfc Hid Hvpc Hipc [Hvc Huc Hfull Hvic Hpq Ha]].
    split; try done; simpl.
    + intros b k Hb. apply Hus. rewrite Hperm. simpl. by right.
    + rewrite <- Hpart. unfold all_lines. simpl. rewrite Hperm. solve_Permutation.
    + intros b y Hy. destruct (same_lines_lookup _ _ _ _ Hs Hy) as (y0 & Hy0 & -> & _). by apply Hid.
    + intros b y Hy _. destruct (same_lines_lookup _ _ _ _ Hs Hy) as (y0 & Hy0 & _ & _ & ->).
      by apply Hvpc; [|apply not_elem_of_nil].
    + intros b y Hy _. destruct (same_lines_lookup _ _ _ _ Hs Hy) as (y0 & Hy0 & _ & -> & _).
      by apply Hipc; [|apply not_elem_of_nil].
    + split; simpl; try done.
      * rewrite Hvc, Hperm. cbn [length]. lia.
      * intros b y Hb Hy. destruct (same_lines_lookup _ _ _ _ Hs Hy) as (y0 & Hy0 & _ & _ & ->). by eapply Hfull.
      * intros b y Hb Hy. destruct (same_lines_lookup _ _ _ _ Hs Hy) as (y0 & Hy0 & _ & _ & ->).
        eapply Hvic, Hy0. rewrite Hperm. by right.
      * lia.
Qed.

Lemma select_victim_ok s force :
  finv s None None 0 →
  ∃ s' r, select_victim_line s force = Some (s', r)
    ∧ (r = None → force = true → victim_line_cnt (lm s) = 0)
    ∧ match r with
      | None => s' = s
      | Some v => finv s' (Some (v, all_pages (sp s))) None 0 ∧ avail s' = avail s ∧ sp s' = sp s
          ∧ maptbl s' = maptbl s ∧ 0 ≤ Z.of_nat v < blks_per_pl (sp s)
          ∧ (∃ l, line_at s' v = Some l ∧ l_id l = Z.of_nat v)
          ∧ cnt (sp s) (pst s' (Z.of_nat v)) PG_VALID < pgs_per_line (sp s)
      end.
Proof.
  intros Hi. pose proof (fi_lists _ _ Hi) as [Hvc Huc Hfull Hvic Hpq Hav].
  unfold select_victim_line. destruct (pqueue_peek (victim_line_pq (lm s))) as [[a|]|] eqn:Hpeek; cbn -[pqueue_pop line_at].
  - destruct (victim_pop (lm s) a Hpq Hpeek) as (ls & q & Hpop & Hs & Hwf & Hperm & Hq).
    assert (Ha : a ∈ elems (victim_line_pq (lm s))) by (rewrite Hperm; left).
    destruct (line_in_range s None a Hi Hi) as [Hr [l Hl]]; [unfold all_lines; set_solver|].
    unfold line_at at 1. rewrite Hl. cbn -[pqueue_pop line_at].
    destruct (negb force && _) eqn:Hf.
    { exists s, None. split; [done|]. split; [|done]. intros _ ->. done. }
    rewrite Hpop. eexists _, (Some a). split; [done|]. split; [done|]. split_and!; try done; try lia.
    + by apply finv_pop.
    + pose proof (Hs a) as Hsa. rewrite Hl in Hsa. unfold line_at. simpl.
      destruct (ls !! a) as [l'|] eqn:Hl'; [|done]. exists l'. split; [done|].
      destruct (same_lines_lookup _ _ _ _ Hs Hl') as (y0 & Hy0 & -> & _). by apply (fi_id _ _ Hi).
    + pose proof (Hvic a l Ha Hl) as Hlt. rewrite (fi_vpc _ _ Hi a l Hl) in Hlt by set_solver.
      rewrite (cnt_ext (sp s) (pst s (Z.of_nat a))); [done|]. intros k Hk. by apply pst_ch.
  - exists s, None. split_and!; try done. intros _ _. rewrite Hvc. unfold pqueue_peek in Hpeek.
    destruct (Z.eqb_spec (q_size (victim_line_pq (lm s))) 1) as [E|];
      [|by apply bind_Some in Hpeek as (? & _ & ?)].
    rewrite (elems_length _ (ok_size _ _ Hpq) (ok_len _ _ Hpq)). lia.
  - exfalso. unfold pqueue_peek in Hpeek. destruct (Z.eqb_spec (q_size (victim_line_pq (lm s))) 1); [done|].
    apply bind_None in Hpeek as [Hn|(? & _ & ?)]; [|done]. apply rd_None in Hn.
    destruct Hpq. lia.
Qed.
(** The collected line joins the free lines. *)
Lemma mark_line_free_ok s v todo p :
  finv s (Some (v, todo)) None 0 → get_line s p = v →
  (∀ k, 0 ≤ k < pgs_per_line (sp s) → pst s (Z.of_nat v) k = Some PG_FREE) →
  ∃ s', mark_line_free s p = Some s' ∧ finv s' None None 0 ∧ avail s' = avail s + pgs_per_line (sp s)
    ∧ sp s' = sp s ∧ maptbl s' = maptbl s.
Proof.
  intros [Hd Hm Hp Hl] Hpv Hfr. destruct (line_in_range s _ v Hd Hl) as [Hv [l Hll]];
    [right; left|].
  unfold mark_line_free, line_at. rewrite Hpv, Hll. cbn. eexists. split; [done|].
  pose proof (all_lines_nodup _ _ Hl) as Hnd. unfold all_lines in Hnd. simpl in Hnd.
  rewrite NoDup_cons, NoDup_cons in Hnd. destruct Hnd as (_ & Hnv & _).
  split_and!; [|unfold avail; simpl; rewrite length_app; simpl; change (off (set_line _ _ _ <| lm := _ |>)) with (off s); nia|done|done].
  split; [|apply (map_inv_ch s); [|done..]|by destruct Hp as [[] ?]; split|].
  - apply (dim_inv_ch s); try done. simpl. by rewrite length_insert.
  - destruct Hm as [Hm Hr]. split.
    + intros lpn q Hq Hex. destruct (Hm lpn q Hq Hex) as [->|(b & k & Hin & _ & ?)]; [by left|].
      right. by exists b, k.
    + intros b k Hin _ Hvd. apply Hr; [done| |done]. intros ->.
      rewrite Hfr in Hvd by apply Hin. done.
  - destruct Hl as [Hfree Hus Hpart Hfc Hid Hvpc Hipc [Hvc Huc Hfull Hvic Hpq Ha]].
    assert (H0 : ∀ w, w ≠ PG_FREE → cnt (sp s) (pst s (Z.of_nat v)) w = 0).
    { intros w Hw. unfold cnt. destruct (filter _ _) as [|k ks] eqn:E; [done|].
      assert (Hk : k ∈ k :: ks) by left. rewrite <- E in Hk. apply list_elem_of_filter in Hk as [Hk Hkr%elem_of_seqZ].
      rewrite Hfr in Hk by lia. congruence. }
    assert (Hcnt : ∀ a y, <[v := l <| l_ipc := 0 |> <| l_vpc := 0 |>]> (lines (lm s)) !! a = Some y →
      l_id y = Z.of_nat a ∧ l_vpc y = cnt (sp s) (pst s (Z.of_nat a)) PG_VALID
      ∧ l_ipc y = cnt (sp s) (pst s (Z.of_nat a)) PG_INVALID).
    { intros a y Hy. destruct (decide (a = v)) as [->|Hne].
      - rewrite list_lookup_insert_eq in Hy by (by eapply lookup_lt_Some). injection Hy as <-. simpl.
        rewrite !H0 by done. by rewrite (Hid v l).
      - rewrite list_lookup_insert_ne in Hy by done. simpl in *.
        split_and!; [by apply Hid|apply Hvpc|apply Hipc]; try done; by rewrite list_elem_of_singleton. }
    split; simpl; try done.
    + intros a k [Ha'| ->%list_elem_of_singleton]%elem_of_app Hk; [by apply Hfree|by apply Hfr].
    + rewrite <- Hpart. unfold all_lines. simpl. rewrite <- !(assoc_L (++)). solve_Permutation.
    + rewrite Hfc, length_app. simpl. lia.
    + intros a y Hy. by apply Hcnt.
    + intros a y Hy _. by apply Hcnt.
    + intros a y Hy _. by apply Hcnt.
    + split; simpl; try done.
      * intros a y Ha'. rewrite list_lookup_insert_ne by set_solver. by apply Hfull.
      * intros a y Ha'. rewrite list_lookup_insert_ne by set_solver. by apply Hvic.
      * eapply pq_wf_lines, Hpq. by eapply insert_line_pos.
Qed.

(** A collection never runs out of pages when one line is free, and gains some. *)
Lemma do_gc_ok s force :
  finv s None None 0 → pgs_per_line (sp s) ≤ avail s →
  ∃ s' ok, do_gc realloc_ok clock s force = Some (s', ok) ∧ finv s' None None 0
    ∧ sp s' = sp s ∧ kept s s'
    ∧ if ok : bool then avail s < avail s'
      else s' = s ∧ (force = true → victim_line_cnt (lm s) = 0).
Proof.
  intros Hi Hav. destruct (select_victim_ok s force Hi) as (s1 & r & Hs1 & Hn & Hr).
  unfold do_gc. rewrite Hs1. cbn [mbind option_bind]. destruct r as [v|].
  2: { subst s1. exists s, false. split_and!; try done; [by apply kept_refl|auto]. }
  destruct Hr as (Hi1 & Hav1 & E1 & Em1 & Hv & (l & Hl & Hid) & Hcnt). rewrite Hl. cbn [mbind option_bind].
  pose proof (fi_geo _ Hi) as Hg. rewrite Hid, (Z.mod_small (Z.of_nat v)) by (unfold BLK_BITS; destruct Hg; lia).
  assert (Hg1 : geo_ok (sp s1)) by (by rewrite E1).
  pose proof (nvalid_all s1 v Hg1) as Hnv. pose proof (line_pages_all s1 Hg1) as Hall.
  destruct (clean_blocks_ok v (line_blocks s1) s1 (all_pages (sp s)) Hi1) as (s2 & H2 & Hi2 & Hav2 & E2 & K2 & P2).
  { by rewrite E1. }
  { apply Forall_forall. intros x. apply elem_of_line_blocks. }
  { apply line_blocks_nodup. }
  { intros k Hk. rewrite Hall in Hk. unfold all_pages. by rewrite elem_of_list_to_set, <- E1. }
  { rewrite Hnv, E1. lia. }
  rewrite H2. cbn [mbind option_bind].
  set (p := {| g_blk := Z.of_nat v; g_pg := 0; g_sec := 0; g_pl := 0; g_lun := 0; g_ch := 0; g_rsv := 0 |}).
  destruct (mark_line_free_ok s2 v _ p Hi2) as (s3 & -> & Hi3 & Hav3 & E3 & Em3).
  { unfold get_line, p. simpl. lia. }
  { intros k Hk. rewrite E2 in Hk. rewrite P2 by done. rewrite decide_True; [done|].
    rewrite Hall. apply elem_of_seqZ. lia. }
  cbn [mbind option_bind]. exists s3, true. split_and!; [done|done|congruence| |].
  - apply kept_trans with s1; [by apply kept_refl|]. eapply kept_trans; [done|]. by apply kept_refl.
  - rewrite Hav3, Hav2, Hnv, E2, E1. lia.
Qed.
Lemma avail_bound s gc ex d : finv s gc ex d → 0 ≤ avail s < tt_pgs (sp s).
Proof.
  intros Hi. pose proof (fi_geo _ Hi) as Hg. destruct (cur_in_geo _ _ _ _ Hi) as [_ Ho].
  pose proof (Permutation_length (fi_part _ _ Hi)) as Hlen. rewrite length_seq in Hlen.
  unfold all_lines in Hlen. cbn [length] in Hlen. rewrite !length_app in Hlen.
  unfold avail. destruct Hg. rewrite go_tt0, go_line0 in *.
  assert (Hle : Z.of_nat (length (free_line_list (lm s))) ≤ blks_per_pl (sp s) - 1) by lia. nia.
Qed.

(** The loop ends, since every turn gains a page. *)
Lemma gc_loop_ok fuel : ∀ s,
  finv s None None 0 → pgs_per_line (sp s) ≤ avail s → tt_pgs (sp s) - avail s ≤ Z.of_nat fuel →
  ∃ s', gc_loop realloc_ok clock fuel s = Some s' ∧ finv s' None None 0 ∧ sp s' = sp s ∧ kept s s'
    ∧ avail s ≤ avail s' ∧ (should_gc_high s' = false ∨ victim_line_cnt (lm s') = 0).
Proof.
  induction fuel as [|fuel IH]; intros s Hi Hav Hf; cbn [gc_loop]; pose proof (avail_bound _ _ _ _ Hi).
  { lia. }
  destruct (should_gc_high s) eqn:Hgc.
  2: { exists s. split_and!; try done; [by apply kept_refl|by left]. }
  destruct (do_gc_ok s true Hi Hav) as (s1 & ok & -> & Hi1 & E1 & K1 & Hok). cbn [mbind option_bind].
  destruct ok.
  - destruct (IH s1 Hi1) as (s' & -> & Hi' & E' & K' & Hav' & Hend); [rewrite E1; lia|rewrite E1; lia|].
    exists s'. split_and!; try done; [congruence|by eapply kept_trans|lia].
  - destruct Hok as [-> Hok]. exists s. split_and!; try done. right. auto.
Qed.

(** *** Over-provisioning *)

(** Only logical pages below [U] are in use. *)
Definition uses s (U : Z) : Prop :=
  ∀ lpn p, rd (maptbl s) lpn = Some p → mapped_ppa p = true → lpn < U.

(** Different elements with different numbers below [U]: at most [U] of them. *)
Lemma numbered_length {A} (l : list A) (R : A → Z → Prop) U :
  0 ≤ U → NoDup l → (∀ x, x ∈ l → ∃ y, 0 ≤ y < U ∧ R x y) →
  (∀ x x' y, x ∈ l → x' ∈ l → R x y → R x' y → x = x') → Z.of_nat (length l) ≤ U.
Proof.
  intros HU Hnd Hex Hinj.
  assert (Hys : ∃ ys, Forall2 R l ys ∧ NoDup ys ∧ ∀ y, y ∈ ys → 0 ≤ y < U).
  { induction l as [|x l IH]; [exists []; split_and!; [constructor|constructor|set_solver]|].
    apply NoDup_cons in Hnd as [Hx Hnd].
    destruct IH as (ys & Hr & Hy & Hyr); [done|intros; apply Hex; by right|intros; eapply Hinj; [by right|by right|done..]|].
    destruct (Hex x) as (y & Hyu & Hxy); [left|]. exists (y :: ys). split_and!; [by constructor| |].
    - apply NoDup_cons. split; [|done]. intros (i & Hi)%list_elem_of_lookup.
      destruct (Forall2_lookup_r _ _ _ _ _ Hr Hi) as (x' & Hx' & Hxy').
      apply list_elem_of_lookup_2 in Hx'. apply Hx.
      by rewrite (Hinj x x' y) by (done || by left || by right).
    - intros z [->|Hz]%elem_of_cons; auto. }
  destruct Hys as (ys & Hr & Hy & Hyr). rewrite (Forall2_length _ _ _ Hr).
  assert (Hsub : ys ⊆+ seqZ 0 U).
  { apply NoDup_submseteq; [done|]. intros y Hyy%Hyr. apply elem_of_seqZ. lia. }
  apply submseteq_length in Hsub. rewrite length_seqZ in Hsub. lia.
Qed.

Definition pages_of (n : Z) (f : list nat) : list (nat * Z) := a ← f; (λ k, (a, k)) <$> seqZ 0 n.

Lemma pages_of_length n f : 0 ≤ n → Z.of_nat (length (pages_of n f)) = n * Z.of_nat (length f).
Proof.
  intros Hn. induction f as [|a f IH]; [simpl; lia|]. unfold pages_of in *.
  rewrite bind_cons, length_app, length_fmap, length_seqZ. cbn [length]. lia.
Qed.

Lemma pages_of_nodup n f : NoDup f → NoDup (pages_of n f).
Proof.
  intros Hf. apply NoDup_bind; [|intros a _|done].
  - by intros a b x _ _ (? & -> & _)%list_elem_of_fmap (? & [= ? ?] & _)%list_elem_of_fmap.
  - apply NoDup_fmap; [by intros ? ? [= ?]|apply NoDup_seqZ].
Qed.

Lemma elem_of_pages_of n f a k : (a, k) ∈ pages_of n f ↔ a ∈ f ∧ 0 ≤ k < n.
Proof.
  unfold pages_of. rewrite list_elem_of_bind. split.
  - intros (a' & (k' & [= -> ->] & Hk%elem_of_seqZ)%list_elem_of_fmap & Ha). split; [done|lia].
  - intros [Ha Hk]. exists a. split; [|done]. apply list_elem_of_fmap. exists k.
    split; [done|apply elem_of_seqZ; lia].
Qed.

(** The pages of full lines hold different logical pages. *)
Lemma full_lines_bound s U :
  finv s None None 0 → uses s U → 0 ≤ U →
  pgs_per_line (sp s) * Z.of_nat (length (full_line_list (lm s))) ≤ U.
Proof.
  intros Hi HU HU0. pose proof (fi_geo _ Hi) as Hg. pose proof (fi_lines _ _ _ _ Hi) as Hl.
  assert (Hfull : ∀ a, a ∈ full_line_list (lm s) → a ∈ all_lines s None) by (unfold all_lines; set_solver).
  rewrite <- pages_of_length by (destruct Hg; nia).
  apply (numbered_length _ (λ x lpn, rd (maptbl s) lpn = Some (page s (Z.of_nat x.1) x.2))); [done| | |].
  - apply pages_of_nodup. pose proof (all_lines_nodup _ _ Hl) as Hnd. unfold all_lines in Hnd.
    rewrite NoDup_cons, !NoDup_app in Hnd. tauto.
  - intros [a k] [Ha Hk]%elem_of_pages_of.
    destruct (line_in_range s None a Hi Hl (Hfull a Ha)) as [Har [l Hll]].
    assert (Hin : in_geo (sp s) (Z.of_nat a) k) by done.
    assert (Hv : pst s (Z.of_nat a) k = Some PG_VALID).
    { destruct (decide (pst s (Z.of_nat a) k = Some PG_VALID)) as [|Hnv]; [done|].
      pose proof (cnt_lt (sp s) (pst s (Z.of_nat a)) PG_VALID k Hk Hnv) as Hlt.
      rewrite <- (fi_vpc _ _ Hl a l Hll) in Hlt by set_solver.
      rewrite (ls_full _ _ (fi_lists _ _ Hl) a l Ha Hll) in Hlt. lia. }
    destruct (fi_rmap _ _ _ Hi (Z.of_nat a) k Hin I Hv) as (lpn & _ & _ & Hm).
    exists lpn. split; [|done]. pose proof (rd_lt _ _ _ Hm). split; [lia|].
    apply (HU lpn _ Hm). by apply page_mapped.
  - intros [a k] [a' k'] lpn [Ha Hk]%elem_of_pages_of [Ha' Hk']%elem_of_pages_of. simpl. intros H1 H2.
    assert (Hpp : page s (Z.of_nat a) k = page s (Z.of_nat a') k') by congruence.
    destruct (page_at_inj _ Hg (Z.of_nat a) k (Z.of_nat a') k') as [E ->];
      [done|done|unfold page in Hpp; by rewrite Hpp|]. f_equal. lia.
Qed.

(** With enough spare lines, no victims means free lines. *)
Lemma spare_lines s U :
  finv s None None 0 → uses s U → 0 ≤ U →
  U ≤ (blks_per_pl (sp s) - gc_thres_lines_high (sp s) - 2) * pgs_per_line (sp s) →
  victim_line_cnt (lm s) = 0 → should_gc_high s = false.
Proof.
  intros Hi HU HU0 Hle Hvc. pose proof (full_lines_bound s U Hi HU HU0) as Hfb.
  pose proof (Permutation_length (fi_part _ _ Hi)) as Hlen. rewrite length_seq in Hlen.
  unfold all_lines in Hlen. cbn [length] in Hlen. rewrite !length_app in Hlen.
  pose proof (ls_vcnt _ _ (fi_lists _ _ Hi)) as Hv. pose proof (fi_fcnt _ _ Hi) as Hf.
  destruct (fi_geo _ Hi). assert (0 < pgs_per_line (sp s)) by nia.
  apply Z.leb_gt. rewrite Hf. simpl in Hlen.
  assert (Z.of_nat (length (full_line_list (lm s))) ≤ blks_per_pl (sp s) - gc_thres_lines_high (sp s) - 2) by nia.
  lia.
Qed.
(** *** Requests *)

(** The state between requests when only the first [U] logical pages are used
    and the rest of the capacity is spare. *)
Record ftl_ok (U : Z) s : Prop := {
  fo_inv : finv s None None 0;
  fo_avail : pgs_per_line (sp s) ≤ avail s;
  fo_uses : uses s U;
  fo_thres : 0 ≤ gc_thres_lines_high (sp s);
  fo_spare : 0 ≤ U ≤ (blks_per_pl (sp s) - gc_thres_lines_high (sp s) - 2) * pgs_per_line (sp s)
}.

Lemma uses_kept s s' U :
  length (maptbl s') = length (maptbl s) → kept s s' → uses s U → uses s' U.
Proof.
  intros Hlen Hk HU lpn p' Hp' Hm. pose proof (rd_lt _ _ _ Hp') as Hr. rewrite Hlen in Hr.
  destruct (rd_is_Some (maptbl s) lpn Hr) as [p Hp].
  destruct (Hk lpn p Hp) as (p'' & Hp'' & Hmm). simplify_eq. eapply HU; [done|congruence].
Qed.

Lemma spare_below_tt U s : ftl_ok U s → U ≤ tt_pgs (sp s).
Proof.
  intros [Hi _ _ Hth [HU0 HU]]. destruct (fi_geo _ Hi). rewrite go_tt0. rewrite go_line0 in HU.
  assert (0 ≤ luns_per_ch (sp s) * nchs (sp s) * pgs_per_blk (sp s)) by nia. nia.
Qed.

Lemma write_pages_ok req lpns : ∀ s lat U,
  finv s None None 0 → (∀ lpn, lpn ∈ lpns → 0 ≤ lpn < U) → U ≤ tt_pgs (sp s) → uses s U →
  Z.of_nat (length lpns) ≤ avail s →
  ∃ s' lat', write_pages realloc_ok clock s req lpns lat = Some (s', lat') ∧ finv s' None None 0
    ∧ sp s' = sp s ∧ avail s' = avail s - Z.of_nat (length lpns) ∧ uses s' U
    ∧ (∀ j, j ∉ lpns → rd (maptbl s') j = rd (maptbl s) j)
    ∧ ∀ j, j ∈ lpns → ∃ p, rd (maptbl s') j = Some p ∧ mapped_ppa p = true.
Proof.
  induction lpns as [|lpn lpns IH]; intros s lat U Hi Hlpn HU Hus Hav; cbn [write_pages].
  { exists s, lat. split_and!; try done; [simpl; lia|set_solver]. }
  cbn [length] in Hav. destruct (Hlpn lpn) as [H0 H1]; [left|].
  destruct (write_page_ok s req lpn Hi ltac:(lia) ltac:(lia))
    as (s1 & l1 & -> & Hi1 & Hav1 & E1 & b & k & Hin & Hm1). cbn [mbind option_bind].
  destruct (IH s1 (if lat <? l1 then l1 else lat) U Hi1) as (s' & lat' & -> & Hi' & E' & Hav' & Hus' & Hn' & Hm').
  - intros j Hj. apply Hlpn. by right.
  - by rewrite E1.
  - intros j p. rewrite Hm1. case_decide as E; [by subst|apply Hus].
  - lia.
  - exists s', lat'. split_and!; try done; [congruence|cbn [length]; lia| |].
    + intros j Hj. rewrite not_elem_of_cons in Hj. destruct Hj as [Hj1 Hj2].
      rewrite Hn', Hm1 by done. by rewrite decide_False.
    + intros j Hj. destruct (decide (j ∈ lpns)) as [Hjl|Hjl]; [by apply Hm'|].
      rewrite Hn' by done. rewrite Hm1. apply elem_of_cons in Hj as [->|Hj]; [|done].
      rewrite decide_True by done. eexists. split; [done|]. by apply page_mapped; [apply Hi|].
Qed.

Definition start_lpn (g : ssdparams) (req : NvmeRequest) : Z := slba req / secs_per_pg g.
Definition end_lpn (g : ssdparams) (req : NvmeRequest) : Z := (slba req + nlb req - 1) / secs_per_pg g.

(** Requests of at least one sector, on pages in use, no larger than the lines
    that collection keeps free. *)
Record req_ok (U : Z) (g : ssdparams) (req : NvmeRequest) : Prop := {
  rq_lba : 0 ≤ slba req;
  rq_nlb : 1 ≤ nlb req;
  rq_u64 : slba req + nlb req < 2 ^ 64;
  rq_in : end_lpn g req < U;
  rq_len : end_lpn g req - start_lpn g req + 1 ≤ gc_thres_lines_high g * pgs_per_line g
}.

Lemma free_avail s : finv s None None 0 → should_gc_high s = false →
  (gc_thres_lines_high (sp s) + 1) * pgs_per_line (sp s) ≤ avail s.
Proof.
  intros Hi Hf%Z.leb_gt. rewrite (fi_fcnt _ _ Hi) in Hf.
  destruct (cur_in_geo _ _ _ _ Hi) as [_ Ho]. unfold avail. nia.
Qed.

Lemma ssd_write_serves U s req :
  ftl_ok U s → req_ok U (sp s) req →
  ∃ s' lat, ssd_write realloc_ok clock s req = Some (s', lat) ∧ ftl_ok U s' ∧ sp s' = sp s
    ∧ (∀ lpn, start_lpn (sp s) req ≤ lpn ≤ end_lpn (sp s) req →
         ∃ p, rd (maptbl s') lpn = Some p ∧ mapped_ppa p = true)
    ∧ ∀ lpn p, rd (maptbl s) lpn = Some p → ¬ start_lpn (sp s) req ≤ lpn ≤ end_lpn (sp s) req →
         ∃ p', rd (maptbl s') lpn = Some p' ∧ mapped_ppa p' = mapped_ppa p.
Proof.
  intros Hok [Hr1 Hr2 Hr3 Hr4 Hr5]. pose proof (spare_below_tt U s Hok) as HUt.
  destruct Hok as [Hi Hav HU Hth [HU0 HUs]].
  unfold ssd_write. rewrite u64_small by lia. fold (start_lpn (sp s) req) (end_lpn (sp s) req).
  destruct (gc_loop_ok (Z.to_nat (tt_pgs (sp s))) s Hi Hav) as (s1 & -> & Hi1 & E1 & K1 & Hav1 & Hend).
  { pose proof (avail_bound _ _ _ _ Hi). lia. }
  cbn [mbind option_bind].
  assert (Hlen1 : length (maptbl s1) = length (maptbl s)).
  { pose proof (fi_mlen _ Hi). pose proof (fi_mlen _ Hi1). rewrite E1 in *. lia. }
  pose proof (uses_kept s s1 U Hlen1 K1 HU) as HU1.
  assert (Hfree : should_gc_high s1 = false).
  { destruct Hend as [|Hv]; [done|]. apply (spare_lines s1 U); rewrite ?E1; done. }
  pose proof (free_avail s1 Hi1 Hfree) as Hfa. rewrite E1 in Hfa.
  assert (Hs0 : 0 ≤ start_lpn (sp s) req) by (apply Z.div_pos; [|destruct (fi_geo _ Hi)]; lia).
  set (n := end_lpn (sp s) req - start_lpn (sp s) req + 1) in *.
  assert (Hn : Z.of_nat (length (seqZ (start_lpn (sp s) req) n)) ≤ gc_thres_lines_high (sp s) * pgs_per_line (sp s)).
  { rewrite length_seqZ. destruct (fi_geo _ Hi).
    assert (0 ≤ gc_thres_lines_high (sp s) * pgs_per_line (sp s)) by (apply Z.mul_nonneg_nonneg; nia). lia. }
  destruct (write_pages_ok req (seqZ (start_lpn (sp s) req) n) s1 0 U Hi1)
    as (s' & lat & Hw & Hi' & E' & Hav' & HU' & Hn' & Hm'); [..|done| |].
  { intros lpn Hlpn%elem_of_seqZ. lia. }
  { by rewrite E1. }
  { destruct (fi_geo _ Hi). nia. }
  exists s', lat. split; [done|]. split; [|split; [congruence|split]].
  - assert (sp s' = sp s) as E by congruence. split; rewrite ?E; try done. lia.
  - intros lpn Hlpn. apply Hm', elem_of_seqZ. lia.
  - intros lpn p Hp Hlpn. rewrite Hn'; [by apply K1|]. rewrite elem_of_seqZ. lia.
Qed.
(** *** Reading *)

Lemma page_valid_ppa s b k : geo_ok (sp s) → in_geo (sp s) b k → valid_ppa s (page s b k) = true.
Proof.
  intros Hg [Hb Hk]. destruct (page_coords (sp s) Hg k Hk) as (H1 & H2 & H3 & _). destruct Hg.
  unfold valid_ppa, page, page_at, at_coord. simpl. rewrite go_pl0.
  repeat (apply andb_true_intro; split); try apply Z.leb_le; try apply Z.ltb_lt; lia.
Qed.

Lemma read_pages_ok req lpns : ∀ s lat,
  finv s None None 0 → (∀ lpn, lpn ∈ lpns → 0 ≤ lpn < tt_pgs (sp s)) →
  ∃ s' lat', read_pages clock s req lpns lat = Some (s', lat') ∧ finv s' None None 0 ∧ frame s s'
    ∧ avail s' = avail s.
Proof.
  induction lpns as [|lpn lpns IH]; intros s lat Hi Hl; cbn [read_pages].
  { exists s, lat. done. }
  destruct (rd_is_Some (maptbl s) lpn) as [p Hp].
  { rewrite (fi_mlen _ Hi). apply Hl. left. }
  unfold get_maptbl_ent. rewrite Hp. cbn [mbind option_bind].
  destruct (fi_map _ _ _ Hi lpn p Hp) as [->|(b & k & Hin & _ & -> & _)]; [done| |].
  { rewrite unmapped_word. cbn [negb orb]. apply IH; [done|]. intros j Hj. apply Hl. by right. }
  pose proof (page_mapped _ (fi_geo _ Hi) b k Hin) as Hmp. fold (page s b k) in Hmp.
  rewrite Hmp, (page_valid_ppa s b k (fi_geo _ Hi) Hin). cbn [negb orb].
  destruct (advance_status_ok s None None 0 b k {| cmd := NAND_READ; stime := req_stime req |} Hi Hin)
    as (s1 & l1 & -> & Hi1 & F1 & Hav1 & _). cbn [mbind option_bind]. pose proof F1 as (E1 & _).
  destruct (IH s1 (if lat <? l1 then l1 else lat) Hi1) as (s' & lat' & -> & Hi' & F' & Hav').
  { intros j Hj. rewrite E1. apply Hl. by right. }
  exists s', lat'. split_and!; [done|done|by eapply frame_trans|lia].
Qed.

Lemma ftl_ok_frame U s s' :
  ftl_ok U s → finv s' None None 0 → frame s s' → avail s' = avail s → ftl_ok U s'.
Proof.
  intros [Hi Hav HU Hth Hsp] Hi' (E1 & E2 & _) Hav'. split; rewrite ?E1, ?Hav'; try done.
  intros lpn p. rewrite E2. apply HU.
Qed.

Lemma ssd_read_serves U s req :
  ftl_ok U s → req_ok U (sp s) req →
  ∃ s' lat, ssd_read clock s req = Some (s', lat) ∧ ftl_ok U s' ∧ frame s s'.
Proof.
  intros Hok [Hr1 Hr2 Hr3 Hr4 Hr5]. pose proof Hok as [Hi Hav HU Hth [HU0 HUs]].
  unfold ssd_read. rewrite u64_small by lia. pose proof (fi_geo _ Hi) as Hg.
  destruct (read_pages_ok req (seqZ (slba req / secs_per_pg (sp s))
    ((slba req + nlb req) / secs_per_pg (sp s) - slba req / secs_per_pg (sp s) + 1)) s 0 Hi)
    as (s' & lat & Hs' & Hi' & Hf & Hav').
  - intros lpn Hlpn%elem_of_seqZ. assert (Hs0 : 0 ≤ slba req / secs_per_pg (sp s))
      by (apply Z.div_pos; [|destruct Hg]; lia).
    split; [lia|]. unfold end_lpn in Hr4.
    assert (Hle : (slba req + nlb req) / secs_per_pg (sp s) ≤ (slba req + nlb req - 1) / secs_per_pg (sp s) + 1).
    { destruct Hg. replace (slba req + nlb req) with (slba req + nlb req - 1 + 1) at 1 by lia.
      pose proof (Z.div_le_mono (slba req + nlb req - 1 + 1) (slba req + nlb req - 1 + 1 * secs_per_pg (sp s)) (secs_per_pg (sp s))) as Hd.
      rewrite Z.div_add in Hd by lia. lia. }
    assert (HUt : U < tt_pgs (sp s)); [|lia].
    destruct Hg. rewrite go_tt0. rewrite go_line0 in HUs.
    assert (0 < luns_per_ch (sp s) * nchs (sp s) * pgs_per_blk (sp s)) by nia. nia.
  - exists s', lat. split; [done|]. split; [by eapply ftl_ok_frame|done].
Qed.

(** *** The loop of the FTL thread *)

Lemma do_gc_serves U s force :
  ftl_ok U s → ∃ s' ok, do_gc realloc_ok clock s force = Some (s', ok) ∧ ftl_ok U s' ∧ sp s' = sp s ∧ kept s s'.
Proof.
  intros [Hi Hav HU Hth Hsp]. destruct (do_gc_ok s force Hi Hav) as (s' & ok & -> & Hi' & E & K & Hok).
  exists s', ok. split; [done|]. split; [|done]. split; rewrite ?E; try done.
  - destruct ok; [lia|]. by destruct Hok as [-> _].
  - eapply uses_kept; [|done..]. pose proof (fi_mlen _ Hi). pose proof (fi_mlen _ Hi'). rewrite E in *. lia.
Qed.

Lemma ftl_serve_ok U s is_write req :
  ftl_ok U s → req_ok U (sp s) req →
  ∃ s' lat, ftl_serve realloc_ok clock s is_write req = Some (s', lat) ∧ ftl_ok U s' ∧ sp s' = sp s.
Proof.
  intros Hok Hreq. unfold ftl_serve.
  assert (H1 : ∃ s1 lat, (if is_write then ssd_write realloc_ok clock s req else ssd_read clock s req)
                         = Some (s1, lat) ∧ ftl_ok U s1 ∧ sp s1 = sp s).
  { destruct is_write.
    - destruct (ssd_write_serves U s req Hok Hreq) as (s1 & lat & -> & Hok1 & E1 & _). by exists s1, lat.
    - destruct (ssd_read_serves U s req Hok Hreq) as (s1 & lat & -> & Hok1 & (E1 & _)). by exists s1, lat. }
  destruct H1 as (s1 & lat & -> & Hok1 & E1). cbn [mbind option_bind].
  destruct (should_gc s1); cbn [mbind option_bind]; [|by exists s1, lat].
  destruct (do_gc_serves U s1 false Hok1) as (s2 & ok & -> & Hok2 & E2 & _). cbn [mbind option_bind].
  exists s2, lat. split_and!; [done|done|congruence].
Qed.
Lemma ftl_thread_ok U reqs : ∀ s,
  ftl_ok U s → Forall (λ r, req_ok U (sp s) r.2) reqs →
  ∃ s' lats, ftl_thread realloc_ok clock s reqs = Some (s', lats) ∧ length lats = length reqs
    ∧ ftl_ok U s' ∧ sp s' = sp s.
Proof.
  induction reqs as [|[w req] reqs IH]; intros s Hok Hreqs; cbn [ftl_thread].
  { by exists s, []. }
  apply Forall_cons in Hreqs as [Hreq Hreqs].
  destruct (ftl_serve_ok U s w req Hok Hreq) as (s1 & lat & -> & Hok1 & E1). cbn [mbind option_bind].
  destruct (IH s1 Hok1) as (s' & lats & -> & Hlen & Hok' & E').
  { by rewrite E1. }
  cbn [mbind option_bind]. exists s', (lat :: lats). split_and!; [done|by simpl; rewrite Hlen|done|congruence].
Qed.

(** *** Set-up *)

Lemma rd_replicate {A} n (x : A) i : 0 ≤ i < Z.of_nat n → rd (replicate n x) i = Some x.
Proof. intros Hi. apply rd_Some. split; [lia|]. apply lookup_replicate. split; [done|lia]. Qed.

Lemma init_get_blk spp s b k :
  geo_ok spp → sp s = spp → ch s = replicate (Z.to_nat (nchs spp)) (ssd_init_ch spp) → in_geo spp b k →
  get_blk s (page s b k) = Some (ssd_init_nand_blk spp).
Proof.
  intros Hg Hsp Hch [Hb Hk]. destruct (page_coords spp Hg k Hk) as (H1 & H2 & H3 & _).
  unfold get_blk, get_pl, get_lun, get_ch, page, page_at, at_coord. rewrite Hsp, Hch. simpl.
  rewrite rd_replicate by lia. cbn -[rd]. rewrite rd_replicate by lia. cbn -[rd].
  rewrite rd_replicate by (destruct Hg; lia). cbn -[rd]. by rewrite rd_replicate by lia.
Qed.

Lemma init_pst spp s b k :
  geo_ok spp → sp s = spp → ch s = replicate (Z.to_nat (nchs spp)) (ssd_init_ch spp) → in_geo spp b k →
  pst s b k = Some PG_FREE.
Proof.
  intros Hg Hsp Hch Hin. unfold pst, st, get_pg. rewrite (init_get_blk spp) by done. cbn -[rd].
  destruct Hin as [Hb Hk]. destruct (page_coords spp Hg k Hk) as (H1 & H2 & H3 & _).
  rewrite rd_replicate; [done|]. unfold page, page_at, at_coord. rewrite Hsp. simpl. lia.
Qed.
Lemma rd_replicate_inv {A} n (x y : A) i : rd (replicate n x) i = Some y → y = x.
Proof. intros [_ [-> _]%lookup_replicate]%rd_Some. done. Qed.

Lemma init_line_inv spp s n :
  geo_ok spp → sp s = spp → (∀ b k, in_geo spp b k → pst s b k = Some PG_FREE) →
  tt_lines spp = blks_per_pl spp → Z.to_nat (blks_per_pl spp) = S n → cur s = 0%nat →
  ssd_init_lines spp = Some (lm s <| free_line_list := seq 0 (S n) |> <| free_line_cnt := Z.of_nat (S n) |>) →
  free_line_list (lm s) = seq 1 n → free_line_cnt (lm s) = Z.of_nat n →
  line_inv s None.
Proof.
  intros Hg Hsp Hst Hlines Hn Hcur Hlm Hfl Hfc. unfold ssd_init_lines in Hlm. rewrite Hlines in Hlm.
  cbn -[seq Z.to_nat] in Hlm. injection Hlm as Els _ Eq Efull Efc Evc Euc.
  assert (Hl : ∀ a l, lines (lm s) !! a = Some l → 0 ≤ Z.of_nat a < blks_per_pl spp
    ∧ l = {| l_id := Z.of_nat a; l_ipc := 0; l_vpc := 0; l_pos := 0 |}).
  { intros a l. rewrite <- Els, list_lookup_fmap. intros (i & (-> & Hi)%lookup_seq & ->)%fmap_Some.
    simpl. split; [lia|done]. }
  assert (H0 : ∀ a w, 0 ≤ Z.of_nat a < blks_per_pl spp → w ≠ PG_FREE → cnt spp (pst s (Z.of_nat a)) w = 0).
  { intros a w Ha Hw. unfold cnt. destruct (filter _ _) as [|k ks] eqn:E; [done|].
    assert (Hk : k ∈ k :: ks) by left. rewrite <- E in Hk. apply list_elem_of_filter in Hk as [Hk Hkr%elem_of_seqZ].
    rewrite Hst in Hk by (split; lia). congruence. }
  assert (Hel : elems (victim_line_pq (lm s)) = []) by (rewrite <- Eq; done).
  split; rewrite ?Hsp, ?Hel, <- ?Efull; try done.
  - intros a k Ha Hk. rewrite Hfl, elem_of_seq in Ha. apply Hst. split; [lia|done].
  - intros a k Ha. by apply elem_of_nil in Ha.
  - unfold all_lines. rewrite Hel, <- Efull, Hfl, Hcur, Hn. simpl. by rewrite app_nil_r.
  - by rewrite Hfc, Hfl, length_seq.
  - intros a l Ha. by destruct (Hl a l Ha) as [_ ->].
  - intros a l Ha _. destruct (Hl a l Ha) as [Har ->]. by rewrite H0.
  - intros a l Ha _. destruct (Hl a l Ha) as [Har ->]. by rewrite H0.
  - split; rewrite ?Hel, <- ?Efull; try done.
    + intros a l Ha. by apply elem_of_nil in Ha.
    + intros a l Ha. by apply elem_of_nil in Ha.
    + rewrite <- Eq. destruct Hg. split; simpl; try lia; try by constructor.
      * rewrite length_replicate. lia.
      * intros x Hx. by apply elem_of_nil in Hx.
      * intros j x Hj. lia.
    + by rewrite <- Eq.
Qed.

Lemma ssd_init_inv spp :
  geo_ok spp →
  ∃ s, ssd_init spp = Some s ∧ finv s None None 0 ∧ sp s = spp ∧ avail s = tt_pgs spp - 1
    ∧ ∀ lpn p, rd (maptbl s) lpn = Some p → p = UNMAPPED_PPA.
Proof.
  intros Hg. pose proof Hg as [? ? ? Hb _ _ _ _ _ Htt Hpl Hl]. destruct (Z.to_nat (blks_per_pl spp)) as [|n] eqn:Hn; [lia|].
  unfold ssd_init, ssd_init_lines. cbn -[seq Z.to_nat replicate]. rewrite Hn. cbn -[Z.to_nat replicate].
  eexists. split; [done|]. set (s := Build_ssd _ _ _ _ _ _ _).
  assert (Hst : ∀ b k, in_geo spp b k → pst s b k = Some PG_FREE) by (intros; by apply (init_pst spp)).
  assert (Ho : off s = 0) by (unfold off, offset; simpl; lia).
  split_and!; [|done| |by intros ? ? ?%rd_replicate_inv].
  2: { unfold avail. rewrite Ho. simpl. rewrite length_seq. nia. }
  split.
  - split; simpl; try done; try (unfold ssd_init_maptbl, ssd_init_rmap; rewrite length_replicate; nia).
    + by rewrite length_fmap, length_seq, Hn.
    + intros b k Hin. rewrite (init_get_blk spp) by done. eexists. split; [done|]. simpl. rewrite length_replicate. lia.
    + intros b k Hin. left. by apply Hst.
  - split.
    + intros lpn p Hp _. left. by apply rd_replicate_inv in Hp.
    + intros b k Hin _ Hv. by rewrite Hst in Hv.
  - split; [split; unfold cur; simpl; lia|]. intros k Hk. rewrite Ho. split; [lia|intros _; apply Hst; split; [unfold cur; simpl; lia|done]].
  - apply (init_line_inv spp s n); try done.
    + unfold ssd_init_lines. cbn -[seq Z.to_nat replicate]. by rewrite Hn.
    + simpl. lia.
Qed.
End steps.
