(* ===== verification/BbFtlThms.v ===== *)
(** * Properties of the black-box FTL

    States reached from [ssd_init] by the requests of [ftl_thread].  When part
    of the capacity is spare, every request is served; the tables are inverse
    to each other and the counters exact in every state reached; collection
    keeps all logical pages and gains room.  The last part shows three
    behaviours of the code at its limits. *)

From S2P Require Import Prelude Pqueue BbFtl BbFtlInv.

(** The host uses the first [U] logical pages; the lines the collector keeps
    free, the current one and one more are spare. *)
Definition spare (spp : ssdparams) (U : Z) : Prop :=
  0 ≤ gc_thres_lines_high spp
  ∧ 0 ≤ U ≤ (blks_per_pl spp - gc_thres_lines_high spp - 2) * pgs_per_line spp.

Inductive reachable (realloc_ok : bool) (clock : nat → Z) (spp : ssdparams) (U : Z) : ssd → Prop :=
| reach_init s : ssd_init spp = Some s → reachable realloc_ok clock spp U s
| reach_serve s w req s' lat :
    reachable realloc_ok clock spp U s → req_ok U spp req →
    ftl_serve realloc_ok clock s w req = Some (s', lat) → reachable realloc_ok clock spp U s'.

Section properties.
Context (realloc_ok : bool) (clock : nat → Z).
Context (spp : ssdparams) (U : Z).
Implicit Types s : ssd.

Lemma init_ok s : geo_ok spp → spare spp U → ssd_init spp = Some s → ftl_ok U s ∧ sp s = spp.
Proof.
  intros Hg [Hth HU] Hs. destruct (ssd_init_inv spp Hg) as (s0 & Hs0 & Hi & Hsp & Hav & Hm).
  rewrite Hs in Hs0. injection Hs0 as <-. subst spp. split; [|done]. split; try done.
  - destruct Hg. rewrite Hav, go_tt, go_line.
    assert (0 < luns_per_ch (sp s) * nchs (sp s) * pgs_per_blk (sp s)) by nia. nia.
  - intros lpn p Hp Hmp. by rewrite (Hm lpn p Hp), unmapped_word in Hmp.
Qed.

Lemma reachable_ok s :
  geo_ok spp → spare spp U → reachable realloc_ok clock spp U s → ftl_ok U s ∧ sp s = spp.
Proof.
  intros Hg Hu Hr. induction Hr as [s Hs|s w req s' lat Hr [IH Hsp] Hreq Hs]; [by apply init_ok|].
  destruct (ftl_serve_ok realloc_ok clock U s w req IH) as (s1 & l1 & Hs1 & Hok & E); [by rewrite Hsp|].
  simplify_eq. split; [done|congruence].
Qed.

(** C29: with spare capacity the FTL thread serves every sequence of requests:
    it never runs out of free lines (the [abort]), never leaves an array and
    always ends its collection loop. *)
Theorem ftl_thread_serves (reqs : list (bool * NvmeRequest)) :
  geo_ok spp → spare spp U → Forall (λ r, req_ok U spp r.2) reqs →
  ∃ s0 s' lats, ssd_init spp = Some s0 ∧ ftl_thread realloc_ok clock s0 reqs = Some (s', lats)
    ∧ length lats = length reqs.
Proof.
  intros Hg Hu Hreqs. destruct (ssd_init_inv spp Hg) as (s0 & Hs0 & _).
  destruct (init_ok s0 Hg Hu Hs0) as [Hok Hsp].
  destruct (ftl_thread_ok realloc_ok clock U reqs s0 Hok) as (s' & lats & Hrun & Hlen & _);
    [by rewrite Hsp|]. eauto 10.
Qed.

(** C30: a mapped logical page lies on a page of the drive that is marked valid
    and whose reverse entry names it; no other logical page lies there. *)
Theorem mapping_sound s lpn p :
  geo_ok spp → spare spp U → reachable realloc_ok clock spp U s →
  get_maptbl_ent s lpn = Some p → mapped_ppa p = true →
  valid_ppa s p = true ∧ status <$> get_pg s p = Some PG_VALID ∧ get_rmap_ent s p = Some lpn
  ∧ ∀ lpn', get_maptbl_ent s lpn' = Some p → lpn' = lpn.
Proof.
  intros Hg Hu Hr Hp Hmp. destruct (reachable_ok s Hg Hu Hr) as [[Hi _ _ _ _] Hsp].
  pose proof (fi_geo _ Hi) as Hgs.
  assert (Hinv : ∀ j, rd (maptbl s) j = Some p → ∃ b k, in_geo (sp s) b k ∧ p = page s b k
    ∧ pst s b k = Some PG_VALID ∧ rd (rmap s) (idx (sp s) p) = Some j).
  { intros j Hj. destruct (fi_map _ _ _ Hi j p Hj) as [->|(b & k & ? & _ & ?)]; [done| |by eauto].
    by rewrite unmapped_word in Hmp. }
  destruct (Hinv lpn Hp) as (b & k & Hin & -> & Hv & Hrm). split_and!.
  - by apply page_valid_ppa.
  - done.
  - unfold get_rmap_ent, page in *. by rewrite (ppa2pgidx_eq (sp s) Hgs).
  - intros lpn' Hp'. destruct (Hinv lpn' Hp') as (_ & _ & _ & _ & _ & Hrm'). congruence.
Qed.

(** Pages of line [a] with the given status, by coordinates. *)
Definition pages_with s (a : nat) (v : Z) : Z :=
  Z.of_nat (length (filter (λ k, status <$> get_pg s (page_at (sp s) (Z.of_nat a) k) = Some v)
                      (seqZ 0 (pgs_per_line (sp s))))).

(** C31: the counters of every line are exact, the three lists and the current
    line make up all lines, and their counters add up. *)
Theorem line_counters s a l :
  geo_ok spp → spare spp U → reachable realloc_ok clock spp U s → line_at s a = Some l →
  l_vpc l = pages_with s a PG_VALID ∧ l_ipc l = pages_with s a PG_INVALID
  ∧ free_line_cnt (lm s) + victim_line_cnt (lm s) + full_line_cnt (lm s) + 1 = tt_lines spp
  ∧ (curline (wp s) :: free_line_list (lm s) ++ elems (victim_line_pq (lm s)) ++ full_line_list (lm s)
     ≡ₚ seq 0 (Z.to_nat (tt_lines spp))).
Proof.
  intros Hg Hu Hr Hl. destruct (reachable_ok s Hg Hu Hr) as [[Hi _ _ _ _] Hsp].
  pose proof (fi_part _ _ Hi) as Hpart. pose proof (Permutation_length Hpart) as Hlen.
  rewrite length_seq in Hlen. unfold all_lines in Hlen. cbn [length gc_lines app] in Hlen.
  rewrite !length_app in Hlen. pose proof (fi_lists _ _ Hi) as [Hv Hf _ _ _ _].
  pose proof (fi_fcnt _ _ Hi) as Hfc. pose proof (go_lines _ Hg). pose proof (go_blk _ Hg).
  rewrite Hsp in *. split_and!.
  - rewrite (fi_vpc _ _ Hi a l Hl) by set_solver. done.
  - rewrite (fi_ipc _ _ Hi a l Hl) by set_solver. done.
  - rewrite Hv, Hf, Hfc. lia.
  - rewrite go_lines by done. exact Hpart.
Qed.

(** C32: a write maps every page of the request and leaves the other logical
    pages mapped or unmapped as they were, through the collections it starts;
    the collection loop before it ends within its fuel. *)
Theorem ssd_write_maps s req :
  geo_ok spp → spare spp U → reachable realloc_ok clock spp U s → req_ok U spp req →
  ∃ s' lat, ssd_write realloc_ok clock s req = Some (s', lat)
    ∧ (∀ lpn, start_lpn spp req ≤ lpn ≤ end_lpn spp req →
         ∃ p, get_maptbl_ent s' lpn = Some p ∧ mapped_ppa p = true)
    ∧ ∀ lpn p, get_maptbl_ent s lpn = Some p → ¬ start_lpn spp req ≤ lpn ≤ end_lpn spp req →
         ∃ p', get_maptbl_ent s' lpn = Some p' ∧ mapped_ppa p' = mapped_ppa p.
Proof.
  intros Hg Hu Hr Hreq. destruct (reachable_ok s Hg Hu Hr) as [Hok Hsp]. rewrite <- Hsp in *.
  destruct (ssd_write_serves realloc_ok clock U s req Hok Hreq) as (s' & lat & Hs' & _ & _ & H1 & H2).
  exists s', lat. done.
Qed.

(** A collection never fails; when it returns 0 more pages can be written
    than before and no logical page is lost, and when a forced one returns -1
    there is no victim and nothing changes. *)
Lemma do_gc_gains s force :
  geo_ok spp → spare spp U → reachable realloc_ok clock spp U s →
  ∃ s' ok, do_gc realloc_ok clock s force = Some (s', ok)
    ∧ (∀ lpn p, get_maptbl_ent s lpn = Some p →
         ∃ p', get_maptbl_ent s' lpn = Some p' ∧ mapped_ppa p' = mapped_ppa p)
    ∧ if ok : bool then avail s < avail s'
      else s' = s ∧ (force = true → victim_line_cnt (lm s) = 0).
Proof.
  intros Hg Hu Hr. destruct (reachable_ok s Hg Hu Hr) as [[Hi Hav _ _ _] Hsp].
  destruct (do_gc_ok realloc_ok clock s force Hi Hav) as (s' & ok & Hs' & _ & _ & Hk & Hok).
  exists s', ok. done.
Qed.

Lemma read_pages_app s req l1 l2 lat :
  read_pages clock s req (l1 ++ l2) lat =
    '(s, lat) ← read_pages clock s req l1 lat; read_pages clock s req l2 lat.
Proof.
  revert s lat. induction l1 as [|lpn l1 IH]; intros s lat; [done|]. cbn [read_pages app].
  destruct (get_maptbl_ent s lpn) as [p|]; cbn [mbind option_bind]; [|done].
  destruct (negb (mapped_ppa p) || negb (valid_ppa s p)); [apply IH|].
  destruct (ssd_advance_status _ _ _ _) as [[s1 l]|]; cbn [mbind option_bind]; [apply IH|done].
Qed.

(** A read that ends with the last sector of the drive accesses the mapping
    table one entry past its end: [end_lpn] is computed without the [- 1] of
    [ssd_write]. *)
Lemma ssd_read_past_end s req :
  geo_ok spp → spare spp U → reachable realloc_ok clock spp U s →
  0 ≤ slba req → 1 ≤ nlb req → slba req + nlb req = tt_pgs spp * secs_per_pg spp →
  slba req + nlb req < 2 ^ 64 → ssd_read clock s req = None.
Proof.
  intros Hg Hu Hr H0 H1 Hend H64. destruct (reachable_ok s Hg Hu Hr) as [[Hi _ _ _ _] Hsp].
  unfold ssd_read. rewrite u64_small, Hend, Hsp, Z.div_mul by (destruct Hg; lia).
  set (a := slba req / secs_per_pg spp).
  assert (Ha : 0 ≤ a ≤ tt_pgs spp).
  { split; [apply Z.div_pos; [|destruct Hg]; lia|]. destruct Hg. apply Z.div_le_upper_bound; lia. }
  rewrite seqZ_app, read_pages_app by lia. replace (a + (tt_pgs spp - a)) with (tt_pgs spp) by lia.
  destruct (read_pages_ok clock req (seqZ a (tt_pgs spp - a)) s 0 Hi) as (s' & lat & -> & Hi' & (E & _) & _).
  { intros lpn Hl%elem_of_seqZ. rewrite Hsp. lia. }
  rewrite seqZ_cons by lia. cbn [read_pages mbind option_bind]. unfold get_maptbl_ent.
  rewrite (proj2 (rd_None _ _)); [done|].
  rewrite (fi_mlen _ Hi'), E, Hsp. lia.
Qed.
End properties.

(** ** A small drive

    One sector per page, 2 pages per block, 6 lines of two channels: 24 pages. *)

Definition small : ssdparams := params_of 1 2 6 1 1 2.
Definition tick (n : nat) : Z := Z.of_nat n + 1.
Definition wr1 (lba : Z) : bool * NvmeRequest := (true, {| slba := lba; nlb := 1; req_stime := 0 |}).

Definition run (reqs : list (bool * NvmeRequest)) : option ssd :=
  s ← ssd_init small; '(s, _) ← ftl_thread true tick s reqs; Some s.

(** Writing every page of the drive once runs out of free lines: the whole
    capacity is offered to the host and none of it is spare, so the last page
    ends in the [abort] of [ssd_advance_write_pointer]. *)
Lemma full_drive_aborts :
  (∃ s, run (wr1 <$> seqZ 0 (tt_pgs small - 1)) = Some s)
  ∧ run (wr1 <$> seqZ 0 (tt_pgs small)) = None.
Proof. vm_compute. eauto. Qed.

(** [mark_page_invalid] lowers the count of a line that is in the victim
    queue without telling the queue, which then is no heap: the line with the
    fewest valid pages need not be the one collected next. *)
Lemma victim_order_lost :
  ∃ s, run (wr1 <$> [0; 1; 2; 3; 4; 5; 6; 7; 0; 4; 5]) = Some s
    ∧ pqueue_is_valid (lines (lm s)) (victim_line_pq (lm s)) = Some false
    ∧ pqueue_peek (victim_line_pq (lm s)) = Some (Some 0%nat)
    ∧ victim_line_get_pri (lines (lm s)) 1 < victim_line_get_pri (lines (lm s)) 0.
Proof. vm_compute. eauto 10. Qed.

(** ** Witnesses

    A drive of 20 lines of 2 pages, 34 of its 40 pages in use. *)

Definition mid : ssdparams := params_of 1 1 20 1 1 2.

Lemma mid_geo : geo_ok mid.
Proof. split; vm_compute; done. Qed.

Lemma mid_spare : spare mid 34.
Proof. split; [|split]; vm_compute; done. Qed.

Lemma mid_req lba : 0 ≤ lba < 34 → req_ok 34 mid (wr1 lba).2.
Proof.
  intros Hl. split; unfold end_lpn, start_lpn; simpl; try lia; change (secs_per_pg mid) with 1;
    rewrite ?Z.div_1_r; [lia|]. change (5 * (20 * 1) / 100 * (1 * 2 * 1)) with 2. lia.
Qed.

(** The state after one write. *)
Definition mid_state : option ssd := s ← ssd_init mid; '(s, _) ← ftl_serve true tick s true (wr1 7).2; Some s.

Lemma mid_reachable s : mid_state = Some s → reachable true tick mid 34 s.
Proof.
  unfold mid_state. intros Hs. apply bind_Some in Hs as (s0 & H0 & Hs).
  apply bind_Some in Hs as ([s1 lat] & H1 & [= <-]).
  eapply reach_serve; [by apply reach_init|by apply (mid_req 7)|done].
Qed.

Lemma mid_some :
  ∃ s p l, mid_state = Some s ∧ get_maptbl_ent s 7 = Some p ∧ mapped_ppa p = true
    ∧ line_at s 0 = Some l ∧ l_vpc l = 1.
Proof.
  assert (H : (s ← mid_state; p ← get_maptbl_ent s 7; l ← line_at s 0; Some (mapped_ppa p, l_vpc l))
              = Some (true, 1)) by (vm_compute; reflexivity).
  apply bind_Some in H as (s & Hs & H). apply bind_Some in H as (p & Hp & H).
  apply bind_Some in H as (l & Hl & [= Hm Hv]). exists s, p, l. auto.
Qed.

Lemma ftl_thread_serves_witness :
  ∃ s0 s' lats, ssd_init mid = Some s0 ∧ ftl_thread true tick s0 (wr1 <$> [0; 33; 0]) = Some (s', lats)
    ∧ length lats = 3%nat.
Proof.
  apply (ftl_thread_serves true tick mid 34); [apply mid_geo|apply mid_spare|].
  repeat (constructor; [apply mid_req; lia|]). constructor.
Defined.

Lemma mapping_sound_witness :
  ∃ s p, mid_state = Some s ∧ get_maptbl_ent s 7 = Some p ∧ valid_ppa s p = true
    ∧ status <$> get_pg s p = Some PG_VALID ∧ get_rmap_ent s p = Some 7
    ∧ ∀ lpn', get_maptbl_ent s lpn' = Some p → lpn' = 7.
Proof.
  destruct mid_some as (s & p & l & Hs & Hp & Hm & _). exists s, p. split; [exact Hs|]. split; [exact Hp|].
  apply (mapping_sound true tick mid 34 s 7 p mid_geo mid_spare (mid_reachable s Hs)); assumption.
Defined.

Lemma line_counters_witness :
  ∃ s, mid_state = Some s ∧ pages_with s 0 PG_VALID = 1
    ∧ free_line_cnt (lm s) + victim_line_cnt (lm s) + full_line_cnt (lm s) + 1 = tt_lines mid.
Proof.
  destruct mid_some as (s & p & l & Hs & _ & _ & Hl & Hv). exists s. split; [exact Hs|].
  destruct (line_counters true tick mid 34 s 0 l mid_geo mid_spare (mid_reachable s Hs) Hl)
    as (Hv' & _ & Hsum & _). split; [congruence|exact Hsum].
Defined.

Lemma ssd_write_maps_witness :
  ∃ s s' lat, mid_state = Some s ∧ ssd_write true tick s (wr1 3).2 = Some (s', lat)
    ∧ ∃ p, get_maptbl_ent s' 3 = Some p ∧ mapped_ppa p = true.
Proof.
  destruct mid_some as (s & _ & _ & Hs & _).
  destruct (ssd_write_maps true tick mid 34 s (wr1 3).2 mid_geo mid_spare (mid_reachable s Hs))
    as (s' & lat & Hs' & Hm & _); [apply mid_req; lia|].
  exists s, s', lat. split; [exact Hs|]. split; [exact Hs'|]. apply Hm. vm_compute. split; discriminate.
Defined.
