(* ===== verification/Zns.v ===== *)
(** * The zoned-namespace controller
      (src/femu-ocssd/hw/block/femu/zns/zns.c, zns.h)

    A zone is written in order at its write pointer.  Zones that are explicitly
    open, implicitly open, closed or full are on a queue of that state; empty
    ones on none.  Two counters of open and active zones are kept when the
    controller has limits for them.  Commands are reads, writes, appends, zone
    management and zone reports.

    Zones are indices into [zone_array], queues lists of indices.  [None] is a
    failed [assert] or an access outside an array.  One namespace, as in
    [zns_init].  The memory of the backend is a list of blocks, one value per
    logical block.  Guest memory and the outcome of the DMA mapping are given
    with each command ([env]).  Loops over a queue take its elements in the
    order of the queue at the start: the handlers move only the zone they are
    given, and to another queue or the front of the one being walked. *)

From S2P Require Import Prelude.

(** ** Constants *)

Definition NVME_SUCCESS : Z := 0.
Definition NVME_INVALID_OPCODE : Z := 0x0001.
Definition NVME_INVALID_FIELD : Z := 0x0002.
Definition NVME_LBA_RANGE : Z := 0x0080.
Definition NVME_ZONE_BOUNDARY_ERROR : Z := 0x01b8.
Definition NVME_ZONE_FULL : Z := 0x01b9.
Definition NVME_ZONE_READ_ONLY : Z := 0x01ba.
Definition NVME_ZONE_OFFLINE : Z := 0x01bb.
Definition NVME_ZONE_INVALID_WRITE : Z := 0x01bc.
Definition NVME_ZONE_TOO_MANY_ACTIVE : Z := 0x01bd.
Definition NVME_ZONE_TOO_MANY_OPEN : Z := 0x01be.
Definition NVME_ZONE_INVAL_TRANSITION : Z := 0x01bf.
Definition NVME_DNR : Z := 0x4000.
Definition NVME_NO_COMPLETE : Z := 0xffff.

Definition NVME_CMD_WRITE : Z := 0x01.
Definition NVME_CMD_READ : Z := 0x02.
Definition NVME_CMD_ZONE_MGMT_SEND : Z := 0x79.
Definition NVME_CMD_ZONE_MGMT_RECV : Z := 0x7a.
Definition NVME_CMD_ZONE_APPEND : Z := 0x7d.
Definition NVME_PSDT_PRP : Z := 0.
Definition NVME_CSI_ZONED : Z := 2.

Definition NVME_ZA_ZD_EXT_VALID : Z := 0x80.
Definition NVME_ZONE_TYPE_SEQ_WRITE : Z := 2.
Definition NVME_ZONE_REPORT : Z := 0.
Definition NVME_ZONE_REPORT_EXTENDED : Z := 1.
Definition NVME_ZONE_REPORT_OFFLINE : Z := 7.

Definition NVME_ZONE_ACTION_CLOSE : Z := 0x01.
Definition NVME_ZONE_ACTION_FINISH : Z := 0x02.
Definition NVME_ZONE_ACTION_OPEN : Z := 0x03.
Definition NVME_ZONE_ACTION_RESET : Z := 0x04.
Definition NVME_ZONE_ACTION_OFFLINE : Z := 0x05.
Definition NVME_ZONE_ACTION_SET_ZD_EXT : Z := 0x10.

Definition NVME_DEFAULT_ZONE_SIZE : Z := 128 * 2 ^ 20.
Definition NVME_DEFAULT_MAX_AZ_SIZE : Z := 128 * 2 ^ 10.

Inductive NvmeZoneState :=
| RESERVED | EMPTY | IMPLICITLY_OPEN | EXPLICITLY_OPEN | CLOSED | READ_ONLY | FULL | OFFLINE.

#[global] Instance NvmeZoneState_eq_dec : EqDecision NvmeZoneState.
Proof. solve_decision. Defined.

(** The values of the enumeration; values that are none of them are treated
    like the reserved one by every [switch]. *)
Definition zs_code (st : NvmeZoneState) : Z :=
  match st with
  | RESERVED => 0x00 | EMPTY => 0x01 | IMPLICITLY_OPEN => 0x02 | EXPLICITLY_OPEN => 0x03
  | CLOSED => 0x04 | READ_ONLY => 0x0D | FULL => 0x0E | OFFLINE => 0x0F
  end.

Definition zs_of (v : Z) : NvmeZoneState :=
  if v =? 0x01 then EMPTY else if v =? 0x02 then IMPLICITLY_OPEN
  else if v =? 0x03 then EXPLICITLY_OPEN else if v =? 0x04 then CLOSED
  else if v =? 0x0D then READ_ONLY else if v =? 0x0E then FULL
  else if v =? 0x0F then OFFLINE else RESERVED.

(** ** State *)

Record NvmeZoneDescr := { zt : Z; zs : Z; za : Z; zcap : Z; zslba : Z; d_wp : Z }.
Record NvmeZone := { d : NvmeZoneDescr; w_ptr : Z }.

(** The part of [NvmeNamespace] and of its identify data that is used. *)
Record NvmeNamespace := { ns_size : Z; lbads : Z; nsze : Z; npdg : Z; nsfeat : Z }.

Record NvmeIdNsZoned := { mar : Z; mor : Z; zoc : Z; ozcs : Z; zsze : Z; zdes : Z }.

Record FemuCtrl := {
  ns : NvmeNamespace;
  page_size : Z;
  mdts : Z;
  zasl_bs : Z;
  zasl : Z;
  zoned : bool;
  cross_zone_read : bool;
  zone_size_bs : Z;
  zone_cap_bs : bool;              (* a [bool] in nvme.h *)
  max_active_zones : Z;
  max_open_zones : Z;
  zd_extension_size : Z;
  csi : Z;
  id_ns_zoned : option NvmeIdNsZoned;
  zone_array : list NvmeZone;
  exp_open_zones : list nat;
  imp_open_zones : list nat;
  closed_zones : list nat;
  full_zones : list nat;
  num_zones : Z;
  zone_size : Z;
  zone_capacity : Z;
  zone_size_log2 : Z;
  zd_extensions : list Z;
  nr_open_zones : Z;
  nr_active_zones : Z;
  mbe : list Z
}.

Record NvmeCmd := { opcode : Z; psdt : Z; cdw10 : Z; cdw11 : Z; cdw12 : Z; cdw13 : Z }.

(** [is_write] keeps the value the last use of the request left in it. *)
Record NvmeRequest := { rcmd : NvmeCmd; is_write : bool; res_slba : Z }.

(** What lies outside: the status of mapping the PRPs, the status of the DMA of
    management commands, the blocks in guest memory, and the bytes of a zone
    descriptor extension after its DMA. *)
Record env := { map_st : Z; dma_st : Z; host : list Z; ext_after : list Z }.

#[global] Instance NvmeZoneDescr_fields : Fields NvmeZoneDescr := λ r,
  Build_NvmeZoneDescr (zt r) (zs r) (za r) (zcap r) (zslba r) (d_wp r).
#[global] Instance NvmeZone_fields : Fields NvmeZone := λ r, Build_NvmeZone (d r) (w_ptr r).
#[global] Instance NvmeNamespace_fields : Fields NvmeNamespace := λ r,
  Build_NvmeNamespace (ns_size r) (lbads r) (nsze r) (npdg r) (nsfeat r).
#[global] Instance FemuCtrl_fields : Fields FemuCtrl := λ r,
  Build_FemuCtrl (ns r) (page_size r) (mdts r) (zasl_bs r) (zasl r) (zoned r) (cross_zone_read r)
    (zone_size_bs r) (zone_cap_bs r) (max_active_zones r) (max_open_zones r) (zd_extension_size r)
    (csi r) (id_ns_zoned r) (zone_array r) (exp_open_zones r) (imp_open_zones r) (closed_zones r)
    (full_zones r) (num_zones r) (zone_size r) (zone_capacity r) (zone_size_log2 r)
    (zd_extensions r) (nr_open_zones r) (nr_active_zones r) (mbe r).
#[global] Instance env_fields : Fields env := λ r, Build_env (map_st r) (dma_st r) (host r) (ext_after r).
#[global] Instance NvmeRequest_fields : Fields NvmeRequest := λ r,
  Build_NvmeRequest (rcmd r) (is_write r) (res_slba r).

Implicit Types (n : FemuCtrl) (i : nat) (z : NvmeZone).

(** ** Inline helpers of zns.h *)

Definition zns_ns_nlbas n : Z := Z.shiftr (ns_size (ns n)) (lbads (ns n)).
Definition zns_l2b n (lba : Z) : Z := u64 (Z.shiftl lba (lbads (ns n))).

Definition zns_get_zone_state z : NvmeZoneState := zs_of (Z.shiftr (zs (d z)) 4).
Definition zns_set_zone_state z (st : NvmeZoneState) : NvmeZone :=
  z <| d ::= λ e, e <| zs := u8 (Z.shiftl (zs_code st) 4) |> |>.

Definition zns_zone_rd_boundary n z : Z := u64 (zslba (d z) + zone_size n).
Definition zns_zone_wr_boundary z : Z := u64 (zslba (d z) + zcap (d z)).

Definition zns_wp_is_valid z : bool :=
  match zns_get_zone_state z with FULL | READ_ONLY | OFFLINE => false | _ => true end.

Definition zns_aor_inc_open n : option FemuCtrl :=
  _ ← ensure (0 <=? nr_open_zones n);
  if nz (max_open_zones n) then
    let n := n <| nr_open_zones ::= Z.succ |> in
    _ ← ensure (nr_open_zones n <=? max_open_zones n);
    Some n
  else Some n.

Definition zns_aor_dec_open n : option FemuCtrl :=
  n ← (if nz (max_open_zones n) then
         _ ← ensure (0 <? nr_open_zones n);
         Some (n <| nr_open_zones ::= Z.pred |>)
       else Some n);
  _ ← ensure (0 <=? nr_open_zones n);
  Some n.

Definition zns_aor_inc_active n : option FemuCtrl :=
  _ ← ensure (0 <=? nr_active_zones n);
  if nz (max_active_zones n) then
    let n := n <| nr_active_zones ::= Z.succ |> in
    _ ← ensure (nr_active_zones n <=? max_active_zones n);
    Some n
  else Some n.

Definition zns_aor_dec_active n : option FemuCtrl :=
  n ← (if nz (max_active_zones n) then
         _ ← ensure (0 <? nr_active_zones n);
         let n := n <| nr_active_zones ::= Z.pred |> in
         _ ← ensure (nr_open_zones n <=? nr_active_zones n);
         Some n
       else Some n);
  _ ← ensure (0 <=? nr_active_zones n);
  Some n.

(** ** Zones *)

Definition zone_at n i : option NvmeZone := zone_array n !! i.
Definition set_zone n i z : FemuCtrl := n <| zone_array ::= λ a, <[i := z]> a |>.

(** A 32-bit result. *)
Definition zns_zone_idx n (slba : Z) : Z :=
  u32 (if 0 <? zone_size_log2 n then Z.shiftr slba (zone_size_log2 n) else slba / zone_size n).

Definition zns_get_zone_by_slba n (slba : Z) : option nat :=
  let zone_idx := zns_zone_idx n slba in
  _ ← ensure (zone_idx <? num_zones n);
  Some (Z.to_nat zone_idx).

(** ** Set-up *)

(** [false] is the return value -1. *)
Definition zns_init_zone_geometry n : FemuCtrl * bool :=
  let lbasz := u32 (Z.shiftl 1 (lbads (ns n))) in
  let zsize := if nz (zone_size_bs n) then zone_size_bs n else NVME_DEFAULT_ZONE_SIZE in
  let zcapb := if zone_cap_bs n then b2z (zone_cap_bs n) else zsize in
  if zsize <? zcapb then (n, false)
  else if zsize <? lbasz then (n, false)
  else if zcapb <? lbasz then (n, false)
  else
    let n := n <| zone_size := zsize / lbasz |> <| zone_capacity := zcapb / lbasz |> in
    let n := n <| num_zones := u32 (ns_size (ns n) / lbasz / zone_size n) |> in
    if num_zones n <? max_open_zones n then (n, false)
    else if num_zones n <? max_active_zones n then (n, false)
    else if nz (zd_extension_size n)
            && (has (zd_extension_size n) 0x3f || (0xff <? Z.shiftr (zd_extension_size n) 6))
         then (n, false)
    else (n, true).

(** The loop over the zones: [start] and [zone_size] as it goes on. *)
Fixpoint init_zones (k : nat) (start zsize capacity zcap : Z) : list NvmeZone :=
  match k with
  | O => []
  | S k =>
      let zsize := if capacity <? u64 (start + zsize) then u64 (capacity - start) else zsize in
      zns_set_zone_state
        {| d := {| zt := NVME_ZONE_TYPE_SEQ_WRITE; zs := 0; za := 0; zcap := zcap;
                   zslba := start; d_wp := start |}; w_ptr := start |} EMPTY
      :: init_zones k (u64 (start + zsize)) zsize capacity zcap
  end.

Definition is_power_of_2 (v : Z) : bool := nz v && (Z.land v (v - 1) =? 0).

Definition zns_init_zoned_state n : FemuCtrl :=
  let capacity := u64 (num_zones n * zone_size n) in
  n <| zone_array := init_zones (Z.to_nat (num_zones n)) 0 (zone_size n) capacity (zone_capacity n) |>
    <| zd_extensions := if nz (zd_extension_size n)
                        then replicate (Z.to_nat (u32 (zd_extension_size n * num_zones n))) 0
                        else zd_extensions n |>
    <| exp_open_zones := [] |> <| imp_open_zones := [] |> <| closed_zones := [] |>
    <| full_zones := [] |>
    <| zone_size_log2 := if is_power_of_2 (zone_size n) then Z.log2 (zone_size n) else 0 |>.

Definition zns_init_zone_identify n : FemuCtrl :=
  let n := zns_init_zoned_state n in
  let idz := {| mar := u32 (max_active_zones n - 1); mor := u32 (max_open_zones n - 1); zoc := 0;
                ozcs := if cross_zone_read n then 1 else 0; zsze := zone_size n;
                zdes := u8 (Z.shiftr (zd_extension_size n) 6) |} in
  let n := n <| csi := NVME_CSI_ZONED |>
             <| ns ::= λ s, s <| nsze := u64 (num_zones n * zone_size n) |> |> in
  let n := if nz (zone_size n mod (npdg (ns n) + 1))
           then n <| ns ::= λ s, s <| nsfeat := Z.land (nsfeat s) (Z.lnot 4) |> |> else n in
  n <| id_ns_zoned := Some idz |>.

Definition zns_init_zone_cap n : FemuCtrl :=
  n <| zoned := true |> <| zasl_bs := NVME_DEFAULT_MAX_AZ_SIZE |>
    <| zone_size_bs := NVME_DEFAULT_ZONE_SIZE |> <| zone_cap_bs := false |>
    <| cross_zone_read := false |> <| max_active_zones := 0 |> <| max_open_zones := 0 |>
    <| zd_extension_size := 0 |>.

Definition zns_start_ctrl n : option (FemuCtrl * bool) :=
  _ ← ensure (page_size n =? 4096);
  if negb (nz (zasl_bs n)) then Some (n <| zasl := mdts n |>, true)
  else if zasl_bs n <? page_size n then Some (n, false)
  else Some (n <| zasl := Z.log2 (zasl_bs n / page_size n) |>, true).

Definition zns_init n : FemuCtrl :=
  let n := zns_init_zone_cap n in
  let '(n, ok) := zns_init_zone_geometry n in
  if ok : bool then zns_init_zone_identify n else n.

(** ** Queues *)

Definition remove_zone (l : list nat) i : list nat := filter (λ x, x ≠ i) l.

(** [QTAILQ_IN_USE(zone, entry)] *)
Definition in_use n i : bool :=
  bool_decide (i ∈ exp_open_zones n ++ imp_open_zones n ++ closed_zones n ++ full_zones n).

Definition dequeue n i (st : NvmeZoneState) : FemuCtrl :=
  match st with
  | EXPLICITLY_OPEN => n <| exp_open_zones ::= λ l, remove_zone l i |>
  | IMPLICITLY_OPEN => n <| imp_open_zones ::= λ l, remove_zone l i |>
  | CLOSED => n <| closed_zones ::= λ l, remove_zone l i |>
  | FULL => n <| full_zones ::= λ l, remove_zone l i |>
  | _ => n
  end.

Definition zns_assign_zone_state n i (st : NvmeZoneState) : option FemuCtrl :=
  z ← zone_at n i;
  let n := if in_use n i then dequeue n i (zns_get_zone_state z) else n in
  let z := zns_set_zone_state z st in
  let n := set_zone n i z in
  Some (match st with
        | EXPLICITLY_OPEN => n <| exp_open_zones ::= λ l, l ++ [i] |>
        | IMPLICITLY_OPEN => n <| imp_open_zones ::= λ l, l ++ [i] |>
        | CLOSED => n <| closed_zones ::= λ l, l ++ [i] |>
        | FULL => n <| full_zones ::= λ l, l ++ [i] |>
        | READ_ONLY => n
        | _ => set_zone n i (z <| d ::= λ e, e <| za := 0 |> |>)
        end).

(** ** Shutdown *)

Definition zns_clear_zone n i : option FemuCtrl :=
  z ← zone_at n i;
  let z := z <| w_ptr := d_wp (d z) |> in
  let state := zns_get_zone_state z in
  if negb (d_wp (d z) =? zslba (d z)) || has (za (d z)) NVME_ZA_ZD_EXT_VALID then
    let z := if decide (state = CLOSED) then z else zns_set_zone_state z CLOSED in
    n ← zns_aor_inc_active (set_zone n i z);
    Some (n <| closed_zones ::= λ l, i :: l |>)
  else Some (set_zone n i (zns_set_zone_state z EMPTY)).

Fixpoint shutdown_loop (release : FemuCtrl → nat → option FemuCtrl) (l : list nat) n : option FemuCtrl :=
  match l with
  | [] => Some n
  | i :: l => n ← release n i; n ← zns_clear_zone n i; shutdown_loop release l n
  end.

Definition zns_zoned_ns_shutdown n : option FemuCtrl :=
  n ← shutdown_loop (λ n i, zns_aor_dec_active (n <| closed_zones ::= λ l, remove_zone l i |>))
        (closed_zones n) n;
  n ← shutdown_loop (λ n i, n ← zns_aor_dec_open (n <| imp_open_zones ::= λ l, remove_zone l i |>);
                            zns_aor_dec_active n) (imp_open_zones n) n;
  n ← shutdown_loop (λ n i, n ← zns_aor_dec_open (n <| exp_open_zones ::= λ l, remove_zone l i |>);
                            zns_aor_dec_active n) (exp_open_zones n) n;
  _ ← ensure (nr_open_zones n =? 0);
  Some n.

Definition zns_ns_shutdown n : option FemuCtrl := if zoned n then zns_zoned_ns_shutdown n else Some n.

(** ** Checks *)

(** Unsigned 32-bit sums. *)
Definition zns_aor_check n (act opn : Z) : Z :=
  if nz (max_active_zones n) && (max_active_zones n <? u32 (nr_active_zones n + act))
  then Z.lor NVME_ZONE_TOO_MANY_ACTIVE NVME_DNR
  else if nz (max_open_zones n) && (max_open_zones n <? u32 (nr_open_zones n + opn))
  then Z.lor NVME_ZONE_TOO_MANY_OPEN NVME_DNR
  else NVME_SUCCESS.

Definition zns_check_zone_state_for_write z : option Z :=
  match zns_get_zone_state z with
  | EMPTY | IMPLICITLY_OPEN | EXPLICITLY_OPEN | CLOSED => Some NVME_SUCCESS
  | FULL => Some NVME_ZONE_FULL
  | OFFLINE => Some NVME_ZONE_OFFLINE
  | READ_ONLY => Some NVME_ZONE_READ_ONLY
  | RESERVED => None
  end.

Definition zns_check_zone_write n z (slba nlb : Z) (append : bool) : option Z :=
  status ← (if zns_zone_wr_boundary z <? u64 (slba + nlb) then Some NVME_ZONE_BOUNDARY_ERROR
            else zns_check_zone_state_for_write z);
  if nz status then Some status
  else
    _ ← ensure (zns_wp_is_valid z);
    Some (if append then
            let status := if negb (slba =? zslba (d z)) then NVME_INVALID_FIELD else status in
            if Z.shiftl (page_size n) (zasl n) <? zns_l2b n nlb then NVME_INVALID_FIELD else status
          else if negb (slba =? w_ptr z) then NVME_ZONE_INVALID_WRITE else status).

Definition zns_check_zone_state_for_read z : option Z :=
  match zns_get_zone_state z with
  | EMPTY | IMPLICITLY_OPEN | EXPLICITLY_OPEN | FULL | CLOSED | READ_ONLY => Some NVME_SUCCESS
  | OFFLINE => Some NVME_ZONE_OFFLINE
  | RESERVED => None
  end.

(** The [do]-[while] loop over the zones after the first. *)
Fixpoint check_read_loop (fuel : nat) n i (end_ : Z) : option Z :=
  match fuel with
  | O => None
  | S fuel =>
      z ← zone_at n i;
      status ← zns_check_zone_state_for_read z;
      if nz status then Some status
      else if zns_zone_rd_boundary n z <? end_ then check_read_loop fuel n (S i) end_
      else Some status
  end.

Definition zns_check_zone_read n (slba nlb : Z) : option Z :=
  i ← zns_get_zone_by_slba n slba;
  z ← zone_at n i;
  let bndry := zns_zone_rd_boundary n z in
  let end_ := u64 (slba + nlb) in
  status ← zns_check_zone_state_for_read z;
  if nz status then Some status
  else if bndry <? end_ then
    if negb (cross_zone_read n) then Some NVME_ZONE_BOUNDARY_ERROR
    else check_read_loop (length (zone_array n)) n (S i) end_
  else Some status.

Definition zns_check_bounds n (slba nlb : Z) : Z :=
  if (2 ^ 64 - 1 - slba <? nlb) || (nsze (ns n) <? slba + nlb)
  then Z.lor NVME_LBA_RANGE NVME_DNR else NVME_SUCCESS.

Definition nvme_check_mdts n (len : Z) : Z :=
  if nz (mdts n) && (Z.shiftl (page_size n) (mdts n) <? len)
  then Z.lor NVME_INVALID_FIELD NVME_DNR else NVME_SUCCESS.

(** ** Opening and the write pointer *)

Definition zns_auto_transition_zone n : option FemuCtrl :=
  if nz (max_open_zones n) && (nr_open_zones n =? max_open_zones n) then
    match imp_open_zones n with
    | [] => Some n
    | i :: _ =>
        n ← zns_aor_dec_open (n <| imp_open_zones ::= λ l, remove_zone l i |>);
        zns_assign_zone_state n i CLOSED
    end
  else Some n.

Definition zns_auto_open_zone n i : option (FemuCtrl * Z) :=
  z ← zone_at n i;
  match zns_get_zone_state z with
  | EMPTY => n ← zns_auto_transition_zone n; Some (n, zns_aor_check n 1 1)
  | CLOSED => n ← zns_auto_transition_zone n; Some (n, zns_aor_check n 0 1)
  | _ => Some (n, NVME_SUCCESS)
  end.

(** The address a read or write command carries, and its number of blocks. *)
Definition rw_slba (c : NvmeCmd) : Z := Z.lor (Z.shiftl (cdw11 c) 32) (cdw10 c).
Definition rw_nlb (c : NvmeCmd) : Z := u16 (cdw12 c) + 1.

Definition zns_finalize_zoned_write n (req : NvmeRequest) (failed : bool)
    : option (FemuCtrl * NvmeRequest) :=
  i ← zns_get_zone_by_slba n (rw_slba (rcmd req));
  z ← zone_at n i;
  let z := z <| d ::= λ e, e <| d_wp := u64 (d_wp e + rw_nlb (rcmd req)) |> |> in
  let n := set_zone n i z in
  let req := if failed then req <| res_slba := 0 |> else req in
  n ← (if d_wp (d z) =? zns_zone_wr_boundary z then
         match zns_get_zone_state z with
         | IMPLICITLY_OPEN | EXPLICITLY_OPEN =>
             n ← zns_aor_dec_open n; n ← zns_aor_dec_active n; zns_assign_zone_state n i FULL
         | CLOSED => n ← zns_aor_dec_active n; zns_assign_zone_state n i FULL
         | EMPTY => zns_assign_zone_state n i FULL
         | FULL => Some n
         | _ => None
         end
       else Some n);
  Some (n, req).

Definition zns_advance_zone_wp n i (nlb : Z) : option (FemuCtrl * Z) :=
  z ← zone_at n i;
  let result := w_ptr z in
  let z := z <| w_ptr := u64 (w_ptr z + nlb) |> in
  let n := set_zone n i z in
  n ← (if w_ptr z <? zns_zone_wr_boundary z then
         match zns_get_zone_state z with
         | EMPTY =>
             n ← zns_aor_inc_active n; n ← zns_aor_inc_open n;
             zns_assign_zone_state n i IMPLICITLY_OPEN
         | CLOSED => n ← zns_aor_inc_open n; zns_assign_zone_state n i IMPLICITLY_OPEN
         | _ => Some n
         end
       else Some n);
  Some (n, result).

(** ** Zone management *)

Definition zns_aio_zone_reset_cb n i : option FemuCtrl :=
  z ← zone_at n i;
  let reset n :=
    z ← zone_at n i;
    zns_assign_zone_state
      (set_zone n i (z <| w_ptr := zslba (d z) |> <| d ::= λ e, e <| d_wp := zslba (d z) |> |>))
      i EMPTY in
  match zns_get_zone_state z with
  | EXPLICITLY_OPEN | IMPLICITLY_OPEN => n ← zns_aor_dec_open n; n ← zns_aor_dec_active n; reset n
  | CLOSED => n ← zns_aor_dec_active n; reset n
  | FULL => reset n
  | _ => Some n
  end.

Definition zns_open_zone n i (state : NvmeZoneState) : option (FemuCtrl * Z) :=
  let make_open n := n ← zns_assign_zone_state n i EXPLICITLY_OPEN; Some (n, NVME_SUCCESS) in
  let from_closed n :=
    let status := zns_aor_check n 0 1 in
    if nz status then
      n ← (if decide (state = EMPTY) then zns_aor_dec_active n else Some n);
      Some (n, status)
    else n ← zns_aor_inc_open n; make_open n in
  match state with
  | EMPTY =>
      let status := zns_aor_check n 1 0 in
      if nz status then Some (n, status)
      else n ← zns_aor_inc_active n; from_closed n
  | CLOSED => from_closed n
  | IMPLICITLY_OPEN => make_open n
  | EXPLICITLY_OPEN => Some (n, NVME_SUCCESS)
  | _ => Some (n, NVME_ZONE_INVAL_TRANSITION)
  end.

Definition zns_close_zone n i (state : NvmeZoneState) : option (FemuCtrl * Z) :=
  match state with
  | EXPLICITLY_OPEN | IMPLICITLY_OPEN =>
      n ← zns_aor_dec_open n;
      n ← zns_assign_zone_state n i CLOSED;
      Some (n, NVME_SUCCESS)
  | CLOSED => Some (n, NVME_SUCCESS)
  | _ => Some (n, NVME_ZONE_INVAL_TRANSITION)
  end.

Definition zns_finish_zone n i (state : NvmeZoneState) : option (FemuCtrl * Z) :=
  let finish n :=
    z ← zone_at n i;
    let z := z <| w_ptr := zns_zone_wr_boundary z |> in
    n ← zns_assign_zone_state (set_zone n i (z <| d ::= λ e, e <| d_wp := w_ptr z |> |>)) i FULL;
    Some (n, NVME_SUCCESS) in
  match state with
  | EXPLICITLY_OPEN | IMPLICITLY_OPEN => n ← zns_aor_dec_open n; n ← zns_aor_dec_active n; finish n
  | CLOSED => n ← zns_aor_dec_active n; finish n
  | EMPTY => finish n
  | FULL => Some (n, NVME_SUCCESS)
  | _ => Some (n, NVME_ZONE_INVAL_TRANSITION)
  end.

Definition zns_reset_zone n i (state : NvmeZoneState) : option (FemuCtrl * Z) :=
  match state with
  | EMPTY => Some (n, NVME_SUCCESS)
  | EXPLICITLY_OPEN | IMPLICITLY_OPEN | CLOSED | FULL =>
      n ← zns_aio_zone_reset_cb n i; Some (n, NVME_SUCCESS)
  | _ => Some (n, NVME_ZONE_INVAL_TRANSITION)
  end.

Definition zns_offline_zone n i (state : NvmeZoneState) : option (FemuCtrl * Z) :=
  match state with
  | READ_ONLY => n ← zns_assign_zone_state n i OFFLINE; Some (n, NVME_SUCCESS)
  | OFFLINE => Some (n, NVME_SUCCESS)
  | _ => Some (n, NVME_ZONE_INVAL_TRANSITION)
  end.

Definition zns_set_zd_ext n i : option (FemuCtrl * Z) :=
  z ← zone_at n i;
  if decide (zns_get_zone_state z = EMPTY) then
    let status := zns_aor_check n 1 0 in
    if nz status then Some (n, status)
    else
      n ← zns_aor_inc_active n;
      z ← zone_at n i;
      n ← zns_assign_zone_state
            (set_zone n i (z <| d ::= λ e, e <| za := Z.lor (za e) NVME_ZA_ZD_EXT_VALID |> |>)) i CLOSED;
      Some (n, NVME_SUCCESS)
  else Some (n, NVME_ZONE_INVAL_TRANSITION).

(** The mask of [enum NvmeZoneProcessingMask]. *)
Definition NVME_PROC_CURRENT_ZONE : Z := 0.
Definition NVME_PROC_OPENED_ZONES : Z := 1.
Definition NVME_PROC_CLOSED_ZONES : Z := 2.
Definition NVME_PROC_READ_ONLY_ZONES : Z := 4.
Definition NVME_PROC_FULL_ZONES : Z := 8.

Definition op_handler_t : Type := FemuCtrl → nat → NvmeZoneState → option (FemuCtrl * Z).

Definition zns_bulk_proc_zone n i (proc_mask : Z) (op : op_handler_t) : option (FemuCtrl * Z) :=
  z ← zone_at n i;
  let st := zns_get_zone_state z in
  let proc_zone :=
    match st with
    | IMPLICITLY_OPEN | EXPLICITLY_OPEN => has proc_mask NVME_PROC_OPENED_ZONES
    | CLOSED => has proc_mask NVME_PROC_CLOSED_ZONES
    | READ_ONLY => has proc_mask NVME_PROC_READ_ONLY_ZONES
    | FULL => has proc_mask NVME_PROC_FULL_ZONES
    | _ => false
    end in
  if proc_zone : bool then op n i st else Some (n, NVME_SUCCESS).

(** The walk over one queue; [true] when it jumps to [out]. *)
Fixpoint proc_zones (proc_mask : Z) (op : op_handler_t) (l : list nat) n (status : Z)
    : option (FemuCtrl * Z * bool) :=
  match l with
  | [] => Some (n, status, false)
  | i :: l =>
      '(n, status) ← zns_bulk_proc_zone n i proc_mask op;
      if nz status && negb (status =? NVME_NO_COMPLETE) then Some (n, status, true)
      else proc_zones proc_mask op l n status
  end.

(** [if (proc_mask & bit)] around a walk. *)
Definition proc_if (b : bool) (proc_mask : Z) (op : op_handler_t) (q : FemuCtrl → list nat)
    (r : FemuCtrl * Z * bool) : option (FemuCtrl * Z * bool) :=
  let '(n, status, out) := r in
  if b && negb out then proc_zones proc_mask op (q n) n status else Some r.

(** After a walk over a queue the pointer [zone] is null, and the walk over the
    read-only zones starts from it. *)
Definition zns_do_zone_op n i (proc_mask : Z) (op : op_handler_t) : option (FemuCtrl * Z) :=
  if proc_mask =? 0 then z ← zone_at n i; op n i (zns_get_zone_state z)
  else
    let closed := has proc_mask NVME_PROC_CLOSED_ZONES in
    let opened := has proc_mask NVME_PROC_OPENED_ZONES in
    let full := has proc_mask NVME_PROC_FULL_ZONES in
    let ro := has proc_mask NVME_PROC_READ_ONLY_ZONES in
    r ← proc_if closed proc_mask op closed_zones (n, NVME_SUCCESS, false);
    r ← proc_if opened proc_mask op imp_open_zones r;
    r ← proc_if opened proc_mask op exp_open_zones r;
    r ← proc_if full proc_mask op full_zones r;
    _ ← ensure (negb (ro && (closed || opened || full) && negb r.2));
    r ← proc_if ro proc_mask op (λ n, seq i (Z.to_nat (num_zones n))) r;
    Some r.1.

(** The status, the address and the zone index. *)
Definition zns_get_mgmt_zone_slba_idx n (c : NvmeCmd) : option (Z * Z * Z) :=
  if negb (zoned n) then Some (Z.lor NVME_INVALID_OPCODE NVME_DNR, 0, 0)
  else
    let slba := Z.lor (Z.shiftl (cdw11 c) 32) (cdw10 c) in
    if nsze (ns n) <=? slba then Some (Z.lor NVME_LBA_RANGE NVME_DNR, 0, 0)
    else
      let zone_idx := zns_zone_idx n slba in
      _ ← ensure (zone_idx <? num_zones n);
      Some (NVME_SUCCESS, slba, zone_idx).

(** [l[off .. off + length b - 1] = b] *)
Definition write_blocks (l : list Z) (off : Z) (b : list Z) : option (list Z) :=
  _ ← ensure ((0 <=? off) && (off + Z.of_nat (length b) <=? Z.of_nat (length l)));
  let k := Z.to_nat off in
  Some (take k l ++ b ++ drop (k + length b) l).

Definition read_blocks (l : list Z) (off len : Z) : option (list Z) :=
  _ ← ensure ((0 <=? off) && (off + len <=? Z.of_nat (length l)));
  Some (take (Z.to_nat len) (drop (Z.to_nat off) l)).

(** The DMA into the extension of a zone. *)
Definition write_zd_ext n (zone_idx : Z) (e : env) : option FemuCtrl :=
  _ ← ensure (Z.of_nat (length (ext_after e)) =? zd_extension_size n);
  b ← write_blocks (zd_extensions n) (u32 (zone_idx * zd_extension_size n)) (ext_after e);
  Some (n <| zd_extensions := b |>).

Definition with_dnr (status : Z) : Z := if nz status then Z.lor status NVME_DNR else status.

Definition zns_zone_mgmt_send n (req : NvmeRequest) (e : env) : option (FemuCtrl * Z) :=
  let dw13 := cdw13 (rcmd req) in
  let action := Z.land dw13 0xff in
  let all := has dw13 0x100 in
  '(status, slba, zone_idx) ← (if all then Some (NVME_SUCCESS, 0, 0)
                               else zns_get_mgmt_zone_slba_idx n (rcmd req));
  if nz status then Some (n, status)
  else
    let i := Z.to_nat zone_idx in
    z ← zone_at n i;
    if negb (slba =? zslba (d z)) then Some (n, Z.lor NVME_INVALID_FIELD NVME_DNR)
    else
      let mask m := if all : bool then m else NVME_PROC_CURRENT_ZONE in
      let run m op := '(n, status) ← zns_do_zone_op n i (mask m) op; Some (n, with_dnr status) in
      if action =? NVME_ZONE_ACTION_OPEN then run NVME_PROC_CLOSED_ZONES zns_open_zone
      else if action =? NVME_ZONE_ACTION_CLOSE then run NVME_PROC_OPENED_ZONES zns_close_zone
      else if action =? NVME_ZONE_ACTION_FINISH then
        run (Z.lor NVME_PROC_OPENED_ZONES NVME_PROC_CLOSED_ZONES) zns_finish_zone
      else if action =? NVME_ZONE_ACTION_RESET then
        '(n, _) ← zns_do_zone_op n i
                    (mask (Z.lor (Z.lor NVME_PROC_OPENED_ZONES NVME_PROC_CLOSED_ZONES) NVME_PROC_FULL_ZONES))
                    zns_reset_zone;
        Some (n, NVME_SUCCESS)
      else if action =? NVME_ZONE_ACTION_OFFLINE then run NVME_PROC_READ_ONLY_ZONES zns_offline_zone
      else if action =? NVME_ZONE_ACTION_SET_ZD_EXT then
        if all || negb (nz (zd_extension_size n)) then Some (n, Z.lor NVME_INVALID_FIELD NVME_DNR)
        else
          n ← write_zd_ext n zone_idx e;
          if nz (dma_st e) then Some (n, dma_st e)
          else '(n, status) ← zns_set_zd_ext n i; Some (n, with_dnr status)
      else Some (n, with_dnr NVME_INVALID_FIELD).

(** ** Reports *)

Definition zns_zone_matches_filter (zafs : Z) z : bool :=
  let st := zns_get_zone_state z in
  if zafs =? 0 then true
  else if zafs =? 1 then bool_decide (st = EMPTY)
  else if zafs =? 2 then bool_decide (st = IMPLICITLY_OPEN)
  else if zafs =? 3 then bool_decide (st = EXPLICITLY_OPEN)
  else if zafs =? 4 then bool_decide (st = CLOSED)
  else if zafs =? 5 then bool_decide (st = FULL)
  else if zafs =? 6 then bool_decide (st = READ_ONLY)
  else if zafs =? 7 then bool_decide (st = OFFLINE)
  else false.

(** A zone descriptor of the report, with its extension. *)
Record report_entry := { r_zt : Z; r_zs : Z; r_za : Z; r_zcap : Z; r_zslba : Z; r_wp : Z; r_ext : list Z }.

Definition report_header_size : Z := 64.
Definition zone_descr_size : Z := 64.

(** The loop that counts the zones to report; [i] is the pointer [zone]. *)
Fixpoint count_zones (fuel : nat) n (slba capacity : Z) i (zrasf : Z) (partial : bool)
    (max_zones nr_zones : Z) : option Z :=
  match fuel with
  | O => None
  | S fuel =>
      if negb (slba <? capacity) then Some nr_zones
      else if partial && (max_zones <=? nr_zones) then Some nr_zones
      else
        z ← zone_at n i;
        count_zones fuel n (u64 (slba + zone_size n)) capacity (S i) zrasf partial max_zones
          (if zns_zone_matches_filter zrasf z then nr_zones + 1 else nr_zones)
  end.

Definition report_zone n i (extended : bool) z : option report_entry :=
  ext ← (if extended then
           if has (za (d z)) NVME_ZA_ZD_EXT_VALID
           then read_blocks (zd_extensions n) (u32 (Z.of_nat i * zd_extension_size n)) (zd_extension_size n)
           else Some (replicate (Z.to_nat (zd_extension_size n)) 0)
         else Some []);
  Some {| r_zt := zt (d z); r_zs := zs (d z); r_za := za (d z); r_zcap := zcap (d z);
          r_zslba := zslba (d z);
          r_wp := if zns_wp_is_valid z then d_wp (d z) else 2 ^ 64 - 1; r_ext := ext |}.

(** The loop that fills the buffer, from zone [i] on; [k] zones are left. *)
Fixpoint report_zones (k : nat) n i (zrasf : Z) (extended : bool) (max_zones : Z) : option (list report_entry) :=
  match k with
  | O => Some []
  | S k =>
      if 0 <? max_zones then
        z ← zone_at n i;
        if zns_zone_matches_filter zrasf z then
          r ← report_zone n i extended z;
          l ← report_zones k n (S i) zrasf extended (max_zones - 1);
          Some (r :: l)
        else report_zones k n (S i) zrasf extended max_zones
      else Some []
  end.

(** The number of zones in the header and the descriptors; no data go back when
    a check fails. *)
Definition zns_zone_mgmt_recv n (req : NvmeRequest) (e : env) : option (Z * option (Z * list report_entry)) :=
  let c := rcmd req in
  let data_size := u32 (Z.shiftl (u32 (cdw12 c + 1)) 2) in
  let dw13 := cdw13 c in
  '(status, slba, zone_idx) ← zns_get_mgmt_zone_slba_idx n c;
  let zra := Z.land dw13 0xff in
  let zrasf := Z.land (Z.shiftr dw13 8) 0xff in
  let bad := Z.lor NVME_INVALID_FIELD NVME_DNR in
  if nz status then Some (status, None)
  else if negb (zra =? NVME_ZONE_REPORT) && negb (zra =? NVME_ZONE_REPORT_EXTENDED) then Some (bad, None)
  else if (zra =? NVME_ZONE_REPORT_EXTENDED) && negb (nz (zd_extension_size n)) then Some (bad, None)
  else if NVME_ZONE_REPORT_OFFLINE <? zrasf then Some (bad, None)
  else if data_size <? report_header_size then Some (bad, None)
  else if nz (nvme_check_mdts n data_size) then Some (nvme_check_mdts n data_size, None)
  else
    let partial := nz (Z.land (Z.shiftr dw13 16) 1) in
    let extended := zra =? NVME_ZONE_REPORT_EXTENDED in
    let zone_entry_sz := zone_descr_size + (if extended then zd_extension_size n else 0) in
    let max_zones := (data_size - report_header_size) / zone_entry_sz in
    let i := Z.to_nat zone_idx in
    let capacity := zns_ns_nlbas n in
    nr ← count_zones (S (Z.to_nat (capacity - slba))) n slba capacity i zrasf partial max_zones 0;
    l ← report_zones (Z.to_nat (num_zones n) - i) n i zrasf extended max_zones;
    Some (dma_st e, Some (nr, l)).

(** ** Input and output *)

Definition zns_map_dptr (req : NvmeRequest) (e : env) : Z :=
  if psdt (rcmd req) =? NVME_PSDT_PRP then map_st e else NVME_INVALID_FIELD.

(** The blocks of guest memory that a command of [nlb] blocks refers to. *)
Definition guest_blocks (e : env) (nlb : Z) : list Z :=
  (λ k, default 0 (host e !! k)) <$> seq 0 (Z.to_nat nlb).

(** The blocks that go back to the guest. *)
Definition backend_rw n (req : NvmeRequest) (e : env) (data_offset nlb : Z) : option (FemuCtrl * list Z) :=
  let blk := Z.shiftr data_offset (lbads (ns n)) in
  if is_write req then
    b ← write_blocks (mbe n) blk (guest_blocks e nlb); Some (n <| mbe := b |>, [])
  else b ← read_blocks (mbe n) blk nlb; Some (n, b).

(** The controller, the request, the status and the blocks for the guest. *)
Definition io_result : Type := FemuCtrl * NvmeRequest * Z * list Z.

Definition zns_do_write n (req : NvmeRequest) (e : env) (append wrz : bool) : option io_result :=
  let slba := rw_slba (rcmd req) in
  let nlb := rw_nlb (rcmd req) in
  let data_size := zns_l2b n nlb in
  let err n req status := Some (n, req, Z.lor status NVME_DNR, []) in
  if negb wrz && nz (nvme_check_mdts n data_size) then err n req (nvme_check_mdts n data_size)
  else if nz (zns_check_bounds n slba nlb) then err n req (zns_check_bounds n slba nlb)
  else
    i ← zns_get_zone_by_slba n slba;
    z ← zone_at n i;
    status ← zns_check_zone_write n z slba nlb append;
    if nz status then err n req status
    else
      '(n, status) ← zns_auto_open_zone n i;
      if nz status then err n req status
      else
        z ← zone_at n i;
        let slba := if append then w_ptr z else slba in
        '(n, wp) ← zns_advance_zone_wp n i nlb;
        let req := req <| res_slba := wp |> in
        let data_offset := zns_l2b n slba in
        if wrz then '(n, req) ← zns_finalize_zoned_write n req false; Some (n, req, NVME_SUCCESS, [])
        else
          let status := zns_map_dptr req e in
          if nz status then err n req status
          else
            '(n, out) ← backend_rw n req e data_offset nlb;
            '(n, req) ← zns_finalize_zoned_write n req false;
            Some (n, req, NVME_SUCCESS, out).

Definition zns_zone_append n (req : NvmeRequest) (e : env) : option io_result :=
  zns_do_write n req e true false.

Definition zns_read n (req : NvmeRequest) (e : env) : option io_result :=
  let slba := rw_slba (rcmd req) in
  let nlb := rw_nlb (rcmd req) in
  let data_size := zns_l2b n nlb in
  _ ← ensure (zoned n);
  let req := req <| is_write := false |> in
  let err status := Some (n, req, Z.lor status NVME_DNR, []) in
  if nz (nvme_check_mdts n data_size) then err (nvme_check_mdts n data_size)
  else if nz (zns_check_bounds n slba nlb) then err (zns_check_bounds n slba nlb)
  else
    status ← zns_check_zone_read n slba nlb;
    if nz status then err status
    else if nz (zns_map_dptr req e) then err (zns_map_dptr req e)
    else
      (* [zns_check_dulbe] always answers success *)
      '(n, out) ← backend_rw n req e (zns_l2b n slba) nlb;
      Some (n, req, NVME_SUCCESS, out).

Definition zns_write n (req : NvmeRequest) (e : env) : option io_result :=
  let slba := rw_slba (rcmd req) in
  let nlb := rw_nlb (rcmd req) in
  let data_size := zns_l2b n nlb in
  _ ← ensure (zoned n);
  let req := req <| is_write := true |> in
  let err n req status := Some (n, req, Z.lor status NVME_DNR, []) in
  if nz (nvme_check_mdts n data_size) then err n req (nvme_check_mdts n data_size)
  else if nz (zns_check_bounds n slba nlb) then err n req (zns_check_bounds n slba nlb)
  else
    i ← zns_get_zone_by_slba n slba;
    z ← zone_at n i;
    status ← zns_check_zone_write n z slba nlb false;
    if nz status then err n req status
    else
      '(n, status) ← zns_auto_open_zone n i;
      if nz status then err n req status
      else
        '(n, wp) ← zns_advance_zone_wp n i nlb;
        let req := req <| res_slba := wp |> in
        let data_offset := zns_l2b n slba in
        let status := zns_map_dptr req e in
        if nz status then err n req status
        else
          '(n, out) ← backend_rw n req e data_offset nlb;
          '(n, req) ← zns_finalize_zoned_write n req false;
          Some (n, req, NVME_SUCCESS, out).

(** A report leaves the controller as it is; its data are not part of the
    result. *)
Definition zns_io_cmd n (req : NvmeRequest) (e : env) : option io_result :=
  let op := opcode (rcmd req) in
  if op =? NVME_CMD_READ then zns_read n req e
  else if op =? NVME_CMD_WRITE then zns_write n req e
  else if op =? NVME_CMD_ZONE_MGMT_SEND then
    '(n, status) ← zns_zone_mgmt_send n req e; Some (n, req, status, [])
  else if op =? NVME_CMD_ZONE_MGMT_RECV then
    '(status, _) ← zns_zone_mgmt_recv n req e; Some (n, req, status, [])
  else if op =? NVME_CMD_ZONE_APPEND then zns_zone_append n req e
  else Some (n, req, Z.lor NVME_INVALID_OPCODE NVME_DNR, []).
