(* ===== verification/ZnsInv.v ===== *)
(** * The invariant of the zoned-namespace controller

    [zinv] says that every zone lies where its index puts it, that its pointers
    are in order and agree with its state, that the queues hold exactly the
    zones of their states, and that the counters of open and active zones are
    the lengths of those queues and within the limits.  Each operation of [Zns]
    is shown to run without a failed assertion and to keep it. *)

From S2P Require Import Prelude Zns.

Implicit Types (n : FemuCtrl) (i j : nat) (z : NvmeZone) (st : NvmeZoneState).

(** ** Zone states *)

Lemma zs_of_code st : zs_of (Z.shiftr (u8 (Z.shiftl (zs_code st) 4)) 4) = st.
Proof. by destruct st. Qed.

Lemma state_set z st : zns_get_zone_state (zns_set_zone_state z st) = st.
Proof. apply zs_of_code. Qed.

Definition is_open st : bool := match st with EXPLICITLY_OPEN | IMPLICITLY_OPEN => true | _ => false end.
Definition is_active st : bool :=
  match st with EXPLICITLY_OPEN | IMPLICITLY_OPEN | CLOSED => true | _ => false end.
Definition queued st : bool :=
  match st with EXPLICITLY_OPEN | IMPLICITLY_OPEN | CLOSED | FULL => true | _ => false end.

(** The queue of a state. *)
Definition qs n st : list nat :=
  match st with
  | EXPLICITLY_OPEN => exp_open_zones n
  | IMPLICITLY_OPEN => imp_open_zones n
  | CLOSED => closed_zones n
  | FULL => full_zones n
  | _ => []
  end.

Definition state_of n i : option NvmeZoneState := zns_get_zone_state <$> zone_at n i.

Definition len (l : list nat) : Z := Z.of_nat (length l).
Definition opens n : Z := len (exp_open_zones n) + len (imp_open_zones n).
Definition actives n : Z := opens n + len (closed_zones n).

(** ** The parts that commands do not change *)

Definition static n : FemuCtrl :=
  n <| zone_array := [] |> <| exp_open_zones := [] |> <| imp_open_zones := [] |>
    <| closed_zones := [] |> <| full_zones := [] |> <| nr_open_zones := 0 |>
    <| nr_active_zones := 0 |> <| zd_extensions := [] |> <| mbe := [] |>.

Record zcfg n : Prop := {
  zc_zoned : zoned n = true;
  zc_zsize : 1 ≤ zone_size n;
  zc_zcap : 1 ≤ zone_capacity n ≤ zone_size n;
  zc_num : 1 ≤ num_zones n < 2 ^ 31;
  zc_log : zone_size_log2 n = 0 ∨ 0 < zone_size_log2 n ∧ zone_size n = 2 ^ zone_size_log2 n;
  zc_nsze : nsze (ns n) = num_zones n * zone_size n;
  zc_lbads : 9 ≤ lbads (ns n);
  zc_bytes : (nsze (ns n) + 2 ^ 16) * 2 ^ lbads (ns n) < 2 ^ 64;
  zc_nlbas : nsze (ns n) ≤ zns_ns_nlbas n;
  zc_open : 0 ≤ max_open_zones n ≤ num_zones n;
  zc_active : 0 ≤ max_active_zones n ≤ num_zones n;
  zc_ext : 0 ≤ zd_extension_size n ∧ zd_extension_size n * num_zones n < 2 ^ 32
}.

Lemma zcfg_static n n' : zcfg n → static n' = static n → zcfg n'.
Proof.
  assert (Hs : ∀ m, zcfg m ↔ zcfg (static m)) by (intros m; split; intros []; constructor; assumption).
  intros H E. apply (proj2 (Hs n')). rewrite E. by apply (proj1 (Hs n)).
Qed.

(** ** The invariant *)

Record zone_ok n i z : Prop := {
  zo_slba : zslba (d z) = Z.of_nat i * zone_size n;
  zo_cap : zcap (d z) = zone_capacity n;
  zo_wp : zslba (d z) ≤ d_wp (d z) ≤ w_ptr z;
  zo_bound : w_ptr z ≤ zslba (d z) + zcap (d z);
  zo_state : zns_get_zone_state z ≠ RESERVED;
  zo_empty : zns_get_zone_state z = EMPTY →
    d_wp (d z) = zslba (d z) ∧ (w_ptr z = zslba (d z) ∨ w_ptr z = zslba (d z) + zcap (d z));
  zo_full : zns_get_zone_state z = FULL → d_wp (d z) = zslba (d z) + zcap (d z)
}.

Definition qinv n : Prop :=
  ∀ st, NoDup (qs n st) ∧ ∀ i, i ∈ qs n st ↔ queued st = true ∧ state_of n i = Some st.

(** The counters for [o] open and [a] active zones. *)
Definition counters n (o a : Z) : Prop :=
  nr_open_zones n = (if nz (max_open_zones n) then o else 0)
  ∧ nr_active_zones n = (if nz (max_active_zones n) then a else 0).

Definition limits n (o a : Z) : Prop :=
  (max_open_zones n ≠ 0 → o ≤ max_open_zones n) ∧ (max_active_zones n ≠ 0 → a ≤ max_active_zones n).

Record zinv n : Prop := {
  zi_cfg : zcfg n;
  zi_len : Z.of_nat (length (zone_array n)) = num_zones n;
  zi_zone : ∀ i z, zone_at n i = Some z → zone_ok n i z;
  zi_q : qinv n;
  zi_cnt : counters n (opens n) (actives n);
  zi_lim : limits n (opens n) (actives n);
  zi_mbe : Z.of_nat (length (mbe n)) = zns_ns_nlbas n;
  zi_ext : zd_extension_size n ≠ 0 →
    Z.of_nat (length (zd_extensions n)) = zd_extension_size n * num_zones n
}.

(** ** Queues *)

Lemma remove_zone_notin l i : i ∉ l → remove_zone l i = l.
Proof.
  intros Hi. unfold remove_zone. induction l as [|x l IH]; [done|].
  apply not_elem_of_cons in Hi as [Hx Hl]. rewrite filter_cons, decide_True by done. by rewrite IH.
Qed.

Lemma elem_of_remove_zone l i j : j ∈ remove_zone l i ↔ j ≠ i ∧ j ∈ l.
Proof. unfold remove_zone. by rewrite list_elem_of_filter. Qed.

Lemma remove_zone_len l i :
  NoDup l → len (remove_zone l i) = len l - b2z (bool_decide (i ∈ l)).
Proof.
  intros Hnd. unfold len. induction l as [|x l IH]; [done|].
  apply NoDup_cons in Hnd as [Hx Hnd]. unfold remove_zone. rewrite filter_cons.
  fold (remove_zone l i). destruct (decide (x = i)) as [->|Hne].
  - rewrite decide_False by auto. rewrite (remove_zone_notin l i Hx).
    rewrite bool_decide_true by left. simpl. lia.
  - rewrite decide_True by done. cbn [length]. specialize (IH Hnd).
    rewrite (bool_decide_ext (i ∈ x :: l) (i ∈ l)); [lia|]. rewrite elem_of_cons. naive_solver.
Qed.

Lemma zone_at_set n i j z :
  is_Some (zone_at n i) → zone_at (set_zone n i z) j = if decide (j = i) then Some z else zone_at n j.
Proof.
  intros Hi%lookup_lt_is_Some. unfold zone_at, set_zone. simpl. case_decide as E.
  - subst. by apply list_lookup_insert_eq.
  - by apply list_lookup_insert_ne.
Qed.

(** What [zns_assign_zone_state] does to the queues and to zone [i]. *)
Record assigned n n' i z st : Prop := {
  as_static : static n' = static n;
  as_mbe : mbe n' = mbe n;
  as_ext : zd_extensions n' = zd_extensions n;
  as_open : nr_open_zones n' = nr_open_zones n;
  as_active : nr_active_zones n' = nr_active_zones n;
  as_len : length (zone_array n') = length (zone_array n);
  as_qs : ∀ st', qs n' st' ≡ₚ remove_zone (qs n st') i ++ (if bool_decide (st' = st) && queued st then [i] else []);
  as_zone : ∃ z', zns_get_zone_state z' = st ∧ w_ptr z' = w_ptr z ∧ d_wp (d z') = d_wp (d z)
    ∧ zslba (d z') = zslba (d z) ∧ zcap (d z') = zcap (d z)
    ∧ ∀ j, zone_at n' j = if decide (j = i) then Some z' else zone_at n j
}.

Lemma dequeue_qs n i st st' :
  (∀ x, i ∈ qs n x → st = x) → qs (dequeue n i st) st' = remove_zone (qs n st') i.
Proof.
  intros Hq. destruct (decide (i ∈ qs n st')) as [Hin|Hn].
  - rewrite (Hq st' Hin). by destruct st'.
  - rewrite (remove_zone_notin _ _ Hn). destruct (decide (st = st')) as [->|Hne].
    + destruct st'; simpl in *; try done; by apply remove_zone_notin.
    + by destruct st, st'.
Qed.

Lemma assign_spec n i z st :
  zone_at n i = Some z → (∀ st', i ∈ qs n st' → zns_get_zone_state z = st') →
  ∃ n', zns_assign_zone_state n i st = Some n' ∧ assigned n n' i z st.
Proof.
  intros Hz Hq. unfold zns_assign_zone_state. rewrite Hz. cbn -[in_use dequeue set_zone].
  set (n0 := if in_use n i then dequeue n i (zns_get_zone_state z) else n).
  assert (H0 : zone_array n0 = zone_array n ∧ static n0 = static n ∧ mbe n0 = mbe n
    ∧ zd_extensions n0 = zd_extensions n ∧ nr_open_zones n0 = nr_open_zones n
    ∧ nr_active_zones n0 = nr_active_zones n ∧ ∀ st', qs n0 st' = remove_zone (qs n st') i).
  { subst n0. destruct (in_use n i) eqn:Hu.
    - split_and!; try (by destruct (zns_get_zone_state z)).
      intros st'. by apply dequeue_qs.
    - split_and!; try done. intros st'. symmetry. apply remove_zone_notin. intros Hin.
      apply bool_decide_eq_false in Hu. apply Hu. rewrite !elem_of_app.
      destruct st'; simpl in Hin; auto; by apply elem_of_nil in Hin. }
  destruct H0 as (Ha & Hs & Hm & He & Ho & Hc & Hqs). clearbody n0.
  assert (Hz0 : is_Some (zone_at n0 i)) by (unfold zone_at in *; rewrite Ha; eauto).
  eexists. split; [done|]. split; try (destruct st; simpl; assumption).
  - destruct st; simpl; rewrite ?length_insert; by rewrite Ha.
  - intros st'. rewrite <- Hqs. destruct st, st'; simpl; by rewrite ?app_nil_r.
  - exists (match st with
            | EMPTY | OFFLINE | RESERVED =>
                zns_set_zone_state z st <| d ::= λ e, e <| za := 0 |> |>
            | _ => zns_set_zone_state z st end).
    split_and!; try (by destruct st).
    intros j. assert (Hz1 : ∀ y, is_Some (zone_at (set_zone n0 i y) i))
      by (intros y; rewrite zone_at_set by done; rewrite decide_True by done; eauto).
    assert (Hj : ∀ y, zone_at (set_zone n0 i y) j = if decide (j = i) then Some y else zone_at n j).
    { intros y. rewrite zone_at_set by done. unfold zone_at. by rewrite Ha. }
    destruct st; try apply Hj; (etransitivity; [apply zone_at_set, Hz1|]);
      (case_decide; [done|]); by rewrite Hj.
Qed.

(** ** Counters *)

(** Only the counters differ. *)
Definition only_counters n n' : Prop :=
  n' = n <| nr_open_zones := nr_open_zones n' |> <| nr_active_zones := nr_active_zones n' |>.

Lemma only_counters_refl n : only_counters n n.
Proof. by destruct n. Qed.

Lemma only_counters_trans n1 n2 n3 : only_counters n1 n2 → only_counters n2 n3 → only_counters n1 n3.
Proof. unfold only_counters. intros -> ->. done. Qed.

Lemma ensure_bind {A} (b : bool) (k : option A) : b = true → (_ ← ensure b; k) = k.
Proof. by intros ->. Qed.

(** Evaluates the assertions of the counters. *)
Ltac counts :=
  repeat (rewrite ensure_bind by (simpl; apply Z.leb_le || apply Z.ltb_lt; lia); cbn [mbind option_bind]).

Lemma inc_open_ok n o a :
  counters n o a → 0 ≤ o → (max_open_zones n ≠ 0 → o + 1 ≤ max_open_zones n) →
  ∃ n', zns_aor_inc_open n = Some n' ∧ only_counters n n' ∧ counters n' (o + 1) a.
Proof.
  intros [Ho Ha] H0 Hm. unfold zns_aor_inc_open.
  destruct (nz_spec (max_open_zones n)) as [E|E]; counts.
  - specialize (Hm E). counts. eexists. split; [done|]. split; [by destruct n|].
    split; simpl; [|done]. destruct (nz_spec (max_open_zones n)); [lia|done].
  - eexists. split; [done|]. split; [apply only_counters_refl|]. split; [|done].
    by destruct (nz_spec (max_open_zones n)).
Qed.

Lemma dec_open_ok n o a :
  counters n o a → 1 ≤ o →
  ∃ n', zns_aor_dec_open n = Some n' ∧ only_counters n n' ∧ counters n' (o - 1) a.
Proof.
  intros [Ho Ha] H1. unfold zns_aor_dec_open.
  destruct (nz_spec (max_open_zones n)) as [E|E]; cbn [mbind option_bind]; counts.
  - eexists. split; [done|]. split; [by destruct n|].
    split; simpl; [|done]. destruct (nz_spec (max_open_zones n)); [lia|done].
  - eexists. split; [done|]. split; [apply only_counters_refl|]. split; [|done].
    by destruct (nz_spec (max_open_zones n)).
Qed.

Lemma inc_active_ok n o a :
  counters n o a → 0 ≤ a → (max_active_zones n ≠ 0 → a + 1 ≤ max_active_zones n) →
  ∃ n', zns_aor_inc_active n = Some n' ∧ only_counters n n' ∧ counters n' o (a + 1).
Proof.
  intros [Ho Ha] H0 Hm. unfold zns_aor_inc_active.
  destruct (nz_spec (max_active_zones n)) as [E|E]; counts.
  - specialize (Hm E). counts. eexists. split; [done|]. split; [by destruct n|].
    split; simpl; [done|]. destruct (nz_spec (max_active_zones n)); [lia|done].
  - eexists. split; [done|]. split; [apply only_counters_refl|]. split; [done|].
    by destruct (nz_spec (max_active_zones n)).
Qed.

Lemma dec_active_ok n o a :
  counters n o a → 0 ≤ o → o + 1 ≤ a →
  ∃ n', zns_aor_dec_active n = Some n' ∧ only_counters n n' ∧ counters n' o (a - 1).
Proof.
  intros [Ho Ha] H0 H1. unfold zns_aor_dec_active.
  assert (nr_open_zones n ≤ o) by (destruct (nz_spec (max_open_zones n)); lia).
  destruct (nz_spec (max_active_zones n)) as [E|E]; cbn [mbind option_bind]; counts.
  - eexists. split; [done|]. split; [by destruct n|].
    split; simpl; [done|]. destruct (nz_spec (max_active_zones n)); [lia|done].
  - eexists. split; [done|]. split; [apply only_counters_refl|]. split; [done|].
    by destruct (nz_spec (max_active_zones n)).
Qed.

(** ** Transitions *)

Lemma queue_len_pos n i st : qinv n → state_of n i = Some st → queued st = true → 1 ≤ len (qs n st).
Proof.
  intros Hq Hs Hst. assert (Hin : i ∈ qs n st) by (by apply (proj2 (Hq st))).
  unfold len. destruct (qs n st); [by apply elem_of_nil in Hin|simpl; lia].
Qed.

(** Zone [i] has been given the pointers of [z1], and the counters those of the
    state it is about to enter. *)
Record prepared n n1 i z1 (o a : Z) : Prop := {
  pr_static : static n1 = static n;
  pr_mbe : mbe n1 = mbe n;
  pr_ext : zd_extensions n1 = zd_extensions n;
  pr_qs : ∀ st, remove_zone (qs n1 st) i = remove_zone (qs n st) i;
  pr_in : ∀ st, i ∈ qs n1 st → i ∈ qs n st;
  pr_zone : ∀ j, zone_at n1 j = if decide (j = i) then Some z1 else zone_at n j;
  pr_len : length (zone_array n1) = length (zone_array n);
  pr_cnt : counters n1 o a
}.

Lemma zone_ok_static n n' i z : static n' = static n → zone_ok n i z → zone_ok n' i z.
Proof.
  intros E [? ? ? ? ? ? ?].
  assert (E1 : zone_size n' = zone_size n) by (exact (f_equal zone_size E)).
  assert (E2 : zone_capacity n' = zone_capacity n) by (exact (f_equal zone_capacity E)).
  split; rewrite ?E1, ?E2; done.
Qed.

Lemma counters_static n n' o a :
  static n' = static n → nr_open_zones n' = nr_open_zones n → nr_active_zones n' = nr_active_zones n →
  counters n o a → counters n' o a.
Proof.
  intros E E1 E2 [Ho Ha]. unfold counters. rewrite E1, E2.
  assert (E3 : max_open_zones n' = max_open_zones n) by (exact (f_equal max_open_zones E)).
  assert (E4 : max_active_zones n' = max_active_zones n) by (exact (f_equal max_active_zones E)).
  by rewrite E3, E4.
Qed.

Lemma limits_static n n' o a : static n' = static n → limits n o a → limits n' o a.
Proof.
  intros E [Ho Ha]. unfold limits.
  assert (E3 : max_open_zones n' = max_open_zones n) by (exact (f_equal max_open_zones E)).
  assert (E4 : max_active_zones n' = max_active_zones n) by (exact (f_equal max_active_zones E)).
  by rewrite E3, E4.
Qed.

Lemma zone_ok_ext n i z z' :
  zns_get_zone_state z' = zns_get_zone_state z → w_ptr z' = w_ptr z → d_wp (d z') = d_wp (d z) →
  zslba (d z') = zslba (d z) → zcap (d z') = zcap (d z) → zone_ok n i z → zone_ok n i z'.
Proof. intros E1 E2 E3 E4 E5 [? ? ? ? ? ? ?]. split; rewrite ?E1, ?E2, ?E3, ?E4, ?E5; done. Qed.

(** The result of a transition: zone [i] has the pointers of [z1] and the state
    [st], all other zones are as they were. *)
Record moved_to n n' i z1 st : Prop := {
  mv_static : static n' = static n;
  mv_mbe : mbe n' = mbe n;
  mv_ext : zd_extensions n' = zd_extensions n;
  mv_counts : ∀ z0, zone_at n i = Some z0 →
    opens n' = opens n - b2z (is_open (zns_get_zone_state z0)) + b2z (is_open st)
    ∧ actives n' = actives n - b2z (is_active (zns_get_zone_state z0)) + b2z (is_active st);
  mv_zone : ∃ z', zns_get_zone_state z' = st ∧ w_ptr z' = w_ptr z1 ∧ d_wp (d z') = d_wp (d z1)
    ∧ zslba (d z') = zslba (d z1) ∧ zcap (d z') = zcap (d z1)
    ∧ ∀ j, zone_at n' j = if decide (j = i) then Some z' else zone_at n j
}.

Lemma qinv_assigned n n1 n' i z z1 st :
  qinv n → zone_at n i = Some z → (∀ st, remove_zone (qs n1 st) i = remove_zone (qs n st) i) →
  (∀ j, zone_at n1 j = if decide (j = i) then Some z1 else zone_at n j) →
  assigned n1 n' i z1 st → qinv n'.
Proof.
  intros Hq Hz Hqs Hz1 [_ _ _ _ _ _ Hqs' (z' & Hst & _ & _ & _ & _ & Hz')] st'.
  destruct (Hq st') as [Hnd Hin].
  assert (Hnew : ∀ j, j ∈ (if bool_decide (st' = st) && queued st then [i] else []) ↔
    j = i ∧ st' = st ∧ queued st = true).
  { intros j. destruct (bool_decide_reflect (st' = st)), (queued st); simpl;
      rewrite ?list_elem_of_singleton, ?elem_of_nil; naive_solver. }
  split.
  - rewrite Hqs', Hqs. apply NoDup_app. split_and!.
    + by apply NoDup_filter.
    + intros j [Hj _]%elem_of_remove_zone [-> _]%Hnew. done.
    + destruct (_ && _); [apply NoDup_singleton|constructor].
  - intros j. rewrite Hqs', Hqs, elem_of_app, elem_of_remove_zone, Hin, Hnew. unfold state_of. rewrite Hz', Hz1.
    destruct (decide (j = i)) as [->|Hne]; simpl; [rewrite Hst|]; naive_solver.
Qed.

(** How the lengths of the queues change. *)
Lemma len_assigned n n' i st0 st st' :
  qinv n → state_of n i = Some st0 → queued st' = true →
  qs n' st' ≡ₚ remove_zone (qs n st') i ++ (if bool_decide (st' = st) && queued st then [i] else []) →
  len (qs n' st') = len (qs n st') - b2z (bool_decide (st0 = st')) + b2z (bool_decide (st = st')).
Proof.
  intros Hq Hs Hqd Hp%Permutation_length. unfold len. rewrite Hp, length_app, Nat2Z.inj_add. fold (len (remove_zone (qs n st') i)).
  destruct (Hq st') as [Hnd Hin]. rewrite (remove_zone_len _ _ Hnd).
  rewrite (bool_decide_ext (i ∈ qs n st') (st0 = st')).
  - unfold len. rewrite (bool_decide_ext (st' = st) (st = st')) by done.
    destruct (bool_decide_reflect (st = st')) as [->|]; simpl; [rewrite Hqd|]; simpl; lia.
  - rewrite Hin, Hs. split; [intros [_ [= ?]]; done|intros ->; done].
Qed.

Lemma transition_done n n1 n' i z z1 st
    (o := opens n - b2z (is_open (zns_get_zone_state z)) + b2z (is_open st))
    (a := actives n - b2z (is_active (zns_get_zone_state z)) + b2z (is_active st)) :
  zinv n → zone_at n i = Some z → prepared n n1 i z1 o a →
  assigned n1 n' i z1 st → zone_ok n i (zns_set_zone_state z1 st) → limits n o a →
  zinv n' ∧ moved_to n n' i z1 st.
Proof.
  intros Hi Hz Hp Has Hok Hlim. pose proof (zi_q _ Hi) as Hq.
  assert (Hs0 : state_of n i = Some (zns_get_zone_state z)) by (unfold state_of; by rewrite Hz).
  pose proof (qinv_assigned n n1 n' i z z1 st Hq Hz (pr_qs _ _ _ _ _ _ Hp) (pr_zone _ _ _ _ _ _ Hp) Has) as Hq'.
  destruct Hp as [E1 E2 E3 E4 _ E5 E6 E7]. destruct Has as [F1 F2 F3 F4 F5 F6 F7 (z' & G1 & G2 & G3 & G4 & G5 & G6)].
  assert (Es : static n' = static n) by congruence.
  assert (Hlen : ∀ st', queued st' = true → len (qs n' st') = len (qs n st')
      - b2z (bool_decide (zns_get_zone_state z = st')) + b2z (bool_decide (st = st'))).
  { intros st' Hqd. apply (len_assigned n n' i _ st st' Hq Hs0 Hqd). by rewrite F7, E4. }
  assert (Ho : opens n' = o).
  { unfold o, opens. rewrite (Hlen EXPLICITLY_OPEN eq_refl : len (exp_open_zones n') = _),
      (Hlen IMPLICITLY_OPEN eq_refl : len (imp_open_zones n') = _). simpl qs.
    destruct (zns_get_zone_state z), st; simpl; lia. }
  assert (Ha : actives n' = a).
  { unfold a, actives. rewrite Ho. unfold o. rewrite (Hlen CLOSED eq_refl : len (closed_zones n') = _).
    simpl qs. destruct (zns_get_zone_state z), st; simpl; lia. }
  assert (Hzone : ∀ j, zone_at n' j = if decide (j = i) then Some z' else zone_at n j).
  { intros j. rewrite G6, E5. by case_decide. }
  split; [|split; try congruence; [|by exists z']; intros z0 Hz0; rewrite Hz in Hz0; by simplify_eq].
  split.
  - eapply zcfg_static; [apply (zi_cfg _ Hi)|done].
  - rewrite F6, E6. rewrite (zi_len _ Hi). symmetry. exact (f_equal num_zones Es).
  - intros j y. rewrite Hzone. case_decide as E.
    + intros [= <-]. subst j. apply (zone_ok_static n); [done|].
      eapply zone_ok_ext; [..|exact Hok]; rewrite ?state_set; done.
    + intros Hy. apply (zone_ok_static n); [done|]. by apply (zi_zone _ Hi).
  - done.
  - rewrite Ho, Ha. by apply (counters_static n1).
  - rewrite Ho, Ha. by apply (limits_static n).
  - rewrite F2, E2, (zi_mbe _ Hi). symmetry. exact (f_equal zns_ns_nlbas Es).
  - rewrite F3, E3. assert (Ex : zd_extension_size n' = zd_extension_size n) by (exact (f_equal zd_extension_size Es)).
    assert (En : num_zones n' = num_zones n) by (exact (f_equal num_zones Es)).
    rewrite Ex, En. apply (zi_ext _ Hi).
Qed.

Lemma transition n n1 i z z1 st
    (o := opens n - b2z (is_open (zns_get_zone_state z)) + b2z (is_open st))
    (a := actives n - b2z (is_active (zns_get_zone_state z)) + b2z (is_active st)) :
  zinv n → zone_at n i = Some z → prepared n n1 i z1 o a →
  zns_get_zone_state z1 = zns_get_zone_state z → zone_ok n i (zns_set_zone_state z1 st) → limits n o a →
  ∃ n', zns_assign_zone_state n1 i st = Some n' ∧ zinv n' ∧ moved_to n n' i z1 st.
Proof.
  intros Hi Hz Hp Hst1 Hok Hlim.
  assert (Hz1 : zone_at n1 i = Some z1) by (by rewrite (pr_zone _ _ _ _ _ _ Hp), decide_True).
  destruct (assign_spec n1 i z1 st Hz1) as (n' & Hn' & Has).
  { intros st' Hin%(pr_in _ _ _ _ _ _ Hp). rewrite Hst1. apply (zi_q _ Hi) in Hin as [_ H].
    unfold state_of in H. rewrite Hz in H. simpl in H. congruence. }
  exists n'. split; [done|]. by apply (transition_done n n1 n' i z z1 st).
Qed.

(** ** Facts about zones *)

Section zones.
Context (n : FemuCtrl).
Hypothesis Hi : zinv n.

Lemma zone_lt i z : zone_at n i = Some z → Z.of_nat i < num_zones n.
Proof using Hi. intros Hz%lookup_lt_Some. rewrite <- (zi_len _ Hi). lia. Qed.

Lemma zone_range i z :
  zone_at n i = Some z → 0 ≤ zslba (d z) ∧ zslba (d z) + zone_size n ≤ nsze (ns n) ∧ nsze (ns n) < 2 ^ 64 - 2 ^ 16.
Proof using Hi.
  intros Hz. pose proof (zone_lt i z Hz) as Hlt. pose proof (zi_cfg _ Hi) as [].
  rewrite (zo_slba _ _ _ (zi_zone _ Hi i z Hz)). rewrite zc_nsze0 in *.
  assert (0 < 2 ^ lbads (ns n)) by (apply Z.pow_pos_nonneg; lia).
  assert (num_zones n * zone_size n + 2 ^ 16 < 2 ^ 64) by nia. nia.
Qed.

Lemma wr_boundary_eq i z : zone_at n i = Some z → zns_zone_wr_boundary z = zslba (d z) + zcap (d z).
Proof using Hi.
  intros Hz. pose proof (zone_range i z Hz). pose proof (zi_cfg _ Hi) as [].
  apply u64_small. rewrite (zo_cap _ _ _ (zi_zone _ Hi i z Hz)). lia.
Qed.

Lemma rd_boundary_eq i z : zone_at n i = Some z → zns_zone_rd_boundary n z = zslba (d z) + zone_size n.
Proof using Hi.
  intros Hz. pose proof (zone_range i z Hz). pose proof (zi_cfg _ Hi) as []. apply u64_small. lia.
Qed.

(** An address of the namespace lies in the zone [zns_get_zone_by_slba] finds. *)
Lemma zone_by_slba slba :
  0 ≤ slba < nsze (ns n) →
  ∃ i z, zns_get_zone_by_slba n slba = Some i ∧ zone_at n i = Some z ∧ zns_zone_idx n slba = Z.of_nat i
    ∧ zslba (d z) ≤ slba < zslba (d z) + zone_size n.
Proof using Hi.
  intros Hs. pose proof (zi_cfg _ Hi) as [].
  assert (Hdiv : (if 0 <? zone_size_log2 n then Z.shiftr slba (zone_size_log2 n) else slba / zone_size n)
                 = slba / zone_size n).
  { destruct (Z.ltb_spec 0 (zone_size_log2 n)); [|done].
    destruct zc_log0 as [|[Hl ->]]; [lia|]. apply Z.shiftr_div_pow2. lia. }
  assert (Hq : 0 ≤ slba / zone_size n < num_zones n).
  { split; [apply Z.div_pos; lia|]. apply Z.div_lt_upper_bound; [lia|]. rewrite zc_nsze0 in Hs. lia. }
  assert (Hidx : zns_zone_idx n slba = slba / zone_size n).
  { unfold zns_zone_idx. rewrite Hdiv. apply u32_small. lia. }
  set (i := Z.to_nat (slba / zone_size n)).
  destruct (lookup_lt_is_Some_2 (zone_array n) i) as [z Hz]; [pose proof (zi_len _ Hi); lia|].
  exists i, z. split_and!.
  - unfold zns_get_zone_by_slba. rewrite Hidx, (proj2 (Z.ltb_lt _ _)) by lia. done.
  - done.
  - rewrite Hidx. lia.
  - rewrite (zo_slba _ _ _ (zi_zone _ Hi i z Hz)). pose proof (Z.mul_div_le slba (zone_size n)). lia.
  - rewrite (zo_slba _ _ _ (zi_zone _ Hi i z Hz)).
    pose proof (Z.mul_succ_div_gt slba (zone_size n)). lia.
Qed.

Lemma open_counts i z :
  zone_at n i = Some z →
  0 ≤ opens n - b2z (is_open (zns_get_zone_state z)) ≤ actives n - b2z (is_active (zns_get_zone_state z))
  ∧ 0 ≤ opens n ≤ actives n.
Proof using Hi.
  intros Hz. assert (Hs : state_of n i = Some (zns_get_zone_state z)) by (unfold state_of; by rewrite Hz).
  pose proof (queue_len_pos n i _ (zi_q _ Hi) Hs) as Hp. unfold actives, opens in *.
  assert (∀ l, 0 ≤ len l) as Hl by (unfold len; lia).
  pose proof (Hl (exp_open_zones n)). pose proof (Hl (imp_open_zones n)). pose proof (Hl (closed_zones n)).
  destruct (zns_get_zone_state z); simpl in *; try specialize (Hp eq_refl); lia.
Qed.
End zones.

Lemma prepared_intro n n1 i z z1 o a :
  only_counters n n1 → counters n1 o a → zone_at n i = Some z →
  prepared n (set_zone n1 i z1) i z1 o a.
Proof.
  intros Hc Hcnt Hz. assert (Ha : zone_array n1 = zone_array n) by (by rewrite Hc).
  split; try (by rewrite Hc).
  - intros j. rewrite zone_at_set by (unfold zone_at in *; rewrite Ha; eauto).
    unfold zone_at. by rewrite Ha.
  - simpl. by rewrite length_insert, Ha.
  - done.
Qed.

Lemma prepared_same n n1 i z o a :
  only_counters n n1 → counters n1 o a → zone_at n i = Some z → prepared n n1 i z o a.
Proof.
  intros Hc Hcnt Hz. assert (Ha : zone_array n1 = zone_array n) by (by rewrite Hc).
  split; try (by rewrite Hc).
  - intros j. unfold zone_at in *. rewrite Ha. case_decide; [by subst|done].
  - done.
Qed.

(** Giving up the resources of a zone. *)
Definition release n st : option FemuCtrl :=
  match st with
  | EXPLICITLY_OPEN | IMPLICITLY_OPEN => n ← zns_aor_dec_open n; zns_aor_dec_active n
  | CLOSED => zns_aor_dec_active n
  | _ => Some n
  end.

Lemma release_counters n st o a :
  counters n o a → 0 ≤ o - b2z (is_open st) ≤ a - b2z (is_active st) → o ≤ a →
  ∃ n1, release n st = Some n1 ∧ only_counters n n1
    ∧ counters n1 (o - b2z (is_open st)) (a - b2z (is_active st)).
Proof.
  intros Hc H1 H2. destruct st; simpl in *; rewrite ?Z.sub_0_r in *;
    try (exists n; split; [done|]; split; [apply only_counters_refl|done]).
  - destruct (dec_open_ok n _ _ Hc) as (n1 & -> & O1 & C1); [lia|]. cbn [mbind option_bind].
    destruct (dec_active_ok n1 _ _ C1) as (n2 & -> & O2 & C2); [lia|lia|].
    exists n2. split; [done|]. split; [by eapply only_counters_trans|done].
  - destruct (dec_open_ok n _ _ Hc) as (n1 & -> & O1 & C1); [lia|]. cbn [mbind option_bind].
    destruct (dec_active_ok n1 _ _ C1) as (n2 & -> & O2 & C2); [lia|lia|].
    exists n2. split; [done|]. split; [by eapply only_counters_trans|done].
  - destruct (dec_active_ok n _ _ Hc) as (n2 & -> & O2 & C2); [lia|lia|]. by exists n2.
Qed.

Lemma only_counters_zone n n1 i : only_counters n n1 → zone_at n1 i = zone_at n i.
Proof. by intros ->. Qed.

Lemma limits_less n o a o' a' : limits n o a → o' ≤ o → a' ≤ a → limits n o' a'.
Proof. intros [Ho Ha] H1 H2. split; intros H; [specialize (Ho H)|specialize (Ha H)]; lia. Qed.

(** ** Management operations *)

(** [z] with both pointers at [p]. *)
Definition at_pointer z (p : Z) : NvmeZone := z <| w_ptr := p |> <| d ::= λ e, e <| d_wp := p |> |>.

(** Releasing the zone and putting it into a state without resources, with
    both pointers at [p]. *)
Lemma release_to n i z p st :
  zinv n → zone_at n i = Some z → is_open st = false → is_active st = false → st ≠ RESERVED →
  zslba (d z) ≤ p ≤ zslba (d z) + zcap (d z) →
  (st = EMPTY → p = zslba (d z)) → (st = FULL → p = zslba (d z) + zcap (d z)) →
  ∃ n1 n', release n (zns_get_zone_state z) = Some n1 ∧ zone_at n1 i = Some z
    ∧ zns_assign_zone_state (set_zone n1 i (at_pointer z p)) i st = Some n'
    ∧ zinv n' ∧ moved_to n n' i (at_pointer z p) st.
Proof.
  intros Hi Hz Ho Ha Hr Hp He Hf. destruct (open_counts n Hi i z Hz) as [Hoa Hoa'].
  destruct (release_counters n (zns_get_zone_state z) _ _ (zi_cnt _ Hi)) as (n1 & H1 & Hc1 & Hcnt); [lia..|].
  destruct (transition n (set_zone n1 i (at_pointer z p)) i z (at_pointer z p) st Hi Hz) as (n' & Hn' & Hi' & Hm).
  - rewrite Ho, Ha. simpl. rewrite !Z.add_0_r. by eapply prepared_intro.
  - done.
  - destruct (zi_zone _ Hi i z Hz) as [Z1 Z2 Z3 Z4 Z5 Z6 Z7].
    split; try done; simpl; try lia; rewrite state_set; auto.
  - rewrite Ho, Ha. simpl. destruct (open_counts n Hi i z Hz) as [H2 _].
    eapply limits_less; [apply (zi_lim _ Hi)|..];
      destruct (is_open (zns_get_zone_state z)), (is_active (zns_get_zone_state z)); simpl; lia.
  - exists n1, n'. split_and!; try done. by rewrite (only_counters_zone n n1).
Qed.

Lemma finish_ok n i z (st := zns_get_zone_state z) (b := zslba (d z) + zcap (d z)) :
  zinv n → zone_at n i = Some z →
  ∃ n' s, zns_finish_zone n i st = Some (n', s) ∧ zinv n'
    ∧ (if is_active st || bool_decide (st = EMPTY)
       then s = NVME_SUCCESS ∧ moved_to n n' i (at_pointer z b) FULL
       else n' = n ∧ s = if decide (st = FULL) then NVME_SUCCESS else NVME_ZONE_INVAL_TRANSITION).
Proof.
  intros Hi Hz. pose proof (wr_boundary_eq n Hi i z Hz) as Hb.
  destruct (release_to n i z b FULL Hi Hz) as (n1 & n' & H1 & Hz1 & Hn' & Hi' & Hm); try done.
  { destruct (zi_zone _ Hi i z Hz). unfold b. lia. }
  assert (Hfin : (z0 ← zone_at n1 i;
    let z1 := z0 <| w_ptr := zns_zone_wr_boundary z0 |> in
    m ← zns_assign_zone_state (set_zone n1 i (z1 <| d ::= λ e, e <| d_wp := w_ptr z1 |> |>)) i FULL;
    Some (m, NVME_SUCCESS)) = Some (n', NVME_SUCCESS)).
  { rewrite Hz1. cbn [mbind option_bind]. rewrite Hb. change (zslba (d z) + zcap (d z)) with b.
    change ((m ← zns_assign_zone_state (set_zone n1 i (at_pointer z b)) i FULL; Some (m, NVME_SUCCESS))
            = Some (n', NVME_SUCCESS)). by rewrite Hn'. }
  fold st in H1. unfold zns_finish_zone. destruct st eqn:Est; simpl in H1 |- *;
    try (exists n; eexists; by split_and!).
  - exists n', NVME_SUCCESS. injection H1 as ->. by split_and!.
  - exists n', NVME_SUCCESS. apply bind_Some in H1 as (n2 & -> & H2). cbn [mbind option_bind]. rewrite H2.
    by split_and!.
  - exists n', NVME_SUCCESS. apply bind_Some in H1 as (n2 & -> & H2). cbn [mbind option_bind]. rewrite H2.
    by split_and!.
  - exists n', NVME_SUCCESS. rewrite H1. by split_and!.
Qed.

Lemma reset_cb_ok n i z (st := zns_get_zone_state z) :
  zinv n → zone_at n i = Some z → is_active st || bool_decide (st = FULL) = true →
  ∃ n', zns_aio_zone_reset_cb n i = Some n' ∧ zinv n' ∧ moved_to n n' i (at_pointer z (zslba (d z))) EMPTY.
Proof.
  intros Hi Hz Hst.
  destruct (release_to n i z (zslba (d z)) EMPTY Hi Hz) as (n1 & n' & H1 & Hz1 & Hn' & Hi' & Hm); try done.
  { pose proof (zi_cfg _ Hi) as []. rewrite (zo_cap _ _ _ (zi_zone _ Hi i z Hz)). lia. }
  exists n'. split; [|done]. unfold zns_aio_zone_reset_cb. rewrite Hz. cbn [mbind option_bind].
  fold st in H1 |- *. destruct st; try done; simpl in H1.
  - apply bind_Some in H1 as (n2 & -> & H2). cbn [mbind option_bind]. rewrite H2. cbn [mbind option_bind].
    rewrite Hz1. exact Hn'.
  - apply bind_Some in H1 as (n2 & -> & H2). cbn [mbind option_bind]. rewrite H2. cbn [mbind option_bind].
    rewrite Hz1. exact Hn'.
  - rewrite H1. cbn [mbind option_bind]. rewrite Hz1. exact Hn'.
  - injection H1 as <-. exact Hn'.
Qed.

Lemma reset_ok n i z (st := zns_get_zone_state z) :
  zinv n → zone_at n i = Some z →
  ∃ n' s, zns_reset_zone n i st = Some (n', s) ∧ zinv n'
    ∧ (if is_active st || bool_decide (st = FULL)
       then s = NVME_SUCCESS ∧ moved_to n n' i (at_pointer z (zslba (d z))) EMPTY
       else n' = n ∧ s = if decide (st = EMPTY) then NVME_SUCCESS else NVME_ZONE_INVAL_TRANSITION).
Proof.
  intros Hi Hz. pose proof (reset_cb_ok n i z Hi Hz) as Hcb. fold st in Hcb. unfold zns_reset_zone.
  destruct st; simpl in Hcb |- *; try (exists n; eexists; by split_and!);
    (destruct (Hcb eq_refl) as (n' & -> & ? & ?); exists n', NVME_SUCCESS; by split_and!).
Qed.

(** A zone changes its state and keeps its pointers. *)
Lemma change_state n n1 i z st
    (o := opens n - b2z (is_open (zns_get_zone_state z)) + b2z (is_open st))
    (a := actives n - b2z (is_active (zns_get_zone_state z)) + b2z (is_active st)) :
  zinv n → zone_at n i = Some z → only_counters n n1 → counters n1 o a → limits n o a →
  st ≠ RESERVED → st ≠ EMPTY → st ≠ FULL →
  ∃ n', zns_assign_zone_state n1 i st = Some n' ∧ zinv n' ∧ moved_to n n' i z st.
Proof.
  intros Hi Hz Hc Hcnt Hlim H1 H2 H3.
  apply (transition n n1 i z z st Hi Hz); [by apply prepared_same|done| |done].
  destruct (zi_zone _ Hi i z Hz). split; try done; rewrite state_set; done.
Qed.

Lemma close_ok n i z (st := zns_get_zone_state z) :
  zinv n → zone_at n i = Some z →
  ∃ n' s, zns_close_zone n i st = Some (n', s) ∧ zinv n'
    ∧ (if is_open st then s = NVME_SUCCESS ∧ moved_to n n' i z CLOSED
       else n' = n ∧ s = if decide (st = CLOSED) then NVME_SUCCESS else NVME_ZONE_INVAL_TRANSITION).
Proof.
  intros Hi Hz. destruct (open_counts n Hi i z Hz) as [H1 H2]. fold st in H1.
  assert (Hopen : is_open st = true → ∃ n1 n', zns_aor_dec_open n = Some n1
    ∧ zns_assign_zone_state n1 i CLOSED = Some n' ∧ zinv n' ∧ moved_to n n' i z CLOSED).
  { intros Hst. rewrite Hst in H1. simpl in H1.
    destruct (dec_open_ok n _ _ (zi_cnt _ Hi)) as (n1 & Hn1 & Hc & Hcnt); [lia|].
    assert (Ha : is_active st = true) by (by destruct st).
    destruct (change_state n n1 i z CLOSED Hi Hz Hc) as (n' & ? & ? & ?); try done.
    - fold st. rewrite Hst, Ha. simpl. by replace (actives n - 1 + 1) with (actives n) by lia;
        replace (opens n - 1 + 0) with (opens n - 1) by lia.
    - fold st. rewrite Hst, Ha. eapply limits_less; [apply (zi_lim _ Hi)|..]; simpl; lia.
    - by exists n1, n'. }
  unfold zns_close_zone. destruct st; simpl in *; try (exists n; eexists; by split_and!);
    (destruct (Hopen eq_refl) as (n1 & n' & -> & Ha & ? & ?); cbn [mbind option_bind]; rewrite Ha;
     exists n', NVME_SUCCESS; by split_and!).
Qed.

Lemma aor_check_spec n o a x y :
  zcfg n → counters n o a → limits n o a → 0 ≤ o → 0 ≤ a → 0 ≤ x ≤ 1 → 0 ≤ y ≤ 1 →
  (zns_aor_check n x y = NVME_SUCCESS ∧ limits n (o + y) (a + x))
  ∨ (nz (zns_aor_check n x y) = true ∧ ¬ limits n (o + y) (a + x)).
Proof.
  intros [] [Ho Ha] [Lo La] H0 H1 Hx Hy. unfold zns_aor_check. rewrite Ho, Ha.
  destruct (nz_spec (max_active_zones n)) as [E|E].
  - specialize (La E). rewrite u32_small by lia. simpl.
    destruct (Z.ltb_spec (max_active_zones n) (a + x)) as [L|L].
    { right. split; [done|]. intros [_ Hl]. specialize (Hl E). lia. }
    destruct (nz_spec (max_open_zones n)) as [E2|E2]; simpl.
    + specialize (Lo E2). rewrite u32_small by lia.
      destruct (Z.ltb_spec (max_open_zones n) (o + y)) as [L2|L2].
      * right. split; [done|]. intros [Hl _]. specialize (Hl E2). lia.
      * left. split; [done|]. split; lia.
    + left. split; [done|]. split; lia.
  - simpl. destruct (nz_spec (max_open_zones n)) as [E2|E2]; simpl.
    + specialize (Lo E2). rewrite u32_small by lia.
      destruct (Z.ltb_spec (max_open_zones n) (o + y)) as [L2|L2].
      * right. split; [done|]. intros [Hl _]. specialize (Hl E2). lia.
      * left. split; [done|]. split; lia.
    + left. split; [done|]. split; lia.
Qed.

Lemma only_counters_eq n n' o a : only_counters n n' → counters n o a → counters n' o a → n' = n.
Proof.
  intros Hc [Ho Ha] [Ho' Ha'].
  assert (E1 : max_open_zones n' = max_open_zones n) by (by rewrite Hc).
  assert (E2 : max_active_zones n' = max_active_zones n) by (by rewrite Hc).
  rewrite E1, <- Ho in Ho'. rewrite E2, <- Ha in Ha'. rewrite Hc, Ho', Ha'. by destruct n.
Qed.

Lemma only_counters_static n n' : only_counters n n' → static n' = static n.
Proof. by intros ->. Qed.

(** The last step of opening a zone that is not open yet. *)
Lemma open_last n n1 i z :
  zinv n → zone_at n i = Some z → only_counters n n1 →
  is_open (zns_get_zone_state z) = false →
  counters n1 (opens n) (actives n - b2z (is_active (zns_get_zone_state z)) + 1) →
  limits n (opens n + 1) (actives n - b2z (is_active (zns_get_zone_state z)) + 1) →
  ∃ n2 n', zns_aor_inc_open n1 = Some n2 ∧ zns_assign_zone_state n2 i EXPLICITLY_OPEN = Some n'
    ∧ zinv n' ∧ moved_to n n' i z EXPLICITLY_OPEN.
Proof.
  intros Hi Hz Hc Hopn Hcnt Hlim. destruct (open_counts n Hi i z Hz) as [_ H2].
  assert (E1 : max_open_zones n1 = max_open_zones n) by (by rewrite Hc).
  destruct (inc_open_ok n1 _ _ Hcnt) as (n2 & Hn2 & Hc2 & Hcnt2); [lia|rewrite E1; apply Hlim|].
  destruct (change_state n n2 i z EXPLICITLY_OPEN Hi Hz) as (n' & ? & ? & ?); try done.
  - by eapply only_counters_trans.
  - rewrite Hopn. simpl. by rewrite Z.sub_0_r.
  - rewrite Hopn. simpl. by rewrite Z.sub_0_r.
  - by exists n2, n'.
Qed.

Lemma open_ok n i z (st := zns_get_zone_state z) :
  zinv n → zone_at n i = Some z →
  ∃ n' s, zns_open_zone n i st = Some (n', s) ∧ zinv n'
    ∧ match st with
      | EMPTY | CLOSED | IMPLICITLY_OPEN =>
          s = NVME_SUCCESS ∧ moved_to n n' i z EXPLICITLY_OPEN
          ∨ nz s = true ∧ n' = n
            ∧ ¬ limits n (opens n + 1) (actives n - b2z (is_active st) + 1)
      | EXPLICITLY_OPEN => s = NVME_SUCCESS ∧ n' = n
      | _ => s = NVME_ZONE_INVAL_TRANSITION ∧ n' = n
      end.
Proof.
  intros Hi Hz. destruct (open_counts n Hi i z Hz) as [H1 H2]. pose proof (zi_cnt _ Hi) as Hcnt.
  pose proof (open_last n) as Hlast. unfold zns_open_zone. fold st.
  destruct st eqn:Est; cbn beta iota; try (eexists _, _; by split_and!).
  - assert (Hopn : is_open st = false) by (by rewrite Est).
    destruct (aor_check_spec n _ _ 1 0 (zi_cfg _ Hi) Hcnt (zi_lim _ Hi)) as [[-> L1]|[Hnz L1]]; [lia..| |].
    2: { rewrite Hnz. eexists _, _. split; [done|]. split; [done|]. right. split_and!; try done.
         intros L. apply L1. eapply limits_less; [exact L|..]; simpl; lia. }
    simpl nz. cbn iota.
    destruct (inc_active_ok n _ _ Hcnt) as (n1 & -> & Hc1 & Hcnt1); [lia|apply L1|]. cbn [mbind option_bind].
    assert (Hcfg1 : zcfg n1) by (eapply zcfg_static; [apply (zi_cfg _ Hi)|by apply only_counters_static]).
    assert (L1' : limits n1 (opens n) (actives n + 1)).
    { eapply limits_static; [by apply only_counters_static|]. eapply limits_less; [exact L1|..]; lia. }
    destruct (aor_check_spec n1 _ _ 0 1 Hcfg1 Hcnt1 L1') as [[-> L2]|[Hnz L2]]; [lia..| |].
    + simpl nz. cbn iota. destruct (Hlast n1 i z Hi Hz Hc1) as (n2 & n' & -> & Ha & ? & ?).
      * by fold st; rewrite Est.
      * fold st. rewrite Est. simpl. by rewrite Z.sub_0_r.
      * fold st. rewrite Est. simpl. rewrite Z.sub_0_r, Z.add_0_r in *.
        eapply limits_static; [|exact L2]. symmetry. by apply only_counters_static.
      * cbn [mbind option_bind]. rewrite Ha. cbn [mbind option_bind]. eexists _, _. split; [done|]. split; [done|]. by left.
    + rewrite Hnz. rewrite decide_True by done.
      destruct (dec_active_ok n1 _ _ Hcnt1) as (n2 & -> & Hc2 & Hcnt2); [lia..|]. cbn [mbind option_bind].
      assert (n2 = n) as ->.
      { eapply only_counters_eq; [by eapply only_counters_trans|exact Hcnt|].
        by replace (actives n + 1 - 1) with (actives n) in Hcnt2 by lia. }
      eexists _, _. split; [done|]. split; [done|]. right. split_and!; try done. simpl.
      rewrite Z.sub_0_r, Z.add_0_r in *. intros L. apply L2.
      eapply limits_static; [|exact L]. by apply only_counters_static.
  - destruct (change_state n n i z EXPLICITLY_OPEN Hi Hz (only_counters_refl n)) as (n' & -> & ? & ?); try done.
    + fold st. rewrite Est. simpl. by replace (opens n - 1 + 1) with (opens n) by lia;
        replace (actives n - 1 + 1) with (actives n) by lia.
    + fold st. rewrite Est. eapply limits_less; [apply (zi_lim _ Hi)|..]; simpl; lia.
    + cbn [mbind option_bind]. eexists _, _. split; [done|]. split; [done|]. by left.
  - destruct (aor_check_spec n _ _ 0 1 (zi_cfg _ Hi) Hcnt (zi_lim _ Hi)) as [[-> L1]|[Hnz L1]]; [lia..| |].
    + simpl nz. cbn iota. destruct (Hlast n i z Hi Hz (only_counters_refl n)) as (n2 & n' & -> & Ha & ? & ?).
      * by fold st; rewrite Est.
      * fold st. rewrite Est. simpl. by replace (actives n - 1 + 1) with (actives n) by lia.
      * fold st. rewrite Est. eapply limits_less; [exact L1|..]; simpl; lia.
      * cbn [mbind option_bind]. rewrite Ha. cbn [mbind option_bind]. eexists _, _. split; [done|]. split; [done|]. by left.
    + rewrite Hnz. rewrite decide_False by done. cbn [mbind option_bind]. eexists _, _. split; [done|].
      split; [done|]. right. split_and!; try done. simpl. intros L. apply L1.
      eapply limits_less; [exact L|..]; lia.
Qed.

Lemma offline_ok n i z (st := zns_get_zone_state z) :
  zinv n → zone_at n i = Some z →
  ∃ n' s, zns_offline_zone n i st = Some (n', s) ∧ zinv n'
    ∧ (if decide (st = READ_ONLY) then s = NVME_SUCCESS ∧ moved_to n n' i z OFFLINE
       else n' = n ∧ s = if decide (st = OFFLINE) then NVME_SUCCESS else NVME_ZONE_INVAL_TRANSITION).
Proof.
  intros Hi Hz. unfold zns_offline_zone. fold st.
  destruct st eqn:Est; cbn; try (eexists _, _; by split_and!).
  destruct (change_state n n i z OFFLINE Hi Hz (only_counters_refl n)) as (n' & -> & ? & ?); try done.
  - fold st. rewrite Est. simpl. rewrite !Z.sub_0_r, !Z.add_0_r. apply (zi_cnt _ Hi).
  - fold st. rewrite Est. simpl. rewrite !Z.sub_0_r, !Z.add_0_r. apply (zi_lim _ Hi).
  - cbn. eexists _, _. by split_and!.
Qed.

Definition with_ext z : NvmeZone := z <| d ::= λ e, e <| za := Z.lor (za e) NVME_ZA_ZD_EXT_VALID |> |>.

Lemma set_zd_ext_ok n i z (st := zns_get_zone_state z) :
  zinv n → zone_at n i = Some z →
  ∃ n' s, zns_set_zd_ext n i = Some (n', s) ∧ zinv n'
    ∧ (s = NVME_SUCCESS ∧ st = EMPTY ∧ moved_to n n' i (with_ext z) CLOSED
       ∨ nz s = true ∧ n' = n ∧ (st = EMPTY → ¬ limits n (opens n) (actives n + 1))).
Proof.
  intros Hi Hz. destruct (open_counts n Hi i z Hz) as [H1 H2]. unfold zns_set_zd_ext. rewrite Hz.
  cbn [mbind option_bind]. fold st. destruct (decide (st = EMPTY)) as [Est|Est].
  2: { eexists _, _. split; [done|]. split; [done|]. right. by split_and!. }
  pose proof (zi_cnt _ Hi) as Hcnt.
  destruct (aor_check_spec n _ _ 1 0 (zi_cfg _ Hi) Hcnt (zi_lim _ Hi)) as [[-> L1]|[Hnz L1]]; [lia..| |].
  2: { rewrite Hnz. eexists _, _. split; [done|]. split; [done|]. right. rewrite Z.add_0_r in L1. by split_and!. }
  simpl nz. cbn iota. rewrite Z.add_0_r in L1.
  destruct (inc_active_ok n _ _ Hcnt) as (n1 & -> & Hc1 & Hcnt1); [lia|apply L1|]. cbn [mbind option_bind].
  rewrite (only_counters_zone n n1), Hz by done. cbn [mbind option_bind].
  destruct (transition n (set_zone n1 i (with_ext z)) i z (with_ext z) CLOSED Hi Hz) as (n' & Hn' & ? & ?).
  - fold st. rewrite Est. simpl. rewrite !Z.sub_0_r, Z.add_0_r. by eapply prepared_intro.
  - done.
  - destruct (zi_zone _ Hi i z Hz). split; try done; rewrite state_set; done.
  - fold st. rewrite Est. simpl. by rewrite !Z.sub_0_r, Z.add_0_r.
  - unfold with_ext in Hn'. rewrite Hn'. cbn [mbind option_bind]. eexists _, _. split; [done|].
    split; [done|]. by left.
Qed.

(** ** Opening for a write *)

(** Commands change only zones, queues and counters. *)
Definition kept n n' : Prop :=
  static n' = static n ∧ mbe n' = mbe n ∧ zd_extensions n' = zd_extensions n.

Lemma zkept_refl n : kept n n.
Proof. done. Qed.

Lemma zkept_trans n1 n2 n3 : kept n1 n2 → kept n2 n3 → kept n1 n3.
Proof. unfold kept. intuition congruence. Qed.

Lemma moved_kept n n' i z st : moved_to n n' i z st → kept n n'.
Proof. by intros []. Qed.

(** All pointers are the same; an implicitly open zone may have been closed. *)
Definition same_ptrs n n' : Prop :=
  ∀ j y, zone_at n j = Some y → ∃ y', zone_at n' j = Some y' ∧ w_ptr y' = w_ptr y ∧ d_wp (d y') = d_wp (d y)
    ∧ (zns_get_zone_state y' = zns_get_zone_state y
       ∨ zns_get_zone_state y = IMPLICITLY_OPEN ∧ zns_get_zone_state y' = CLOSED).

Lemma same_ptrs_refl n : same_ptrs n n.
Proof. intros j y Hy. exists y. auto. Qed.

Lemma auto_transition_ok n :
  zinv n →
  ∃ n', zns_auto_transition_zone n = Some n' ∧ zinv n' ∧ kept n n'
    ∧ (∀ j z, zone_at n j = Some z → zns_get_zone_state z ≠ IMPLICITLY_OPEN → zone_at n' j = Some z)
    ∧ same_ptrs n n' ∧ actives n' = actives n ∧ opens n' ≤ opens n
    ∧ (max_open_zones n ≠ 0 → imp_open_zones n ≠ [] → opens n' < max_open_zones n).
Proof.
  intros Hi. pose proof (zi_cnt _ Hi) as [Ho Ha]. pose proof (zi_lim _ Hi) as [Lo _].
  unfold zns_auto_transition_zone.
  destruct (nz_spec (max_open_zones n)) as [E|E]; simpl.
  2: { exists n. split_and!; auto using same_ptrs_refl, zkept_refl; done || lia. }
  destruct (Z.eqb_spec (nr_open_zones n) (max_open_zones n)) as [Eo|Eo]; simpl.
  2: { specialize (Lo E). exists n. split_and!; auto using same_ptrs_refl, zkept_refl; done || lia. }
  destruct (imp_open_zones n) as [|i l] eqn:Himp.
  { exists n. split_and!; auto using same_ptrs_refl, zkept_refl; done || lia. }
  assert (Hin : i ∈ qs n IMPLICITLY_OPEN) by (simpl; rewrite Himp; left).
  destruct (proj2 (zi_q _ Hi IMPLICITLY_OPEN) i) as [Hst _]. destruct (Hst Hin) as [_ Hs].
  apply fmap_Some in Hs as (z & Hz & Hs). destruct (open_counts n Hi i z Hz) as [H1 H2].
  rewrite <- Hs in H1. simpl in H1.
  set (n0 := n <| imp_open_zones ::= λ l, remove_zone l i |>).
  destruct (dec_open_ok n0 (opens n) (actives n) (zi_cnt _ Hi)) as (n1 & -> & Hc1 & Hcnt1); [lia|].
  cbn [mbind option_bind].
  destruct (transition n n1 i z z CLOSED Hi Hz) as (n' & Hn' & Hi' & Hm).
  - rewrite <- Hs. simpl. replace (opens n - 1 + 0) with (opens n - 1) by lia.
    replace (actives n - 1 + 1) with (actives n) by lia.
    split; try (by rewrite Hc1).
    + intros st. rewrite Hc1. destruct st; simpl; try done. unfold remove_zone.
      rewrite list_filter_filter. apply list_filter_iff. naive_solver.
    + intros st. rewrite Hc1. destruct st; simpl; try done.
    + intros j. rewrite (only_counters_zone n0 n1) by done. change (zone_at n0 j) with (zone_at n j).
      case_decide; [by subst|done].
    + done.
  - done.
  - destruct (zi_zone _ Hi i z Hz). split; try done; rewrite state_set; done.
  - rewrite <- Hs. eapply limits_less; [apply (zi_lim _ Hi)|..]; simpl; lia.
  - exists n'. split; [done|]. split; [done|]. pose proof (moved_kept _ _ _ _ _ Hm) as Hk. split; [done|].
    destruct (mv_counts _ _ _ _ _ Hm z Hz) as [Co Ca]. rewrite <- Hs in Co, Ca. simpl in Co, Ca.
    specialize (Lo E). destruct Hm as [_ _ _ _ (z' & F1 & F2 & F3 & _ & _ & Hz')]. split_and!; try lia.
    + intros j y Hj Hy. rewrite Hz'. case_decide as Ej; [|done]. subst j. rewrite Hz in Hj. simplify_eq.
    + intros j y Hj. rewrite Hz'. case_decide as Ej; [|exists y; auto]. subst j. rewrite Hz in Hj.
      simplify_eq. exists z'. split_and!; [done..|]. by right.
Qed.

Definition writable st : bool :=
  match st with EMPTY | IMPLICITLY_OPEN | EXPLICITLY_OPEN | CLOSED => true | _ => false end.

(** The resources a zone in state [st] needs to be written. *)
Definition room n st : Prop :=
  match st with
  | EMPTY => limits n (opens n + 1) (actives n + 1)
  | CLOSED => limits n (opens n + 1) (actives n)
  | _ => True
  end.

Lemma counts_nonneg n : 0 ≤ opens n ≤ actives n.
Proof. unfold actives, opens, len. lia. Qed.

(** The outcome [s] of making room for zone [i] in state [st]. *)
Record opened n n' i z st (s : Z) : Prop := {
  op_inv : zinv n';
  op_kept : kept n n';
  op_zone : zone_at n' i = Some z;
  op_others : ∀ j y, zone_at n j = Some y → zns_get_zone_state y ≠ IMPLICITLY_OPEN → zone_at n' j = Some y;
  op_ptrs : same_ptrs n n';
  op_status : s = NVME_SUCCESS ∧ room n' st ∨ nz s = true ∧ ¬ room n' st;
  op_active : actives n' = actives n;
  op_open : opens n' ≤ opens n;
  op_room : max_open_zones n ≠ 0 → imp_open_zones n ≠ [] → st = EMPTY ∨ st = CLOSED →
    opens n' < max_open_zones n
}.

Lemma auto_open_ok n i z (st := zns_get_zone_state z) :
  zinv n → zone_at n i = Some z →
  ∃ n' s, zns_auto_open_zone n i = Some (n', s) ∧ opened n n' i z st s.
Proof.
  intros Hi Hz. unfold zns_auto_open_zone. rewrite Hz. cbn [mbind option_bind]. fold st.
  destruct (auto_transition_ok n Hi) as (n' & Hn' & Hi' & Hk & Hz' & Hp & Ha & Ho & Hroom).
  assert (Hcheck : ∀ x, 0 ≤ x ≤ 1 →
    (zns_aor_check n' x 1 = NVME_SUCCESS ∧ limits n' (opens n' + 1) (actives n' + x))
    ∨ (nz (zns_aor_check n' x 1) = true ∧ ¬ limits n' (opens n' + 1) (actives n' + x))).
  { intros x Hx. pose proof (counts_nonneg n').
    apply aor_check_spec; [apply Hi'|apply (zi_cnt _ Hi')|apply (zi_lim _ Hi')|lia..]. }
  destruct st eqn:Est;
    try (eexists n, _; split; [done|]; split; try done; [apply same_ptrs_refl|by left|by intros _ _ [?|?]]).
  - rewrite Hn'. cbn [mbind option_bind]. eexists n', _. split; [done|]. split; try done.
    + apply Hz'; [done|]. by fold st; rewrite Est.
    + apply (Hcheck 1). lia.
    + intros. by apply Hroom.
  - rewrite Hn'. cbn [mbind option_bind]. eexists n', _. split; [done|]. split; try done.
    + apply Hz'; [done|]. by fold st; rewrite Est.
    + simpl. rewrite <- (Z.add_0_r (actives n')). apply (Hcheck 0). lia.
    + intros. by apply Hroom.
Qed.

(** ** The write pointer *)

(** Changing the pointers of a zone and nothing else. *)
Lemma set_pointers n i z z1 :
  zinv n → zone_at n i = Some z → zns_get_zone_state z1 = zns_get_zone_state z → zone_ok n i z1 →
  zinv (set_zone n i z1) ∧ kept n (set_zone n i z1)
  ∧ opens (set_zone n i z1) = opens n ∧ actives (set_zone n i z1) = actives n.
Proof.
  intros Hi Hz Hst Hok. split; [|done]. destruct Hi as [H1 H2 H3 H4 H5 H6 H7 H8]. split; try done.
  - eapply zcfg_static; [exact H1|done].
  - simpl. by rewrite length_insert.
  - intros j y. rewrite zone_at_set by eauto. case_decide as E; [|intros Hy].
    + intros [= <-]. subst. by apply (zone_ok_static n).
    + apply (zone_ok_static n); [done|]. by apply H3.
  - intros st. destruct (H4 st) as [Hnd Hin]. assert (Hq : qs (set_zone n i z1) st = qs n st) by (by destruct st).
    rewrite Hq. split; [done|]. intros j. rewrite Hin. unfold state_of. rewrite zone_at_set by eauto.
    case_decide as E; [|done]. subst. rewrite Hz. simpl. by rewrite Hst.
Qed.

Definition with_wptr z (p : Z) : NvmeZone := z <| w_ptr := p |>.

(** What one write command makes of the state of its zone. *)
Definition state_opened st : NvmeZoneState :=
  match st with EMPTY | CLOSED => IMPLICITLY_OPEN | _ => st end.

Record advanced n n' i z (p : Z) : Prop := {
  ad_inv : zinv n';
  ad_kept : kept n n';
  ad_zone : ∃ z', zone_at n' i = Some z' ∧ w_ptr z' = p ∧ d_wp (d z') = d_wp (d z)
    ∧ zslba (d z') = zslba (d z) ∧ zcap (d z') = zcap (d z)
    ∧ zns_get_zone_state z' = (if p <? zslba (d z) + zcap (d z) then state_opened (zns_get_zone_state z)
                               else zns_get_zone_state z);
  ad_others : ∀ j, j ≠ i → zone_at n' j = zone_at n j
}.

Lemma prepared_after n n1 i z z1 o a :
  zone_at n i = Some z → only_counters (set_zone n i z1) n1 → counters n1 o a →
  prepared n n1 i z1 o a.
Proof.
  intros Hz Hc Hcnt. split; try (by rewrite Hc).
  - intros j. rewrite (only_counters_zone _ _ j Hc). apply zone_at_set. eauto.
  - rewrite Hc. apply length_insert.
  - done.
Qed.

Lemma counters_set_zone n i z o a : counters n o a → counters (set_zone n i z) o a.
Proof. done. Qed.

(** The zone is opened implicitly with its write pointer at [p]. *)
Lemma open_implicitly n n1 i z p (st := zns_get_zone_state z) :
  zinv n → zone_at n i = Some z → st = EMPTY ∨ st = CLOSED →
  w_ptr z ≤ p ≤ zslba (d z) + zcap (d z) → room n st →
  only_counters (set_zone n i (with_wptr z p)) n1 →
  counters n1 (opens n + 1) (actives n + (if decide (st = EMPTY) then 1 else 0)) →
  ∃ n', zns_assign_zone_state n1 i IMPLICITLY_OPEN = Some n' ∧ zinv n'
    ∧ moved_to n n' i (with_wptr z p) IMPLICITLY_OPEN.
Proof.
  intros Hi Hz Hst Hp Hroom Hc Hcnt.
  assert (Hcase : opens n - b2z (is_open st) + 1 = opens n + 1
    ∧ actives n - b2z (is_active st) + 1 = actives n + (if decide (st = EMPTY) then 1 else 0)
    ∧ limits n (opens n + 1) (actives n + (if decide (st = EMPTY) then 1 else 0))).
  { destruct Hst as [E|E]; rewrite E in *; simpl in *; rewrite ?Z.add_0_r; split_and!; done || lia. }
  destruct Hcase as (Eo & Ea & Hlim).
  apply (transition n n1 i z (with_wptr z p) IMPLICITLY_OPEN Hi Hz).
  - fold st. simpl. rewrite Eo, Ea. by eapply prepared_after.
  - done.
  - destruct (zi_zone _ Hi i z Hz). split; try done; simpl; try lia; rewrite state_set; done.
  - fold st. simpl. by rewrite Eo, Ea.
Qed.

Lemma advanced_moved n n' i z p :
  zone_at n i = Some z → p < zslba (d z) + zcap (d z) →
  state_opened (zns_get_zone_state z) = IMPLICITLY_OPEN → zinv n' →
  moved_to n n' i (with_wptr z p) IMPLICITLY_OPEN → advanced n n' i z p.
Proof.
  intros Hz Hp Hst Hi Hm. pose proof (moved_kept _ _ _ _ _ Hm) as Hk.
  destruct Hm as [_ _ _ _ (z' & E1 & E2 & E3 & E4 & E5 & E6)]. split; [done|done| |].
  - exists z'. rewrite E6, decide_True by done. rewrite (proj2 (Z.ltb_lt _ _)) by done.
    split_and!; try done. by rewrite E1.
  - intros j Hj. by rewrite E6, decide_False.
Qed.

Lemma zone_advance_ok n i z nlb (st := zns_get_zone_state z) :
  zinv n → zone_at n i = Some z → writable st = true → 1 ≤ nlb →
  w_ptr z + nlb ≤ zslba (d z) + zcap (d z) → room n st →
  ∃ n', zns_advance_zone_wp n i nlb = Some (n', w_ptr z) ∧ advanced n n' i z (w_ptr z + nlb).
Proof.
  intros Hi Hz Hw Hnlb Hle Hroom. pose proof (zone_range n Hi i z Hz) as Hr.
  pose proof (zi_zone _ Hi i z Hz) as Hok. pose proof (zi_cfg _ Hi) as Hcfg.
  assert (Hc : zcap (d z) ≤ zone_size n) by (destruct Hok, Hcfg; lia).
  unfold zns_advance_zone_wp. rewrite Hz. cbn [mbind option_bind].
  rewrite u64_small by (destruct Hok; lia). set (p := w_ptr z + nlb) in *. fold (with_wptr z p).
  change (zns_zone_wr_boundary (with_wptr z p)) with (zns_zone_wr_boundary z).
  rewrite (wr_boundary_eq n Hi i z Hz). change (w_ptr (with_wptr z p)) with p.
  change (zns_get_zone_state (with_wptr z p)) with st.
  assert (Hset : (st = EMPTY → p = zslba (d z) + zcap (d z)) →
    (p < zslba (d z) + zcap (d z) → state_opened st = st) →
    advanced n (set_zone n i (with_wptr z p)) i z p).
  { intros He Hs. destruct (set_pointers n i z (with_wptr z p) Hi Hz) as (Hi' & Hk & _); [done| |].
    - destruct Hok. split; try done; simpl; try lia.
      change (zns_get_zone_state (with_wptr z p)) with st. intros E. destruct (zo_empty0 E). auto.
    - split; [done|done| |].
      + exists (with_wptr z p). rewrite zone_at_set, decide_True by eauto. split_and!; try done.
        change (zns_get_zone_state (with_wptr z p)) with st.
        fold st. destruct (Z.ltb_spec p (zslba (d z) + zcap (d z))); [|done]. by rewrite Hs.
      + intros j Hj. by rewrite zone_at_set, decide_False by eauto. }
  pose proof (counts_nonneg n) as Hnn. pose proof (zi_cnt _ Hi) as Hcnt.
  destruct (Z.ltb_spec p (zslba (d z) + zcap (d z))) as [Hlt|Hge].
  2: { cbn [mbind option_bind]. eexists. split; [done|]. apply Hset; lia. }
  destruct st eqn:Est; try done; cbn [mbind option_bind];
    try (eexists; split; [done|]; apply Hset; done).
  - destruct (inc_active_ok (set_zone n i (with_wptr z p)) _ _ Hcnt) as (n1 & -> & C1 & Cn1); [lia|apply Hroom|].
    cbn [mbind option_bind].
    destruct (inc_open_ok n1 _ _ Cn1) as (n2 & -> & C2 & Cn2); [lia|rewrite C1; apply Hroom|].
    cbn [mbind option_bind].
    destruct (open_implicitly n n2 i z p Hi Hz) as (n' & -> & Hi' & Hm); fold st; rewrite ?Est; try done; [by left|lia|..].
    + by eapply only_counters_trans.
    + cbn [mbind option_bind]. eexists. split; [done|]. apply advanced_moved; try done. by fold st; rewrite Est.
  - destruct (inc_open_ok (set_zone n i (with_wptr z p)) _ _ Hcnt) as (n2 & -> & C2 & Cn2); [lia|apply Hroom|].
    cbn [mbind option_bind].
    destruct (open_implicitly n n2 i z p Hi Hz) as (n' & -> & Hi' & Hm); fold st; rewrite ?Est; try done; [by right|lia|..].
    + simpl. by rewrite Z.add_0_r.
    + cbn [mbind option_bind]. eexists. split; [done|]. apply advanced_moved; try done. by fold st; rewrite Est.
Qed.

Definition with_dwp z (p : Z) : NvmeZone := z <| d ::= λ e, e <| d_wp := p |> |>.

Record finalized n n' i z (p : Z) : Prop := {
  fz_inv : zinv n';
  fz_kept : kept n n';
  fz_zone : ∃ z', zone_at n' i = Some z' ∧ w_ptr z' = w_ptr z ∧ d_wp (d z') = p
    ∧ zslba (d z') = zslba (d z) ∧ zcap (d z') = zcap (d z)
    ∧ zns_get_zone_state z' = (if p =? zslba (d z) + zcap (d z) then FULL else zns_get_zone_state z);
  fz_others : ∀ j, j ≠ i → zone_at n' j = zone_at n j
}.

Lemma finalize_ok n req i z (st := zns_get_zone_state z) (p := d_wp (d z) + rw_nlb (rcmd req)) :
  zinv n → zns_get_zone_by_slba n (rw_slba (rcmd req)) = Some i → zone_at n i = Some z →
  writable st = true → p ≤ w_ptr z → (st = EMPTY → p = zslba (d z) + zcap (d z)) →
  ∃ n', zns_finalize_zoned_write n req false = Some (n', req) ∧ finalized n n' i z p.
Proof.
  intros Hi Hidx Hz Hw Hp He. pose proof (zone_range n Hi i z Hz) as Hr.
  pose proof (zi_zone _ Hi i z Hz) as Hok. pose proof (zi_cfg _ Hi) as Hcfg.
  assert (Hc : zcap (d z) ≤ zone_size n) by (destruct Hok, Hcfg; lia).
  assert (Hn : 1 ≤ rw_nlb (rcmd req)) by (unfold rw_nlb, u16; pose proof (Z.mod_pos_bound (cdw12 (rcmd req)) (2 ^ 16)); lia).
  unfold zns_finalize_zoned_write. rewrite Hidx. cbn [mbind option_bind]. rewrite Hz. cbn [mbind option_bind].
  change (z <| d ::= λ e, e <| d_wp := u64 (d_wp e + rw_nlb (rcmd req)) |> |>) with (with_dwp z (u64 p)).
  rewrite (u64_small p) by (destruct Hok; lia).
  change (zns_zone_wr_boundary (with_dwp z p)) with (zns_zone_wr_boundary z).
  rewrite (wr_boundary_eq n Hi i z Hz). change (d_wp (d (with_dwp z p))) with p.
  change (zns_get_zone_state (with_dwp z p)) with st.
  destruct (Z.eqb_spec p (zslba (d z) + zcap (d z))) as [E|E].
  - assert (Hm : ∃ n1 n', release (set_zone n i (with_dwp z p)) st = Some n1
      ∧ zns_assign_zone_state n1 i FULL = Some n' ∧ zinv n' ∧ moved_to n n' i (with_dwp z p) FULL).
    { destruct (open_counts n Hi i z Hz) as [H1 H2]. fold st in H1.
      destruct (release_counters (set_zone n i (with_dwp z p)) st _ _ (zi_cnt _ Hi)) as (n1 & Hn1 & C1 & Cn1); [lia..|].
      destruct (transition n n1 i z (with_dwp z p) FULL Hi Hz) as (n' & Hn' & Hi' & Hm).
      - fold st. simpl. rewrite !Z.add_0_r. by eapply prepared_after.
      - done.
      - destruct Hok. split; try done; simpl; try lia; rewrite state_set; done.
      - fold st. eapply limits_less; [apply (zi_lim _ Hi)|..]; destruct st; simpl; lia.
      - by exists n1, n'. }
    destruct Hm as (n1 & n' & Hn1 & Hn' & Hi' & Hm). exists n'. split.
    + destruct st; try done; simpl in Hn1 |- *.
      * injection Hn1 as ->. by rewrite Hn'.
      * apply bind_Some in Hn1 as (n2 & -> & H2). cbn [mbind option_bind]. rewrite H2. cbn [mbind option_bind]. by rewrite Hn'.
      * apply bind_Some in Hn1 as (n2 & -> & H2). cbn [mbind option_bind]. rewrite H2. cbn [mbind option_bind]. by rewrite Hn'.
      * rewrite Hn1. cbn [mbind option_bind]. by rewrite Hn'.
    + pose proof (moved_kept _ _ _ _ _ Hm) as Hk. destruct Hm as [_ _ _ _ (z' & E1 & E2 & E3 & E4 & E5 & E6)].
      split; [done|done| |].
      * exists z'. rewrite E6, decide_True by done. rewrite (proj2 (Z.eqb_eq _ _)) by done. done.
      * intros j Hj. by rewrite E6, decide_False.
  - cbn [mbind option_bind]. eexists. split; [done|].
    destruct (set_pointers n i z (with_dwp z p) Hi Hz) as (Hi' & Hk & _); [done| |].
    + destruct Hok. split; try done; simpl; try lia; change (zns_get_zone_state (with_dwp z p)) with st.
      * intros Es. specialize (He Es). lia.
      * intros Es. by rewrite Es in Hw.
    + split; [done|done| |].
      * exists (with_dwp z p). rewrite zone_at_set, decide_True by eauto.
        rewrite (proj2 (Z.eqb_neq _ _)) by done. done.
      * intros j Hj. by rewrite zone_at_set, decide_False by eauto.
Qed.
