(* ===== verification/ZnsIo.v ===== *)
(** * Reads, writes and appends of the zoned-namespace controller

    A write or an append that passes the checks stores its blocks at the write
    pointer of its zone and moves the pointer on; one that fails changes no
    block.  A read changes nothing and returns the blocks of the backend. *)

From S2P Require Import Prelude Zns ZnsInv.

Implicit Types (n : FemuCtrl) (i j : nat) (z : NvmeZone) (st : NvmeZoneState) (req : NvmeRequest) (e : env).

(** ** The backend *)

Lemma in_blocks off len l :
  0 ≤ off → off + len ≤ Z.of_nat (length l) →
  (0 <=? off) && (off + len <=? Z.of_nat (length (l : list Z))) = true.
Proof. intros. apply andb_true_intro. split; by apply Z.leb_le. Qed.

Lemma write_blocks_ok l off b :
  0 ≤ off → off + Z.of_nat (length b) ≤ Z.of_nat (length l) →
  ∃ l', write_blocks l off b = Some l' ∧ length l' = length l
    ∧ read_blocks l' off (Z.of_nat (length b)) = Some b
    ∧ ∀ k, 0 ≤ k → ¬ off ≤ k < off + Z.of_nat (length b) → rd l' k = rd l k.
Proof.
  intros H0 H1. unfold write_blocks, read_blocks. rewrite ensure_bind by (by apply in_blocks).
  eexists. split; [done|].
  assert (Hlen : length (take (Z.to_nat off) l ++ b ++ drop (Z.to_nat off + length b) l) = length l)
    by (rewrite !length_app, length_take, length_drop; lia).
  split; [done|]. rewrite ensure_bind by (apply in_blocks; [done|by rewrite Hlen]). split.
  - f_equal. rewrite drop_app_length' by (rewrite length_take; lia). rewrite Nat2Z.id. by rewrite take_app_length.
  - intros k Hk Hout. unfold rd. destruct (0 <=? k); [|done].
    destruct (decide (k < off)) as [Hlt|Hge].
    + rewrite lookup_app_l by (rewrite length_take; lia). apply lookup_take_lt. lia.
    + rewrite lookup_app_r by (rewrite length_take; lia). rewrite length_take.
      rewrite lookup_app_r by lia. rewrite lookup_drop. f_equal. lia.
Qed.

Lemma zinv_mbe n b : zinv n → length b = length (mbe n) → zinv (n <| mbe := b |>).
Proof.
  intros [H1 H2 H3 H4 H5 H6 H7 H8] Hb. split; try done.
  - eapply zcfg_static; [exact H1|done].
  - intros i z Hz. apply (zone_ok_static n); [done|]. by apply H3.
  - simpl. rewrite Hb. exact H7.
Qed.

Lemma l2b_block n lba :
  zcfg n → 0 ≤ lba ≤ nsze (ns n) → Z.shiftr (zns_l2b n lba) (lbads (ns n)) = lba.
Proof.
  intros [] Hl. unfold zns_l2b. rewrite Z.shiftl_mul_pow2 by lia.
  assert (0 < 2 ^ lbads (ns n)) by (apply Z.pow_pos_nonneg; lia).
  rewrite u64_small by nia. rewrite Z.shiftr_div_pow2 by lia. apply Z.div_mul. lia.
Qed.

Lemma guest_blocks_length e nlb : 0 ≤ nlb → Z.of_nat (length (guest_blocks e nlb)) = nlb.
Proof. intros H. unfold guest_blocks. rewrite length_fmap, length_seq. lia. Qed.

Lemma rw_nlb_range (c : NvmeCmd) : 1 ≤ rw_nlb c ≤ 2 ^ 16.
Proof. unfold rw_nlb, u16. pose proof (Z.mod_pos_bound (cdw12 c) (2 ^ 16)). lia. Qed.

Lemma dnr_nz s : nz (Z.lor s NVME_DNR) = true.
Proof. destruct (nz_spec (Z.lor s NVME_DNR)) as [|H]; [done|]. exfalso. apply H. intros [_ ?]%Z.lor_eq_0_iff. done. Qed.

(** ** Writing *)

(** The end of [zns_write] and of [zns_do_write], after the checks. *)
Definition write_tail n req e i (slba nlb : Z) : option io_result :=
  '(n, wp) ← zns_advance_zone_wp n i nlb;
  let req := req <| res_slba := wp |> in
  let data_offset := zns_l2b n slba in
  let status := zns_map_dptr req e in
  if nz status then Some (n, req, Z.lor status NVME_DNR, [])
  else
    '(n, out) ← backend_rw n req e data_offset nlb;
    '(n, req) ← zns_finalize_zoned_write n req false;
    Some (n, req, NVME_SUCCESS, out).

(** Zone [i] after a write of [nlb] blocks; [done] when the data arrived. *)
Record wrote n n' i z (nlb : Z) (done : bool) : Prop := {
  wt_inv : zinv n';
  wt_static : static n' = static n;
  wt_ext : zd_extensions n' = zd_extensions n;
  wt_zone : ∃ z', zone_at n' i = Some z' ∧ w_ptr z' = w_ptr z + nlb
    ∧ d_wp (d z') = d_wp (d z) + (if done then nlb else 0)
    ∧ zslba (d z') = zslba (d z) ∧ zcap (d z') = zcap (d z)
    ∧ zns_get_zone_state z' =
        (if d_wp (d z') =? zslba (d z) + zcap (d z) then FULL
         else if w_ptr z' <? zslba (d z) + zcap (d z) then state_opened (zns_get_zone_state z)
         else zns_get_zone_state z);
  wt_others : ∀ j, j ≠ i → zone_at n' j = zone_at n j
}.

Lemma backend_rw_ok n req e slba nlb :
  zinv n → 0 ≤ slba → 1 ≤ nlb → slba + nlb ≤ nsze (ns n) →
  ∃ b out, backend_rw n req e (zns_l2b n slba) nlb = Some (n <| mbe := b |>, out)
    ∧ length b = length (mbe n)
    ∧ if is_write req
      then write_blocks (mbe n) slba (guest_blocks e nlb) = Some b ∧ out = []
      else b = mbe n ∧ read_blocks (mbe n) slba nlb = Some out.
Proof.
  intros Hi H0 H1 H2. pose proof (zi_cfg _ Hi) as Hc. pose proof (zi_mbe _ Hi) as Hm.
  assert (Hle : slba + nlb ≤ Z.of_nat (length (mbe n))) by (destruct Hc; lia).
  unfold backend_rw. rewrite l2b_block by (done || lia). destruct (is_write req).
  - destruct (write_blocks_ok (mbe n) slba (guest_blocks e nlb)) as (b & -> & Hb & _);
      [lia|rewrite guest_blocks_length; lia|].
    cbn. by exists b, [].
  - unfold read_blocks. rewrite ensure_bind by (by apply in_blocks). cbn [mbind option_bind].
    exists (mbe n). eexists. split; [by destruct n|]. done.
Qed.

Lemma zone_by_slba_static n n' slba :
  static n' = static n → zns_get_zone_by_slba n' slba = zns_get_zone_by_slba n slba.
Proof. intros E. exact (f_equal (λ m, zns_get_zone_by_slba m slba) E). Qed.

Lemma l2b_static n n' lba : static n' = static n → zns_l2b n' lba = zns_l2b n lba.
Proof. intros E. exact (f_equal (λ m, zns_l2b m lba) E). Qed.

(** The state before [zns_finalize_zoned_write] allows it to run. *)
Lemma advanced_final n i z nlb z' (st := zns_get_zone_state z) :
  zone_ok n i z → writable st = true → 1 ≤ nlb → w_ptr z + nlb ≤ zslba (d z) + zcap (d z) →
  zns_get_zone_state z' = (if w_ptr z + nlb <? zslba (d z) + zcap (d z) then state_opened st else st) →
  writable (zns_get_zone_state z') = true
  ∧ (zns_get_zone_state z' = EMPTY → d_wp (d z) + nlb = zslba (d z) + zcap (d z)).
Proof.
  intros Hok Hw Hn Hle ->. destruct (Z.ltb_spec (w_ptr z + nlb) (zslba (d z) + zcap (d z))).
  - split; [by destruct st|]. by destruct st.
  - split; [done|]. intros E. destruct (zo_empty _ _ _ Hok E) as [-> [Hwp|Hwp]]; lia.
Qed.

Lemma write_tail_ok n req e i z (nlb := rw_nlb (rcmd req)) (st := zns_get_zone_state z) :
  zinv n → zns_get_zone_by_slba n (rw_slba (rcmd req)) = Some i → zone_at n i = Some z →
  writable st = true → w_ptr z + nlb ≤ zslba (d z) + zcap (d z) → room n st →
  ∃ n' s out, write_tail n req e i (w_ptr z) nlb = Some (n', req <| res_slba := w_ptr z |>, s, out)
    ∧ if nz (zns_map_dptr req e)
      then s = Z.lor (zns_map_dptr req e) NVME_DNR ∧ mbe n' = mbe n ∧ wrote n n' i z nlb false
      else s = NVME_SUCCESS ∧ wrote n n' i z nlb true
        ∧ if is_write req
          then write_blocks (mbe n) (w_ptr z) (guest_blocks e nlb) = Some (mbe n') ∧ out = []
          else mbe n' = mbe n ∧ read_blocks (mbe n) (w_ptr z) nlb = Some out.
Proof.
  intros Hi Hidx Hz Hw Hle Hroom. pose proof (rw_nlb_range (rcmd req)) as Hn. fold nlb in Hn.
  pose proof (zone_range n Hi i z Hz) as Hr. pose proof (zi_zone _ Hi i z Hz) as Hok.
  pose proof (zi_cfg _ Hi) as Hcfg.
  assert (Hcap : zcap (d z) ≤ zone_size n) by (destruct Hok, Hcfg; lia).
  unfold write_tail. destruct (zone_advance_ok n i z nlb Hi Hz Hw) as (n1 & -> & [Hi1 Hk1 Hz1 Ho1]); [lia|done|done|].
  destruct Hz1 as (z1 & Hz1 & W1 & D1 & S1 & C1 & T1). destruct Hk1 as (E1 & M1 & X1).
  cbn [mbind option_bind]. change (zns_map_dptr (req <| res_slba := w_ptr z |>) e) with (zns_map_dptr req e).
  destruct (advanced_final n i z nlb z1 Hok Hw) as [Hw1 He1]; [lia|done|done|].
  destruct (nz (zns_map_dptr req e)).
  - eexists _, _, _. split; [done|]. split; [done|]. split; [done|]. split; try done.
    exists z1. rewrite D1, W1, Z.add_0_r. split_and!; try done. rewrite T1.
    destruct (Z.eqb_spec (d_wp (d z)) (zslba (d z) + zcap (d z))) as [Ed|]; [|done].
    destruct Hok. lia.
  - set (req' := req <| res_slba := w_ptr z |>).
    destruct (backend_rw_ok n1 req' e (w_ptr z) nlb Hi1) as (b & out & -> & Hb & Hrw).
    { destruct Hok. lia. } { lia. } { assert (nsze (ns n1) = nsze (ns n)) as -> by (exact (f_equal (λ m, nsze (ns m)) E1)). lia. }
    cbn [mbind option_bind]. set (n2 := n1 <| mbe := b |>).
    destruct (finalize_ok n2 req' i z1) as (n3 & -> & [Hi3 (E3 & M3 & X3) Hz3 Ho3]).
    { by apply zinv_mbe. }
    { rewrite <- Hidx. apply zone_by_slba_static. exact E1. }
    { exact Hz1. }
    { done. }
    { rewrite D1, W1. change (rw_nlb (rcmd req')) with nlb. destruct Hok. lia. }
    { rewrite D1, S1, C1. exact He1. }
    cbn [mbind option_bind]. eexists n3, _, _. split; [done|]. split; [done|].
    change (mbe n2) with b in M3. change (rw_nlb (rcmd req')) with nlb in Hz3. split.
    + destruct Hz3 as (z3 & Hz3 & W3 & D3 & S3 & C3 & T3). split; [done|rewrite E3; exact E1|rewrite X3; exact X1| |].
      * exists z3. rewrite D3, W3, D1, W1. rewrite D1, S1, C1, T1 in T3. split_and!; try congruence.
      * intros j Hj. rewrite Ho3 by done. change (zone_at n2 j) with (zone_at n1 j). by apply Ho1.
    + rewrite M3, <- M1. change (is_write req') with (is_write req) in Hrw. exact Hrw.
Qed.

(** The dwords of a command are 32-bit values. *)
Record cmd_ok (c : NvmeCmd) : Prop := {
  co_10 : 0 ≤ cdw10 c < 2 ^ 32;
  co_11 : 0 ≤ cdw11 c < 2 ^ 32;
  co_12 : 0 ≤ cdw12 c < 2 ^ 32;
  co_13 : 0 ≤ cdw13 c < 2 ^ 32
}.

Lemma slba_nonneg (c : NvmeCmd) : cmd_ok c → 0 ≤ rw_slba c.
Proof. intros []. apply Z.lor_nonneg. split; [apply Z.shiftl_nonneg|]; lia. Qed.

Lemma check_bounds_ok n slba nlb :
  zinv n → 0 ≤ slba → 1 ≤ nlb ≤ 2 ^ 16 →
  nz (zns_check_bounds n slba nlb) = negb (slba + nlb <=? nsze (ns n)).
Proof.
  intros Hi H0 H1. pose proof (zi_cfg _ Hi) as []. unfold zns_check_bounds.
  assert (0 < 2 ^ lbads (ns n)) by (apply Z.pow_pos_nonneg; lia).
  assert (0 ≤ nsze (ns n)) by nia. assert (nsze (ns n) + 2 ^ 16 < 2 ^ 64) by nia.
  destruct (Z.leb_spec (slba + nlb) (nsze (ns n))) as [Hle|Hgt].
  - rewrite (proj2 (Z.ltb_ge _ _)), (proj2 (Z.ltb_ge _ _)) by lia. done.
  - rewrite (proj2 (Z.ltb_lt (nsze (ns n)) _)) by lia. by rewrite orb_true_r.
Qed.

(** What the checks of a write let pass. *)
Lemma check_zone_write_ok n i z slba nlb append :
  zinv n → zone_at n i = Some z → 0 ≤ slba → 1 ≤ nlb → slba + nlb ≤ nsze (ns n) →
  ∃ s, zns_check_zone_write n z slba nlb append = Some s
    ∧ (s = NVME_SUCCESS → writable (zns_get_zone_state z) = true ∧ slba + nlb ≤ zslba (d z) + zcap (d z)
       ∧ if append then slba = zslba (d z) else slba = w_ptr z)
    ∧ (append = false → writable (zns_get_zone_state z) = true → slba = w_ptr z →
       slba + nlb ≤ zslba (d z) + zcap (d z) → s = NVME_SUCCESS).
Proof.
  intros Hi Hz H0 H1 H2. pose proof (zone_range n Hi i z Hz) as Hr.
  unfold zns_check_zone_write. rewrite (wr_boundary_eq n Hi i z Hz), u64_small by lia.
  destruct (Z.ltb_spec (zslba (d z) + zcap (d z)) (slba + nlb)) as [Hlt|Hge].
  { eexists. split; [done|]. split; [done|]. intros; lia. }
  pose proof (zo_state _ _ _ (zi_zone _ Hi i z Hz)) as Hst.
  unfold zns_check_zone_state_for_write, zns_wp_is_valid.
  destruct (zns_get_zone_state z) eqn:Est; try done; cbn -[Z.ltb Z.eqb Z.shiftl];
    try (eexists; split; [done|]; split; [done|intros; done]);
    (eexists; split; [done|]; split;
     [destruct append; [destruct (Z.eqb_spec slba (zslba (d z))); destruct (_ <? _); done|
                        destruct (Z.eqb_spec slba (w_ptr z)); done]
     |intros -> _ -> _; by rewrite Z.eqb_refl]).
Qed.

(** A successful write to zone [i]: inside it, with the data at its pointer when
    the request is marked as a write. *)
Record accepted n n' req e i z (w : bool) : Prop := {
  ac_zone : zone_at n i = Some z;
  ac_fits : w_ptr z + rw_nlb (rcmd req) ≤ zslba (d z) + zcap (d z);
  ac_data : if w then write_blocks (mbe n) (w_ptr z) (guest_blocks e (rw_nlb (rcmd req))) = Some (mbe n')
            else mbe n' = mbe n;
  ac_after : ∃ n1, same_ptrs n n1 ∧ zone_at n1 i = Some z ∧ wrote n1 n' i z (rw_nlb (rcmd req)) true
}.

(** A write that fails changes no block, and no pointer unless it fails at the
    mapping of its data. *)
Definition rejected n n' req e (s : Z) : Prop :=
  nz s = true ∧ mbe n' = mbe n ∧ (nz (zns_map_dptr req e) = false → same_ptrs n n').

(** What a write leaves behind, whatever its status. *)
Definition write_outcome n req e (r : io_result) : Prop :=
  let '(n', _, s, _) := r in
  zinv n' ∧ static n' = static n
  ∧ (s = NVME_SUCCESS ∧ (∃ i z, rw_slba (rcmd req) = w_ptr z ∧ accepted n n' req e i z true)
     ∨ rejected n n' req e s).

Lemma rejected_kept n n1 req e s : kept n n1 → same_ptrs n n1 → rejected n n1 req e (Z.lor s NVME_DNR).
Proof. intros (E & M & _) Hp. split; [apply dnr_nz|]. by split. Qed.

Lemma write_rejected n n1 req req1 e s out :
  zinv n1 → kept n n1 → same_ptrs n n1 → write_outcome n req e (n1, req1, Z.lor s NVME_DNR, out).
Proof. intros Hi (E & M & X) Hp. split; [done|]. split; [done|]. right. by apply rejected_kept. Qed.

Lemma zns_write_ok n req e :
  zinv n → cmd_ok (rcmd req) → ∃ r, zns_write n req e = Some r ∧ write_outcome n req e r.
Proof.
  intros Hi Hcmd. unfold zns_write. set (slba := rw_slba (rcmd req)). set (nlb := rw_nlb (rcmd req)).
  pose proof (slba_nonneg _ Hcmd) as H0. fold slba in H0.
  pose proof (rw_nlb_range (rcmd req)) as Hn. fold nlb in Hn.
  rewrite ensure_bind by apply (zi_cfg _ Hi). set (req1 := req <| is_write := true |>).
  destruct (nz (nvme_check_mdts n (zns_l2b n nlb))); [by eexists; split; [done|apply write_rejected; auto using zkept_refl, same_ptrs_refl]|].
  rewrite (check_bounds_ok n slba nlb Hi H0 Hn).
  destruct (Z.leb_spec (slba + nlb) (nsze (ns n))) as [Hb|Hb]; cbn [negb];
    [|by eexists; split; [done|apply write_rejected; auto using zkept_refl, same_ptrs_refl]].
  destruct (zone_by_slba n Hi slba) as (i & z & Hidx & Hzi & _ & Hin); [lia|].
  rewrite Hidx. cbn [mbind option_bind]. rewrite Hzi. cbn [mbind option_bind].
  destruct (check_zone_write_ok n i z slba nlb false Hi Hzi) as (s & -> & Hs & _); [lia..|].
  cbn [mbind option_bind]. destruct (nz_spec s) as [Hnz|Hnz]; [by eexists; split; [done|apply write_rejected; auto using zkept_refl, same_ptrs_refl]|].
  destruct Hs as (Hw & Hle & Hptr); [unfold NVME_SUCCESS; lia|].
  destruct (auto_open_ok n i z Hi Hzi) as (n1 & s1 & -> & [Hi1 Hk1 Hz1 _ Hp1 Hst1 _ _ _]).
  cbn [mbind option_bind]. destruct Hst1 as [[-> Hroom]|[Hnz1 _]].
  2: { rewrite Hnz1. by eexists; split; [done|apply write_rejected]. }
  change (nz NVME_SUCCESS) with false. cbn iota. destruct Hk1 as (E1 & M1 & X1).
  destruct (write_tail_ok n1 req1 e i z Hi1) as (n' & s' & out & Ht & Hres); try done.
  { rewrite <- Hidx. by apply zone_by_slba_static. }
  { change (rw_nlb (rcmd req1)) with nlb. lia. }
  eexists. split; [rewrite Hptr; exact Ht|].
  change (zns_map_dptr req1 e) with (zns_map_dptr req e) in Hres. destruct (nz (zns_map_dptr req e)) eqn:Em.
  - destruct Hres as (-> & Hm & [Hi' Es Ex _ _]). split; [done|]. split; [congruence|]. right.
    split; [apply dnr_nz|]. split; [congruence|by rewrite Em].
  - destruct Hres as (-> & Hwr & Hm & _). pose proof Hwr as [Hi' Es _ _ _].
    split; [done|]. split; [congruence|]. left. split; [done|]. exists i, z.
    split; [done|]. split; [done|fold nlb; lia|rewrite <- M1; exact Hm|by exists n1].
Qed.

(** ** Appending *)

(** The append stays inside its zone, which the code does not check. *)
Definition append_fits n req : Prop :=
  ∀ i z, zns_get_zone_by_slba n (rw_slba (rcmd req)) = Some i → zone_at n i = Some z →
    w_ptr z + rw_nlb (rcmd req) ≤ zslba (d z) + zcap (d z).

Definition append_outcome n req e (r : io_result) : Prop :=
  let '(n', req', s, out) := r in
  zinv n' ∧ static n' = static n
  ∧ (s = NVME_SUCCESS ∧ (∃ i z, rw_slba (rcmd req) = zslba (d z) ∧ res_slba req' = w_ptr z
                            ∧ accepted n n' req e i z (is_write req))
     ∨ rejected n n' req e s).

Lemma append_rejected n n1 req req1 e s out :
  zinv n1 → kept n n1 → same_ptrs n n1 → append_outcome n req e (n1, req1, Z.lor s NVME_DNR, out).
Proof. intros Hi (E & M & X) Hp. split; [done|]. split; [done|]. right. by apply rejected_kept. Qed.

Lemma zns_append_ok n req e :
  zinv n → cmd_ok (rcmd req) → append_fits n req →
  ∃ r, zns_zone_append n req e = Some r ∧ append_outcome n req e r.
Proof.
  intros Hi Hcmd Hfits. unfold zns_zone_append, zns_do_write.
  set (slba := rw_slba (rcmd req)) in *. set (nlb := rw_nlb (rcmd req)) in *.
  pose proof (slba_nonneg _ Hcmd) as H0. fold slba in H0.
  pose proof (rw_nlb_range (rcmd req)) as Hn. fold nlb in Hn. cbn [negb andb].
  destruct (nz (nvme_check_mdts n (zns_l2b n nlb))); [by eexists; split; [done|apply append_rejected; auto using zkept_refl, same_ptrs_refl]|].
  rewrite (check_bounds_ok n slba nlb Hi H0 Hn).
  destruct (Z.leb_spec (slba + nlb) (nsze (ns n))) as [Hb|Hb]; cbn [negb];
    [|by eexists; split; [done|apply append_rejected; auto using zkept_refl, same_ptrs_refl]].
  destruct (zone_by_slba n Hi slba) as (i & z & Hidx & Hzi & _ & Hin); [lia|].
  rewrite Hidx. cbn [mbind option_bind]. rewrite Hzi. cbn [mbind option_bind].
  destruct (check_zone_write_ok n i z slba nlb true Hi Hzi) as (s & -> & Hs & _); [lia..|].
  cbn [mbind option_bind]. destruct (nz_spec s) as [Hnz|Hnz]; [by eexists; split; [done|apply append_rejected; auto using zkept_refl, same_ptrs_refl]|].
  destruct Hs as (Hw & Hle & Hptr); [unfold NVME_SUCCESS; lia|].
  destruct (auto_open_ok n i z Hi Hzi) as (n1 & s1 & -> & [Hi1 Hk1 Hz1 _ Hp1 Hst1 _ _ _]).
  cbn [mbind option_bind]. destruct Hst1 as [[-> Hroom]|[Hnz1 _]].
  2: { rewrite Hnz1. by eexists; split; [done|apply append_rejected]. }
  change (nz NVME_SUCCESS) with false. cbn iota. destruct Hk1 as (E1 & M1 & X1).
  rewrite Hz1. cbn [mbind option_bind].
  destruct (write_tail_ok n1 req e i z Hi1) as (n' & s' & out & Ht & Hres); try done.
  { rewrite <- Hidx. by apply zone_by_slba_static. }
  { by apply (Hfits i z). }
  eexists. split; [exact Ht|]. destruct (nz (zns_map_dptr req e)) eqn:Em.
  - destruct Hres as (-> & Hm & [Hi' Es Ex _ _]). split; [done|]. split; [congruence|]. right.
    split; [apply dnr_nz|]. split; [congruence|by rewrite Em].
  - destruct Hres as (-> & Hwr & Hm). pose proof Hwr as [Hi' Es _ _ _].
    split; [done|]. split; [congruence|]. left. split; [done|]. exists i, z. split_and!; try done.
    split; [done|by apply (Hfits i z)|rewrite <- M1; destruct (is_write req); apply Hm|by exists n1].
Qed.

(** ** Reading *)

Lemma check_read_loop_ok n end_ : zinv n → end_ ≤ nsze (ns n) → ∀ fuel i,
  (length (zone_array n) - i < fuel)%nat → Z.of_nat i * zone_size n < end_ →
  ∃ s, check_read_loop fuel n i end_ = Some s.
Proof.
  intros Hi He. pose proof (zi_cfg _ Hi) as [].
  induction fuel as [|fuel IH]; intros i Hf Hlt; [lia|]. cbn [check_read_loop].
  assert (Hin : (i < length (zone_array n))%nat).
  { pose proof (zi_len _ Hi). rewrite zc_nsze in He. nia. }
  destruct (lookup_lt_is_Some_2 _ _ Hin) as [z Hz]. fold (zone_at n i) in Hz. rewrite Hz. cbn [mbind option_bind].
  pose proof (zi_zone _ Hi i z Hz) as Hok. unfold zns_check_zone_state_for_read.
  destruct (zns_get_zone_state z) eqn:Est; try (by destruct (zo_state _ _ _ Hok));
    cbn [mbind option_bind]; try (by eexists);
    change (nz NVME_SUCCESS) with false; cbn iota;
    (destruct (Z.ltb_spec (zns_zone_rd_boundary n z) end_) as [Hl|]; [|by eexists]);
    rewrite (rd_boundary_eq n Hi i z Hz), (zo_slba _ _ _ Hok) in Hl; apply IH; lia.
Qed.

Lemma check_zone_read_ok n slba nlb :
  zinv n → 0 ≤ slba → 1 ≤ nlb → slba + nlb ≤ nsze (ns n) → ∃ s, zns_check_zone_read n slba nlb = Some s.
Proof.
  intros Hi H0 H1 H2. destruct (zone_by_slba n Hi slba) as (i & z & Hidx & Hz & _ & Hin); [lia|].
  pose proof (zone_range n Hi i z Hz) as Hr. pose proof (zi_zone _ Hi i z Hz) as Hok.
  unfold zns_check_zone_read. rewrite Hidx. cbn [mbind option_bind]. rewrite Hz. cbn [mbind option_bind].
  rewrite u64_small by lia. rewrite (rd_boundary_eq n Hi i z Hz). unfold zns_check_zone_state_for_read.
  assert (Hloop : zslba (d z) + zone_size n < slba + nlb →
    ∃ s, check_read_loop (length (zone_array n)) n (S i) (slba + nlb) = Some s).
  { intros Hl. apply check_read_loop_ok; [done|lia| |].
    - apply lookup_lt_Some in Hz. lia.
    - rewrite (zo_slba _ _ _ Hok) in Hl. lia. }
  destruct (zns_get_zone_state z) eqn:Est; try (by destruct (zo_state _ _ _ Hok));
    cbn [mbind option_bind]; try (by eexists);
    change (nz NVME_SUCCESS) with false; cbn iota;
    (destruct (Z.ltb_spec (zslba (d z) + zone_size n) (slba + nlb)); [|by eexists]);
    (destruct (cross_zone_read n); [by apply Hloop|by eexists]).
Qed.

(** A read changes nothing and returns the blocks of the backend. *)
Definition read_outcome n req (r : io_result) : Prop :=
  let '(n', _, s, out) := r in
  n' = n ∧ (s = NVME_SUCCESS ∧ read_blocks (mbe n) (rw_slba (rcmd req)) (rw_nlb (rcmd req)) = Some out
            ∨ nz s = true).

Lemma zns_read_ok n req e :
  zinv n → cmd_ok (rcmd req) → ∃ r, zns_read n req e = Some r ∧ read_outcome n req r.
Proof.
  intros Hi Hcmd. unfold zns_read. set (slba := rw_slba (rcmd req)). set (nlb := rw_nlb (rcmd req)).
  pose proof (slba_nonneg _ Hcmd) as H0. fold slba in H0.
  pose proof (rw_nlb_range (rcmd req)) as Hn. fold nlb in Hn.
  rewrite ensure_bind by apply (zi_cfg _ Hi). set (req1 := req <| is_write := false |>).
  assert (Hrej : ∀ s, ∃ r, Some (n, req1, Z.lor s NVME_DNR, @nil Z) = Some r ∧ read_outcome n req r).
  { intros s. eexists. split; [done|]. split; [done|]. right. apply dnr_nz. }
  destruct (nz (nvme_check_mdts n (zns_l2b n nlb))); [apply Hrej|].
  rewrite (check_bounds_ok n slba nlb Hi H0 Hn).
  destruct (Z.leb_spec (slba + nlb) (nsze (ns n))) as [Hb|Hb]; cbn [negb]; [|apply Hrej].
  destruct (check_zone_read_ok n slba nlb Hi) as [s ->]; [lia..|]. cbn [mbind option_bind].
  destruct (nz s); [apply Hrej|]. destruct (nz (zns_map_dptr req1 e)); [apply Hrej|].
  destruct (backend_rw_ok n req1 e slba nlb Hi) as (b & out & -> & _ & Hrw); [lia..|].
  change (is_write req1) with false in Hrw. destruct Hrw as [-> Hrd]. cbn [mbind option_bind].
  eexists. split; [done|]. split; [by destruct n|]. by left.
Qed.

(** ** Commands that must succeed *)

Lemma room_after n n' i z st s : opened n n' i z st s → room n st → s = NVME_SUCCESS ∧ room n' st.
Proof.
  intros [_ (Es & _) _ _ _ Hst Ha Ho _] Hr. assert (Hr' : room n' st).
  { destruct st; simpl in *; try done; apply (limits_static n); try done; (eapply limits_less; [exact Hr|lia|lia]). }
  by destruct Hst as [?|[_ ?]].
Qed.

Lemma zone_of_ptr n i z slba :
  zinv n → zone_at n i = Some z → zslba (d z) ≤ slba < zslba (d z) + zone_size n →
  zns_get_zone_by_slba n slba = Some i.
Proof.
  intros Hi Hz Hin. pose proof (zone_range n Hi i z Hz) as Hr.
  destruct (zone_by_slba n Hi slba) as (j & y & Hj & Hy & _ & Hin'); [lia|]. rewrite Hj. f_equal.
  rewrite (zo_slba _ _ _ (zi_zone _ Hi i z Hz)) in Hin. rewrite (zo_slba _ _ _ (zi_zone _ Hi j y Hy)) in Hin'.
  pose proof (zc_zsize _ (zi_cfg _ Hi)). assert (Z.of_nat j = Z.of_nat i) by nia. lia.
Qed.

Lemma zns_write_succeeds n req e i z (nlb := rw_nlb (rcmd req)) :
  zinv n → cmd_ok (rcmd req) → nz (nvme_check_mdts n (zns_l2b n nlb)) = false →
  zone_at n i = Some z → writable (zns_get_zone_state z) = true → room n (zns_get_zone_state z) →
  rw_slba (rcmd req) = w_ptr z → w_ptr z + nlb ≤ zslba (d z) + zcap (d z) →
  nz (zns_map_dptr req e) = false →
  ∃ n' req', zns_write n req e = Some (n', req', NVME_SUCCESS, [])
    ∧ write_blocks (mbe n) (w_ptr z) (guest_blocks e nlb) = Some (mbe n').
Proof.
  intros Hi Hcmd Hmd Hz Hw Hroom Hs Hle Hmap. pose proof (rw_nlb_range (rcmd req)) as Hn. fold nlb in Hn.
  pose proof (zone_range n Hi i z Hz) as Hr. pose proof (zi_zone _ Hi i z Hz) as Hok.
  assert (Hcap : zcap (d z) ≤ zone_size n) by (destruct Hok, (zi_cfg _ Hi); lia).
  assert (Hp : zslba (d z) ≤ w_ptr z) by (destruct Hok; lia).
  assert (Hidx : zns_get_zone_by_slba n (w_ptr z) = Some i) by (apply (zone_of_ptr n i z); [done..|lia]).
  unfold zns_write. rewrite ensure_bind by apply (zi_cfg _ Hi). fold nlb. rewrite Hmd, Hs.
  rewrite (check_bounds_ok n (w_ptr z) nlb Hi) by lia. rewrite (proj2 (Z.leb_le _ _)) by lia. cbn [negb].
  rewrite Hidx. cbn [mbind option_bind]. rewrite Hz. cbn [mbind option_bind].
  destruct (check_zone_write_ok n i z (w_ptr z) nlb false Hi Hz) as (s & -> & _ & Hs'); [lia..|].
  rewrite (Hs' eq_refl Hw eq_refl Hle). cbn [mbind option_bind]. change (nz NVME_SUCCESS) with false. cbn iota.
  destruct (auto_open_ok n i z Hi Hz) as (n1 & s1 & -> & Hop). cbn [mbind option_bind].
  destruct (room_after _ _ _ _ _ _ Hop Hroom) as [-> Hroom1]. pose proof Hop as [Hi1 (E1 & M1 & _) Hz1 _ _ _ _ _ _].
  change (nz NVME_SUCCESS) with false. cbn iota. set (req1 := req <| is_write := true |>).
  destruct (write_tail_ok n1 req1 e i z Hi1) as (n' & s' & out & Ht & Hres); try done.
  { change (rw_slba (rcmd req1)) with (rw_slba (rcmd req)). rewrite Hs, <- Hidx. by apply zone_by_slba_static. }
  change (zns_map_dptr req1 e) with (zns_map_dptr req e) in Hres. rewrite Hmap in Hres.
  destruct Hres as (-> & _ & Hwr & ->). eexists n', _. split; [exact Ht|]. by rewrite <- M1.
Qed.

Lemma zns_read_succeeds n req e i z (nlb := rw_nlb (rcmd req)) (slba := rw_slba (rcmd req)) :
  zinv n → nz (nvme_check_mdts n (zns_l2b n nlb)) = false →
  zone_at n i = Some z → zns_get_zone_state z ≠ OFFLINE →
  zslba (d z) ≤ slba → slba + nlb ≤ zslba (d z) + zone_size n → nz (zns_map_dptr req e) = false →
  ∃ req' out, zns_read n req e = Some (n, req', NVME_SUCCESS, out) ∧ read_blocks (mbe n) slba nlb = Some out.
Proof.
  intros Hi Hmd Hz Hst Hs Hle Hmap. pose proof (rw_nlb_range (rcmd req)) as Hn. fold nlb in Hn.
  pose proof (zone_range n Hi i z Hz) as Hr.
  assert (Hidx : zns_get_zone_by_slba n slba = Some i) by (apply (zone_of_ptr n i z); [done..|lia]).
  unfold zns_read. rewrite ensure_bind by apply (zi_cfg _ Hi). fold nlb slba. rewrite Hmd.
  rewrite (check_bounds_ok n slba nlb Hi) by lia. rewrite (proj2 (Z.leb_le _ _)) by lia. cbn [negb].
  assert (Hck : zns_check_zone_read n slba nlb = Some NVME_SUCCESS).
  { unfold zns_check_zone_read. rewrite Hidx. cbn [mbind option_bind]. rewrite Hz. cbn [mbind option_bind].
    rewrite (rd_boundary_eq n Hi i z Hz), u64_small by lia. unfold zns_check_zone_state_for_read.
    pose proof (zo_state _ _ _ (zi_zone _ Hi i z Hz)).
    destruct (zns_get_zone_state z); try done; cbn [mbind option_bind]; change (nz NVME_SUCCESS) with false; cbn iota;
      (destruct (Z.ltb_spec (zslba (d z) + zone_size n) (slba + nlb)); [lia|done]). }
  rewrite Hck. cbn [mbind option_bind]. change (nz NVME_SUCCESS) with false. cbn iota.
  set (req1 := req <| is_write := false |>). change (zns_map_dptr req1 e) with (zns_map_dptr req e). rewrite Hmap.
  destruct (backend_rw_ok n req1 e slba nlb Hi) as (b & out & -> & _ & Hrw); [lia..|].
  change (is_write req1) with false in Hrw. destruct Hrw as [-> Hrd]. cbn [mbind option_bind].
  exists req1, out. split; [|done]. by destruct n.
Qed.
