(* ===== verification/ZnsMgmt.v ===== *)
(** * Zone management, reports, set-up and shutdown of the zoned controller

    The handlers of zone management are run on one zone or on all zones of some
    states; both ways keep the invariant, and an action on all zones moves
    exactly the zones it is meant for.  A report lists the zones that match its
    filter.  [zns_init] establishes the invariant and the shutdown keeps it. *)

From S2P Require Import Prelude Zns ZnsInv ZnsIo.

Implicit Types (n : FemuCtrl) (i j : nat) (z : NvmeZone) (st : NvmeZoneState) (req : NvmeRequest) (e : env).
Implicit Types (op : op_handler_t) (l : list nat).

(** ** Handlers *)

(** The zone takes part in the state machine of a sequential-write zone. *)
Definition live z : bool := match zns_get_zone_state z with READ_ONLY | OFFLINE => false | _ => true end.

(** Nothing but states, queues and counters has changed. *)
Definition quiet n n' : Prop :=
  kept n n' ∧ ∀ j y, zone_at n j = Some y →
    ∃ y', zone_at n' j = Some y' ∧ w_ptr y' = w_ptr y ∧ d_wp (d y') = d_wp (d y) ∧ (live y = true → live y' = true).

#[global] Instance kept_preorder : PreOrder kept.
Proof. split; [exact zkept_refl|exact zkept_trans]. Qed.

#[global] Instance quiet_preorder : PreOrder quiet.
Proof.
  split.
  - intros n. split; [done|]. intros j y Hy. by exists y.
  - intros n1 n2 n3 [K1 H1] [K2 H2]. split; [by etransitivity|]. intros j y Hy.
    destruct (H1 j y Hy) as (y1 & Hy1 & ? & ? & ?). destruct (H2 j y1 Hy1) as (y2 & Hy2 & ? & ? & ?).
    exists y2. split_and!; [done|congruence|congruence|auto].
Qed.

Lemma quiet_kept n n' : quiet n n' → kept n n'.
Proof. by intros []. Qed.

Lemma moved_quiet n n' i z z1 st :
  zone_at n i = Some z → w_ptr z1 = w_ptr z → d_wp (d z1) = d_wp (d z) →
  match st with READ_ONLY | OFFLINE => live z = false | _ => True end →
  moved_to n n' i z1 st → quiet n n'.
Proof.
  intros Hz Hw Hd Hl Hm. split; [by eapply moved_kept|].
  destruct (mv_zone _ _ _ _ _ Hm) as (z' & F1 & F2 & F3 & _ & _ & Hat). intros j y Hy. rewrite Hat.
  case_decide as E; [|by exists y]. subst j. rewrite Hz in Hy. injection Hy as <-.
  exists z'. split_and!; [done|congruence..|].
  unfold live in *. destruct st; rewrite F1; congruence.
Qed.

(** What a handler of zone management promises: it runs, keeps the invariant and
    relates the controllers before and after by [R]. *)
Definition handler (R : FemuCtrl → FemuCtrl → Prop) op : Prop := ∀ n i z, zinv n → zone_at n i = Some z →
  ∃ n' s, op n i (zns_get_zone_state z) = Some (n', s) ∧ zinv n' ∧ R n n'.

Lemma open_handler : handler quiet zns_open_zone.
Proof.
  intros n i z Hi Hz. destruct (open_ok n i z Hi Hz) as (n' & s & E & Hi' & H). exists n', s.
  split; [done|]. split; [done|].
  assert (Hm : moved_to n n' i z EXPLICITLY_OPEN → quiet n n') by (by apply moved_quiet with z).
  destruct (zns_get_zone_state z); destruct_and?; destruct_or?; destruct_and?; subst; auto; reflexivity.
Qed.

Lemma close_handler : handler quiet zns_close_zone.
Proof.
  intros n i z Hi Hz. destruct (close_ok n i z Hi Hz) as (n' & s & E & Hi' & H). exists n', s.
  split; [done|]. split; [done|]. destruct (is_open _); destruct H as [H1 H2]; subst; [|reflexivity].
  by apply (moved_quiet n n' i z z CLOSED).
Qed.

Lemma offline_handler : handler quiet zns_offline_zone.
Proof.
  intros n i z Hi Hz. destruct (offline_ok n i z Hi Hz) as (n' & s & E & Hi' & H). exists n', s.
  split; [done|]. split; [done|]. case_decide as Ed; destruct H as [H1 H2]; subst; [|reflexivity].
  apply (moved_quiet n n' i z z OFFLINE); try done. unfold live. by rewrite Ed.
Qed.

Lemma finish_handler : handler kept zns_finish_zone.
Proof.
  intros n i z Hi Hz. destruct (finish_ok n i z Hi Hz) as (n' & s & E & Hi' & H). exists n', s.
  split; [done|]. split; [done|]. destruct (_ || _); destruct H; subst; eauto using moved_kept, zkept_refl.
Qed.

Lemma reset_handler : handler kept zns_reset_zone.
Proof.
  intros n i z Hi Hz. destruct (reset_ok n i z Hi Hz) as (n' & s & E & Hi' & H). exists n', s.
  split; [done|]. split; [done|]. destruct (_ || _); destruct H; subst; eauto using moved_kept, zkept_refl.
Qed.

(** ** Walks over queues *)

Lemma zone_exists n i : zinv n → Z.of_nat i < num_zones n → is_Some (zone_at n i).
Proof. intros Hi Hlt. apply lookup_lt_is_Some. pose proof (zi_len _ Hi). lia. Qed.

Lemma queue_lt n st i : zinv n → i ∈ qs n st → Z.of_nat i < num_zones n.
Proof.
  intros Hi [_ H]%(zi_q _ Hi). unfold state_of, zone_at in H.
  apply fmap_Some in H as (z & H & _). apply lookup_lt_Some in H. pose proof (zi_len _ Hi). lia.
Qed.

Lemma kept_num n n' : kept n n' → num_zones n' = num_zones n.
Proof. intros (E & _). exact (f_equal num_zones E). Qed.

(** The masks of the code name the read-only zones only alone. *)
Definition mask_ok (m : Z) : Prop :=
  has m NVME_PROC_READ_ONLY_ZONES = true →
  has m NVME_PROC_CLOSED_ZONES || has m NVME_PROC_OPENED_ZONES || has m NVME_PROC_FULL_ZONES = false.

Section walks.
Context (R : FemuCtrl → FemuCtrl → Prop) `{!PreOrder R} (HR : ∀ n n', R n n' → kept n n').
Context (op : op_handler_t) (m : Z) (Hop : handler R op).

Lemma bulk_proc_ok n i :
  zinv n → Z.of_nat i < num_zones n →
  ∃ n' s, zns_bulk_proc_zone n i m op = Some (n', s) ∧ zinv n' ∧ R n n'.
Proof using Hop PreOrder0.
  intros Hi [z Hz]%zone_exists; [|done]. unfold zns_bulk_proc_zone. rewrite Hz. cbn [mbind option_bind].
  destruct (match zns_get_zone_state z with IMPLICITLY_OPEN => _ | _ => _ end);
    [by apply Hop|exists n, NVME_SUCCESS; split_and!; auto; reflexivity].
Qed.

Lemma proc_zones_ok l : ∀ n s,
  zinv n → (∀ i, i ∈ l → Z.of_nat i < num_zones n) →
  ∃ n' s' b, proc_zones m op l n s = Some (n', s', b) ∧ zinv n' ∧ R n n'.
Proof using Hop PreOrder0 HR.
  induction l as [|i l IH]; intros n s Hi Hl; cbn [proc_zones].
  { exists n, s, false. split_and!; auto; reflexivity. }
  destruct (bulk_proc_ok n i Hi) as (n1 & s1 & -> & Hi1 & Hk1); [apply Hl; left|].
  cbn [mbind option_bind]. destruct (nz s1 && _); [by exists n1, s1, true|].
  destruct (IH n1 s1 Hi1) as (n' & s' & b & -> & Hi' & Hk').
  { intros j Hj. rewrite (kept_num n n1) by auto. apply Hl. by right. }
  exists n', s', b. split_and!; [done..|by etransitivity].
Qed.

Lemma proc_if_ok b q n n1 s out :
  zinv n1 → R n n1 → (∀ n i, zinv n → i ∈ q n → Z.of_nat i < num_zones n) →
  ∃ n' s' out', proc_if b m op q (n1, s, out) = Some (n', s', out') ∧ zinv n' ∧ R n n'.
Proof using Hop PreOrder0 HR.
  intros Hi Hk Hq. unfold proc_if. destruct (b && negb out); [|by exists n1, s, out].
  destruct (proc_zones_ok (q n1) n1 s Hi) as (n' & s' & b' & -> & Hi' & Hk'); [by auto|].
  exists n', s', b'. split_and!; [done..|by etransitivity].
Qed.

Lemma do_zone_op_ok n i :
  zinv n → Z.of_nat i < num_zones n → mask_ok m → m = 0 ∨ i = 0%nat →
  ∃ n' s, zns_do_zone_op n i m op = Some (n', s) ∧ zinv n' ∧ R n n'.
Proof using Hop PreOrder0 HR.
  intros Hi Hlt Hm Hz. unfold zns_do_zone_op. destruct (Z.eqb_spec m 0) as [Hm0|Hm0].
  { destruct (zone_exists n i Hi Hlt) as [z E]. rewrite E. by apply Hop. }
  destruct Hz as [Hz| ->]; [done|].
  set (c := has m NVME_PROC_CLOSED_ZONES) in *. set (o := has m NVME_PROC_OPENED_ZONES) in *.
  set (f := has m NVME_PROC_FULL_ZONES) in *.
  destruct (proc_if_ok c closed_zones n n NVME_SUCCESS false Hi ltac:(reflexivity))
    as (n1 & s1 & o1 & -> & Hi1 & Hk1); [intros ???; by apply (queue_lt _ CLOSED)|].
  cbn [mbind option_bind].
  destruct (proc_if_ok o imp_open_zones n n1 s1 o1 Hi1 Hk1)
    as (n2 & s2 & o2 & -> & Hi2 & Hk2); [intros ???; by apply (queue_lt _ IMPLICITLY_OPEN)|].
  cbn [mbind option_bind].
  destruct (proc_if_ok o exp_open_zones n n2 s2 o2 Hi2 Hk2)
    as (n3 & s3 & o3 & -> & Hi3 & Hk3); [intros ???; by apply (queue_lt _ EXPLICITLY_OPEN)|].
  cbn [mbind option_bind].
  destruct (proc_if_ok f full_zones n n3 s3 o3 Hi3 Hk3)
    as (n4 & s4 & o4 & -> & Hi4 & Hk4); [intros ???; by apply (queue_lt _ FULL)|].
  cbn [mbind option_bind]. unfold mask_ok in Hm. fold c o f in Hm.
  set (r := has m NVME_PROC_READ_ONLY_ZONES) in *.
  rewrite ensure_bind by (destruct r; [by rewrite Hm|done]).
  destruct (proc_if_ok r (λ n, seq 0 (Z.to_nat (num_zones n))) n n4 s4 o4 Hi4 Hk4)
    as (n5 & s5 & o5 & -> & Hi5 & Hk5).
  { intros x j Hx Hj%elem_of_seq. pose proof (zi_len _ Hx). lia. }
  cbn [mbind option_bind]. by exists n5, s5.
Qed.
End walks.

(** ** Actions on all zones *)

(** The states whose zones a mask names. *)
Definition visits (m : Z) st : bool :=
  match st with
  | IMPLICITLY_OPEN | EXPLICITLY_OPEN => has m NVME_PROC_OPENED_ZONES
  | CLOSED => has m NVME_PROC_CLOSED_ZONES
  | READ_ONLY => has m NVME_PROC_READ_ONLY_ZONES
  | FULL => has m NVME_PROC_FULL_ZONES
  | _ => false
  end.

(** Zone [z'] is [z] moved to [st] with the pointers of [f z]. *)
Definition became (f : NvmeZone → NvmeZone) st z z' : Prop :=
  zns_get_zone_state z' = st ∧ w_ptr z' = w_ptr (f z) ∧ d_wp (d z') = d_wp (d (f z)).

(** The zones in the states of [S] have been moved, the others are as they were. *)
Definition swept (R : NvmeZone → NvmeZone → Prop) (S : NvmeZoneState → bool) n n' : Prop :=
  ∀ j z, zone_at n j = Some z → ∃ z', zone_at n' j = Some z'
    ∧ if S (zns_get_zone_state z) then R z z' else z' = z.

Section sweep.
Context (op : op_handler_t) (m : Z) (f : NvmeZone → NvmeZone) (st' : NvmeZoneState).
Context (Hst' : visits m st' = false).
Context (Hop : ∀ n i z, zinv n → zone_at n i = Some z → visits m (zns_get_zone_state z) = true →
  ∃ n', op n i (zns_get_zone_state z) = Some (n', NVME_SUCCESS) ∧ zinv n' ∧ moved_to n n' i (f z) st').

Lemma proc_zones_sweep l n :
  zinv n → NoDup l → (∀ i, i ∈ l → ∃ z, zone_at n i = Some z ∧ visits m (zns_get_zone_state z) = true) →
  ∃ n', proc_zones m op l n NVME_SUCCESS = Some (n', NVME_SUCCESS, false) ∧ zinv n' ∧ kept n n'
    ∧ ∀ j z, zone_at n j = Some z → ∃ z', zone_at n' j = Some z'
        ∧ if bool_decide (j ∈ l) then became f st' z z' else z' = z.
Proof.
  revert n. induction l as [|i l IH]; intros n Hi Hnd Hl; cbn [proc_zones].
  { exists n. split_and!; auto using zkept_refl. intros j z Hz. exists z. split; [done|].
    by rewrite bool_decide_eq_false_2 by (by apply not_elem_of_nil). }
  apply NoDup_cons in Hnd as [Hil Hnd]. destruct (Hl i) as (z & Hz & Hv); [by left|].
  destruct (Hop n i z Hi Hz Hv) as (n1 & E1 & Hi1 & Hm1).
  pose proof (mv_zone _ _ _ _ _ Hm1) as (z1 & Hs1 & Hw1 & Hd1 & _ & _ & Hat).
  unfold zns_bulk_proc_zone. rewrite Hz. cbn [mbind option_bind]. fold (visits m (zns_get_zone_state z)).
  rewrite Hv, E1. cbn [mbind option_bind]. change (nz NVME_SUCCESS) with false. cbn [andb].
  destruct (IH n1 Hi1 Hnd) as (n' & -> & Hi' & Hk' & Hsw).
  { intros j Hj. rewrite Hat. rewrite decide_False by (by intros ->). apply Hl. by right. }
  exists n'. split_and!; eauto using zkept_trans, moved_kept.
  intros j y Hy. destruct (decide (j = i)) as [->|Hne].
  - simplify_eq. destruct (Hsw i z1) as (z' & Hz' & Hr); [by rewrite Hat, decide_True|].
    rewrite bool_decide_eq_false_2 in Hr by done. subst z'. exists z1. split; [done|].
    by rewrite bool_decide_eq_true_2 by left.
  - destruct (Hsw j y) as (z' & Hz' & Hr); [by rewrite Hat, decide_False|]. exists z'. split; [done|].
    rewrite (bool_decide_ext (j ∈ i :: l) (j ∈ l)); [done|]. rewrite elem_of_cons. naive_solver.
Qed.

(** One walk adds its state to those that are done. *)
Lemma walk_sweep b S st n n1 :
  zinv n1 → kept n n1 → swept (became f st') S n n1 → S st = false → queued st = true → visits m st = b →
  ∃ n', proc_if b m op (λ n, qs n st) (n1, NVME_SUCCESS, false) = Some (n', NVME_SUCCESS, false)
    ∧ zinv n' ∧ kept n n' ∧ swept (became f st') (λ x, S x || b && bool_decide (x = st)) n n'.
Proof.
  intros Hi Hk Hsw HS Hqd Hb. unfold proc_if. destruct b; cbn [andb negb].
  2: { exists n1. split_and!; try done. intros j z Hz. destruct (Hsw j z Hz) as (z' & ? & ?).
       exists z'. by rewrite orb_false_r. }
  destruct (zi_q _ Hi st) as [Hnd Hin].
  destruct (proc_zones_sweep (qs n1 st) n1 Hi Hnd) as (n' & -> & Hi' & Hk' & Hw).
  { intros i [_ (z & Hz & ->)%fmap_Some]%Hin. eauto. }
  exists n'. split_and!; eauto using zkept_trans. intros j z Hz.
  destruct (Hsw j z Hz) as (z1 & Hz1 & Hr1). destruct (Hw j z1 Hz1) as (z2 & Hz2 & Hr2).
  exists z2. split; [done|].
  assert (Hj : j ∈ qs n1 st ↔ zns_get_zone_state z1 = st).
  { rewrite Hin. unfold state_of. rewrite Hz1. simpl. naive_solver. }
  rewrite (bool_decide_ext _ _ Hj) in Hr2.
  destruct (S (zns_get_zone_state z)) eqn:ES; cbn [orb].
  - destruct Hr1 as (E1 & E2 & E3). rewrite bool_decide_eq_false_2 in Hr2; [by subst z2; split_and!|].
    intros E. rewrite E1 in E. congruence.
  - subst z1. exact Hr2.
Qed.

(** Without the read-only bit an action on all zones moves the zones the mask
    names, and no others. *)
Lemma do_zone_op_sweep n :
  zinv n → m ≠ 0 → has m NVME_PROC_READ_ONLY_ZONES = false →
  ∃ n', zns_do_zone_op n 0 m op = Some (n', NVME_SUCCESS) ∧ zinv n' ∧ kept n n' ∧ swept (became f st') (visits m) n n'.
Proof.
  intros Hi Hm Hro. unfold zns_do_zone_op. destruct (Z.eqb_spec m 0) as [|_]; [done|].
  set (c := has m NVME_PROC_CLOSED_ZONES). set (o := has m NVME_PROC_OPENED_ZONES).
  set (u := has m NVME_PROC_FULL_ZONES).
  destruct (walk_sweep c (λ _, false) CLOSED n n) as (n1 & E1 & Hi1 & Hk1 & Hs1); auto using zkept_refl.
  { intros j z Hz. by exists z. }
  change (λ n, qs n CLOSED) with closed_zones in E1. rewrite E1. cbn [mbind option_bind].
  destruct (walk_sweep o _ IMPLICITLY_OPEN n n1 Hi1 Hk1 Hs1) as (n2 & E2 & Hi2 & Hk2 & Hs2); [by destruct c|done..|].
  change (λ n, qs n IMPLICITLY_OPEN) with imp_open_zones in E2. rewrite E2. cbn [mbind option_bind].
  destruct (walk_sweep o _ EXPLICITLY_OPEN n n2 Hi2 Hk2 Hs2) as (n3 & E3 & Hi3 & Hk3 & Hs3); [by destruct c, o|done..|].
  change (λ n, qs n EXPLICITLY_OPEN) with exp_open_zones in E3. rewrite E3. cbn [mbind option_bind].
  destruct (walk_sweep u _ FULL n n3 Hi3 Hk3 Hs3) as (n4 & E4 & Hi4 & Hk4 & Hs4); [by destruct c, o|done..|].
  change (λ n, qs n FULL) with full_zones in E4. rewrite E4. cbn [mbind option_bind].
  rewrite Hro. cbn [andb negb proc_if mbind option_bind]. rewrite ensure_bind by done.
  cbn [mbind option_bind fst].
  exists n4. split_and!; try done. intros j z Hz. destruct (Hs4 j z Hz) as (z' & Hz' & Hr).
  exists z'. split; [done|]. revert Hr. destruct (zns_get_zone_state z) eqn:E; cbn [visits];
    rewrite ?Hro; fold c o u; by destruct c, o, u.
Qed.
End sweep.

(** ** Zone management send *)

Lemma mgmt_idx_ok n (c : NvmeCmd) :
  zinv n → cmd_ok c →
  (∃ i z, zns_get_mgmt_zone_slba_idx n c = Some (NVME_SUCCESS, rw_slba c, Z.of_nat i)
     ∧ rw_slba c < nsze (ns n) ∧ zone_at n i = Some z ∧ zslba (d z) ≤ rw_slba c < zslba (d z) + zone_size n)
  ∨ zns_get_mgmt_zone_slba_idx n c = Some (Z.lor NVME_LBA_RANGE NVME_DNR, 0, 0) ∧ nsze (ns n) ≤ rw_slba c.
Proof.
  intros Hi Hc. pose proof (slba_nonneg c Hc) as H0. unfold zns_get_mgmt_zone_slba_idx.
  rewrite (zc_zoned _ (zi_cfg _ Hi)). cbn [negb]. fold (rw_slba c).
  destruct (Z.leb_spec (nsze (ns n)) (rw_slba c)) as [Hl|Hl]; [by right|left].
  destruct (zone_by_slba n Hi (rw_slba c)) as (i & z & E & Hz & Hidx & Hin); [lia|].
  exists i, z. rewrite Hidx. rewrite ensure_bind; [done|].
  apply Z.ltb_lt. apply lookup_lt_Some in Hz. pose proof (zi_len _ Hi). lia.
Qed.

(** A transfer of a zone descriptor extension has the size of one. *)
Definition ext_ok n e : Prop := Z.of_nat (length (ext_after e)) = zd_extension_size n.

Lemma zinv_ext n b : zinv n → length b = length (zd_extensions n) → zinv (n <| zd_extensions := b |>).
Proof.
  intros [H1 H2 H3 H4 H5 H6 H7 H8] Hb. split; try done.
  - eapply zcfg_static; [exact H1|done].
  - intros i z Hz. apply (zone_ok_static n); [done|]. by apply H3.
  - simpl. rewrite Hb. exact H8.
Qed.

Lemma ext_offset n i :
  zinv n → Z.of_nat i < num_zones n →
  u32 (Z.of_nat i * zd_extension_size n) = Z.of_nat i * zd_extension_size n
  ∧ (zd_extension_size n ≠ 0 →
     Z.of_nat i * zd_extension_size n + zd_extension_size n ≤ Z.of_nat (length (zd_extensions n))).
Proof.
  intros Hi Hlt. destruct (zc_ext _ (zi_cfg _ Hi)) as [H0 Hmax].
  split; [apply u32_small; nia|]. intros Hne. rewrite (zi_ext _ Hi Hne). nia.
Qed.

Lemma write_zd_ext_ok n i e :
  zinv n → zd_extension_size n ≠ 0 → ext_ok n e → Z.of_nat i < num_zones n →
  ∃ b, write_zd_ext n (Z.of_nat i) e = Some (n <| zd_extensions := b |>)
    ∧ length b = length (zd_extensions n)
    ∧ read_blocks b (u32 (Z.of_nat i * zd_extension_size n)) (zd_extension_size n) = Some (ext_after e).
Proof.
  intros Hi Hne He Hlt. destruct (ext_offset n i Hi Hlt) as [Hu Hb]. specialize (Hb Hne).
  pose proof (zc_ext _ (zi_cfg _ Hi)) as [H0 _]. unfold write_zd_ext. rewrite Hu.
  rewrite ensure_bind by (by apply Z.eqb_eq).
  destruct (write_blocks_ok (zd_extensions n) (Z.of_nat i * zd_extension_size n) (ext_after e))
    as (b & -> & Hl & Hrd & _); [nia|unfold ext_ok in He; lia|].
  cbn [mbind option_bind]. exists b. unfold ext_ok in He. rewrite He in Hrd. by split_and!.
Qed.

(** Where an action puts the pointers of a zone it is applied to. *)
Definition mgmt_ptr (a : Z) (all : bool) z : option Z :=
  let st := zns_get_zone_state z in
  if a =? NVME_ZONE_ACTION_FINISH then
    if is_active st || negb all && bool_decide (st = EMPTY) then Some (zslba (d z) + zcap (d z)) else None
  else if a =? NVME_ZONE_ACTION_RESET then
    if is_active st || bool_decide (st = FULL) then Some (zslba (d z)) else None
  else None.

(** The pointers after action [a] on the zone at [slba], or on all zones. *)
Definition mgmt_moves (a : Z) (all : bool) (slba : Z) n n' : Prop :=
  ∀ j z, zone_at n j = Some z → ∃ z', zone_at n' j = Some z' ∧ (live z = true → live z' = true)
    ∧ (w_ptr z', d_wp (d z'))
      = match (if all || (zslba (d z) =? slba) then mgmt_ptr a all z else None) with
        | Some p => (p, p)
        | None => (w_ptr z, d_wp (d z))
        end.

Definition mgmt_outcome n req n' : Prop :=
  zinv n' ∧ static n' = static n ∧ mbe n' = mbe n
  ∧ mgmt_moves (Z.land (cdw13 (rcmd req)) 0xff) (has (cdw13 (rcmd req)) 0x100) (rw_slba (rcmd req)) n n'.

Lemma quiet_moves a all slba n n' :
  (a =? NVME_ZONE_ACTION_FINISH) = false → (a =? NVME_ZONE_ACTION_RESET) = false →
  quiet n n' → mgmt_moves a all slba n n'.
Proof.
  intros Hf Hr [_ H] j z Hz. destruct (H j z Hz) as (z' & Hz' & Hw & Hd & Hl). exists z'. split_and!; [done..|].
  unfold mgmt_ptr. rewrite Hf, Hr, Hw, Hd. by destruct (_ || _).
Qed.

(** No zone starts at the address. *)
Lemma idle_moves a slba n : (∀ j z, zone_at n j = Some z → zslba (d z) ≠ slba) → mgmt_moves a false slba n n.
Proof.
  intros H j z Hz. exists z. split_and!; [done..|]. simpl. by rewrite (proj2 (Z.eqb_neq _ _) (H j z Hz)).
Qed.

Lemma zslba_inj n i j y z :
  zinv n → zone_at n i = Some z → zone_at n j = Some y → zslba (d y) = zslba (d z) → j = i.
Proof.
  intros Hi Hz Hy. rewrite (zo_slba _ _ _ (zi_zone _ Hi i z Hz)), (zo_slba _ _ _ (zi_zone _ Hi j y Hy)).
  pose proof (zc_zsize _ (zi_cfg _ Hi)). intros E. apply Z.mul_reg_r in E; lia.
Qed.

(** An action on one zone that moves its pointers to [p]. *)
Lemma moved_moves a n n' i z p st :
  zinv n → zone_at n i = Some z → mgmt_ptr a false z = Some p →
  match st with READ_ONLY | OFFLINE => False | _ => True end →
  moved_to n n' i (at_pointer z p) st → mgmt_moves a false (zslba (d z)) n n'.
Proof.
  intros Hi Hz Hp Hst Hm. destruct (mv_zone _ _ _ _ _ Hm) as (z' & F1 & F2 & F3 & _ & _ & Hat).
  intros j y Hy. rewrite Hat. simpl. case_decide as E.
  - subst j. rewrite Hz in Hy. injection Hy as <-. exists z'. split; [done|].
    split; [intros _; unfold live; rewrite F1; by destruct st|]. by rewrite Z.eqb_refl, Hp, F2, F3.
  - exists y. split; [done|]. split; [done|].
    destruct (Z.eqb_spec (zslba (d y)) (zslba (d z))) as [Es|]; [|done]. by destruct (E (zslba_inj n i j y z Hi Hz Hy Es)).
Qed.

Lemma still_moves a all n i z :
  zinv n → zone_at n i = Some z → all = false → mgmt_ptr a all z = None → mgmt_moves a all (zslba (d z)) n n.
Proof.
  intros Hi Hz -> Hp j y Hy. exists y. split_and!; [done..|]. simpl.
  destruct (Z.eqb_spec (zslba (d y)) (zslba (d z))) as [Es|]; [|done].
  rewrite (zslba_inj n i j y z Hi Hz Hy Es) in Hy. simplify_eq. by rewrite Hp.
Qed.

(** The states whose zones an action on all zones moves, the pointer and the
    state it gives them. *)
Record bulk_effect := { be_from : NvmeZoneState → bool; be_ptr : NvmeZone → Z; be_to : NvmeZoneState }.

Definition bulk_of (action : Z) : option bulk_effect :=
  if action =? NVME_ZONE_ACTION_FINISH then
    Some {| be_from := is_active; be_ptr z := zslba (d z) + zcap (d z); be_to := FULL |}
  else if action =? NVME_ZONE_ACTION_RESET then
    Some {| be_from st := is_active st || bool_decide (st = FULL); be_ptr z := zslba (d z); be_to := EMPTY |}
  else None.

Lemma finish_all n (m := Z.lor NVME_PROC_OPENED_ZONES NVME_PROC_CLOSED_ZONES) :
  zinv n → ∃ n', zns_do_zone_op n 0 m zns_finish_zone = Some (n', NVME_SUCCESS) ∧ zinv n' ∧ kept n n'
    ∧ swept (became (λ z, at_pointer z (zslba (d z) + zcap (d z))) FULL) (visits m) n n'.
Proof.
  intros Hi. apply do_zone_op_sweep; try done. intros n1 i z Hi1 Hz Hv.
  destruct (finish_ok n1 i z Hi1 Hz) as (n' & s & E & Hi' & H).
  rewrite E. destruct (zns_get_zone_state z); try done; destruct H as [-> H]; by exists n'.
Qed.

Lemma reset_all n (m := Z.lor (Z.lor NVME_PROC_OPENED_ZONES NVME_PROC_CLOSED_ZONES) NVME_PROC_FULL_ZONES) :
  zinv n → ∃ n', zns_do_zone_op n 0 m zns_reset_zone = Some (n', NVME_SUCCESS) ∧ zinv n' ∧ kept n n'
    ∧ swept (became (λ z, at_pointer z (zslba (d z))) EMPTY) (visits m) n n'.
Proof.
  intros Hi. apply do_zone_op_sweep; try done. intros n1 i z Hi1 Hz Hv.
  destruct (reset_ok n1 i z Hi1 Hz) as (n' & s & E & Hi' & H).
  rewrite E. destruct (zns_get_zone_state z); try done; destruct H as [-> H]; by exists n'.
Qed.

Lemma swept_moves a all slba p st n n' (S : NvmeZoneState → bool) :
  all = true → (∀ z, mgmt_ptr a all z = if S (zns_get_zone_state z) then Some (p z) else None) →
  match st with READ_ONLY | OFFLINE => False | _ => True end →
  swept (became (λ z, at_pointer z (p z)) st) S n n' → mgmt_moves a all slba n n'.
Proof.
  intros -> Hp Hst Hsw j z Hz. destruct (Hsw j z Hz) as (z' & Hz' & Hr). exists z'. split; [done|].
  simpl. rewrite Hp. destruct (S (zns_get_zone_state z)); [|by subst z'].
  destruct Hr as (F1 & F2 & F3). rewrite F2, F3. split; [|done]. intros _. unfold live. rewrite F1. by destruct st.
Qed.

(** Finishing, on one zone or on all. *)
Lemma finish_branch n i z all (m := if all : bool then Z.lor NVME_PROC_OPENED_ZONES NVME_PROC_CLOSED_ZONES else NVME_PROC_CURRENT_ZONE) :
  zinv n → zone_at n i = Some z → (all = true → i = 0%nat) →
  ∃ n' s, zns_do_zone_op n i m zns_finish_zone = Some (n', s) ∧ zinv n' ∧ kept n n'
    ∧ mgmt_moves NVME_ZONE_ACTION_FINISH all (zslba (d z)) n n'.
Proof.
  intros Hi Hz Hall. destruct all.
  - rewrite Hall by done. destruct (finish_all n Hi) as (n' & E & Hi' & Hk & Hsw). exists n', NVME_SUCCESS.
    split_and!; try done. eapply swept_moves; [| | |exact Hsw]; [done| |done].
    intros y. unfold mgmt_ptr. simpl. by destruct (zns_get_zone_state y).
  - unfold zns_do_zone_op. subst m. change (NVME_PROC_CURRENT_ZONE =? 0) with true. cbn iota. rewrite Hz.
    cbn [mbind option_bind]. destruct (finish_ok n i z Hi Hz) as (n' & s & E & Hi' & H). exists n', s.
    split; [done|]. split; [done|].
    assert (Hp : mgmt_ptr NVME_ZONE_ACTION_FINISH false z
      = if is_active (zns_get_zone_state z) || bool_decide (zns_get_zone_state z = EMPTY)
        then Some (zslba (d z) + zcap (d z)) else None) by done.
    destruct (_ || _); destruct H as [H1 H2].
    + split; [by eapply moved_kept|]. by apply (moved_moves _ n n' i z (zslba (d z) + zcap (d z)) FULL).
    + subst n'. split; [apply zkept_refl|]. by eapply still_moves.
Qed.

(** Resetting, on one zone or on all. *)
Lemma reset_branch n i z all (m := if all : bool
    then Z.lor (Z.lor NVME_PROC_OPENED_ZONES NVME_PROC_CLOSED_ZONES) NVME_PROC_FULL_ZONES else NVME_PROC_CURRENT_ZONE) :
  zinv n → zone_at n i = Some z → (all = true → i = 0%nat) →
  ∃ n' s, zns_do_zone_op n i m zns_reset_zone = Some (n', s) ∧ zinv n' ∧ kept n n'
    ∧ mgmt_moves NVME_ZONE_ACTION_RESET all (zslba (d z)) n n'.
Proof.
  intros Hi Hz Hall. destruct all.
  - rewrite Hall by done. destruct (reset_all n Hi) as (n' & E & Hi' & Hk & Hsw). exists n', NVME_SUCCESS.
    split_and!; try done. eapply swept_moves; [| | |exact Hsw]; [done| |done].
    intros y. unfold mgmt_ptr. simpl. by destruct (zns_get_zone_state y).
  - unfold zns_do_zone_op. subst m. change (NVME_PROC_CURRENT_ZONE =? 0) with true. cbn iota. rewrite Hz.
    cbn [mbind option_bind]. destruct (reset_ok n i z Hi Hz) as (n' & s & E & Hi' & H). exists n', s.
    split; [done|]. split; [done|].
    assert (Hp : mgmt_ptr NVME_ZONE_ACTION_RESET false z
      = if is_active (zns_get_zone_state z) || bool_decide (zns_get_zone_state z = FULL)
        then Some (zslba (d z)) else None) by done.
    destruct (_ || _); destruct H as [H1 H2].
    + split; [by eapply moved_kept|]. by apply (moved_moves _ n n' i z (zslba (d z)) EMPTY).
    + subst n'. split; [apply zkept_refl|]. by eapply still_moves.
Qed.

(** The other actions move no pointer. *)
Lemma quiet_branch n i z op m a all (m' := if all : bool then m else NVME_PROC_CURRENT_ZONE) :
  handler quiet op → zinv n → zone_at n i = Some z → (all = true → i = 0%nat) → mask_ok m →
  (a =? NVME_ZONE_ACTION_FINISH) = false → (a =? NVME_ZONE_ACTION_RESET) = false →
  ∃ n' s, zns_do_zone_op n i m' op = Some (n', s) ∧ zinv n' ∧ kept n n' ∧ mgmt_moves a all (zslba (d z)) n n'.
Proof.
  intros Hop Hi Hz Hall Hm Hf Hr.
  destruct (do_zone_op_ok quiet quiet_kept op m' Hop n i Hi) as (n' & s & E & Hi' & Hq).
  - apply lookup_lt_Some in Hz. pose proof (zi_len _ Hi). lia.
  - unfold m'. destruct all; [done|by vm_compute].
  - unfold m'. destruct all; auto.
  - exists n', s. split_and!; [done|done|by apply quiet_kept|by apply quiet_moves].
Qed.

Lemma send_ext_ok n i z e all :
  zinv n → zone_at n i = Some z → zd_extension_size n ≠ 0 → ext_ok n e →
  ∃ n' s, (n ← write_zd_ext n (Z.of_nat i) e;
           if nz (dma_st e) then Some (n, dma_st e)
           else '(n, status) ← zns_set_zd_ext n i; Some (n, with_dnr status)) = Some (n', s)
    ∧ zinv n' ∧ static n' = static n ∧ mbe n' = mbe n
    ∧ mgmt_moves NVME_ZONE_ACTION_SET_ZD_EXT all (zslba (d z)) n n'.
Proof.
  intros Hi Hz Hne He. assert (Hlt : Z.of_nat i < num_zones n).
  { apply lookup_lt_Some in Hz. pose proof (zi_len _ Hi). lia. }
  destruct (write_zd_ext_ok n i e Hi Hne He Hlt) as (b & -> & Hl & _).
  cbn [mbind option_bind]. pose proof (zinv_ext n b Hi Hl) as Hib. set (nb := n <| zd_extensions := b |>) in *.
  assert (Hmv : ∀ n', quiet nb n' → zinv n' → zinv n' ∧ static n' = static n ∧ mbe n' = mbe n
    ∧ mgmt_moves NVME_ZONE_ACTION_SET_ZD_EXT all (zslba (d z)) n n').
  { intros n' Hq Hi'. pose proof Hq as [(E & M & _) _]. split_and!; try done.
    intros j y Hy. exact (quiet_moves NVME_ZONE_ACTION_SET_ZD_EXT all (zslba (d z)) nb n' eq_refl eq_refl Hq j y Hy). }
  destruct (nz (dma_st e)); [eexists _, _; split; [done|]; apply Hmv; [reflexivity|done]|].
  destruct (set_zd_ext_ok nb i z Hib Hz) as (n' & s' & -> & Hi' & H'). cbn [mbind option_bind].
  exists n', (with_dnr s'). split; [done|]. apply Hmv; [|done].
  destruct H' as [(_ & _ & Hm)|(_ & -> & _)]; [|reflexivity].
  by apply (moved_quiet nb n' i z (with_ext z) CLOSED).
Qed.

(** The part of [zns_zone_mgmt_send] after its checks. *)
Definition send_action n i (a : Z) (all : bool) e : option (FemuCtrl * Z) :=
  let mask m := if all then m else NVME_PROC_CURRENT_ZONE in
  let run m op := '(n, status) ← zns_do_zone_op n i (mask m) op; Some (n, with_dnr status) in
  if a =? NVME_ZONE_ACTION_OPEN then run NVME_PROC_CLOSED_ZONES zns_open_zone
  else if a =? NVME_ZONE_ACTION_CLOSE then run NVME_PROC_OPENED_ZONES zns_close_zone
  else if a =? NVME_ZONE_ACTION_FINISH then
    run (Z.lor NVME_PROC_OPENED_ZONES NVME_PROC_CLOSED_ZONES) zns_finish_zone
  else if a =? NVME_ZONE_ACTION_RESET then
    '(n, _) ← zns_do_zone_op n i
                (mask (Z.lor (Z.lor NVME_PROC_OPENED_ZONES NVME_PROC_CLOSED_ZONES) NVME_PROC_FULL_ZONES))
                zns_reset_zone;
    Some (n, NVME_SUCCESS)
  else if a =? NVME_ZONE_ACTION_OFFLINE then run NVME_PROC_READ_ONLY_ZONES zns_offline_zone
  else if a =? NVME_ZONE_ACTION_SET_ZD_EXT then
    if all || negb (nz (zd_extension_size n)) then Some (n, Z.lor NVME_INVALID_FIELD NVME_DNR)
    else
      n ← write_zd_ext n (Z.of_nat i) e;
      if nz (dma_st e) then Some (n, dma_st e)
      else '(n, status) ← zns_set_zd_ext n i; Some (n, with_dnr status)
  else Some (n, with_dnr NVME_INVALID_FIELD).

Lemma send_action_ok n i z a all e :
  zinv n → zone_at n i = Some z → (all = true → i = 0%nat) → ext_ok n e →
  ∃ n' s, send_action n i a all e = Some (n', s) ∧ zinv n' ∧ static n' = static n ∧ mbe n' = mbe n
    ∧ mgmt_moves a all (zslba (d z)) n n'.
Proof.
  intros Hi Hz Hall He. unfold send_action.
  assert (Hrun : ∀ m op (g : Z → Z),
    (∃ n' s, zns_do_zone_op n i m op = Some (n', s) ∧ zinv n' ∧ kept n n' ∧ mgmt_moves a all (zslba (d z)) n n') →
    ∃ n' s, ('(n, st) ← zns_do_zone_op n i m op; Some (n, g st)) = Some (n', s)
      ∧ zinv n' ∧ static n' = static n ∧ mbe n' = mbe n ∧ mgmt_moves a all (zslba (d z)) n n').
  { intros m op g (n' & s & -> & Hi' & (E & M & _) & Hm). cbn [mbind option_bind]. by exists n', (g s). }
  destruct (Z.eqb_spec a NVME_ZONE_ACTION_OPEN) as [->|_];
    [apply Hrun, quiet_branch; auto using open_handler; by vm_compute|].
  destruct (Z.eqb_spec a NVME_ZONE_ACTION_CLOSE) as [->|_];
    [apply Hrun, quiet_branch; auto using close_handler; by vm_compute|].
  destruct (Z.eqb_spec a NVME_ZONE_ACTION_FINISH) as [->|Hf]; [by apply Hrun, finish_branch|].
  destruct (Z.eqb_spec a NVME_ZONE_ACTION_RESET) as [->|Hr];
    [by apply (Hrun _ _ (λ _, NVME_SUCCESS)), reset_branch|].
  apply Z.eqb_neq in Hf, Hr.
  destruct (Z.eqb_spec a NVME_ZONE_ACTION_OFFLINE) as [->|_];
    [apply Hrun, quiet_branch; auto using offline_handler; by vm_compute|].
  assert (Hsame : mgmt_moves a all (zslba (d z)) n n) by (apply quiet_moves; [done..|reflexivity]).
  destruct (Z.eqb_spec a NVME_ZONE_ACTION_SET_ZD_EXT) as [->|_]; [|by eexists _, _].
  destruct (nz_spec (zd_extension_size n)) as [Hne|]; [|rewrite orb_true_r; by eexists _, _].
  destruct all; [by eexists _, _|]. by apply send_ext_ok.
Qed.

(** The checks, for an action on all zones and for one on the zone of an address. *)
Lemma send_all n req e :
  zinv n → has (cdw13 (rcmd req)) 0x100 = true →
  zns_zone_mgmt_send n req e = send_action n 0 (Z.land (cdw13 (rcmd req)) 0xff) true e.
Proof.
  intros Hi Hall. unfold zns_zone_mgmt_send. rewrite Hall. cbn [mbind option_bind].
  change (nz NVME_SUCCESS) with false. cbn iota. change (Z.to_nat 0) with 0%nat.
  destruct (zone_exists n 0 Hi) as [z Hz]; [pose proof (zc_num _ (zi_cfg _ Hi)); lia|].
  rewrite Hz. cbn [mbind option_bind]. rewrite (zo_slba _ _ _ (zi_zone _ Hi 0%nat z Hz)).
  change (Z.of_nat 0) with 0. rewrite Z.mul_0_l. reflexivity.
Qed.

Lemma send_one n req e :
  zinv n → cmd_ok (rcmd req) → has (cdw13 (rcmd req)) 0x100 = false →
  (∃ i z, zone_at n i = Some z ∧ zslba (d z) = rw_slba (rcmd req)
     ∧ zns_zone_mgmt_send n req e = send_action n i (Z.land (cdw13 (rcmd req)) 0xff) false e)
  ∨ (∀ j y, zone_at n j = Some y → zslba (d y) ≠ rw_slba (rcmd req))
    ∧ ∃ s, zns_zone_mgmt_send n req e = Some (n, s) ∧ nz s = true.
Proof.
  intros Hi Hc Hall. unfold zns_zone_mgmt_send. rewrite Hall. pose proof (zc_zsize _ (zi_cfg _ Hi)) as Hsz.
  destruct (mgmt_idx_ok n (rcmd req) Hi Hc) as [(i & z & -> & Hlt & Hz & Hin)|[-> Hge]]; cbn [mbind option_bind].
  - change (nz NVME_SUCCESS) with false. cbn iota. rewrite Nat2Z.id, Hz. cbn [mbind option_bind].
    destruct (Z.eqb_spec (rw_slba (rcmd req)) (zslba (d z))) as [Es|Hne]; cbn [negb].
    + left. by exists i, z.
    + right. split; [|eexists; split; [done|apply dnr_nz]]. intros j y Hy Ey.
      rewrite (zo_slba _ _ _ (zi_zone _ Hi j y Hy)) in Ey. rewrite (zo_slba _ _ _ (zi_zone _ Hi i z Hz)) in Hin, Hne.
      assert (Z.of_nat j = Z.of_nat i) by nia. nia.
  - right. rewrite dnr_nz. split; [|eexists; split; [done|apply dnr_nz]]. intros j y Hy Ey.
    pose proof (zone_range n Hi j y Hy). lia.
Qed.

(** An action runs to its end, changes no block and keeps the invariant. *)
Lemma mgmt_send_ok n req e :
  zinv n → cmd_ok (rcmd req) → ext_ok n e →
  ∃ n' s, zns_zone_mgmt_send n req e = Some (n', s) ∧ mgmt_outcome n req n'.
Proof.
  intros Hi Hc He. unfold mgmt_outcome. set (a := Z.land (cdw13 (rcmd req)) 0xff).
  destruct (has (cdw13 (rcmd req)) 0x100) eqn:Eall.
  - rewrite (send_all n req e Hi Eall). destruct (zone_exists n 0 Hi) as [z Hz]; [pose proof (zc_num _ (zi_cfg _ Hi)); lia|].
    destruct (send_action_ok n 0 z a true e Hi Hz) as (n' & s & E & Hi' & Es & M & Hmv); [done..|].
    exists n', s. by split_and!.
  - destruct (send_one n req e Hi Hc Eall) as [(i & z & Hz & Ez & ->)|(Hno & s & -> & _)].
    + rewrite <- Ez. by apply send_action_ok.
    + exists n, s. split_and!; try done. by apply idle_moves.
Qed.

Lemma send_all_bulk n req e be :
  zinv n → has (cdw13 (rcmd req)) 0x100 = true → bulk_of (Z.land (cdw13 (rcmd req)) 0xff) = Some be →
  ∃ n', zns_zone_mgmt_send n req e = Some (n', NVME_SUCCESS) ∧ zinv n' ∧ mbe n' = mbe n
    ∧ swept (became (λ z, at_pointer z (be_ptr be z)) (be_to be)) (be_from be) n n'.
Proof.
  intros Hi Hall Hbe. rewrite (send_all n req e Hi Hall). unfold send_action.
  unfold bulk_of in Hbe. set (a := Z.land _ _) in *.
  destruct (Z.eqb_spec a NVME_ZONE_ACTION_FINISH) as [Ea|_].
  - rewrite Ea. destruct (finish_all n Hi) as (n' & E & Hi' & (_ & M & _) & Hsw). simplify_eq. simpl in E |- *. rewrite E.
    by exists n'.
  - destruct (Z.eqb_spec a NVME_ZONE_ACTION_RESET) as [Ea|_]; [|done].
    rewrite Ea. destruct (reset_all n Hi) as (n' & E & Hi' & (_ & M & _) & Hsw). simplify_eq. simpl in E |- *. rewrite E.
    exists n'. split_and!; try done. intros j y Hy. destruct (Hsw j y Hy) as (y' & ? & Hr). exists y'.
    split; [done|]. by destruct (zns_get_zone_state y).
Qed.

(** ** Reports *)

(** The zones from [i] on that match the filter. *)
Definition matching n i (zrasf : Z) : list NvmeZone :=
  filter (λ z, zns_zone_matches_filter zrasf z = true) (drop i (zone_array n)).

Lemma matching_cons n i zrasf z :
  zone_at n i = Some z →
  matching n i zrasf = (if zns_zone_matches_filter zrasf z then [z] else []) ++ matching n (S i) zrasf.
Proof.
  intros Hz. unfold matching. rewrite (drop_S _ z _ Hz), filter_cons.
  destruct (zns_zone_matches_filter zrasf z); [by rewrite decide_True|by rewrite decide_False].
Qed.


Lemma count_zones_ok n zrasf partial mx :
  zinv n → ∀ fuel i o nr, (i <= length (zone_array n))%nat → 0 ≤ o < zone_size n →
  (length (zone_array n) - i < fuel)%nat → (partial = true → nr ≤ mx) →
  count_zones fuel n (Z.of_nat i * zone_size n + o) (nsze (ns n)) i zrasf partial mx nr
  = Some (let k := nr + Z.of_nat (length (matching n i zrasf)) in if partial then Z.min mx k else k).
Proof.
  intros Hi. pose proof (zi_cfg _ Hi) as []. pose proof (zi_len _ Hi) as Hlen.
  induction fuel as [|fuel IH]; intros i o nr Hle Ho Hf Hmx; [lia|]. cbn [count_zones].
  destruct (Z.ltb_spec (Z.of_nat i * zone_size n + o) (nsze (ns n))) as [Hlt|Hge]; cbn [negb].
  2: { unfold matching. rewrite drop_ge by (rewrite zc_nsze in Hge; nia). cbn. f_equal.
       destruct partial; [|lia]. specialize (Hmx eq_refl). lia. }
  destruct (partial && (mx <=? nr)) eqn:Ep.
  { apply andb_true_iff in Ep as [-> Hm%Z.leb_le]. specialize (Hmx eq_refl). f_equal. lia. }
  assert (Hmx' : partial = true → nr + 1 ≤ mx).
  { intros ->. apply Z.leb_gt in Ep. lia. }
  destruct (zone_exists n i Hi) as [z Hz]; [nia|]. rewrite Hz. cbn [mbind option_bind].
  rewrite u64_small.
  2: { pose proof (zone_range n Hi i z Hz). rewrite (zo_slba _ _ _ (zi_zone _ Hi i z Hz)) in *.
       assert (2 ^ 9 ≤ 2 ^ lbads (ns n)) by (apply Z.pow_le_mono_r; lia). nia. }
  replace (Z.of_nat i * zone_size n + o + zone_size n) with (Z.of_nat (S i) * zone_size n + o) by lia.
  apply lookup_lt_Some in Hz as Hz'. rewrite (matching_cons _ _ _ _ Hz), length_app, Nat2Z.inj_add.
  destruct (zns_zone_matches_filter zrasf z); rewrite IH by (auto with lia); cbn [length]; do 2 f_equal;
    destruct partial; lia.
Qed.

(** The entries of a report: the zones that match, as many as fit. *)
Definition entry_of n (extended : bool) z (r : report_entry) : Prop :=
  ∃ i, zone_at n i = Some z ∧ report_zone n i extended z = Some r.

Lemma report_zone_ok n i z extended :
  zinv n → zone_at n i = Some z → (extended = true → zd_extension_size n ≠ 0) →
  ∃ r, report_zone n i extended z = Some r ∧ r_zslba r = zslba (d z)
    ∧ Z.of_nat (length (r_ext r)) = (if extended then zd_extension_size n else 0).
Proof.
  intros Hi Hz Hx. apply lookup_lt_Some in Hz as Hlt. unfold report_zone.
  destruct (ext_offset n i Hi) as [Hu Hb]; [pose proof (zi_len _ Hi); lia|].
  pose proof (zc_ext _ (zi_cfg _ Hi)) as [H0 _]. destruct extended; [|by eexists].
  specialize (Hb (Hx eq_refl)). destruct (has (za (d z)) NVME_ZA_ZD_EXT_VALID); cbn [mbind option_bind].
  - unfold read_blocks. rewrite Hu. rewrite ensure_bind by (apply in_blocks; nia). cbn [mbind option_bind].
    eexists. split; [done|]. split; [done|]. cbn [r_ext]. rewrite length_take, length_drop. nia.
  - eexists. split; [done|]. split; [done|]. cbn [r_ext]. rewrite length_replicate. lia.
Qed.

Lemma report_zones_ok n zrasf extended :
  zinv n → (extended = true → zd_extension_size n ≠ 0) → ∀ k i mx,
  (i + k = length (zone_array n))%nat →
  ∃ l : list report_entry, report_zones k n i zrasf extended mx = Some l
    ∧ Forall2 (entry_of n extended) (take (Z.to_nat mx) (matching n i zrasf)) l.
Proof.
  intros Hi Hx. induction k as [|k IH]; intros i mx Hk; cbn [report_zones].
  { exists []. split; [done|]. unfold matching. rewrite drop_ge by lia. rewrite filter_nil, take_nil. constructor. }
  destruct (Z.ltb_spec 0 mx) as [Hm|Hm].
  2: { exists []. split; [done|]. replace (Z.to_nat mx) with 0%nat by lia. constructor. }
  destruct (lookup_lt_is_Some_2 (zone_array n) i) as [z Hz]; [lia|]. fold (zone_at n i) in Hz.
  rewrite Hz. cbn [mbind option_bind]. rewrite (matching_cons _ _ _ _ Hz).
  destruct (zns_zone_matches_filter zrasf z); [|by apply IH; lia].
  destruct (report_zone_ok n i z extended Hi Hz Hx) as (r & Hr & _). rewrite Hr. cbn [mbind option_bind].
  destruct (IH (S i) (mx - 1)) as (l & -> & Hl); [lia|]. cbn [mbind option_bind]. exists (r :: l). split; [done|].
  replace (Z.to_nat mx) with (S (Z.to_nat (mx - 1))) by lia. constructor; [by exists i|done].
Qed.

(** A rejected report has a status and no data; one that is accepted lists the
    matching zones from the zone of its address on, as many as its buffer takes,
    and its header counts them, or all of them when it is not partial. *)
Definition report_outcome n req e (r : Z * option (Z * list report_entry)) : Prop :=
  let c := rcmd req in
  let data_size := u32 (Z.shiftl (u32 (cdw12 c + 1)) 2) in
  let extended := Z.land (cdw13 c) 0xff =? NVME_ZONE_REPORT_EXTENDED in
  let zrasf := Z.land (Z.shiftr (cdw13 c) 8) 0xff in
  let entry := zone_descr_size + (if extended then zd_extension_size n else 0) in
  let mx := (data_size - report_header_size) / entry in
  match r.2 with
  | None => nz r.1 = true
  | Some (nr, l) =>
      r.1 = dma_st e
      ∧ ∃ i z, zone_at n i = Some z ∧ zslba (d z) ≤ rw_slba c < zslba (d z) + zone_size n
        ∧ Forall2 (entry_of n extended) (take (Z.to_nat mx) (matching n i zrasf)) l
        ∧ (nr = let k := Z.of_nat (length (matching n i zrasf)) in
                if nz (Z.land (Z.shiftr (cdw13 c) 16) 1) then Z.min mx k else k)
        ∧ report_header_size + Z.of_nat (length l) * entry ≤ data_size
  end.

Lemma mgmt_recv_ok n req e :
  zinv n → cmd_ok (rcmd req) → zns_ns_nlbas n = nsze (ns n) →
  ∃ r, zns_zone_mgmt_recv n req e = Some r ∧ report_outcome n req e r.
Proof.
  intros Hi Hc Hcap. unfold zns_zone_mgmt_recv, report_outcome. set (c := rcmd req) in *.
  set (data_size := u32 _). set (zra := Z.land (cdw13 c) 0xff). set (zrasf := Z.land (Z.shiftr (cdw13 c) 8) 0xff).
  set (partial := nz (Z.land (Z.shiftr (cdw13 c) 16) 1)). rewrite Hcap.
  destruct (mgmt_idx_ok n c Hi Hc) as [(i & z & -> & Hlt & Hz & Hin)|[-> _]]; cbn [mbind option_bind].
  2: { rewrite dnr_nz. by eexists. }
  change (nz NVME_SUCCESS) with false. cbn iota. rewrite Nat2Z.id.
  destruct (negb (zra =? NVME_ZONE_REPORT) && _); [eexists; split; [done|apply dnr_nz]|].
  destruct ((zra =? NVME_ZONE_REPORT_EXTENDED) && _) eqn:Ex; [eexists; split; [done|apply dnr_nz]|].
  destruct (NVME_ZONE_REPORT_OFFLINE <? zrasf); [eexists; split; [done|apply dnr_nz]|].
  destruct (Z.ltb_spec data_size report_header_size) as [|Hds]; [eexists; split; [done|apply dnr_nz]|].
  destruct (nz (nvme_check_mdts n data_size)) eqn:Em; [by eexists|].
  set (extended := zra =? NVME_ZONE_REPORT_EXTENDED) in *.
  assert (Hx : extended = true → zd_extension_size n ≠ 0).
  { intros E. rewrite E in Ex. apply negb_false_iff in Ex. by destruct (nz_spec (zd_extension_size n)). }
  set (entry := zone_descr_size + _). set (mx := (data_size - report_header_size) / entry).
  assert (He : 0 < entry).
  { destruct (zc_ext _ (zi_cfg _ Hi)). unfold entry, zone_descr_size. destruct extended; lia. }
  assert (Hmx : 0 ≤ mx) by (apply Z.div_pos; lia).
  pose proof (zi_len _ Hi) as Hlen. pose proof (zi_zone _ Hi i z Hz) as Hok. pose proof (zi_cfg _ Hi) as Hcfg.
  apply lookup_lt_Some in Hz as Hil. set (o := rw_slba c - Z.of_nat i * zone_size n).
  rewrite (zo_slba _ _ _ Hok) in Hin. pose proof (zc_nsze _ Hcfg) as Hns. pose proof (zc_zsize _ Hcfg) as Hzs.
  replace (rw_slba c) with (Z.of_nat i * zone_size n + o) by lia.
  rewrite (count_zones_ok n zrasf partial mx Hi); [|lia|lia|nia|lia]. cbn [mbind option_bind].
  destruct (report_zones_ok n zrasf extended Hi Hx (Z.to_nat (num_zones n) - i) i mx) as (l & -> & Hl); [lia|].
  cbn [mbind option_bind]. eexists. split; [done|]. cbn [fst snd]. split; [done|]. exists i, z.
  rewrite (zo_slba _ _ _ Hok). split_and!; [done|lia|lia|done|done|].
  apply Forall2_length in Hl. rewrite length_take in Hl.
  assert (Hd : mx * entry ≤ data_size - report_header_size) by (rewrite Z.mul_comm; apply Z.mul_div_le; lia).
  unfold report_header_size in *. nia.
Qed.

(** ** Set-up *)

(** A controller before [zns_init]: no zone is open, a block has at least 512
    bytes and at most a zone, and the backend holds the whole namespace, at
    least one zone. *)
Record fresh n : Prop := {
  fr_open : nr_open_zones n = 0;
  fr_active : nr_active_zones n = 0;
  fr_lbads : 9 ≤ lbads (ns n) ≤ 27;
  fr_size : NVME_DEFAULT_ZONE_SIZE ≤ ns_size (ns n) < 2 ^ 58;
  fr_mbe : Z.of_nat (length (mbe n)) = zns_ns_nlbas n
}.

Definition fresh_zone (zcap start : Z) : NvmeZone :=
  zns_set_zone_state
    {| d := {| zt := NVME_ZONE_TYPE_SEQ_WRITE; zs := 0; za := 0; zcap := zcap; zslba := start; d_wp := start |};
       w_ptr := start |} EMPTY.

Lemma init_zones_spec zsize cap zcap : 0 ≤ zsize → cap < 2 ^ 64 → ∀ k start,
  0 ≤ start → start + Z.of_nat k * zsize ≤ cap →
  init_zones k start zsize cap zcap = (λ i, fresh_zone zcap (start + Z.of_nat i * zsize)) <$> seq 0 k.
Proof.
  intros Hz Hcap. induction k as [|k IH]; intros start Hs Hk; [done|]. cbn [init_zones seq fmap list_fmap].
  rewrite (u64_small (start + zsize)) by nia. destruct (Z.ltb_spec cap (start + zsize)); [nia|].
  rewrite (u64_small (start + zsize)) by nia. f_equal; [by rewrite Z.mul_0_l, Z.add_0_r|].
  rewrite IH by nia. rewrite <- (fmap_S_seq 0 k), <- list_fmap_compose. apply list_fmap_ext.
  intros i x _. unfold compose. f_equal. lia.
Qed.

(** The geometry of the default configuration. *)
Lemma geometry_ok n (c := zns_init_zone_cap n) (z := 2 ^ (27 - lbads (ns n)))
    (k := ns_size (ns n) / NVME_DEFAULT_ZONE_SIZE) :
  fresh n →
  zns_init_zone_geometry c
  = (c <| zone_size := z |> <| zone_capacity := z |> <| num_zones := k |>, true)
  ∧ 1 ≤ k < 2 ^ 31 ∧ z * 2 ^ lbads (ns n) = 2 ^ 27.
Proof.
  intros [_ _ Hl Hs _]. assert (Hz : z * 2 ^ lbads (ns n) = 2 ^ 27).
  { unfold z. rewrite <- Z.pow_add_r by lia. f_equal. lia. }
  assert (Hp : 2 ^ 9 ≤ 2 ^ lbads (ns n) ≤ 2 ^ 27) by (split; apply Z.pow_le_mono_r; lia).
  assert (Hk : 1 ≤ k < 2 ^ 31).
  { unfold k, NVME_DEFAULT_ZONE_SIZE in *. split; [apply Z.div_le_lower_bound|apply Z.div_lt_upper_bound]; lia. }
  split; [|done]. unfold zns_init_zone_geometry. change (ns c) with (ns n).
  change (zone_size_bs c) with NVME_DEFAULT_ZONE_SIZE. change (zone_cap_bs c) with false.
  change (nz NVME_DEFAULT_ZONE_SIZE) with true. cbn iota. rewrite Z.shiftl_1_l, (u32_small (2 ^ _)) by lia.
  rewrite Z.ltb_irrefl. destruct (Z.ltb_spec NVME_DEFAULT_ZONE_SIZE (2 ^ lbads (ns n))) as [H|_];
    [unfold NVME_DEFAULT_ZONE_SIZE in H; lia|].
  assert (Hq : NVME_DEFAULT_ZONE_SIZE / 2 ^ lbads (ns n) = z).
  { change NVME_DEFAULT_ZONE_SIZE with (2 ^ 27). rewrite <- Hz. apply Z.div_mul. lia. }
  rewrite Hq. set (c1 := c <| zone_size := z |> <| zone_capacity := z |>).
  change (ns c1) with (ns n). change (zone_size c1) with z.
  rewrite Z.div_div by (unfold z; try apply Z.pow_nonzero; lia).
  replace (2 ^ lbads (ns n) * z) with NVME_DEFAULT_ZONE_SIZE by (change NVME_DEFAULT_ZONE_SIZE with (2 ^ 27); lia).
  fold k. rewrite (u32_small k) by lia. set (c2 := c1 <| num_zones := k |>).
  change (num_zones c2) with k. change (max_open_zones c2) with 0. change (max_active_zones c2) with 0.
  change (zd_extension_size c2) with 0. destruct (Z.ltb_spec k 0); [lia|done].
Qed.

(** What [zns_init] leaves behind. *)
Record initial n n' (z k : Z) : Prop := {
  in_array : zone_array n' = (λ i, fresh_zone z (Z.of_nat i * z)) <$> seq 0 (Z.to_nat k);
  in_num : num_zones n' = k;
  in_size : zone_size n' = z;
  in_cap : zone_capacity n' = z;
  in_log : zone_size_log2 n' = 0 ∨ zone_size_log2 n' = 27 - lbads (ns n);
  in_nsze : nsze (ns n') = k * z;
  in_lbads : lbads (ns n') = lbads (ns n);
  in_bytes : ns_size (ns n') = ns_size (ns n);
  in_zoned : zoned n' = true;
  in_limits : max_open_zones n' = 0 ∧ max_active_zones n' = 0;
  in_ext : zd_extension_size n' = 0;
  in_qs : ∀ st, qs n' st = [];
  in_cnt : nr_open_zones n' = nr_open_zones n ∧ nr_active_zones n' = nr_active_zones n;
  in_mbe : mbe n' = mbe n
}.

Lemma init_initial n (z := 2 ^ (27 - lbads (ns n))) (k := ns_size (ns n) / NVME_DEFAULT_ZONE_SIZE) :
  fresh n → initial n (zns_init n) z k.
Proof.
  intros Hf. destruct (geometry_ok n Hf) as (E & Hk & Hz). fold z k in E, Hk, Hz.
  pose proof (fr_lbads _ Hf) as Hl. pose proof (fr_size _ Hf) as Hs.
  assert (Hkz : 0 ≤ k * z < 2 ^ 62).
  { assert (k * NVME_DEFAULT_ZONE_SIZE ≤ ns_size (ns n))
      by (rewrite Z.mul_comm; apply Z.mul_div_le; unfold NVME_DEFAULT_ZONE_SIZE; lia).
    unfold NVME_DEFAULT_ZONE_SIZE in *. assert (0 < z) by (apply Z.pow_pos_nonneg; lia).
    assert (2 ^ 9 ≤ 2 ^ lbads (ns n)) by (apply Z.pow_le_mono_r; lia). nia. }
  unfold zns_init. rewrite E. cbn iota. unfold zns_init_zone_identify.
  set (c := zns_init_zone_cap n <| zone_size := z |> <| zone_capacity := z |> <| num_zones := k |>).
  assert (Hns : u64 (num_zones (zns_init_zoned_state c) * zone_size (zns_init_zoned_state c)) = k * z)
    by (apply u64_small; change (0 ≤ k * z < 2 ^ 64); lia).
  assert (Ha : zone_array (zns_init_zoned_state c)
    = (λ i, fresh_zone z (Z.of_nat i * z)) <$> seq 0 (Z.to_nat k)).
  { change (init_zones (Z.to_nat k) 0 z (u64 (k * z)) z = (λ i, fresh_zone z (Z.of_nat i * z)) <$> seq 0 (Z.to_nat k)).
    rewrite u64_small by lia. rewrite init_zones_spec; [done|apply Z.pow_nonneg; lia|lia..|].
    rewrite Z2Nat.id by lia. lia. }
  assert (Hlog : zone_size_log2 (zns_init_zoned_state c) = 0
    ∨ zone_size_log2 (zns_init_zoned_state c) = 27 - lbads (ns n)).
  { change ((if is_power_of_2 z then Z.log2 z else 0) = 0 ∨ (if is_power_of_2 z then Z.log2 z else 0) = 27 - lbads (ns n)).
    destruct (is_power_of_2 z); [right; apply Z.log2_pow2; lia|by left]. }
  assert (Hlim : max_open_zones (zns_init_zoned_state c) = 0 ∧ max_active_zones (zns_init_zoned_state c) = 0
    ∧ zd_extension_size (zns_init_zoned_state c) = 0 ∧ zoned (zns_init_zoned_state c) = true) by (by split_and!).
  assert (Hrest : ns (zns_init_zoned_state c) = ns n ∧ mbe (zns_init_zoned_state c) = mbe n
    ∧ nr_open_zones (zns_init_zoned_state c) = nr_open_zones n
    ∧ nr_active_zones (zns_init_zoned_state c) = nr_active_zones n) by (by split_and!).
  assert (Hgeo : num_zones (zns_init_zoned_state c) = k ∧ zone_size (zns_init_zoned_state c) = z
    ∧ zone_capacity (zns_init_zoned_state c) = z) by (by split_and!).
  assert (Hqs : ∀ st, qs (zns_init_zoned_state c) st = []) by (by intros []).
  rewrite Hns. revert Ha Hlog Hlim Hrest Hgeo Hqs. clear. clearbody z k. generalize (zns_init_zoned_state c).
  intros m Ha Hlog (? & ? & ? & ?) (Hm & ? & ? & ?) (? & ? & ?) Hqs.
  destruct (nz _); split; simpl; rewrite ?Hm; auto; intros []; apply Hqs || done.
Qed.

Lemma initial_zinv n n' (z k : Z) :
  fresh n → initial n n' z k → z = 2 ^ (27 - lbads (ns n)) → 1 ≤ k < 2 ^ 31 →
  z * 2 ^ lbads (ns n) = 2 ^ 27 → k * 2 ^ 27 ≤ ns_size (ns n) →
  zinv n' ∧ zns_ns_nlbas n' = zns_ns_nlbas n.
Proof.
  intros [F1 F2 F3 F4 F5] [Ha Hn Hz Hcp Hlg Hns Hlb Hby Hzn [Ho Hac] Hx Hq [Hno Hna] Hm] Hzd Hk Hzb Hsz.
  assert (Hz0 : 0 < z) by (rewrite Hzd; apply Z.pow_pos_nonneg; lia).
  assert (Hp : 2 ^ 9 ≤ 2 ^ lbads (ns n) ≤ 2 ^ 27) by (split; apply Z.pow_le_mono_r; lia).
  assert (Hnl : zns_ns_nlbas n' = zns_ns_nlbas n) by (unfold zns_ns_nlbas; by rewrite Hlb, Hby).
  assert (Hat : ∀ i y, zone_at n' i = Some y → y = fresh_zone z (Z.of_nat i * z)).
  { intros i y Hy. unfold zone_at in Hy. rewrite Ha, list_lookup_fmap in Hy.
    apply fmap_Some in Hy as (j & Hj%lookup_seq & ->). by destruct Hj as [-> _]. }
  split; [|done]. split.
  - split; rewrite ?Hzn, ?Hz, ?Hcp, ?Hn, ?Hns, ?Hlb, ?Ho, ?Hac, ?Hx, ?Hnl; try done; try lia.
    + destruct Hlg as [->| ->]; [by left|]. destruct (decide (lbads (ns n) = 27)); [left; lia|right; split; [lia|done]].
    + unfold zns_ns_nlbas. rewrite Z.shiftr_div_pow2 by lia. apply Z.div_le_lower_bound; nia.
  - rewrite Ha, length_fmap, length_seq, Hn. lia.
  - intros i y ->%Hat. split; rewrite ?Hz, ?Hcp; try done; cbn; try lia; intros; lia || auto.
  - intros st. rewrite Hq. split; [constructor|]. intros i. split; [by intros ?%elem_of_nil|].
    intros [Hqd (y & Hy & Hs)%fmap_Some]. apply Hat in Hy. subst y. by subst st.
  - unfold counters. rewrite Ho, Hac, Hno, Hna, F1, F2. done.
  - unfold limits. by rewrite Ho, Hac.
  - by rewrite Hm, Hnl.
  - by rewrite Hx.
Qed.

Lemma zns_init_ok n : fresh n → zinv (zns_init n) ∧ zns_ns_nlbas (zns_init n) = zns_ns_nlbas n.
Proof.
  intros Hf. destruct (geometry_ok n Hf) as (_ & Hk & Hzb).
  eapply initial_zinv; [exact Hf|exact (init_initial n Hf)|reflexivity|exact Hk|exact Hzb|].
  change (2 ^ 27) with NVME_DEFAULT_ZONE_SIZE. rewrite Z.mul_comm. apply Z.mul_div_le. reflexivity.
Qed.

Lemma initial_empty n n' (z k : Z) :
  initial n n' z k → mbe n' = mbe n
  ∧ ∀ i y, zone_at n' i = Some y → zns_get_zone_state y = EMPTY ∧ w_ptr y = zslba (d y).
Proof.
  intros Hin. split; [apply (in_mbe _ _ _ _ Hin)|]. intros i y Hy. unfold zone_at in Hy.
  rewrite (in_array _ _ _ _ Hin), list_lookup_fmap in Hy. by apply fmap_Some in Hy as (j & _ & ->).
Qed.

(** ** Shutdown *)

(** The zone keeps what has been written; it is closed when there is something
    to keep and empty otherwise. *)
Definition keeps z : bool := negb (d_wp (d z) =? zslba (d z)) || has (za (d z)) NVME_ZA_ZD_EXT_VALID.
Definition rewound z : NvmeZone := z <| w_ptr := d_wp (d z) |>.
Definition cleared z z' : Prop :=
  zns_get_zone_state z' = (if keeps z then CLOSED else EMPTY)
  ∧ w_ptr z' = d_wp (d z) ∧ d_wp (d z') = d_wp (d z).

Definition with_counts n n' : FemuCtrl :=
  n <| nr_open_zones := nr_open_zones n' |> <| nr_active_zones := nr_active_zones n' |>.

(** A zone is taken off its queue, and put at the head of the closed ones when
    [b] says so. *)
Lemma assigned_cleared n n1 n2 i z z2 (b : bool) (st := zns_get_zone_state z)
    (n' := if b then n2 <| closed_zones ::= λ l, i :: l |> else n2) :
  zinv n → zone_at n i = Some z → is_active st = true →
  only_counters (dequeue n i st) n1 → only_counters (set_zone n1 i z2) n2 →
  zns_get_zone_state z2 = (if b then CLOSED else EMPTY) →
  w_ptr z2 = d_wp (d z) → d_wp (d z2) = d_wp (d z) → zslba (d z2) = zslba (d z) → zcap (d z2) = zcap (d z) →
  assigned (set_zone (with_counts n n') i (rewound z)) n' i (rewound z) (if b then CLOSED else EMPTY).
Proof.
  intros Hi Hz Hact H1 H2 Hs Hw Hd Hl Hc.
  assert (Hq : ∀ x, i ∈ qs n x → st = x).
  { intros x [_ Hx]%(zi_q _ Hi). unfold state_of in Hx. rewrite Hz in Hx. by injection Hx. }
  assert (Hqs : ∀ x, qs n2 x = remove_zone (qs n x) i).
  { intros x. rewrite <- (dequeue_qs n i st x Hq). rewrite H2, H1. by destruct x. }
  assert (Ha1 : zone_array n1 = zone_array n) by (rewrite H1; by destruct st).
  assert (Ha : zone_array n2 = <[i := z2]> (zone_array n)) by (rewrite H2; simpl; by rewrite Ha1).
  assert (Hlt : (i < length (zone_array n))%nat) by (by eapply lookup_lt_Some).
  assert (Hn' : zone_array n' = zone_array n2 ∧ static n' = static n2 ∧ mbe n' = mbe n2
    ∧ zd_extensions n' = zd_extensions n2) by (by destruct b). destruct Hn' as (A1 & A2 & A3 & A4).
  split.
  - rewrite A2, H2, H1. by destruct st.
  - rewrite A3, H2, H1. by destruct st.
  - rewrite A4, H2, H1. by destruct st.
  - done.
  - done.
  - rewrite A1, Ha. simpl. by rewrite !length_insert.
  - intros x. change (qs (set_zone (with_counts n n') i (rewound z)) x) with (qs (with_counts n n') x).
    replace (qs (with_counts n n') x) with (qs n x) by (by destruct x). rewrite <- Hqs. unfold n'.
    destruct b, x; simpl; rewrite ?app_nil_r; try done. apply Permutation_cons_append.
  - exists z2. split_and!; try done. intros j. unfold zone_at. rewrite A1, Ha. simpl.
    destruct (decide (j = i)) as [->|Hne]; [by apply list_lookup_insert_eq|].
    rewrite !list_lookup_insert_ne by done. done.
Qed.

Lemma zone_ok_rewound n i z (st' := if keeps z then CLOSED else EMPTY) :
  zone_ok n i z → zone_ok n i (zns_set_zone_state (rewound z) st').
Proof.
  intros []. split; try done; simpl; try lia; rewrite state_set; unfold st', keeps in *.
  - by destruct (_ || _).
  - destruct (Z.eqb_spec (d_wp (d z)) (zslba (d z))); simpl; [|done]. destruct (has _ _); [done|auto].
  - by destruct (_ || _).
Qed.

(** One round of the shutdown. *)
Lemma clear_step n i z (st := zns_get_zone_state z) :
  zinv n → zone_at n i = Some z → is_active st = true →
  ∃ n1 n', release (dequeue n i st) st = Some n1 ∧ zns_clear_zone n1 i = Some n' ∧ zinv n'
    ∧ moved_to n n' i (rewound z) (if keeps z then CLOSED else EMPTY).
Proof.
  intros Hi Hz Hact. destruct (open_counts n Hi i z Hz) as [Hoa Hoa']. fold st in Hoa.
  pose proof (zi_lim _ Hi) as Hlim. set (st' := if keeps z then CLOSED else EMPTY).
  assert (Hcd : counters (dequeue n i st) (opens n) (actives n)).
  { apply (counters_static n); [by destruct st..|apply (zi_cnt _ Hi)]. }
  destruct (release_counters (dequeue n i st) st _ _ Hcd) as (n1 & E1 & O1 & C1); [lia..|].
  exists n1. assert (Hz1 : zone_at n1 i = Some z).
  { rewrite (only_counters_zone _ _ _ O1). unfold zone_at in *. by destruct st. }
  assert (Hmx : max_active_zones n1 = max_active_zones n) by (rewrite O1; by destruct st).
  assert (Hfin : ∀ n2 z2, only_counters (set_zone n1 i z2) n2 →
    zns_get_zone_state z2 = st' → w_ptr z2 = d_wp (d z) → d_wp (d z2) = d_wp (d z) →
    zslba (d z2) = zslba (d z) → zcap (d z2) = zcap (d z) →
    counters n2 (opens n - b2z (is_open st)) (actives n - 1 + b2z (keeps z)) →
    let n' := if keeps z then n2 <| closed_zones ::= λ l, i :: l |> else n2 in
    zinv n' ∧ moved_to n n' i (rewound z) st').
  { intros n2 z2 O2 F1 F2 F3 F4 F5 C2 n'.
    pose proof (assigned_cleared n n1 n2 i z z2 (keeps z) Hi Hz Hact O1 O2 F1 F2 F3 F4 F5) as Has. fold n' in Has.
    eapply (transition_done n _ n' i z (rewound z) st' Hi Hz); [|exact Has| |].
    - fold st. rewrite Hact. apply (prepared_intro n _ i z); [by destruct n| |done].
      replace (is_open st') with false by (unfold st'; by destruct (keeps z)).
      replace (is_active st') with (keeps z) by (unfold st'; by destruct (keeps z)).
      simpl b2z. rewrite Z.add_0_r. apply (counters_static n2); try (by unfold n'; destruct (keeps z)).
      assert (Es : static n2 = static n) by (rewrite O2, O1; by destruct st). by rewrite Es.
    - apply zone_ok_rewound. by apply (zi_zone _ Hi).
    - fold st. rewrite Hact. eapply limits_less; [exact Hlim|..]; unfold st'; destruct (keeps z), (is_open st); simpl; lia. }
  unfold zns_clear_zone. rewrite Hz1. cbn [mbind option_bind]. rewrite Hact in C1, Hoa. change (b2z true) with 1 in C1, Hoa.
  change (d_wp (d (z <| w_ptr := d_wp (d z) |>))) with (d_wp (d z)).
  change (negb (d_wp (d z) =? zslba (d (z <| w_ptr := d_wp (d z) |>))) || has (za (d (z <| w_ptr := d_wp (d z) |>))) NVME_ZA_ZD_EXT_VALID) with (keeps z).
  unfold st' in Hfin. destruct (keeps z).
  - set (z2 := if decide _ then _ else _).
    destruct (inc_active_ok (set_zone n1 i z2) _ _ C1) as (n2 & E2 & O2 & C2); [lia| |].
    { change (max_active_zones (set_zone n1 i z2)) with (max_active_zones n1). rewrite Hmx.
      destruct Hlim as [_ Hl]. intros Hne. specialize (Hl Hne). lia. }
    rewrite E2. cbn [mbind option_bind]. eexists. split; [done|]. split; [done|].
    apply (Hfin n2 z2 O2); try (unfold z2; by case_decide).
    exact C2.
  - eexists. split; [done|]. split; [done|].
    apply (Hfin _ _ (only_counters_refl _)); try done.
    simpl b2z. rewrite Z.add_0_r. exact C1.
Qed.

(** One of the three loops, over zones in state [st]. *)
Lemma shutdown_loop_ok st l : is_active st = true → ∀ n,
  zinv n → NoDup l → (∀ i, i ∈ l → state_of n i = Some st) →
  ∃ n', shutdown_loop (λ n i, release (dequeue n i st) st) l n = Some n' ∧ zinv n' ∧ kept n n'
    ∧ ∀ j z, zone_at n j = Some z → ∃ z', zone_at n' j = Some z'
        ∧ if bool_decide (j ∈ l) then cleared z z' else z' = z.
Proof.
  intros Hact. induction l as [|i l IH]; intros n Hi Hnd Hl; cbn [shutdown_loop].
  { exists n. split_and!; auto using zkept_refl. intros j z Hz. exists z. split; [done|].
    by rewrite bool_decide_eq_false_2 by (by apply not_elem_of_nil). }
  apply NoDup_cons in Hnd as [Hil Hnd].
  destruct (proj1 (fmap_Some _ _ _) (Hl i ltac:(by left))) as (z & Hz & Hst). rewrite Hst in *.
  destruct (clear_step n i z Hi Hz Hact) as (n1 & n2 & -> & E2 & Hi2 & Hm). cbn [mbind option_bind].
  rewrite E2. cbn [mbind option_bind].
  pose proof (mv_zone _ _ _ _ _ Hm) as (z2 & F1 & F2 & F3 & _ & _ & Hat).
  destruct (IH n2 Hi2 Hnd) as (n' & -> & Hi' & Hk' & Hsw).
  { intros j Hj. unfold state_of. rewrite Hat, decide_False by (by intros ->). apply Hl. by right. }
  exists n'. split_and!; eauto using zkept_trans, moved_kept.
  intros j y Hy. destruct (decide (j = i)) as [->|Hne].
  - simplify_eq. destruct (Hsw i z2) as (z' & Hz' & Hr); [by rewrite Hat, decide_True|].
    rewrite bool_decide_eq_false_2 in Hr by done. subst z'. exists z2. split; [done|].
    rewrite bool_decide_eq_true_2 by left. by split_and!.
  - destruct (Hsw j y) as (z' & Hz' & Hr); [by rewrite Hat, decide_False|]. exists z'. split; [done|].
    rewrite (bool_decide_ext (j ∈ i :: l) (j ∈ l)); [done|]. rewrite elem_of_cons. naive_solver.
Qed.

(** The loops one after the other. *)
Lemma shutdown_walk S st n n1 :
  is_active st = true → zinv n1 → kept n n1 → swept cleared S n n1 → S st = false →
  (st = CLOSED → ∀ x, S x = false) →
  ∃ n', shutdown_loop (λ n i, release (dequeue n i st) st) (qs n1 st) n1 = Some n'
    ∧ zinv n' ∧ kept n n' ∧ swept cleared (λ x, S x || bool_decide (x = st)) n n'.
Proof.
  intros Hact Hi Hk Hsw HS Hst. destruct (zi_q _ Hi st) as [Hnd Hin].
  destruct (shutdown_loop_ok st (qs n1 st) Hact n1 Hi Hnd) as (n' & -> & Hi' & Hk' & Hw).
  { intros i Hq. by apply Hin in Hq as [_ ?]. }
  exists n'. split_and!; eauto using zkept_trans. intros j z Hz.
  destruct (Hsw j z Hz) as (z1 & Hz1 & Hr1). destruct (Hw j z1 Hz1) as (z2 & Hz2 & Hr2).
  exists z2. split; [done|].
  assert (Hj : j ∈ qs n1 st ↔ zns_get_zone_state z1 = st).
  { assert (queued st = true) by (by destruct st). rewrite Hin. unfold state_of. rewrite Hz1. simpl. naive_solver. }
  rewrite (bool_decide_ext _ _ Hj) in Hr2.
  destruct (S (zns_get_zone_state z)) eqn:ES; cbn [orb].
  - pose proof Hr1 as (E1 & _). rewrite bool_decide_eq_false_2 in Hr2; [by subst z2|].
    intros E. rewrite E1 in E. destruct (keeps z); [|by subst st].
    symmetry in E. by rewrite (Hst E) in ES.
  - subst z1. exact Hr2.
Qed.

(** The shutdown leaves no zone open and keeps what has been written. *)
Lemma shutdown_ok n :
  zinv n →
  ∃ n', zns_ns_shutdown n = Some n' ∧ zinv n' ∧ kept n n' ∧ opens n' = 0 ∧ swept cleared is_active n n'.
Proof.
  intros Hi. unfold zns_ns_shutdown. rewrite (zc_zoned _ (zi_cfg _ Hi)). unfold zns_zoned_ns_shutdown.
  destruct (shutdown_walk (λ _, false) CLOSED n n) as (n1 & E1 & Hi1 & Hk1 & Hs1); auto using zkept_refl.
  { intros j z Hz. by exists z. }
  destruct (shutdown_walk _ IMPLICITLY_OPEN n n1 eq_refl Hi1 Hk1 Hs1) as (n2 & E2 & Hi2 & Hk2 & Hs2); [done..|].
  destruct (shutdown_walk _ EXPLICITLY_OPEN n n2 eq_refl Hi2 Hk2 Hs2) as (n3 & E3 & Hi3 & Hk3 & Hs3); [done..|].
  assert (Hsw : swept cleared is_active n n3).
  { intros j z Hz. destruct (Hs3 j z Hz) as (z' & Hz' & Hr). exists z'. split; [done|].
    by destruct (zns_get_zone_state z). }
  assert (Hnone : ∀ st, is_open st = true → qs n3 st = []).
  { intros st Ho. destruct (qs n3 st) as [|j l] eqn:Eq; [done|].
    assert (Hj : j ∈ qs n3 st) by (rewrite Eq; left). apply (zi_q _ Hi3) in Hj as [_ Hj].
    apply fmap_Some in Hj as (z' & Hz' & ->). pose proof (lookup_lt_Some _ _ _ Hz') as Hlt.
    pose proof (zi_len _ Hi3) as L3. pose proof (zi_len _ Hi) as L. rewrite (kept_num _ _ Hk3) in L3.
    destruct (zone_exists n j Hi) as [z Hz]; [lia|]. destruct (Hsw j z Hz) as (y & Hy & Hr). simplify_eq.
    destruct (is_active (zns_get_zone_state z)) eqn:Ea.
    - destruct Hr as (Hr & _). rewrite Hr in Ho. by destruct (keeps z).
    - subst z'. by destruct (zns_get_zone_state z). }
  assert (Ho : opens n3 = 0).
  { unfold opens. rewrite (Hnone EXPLICITLY_OPEN eq_refl : exp_open_zones n3 = _),
      (Hnone IMPLICITLY_OPEN eq_refl : imp_open_zones n3 = _). done. }
  exists n3. split_and!; try done.
  change ((n ← shutdown_loop (λ n i, release (dequeue n i CLOSED) CLOSED) (qs n CLOSED) n;
           n ← shutdown_loop (λ n i, release (dequeue n i IMPLICITLY_OPEN) IMPLICITLY_OPEN) (qs n IMPLICITLY_OPEN) n;
           n ← shutdown_loop (λ n i, release (dequeue n i EXPLICITLY_OPEN) EXPLICITLY_OPEN) (qs n EXPLICITLY_OPEN) n;
           _ ← ensure (nr_open_zones n =? 0); Some n) = Some n3).
  rewrite E1. cbn [mbind option_bind]. rewrite E2. cbn [mbind option_bind]. rewrite E3.
  cbn [mbind option_bind]. rewrite ensure_bind; [done|]. apply Z.eqb_eq.
  destruct (zi_cnt _ Hi3) as [-> _]. rewrite Ho. by destruct (nz _).
Qed.
