(* ===== verification/ZnsSpec.v ===== *)
(** * An abstract zoned device, and that the controller implements it

    The abstract device is a function that gives each zone the blocks written to
    it.  A write or an append adds blocks at the end of a zone, a reset empties
    it, finishing fills it up, a read returns blocks that have been written.
    [contents] reads this function off the controller, and each command of the
    controller is a step of the abstract device. *)

From S2P Require Import Prelude Zns ZnsInv ZnsIo ZnsMgmt.

Implicit Types (n : FemuCtrl) (i j : nat) (z : NvmeZone) (st : NvmeZoneState) (req : NvmeRequest) (e : env).

(** ** The abstract device *)

Definition device : Type := nat → list Z.

(** The zone an action on [slba], or on all zones, is applied to. *)
Definition selected (zsize : Z) req i : bool :=
  has (cdw13 (rcmd req)) 0x100 || (Z.of_nat i * zsize =? rw_slba (rcmd req)).

(** What a management action makes of the blocks [b] of a zone it is applied to:
    finishing adds arbitrary blocks up to the capacity, but finishing all zones
    passes over empty ones. *)
Definition managed (cap : Z) req (b b' : list Z) : Prop :=
  let a := Z.land (cdw13 (rcmd req)) 0xff in
  if a =? NVME_ZONE_ACTION_RESET then b' = []
  else if a =? NVME_ZONE_ACTION_FINISH then
    b `prefix_of` b' ∧ (Z.of_nat (length b') = cap ∨ has (cdw13 (rcmd req)) 0x100 = true ∧ b = [] ∧ b' = [])
  else b' = b.

(** The device with the blocks of [b] added to zone [i]. *)
Definition extended (σ σ' : device) i (b : list Z) : Prop :=
  ∀ j, σ' j = if decide (j = i) then σ i ++ b else σ j.

(** The steps: request and environment, then the request, status and blocks that
    go back to the host. *)
Inductive dev_step (nzones zsize cap : Z) (σ : device) :
    NvmeRequest → env → NvmeRequest → Z → list Z → device → Prop :=
  | dev_refuse req e req' s out σ' :
      nz s = true → (∀ i, σ' i = σ i) → dev_step nzones zsize cap σ req e req' s out σ'
  | dev_read req e req' out σ' :
      opcode (rcmd req) = NVME_CMD_READ → (∀ i, σ' i = σ i) →
      Z.of_nat (length out) = rw_nlb (rcmd req) →
      (∀ k i o, rw_slba (rcmd req) + Z.of_nat k = Z.of_nat i * zsize + Z.of_nat o → (k < length out)%nat →
        (o < length (σ i))%nat → out !! k = σ i !! o) →
      dev_step nzones zsize cap σ req e req' NVME_SUCCESS out σ'
  | dev_write req e req' out i σ' :
      opcode (rcmd req) = NVME_CMD_WRITE → Z.of_nat i < nzones →
      rw_slba (rcmd req) = Z.of_nat i * zsize + Z.of_nat (length (σ i)) →
      Z.of_nat (length (σ i)) + rw_nlb (rcmd req) ≤ cap →
      extended σ σ' i (guest_blocks e (rw_nlb (rcmd req))) →
      dev_step nzones zsize cap σ req e req' NVME_SUCCESS out σ'
  | dev_append req e req' out i σ' :
      opcode (rcmd req) = NVME_CMD_ZONE_APPEND → Z.of_nat i < nzones →
      rw_slba (rcmd req) = Z.of_nat i * zsize →
      res_slba req' = Z.of_nat i * zsize + Z.of_nat (length (σ i)) →
      Z.of_nat (length (σ i)) + rw_nlb (rcmd req) ≤ cap →
      extended σ σ' i (guest_blocks e (rw_nlb (rcmd req))) →
      dev_step nzones zsize cap σ req e req' NVME_SUCCESS out σ'
  | dev_manage req e req' s out σ' :
      opcode (rcmd req) = NVME_CMD_ZONE_MGMT_SEND →
      (∀ i, Z.of_nat i < nzones →
        if selected zsize req i then managed cap req (σ i) (σ' i) else σ' i = σ i) →
      (∀ i, nzones ≤ Z.of_nat i → σ' i = []) →
      dev_step nzones zsize cap σ req e req' s out σ'
  | dev_report req e req' s out σ' :
      opcode (rcmd req) = NVME_CMD_ZONE_MGMT_RECV → (∀ i, σ' i = σ i) →
      dev_step nzones zsize cap σ req e req' s out σ'.

(** ** The blocks of a zone *)

Definition slice (l : list Z) (off len : Z) : list Z := take (Z.to_nat len) (drop (Z.to_nat off) l).

Definition contents n : device := λ i,
  match zone_at n i with
  | Some z => slice (mbe n) (zslba (d z)) (d_wp (d z) - zslba (d z))
  | None => []
  end.

(** Every zone takes part in the state machine and no write is half done. *)
Definition clean n : Prop := ∀ i z, zone_at n i = Some z → w_ptr z = d_wp (d z) ∧ live z = true.

Lemma slice_lookup l off len (k : nat) :
  0 ≤ off → Z.of_nat k < len → slice l off len !! k = l !! (Z.to_nat off + k)%nat.
Proof. intros H0 Hk. unfold slice. rewrite lookup_take_lt by lia. apply lookup_drop. Qed.

Lemma slice_length l off len :
  0 ≤ off → 0 ≤ len → off + len ≤ Z.of_nat (length l) → Z.of_nat (length (slice l off len)) = len.
Proof. intros. unfold slice. rewrite length_take, length_drop. lia. Qed.

Lemma slice_nil l off : slice l off 0 = [].
Proof. done. Qed.

Lemma slice_prefix l off len len' : len ≤ len' → slice l off len `prefix_of` slice l off len'.
Proof.
  intros H. unfold slice. exists (drop (Z.to_nat len) (take (Z.to_nat len') (drop (Z.to_nat off) l))).
  rewrite <- (take_drop (Z.to_nat len) (take (Z.to_nat len') _)) at 1. f_equal.
  rewrite take_take. f_equal. lia.
Qed.

Lemma write_blocks_lookup l off b l' (k : nat) :
  write_blocks l off b = Some l' →
  l' !! k = if decide (Z.to_nat off ≤ k < Z.to_nat off + length b)%nat then b !! (k - Z.to_nat off)%nat else l !! k.
Proof.
  unfold write_blocks. intros (u & Hu & [= <-])%bind_Some. apply ensure_Some in Hu as [Hu _].
  apply andb_true_iff in Hu as [H0%Z.leb_le H1%Z.leb_le].
  destruct (decide (k < Z.to_nat off)%nat) as [Hlt|Hge].
  { rewrite lookup_app_l by (rewrite length_take; lia). rewrite lookup_take_lt by lia.
    by rewrite decide_False by lia. }
  rewrite lookup_app_r by (rewrite length_take; lia). rewrite length_take, Nat.min_l by lia.
  case_decide as E.
  - by rewrite lookup_app_l by lia.
  - rewrite lookup_app_r by lia. rewrite lookup_drop. f_equal. lia.
Qed.

Lemma slice_write_apart l off b l' a len :
  write_blocks l off b = Some l' → 0 ≤ a → 0 ≤ off →
  a + len ≤ off ∨ off + Z.of_nat (length b) ≤ a → slice l' a len = slice l a len.
Proof.
  intros Hw Ha Ho Hd. apply list_eq. intros k. destruct (decide (Z.of_nat k < len)) as [Hk|Hk].
  - rewrite !slice_lookup by done. rewrite (write_blocks_lookup _ _ _ _ _ Hw). by rewrite decide_False by lia.
  - unfold slice. rewrite !lookup_take_ge by lia. done.
Qed.

Lemma slice_write_at l off b l' a :
  write_blocks l off b = Some l' → 0 ≤ a ≤ off →
  slice l' a (off - a + Z.of_nat (length b)) = slice l a (off - a) ++ b.
Proof.
  intros Hw Ha. pose proof Hw as Hb. unfold write_blocks in Hb. apply bind_Some in Hb as (u & Hu & _).
  apply ensure_Some in Hu as [Hu _]. apply andb_true_iff in Hu as [_ H1%Z.leb_le].
  pose proof (slice_length l a (off - a)) as Hlen.
  apply list_eq. intros k. destruct (decide (Z.of_nat k < off - a + Z.of_nat (length b))) as [Hk|Hk].
  - rewrite slice_lookup by lia. rewrite (write_blocks_lookup _ _ _ _ _ Hw).
    destruct (decide (Z.of_nat k < off - a)) as [Hk'|Hk'].
    + rewrite decide_False by lia. rewrite lookup_app_l by lia. by rewrite slice_lookup by lia.
    + rewrite decide_True by lia. rewrite lookup_app_r by lia. f_equal. lia.
  - rewrite lookup_ge_None_2 by (unfold slice; rewrite length_take; lia).
    symmetry. apply lookup_ge_None_2. rewrite length_app. lia.
Qed.

Section device.
Context (n : FemuCtrl).
Hypothesis Hi : zinv n.

Lemma contents_at i z :
  zone_at n i = Some z → contents n i = slice (mbe n) (zslba (d z)) (d_wp (d z) - zslba (d z)).
Proof using. intros Hz. unfold contents. by rewrite Hz. Qed.

(** A zone lies inside the memory of the backend. *)
Lemma zone_inside i z :
  zone_at n i = Some z →
  0 ≤ zslba (d z) ∧ zslba (d z) = Z.of_nat i * zone_size n ∧ zslba (d z) ≤ d_wp (d z) ≤ w_ptr z
  ∧ w_ptr z ≤ zslba (d z) + zcap (d z) ∧ zcap (d z) = zone_capacity n ∧ zone_capacity n ≤ zone_size n
  ∧ zslba (d z) + zone_size n ≤ Z.of_nat (length (mbe n)).
Proof using Hi.
  intros Hz. pose proof (zone_range n Hi i z Hz). destruct (zi_zone _ Hi i z Hz), (zi_cfg _ Hi).
  rewrite (zi_mbe _ Hi). lia.
Qed.

Lemma contents_length i z :
  zone_at n i = Some z → Z.of_nat (length (contents n i)) = d_wp (d z) - zslba (d z).
Proof using Hi.
  intros Hz. destruct (zone_inside i z Hz) as (? & ? & ? & ? & ? & ? & ?).
  rewrite (contents_at i z Hz). apply slice_length; lia.
Qed.

Lemma contents_lookup i o x :
  contents n i !! o = Some x → mbe n !! (Z.to_nat (Z.of_nat i * zone_size n) + o)%nat = Some x.
Proof using Hi.
  unfold contents. destruct (zone_at n i) as [z|] eqn:Hz; [|done].
  destruct (zone_inside i z Hz) as (? & Es & ? & ? & ? & ? & ?). intros Hx.
  apply lookup_lt_Some in Hx as Hlt. unfold slice in Hlt. rewrite length_take in Hlt.
  rewrite slice_lookup in Hx by lia. by rewrite <- Es.
Qed.
End device.

(** Zones do not move. *)
Lemma zone_both n n' j :
  zinv n → zinv n' → static n' = static n →
  match zone_at n j, zone_at n' j with
  | Some y, Some y' => zslba (d y') = zslba (d y)
  | None, None => True
  | _, _ => False
  end.
Proof.
  intros Hi Hi' Es. pose proof (zi_len _ Hi). pose proof (zi_len _ Hi').
  assert (En : num_zones n' = num_zones n) by (exact (f_equal num_zones Es)).
  assert (Ez : zone_size n' = zone_size n) by (exact (f_equal zone_size Es)).
  destruct (zone_at n j) as [y|] eqn:Hy, (zone_at n' j) as [y'|] eqn:Hy'; [|exfalso..|done].
  - by rewrite (zo_slba _ _ _ (zi_zone _ Hi j y Hy)), (zo_slba _ _ _ (zi_zone _ Hi' j y' Hy')), Ez.
  - apply lookup_lt_Some in Hy. apply lookup_ge_None in Hy'. lia.
  - apply lookup_lt_Some in Hy'. apply lookup_ge_None in Hy. lia.
Qed.

(** A zone whose pointer and blocks are as before. *)
Lemma contents_frame n n' j :
  zinv n → zinv n' → static n' = static n →
  (∀ y y', zone_at n j = Some y → zone_at n' j = Some y' → d_wp (d y') = d_wp (d y)
    ∧ slice (mbe n') (zslba (d y)) (d_wp (d y) - zslba (d y)) = slice (mbe n) (zslba (d y)) (d_wp (d y) - zslba (d y))) →
  contents n' j = contents n j.
Proof.
  intros Hi Hi' Es H. pose proof (zone_both n n' j Hi Hi' Es) as Hb. unfold contents.
  destruct (zone_at n j) as [y|], (zone_at n' j) as [y'|]; try done.
  destruct (H y y' eq_refl eq_refl) as [Hd Hs]. by rewrite Hb, Hd.
Qed.

Lemma same_ptrs_contents n n' :
  zinv n → zinv n' → static n' = static n → mbe n' = mbe n → same_ptrs n n' → ∀ j, contents n' j = contents n j.
Proof.
  intros Hi Hi' Es Em Hp j. apply contents_frame; [done..|]. intros y y' Hy Hy'. rewrite Em.
  destruct (Hp j y Hy) as (y2 & Hy2 & _ & Hd & _). by simplify_eq.
Qed.

Lemma same_ptrs_clean n n' : zinv n → zinv n' → static n' = static n → same_ptrs n n' → clean n → clean n'.
Proof.
  intros Hi Hi' Es Hp Hc j y' Hy'. pose proof (zone_both n n' j Hi Hi' Es) as Hb. rewrite Hy' in Hb.
  destruct (zone_at n j) as [y|] eqn:Hy; [|done].
  destruct (Hp j y Hy) as (y2 & Hy2 & Hw & Hd & Hst). simplify_eq. destruct (Hc j y Hy) as [Hwd Hl].
  split; [congruence|]. unfold live in *. destruct Hst as [->|[_ ->]]; done.
Qed.

(** A write that is accepted leaves no write half done. *)
Lemma accepted_clean n n' req e i z w :
  zinv n → zinv n' → static n' = static n → clean n → accepted n n' req e i z w → clean n'.
Proof.
  intros Hi Hi' Es Hc [Hz Hfit Hdata (n1 & Hp & Hz1 & [_ Es1 _ (z' & Hz' & Hw & Hd & Hs & Hcp & Hst) Hoth])] j y' Hy'.
  destruct (Hc i z Hz) as [Hwd Hl]. destruct (decide (j = i)) as [->|Hne].
  { simplify_eq. split; [lia|]. unfold live in *. rewrite Hst. repeat case_match; try done. }
  pose proof (zone_both n n' j Hi Hi' Es) as Hb. rewrite Hy' in Hb. destruct (zone_at n j) as [y|] eqn:Hy; [|done].
  destruct (Hp j y Hy) as (y1 & Hy1 & Hw1 & Hd1 & Hs1). rewrite Hoth in Hy' by done. simplify_eq.
  destruct (Hc j y Hy) as [Hwd' Hl']. split; [congruence|]. unfold live in *. by destruct Hs1 as [->|[_ ->]].
Qed.

(** It adds its blocks to its zone and to no other. *)
Lemma accepted_extends n n' req e i z (nlb := rw_nlb (rcmd req)) :
  zinv n → zinv n' → static n' = static n → clean n → accepted n n' req e i z true →
  Z.of_nat i < num_zones n ∧ w_ptr z = Z.of_nat i * zone_size n + Z.of_nat (length (contents n i))
  ∧ Z.of_nat (length (contents n i)) + nlb ≤ zone_capacity n
  ∧ extended (contents n) (contents n') i (guest_blocks e nlb).
Proof.
  intros Hi Hi' Es Hc [Hz Hfit Hdata (n1 & Hp & Hz1 & [_ Es1 _ (z' & Hz' & Hw & Hd & Hs & Hcp & Hst) Hoth])].
  fold nlb in Hfit, Hdata, Hw, Hd. pose proof (rw_nlb_range (rcmd req)) as Hn. fold nlb in Hn.
  destruct (zone_inside n Hi i z Hz) as (H0 & Esl & H1 & H2 & H3 & H4 & H5). destruct (Hc i z Hz) as [Hwd Hl].
  pose proof (guest_blocks_length e nlb ltac:(lia)) as Hgl.
  pose proof (contents_length n Hi i z Hz) as Hlen.
  split_and!; [apply lookup_lt_Some in Hz; pose proof (zi_len _ Hi); lia|lia|lia|].
  intros j. destruct (decide (j = i)) as [->|Hne].
  - rewrite (contents_at n' i z' Hz'), (contents_at n i z Hz), Hd, Hs.
    replace (d_wp (d z) + nlb - zslba (d z)) with (w_ptr z - zslba (d z) + Z.of_nat (length (guest_blocks e nlb))) by lia.
    rewrite (slice_write_at _ _ _ _ _ Hdata) by lia. by rewrite Hwd.
  - apply contents_frame; [done..|]. intros y y' Hy Hy'.
    destruct (Hp j y Hy) as (y1 & Hy1 & _ & Hd1 & _). rewrite Hoth in Hy' by done. simplify_eq. split; [done|].
    destruct (zone_inside n Hi j y Hy) as (J0 & Jsl & J1 & J2 & J3 & J4 & J5).
    apply (slice_write_apart _ _ _ _ _ _ Hdata); [lia..|]. pose proof (zc_zsize _ (zi_cfg _ Hi)).
    assert (Z.of_nat j + 1 ≤ Z.of_nat i ∨ Z.of_nat i + 1 ≤ Z.of_nat j) as [Hji|Hij] by lia; nia.
Qed.

(** A management action on the blocks of one zone. *)
Lemma moved_contents n n' req i z z' (a := Z.land (cdw13 (rcmd req)) 0xff) (all := has (cdw13 (rcmd req)) 0x100) :
  zinv n → zinv n' → static n' = static n → mbe n' = mbe n → clean n →
  zone_at n i = Some z → zone_at n' i = Some z' →
  (w_ptr z', d_wp (d z')) = match mgmt_ptr a all z with Some p => (p, p) | None => (w_ptr z, d_wp (d z)) end →
  managed (zone_capacity n) req (contents n i) (contents n' i).
Proof.
  intros Hi Hi' Es Em Hc Hz Hz' Hp. pose proof (zi_zone _ Hi i z Hz) as Hok. destruct (Hc i z Hz) as [_ Hl].
  pose proof (zone_both n n' i Hi Hi' Es) as Hb. rewrite Hz, Hz' in Hb.
  destruct (zone_inside n Hi i z Hz) as (H0 & _ & H1 & H2 & H3 & H4 & H5).
  rewrite (contents_at n i z Hz), (contents_at n' i z' Hz'), Em, Hb.
  unfold managed. fold a all. unfold mgmt_ptr in Hp. destruct (Z.eqb_spec a NVME_ZONE_ACTION_RESET) as [Ea|Ea].
  - rewrite Ea in Hp. simpl in Hp. destruct (is_active _ || _) eqn:Est; injection Hp as _ ->.
    + rewrite Z.sub_diag. apply slice_nil.
    + assert (He : zns_get_zone_state z = EMPTY).
      { pose proof (zo_state _ _ _ Hok). unfold live in Hl. by destruct (zns_get_zone_state z). }
      destruct (zo_empty _ _ _ Hok He) as [-> _]. rewrite Z.sub_diag. apply slice_nil.
  - destruct (Z.eqb_spec a NVME_ZONE_ACTION_FINISH) as [Ef|Ef].
    + destruct (is_active _ || _) eqn:Est; injection Hp as _ ->.
      * split; [apply slice_prefix; lia|]. left. rewrite slice_length; lia.
      * split; [done|]. destruct (decide (zns_get_zone_state z = EMPTY)) as [He|He].
        -- right. rewrite He in Est. simpl in Est. destruct (zo_empty _ _ _ Hok He) as [-> _].
           rewrite Z.sub_diag. split_and!; [by destruct all|apply slice_nil..].
        -- left. assert (Hf : zns_get_zone_state z = FULL).
           { pose proof (zo_state _ _ _ Hok). unfold live in Hl. by destruct (zns_get_zone_state z). }
           rewrite (zo_full _ _ _ Hok Hf). rewrite slice_length; lia.
    + by injection Hp as _ ->.
Qed.

Lemma mgmt_clean n req n' : zinv n → clean n → mgmt_outcome n req n' → clean n'.
Proof.
  intros Hi Hc (Hi' & Es & _ & Hm) j y' Hy'. pose proof (zone_both n n' j Hi Hi' Es) as Hb. rewrite Hy' in Hb.
  destruct (zone_at n j) as [y|] eqn:Hy; [|done]. destruct (Hm j y Hy) as (y2 & Hy2 & Hl & Hp). simplify_eq.
  destruct (Hc j y Hy) as [Hw Hly]. split; [|auto]. destruct (if _ : bool then _ else _); injection Hp as -> ->; done.
Qed.

Lemma mgmt_contents n req n' :
  zinv n → clean n → mgmt_outcome n req n' →
  (∀ i, Z.of_nat i < num_zones n → if selected (zone_size n) req i
     then managed (zone_capacity n) req (contents n i) (contents n' i) else contents n' i = contents n i)
  ∧ (∀ i, num_zones n ≤ Z.of_nat i → contents n' i = []).
Proof.
  intros Hi Hc (Hi' & Es & Em & Hm). assert (En : num_zones n' = num_zones n) by (exact (f_equal num_zones Es)). split.
  - intros i Hlt. destruct (zone_exists n i Hi Hlt) as [z Hz]. destruct (Hm i z Hz) as (z' & Hz' & _ & Hp).
    unfold selected. rewrite <- (zo_slba _ _ _ (zi_zone _ Hi i z Hz)). destruct (_ || _).
    + by eapply moved_contents.
    + injection Hp as _ Hd. apply contents_frame; [done..|]. intros y y' Hy Hy'. simplify_eq. by rewrite Em.
  - intros i Hge. unfold contents. destruct (zone_at n' i) as [z|] eqn:Hz; [|done].
    apply lookup_lt_Some in Hz. pose proof (zi_len _ Hi'). lia.
Qed.

(** ** Commands *)

(** What a command must be: its dwords are 32-bit values, an extension has the
    size of one, and an append fits into its zone. *)
Record guarded n req e : Prop := {
  gd_cmd : cmd_ok (rcmd req);
  gd_ext : ext_ok n e;
  gd_append : opcode (rcmd req) = NVME_CMD_ZONE_APPEND → append_fits n req
}.

(** The namespace is a whole number of zones. *)
Definition whole n : Prop := zns_ns_nlbas n = nsze (ns n).

(** One lemma per command, with what the command leaves behind. *)
Inductive cmd_outcome n req e : io_result → Prop :=
  | co_read r : opcode (rcmd req) = NVME_CMD_READ → read_outcome n req r → cmd_outcome n req e r
  | co_write r : opcode (rcmd req) = NVME_CMD_WRITE → write_outcome n req e r → cmd_outcome n req e r
  | co_send n' s : opcode (rcmd req) = NVME_CMD_ZONE_MGMT_SEND → mgmt_outcome n req n' →
      cmd_outcome n req e (n', req, s, [])
  | co_recv s : opcode (rcmd req) = NVME_CMD_ZONE_MGMT_RECV → cmd_outcome n req e (n, req, s, [])
  | co_append r : opcode (rcmd req) = NVME_CMD_ZONE_APPEND → append_outcome n req e r → cmd_outcome n req e r
  | co_other s : nz s = true → cmd_outcome n req e (n, req, s, []).

Lemma io_cmd_ok n req e :
  zinv n → whole n → guarded n req e → ∃ r, zns_io_cmd n req e = Some r ∧ cmd_outcome n req e r.
Proof.
  intros Hi Hw [Hc He Ha]. unfold zns_io_cmd.
  destruct (Z.eqb_spec (opcode (rcmd req)) NVME_CMD_READ) as [E|_].
  { destruct (zns_read_ok n req e Hi Hc) as (r & -> & Hr). exists r. split; [done|]. by apply co_read. }
  destruct (Z.eqb_spec (opcode (rcmd req)) NVME_CMD_WRITE) as [E|_].
  { destruct (zns_write_ok n req e Hi Hc) as (r & -> & Hr). exists r. split; [done|]. by apply co_write. }
  destruct (Z.eqb_spec (opcode (rcmd req)) NVME_CMD_ZONE_MGMT_SEND) as [E|_].
  { destruct (mgmt_send_ok n req e Hi Hc He) as (n' & s & -> & Hr). eexists. split; [done|]. by apply co_send. }
  destruct (Z.eqb_spec (opcode (rcmd req)) NVME_CMD_ZONE_MGMT_RECV) as [E|_].
  { destruct (mgmt_recv_ok n req e Hi Hc Hw) as ([s o] & -> & Hr). eexists. split; [done|]. by apply co_recv. }
  destruct (Z.eqb_spec (opcode (rcmd req)) NVME_CMD_ZONE_APPEND) as [E|_].
  { destruct (zns_append_ok n req e Hi Hc (Ha E)) as (r & -> & Hr). exists r. split; [done|]. by apply co_append. }
  eexists. split; [done|]. by apply co_other.
Qed.

Lemma outcome_inv n req e n' req' s out :
  zinv n → cmd_outcome n req e (n', req', s, out) → zinv n' ∧ static n' = static n.
Proof.
  intros Hi Hr. inversion Hr as [r ? H|r ? H|n1 s1 ? H|s1 ?|r ? H|s1 ?]; subst; try done.
  - by destruct H as [-> _].
  - by destruct H as (? & ? & _).
  - by destruct H as (? & ? & _).
  - by destruct H as (? & ? & _).
Qed.

(** Each command is a step of the abstract device. *)
Lemma outcome_step n req e n' req' s out :
  zinv n → clean n → nz (zns_map_dptr req e) = false →
  (opcode (rcmd req) = NVME_CMD_ZONE_APPEND → is_write req = true) →
  cmd_outcome n req e (n', req', s, out) →
  clean n' ∧ dev_step (num_zones n) (zone_size n) (zone_capacity n) (contents n) req e req' s out (contents n').
Proof.
  intros Hi Hc Hmap Ha Hr. destruct (outcome_inv _ _ _ _ _ _ _ Hi Hr) as [Hi' Es].
  assert (Hrej : rejected n n' req e s → clean n' ∧ dev_step (num_zones n) (zone_size n) (zone_capacity n)
      (contents n) req e req' s out (contents n')).
  { intros (Hs & Em & Hp). specialize (Hp Hmap). split; [by apply (same_ptrs_clean n)|].
    apply dev_refuse; [done|]. by apply same_ptrs_contents. }
  inversion Hr as [r Hop H|r Hop H|n1 s1 Hop H|s1 Hop|r Hop H|s1 Hs]; subst.
  - destruct H as [-> [[-> Hrd]|Hs]]; (split; [done|]); [|by apply dev_refuse].
    unfold read_blocks in Hrd. apply bind_Some in Hrd as (u & Hu & [= <-]). apply ensure_Some in Hu as [Hu _].
    apply andb_true_iff in Hu as [U0%Z.leb_le U1%Z.leb_le]. pose proof (rw_nlb_range (rcmd req)).
    apply dev_read; [done|done|rewrite length_take, length_drop; lia|].
    intros k i o Hk Hlt Ho. destruct (lookup_lt_is_Some_2 _ _ Ho) as [x Hx]. rewrite Hx.
    apply (contents_lookup n Hi) in Hx. rewrite length_take in Hlt. rewrite lookup_take_lt by lia.
    rewrite lookup_drop, <- Hx. f_equal. pose proof (zc_zsize _ (zi_cfg _ Hi)). nia.
  - destruct H as (_ & _ & [[-> (i & z & Hp & Hac)]|H]); [|by apply Hrej].
    split; [by eapply (accepted_clean n)|].
    destruct (accepted_extends n n' req e i z Hi Hi' Es Hc Hac) as (H1 & H2 & H3 & H4).
    by apply (dev_write _ _ _ _ _ _ _ _ i); [..|lia|lia|].
  - split; [by eapply (mgmt_clean n)|]. destruct (mgmt_contents _ _ _ Hi Hc H). by apply dev_manage.
  - split; [done|]. by apply dev_report.
  - destruct H as (_ & _ & [[-> (i & z & Hp & Hres & Hac)]|H]); [|by apply Hrej].
    split; [by eapply (accepted_clean n)|]. rewrite (Ha Hop) in Hac.
    destruct (accepted_extends n n' req e i z Hi Hi' Es Hc Hac) as (H1 & H2 & H3 & H4).
    apply (dev_append _ _ _ _ _ _ _ _ i); [done|done| |lia|lia|done].
    rewrite Hp. apply (zo_slba _ _ _ (zi_zone _ Hi i z (ac_zone _ _ _ _ _ _ _ Hac))).
  - split; [done|]. by apply dev_refuse.
Qed.
