(* ===== verification/ZnsThms.v ===== *)
(** * Properties of the zoned-namespace controller

    Each command is a step of the abstract device of [ZnsSpec]; commands never
    trip an assertion and keep the invariant; open and active zones stay within
    their limits; commands that should be served are; management actions follow
    the zone state machine; reports list the zones they are asked for; the
    shutdown keeps what was written.  The last part shows what the code does
    beyond: appends that do not fit, appends with a stale direction, writes whose
    data cannot be mapped, reports on a namespace that is no whole number of
    zones. *)

From S2P Require Import Prelude Zns ZnsInv ZnsIo ZnsMgmt ZnsSpec.

Implicit Types (n : FemuCtrl) (i j : nat) (z : NvmeZone) (st : NvmeZoneState) (req : NvmeRequest) (e : env).

(** ** Reachable states *)

(** The controllers that guarded commands and shutdowns lead to. *)
Inductive reach (n0 : FemuCtrl) : FemuCtrl → Prop :=
  | reach_start : reach n0 n0
  | reach_cmd n req e n' req' s out :
      reach n0 n → guarded n req e → zns_io_cmd n req e = Some (n', req', s, out) → reach n0 n'
  | reach_shutdown n n' : reach n0 n → zns_ns_shutdown n = Some n' → reach n0 n'.

Lemma whole_static n n' : static n' = static n → whole n → whole n'.
Proof.
  intros E H. unfold whole. etransitivity; [exact (f_equal zns_ns_nlbas E)|].
  etransitivity; [exact H|]. symmetry. exact (f_equal (λ m, nsze (ns m)) E).
Qed.

Lemma reach_inv n0 n : zinv n0 → whole n0 → reach n0 n → zinv n ∧ whole n ∧ static n = static n0.
Proof.
  intros Hi Hw. induction 1 as [|n req e n' req' s out _ (Hn & Hwn & Es) Hg E|n n' _ (Hn & Hwn & Es) E]; [done|..].
  - destruct (io_cmd_ok n req e Hn Hwn Hg) as (r & E' & Hr). rewrite E in E'. injection E' as <-.
    destruct (outcome_inv _ _ _ _ _ _ _ Hn Hr) as [Hi' Es']. split_and!; [done|by eapply whole_static|congruence].
  - destruct (shutdown_ok n Hn) as (m & E' & Hi' & (Es' & _) & _). rewrite E in E'. injection E' as <-.
    split_and!; [done|by eapply whole_static|congruence].
Qed.

(** ** A small controller *)

(** Three zones of four blocks, one of which may be open and two active. *)
Definition demo_zone (k : Z) : NvmeZone := fresh_zone 4 (4 * k).
Definition demo : FemuCtrl :=
  {| ns := {| ns_size := 12 * 512; lbads := 9; nsze := 12; npdg := 0; nsfeat := 0 |};
     page_size := 4096; mdts := 0; zasl_bs := 131072; zasl := 5; zoned := true; cross_zone_read := false;
     zone_size_bs := 2048; zone_cap_bs := false; max_active_zones := 2; max_open_zones := 1;
     zd_extension_size := 0; csi := 2; id_ns_zoned := None; zone_array := [demo_zone 0; demo_zone 1; demo_zone 2];
     exp_open_zones := []; imp_open_zones := []; closed_zones := []; full_zones := [];
     num_zones := 3; zone_size := 4; zone_capacity := 4; zone_size_log2 := 2; zd_extensions := [];
     nr_open_zones := 0; nr_active_zones := 0; mbe := replicate 12 0 |}.

Definition demo_cmd (op a b : Z) (dw13 : Z) : NvmeRequest :=
  {| rcmd := {| opcode := op; psdt := 0; cdw10 := a; cdw11 := 0; cdw12 := b; cdw13 := dw13 |};
     is_write := true; res_slba := 0 |}.
Definition demo_env : env := {| map_st := 0; dma_st := 0; host := [7; 8; 9]; ext_after := [] |}.

Lemma demo_inv : zinv demo.
Proof.
  split; try done.
  - split; try done. by right.
  - intros i z Hz. unfold zone_at in Hz. repeat (destruct i as [|i]; [injection Hz as <-; split; try done; by auto|]).
    by destruct i.
  - intros st. split; [destruct st; constructor|]. intros i. split.
    + destruct st; by intros ?%elem_of_nil.
    + intros [Hq Hs]. unfold state_of, zone_at in Hs.
      repeat (destruct i as [|i]; [injection Hs as <-; done|]). by destruct i.
Qed.

Lemma demo_clean : clean demo.
Proof.
  intros i z Hz. unfold zone_at in Hz. repeat (destruct i as [|i]; [by injection Hz as <-|]). by destruct i.
Qed.

Lemma demo_guarded op a b dw13 :
  op ≠ NVME_CMD_ZONE_APPEND → 0 ≤ a < 2 ^ 32 → 0 ≤ b < 2 ^ 32 → 0 ≤ dw13 < 2 ^ 32 →
  guarded demo (demo_cmd op a b dw13) demo_env.
Proof. intros Hop Ha Hb Hd. split; [split; simpl; lia|done|done]. Qed.

(** ** Refinement *)

(** C33: Every command of the controller is a step of the abstract zoned device:
    a write or append that succeeds adds the blocks of the host to the end of its
    zone and to no other, a read returns the written blocks, a reset empties and
    finishing fills the zones it names, and a command that is refused changes
    nothing.  The command must be well formed, its data mapped, an append fit
    its zone and its request be marked as a write. *)
Theorem zns_refines n req e :
  zinv n → clean n → whole n → guarded n req e → nz (zns_map_dptr req e) = false →
  (opcode (rcmd req) = NVME_CMD_ZONE_APPEND → is_write req = true) →
  ∃ n' req' s out, zns_io_cmd n req e = Some (n', req', s, out) ∧ zinv n' ∧ clean n' ∧ whole n'
    ∧ dev_step (num_zones n) (zone_size n) (zone_capacity n) (contents n) req e req' s out (contents n').
Proof.
  intros Hi Hc Hw Hg Hm Ha. destruct (io_cmd_ok n req e Hi Hw Hg) as ([[[n' req'] s] out] & E & Hr).
  exists n', req', s, out. destruct (outcome_inv _ _ _ _ _ _ _ Hi Hr) as [Hi' Es].
  destruct (outcome_step _ _ _ _ _ _ _ Hi Hc Hm Ha Hr) as [Hc' Hstep].
  split_and!; [done..|by eapply whole_static|done].
Qed.

Lemma zns_refines_witness : ∃ n' req' s out,
  zns_io_cmd demo (demo_cmd NVME_CMD_WRITE 4 1 0) demo_env = Some (n', req', s, out)
  ∧ zinv n' ∧ clean n' ∧ whole n'
  ∧ dev_step 3 4 4 (contents demo) (demo_cmd NVME_CMD_WRITE 4 1 0) demo_env req' s out (contents n').
Proof.
  apply (zns_refines demo (demo_cmd NVME_CMD_WRITE 4 1 0) demo_env);
    [exact demo_inv|exact demo_clean|done|by apply demo_guarded|done|done].
Defined.

(** ** Safety *)


(** The demo controller after a write to its second zone. *)
Definition demo_written : FemuCtrl :=
  match zns_io_cmd demo (demo_cmd NVME_CMD_WRITE 4 1 0) demo_env with Some (n, _, _, _) => n | None => demo end.

Lemma demo_reach : reach demo demo_written.
Proof.
  apply (reach_cmd demo demo (demo_cmd NVME_CMD_WRITE 4 1 0) demo_env demo_written
    (demo_cmd NVME_CMD_WRITE 4 1 0 <| res_slba := 4 |>) NVME_SUCCESS []);
    [apply reach_start|by apply demo_guarded|vm_compute; reflexivity].
Qed.


(** ** Limits *)

(** C36: In every reachable state any set of distinct open zones is within the
    limit for open zones and any set of distinct active zones within the limit
    for active zones, where there is a limit. *)
Theorem zns_limits n0 n (l : list nat) (P : NvmeZoneState → bool) (mx : Z) :
  zinv n0 → whole n0 → reach n0 n → NoDup l →
  (∀ i, i ∈ l → ∃ z, zone_at n i = Some z ∧ P (zns_get_zone_state z) = true) →
  (P, mx) = (is_open, max_open_zones n) ∨ (P, mx) = (is_active, max_active_zones n) →
  mx ≠ 0 → Z.of_nat (length l) ≤ mx.
Proof.
  intros Hi Hw Hr Hnd Hl HP Hmx. destruct (reach_inv n0 n Hi Hw Hr) as (Hn & _).
  destruct (zi_lim _ Hn) as [Lo La].
  assert (Hin : ∀ i z, zone_at n i = Some z → ∀ st, zns_get_zone_state z = st → queued st = true → i ∈ qs n st).
  { intros i z Hz st Hst Hq. apply (zi_q _ Hn). split; [done|]. unfold state_of. rewrite Hz. simpl. by rewrite Hst. }
  assert (Hle : ∀ k, (∀ i, i ∈ l → i ∈ k) → (length l <= length k)%nat).
  { intros k Hk. by apply submseteq_length, NoDup_submseteq. }
  destruct HP as [[= -> ->]|[= -> ->]].
  - specialize (Lo Hmx). unfold opens, len in Lo.
    assert (length l <= length (exp_open_zones n ++ imp_open_zones n))%nat; [|rewrite length_app in *; lia].
    apply Hle. intros i (z & Hz & Ho)%Hl. apply elem_of_app.
    destruct (zns_get_zone_state z) eqn:Est; try done; [right|left]; exact (Hin i z Hz _ Est eq_refl).
  - specialize (La Hmx). unfold actives, opens, len in La.
    assert (length l <= length (exp_open_zones n ++ imp_open_zones n ++ closed_zones n))%nat;
      [|rewrite !length_app in *; lia].
    apply Hle. intros i (z & Hz & Ho)%Hl. rewrite !elem_of_app.
    destruct (zns_get_zone_state z) eqn:Est; try done; [right; left|left|right; right]; exact (Hin i z Hz _ Est eq_refl).
Qed.

Lemma zns_limits_witness : Z.of_nat (length [1%nat]) ≤ max_open_zones demo_written.
Proof.
  apply (zns_limits demo demo_written [1%nat] is_open (max_open_zones demo_written) demo_inv); [done|exact demo_reach|by apply NoDup_singleton| |by left|done].
  intros i ->%list_elem_of_singleton. eexists. split; [vm_compute; reflexivity|done].
Defined.

(** ** Commands that must be served *)

(** C35: A write at the write pointer of a writable zone that has room, for which
    the limits leave room and whose data can be mapped, succeeds, and a read of
    the same blocks then returns the data of the write. *)
Theorem zns_write_read n req e i z rd e' (nlb := rw_nlb (rcmd req)) :
  zinv n → cmd_ok (rcmd req) → nz (nvme_check_mdts n (zns_l2b n nlb)) = false →
  zone_at n i = Some z → writable (zns_get_zone_state z) = true → room n (zns_get_zone_state z) →
  rw_slba (rcmd req) = w_ptr z → w_ptr z + nlb ≤ zslba (d z) + zcap (d z) →
  nz (zns_map_dptr req e) = false →
  rw_slba (rcmd rd) = rw_slba (rcmd req) → rw_nlb (rcmd rd) = nlb → nz (zns_map_dptr rd e') = false →
  ∃ n' req' rd', zns_write n req e = Some (n', req', NVME_SUCCESS, [])
    ∧ zns_read n' rd e' = Some (n', rd', NVME_SUCCESS, guest_blocks e nlb).
Proof.
  intros Hi Hc Hmd Hz Hw Hroom Hs Hle Hmap Hs2 Hn2 Hmap2.
  destruct (zns_write_succeeds n req e i z Hi Hc Hmd Hz Hw Hroom Hs Hle Hmap) as (n' & req' & E & Hwb). fold nlb in Hwb.
  destruct (zns_write_ok n req e Hi Hc) as (r & E' & Ho). rewrite E in E'. injection E' as <-.
  destruct Ho as (Hi' & Es & [(_ & j & y & Hy & [Hj Hjf _ (n1 & _ & Hj1 & [_ _ _ (z' & Hz' & _ & _ & S' & _ & T') _])])|[Hbad _]]); [|done].
  pose proof (zone_range n Hi i z Hz) as Hr. pose proof (zi_zone _ Hi i z Hz) as Hok. pose proof (zi_cfg _ Hi) as Hcfg.
  pose proof (rw_nlb_range (rcmd req)) as Hnr. fold nlb in Hnr.
  assert (Hsz : zone_size n' = zone_size n) by (exact (f_equal zone_size Es)).
  assert (Hji : j = i).
  { apply (inj Some). rewrite <- (zone_of_ptr n i z (w_ptr z) Hi Hz) by (destruct Hok, Hcfg; lia).
    symmetry. rewrite <- Hs, Hy. apply (zone_of_ptr n j y); [done..|]. fold nlb in Hjf.
    destruct (zi_zone _ Hi j y Hj), Hcfg. lia. }
  subst j. rewrite Hz in Hj. injection Hj as <-.
  destruct (zns_read_succeeds n' rd e' i z' Hi') as (rd' & out & Er & Hrd).
  - rewrite Hn2. etransitivity; [|exact Hmd]. exact (f_equal (λ m, nz (nvme_check_mdts m (zns_l2b m nlb))) Es).
  - done.
  - rewrite T'. repeat case_match; try done; destruct (zns_get_zone_state z); done.
  - rewrite S', Hs2, Hs. destruct Hok. lia.
  - rewrite S', Hs2, Hs, Hn2, Hsz. destruct Hok, Hcfg. lia.
  - done.
  - exists n', req', rd'. split; [done|]. rewrite Er. do 2 f_equal.
    rewrite Hs2, Hs, Hn2 in Hrd. destruct (write_blocks_ok (mbe n) (w_ptr z) (guest_blocks e nlb)) as (l' & El & _ & Hback & _).
    + destruct Hok. lia.
    + rewrite guest_blocks_length by lia. rewrite (zi_mbe _ Hi). destruct Hok, Hcfg. lia.
    + rewrite El in Hwb. injection Hwb as ->. rewrite guest_blocks_length in Hback by lia. congruence.
Qed.

Lemma zns_write_read_witness : ∃ n' req' rd',
  zns_write demo (demo_cmd NVME_CMD_WRITE 4 1 0) demo_env = Some (n', req', NVME_SUCCESS, [])
  ∧ zns_read n' (demo_cmd NVME_CMD_READ 4 1 0) demo_env = Some (n', rd', NVME_SUCCESS, [7; 8]).
Proof.
  apply (zns_write_read demo (demo_cmd NVME_CMD_WRITE 4 1 0) demo_env 1 (demo_zone 1) (demo_cmd NVME_CMD_READ 4 1 0) demo_env);
    [exact demo_inv|split; simpl; lia|done|done|done|split; intros _; vm_compute; discriminate|done|done|done|done|done|done].
Defined.

(** ** Zone management *)

(** The state machine of a zone: the state an action leads to. *)
Definition action_target (a : Z) st : option NvmeZoneState :=
  if a =? NVME_ZONE_ACTION_OPEN then
    match st with EMPTY | IMPLICITLY_OPEN | EXPLICITLY_OPEN | CLOSED => Some EXPLICITLY_OPEN | _ => None end
  else if a =? NVME_ZONE_ACTION_CLOSE then
    match st with IMPLICITLY_OPEN | EXPLICITLY_OPEN | CLOSED => Some CLOSED | _ => None end
  else if a =? NVME_ZONE_ACTION_FINISH then
    match st with EMPTY | IMPLICITLY_OPEN | EXPLICITLY_OPEN | CLOSED | FULL => Some FULL | _ => None end
  else if a =? NVME_ZONE_ACTION_RESET then
    match st with EMPTY | IMPLICITLY_OPEN | EXPLICITLY_OPEN | CLOSED | FULL => Some EMPTY | _ => None end
  else if a =? NVME_ZONE_ACTION_OFFLINE then
    match st with READ_ONLY | OFFLINE => Some OFFLINE | _ => None end
  else None.

(** Zone [i] is in state [st] and the other zones are untouched. *)
Definition put_in n n' i st : Prop :=
  state_of n' i = Some st ∧ ∀ j, j ≠ i → zone_at n' j = zone_at n j.

Lemma moved_put n n' i z st : moved_to n n' i z st → put_in n n' i st.
Proof.
  intros Hm. destruct (mv_zone _ _ _ _ _ Hm) as (z' & Hst & _ & _ & _ & _ & Hat). split.
  - unfold state_of. rewrite Hat, decide_True by done. simpl. by rewrite Hst.
  - intros j Hj. by rewrite Hat, decide_False.
Qed.

Lemma still_put n i z : zone_at n i = Some z → put_in n n i (zns_get_zone_state z).
Proof. intros Hz. split; [|done]. unfold state_of. by rewrite Hz. Qed.

(** The effect [H] of a handler of an action. *)
Definition action_effect (a : Z) n n' i st (s : Z) : Prop :=
  match action_target a st with
  | Some st' => s = NVME_SUCCESS ∧ put_in n n' i st'
      ∨ a = NVME_ZONE_ACTION_OPEN ∧ nz s = true ∧ n' = n
        ∧ ¬ limits n (opens n + 1) (actives n - b2z (is_active st) + 1)
  | None => n' = n ∧ s = NVME_ZONE_INVAL_TRANSITION
  end.

Lemma handler_effects n i z (st := zns_get_zone_state z) :
  zinv n → zone_at n i = Some z →
  (∃ n' s, zns_open_zone n i st = Some (n', s) ∧ zinv n' ∧ action_effect NVME_ZONE_ACTION_OPEN n n' i st s)
  ∧ (∃ n' s, zns_close_zone n i st = Some (n', s) ∧ zinv n' ∧ action_effect NVME_ZONE_ACTION_CLOSE n n' i st s)
  ∧ (∃ n' s, zns_finish_zone n i st = Some (n', s) ∧ zinv n' ∧ action_effect NVME_ZONE_ACTION_FINISH n n' i st s)
  ∧ (∃ n' s, zns_reset_zone n i st = Some (n', s) ∧ zinv n' ∧ action_effect NVME_ZONE_ACTION_RESET n n' i st s)
  ∧ (∃ n' s, zns_offline_zone n i st = Some (n', s) ∧ zinv n' ∧ action_effect NVME_ZONE_ACTION_OFFLINE n n' i st s).
Proof.
  intros Hi Hz. pose proof (still_put n i z Hz) as Hstill. fold st in Hstill. unfold action_effect. split_and!.
  - destruct (open_ok n i z Hi Hz) as (n' & s & E & Hi' & H). fold st in E, H. exists n', s. split_and!; [done..|].
    destruct st; simpl in *; destruct_and?; destruct_or?; destruct_and?; subst; auto; left; split; eauto using moved_put.
  - destruct (close_ok n i z Hi Hz) as (n' & s & E & Hi' & H). fold st in E, H. exists n', s. split_and!; [done..|].
    destruct st; simpl in *; destruct_and?; subst; auto; left; split; eauto using moved_put.
  - destruct (finish_ok n i z Hi Hz) as (n' & s & E & Hi' & H). fold st in E, H. exists n', s. split_and!; [done..|].
    destruct st; simpl in *; destruct_and?; subst; auto; left; split; eauto using moved_put.
  - destruct (reset_ok n i z Hi Hz) as (n' & s & E & Hi' & H). fold st in E, H. exists n', s. split_and!; [done..|].
    destruct st; simpl in *; destruct_and?; subst; auto; left; split; eauto using moved_put.
  - destruct (offline_ok n i z Hi Hz) as (n' & s & E & Hi' & H). fold st in E, H. exists n', s. split_and!; [done..|].
    destruct st; simpl in *; destruct_and?; subst; auto; left; split; eauto using moved_put.
Qed.

(** C37: An open, close, finish, reset or offline action on one zone follows the
    zone state machine: from a state the action allows it succeeds and puts that
    zone, and no other, into the target state, except that opening is refused
    without any change when it would exceed a limit; from any other state nothing
    changes and the status says so, except that a reset reports success. *)
Theorem zns_zone_action n req e (a := Z.land (cdw13 (rcmd req)) 0xff) i z (st := zns_get_zone_state z) :
  zinv n → cmd_ok (rcmd req) → ext_ok n e → has (cdw13 (rcmd req)) 0x100 = false →
  1 ≤ a ≤ 5 → zone_at n i = Some z → rw_slba (rcmd req) = zslba (d z) →
  ∃ n' s, zns_zone_mgmt_send n req e
      = Some (n', if a =? NVME_ZONE_ACTION_RESET then NVME_SUCCESS else with_dnr s)
    ∧ zinv n' ∧ action_effect a n n' i st s.
Proof.
  intros Hi Hc He Hall Ha Hz Hs.
  destruct (send_one n req e Hi Hc Hall) as [(j & y & Hy & Ey & ->)|[Hno _]]; [|by destruct (Hno i z Hz)].
  assert (j = i) as -> by (apply (zslba_inj n i j y z Hi Hz Hy); congruence). simplify_eq. fold a.
  destruct (handler_effects n i z Hi Hz) as (Ho & Hcl & Hf & Hr & Hoff). fold st in Ho, Hcl, Hf, Hr, Hoff.
  assert (Hop : ∀ op, zns_do_zone_op n i NVME_PROC_CURRENT_ZONE op = op n i st).
  { intros op. unfold zns_do_zone_op. change (NVME_PROC_CURRENT_ZONE =? 0) with true. cbn iota. by rewrite Hz. }
  assert (Hcase : a = 1 ∨ a = 2 ∨ a = 3 ∨ a = 4 ∨ a = 5) by lia. unfold send_action. rewrite !Hop.
  destruct Hcase as [Ea|[Ea|[Ea|[Ea|Ea]]]]; rewrite Ea; simpl.
  - destruct Hcl as (n' & s & -> & Hi' & H). by exists n', s.
  - destruct Hf as (n' & s & -> & Hi' & H). by exists n', s.
  - destruct Ho as (n' & s & -> & Hi' & H). by exists n', s.
  - destruct Hr as (n' & s & -> & Hi' & H). by exists n', s.
  - destruct Hoff as (n' & s & -> & Hi' & H). by exists n', s.
Qed.

Lemma zns_zone_action_witness : ∃ n' s,
  zns_zone_mgmt_send demo (demo_cmd NVME_CMD_ZONE_MGMT_SEND 4 0 NVME_ZONE_ACTION_OPEN) demo_env = Some (n', with_dnr s)
  ∧ zinv n' ∧ action_effect NVME_ZONE_ACTION_OPEN demo n' 1 EMPTY s.
Proof.
  apply (zns_zone_action demo (demo_cmd NVME_CMD_ZONE_MGMT_SEND 4 0 NVME_ZONE_ACTION_OPEN) demo_env 1 (demo_zone 1));
    [exact demo_inv|split; simpl; unfold NVME_ZONE_ACTION_OPEN; lia|done..].
Defined.

(** ** Reports *)

(** A report is refused with a status, or lists the zones from the one of its
    address on that match its filter, as many as fit its buffer, in order and
    with their descriptors; the count in its header is that of the matching zones,
    cut off at the number that fits when the report is partial; what it writes
    fits the buffer. *)
Lemma zns_report n req e :
  zinv n → cmd_ok (rcmd req) → whole n →
  ∃ r, zns_zone_mgmt_recv n req e = Some r ∧ report_outcome n req e r.
Proof. apply mgmt_recv_ok. Qed.

(** ** Set-up and shutdown *)

(** C38: The set-up of the default configuration establishes the invariant, with
    every zone empty; and the shutdown of any controller that satisfies the
    invariant succeeds, keeps it and all blocks, leaves no zone open, and turns
    the active zones into closed ones, or empty ones when nothing was written,
    with what has been written kept. *)
Theorem zns_lifecycle n m :
  fresh n → zinv m →
  zinv (zns_init n) ∧ mbe (zns_init n) = mbe n
  ∧ (∀ i z, zone_at (zns_init n) i = Some z → zns_get_zone_state z = EMPTY ∧ w_ptr z = zslba (d z))
  ∧ ∃ m', zns_ns_shutdown m = Some m' ∧ zinv m' ∧ mbe m' = mbe m ∧ opens m' = 0 ∧ swept cleared is_active m m'.
Proof.
  intros Hf Hm. destruct (initial_empty _ _ _ _ (init_initial n Hf)) as [Hmb He].
  split; [exact (proj1 (zns_init_ok n Hf))|]. split; [exact Hmb|]. split; [exact He|].
  destruct (shutdown_ok m Hm) as (m' & E & Hi' & (_ & M & _) & Ho & Hsw). by exists m'.
Qed.

(** A namespace of three zones of one block each. *)
Definition demo_fresh : FemuCtrl :=
  demo <| ns := {| ns_size := 3 * 2 ^ 27; lbads := 27; nsze := 0; npdg := 0; nsfeat := 0 |} |> <| mbe := [0; 0; 0] |>.

Lemma zns_lifecycle_witness :
  zinv (zns_init demo_fresh) ∧ mbe (zns_init demo_fresh) = [0; 0; 0]
  ∧ (∀ i z, zone_at (zns_init demo_fresh) i = Some z → zns_get_zone_state z = EMPTY ∧ w_ptr z = zslba (d z))
  ∧ ∃ m', zns_ns_shutdown demo = Some m' ∧ zinv m' ∧ mbe m' = mbe demo ∧ opens m' = 0 ∧ swept cleared is_active demo m'.
Proof. apply (zns_lifecycle demo_fresh demo); [split; done|exact demo_inv]. Defined.

(** ** Where the code goes wrong *)

(** An append of three blocks to the second zone, which holds two of four. *)
Definition demo_append : NvmeRequest := demo_cmd NVME_CMD_ZONE_APPEND 4 2 0.

(** An append is checked against the space of an empty zone: an append of
    three blocks to a zone of four that already holds two succeeds, writes into
    the first block of the next zone and leaves the write pointer past the
    zone's capacity; and an append in a request that was last used for a read
    succeeds without storing its data. *)
Lemma append_unchecked :
  (∃ n' req' out, zns_io_cmd demo_written demo_append demo_env = Some (n', req', NVME_SUCCESS, out)
     ∧ mbe n' = [0; 0; 0; 0; 7; 8; 7; 8; 9; 0; 0; 0]
     ∧ (w_ptr <$> zone_at n' 1) = Some 9)
  ∧ ∃ n' req' out, zns_io_cmd demo_written (demo_cmd NVME_CMD_ZONE_APPEND 4 1 0 <| is_write := false |>) demo_env
       = Some (n', req', NVME_SUCCESS, out)
     ∧ mbe n' = mbe demo_written ∧ state_of n' 1 = Some FULL.
Proof.
  split.
  - eexists _, _, _. split; [vm_compute; reflexivity|]. done.
  - eexists _, _, _. split; [vm_compute; reflexivity|]. done.
Qed.

(** A write whose data cannot be mapped has already moved the write pointer
    but not the one in the descriptor, so that a zone that is then written to its
    end never becomes full. *)
Lemma unmapped_write_strands :
  ∃ n1 r1 s1 n2 r2 s2, zns_io_cmd demo (demo_cmd NVME_CMD_WRITE 4 1 0) (demo_env <| map_st := NVME_INVALID_FIELD |>) = Some (n1, r1, s1, [])
    ∧ nz s1 = true
    ∧ zns_io_cmd n1 (demo_cmd NVME_CMD_WRITE 6 1 0) demo_env = Some (n2, r2, s2, []) ∧ s2 = NVME_SUCCESS
    ∧ (w_ptr <$> zone_at n2 1) = Some 8 ∧ ((λ z, d_wp (d z)) <$> zone_at n2 1) = Some 6
    ∧ state_of n2 1 = Some IMPLICITLY_OPEN.
Proof. eexists _, _, _, _, _, _. split; [vm_compute; reflexivity|]. split; [done|]. split; [vm_compute; reflexivity|]. done. Qed.
