(* ===== verification/Stream.v ===== *)
(** * File groups and their lifetimes (src/mstream_f2fs/stream.c, f2fs.h)

    The file system puts files into groups by path and application, keeps the
    lifetimes of overwritten data per group, and gives each group a cluster,
    which selects the log, and so the stream, its data go to.

    A red-black tree is the list of its entries in the order of their keys;
    a pointer to an entry is its key.  [None] is a BUG_ON, an access outside an
    array, or a second acquisition of a held spinlock.  The configuration is the
    one f2fs.h selects: F2FS_FGROUP, four clusters, none of the MSTREAM_ options.
    Output and the name kept for traces ([i_name]) are left out. *)

From stdpp Require Import pretty.
From S2P Require Import Prelude.

(** ** Constants *)

Definition NR_CLUSTER : Z := 4.
Definition EMA_W_NUM : Z := 7.
Definition EMA_W_DIV : Z := 10.
Definition CLUSTER_T : Z := 256 * 512 * 8.
Definition PROFILE_T : Z := 1024 * 512 * 8.
Definition MAX_HISTORY : Z := 2048.
Definition MAX_SAMPLE : Z := 32.
Definition SAMPLE_RATE : Z := 2.
Definition COLD_RATE : Z := 40.
Definition RESET_RATE : Z := 2.
Definition MAX_PARENT_DENTRY : nat := 20.
Definition CLUSTER_START_TYPE : Z := 0.
Definition CURSEG_COLD_DATA : Z := NR_CLUSTER - 1.

Definition FGROUP_INIT : Z := 0.
Definition FGROUP_CACHE : Z := 1.
Definition FGROUP_FILES : Z := 2.
Definition FGROUP_APPSPECIAL : Z := 3.
Definition FGROUP_EXEC : Z := 4.
Definition FGROUP_LIBMAIN : Z := 5.
Definition FGROUP_EXT_JOURNAL : Z := 6.
Definition FGROUP_EXT_SPECIAL_JOURNAL : Z := 7.
Definition FGROUP_EXT_BAK : Z := 8.
Definition FGROUP_EXT_TMP : Z := 9.
Definition FGROUP_EXT_WAL : Z := 10.
Definition FGROUP_EXT_DBETC : Z := 11.
Definition FGROUP_APPWEBVIEW : Z := 12.
Definition FGROUP_APPOTHERS : Z := 13.
Definition FGROUP_CACHE_INDEX : Z := 14.
Definition FGROUP_DATABASES : Z := 15.
Definition FGROUP_DCIM : Z := 16.
Definition FGROUP_MOVIE : Z := 17.
Definition FGROUP_MUSIC : Z := 18.
Definition FGROUP_LOCAL : Z := 19.
Definition FGROUP_SYSTEM : Z := 20.
Definition FGROUP_ETC : Z := 21.

(** ** Data *)

Record file_entry := {
  f_ino : Z;
  last_0_update : Z;
  last_offset : Z;
  f_lifetime : Z;
  sample_avglifetime : Z;
  sample_invalid : list Z;
  sample_lifetime : list Z;
  sample_lastupdate : list Z;
  sample_index : list Z;
  last_kmeans : Z;
  sample_rate : Z;
  max_range : Z;
  filetype : Z;
  f_valid : Z;
  f_cold : Z
}.

Record fgroup_entry := {
  fgroup : Z;
  cluster : Z;
  cold : Z;
  count : Z;
  ema : Z;
  latest_lifetime : Z;
  latest_count : Z;
  create_time : Z;
  update_ema : Z;
  valid : Z;
  keyword : string
}.

Record fgroup_history := {
  h_keyword : string;
  vtype : Z;
  h_ema : Z;
  h_count : Z;
  h_latest_lifetime : Z;
  h_latest_count : Z;
  h_update_ema : Z
}.

Record kmeans_history := { q1 : list Z; q3 : list Z; h_seq : Z }.

(** The part of [f2fs_sb_info] the streams use.  [history] has [history_count]
    entries; [user_blocks] is the value of [user_data_blocks]. *)
Record f2fs_sb_info := {
  lifetime_tree : list file_entry;
  fgroup_tree : list fgroup_entry;
  ltree_lock : bool;
  ftree_lock : bool;
  kmeans_max : list Z;
  kmeans_center : list Z;
  kmeans_count : Z;
  kmeans_hist : list kmeans_history;
  history : list fgroup_history;
  last_cluster : Z;
  user_blocks : Z
}.

(** A directory entry: its name and the number of its inode.  A chain of them
    goes from a file to the root, whose parent is itself. *)
Definition dentry : Type := list (string * Z).

Record inode := {
  i_ino : Z;
  i_dentry : option dentry;
  i_filetype : Z;
  i_fgroup : Z;
  i_keyword : string
}.

#[global] Instance file_entry_fields : Fields file_entry := λ r,
  Build_file_entry (f_ino r) (last_0_update r) (last_offset r) (f_lifetime r) (sample_avglifetime r)
    (sample_invalid r) (sample_lifetime r) (sample_lastupdate r) (sample_index r) (last_kmeans r)
    (sample_rate r) (max_range r) (filetype r) (f_valid r) (f_cold r).
#[global] Instance fgroup_entry_fields : Fields fgroup_entry := λ r,
  Build_fgroup_entry (fgroup r) (cluster r) (cold r) (count r) (ema r) (latest_lifetime r)
    (latest_count r) (create_time r) (update_ema r) (valid r) (keyword r).
#[global] Instance fgroup_history_fields : Fields fgroup_history := λ r,
  Build_fgroup_history (h_keyword r) (vtype r) (h_ema r) (h_count r) (h_latest_lifetime r)
    (h_latest_count r) (h_update_ema r).
#[global] Instance kmeans_history_fields : Fields kmeans_history := λ r,
  Build_kmeans_history (q1 r) (q3 r) (h_seq r).
#[global] Instance f2fs_sb_info_fields : Fields f2fs_sb_info := λ r,
  Build_f2fs_sb_info (lifetime_tree r) (fgroup_tree r) (ltree_lock r) (ftree_lock r) (kmeans_max r)
    (kmeans_center r) (kmeans_count r) (kmeans_hist r) (history r) (last_cluster r) (user_blocks r).
#[global] Instance inode_fields : Fields inode := λ r,
  Build_inode (i_ino r) (i_dentry r) (i_filetype r) (i_fgroup r) (i_keyword r).

Implicit Types (sbi : f2fs_sb_info) (re : fgroup_entry) (fe : file_entry) (root : list fgroup_entry).

(** ** Locks *)

Definition lock_ltree sbi : option f2fs_sb_info :=
  _ ← ensure (negb (ltree_lock sbi)); Some (sbi <| ltree_lock := true |>).
Definition unlock_ltree sbi : f2fs_sb_info := sbi <| ltree_lock := false |>.
Definition lock_ftree sbi : option f2fs_sb_info :=
  _ ← ensure (negb (ftree_lock sbi)); Some (sbi <| ftree_lock := true |>).
Definition unlock_ftree sbi : f2fs_sb_info := sbi <| ftree_lock := false |>.

(** ** Trees

    The tree of the files and that of the groups have the same operations, each
    with its own key. *)

Section tree.
Context {A : Type} (key : A → Z).

Definition lookup_entry (root : list A) (k : Z) : option A :=
  list_find (λ x, key x = k) root ≫= λ p, Some p.2.

(** The descent to the place of a key, [rb_link_node] and [rb_insert_color]. *)
Fixpoint link_entry (root : list A) (k : Z) (x : A) : list A :=
  match root with
  | [] => [x]
  | y :: root => if k <? key y then x :: y :: root else y :: link_entry root k x
  end.

(** [rb_erase] *)
Definition erase_entry (root : list A) (k : Z) : list A := filter (λ x, key x ≠ k) root.

(** An assignment to the entry of a key. *)
Definition set_entry (root : list A) (k : Z) (f : A → A) : list A :=
  (λ x, if key x =? k then f x else x) <$> root.
End tree.

Notation lookup_fgroup_entry := (lookup_entry fgroup).
Notation link_fgroup := (link_entry fgroup).
Notation erase_fgroup := (erase_entry fgroup).
Notation set_fgroup := (set_entry fgroup).
Notation lookup_file_entry := (lookup_entry f_ino).
Notation link_file := (link_entry f_ino).
Notation erase_file := (erase_entry f_ino).
Notation set_file := (set_entry f_ino).

Definition new_file_entry sbi (ino : Z) : file_entry :=
  let zero := replicate (Z.to_nat MAX_SAMPLE) 0 in
  {| f_ino := ino; last_0_update := 0; last_offset := 0; f_lifetime := 0; sample_avglifetime := 0;
     sample_invalid := zero; sample_lifetime := zero; sample_lastupdate := zero;
     sample_index := replicate (Z.to_nat MAX_SAMPLE) (-1); last_kmeans := kmeans_count sbi;
     sample_rate := 0; max_range := 0; filetype := 0; f_valid := 0; f_cold := 1 |}.

Definition insert_file_entry sbi (ino : Z) : option f2fs_sb_info :=
  _ ← ensure (bool_decide (lookup_file_entry (lifetime_tree sbi) ino = None));
  Some (sbi <| lifetime_tree ::= λ t, link_file t ino (new_file_entry sbi ino) |>).

Definition update_file_type sbi (ino ft : Z) : option f2fs_sb_info :=
  sbi ← lock_ltree sbi;
  Some (unlock_ltree (sbi <| lifetime_tree ::= λ t, set_file t ino (λ fe, fe <| filetype := ft |>) |>)).

Definition get_file_type sbi (ino : Z) : option (f2fs_sb_info * Z) :=
  sbi ← lock_ltree sbi;
  let type := match lookup_file_entry (lifetime_tree sbi) ino with Some fe => filetype fe | None => 0 end in
  Some (unlock_ltree sbi, type).

Definition delete_file_entry sbi (ino : Z) : option f2fs_sb_info :=
  sbi ← lock_ltree sbi;
  Some (unlock_ltree (sbi <| lifetime_tree ::= λ t, erase_file t ino |>)).

(** ** Names *)

(** A [char] as an [int]. *)
Definition chr (c : Ascii.ascii) : Z :=
  let z := Z.of_N (Ascii.N_of_ascii c) in if z <? 128 then z else z - 256.

(** [name[0]], zero at the end of the string, and the string at [name + 1]. *)
Definition char0 (s : string) : Z := match s with EmptyString => 0 | String c _ => chr c end.
Definition next (s : string) : string := match s with EmptyString => EmptyString | String _ s => s end.

Fixpoint cmp_name_loop (n : nat) (name1 name2 : string) : Z :=
  match n with
  | O => 0
  | S n =>
      if nz (char0 name1) || nz (char0 name2) then
        if char0 name1 =? char0 name2 then cmp_name_loop n (next name1) (next name2)
        else char0 name1 - char0 name2
      else 0
  end.

Definition cmp_name (name1 name2 : string) : Z := cmp_name_loop 50 name1 name2.

(** [strstr(s, pat) != NULL] *)
Fixpoint strstr (s pat : string) : bool :=
  if String.prefix pat s then true
  else match s with EmptyString => false | String _ s => strstr s pat end.

(** [strlen] *)
Definition strlen (s : string) : Z := Z.of_nat (String.length s).

(** The string [snprintf(buf, 50, ...)] leaves in its buffer. *)
Definition snprintf50 (s : string) : string := String.substring 0 49 s.

(** ["KEY-%d:%s"] and the like *)
Definition key_string (ft : Z) (sep rest : string) : string :=
  snprintf50 ("KEY-" +:+ pretty (s32 ft) +:+ sep +:+ rest)%string.

Implicit Types (de : dentry).

Definition d_name de : string := match de with [] => ""%string | d :: _ => d.1 end.
Definition d_ino de : Z := match de with [] => 0 | d :: _ => d.2 end.
Definition d_parent de : dentry := match de with _ :: (_ :: _) as p => p | _ => de end.

(** The test of a directory against a keyword. *)
Definition dir_matches (p_de : dentry) (kw : string) : bool :=
  strstr (d_name p_de) kw && (char0 (d_name p_de) =? char0 kw) && (strlen (d_name p_de) <? strlen kw + 3).

Definition is_root de : bool := bool_decide (d_name de = "/"%string).

Fixpoint get_parent_dentry_loop (n : nat) de (kw : string) : option dentry :=
  match n with
  | O => None
  | S n =>
      let p_de := d_parent de in
      if dir_matches p_de kw then Some de
      else if is_root de then None
      else get_parent_dentry_loop n p_de kw
  end.

Definition get_parent_dentry (de : option dentry) (kw : string) : option dentry :=
  de ← de; get_parent_dentry_loop (MAX_PARENT_DENTRY - 1) de kw.

(** The loop over the parents: [de_list] holds the entries visited, the last
    first, so that [de_list[count - k]] is the element [k] of the list once the
    parent of the pass has been added. *)
Fixpoint get_parent_inode_loop (n : nat) (count : Z) (de_list : list dentry) (ei : inode) (kw : string) (depth : Z)
    : option (inode * Z) :=
  match n with
  | O => Some (ei, 0)
  | S n =>
      de ← head de_list;
      let p_de := d_parent de in
      let de_list := p_de :: de_list in
      if dir_matches p_de kw then
        if depth <? count then
          target ← rd de_list depth;
          let dir := d_name (if depth =? 1 then d_parent p_de else de) in
          Some (ei <| i_keyword := key_string (i_filetype ei) ":" (dir +:+ "/" +:+ d_name target)%string |>,
                u32 (d_ino target))
        else if depth - 1 <? count then
          target ← rd de_list (depth - 1);
          let dir := d_name (if depth =? 1 then d_parent p_de else de) in
          Some (ei <| i_keyword := key_string (i_filetype ei) "/" (dir +:+ "/" +:+ d_name target)%string |>,
                u32 (d_ino target))
        else Some (ei, 0)
      else if is_root de then Some (ei, 0)
      else get_parent_inode_loop n (count + 1) de_list ei kw depth
  end.

(** The depths the code passes are 1, 2 and 3. *)
Definition get_parent_inode (ei : inode) (kw : string) (depth : Z) : option (inode * Z) :=
  match i_dentry ei with
  | None => Some (ei, 0)
  | Some de => get_parent_inode_loop (MAX_PARENT_DENTRY - 1) 1 [de] ei kw depth
  end.

(** The names of [de_list[0]], ..., [de_list[count - 2]]. *)
Fixpoint path_names (n : nat) de : list string :=
  match n with
  | O => []
  | S n => if is_root de then [] else d_name de :: path_names n (d_parent de)
  end.

(** The path in a buffer of [name_size] bytes, which it must not overrun. *)
Definition get_full_path_dentry de (name_size : Z) : option string :=
  let full := ("/" +:+ String.concat "/" (reverse (path_names (MAX_PARENT_DENTRY - 1) de)))%string in
  _ ← ensure (strlen full <? name_size);
  Some full.

(** [Some None] is the return value -1: the inode has no directory entry. *)
Definition get_full_path (ei : inode) (name_size : Z) : option (option string) :=
  match i_dentry ei with
  | None => Some None
  | Some de => Some <$> get_full_path_dentry de name_size
  end.

Definition check_hot_stream (fg : Z) : Z := if Z.land fg 31 =? FGROUP_EXT_JOURNAL then 1 else 0.

(** ** The group of a file *)

(** The keyword of a write-ahead log or a database: the application's directory
    and the file's name, or the path. *)
Definition db_keyword (ei : inode) (ft : Z) (name : string) : inode :=
  ei <| i_keyword :=
    match i_dentry ei, get_parent_dentry (i_dentry ei) "data" with
    | Some temp_de, Some parent_de =>
        key_string ft ":" (d_name parent_de +:+ "/" +:+ d_name temp_de)%string
    | _, _ => key_string ft ":" name
    end |>.

(** A file below a directory of an application: index files have a type of
    their own. *)
Definition dir_type (name : string) (ft : Z) : Z :=
  if strstr name "index" then FGROUP_CACHE_INDEX
  else if strstr name "journal" then FGROUP_CACHE_INDEX
  else ft.

(** The chain of tests on the path: the inode, [file_type] and [app_type]. *)
Definition classify (ei : inode) (name : string) : option (inode * Z * Z) :=
  if strstr name "data/media/0/" && negb (strstr name "/Android/") then
    Some (if strstr name "/0/DCIM/" then (ei, FGROUP_DCIM, 0)
          else if strstr name "/0/movie/" then (ei, FGROUP_MOVIE, 0)
          else if strstr name "/0/music" then (ei, FGROUP_MUSIC, 0)
          else (ei, -1, -1))
  else if strstr name "data/local" then Some (ei, FGROUP_LOCAL, 0)
  else if strstr name "data/system/" then Some (ei, FGROUP_SYSTEM, 0)
  else if strstr name "/data/app/" then Some (ei, FGROUP_EXEC, -1)
  else if strstr name "lib-main" then Some (ei, FGROUP_LIBMAIN, -1)
  else if strstr name "-journal" then
    let kw := match i_dentry ei with None => name | Some temp_de => d_name temp_de end in
    Some (ei <| i_keyword := key_string FGROUP_EXT_JOURNAL ":" kw |>, FGROUP_EXT_JOURNAL, i_ino ei)
  else if strstr name ".bak" then Some (ei, FGROUP_EXT_BAK, -1)
  else if strstr name "-wal" then Some (db_keyword ei FGROUP_EXT_WAL name, FGROUP_EXT_WAL, i_ino ei)
  else if strstr name "db-" then Some (ei, FGROUP_EXT_DBETC, -1)
  else if strstr name "dbtmp" then Some (ei, FGROUP_EXT_DBETC, -1)
  else if strstr name "-shm" then Some (ei, FGROUP_EXT_DBETC, -1)
  else if strstr name "/app_webview/" then Some (ei, FGROUP_APPWEBVIEW, -1)
  else if strstr name "/code_cache/" then Some (ei, FGROUP_APPOTHERS, -1)
  else if strstr name "/shared_prefs/" then Some (ei, FGROUP_APPOTHERS, -1)
  else if strstr name "/databases/" then Some (db_keyword ei FGROUP_DATABASES name, FGROUP_DATABASES, i_ino ei)
  else if strstr name ".db" then Some (db_keyword ei FGROUP_DATABASES name, FGROUP_DATABASES, i_ino ei)
  else if strstr name "/cache/" then
    let ft := dir_type name FGROUP_CACHE in
    '(ei, ret) ← get_parent_inode (ei <| i_filetype := ft |>) "cache" 1;
    Some (ei, ft, if nz (s32 ret) then s32 ret else -1)
  else if strstr name "/files/" then
    let ft := dir_type name FGROUP_FILES in
    '(ei, ret) ← get_parent_inode (ei <| i_filetype := ft |>) "files" 1;
    Some (ei, ft, if nz (s32 ret) then s32 ret else -1)
  else if strstr name "data/data/" then
    let ft := dir_type name FGROUP_APPSPECIAL in
    '(ei, ret) ← get_parent_inode (ei <| i_filetype := ft |>) "data" 3;
    if nz (s32 ret) then Some (ei, ft, s32 ret)
    else
      '(ei, ret) ← get_parent_inode ei "data" 2;
      Some (ei, ft, if nz (s32 ret) then s32 ret else -1)
  else Some (ei, -1, -1).

(** [de] is the argument [dentry]; the result is the inode with its type and
    keyword set, and the key of the group. *)
Definition get_fgroup (ei : inode) (de : option dentry) : option (inode * Z) :=
  path ← match de with
         | None => get_full_path ei 500
         | Some de => Some <$> get_full_path_dentry de 500
         end;
  match path with
  | None => Some (ei, FGROUP_ETC)
  | Some name =>
      '(ei, ft, app_type) ← classify ei name;
      let ft := if ft =? -1 then FGROUP_ETC else ft in
      let ei := ei <| i_filetype := ft |> in
      '(ei, app_type) ← (if app_type =? -1 then
                           get_parent_inode ei (if ft =? FGROUP_EXEC then "app" else "data") 1
                         else Some (ei, app_type));
      let ei := if app_type =? 0 then ei <| i_keyword := key_string ft ":" "NoApp" |> else ei in
      Some (ei, u64 (Z.shiftl app_type 5 + ft))
  end.

(** ** Lifetimes of groups *)

(** The index of the first of the bounds [kmeans_max[0..NR_CLUSTER-2]] above
    the lifetime. *)
Definition f2fs_lifetime_to_cluster sbi (lifetime : Z) : Z :=
  if hd 0 (kmeans_max sbi) =? 0 then 0
  else
    match list_find (λ m, lifetime < u64 (m * 512)) (take (Z.to_nat (NR_CLUSTER - 1)) (kmeans_max sbi)) with
    | Some (i, _) => Z.of_nat i
    | None => NR_CLUSTER - 2
    end.

Definition lookup_fgroup_history sbi (kw : string) (vt : Z) : option nat :=
  fst <$> list_find (λ h, cmp_name (h_keyword h) kw = 0 ∧ vtype h = vt) (history sbi).

(** Groups whose data are never overwritten. *)
Definition cold_type (vt : Z) : bool :=
  (vt =? FGROUP_LIBMAIN) || (vt =? FGROUP_EXEC) || (vt =? FGROUP_DCIM) || (vt =? FGROUP_MOVIE) || (vt =? FGROUP_MUSIC).

Definition raise_cluster re (new_cluster : Z) : fgroup_entry :=
  if cluster re <? u32 new_cluster then re <| cluster := u32 new_cluster |> else re.

(** The entry after the update, and the return value. *)
Definition update_new_ema sbi re : fgroup_entry * Z :=
  let vt := Z.land (fgroup re) 31 in
  let age := u64 (user_blocks sbi - create_time re) in
  if cold_type vt then (re <| cluster := NR_CLUSTER - 1 |>, 0)
  else if update_ema re =? 0 then
    if age <? PROFILE_T then (re, 0)
    else if u64 (u64 (cold re + count re) * COLD_RATE) / 100 <? cold re then
      (raise_cluster re (f2fs_lifetime_to_cluster sbi age), 0)
    else if latest_count re =? 0 then
      (raise_cluster re (f2fs_lifetime_to_cluster sbi age), 0)
    else
      let lifetime_value := latest_lifetime re / latest_count re in
      (re <| update_ema := 1 |> <| ema := lifetime_value |> <| latest_count := 0 |> <| latest_lifetime := 0 |>,
       lifetime_value)
  else if 0 <? u64 (latest_count re + valid re) then
    let num_active := u64 (valid re) in
    let num_invalid := latest_count re in
    let lifetime_value := u64 (num_active * ema re + latest_lifetime re) / u64 (num_active + num_invalid) in
    let ema' := u64 (u64 (ema re * (EMA_W_DIV - EMA_W_NUM)) / EMA_W_DIV
                     + u64 (lifetime_value * EMA_W_NUM) / EMA_W_DIV) in
    (re <| latest_count := 0 |> <| latest_lifetime := 0 |> <| ema := ema' |>, ema')
  else (re, ema re).

(** A group that is deleted before any of its data was overwritten counts as
    one overwrite at its age. *)
Definition count_deletion sbi re : fgroup_entry :=
  if count re =? 0 then
    let lifetime := u64 (user_blocks sbi - create_time re) in
    re <| count := 1 |> <| latest_count := u64 (latest_count re + 1) |>
       <| latest_lifetime := u64 (latest_lifetime re + lifetime) |>
  else re.

Definition record_history re (h : fgroup_history) : fgroup_history :=
  h <| h_count := count re |> <| h_ema := ema re |> <| h_update_ema := update_ema re |>
    <| h_latest_count := latest_count re |> <| h_latest_lifetime := latest_lifetime re |>.

Definition insert_fgroup_history sbi re : f2fs_sb_info :=
  let vt := Z.land (fgroup re) 31 in
  let re' := count_deletion sbi re in
  match lookup_fgroup_history sbi (keyword re) vt with
  | Some i => sbi <| history ::= alter (record_history re') i |>
  | None =>
      if MAX_HISTORY <=? Z.of_nat (length (history sbi)) then sbi
      else
        let fe := {| h_keyword := snprintf50 (keyword re); vtype := vt; h_ema := 0; h_count := 0;
                     h_latest_lifetime := 0; h_latest_count := 0; h_update_ema := 0 |} in
        sbi <| history ::= λ l, l ++ [record_history re' fe] |>
  end.

(** ** Groups *)

(** The cluster of a group without a history. *)
Definition default_cluster (vt : Z) : Z :=
  if (vt =? FGROUP_CACHE) || (vt =? FGROUP_FILES) || (vt =? FGROUP_APPSPECIAL) then 1
  else if cold_type vt then NR_CLUSTER - 1
  else if (vt =? FGROUP_EXT_JOURNAL) || (vt =? FGROUP_EXT_SPECIAL_JOURNAL) || (vt =? FGROUP_EXT_BAK)
       || (vt =? FGROUP_EXT_TMP) || (vt =? FGROUP_EXT_WAL) || (vt =? FGROUP_EXT_DBETC)
       || (vt =? FGROUP_APPWEBVIEW) || (vt =? FGROUP_APPOTHERS) || (vt =? FGROUP_CACHE_INDEX)
       || (vt =? FGROUP_DATABASES) || (vt =? FGROUP_LOCAL) || (vt =? FGROUP_SYSTEM) then 0
  else 1.

(** The values a group takes over from the history. *)
Definition resume sbi re (h : fgroup_history) : fgroup_entry :=
  let re := re <| count := h_count h |> <| ema := h_ema h |> <| latest_count := h_latest_count h |>
               <| latest_lifetime := h_latest_lifetime h |> <| update_ema := h_update_ema h |> in
  if 0 <? count re then
    if update_ema re =? 1 then re <| cluster := f2fs_lifetime_to_cluster sbi (ema re) |>
    else if 0 <? latest_count re then
      re <| cluster := f2fs_lifetime_to_cluster sbi (latest_lifetime re / latest_count re) |>
    else re <| cluster := NR_CLUSTER - 2 |>
  else re.

(** The new entry of a key. *)
Definition new_fgroup sbi (fg : Z) (name : string) : fgroup_entry :=
  let vt := Z.land fg 31 in
  let re := {| fgroup := u32 fg; cluster := NR_CLUSTER - 1; cold := 0; count := 0; ema := 0;
               latest_lifetime := 0; latest_count := 0; create_time := user_blocks sbi; update_ema := 0;
               valid := 0; keyword := snprintf50 name |} in
  let fe := i ← (if cold_type vt then None else lookup_fgroup_history sbi name vt); history sbi !! i in
  match fe with
  | Some h => resume sbi re h
  | None => re <| cluster := default_cluster vt |>
  end.

(** Insertion at the place of the key; the result is the key of the entry. *)
Definition insert_fgroup_node sbi (fg : Z) (name : string) : option (f2fs_sb_info * Z) :=
  _ ← ensure (bool_decide (lookup_fgroup_entry (fgroup_tree sbi) fg = None));
  Some (sbi <| fgroup_tree ::= λ t, link_fgroup t fg (new_fgroup sbi fg name) |>, u32 fg).

(** A journal known from the history joins the group of all such journals; the
    recursive call is not for a journal and so inserts a node. *)
Definition insert_fgroup_entry sbi (fg : Z) (name : string) : option (f2fs_sb_info * Z) :=
  let vt := Z.land fg 31 in
  if (vt =? FGROUP_EXT_JOURNAL) && bool_decide (is_Some (lookup_fgroup_history sbi name vt)) then
    match lookup_fgroup_entry (fgroup_tree sbi) FGROUP_EXT_SPECIAL_JOURNAL with
    | Some re => Some (sbi, fgroup re)
    | None => insert_fgroup_node sbi FGROUP_EXT_SPECIAL_JOURNAL "KEY-7:JOURNAL"
    end
  else insert_fgroup_node sbi fg name.

(** [lookup_fgroup_entry], and [insert_fgroup_entry] where it finds nothing *)
Definition find_fgroup sbi (fg : Z) (name : string) : option (f2fs_sb_info * Z) :=
  match lookup_fgroup_entry (fgroup_tree sbi) fg with
  | Some re => Some (sbi, fgroup re)
  | None => insert_fgroup_entry sbi fg name
  end.

Definition add_valid (v cld : Z) re : fgroup_entry :=
  if (v <? 0) && (valid re <? s32 (0 - v)) then re <| valid := 0 |>
  else
    let re := if cld =? 1 then re <| cold := u64 (cold re + v) |> else re in
    re <| valid := s32 (valid re + v) |>.

Definition update_fgroup_entry_valid sbi (fg v : Z) (name : string) (cld : Z) : option f2fs_sb_info :=
  '(sbi, key) ← find_fgroup sbi fg name;
  Some (sbi <| fgroup_tree ::= λ t, set_fgroup t key (add_valid v cld) |>).

Definition clear_fgroup_cold sbi (fg cld : Z) : f2fs_sb_info :=
  sbi <| fgroup_tree ::= λ t, set_fgroup t fg (λ re,
    if cold re <? u64 cld then re <| cold := 0 |> else re <| cold := u64 (cold re - u64 cld) |>) |>.

(** The counters of a journal's group added to those of the journals' group. *)
Definition absorb (fe : fgroup_entry) (jentry : fgroup_entry) : fgroup_entry :=
  jentry <| cold := u64 (cold jentry + cold fe) |> <| count := u64 (count jentry + count fe) |>
         <| latest_lifetime := u64 (latest_lifetime jentry + latest_lifetime fe) |>
         <| latest_count := u64 (latest_count jentry + latest_count fe) |>
         <| valid := s32 (valid jentry + valid fe) |>.

Definition convert_fgroup_to_special_journal sbi (ei : inode) : option (f2fs_sb_info * inode) :=
  match lookup_fgroup_entry (fgroup_tree sbi) (i_fgroup ei) with
  | None => Some (sbi, ei)
  | Some fe =>
      sbi ← lock_ltree sbi;
      let sbi := sbi <| lifetime_tree ::= λ t,
        set_file t (u32 (i_ino ei)) (λ fe, fe <| filetype := FGROUP_EXT_SPECIAL_JOURNAL |>) |> in
      let ei' := ei <| i_filetype := FGROUP_EXT_SPECIAL_JOURNAL |> <| i_fgroup := FGROUP_EXT_SPECIAL_JOURNAL |> in
      let sbi := unlock_ltree sbi in
      '(sbi, key) ← find_fgroup sbi FGROUP_EXT_SPECIAL_JOURNAL "KEY-7:JOURNAL";
      let sbi := sbi <| fgroup_tree ::= λ t, set_fgroup t key (absorb fe) |> in
      Some (sbi <| fgroup_tree ::= λ t, erase_fgroup t (i_fgroup ei) |>, ei')
  end.

Definition add_lifetime (lifetime cnt : Z) re : fgroup_entry :=
  re <| count := u64 (count re + cnt) |> <| latest_count := u64 (latest_count re + cnt) |>
     <| latest_lifetime := u64 (latest_lifetime re + lifetime * cnt) |>.

Definition update_fgroup_entry sbi (fg lifetime cnt : Z) (name : string) : option f2fs_sb_info :=
  '(sbi, key) ← find_fgroup sbi fg name;
  Some (sbi <| fgroup_tree ::= λ t, set_fgroup t key (add_lifetime lifetime cnt) |>).

(** One pass of the loop over the types of file. *)
Definition delete_fgroup_type (ino : Z) sbi (vt : Z) : f2fs_sb_info :=
  let key := Z.shiftl ino 5 + vt in
  match lookup_fgroup_entry (fgroup_tree sbi) key with
  | Some re => insert_fgroup_history sbi re <| fgroup_tree ::= λ t, erase_fgroup t key |>
  | None => sbi
  end.

Definition delete_fgroup_entry sbi (ino : Z) : option f2fs_sb_info :=
  sbi ← lock_ftree sbi;
  Some (unlock_ftree (foldl (delete_fgroup_type ino) sbi (seqZ 0 (FGROUP_ETC + 1)))).

Definition get_cluster sbi (fg : Z) : Z :=
  match lookup_fgroup_entry (fgroup_tree sbi) fg with
  | None => -1
  | Some re => s32 (cluster re)
  end.

Definition update_cluster sbi (fg cl : Z) : f2fs_sb_info :=
  sbi <| fgroup_tree ::= λ t, set_fgroup t fg (λ re, re <| cluster := u32 cl |>) |>.

Definition get_pstream sbi (fg : Z) : Z :=
  let pstream := get_cluster sbi fg in
  let pstream := if pstream =? -1 then NR_CLUSTER - 1 else pstream in
  let pstream := pstream + CLUSTER_START_TYPE in
  if pstream =? NR_CLUSTER - 1 then CURSEG_COLD_DATA else pstream.

(** ** Lifetimes of files *)

(** The four arrays of samples at an index. *)
Definition set_sample fe (i : nat) (lastupdate lifetime invalid index : Z) : file_entry :=
  fe <| sample_lastupdate ::= <[i := lastupdate]> |> <| sample_lifetime ::= <[i := lifetime]> |>
     <| sample_invalid ::= <[i := invalid]> |> <| sample_index ::= <[i := index]> |>.

(** One pass of the loop over the samples; [delete_idx] is the next index that
    is cleared. *)
Definition reset_sample (st : file_entry * Z) (i : nat) : file_entry * Z :=
  let '(fe, delete_idx) := st in
  if negb (Z.of_nat i =? delete_idx) then (fe, delete_idx)
  else
    let delete_idx := delete_idx + RESET_RATE in
    if s32 (nth i (sample_index fe) 0) <? 0 then (fe, delete_idx)
    else if 0 <? nth i (sample_lifetime fe) 0 then (set_sample fe i 0 0 0 (-1), delete_idx)
    else (fe, delete_idx).

Definition reset_sample_lifetime fe : file_entry :=
  if max_range fe <? MAX_SAMPLE then fe
  else fst (foldl reset_sample (fe, last_kmeans fe mod RESET_RATE) (seq 0 (Z.to_nat MAX_SAMPLE))).

(** The sum of the mean lifetimes of the samples in use, and their number. *)
Definition sum_sample fe (acc : Z * Z) (i : nat) : Z * Z :=
  if (0 <=? nth i (sample_index fe) 0) && (0 <? nth i (sample_invalid fe) 0) then
    (u64 (acc.1 + nth i (sample_lifetime fe) 0 / nth i (sample_invalid fe) 0), acc.2 + 1)
  else acc.

Definition average_samples fe : file_entry :=
  let '(lifetime_sum, lifetime_count) := foldl (sum_sample fe) (0, 0) (seq 0 (Z.to_nat MAX_SAMPLE)) in
  fe <| sample_avglifetime := if 0 <? lifetime_count then lifetime_sum / lifetime_count else 0 |>.

(** The sample of the index has been found at [i]: the entry and the lifetime. *)
Definition hit_sample fe (cur_seq : Z) (i : nat) (unlink : Z) : file_entry * Z :=
  let lastupdate := nth i (sample_lastupdate fe) 0 in
  let idx := nth i (sample_index fe) 0 in
  if unlink =? -1 then (set_sample fe i cur_seq 0 0 idx, 0)
  else
    let lifetime := if 0 <? lastupdate then u64 (cur_seq - lastupdate) else 0 in
    let total := if 0 <? lastupdate then u64 (nth i (sample_lifetime fe) 0 + lifetime)
                 else nth i (sample_lifetime fe) 0 in
    let invalid := if 0 <? lastupdate then u64 (nth i (sample_invalid fe) 0 + 1)
                   else nth i (sample_invalid fe) 0 in
    let fe := if unlink =? 1 then set_sample fe i 0 0 0 (-1)
              else set_sample fe i cur_seq total invalid idx in
    if lifetime =? 0 then (fe, 0) else (average_samples fe, lifetime).

(** A free sample, if there is one, is given to the index. *)
Definition new_sample fe (cur_seq index : Z) : file_entry :=
  match list_find (λ s, s32 s = -1) (sample_index fe) with
  | Some (i, _) => set_sample fe i cur_seq 0 0 index
  | None => fe
  end.

Definition update_sample_lifetime sbi fe (index unlink : Z) : file_entry * Z :=
  let cur_seq := user_blocks sbi in
  let fe := if last_kmeans fe <? kmeans_count sbi
            then reset_sample_lifetime fe <| last_kmeans := kmeans_count sbi |> else fe in
  let fe := fe <| sample_rate := u32 (sample_rate fe + 1) |> in
  let fe := if max_range fe <? u32 index then fe <| max_range := u32 index |> else fe in
  match list_find (λ s, s32 s = index) (sample_index fe) with
  | Some (i, _) => hit_sample fe cur_seq i unlink
  | None =>
      let sampling := negb (unlink =? 1) && ((max_range fe <? MAX_SAMPLE) || (SAMPLE_RATE <=? sample_rate fe)) in
      let fe := if sampling then new_sample fe cur_seq index <| sample_rate := 0 |> else fe in
      if unlink =? -1 then (fe, 0) else (fe, sample_avglifetime fe)
  end.

(** The entry of a file, created when there is none. *)
Definition find_file sbi (ino : Z) : option (f2fs_sb_info * file_entry) :=
  match lookup_file_entry (lifetime_tree sbi) ino with
  | Some fe => Some (sbi, fe)
  | None => sbi' ← insert_file_entry sbi ino; Some (sbi', new_file_entry sbi ino)
  end.

(** An assignment to the entry of a file. *)
Definition put_file sbi (ino : Z) (fe : file_entry) : f2fs_sb_info :=
  sbi <| lifetime_tree ::= λ t, set_file t ino (λ _, fe) |>.

(** The group of the inode is computed when it has none. *)
Definition refresh_fgroup (ei : inode) : option inode :=
  if (i_filetype ei =? FGROUP_INIT) || strstr (i_keyword ei) "KEY-INIT" then
    '(ei, fg) ← get_fgroup ei None; Some (ei <| i_fgroup := u32 fg |>)
  else Some ei.

(** The lifetime counted for the group, after the locks of the file's tree. *)
Definition count_lifetime sbi (ei : inode) (range_start page_written unlink lifetime : Z) : option (f2fs_sb_info * inode) :=
  ei ← refresh_fgroup ei;
  sbi ← lock_ftree sbi;
  sbi ← update_fgroup_entry sbi (i_fgroup ei) lifetime (u32 page_written) (i_keyword ei);
  fe ← lookup_file_entry (lifetime_tree sbi) (u32 (i_ino ei));
  let sbi := if f_cold fe =? 1 then
               put_file (clear_fgroup_cold sbi (i_fgroup ei) (f_valid fe)) (u32 (i_ino ei)) (fe <| f_cold := 0 |>)
             else sbi in
  '(sbi, ei) ← (if (i_filetype ei =? FGROUP_EXT_JOURNAL) && (unlink =? 1) && (range_start =? 0)
                then convert_fgroup_to_special_journal sbi ei else Some (sbi, ei));
  Some (unlock_ftree sbi, ei).

(** The times of the first block; [true] as second component: the code returns
    here. *)
Definition update_first_block fe (cur_seq range_start unlink : Z) : file_entry * bool :=
  if range_start =? 0 then
    if unlink =? -1 then (fe <| f_lifetime := 0 |> <| last_0_update := cur_seq |>, false)
    else if 0 <? last_0_update fe then
      (fe <| f_lifetime := u64 (cur_seq - last_0_update fe) |> <| last_0_update := cur_seq |>, false)
    else if unlink =? 1 then (fe <| f_lifetime := 0 |> <| last_0_update := 0 |>, true)
    else (fe <| last_0_update := cur_seq |>, false)
  else (fe, false).

Definition update_file_lifetime sbi (ei : inode) (range_start page_written unlink : Z) : option (f2fs_sb_info * inode) :=
  let ino := u32 (i_ino ei) in
  if page_written =? 0 then Some (sbi, ei)
  else
    sbi ← lock_ltree sbi;
    if bool_decide (lookup_file_entry (lifetime_tree sbi) ino = None) && (unlink =? 1) then Some (unlock_ltree sbi, ei)
    else
      '(sbi, fe) ← find_file sbi ino;
      let '(fe, stop) := update_first_block fe (user_blocks sbi) range_start unlink in
      if stop then Some (unlock_ltree (put_file sbi ino fe), ei)
      else
        let '(fe, lifetime) :=
          if (i_filetype ei =? FGROUP_DATABASES) && (0 <? range_start)
          then update_sample_lifetime sbi fe (s32 range_start) unlink
          else (fe, f_lifetime fe) in
        let sbi := unlock_ltree (put_file sbi ino fe) in
        if 0 <? lifetime then count_lifetime sbi ei range_start page_written unlink lifetime
        else Some (sbi, ei).

(** The change of the number of valid blocks of a file. *)
Definition valid_change fe (v : Z) : Z :=
  if v =? 0 then s32 (0 - f_valid fe)
  else if (v <? 0) && (f_valid fe <? s32 (0 - v)) then s32 (0 - f_valid fe)
  else v.

Definition update_file_valid sbi (ei : inode) (v : Z) : option (f2fs_sb_info * inode) :=
  let ino := u32 (i_ino ei) in
  sbi ← lock_ltree sbi;
  if bool_decide (lookup_file_entry (lifetime_tree sbi) ino = None) && (v <? 0) then Some (unlock_ltree sbi, ei)
  else
    '(sbi, fe) ← find_file sbi ino;
    let update_valid := valid_change fe v in
    let fe := fe <| f_valid := s32 (f_valid fe + update_valid) |> in
    let sbi := unlock_ltree (put_file sbi ino fe) in
    ei ← refresh_fgroup ei;
    sbi ← lock_ftree sbi;
    sbi ← update_fgroup_entry_valid sbi (i_fgroup ei) update_valid (i_keyword ei) (f_cold fe);
    Some (unlock_ftree sbi, ei).
