(* ===== verification/Kmeans.v ===== *)
(** * Clusters of file groups (src/mstream_f2fs/kmeans.c)

    A thread of the file system sorts the groups by lifetime, divides them into
    three clusters with k-means and ranks the clusters, the first being the one
    with the shortest lifetimes.

    An array is the list of its elements; [n] and [k] are the lengths of [data]
    and [center].  [None] is a BUG_ON, an access outside an array or the use of
    a value that has not been written.  [vmalloc] gives whole pages: a write
    behind the array but in its last page does not stop the code.  The tree of
    groups is not changed by other threads between the two halves of
    [f2fs_update_cluster].  The functions that are not called ([kmeans],
    [uniform], [convert_data], [fixed_center]) are left out. *)

From S2P Require Import Prelude Stream.

Implicit Types (sbi : f2fs_sb_info) (data center : list Z).

Definition MAX_ITERATIONS : nat := 10.
Definition STREAM_LIFE_RANGE : Z := 90.
Definition VALID_FGROUP_RATE : Z := 95.
Definition PAGE_SIZE : Z := 4096.

(** The value the code starts a search for a minimum with. *)
Definition MAX_DIST : Z := 4294967295.

(** ** K-means *)

Definition calc_all_distances data center : list (list Z) :=
  (λ d, (λ c, if d <? c then c - d else d - c) <$> center) <$> data.

Definition sqr (x : Z) : Z := u64 (x * x).

Definition calc_total_distance_org data center (index : list Z) : Z :=
  foldl (λ tot_D p,
    let '(d, active_cluster) := p in
    if active_cluster =? -1 then tot_D
    else u64 (tot_D + sqr (u64 (nth (Z.to_nat active_cluster) center 0 - d)))) 0 (zip data index).

(** The first of the least distances below [closest_dist], from index [jj] on. *)
Fixpoint closest (jj : Z) (row : list Z) (best_index closest_dist : Z) : Z :=
  match row with
  | [] => best_index
  | cur_dist :: row =>
      if cur_dist <? closest_dist then closest (jj + 1) row jj cur_dist
      else closest (jj + 1) row best_index closest_dist
  end.

Definition choose_all_clusters_from_distances (dist : list (list Z)) : list Z :=
  (λ row, closest 0 row (-1) MAX_DIST) <$> dist.

(** The number and the sum of the members of each cluster. *)
Definition add_member (k : nat) (acc : list Z * list Z) (p : Z * Z) : list Z * list Z :=
  let '(d, active_cluster) := p in
  let c := if (active_cluster <? 0) || (Z.of_nat k <=? active_cluster) then (k - 1)%nat
           else Z.to_nat active_cluster in
  (alter (λ m, s32 (m + 1)) c acc.1, alter (λ s, u64 (s + d)) c acc.2).

Definition calc_cluster_centroids_org (k : nat) data (index : list Z) : list Z :=
  let '(cluster_member_count, sums) :=
    foldl (add_member k) (replicate k 0, replicate k 0) (zip data index) in
  zip_with (λ m s, if m =? 0 then s else s / u64 m) cluster_member_count sums.

Definition assignment_change_count (a b : list Z) : Z :=
  foldl (λ n p, if p.1 =? p.2 then n else n + 1) 0 (zip a b).

(** The [while] loop, with the passes that are left: the centres and the
    assignment it ends with. *)
Fixpoint kmeans_loop (iterations : nat) data center (index_cur index_prev : list Z) (prev_totD : Z)
    : list Z * list Z :=
  match iterations with
  | O => (center, index_cur)
  | S iterations =>
      let k := length center in
      let center := calc_cluster_centroids_org k data index_cur in
      let totD := calc_total_distance_org data center index_cur in
      if prev_totD <? totD then (calc_cluster_centroids_org k data index_prev, index_prev)
      else
        let index_prev := index_cur in
        let index_cur := choose_all_clusters_from_distances (calc_all_distances data center) in
        if assignment_change_count index_cur index_prev =? 0 then (center, index_cur)
        else kmeans_loop iterations data center index_cur index_prev totD
  end.

Definition kmeans_org data center : list Z * list Z :=
  let index_cur := choose_all_clusters_from_distances (calc_all_distances data center) in
  kmeans_loop MAX_ITERATIONS data center index_cur index_cur MAX_DIST.

(** ** Sorting *)

(** The inner loop: the first of the least elements that are not visited and
    below [min_data]. *)
Fixpoint min_scan (j : nat) data (visit_bitmap : list bool) (min_data : Z) (min_index : option nat) : option nat :=
  match data, visit_bitmap with
  | d :: data, v :: visit_bitmap =>
      if v then min_scan (S j) data visit_bitmap min_data min_index
      else if d <? min_data then min_scan (S j) data visit_bitmap d (Some j)
      else min_scan (S j) data visit_bitmap min_data min_index
  | _, _ => min_index
  end.

Fixpoint sort_loop (passes : nat) data (visit_bitmap : list bool) : list nat :=
  match passes with
  | O => []
  | S passes =>
      match min_scan 0 data visit_bitmap MAX_DIST None with
      | None => []
      | Some min_index => min_index :: sort_loop passes data (<[min_index := true]> visit_bitmap)
      end
  end.

(** The indices [sort_index[0..min_pointer - 1]]; the elements behind them stay
    -1. *)
Definition sort_index data : list nat := sort_loop (length data) data (replicate (length data) false).

(** The three arrays of groups, lifetimes and weights in the order of lifetimes,
    and the number of groups that take part in the clustering. *)
Definition sort_and_cut_data (fgroups data weight : list Z) : option (nat * list Z * list Z * list Z) :=
  let n := length data in
  let order := sort_index data in
  _ ← ensure (length order =? n)%nat;
  Some (Z.to_nat (Z.of_nat n * VALID_FGROUP_RATE / 100),
        (λ i, nth i fgroups 0) <$> order, (λ i, nth i data 0) <$> order, (λ i, nth i weight 0) <$> order).

(** The [while] loop of [init_center] over the elements of [sort_index] from
    [j] on: [center[i]], [sum_w] and the elements that are left.  The read of
    [sort_index[n]] comes before the test of [j], which so never succeeds. *)
Fixpoint init_center_loop data (weight : list Z) (interval : Z) (order : list nat) (sum_w center_i : Z)
    : option (Z * Z * list nat) :=
  match order with
  | [] => None
  | index :: order =>
      let sum_w := s32 (sum_w + nth index weight 0) in
      let center_i := if s32 (interval / 2) <=? sum_w then nth index data 0 else center_i in
      if interval <=? u64 sum_w then Some (center_i, sum_w, order)
      else init_center_loop data weight interval order sum_w center_i
  end.

(** The [for] loop, with the number [k - i] of centres that are left. *)
Fixpoint init_centers (rest : nat) data (weight : list Z) (order : list nat) (weight_sum : Z) : option (list Z) :=
  match rest with
  | O => Some []
  | S rest =>
      let interval := u64 (Z.quot weight_sum (Z.of_nat (S rest))) in
      '(center_i, sum_w, order) ← init_center_loop data weight interval order 0 0;
      center ← init_centers rest data weight order (s32 (weight_sum - sum_w));
      Some (center_i :: center)
  end.

Definition init_center (k : nat) data (weight : list Z) : option (list Z) :=
  let weight_sum := foldl (λ s w, s32 (s + w)) 0 (take (length data) weight) in
  init_centers k data weight (sort_index data) weight_sum.

(** ** The ranks of the clusters *)

(** The clusters in the order of their centres. *)
Definition order_clusters center : list Z :=
  foldl (λ order_result i,
    let index := default 0%nat (min_scan 0 center ((λ o, 0 <=? o) <$> order_result) MAX_DIST None) in
    <[index := i]> order_result)
    (replicate (length center) (-1)) (seqZ 0 (Z.of_nat (length center))).

(** The number of [int]s in the pages of an array of [n]. *)
Definition vmalloc_ints (n : Z) : Z := (4 * n + PAGE_SIZE - 1) / PAGE_SIZE * (PAGE_SIZE / 4).

(** The cluster of the group [j] of the sorted arrays. *)
Definition cluster_of (nr_cluster : Z) (nr_fgroup : nat) (result order_result : list Z) (j : nat) : option Z :=
  if (j <? nr_fgroup)%nat then
    index ← result !! j;
    if index <? 0 then Some (nr_cluster - 1) else rd order_result index
  else Some (nr_cluster - 1).

(** The state of the loop that assigns the clusters. *)
Record assignment := {
  as_sbi : f2fs_sb_info;
  cluster_arr : list Z;
  as_weight : list Z;
  max_cluster : list Z
}.

#[global] Instance assignment_fields : Fields assignment := λ r,
  Build_assignment (as_sbi r) (cluster_arr r) (as_weight r) (max_cluster r).

(** One pass of that loop, for the group [fg] with lifetime [lifetime] at [j]. *)
Definition assign_cluster (nr_cluster : Z) (nr_fgroup : nat) (result order_result : list Z)
    (st : assignment) (j : nat) (fg lifetime : Z) : option assignment :=
  cl ← cluster_of nr_cluster nr_fgroup result order_result j;
  _ ← ensure (Z.of_nat j <? vmalloc_ints (Z.of_nat nr_fgroup));
  let st := st <| as_sbi ::= λ sbi, update_cluster sbi fg cl |> <| cluster_arr ::= λ l, l ++ [cl] |> in
  match lookup_fgroup_entry (fgroup_tree (as_sbi st)) fg with
  | None => Some st
  | Some entry =>
      let st := st <| as_weight ::= <[j := s32 (count entry)]> |> in
      m ← rd (max_cluster st) cl;
      if m <? lifetime then mx ← wr (max_cluster st) cl lifetime; Some (st <| max_cluster := mx |>)
      else Some st
  end.

Fixpoint assign_clusters (nr_cluster : Z) (nr_fgroup : nat) (result order_result : list Z)
    (st : assignment) (j : nat) (fgroups data : list Z) : option assignment :=
  match fgroups, data with
  | fg :: fgroups, lifetime :: data =>
      st ← assign_cluster nr_cluster nr_fgroup result order_result st j fg lifetime;
      assign_clusters nr_cluster nr_fgroup result order_result st (S j) fgroups data
  | _, _ => Some st
  end.

(** ** The ranges of lifetimes of the clusters *)

(** The local arrays, and the history entry being written. *)
Record minmax := {
  weight_minbound : list Z;
  weight_maxbound : list Z;
  weight_pointer : list Z;
  steps : list Z;
  hist : kmeans_history
}.

#[global] Instance minmax_fields : Fields minmax := λ r,
  Build_minmax (weight_minbound r) (weight_maxbound r) (weight_pointer r) (steps r) (hist r).

Definition cluster_weights (k : Z) (weight clusters : list Z) : option (list Z) :=
  foldl (λ acc p, ws ← acc;
    let '(w, cl) := p in
    let cl := if k <=? cl then k - 1 else cl in
    x ← rd ws cl; wr ws cl (s32 (x + w)))
    (Some (replicate (Z.to_nat NR_CLUSTER) 0)) (zip weight clusters).

(** The entry at a position of the sorted order. *)
Definition minmax_step data (weight clusters : list Z) (st : minmax) (index : nat) : option minmax :=
  cl ← clusters !! index;
  p ← rd (weight_pointer st) cl;
  minb ← rd (weight_minbound st) cl;
  maxb ← rd (weight_maxbound st) cl;
  step ← rd (steps st) cl;
  let p := s32 (p + nth index weight 0) in
  let lifetime := u32 (nth index data 0) in
  wp ← wr (weight_pointer st) cl p;
  let st := st <| weight_pointer := wp |> in
  let low := (step =? 0) && (minb <? p) in
  let st := if low then st <| hist ::= λ h, h <| q1 ::= <[Z.to_nat cl := lifetime]> |> |>
                              <| steps ::= <[Z.to_nat cl := 1]> |> else st in
  let step := if low then 1 else step in
  Some (if (step =? 1) && (maxb <? p)
        then st <| hist ::= λ h, h <| q3 ::= <[Z.to_nat cl := lifetime]> |> |> <| steps ::= <[Z.to_nat cl := 2]> |>
        else st).

(** The bounds that no group determined are those of the clusters. *)
Definition minmax_fill (kmax : list Z) (st : minmax) (i : nat) : minmax :=
  let step := nth i (steps st) 0 in
  let st := if step =? 0 then
              st <| hist ::= λ h, h <| q1 ::= <[i := if (0 <? i)%nat then u32 (nth (i - 1) kmax 0) else 0]> |> |>
            else st in
  if (step =? 0) || (step =? 1) then st <| hist ::= λ h, h <| q3 ::= <[i := u32 (nth i kmax 0)]> |> |>
  else st.

Definition kmeans_cluster_minmax sbi data (weight clusters : list Z) (k : nat) : option f2fs_sb_info :=
  if MAX_HISTORY <=? kmeans_count sbi then Some sbi
  else
    let zero := replicate (Z.to_nat NR_CLUSTER) 0 in
    ws ← cluster_weights (Z.of_nat k) weight clusters;
    let minb := (λ w, Z.quot (s32 (w * (50 - STREAM_LIFE_RANGE / 2))) 100) <$> ws in
    let order := sort_index data in
    _ ← ensure (length order =? length data)%nat;
    st ← foldl (λ st i, st ← st; minmax_step data weight clusters st i)
           (Some {| weight_minbound := minb; weight_maxbound := zip_with (λ w m, s32 (w - m)) ws minb;
                    weight_pointer := zero; steps := zero;
                    hist := {| q1 := zero; q3 := zero; h_seq := user_blocks sbi / 512 |} |}) order;
    let st := st <| hist ::= λ h, h <| q1 ::= <[0%nat := 0]> |> <| q3 ::= <[0%nat := u32 (nth 0 (kmeans_max sbi) 0)]> |> |>
                 <| steps ::= <[0%nat := 2]> |> in
    let st := foldl (minmax_fill (kmeans_max sbi)) st (seq 0 k) in
    Some (sbi <| kmeans_hist ::= λ l, l ++ [hist st] |>).

(** The message to the device: [min], [max] and [cluster]. *)
Definition f2fs_issue_expect_lifetime sbi (cl : nat) : option (Z * Z * Z) :=
  h ← rd (kmeans_hist sbi) (kmeans_count sbi);
  min ← q1 h !! cl;
  max ← q3 h !! cl;
  Some (s32 min, s32 max, Z.of_nat cl).

(** ** A round of clustering *)

(** The loop over the tree: each entry is updated, and the groups with a
    lifetime are added to the arrays [fgroup], [data] and [weight].  The values
    that are only printed are left out. *)
Definition group_sample re (lifetime : Z) : Z * Z * Z :=
  (fgroup re, lifetime / 512, if valid re =? 0 then 1 else valid re).

Fixpoint collect sbi (entries : list fgroup_entry) : list fgroup_entry * list (Z * Z * Z) :=
  match entries with
  | [] => ([], [])
  | re :: entries =>
      let '(re, lifetime) := update_new_ema sbi re in
      let '(entries, samples) := collect sbi entries in
      (re :: entries, if lifetime =? 0 then samples else group_sample re lifetime :: samples)
  end.

(** What follows the loop when there are enough groups: the file system and the
    messages to the device. *)
Definition recluster sbi (nr_cluster : nat) (fgroups data weight : list Z)
    : option (f2fs_sb_info * list (Z * Z * Z)) :=
  '(n, fgroups, data, weight) ← sort_and_cut_data fgroups data weight;
  center ← (if kmeans_count sbi <? 10 then init_center nr_cluster (take n data) weight
            else Some (take nr_cluster (kmeans_center sbi)));
  let '(center, result) := kmeans_org (take n data) center in
  let order_result := order_clusters center in
  st ← assign_clusters (Z.of_nat nr_cluster) n result order_result
         {| as_sbi := sbi; cluster_arr := []; as_weight := weight; max_cluster := replicate nr_cluster 0 |}
         0 fgroups data;
  let sbi := as_sbi st in
  let sbi := sbi <| kmeans_max ::= λ l, max_cluster st ++ drop nr_cluster l |>
                 <| kmeans_center ::= λ l, center ++ drop nr_cluster l |> in
  sbi ← kmeans_cluster_minmax sbi (take n data) (take n (as_weight st)) (take n (cluster_arr st)) nr_cluster;
  info ← mapM (f2fs_issue_expect_lifetime sbi) (seq 0 nr_cluster);
  Some (sbi <| kmeans_count := u32 (kmeans_count sbi + 1) |>, info).

Definition f2fs_update_cluster sbi : option (f2fs_sb_info * list (Z * Z * Z)) :=
  let cur_seq := user_blocks sbi in
  let nr_cluster := NR_CLUSTER - 1 in
  if cur_seq <? last_cluster sbi then Some (sbi, [])
  else
    sbi ← lock_ftree sbi;
    if Z.of_nat (length (fgroup_tree sbi)) <=? nr_cluster
    then Some (sbi <| last_cluster := cur_seq + CLUSTER_T |>, [])
    else
      let '(entries, samples) := collect sbi (fgroup_tree sbi) in
      let sbi := unlock_ftree (sbi <| fgroup_tree := entries |>) in
      '(sbi, info) ← (if Z.of_nat (length samples) <=? nr_cluster then Some (sbi, [])
                      else recluster sbi (Z.to_nat nr_cluster) (samples.*1.*1) (samples.*1.*2) (samples.*2));
      Some (sbi <| last_cluster := cur_seq + CLUSTER_T |>, info).

(** The state after the mount. *)
Definition mounted (blocks : Z) : f2fs_sb_info :=
  {| lifetime_tree := []; fgroup_tree := []; ltree_lock := false; ftree_lock := false;
     kmeans_max := replicate (Z.to_nat NR_CLUSTER) 0; kmeans_center := replicate (Z.to_nat NR_CLUSTER) 0;
     kmeans_count := 0; kmeans_hist := []; history := []; last_cluster := CLUSTER_T; user_blocks := blocks |}.
