(* ===== verification/StreamInv.v ===== *)
(** * The invariant of the stream data

    The trees are sorted by their keys, every group has one of the clusters, and
    the arrays have their sizes.  Every operation of stream.c and the clustering
    of kmeans.c keep this. *)

From S2P Require Import Prelude Stream Kmeans.

Implicit Types (sbi : f2fs_sb_info) (re : fgroup_entry) (fe : file_entry).

(** ** Trees *)

Section tree.
Context {A : Type} (key : A → Z).
Implicit Types (t : list A) (x : A).

Definition sorted t : Prop := StronglySorted Z.lt (key <$> t).

Lemma lookup_entry_Some t k x : lookup_entry key t k = Some x → x ∈ t ∧ key x = k.
Proof.
  unfold lookup_entry. intros ([i y] & H & [= ->])%bind_Some.
  apply list_find_Some in H as (H & ? & _). split; [|done]. apply list_elem_of_lookup. eauto.
Qed.

Lemma lookup_entry_None t k : lookup_entry key t k = None ↔ ∀ x, x ∈ t → key x ≠ k.
Proof.
  unfold lookup_entry. rewrite bind_None. split.
  - intros [H%list_find_None|(? & _ & ?)]; [|done]. by rewrite Forall_forall in H.
  - intros H. left. apply list_find_None, Forall_forall. done.
Qed.

Lemma sorted_inj t x y : sorted t → x ∈ t → y ∈ t → key x = key y → x = y.
Proof.
  unfold sorted. induction t as [|z t IH]; simpl; [by intros _ ?%not_elem_of_nil|].
  intros [Hs Hf]%StronglySorted_inv. rewrite Forall_fmap, Forall_forall in Hf. rewrite !elem_of_cons.
  intros [->|Hx] [->|Hy] He; [done| | |by apply IH].
  - specialize (Hf _ Hy). simpl in Hf. lia.
  - specialize (Hf _ Hx). simpl in Hf. lia.
Qed.

Lemma lookup_entry_elem t x : sorted t → x ∈ t → lookup_entry key t (key x) = Some x.
Proof.
  intros Hs Hx. destruct (lookup_entry key t (key x)) as [y|] eqn:E.
  - apply lookup_entry_Some in E as [Hy Hk]. f_equal. by apply (sorted_inj t).
  - rewrite lookup_entry_None in E. by destruct (E x Hx).
Qed.

Lemma link_perm t k x : link_entry key t k x ≡ₚ x :: t.
Proof. induction t as [|y t IH]; simpl; [done|]. destruct (k <? key y); [done|]. rewrite IH. by constructor. Qed.

Lemma link_sorted t x : sorted t → lookup_entry key t (key x) = None → sorted (link_entry key t (key x) x).
Proof.
  unfold sorted. rewrite lookup_entry_None. induction t as [|y t IH]; simpl; intros Hs Hn.
  { constructor; [done|]. constructor. }
  assert (key y ≠ key x) by (apply Hn; left). apply StronglySorted_inv in Hs as [Hs Hf].
  destruct (Z.ltb_spec (key x) (key y)); simpl.
  - constructor; [by constructor|]. constructor; [done|]. eapply Forall_impl; [done|]. simpl. lia.
  - constructor; [apply IH; [done|]; intros z Hz; apply Hn; by right|].
    rewrite Forall_fmap, Forall_forall in Hf |- *. intros z. rewrite link_perm, elem_of_cons.
    intros [->|Hz]; simpl; [lia|]. by apply Hf.
Qed.

Lemma filter_sorted (P : A → Prop) `{!∀ x, Decision (P x)} t : sorted t → sorted (filter P t).
Proof.
  unfold sorted. induction t as [|y t IH]; intros Hs; [done|].
  rewrite fmap_cons in Hs. apply StronglySorted_inv in Hs as [Hs Hf].
  rewrite filter_cons. case_decide; [|by apply IH]. rewrite fmap_cons. constructor; [by apply IH|].
  rewrite Forall_fmap, Forall_forall in Hf |- *. intros z [_ Hz]%list_elem_of_filter. by apply Hf.
Qed.

Lemma erase_sorted t k : sorted t → sorted (erase_entry key t k).
Proof. apply filter_sorted. Qed.

Lemma erase_Forall (P : A → Prop) t k : Forall P t → Forall P (erase_entry key t k).
Proof. rewrite !Forall_forall. intros H x [_ Hx]%list_elem_of_filter. auto. Qed.

Lemma link_Forall (P : A → Prop) t k x : P x → Forall P t → Forall P (link_entry key t k x).
Proof. intros. rewrite link_perm. by constructor. Qed.

Lemma set_keys t k f : (∀ x, key x = k → key (f x) = k) → key <$> set_entry key t k f = key <$> t.
Proof.
  intros Hf. unfold set_entry. rewrite <- list_fmap_compose. apply list_fmap_ext. intros i x _. simpl.
  destruct (Z.eqb_spec (key x) k) as [<-|]; auto.
Qed.

Lemma set_sorted t k f : (∀ x, key x = k → key (f x) = k) → sorted t → sorted (set_entry key t k f).
Proof. unfold sorted. intros Hf. by rewrite set_keys. Qed.

Lemma set_Forall (P : A → Prop) t k f :
  (∀ x, x ∈ t → P x → key x = k → P (f x)) → Forall P t → Forall P (set_entry key t k f).
Proof.
  unfold set_entry. rewrite Forall_fmap, !Forall_forall. intros Hf Ht x Hx. simpl.
  destruct (Z.eqb_spec (key x) k); auto.
Qed.

Lemma lookup_set t k k' f :
  (∀ x, key x = k → key (f x) = k) →
  lookup_entry key (set_entry key t k f) k' = (if k' =? k then f else id) <$> lookup_entry key t k'.
Proof.
  intros Hf. induction t as [|x t IH]; [done|].
  assert (Hc : ∀ y t, lookup_entry key (y :: t) k' = if key y =? k' then Some y else lookup_entry key t k').
  { intros y t'. unfold lookup_entry. simpl. case_decide; destruct (Z.eqb_spec (key y) k'); try done.
    by destruct (list_find _ t') as [[]|]. }
  unfold set_entry in *. rewrite fmap_cons, !Hc, IH.
  destruct (Z.eqb_spec (key x) k) as [E1|E1].
  - rewrite (Hf x E1), E1. by destruct (k =? k') eqn:E; rewrite Z.eqb_sym, E.
  - destruct (Z.eqb_spec (key x) k') as [E2|E2]; [|done]. destruct (Z.eqb_spec k' k); [congruence|done].
Qed.
End tree.

(** ** The invariant *)

Definition group_ok re : Prop := 0 ≤ fgroup re < 2 ^ 32 ∧ 0 ≤ cluster re < NR_CLUSTER.

Definition groups_ok (t : list fgroup_entry) : Prop := sorted fgroup t ∧ Forall group_ok t.

Definition samples_sized {A} (l : list A) : Prop := Z.of_nat (length l) = MAX_SAMPLE.

Definition file_ok fe : Prop :=
  samples_sized (sample_invalid fe) ∧ samples_sized (sample_lifetime fe) ∧
  samples_sized (sample_lastupdate fe) ∧ samples_sized (sample_index fe).

Definition files_ok (t : list file_entry) : Prop := sorted f_ino t ∧ Forall file_ok t.

Record sinv sbi : Prop := {
  si_groups : groups_ok (fgroup_tree sbi);
  si_files : files_ok (lifetime_tree sbi);
  si_max : Z.of_nat (length (kmeans_max sbi)) = NR_CLUSTER;
  si_center : Z.of_nat (length (kmeans_center sbi)) = NR_CLUSTER;
  si_rounds : Z.of_nat (length (kmeans_hist sbi)) = kmeans_count sbi ∧ kmeans_count sbi ≤ MAX_HISTORY;
  si_history : Z.of_nat (length (history sbi)) ≤ MAX_HISTORY
}.

(** The trees replaced by others that are well formed. *)
Lemma sinv_trees sbi t u :
  sinv sbi → groups_ok t → files_ok u → sinv (sbi <| fgroup_tree := t |> <| lifetime_tree := u |>).
Proof. intros [? ? ? ? ? ?] ? ?. by split. Qed.

Lemma sinv_groups sbi t : sinv sbi → groups_ok t → sinv (sbi <| fgroup_tree := t |>).
Proof. intros [? ? ? ? ? ?] ?. by split. Qed.

Lemma sinv_files sbi u : sinv sbi → files_ok u → sinv (sbi <| lifetime_tree := u |>).
Proof. intros [? ? ? ? ? ?] ?. by split. Qed.

Lemma sinv_locks sbi l f : sinv sbi → sinv (sbi <| ltree_lock := l |> <| ftree_lock := f |>).
Proof. intros [? ? ? ? ? ?]. by split. Qed.

Lemma set_groups_ok t k f :
  groups_ok t → (∀ re, fgroup re = k → fgroup (f re) = k) → (∀ re, group_ok re → fgroup re = k → group_ok (f re)) →
  groups_ok (set_fgroup t k f).
Proof. intros [Hs Hg] Hk Hf. split; [by apply set_sorted|apply set_Forall; auto]. Qed.

Lemma erase_groups_ok t k : groups_ok t → groups_ok (erase_fgroup t k).
Proof. intros [Hs Hg]. split; [by apply erase_sorted|by apply erase_Forall]. Qed.

Lemma set_files_ok t k f :
  files_ok t → (∀ fe, f_ino fe = k → f_ino (f fe) = k) → (∀ fe, file_ok fe → file_ok (f fe)) → files_ok (set_file t k f).
Proof. intros [Hs Hg] Hk Hf. split; [by apply set_sorted|apply set_Forall; auto]. Qed.

Lemma erase_files_ok t k : files_ok t → files_ok (erase_file t k).
Proof. intros [Hs Hg]. split; [by apply erase_sorted|by apply erase_Forall]. Qed.

(** ** Groups *)

Lemma lifetime_to_cluster_range sbi z : 0 ≤ f2fs_lifetime_to_cluster sbi z < NR_CLUSTER.
Proof.
  unfold f2fs_lifetime_to_cluster. destruct (_ =? 0); [by unfold NR_CLUSTER|].
  destruct (list_find _ _) as [[i m]|] eqn:E; [|by unfold NR_CLUSTER].
  apply list_find_Some in E as (E & _). apply lookup_lt_Some in E. rewrite length_take in E.
  unfold NR_CLUSTER in *. lia.
Qed.

Lemma default_cluster_range vt : 0 ≤ default_cluster vt < NR_CLUSTER.
Proof. unfold default_cluster. repeat bcase; by unfold NR_CLUSTER. Qed.

Lemma new_fgroup_ok sbi fg name : group_ok (new_fgroup sbi fg name) ∧ fgroup (new_fgroup sbi fg name) = u32 fg.
Proof.
  unfold new_fgroup, resume. pose proof (u32_range fg). pose proof (default_cluster_range (Z.land fg 31)).
  pose proof (lifetime_to_cluster_range sbi). unfold group_ok.
  destruct (_ ≫= _) as [h|]; simpl; [|auto].
  repeat bcase; simpl; split_and!; try apply lifetime_to_cluster_range; try done; lia.
Qed.

(** An operation on the groups: a new tree, and the key of an entry. *)
Definition regroup sbi (r : option (f2fs_sb_info * Z)) : Prop :=
  ∃ t key, r = Some (sbi <| fgroup_tree := t |>, key) ∧ groups_ok t.

Lemma insert_node_ok sbi fg name :
  groups_ok (fgroup_tree sbi) → 0 ≤ fg < 2 ^ 32 → lookup_fgroup_entry (fgroup_tree sbi) fg = None →
  regroup sbi (insert_fgroup_node sbi fg name).
Proof.
  intros [Hs Hg] Hfg Hn. destruct (new_fgroup_ok sbi fg name) as [Hok Hk]. rewrite u32_small in Hk by done.
  unfold insert_fgroup_node. rewrite bool_decide_eq_true_2 by done. simpl.
  eexists _, _. split; [reflexivity|]. split; [|by apply link_Forall].
  pose proof (link_sorted fgroup (fgroup_tree sbi) (new_fgroup sbi fg name)) as Hl. rewrite Hk in Hl. by apply Hl.
Qed.

Lemma find_fgroup_ok sbi fg name :
  groups_ok (fgroup_tree sbi) → 0 ≤ fg < 2 ^ 32 → regroup sbi (find_fgroup sbi fg name).
Proof.
  intros Hg Hfg. unfold find_fgroup, insert_fgroup_entry.
  assert (Hsame : ∀ key, regroup sbi (Some (sbi, key))).
  { intros key. exists (fgroup_tree sbi), key. split; [by destruct sbi|done]. }
  destruct (lookup_fgroup_entry (fgroup_tree sbi) fg) eqn:E; [done|].
  destruct (_ && _); [|by apply insert_node_ok].
  destruct (lookup_fgroup_entry _ FGROUP_EXT_SPECIAL_JOURNAL) eqn:E'; [done|by apply insert_node_ok].
Qed.

(** The same for the operations that return the file system only. *)
Definition regrouped sbi (r : option f2fs_sb_info) : Prop :=
  ∃ t, r = Some (sbi <| fgroup_tree := t |>) ∧ groups_ok t.

Lemma update_valid_ok sbi fg v name cld :
  groups_ok (fgroup_tree sbi) → 0 ≤ fg < 2 ^ 32 → regrouped sbi (update_fgroup_entry_valid sbi fg v name cld).
Proof.
  intros Hg Hfg. unfold update_fgroup_entry_valid.
  destruct (find_fgroup_ok sbi fg name Hg Hfg) as (t & key & -> & Ht).
  eexists. split; [reflexivity|]. apply set_groups_ok; [done|..]; intros re; unfold add_valid; repeat bcase; done.
Qed.

Lemma update_entry_ok sbi fg lifetime cnt name :
  groups_ok (fgroup_tree sbi) → 0 ≤ fg < 2 ^ 32 → regrouped sbi (update_fgroup_entry sbi fg lifetime cnt name).
Proof.
  intros Hg Hfg. unfold update_fgroup_entry.
  destruct (find_fgroup_ok sbi fg name Hg Hfg) as (t & key & -> & Ht).
  eexists. split; [reflexivity|]. by apply set_groups_ok.
Qed.

Lemma clear_cold_ok sbi fg cld :
  groups_ok (fgroup_tree sbi) → ∃ t, clear_fgroup_cold sbi fg cld = sbi <| fgroup_tree := t |> ∧ groups_ok t.
Proof.
  intros Hg. eexists. split; [reflexivity|]. apply set_groups_ok; [done|..]; intros re; by destruct (_ <? _).
Qed.

Lemma insert_history_ok sbi re :
  sinv sbi → sinv (insert_fgroup_history sbi re) ∧ ∃ h, insert_fgroup_history sbi re = sbi <| history := h |>.
Proof.
  intros [? ? ? ? ? Hh]. unfold insert_fgroup_history. destruct (lookup_fgroup_history _ _ _) as [i|].
  - split; [|eauto]. split; try done. simpl. by rewrite length_alter.
  - bcase; [split; [done|exists (history sbi); by destruct sbi]|].
    split; [|eauto]. split; try done. simpl. rewrite length_app. simpl. lia.
Qed.

Lemma delete_type_ok ino sbi vt : sinv sbi → sinv (delete_fgroup_type ino sbi vt).
Proof.
  intros Hi. unfold delete_fgroup_type. destruct (lookup_fgroup_entry _ _) as [re|]; [|done].
  destruct (insert_history_ok sbi re Hi) as [Hi' _].
  apply (sinv_groups (insert_fgroup_history sbi re)); [done|]. apply erase_groups_ok, Hi'.
Qed.

Lemma delete_types_ok ino l : ∀ sbi,
  sinv sbi → sinv (foldl (delete_fgroup_type ino) sbi l) ∧
  ltree_lock (foldl (delete_fgroup_type ino) sbi l) = ltree_lock sbi.
Proof.
  induction l as [|vt l IH]; intros s Hs; [done|]. simpl. destruct (IH (delete_fgroup_type ino s vt)) as [? ->].
  { by apply delete_type_ok. } split; [done|]. unfold delete_fgroup_type.
  destruct (lookup_fgroup_entry _ _) as [re|]; [|done]. destruct (insert_history_ok s re Hs) as [_ [h ->]]. done.
Qed.

Lemma delete_fgroup_ok sbi ino :
  sinv sbi → ftree_lock sbi = false → ∃ sbi', delete_fgroup_entry sbi ino = Some sbi' ∧ sinv sbi' ∧
    ltree_lock sbi' = ltree_lock sbi ∧ ftree_lock sbi' = false.
Proof.
  intros Hi Hl. unfold delete_fgroup_entry, lock_ftree. rewrite Hl. generalize (seqZ 0 (FGROUP_ETC + 1)). intros l.
  simpl. eexists. split; [reflexivity|]. set (sbi0 := sbi <| ftree_lock := true |>).
  assert (H0 : sinv sbi0) by (destruct Hi; by split).
  destruct (delete_types_ok ino l sbi0 H0) as [[? ? ? ? ? ?] H2]. split; [by split|]. by split.
Qed.

(** ** The group of a file *)

Implicit Types (ei : inode).

(** The fields of an inode that finding its group leaves alone. *)
Definition same_file ei ei' : Prop := i_ino ei' = i_ino ei ∧ i_dentry ei' = i_dentry ei.

Lemma parent_loop_ok n : ∀ count de_list ei kw depth,
  1 ≤ depth → 1 ≤ count → Z.of_nat (length de_list) = count →
  ∃ ei' r, get_parent_inode_loop n count de_list ei kw depth = Some (ei', r) ∧ same_file ei ei'.
Proof.
  induction n as [|n IH]; intros count de_list ei kw depth Hd Hc Hl; cbn [get_parent_inode_loop].
  { eexists _, _. by split. }
  destruct de_list as [|de l]; [simpl in Hl; lia|]. cbn [head mbind option_bind].
  destruct (dir_matches _ _).
  - destruct (Z.ltb_spec depth count).
    + destruct (rd_is_Some (d_parent de :: de :: l) depth) as [x ->]; [simpl length in *; lia|].
      cbn [mbind option_bind]. eexists _, _. by split.
    + destruct (Z.ltb_spec (depth - 1) count); [|eexists _, _; by split].
      destruct (rd_is_Some (d_parent de :: de :: l) (depth - 1)) as [x ->]; [simpl length in *; lia|].
      cbn [mbind option_bind]. eexists _, _. by split.
  - destruct (is_root de); [eexists _, _; by split|]. apply IH; [lia|lia|simpl length in *; lia].
Qed.

Lemma parent_inode_ok ei kw depth :
  1 ≤ depth → ∃ ei' r, get_parent_inode ei kw depth = Some (ei', r) ∧ same_file ei ei'.
Proof.
  intros Hd. unfold get_parent_inode. destruct (i_dentry ei) as [de|]; [|eexists _, _; by split].
  by apply parent_loop_ok.
Qed.

Lemma classify_ok ei name : ∃ ei' ft app, classify ei name = Some (ei', ft, app) ∧ same_file ei ei'.
Proof.
  assert (Hret : ∀ ei' (ft app : Z), same_file ei ei' →
    ∃ ei'' ft' app', Some (ei', ft, app) = Some (ei'', ft', app') ∧ same_file ei ei'') by eauto.
  unfold classify. repeat (bcase; try (by apply Hret)).
  - destruct (parent_inode_ok (ei <| i_filetype := dir_type name FGROUP_CACHE |>) "cache" 1) as (ei' & r & -> & [? ?]); [done|].
    by apply Hret.
  - destruct (parent_inode_ok (ei <| i_filetype := dir_type name FGROUP_FILES |>) "files" 1) as (ei' & r & -> & [? ?]); [done|].
    by apply Hret.
  - destruct (parent_inode_ok (ei <| i_filetype := dir_type name FGROUP_APPSPECIAL |>) "data" 3)
      as (ei' & r & -> & [H1 H2]); [done|]. cbn [mbind option_bind]. bcase; [by apply Hret|].
    destruct (parent_inode_ok ei' "data" 2) as (ei2 & r2 & -> & [H3 H4]); [done|]. apply Hret.
    split; [rewrite H3|rewrite H4]; done.
Qed.

(** The paths that fit into the buffer on the stack. *)
Definition path_fits ei : Prop :=
  match i_dentry ei with None => True | Some de => is_Some (get_full_path_dentry de 500) end.

Lemma get_fgroup_ok ei :
  path_fits ei → ∃ ei' fg, get_fgroup ei None = Some (ei', fg) ∧ same_file ei ei'.
Proof.
  unfold path_fits, get_fgroup, get_full_path. intros Hp.
  destruct (i_dentry ei) as [de|] eqn:E; [destruct Hp as [name ->]|]; cbn [fmap option_fmap option_map mbind option_bind].
  2: { eexists _, _. by split. }
  destruct (classify_ok ei name) as (ei1 & ft & app & -> & [H1 H2]). cbn [mbind option_bind].
  set (ft' := if ft =? -1 then FGROUP_ETC else ft).
  destruct (parent_inode_ok (ei1 <| i_filetype := ft' |>) (if ft' =? FGROUP_EXEC then "app" else "data") 1)
    as (ei2 & r & Hr & [H3 H4]); [done|].
  destruct (app =? -1); [rewrite Hr|]; cbn [mbind option_bind].
  - eexists _, _. split; [done|]. destruct (r =? 0); split; simpl in *; congruence.
  - eexists _, _. split; [done|]. by destruct (app =? 0).
Qed.

Lemma refresh_ok ei :
  path_fits ei → 0 ≤ i_fgroup ei < 2 ^ 32 →
  ∃ ei', refresh_fgroup ei = Some ei' ∧ same_file ei ei' ∧ 0 ≤ i_fgroup ei' < 2 ^ 32.
Proof.
  intros Hp Hf. unfold refresh_fgroup. destruct (_ || _); [|eexists; by split].
  destruct (get_fgroup_ok ei Hp) as (ei' & fg & -> & ?). eexists. split; [done|]. split; [done|]. apply u32_range.
Qed.

(** ** Lifetimes and valid blocks of files *)

(** An operation on both trees. *)
Definition restored sbi (r : option (f2fs_sb_info * inode)) : Prop :=
  ∃ t u ei', r = Some (sbi <| fgroup_tree := t |> <| lifetime_tree := u |>, ei') ∧
    groups_ok t ∧ files_ok u ∧ 0 ≤ i_fgroup ei' < 2 ^ 32.

Lemma convert_ok sbi ei :
  groups_ok (fgroup_tree sbi) → files_ok (lifetime_tree sbi) → ltree_lock sbi = false → 0 ≤ i_fgroup ei < 2 ^ 32 →
  restored sbi (convert_fgroup_to_special_journal sbi ei).
Proof.
  intros Hg Hf Hl Hi. unfold convert_fgroup_to_special_journal, lock_ltree.
  destruct (lookup_fgroup_entry (fgroup_tree sbi) (i_fgroup ei)) as [fe|].
  2: { exists (fgroup_tree sbi), (lifetime_tree sbi), ei. split; [by destruct sbi|done]. }
  rewrite Hl. cbn [negb ensure mbind option_bind].
  set (u := set_file (lifetime_tree sbi) (u32 (i_ino ei)) (λ fe, fe <| filetype := FGROUP_EXT_SPECIAL_JOURNAL |>)).
  destruct (find_fgroup_ok (sbi <| lifetime_tree := u |>) FGROUP_EXT_SPECIAL_JOURNAL "KEY-7:JOURNAL") as (t & key & Hr & Ht); [done|done|].
  replace (unlock_ltree _) with (sbi <| lifetime_tree := u |>) by (destruct sbi; simpl in *; by subst).
  rewrite Hr. cbn [mbind option_bind]. eexists _, u, _. split; [by destruct sbi|].
  split; [|split; [by apply set_files_ok|done]].
  apply erase_groups_ok, set_groups_ok; [done|done|]. by intros re [? ?] _.
Qed.

(** A file entry with the key and the arrays of another. *)
Definition file_kept fe fe' : Prop := f_ino fe' = f_ino fe ∧ (file_ok fe → file_ok fe').

Lemma file_kept_trans fe1 fe2 fe3 : file_kept fe1 fe2 → file_kept fe2 fe3 → file_kept fe1 fe3.
Proof. intros [? ?] [? ?]. split; [congruence|auto]. Qed.

Lemma set_sample_kept fe i a b c d : file_kept fe (set_sample fe i a b c d).
Proof.
  split; [done|]. intros (? & ? & ? & ?). unfold file_ok, samples_sized in *. simpl. by rewrite !length_insert.
Qed.

Lemma reset_sample_kept l : ∀ fe d, file_kept fe (foldl reset_sample (fe, d) l).1.
Proof.
  induction l as [|i l IH]; intros fe d; [done|]. cbn [foldl reset_sample].
  repeat bcase; try apply IH. eapply file_kept_trans; [apply set_sample_kept|apply IH].
Qed.

Lemma reset_kept fe : file_kept fe (reset_sample_lifetime fe).
Proof. unfold reset_sample_lifetime. bcase; [done|]. apply reset_sample_kept. Qed.

Lemma average_kept fe : file_kept fe (average_samples fe).
Proof. unfold average_samples. by destruct (foldl _ _ _). Qed.

Lemma hit_kept fe seq i unlink : file_kept fe (hit_sample fe seq i unlink).1.
Proof.
  unfold hit_sample. bcase; [apply set_sample_kept|].
  assert (H : ∀ b lifetime fe', file_kept fe fe' →
    file_kept fe (if b : bool then (fe', 0) else (average_samples fe', lifetime)).1).
  { intros [] lifetime fe' Hf; [done|]. eapply file_kept_trans; [done|apply average_kept]. }
  apply H. destruct (unlink =? 1); apply set_sample_kept.
Qed.

Lemma new_sample_kept fe seq index : file_kept fe (new_sample fe seq index).
Proof. unfold new_sample. destruct (list_find _ _) as [[i s]|]; [apply set_sample_kept|done]. Qed.

Lemma sample_kept sbi fe index unlink : file_kept fe (update_sample_lifetime sbi fe index unlink).1.
Proof.
  unfold update_sample_lifetime.
  set (fe1 := if last_kmeans fe <? kmeans_count sbi then _ else fe).
  assert (H1 : file_kept fe fe1) by (unfold fe1; bcase; [apply (reset_kept fe)|done]).
  set (fe2 := fe1 <| sample_rate := _ |>).
  set (fe3 := if max_range fe2 <? u32 index then _ else fe2).
  assert (H3 : file_kept fe fe3) by (unfold fe3; bcase; done).
  destruct (list_find _ _) as [[i s]|].
  { eapply file_kept_trans; [exact H3|apply hit_kept]. }
  destruct (negb _ && _); destruct (unlink =? -1); simpl; try done;
    eapply file_kept_trans; [exact H3|apply (new_sample_kept fe3)|exact H3|apply (new_sample_kept fe3)].
Qed.

Lemma first_block_kept fe seq start unlink : file_kept fe (update_first_block fe seq start unlink).1.
Proof. unfold update_first_block. repeat bcase; done. Qed.

Lemma new_file_ok sbi ino : file_ok (new_file_entry sbi ino).
Proof. by unfold file_ok, samples_sized. Qed.

Lemma find_file_ok sbi ino :
  files_ok (lifetime_tree sbi) →
  ∃ u fe, find_file sbi ino = Some (sbi <| lifetime_tree := u |>, fe) ∧ files_ok u ∧ file_ok fe ∧
    lookup_file_entry u ino = Some fe.
Proof.
  intros [Hs Hf]. unfold find_file, insert_file_entry.
  destruct (lookup_file_entry (lifetime_tree sbi) ino) as [fe|] eqn:E.
  - exists (lifetime_tree sbi), fe. split; [by destruct sbi|]. split; [done|]. split; [|done].
    apply lookup_entry_Some in E as [Hin _]. rewrite Forall_forall in Hf. auto.
  - rewrite bool_decide_eq_true_2 by done. cbn [ensure mbind option_bind].
    eexists (link_file (lifetime_tree sbi) ino (new_file_entry sbi ino)), _. split; [done|].
    assert (Hl : files_ok (link_file (lifetime_tree sbi) ino (new_file_entry sbi ino))).
    { split; [by apply (link_sorted f_ino _ (new_file_entry sbi ino))|apply link_Forall; [apply new_file_ok|done]]. }
    split; [done|]. split; [apply new_file_ok|].
    apply (lookup_entry_elem f_ino _ (new_file_entry sbi ino)); [apply Hl|]. rewrite link_perm. left.
Qed.

(** The entry of a file replaced by one it was computed from. *)
Lemma put_file_ok u ino fe fe' :
  files_ok u → lookup_file_entry u ino = Some fe → file_kept fe fe' →
  files_ok (set_file u ino (λ _, fe')) ∧ lookup_file_entry (set_file u ino (λ _, fe')) ino = Some fe'.
Proof.
  intros Hu Hl [Hk Hok]. apply lookup_entry_Some in Hl as Hin. destruct Hin as [Hin <-]. split.
  - apply set_files_ok; [done|done|]. intros _ _. apply Hok. destruct Hu as [_ Hu]. rewrite Forall_forall in Hu. auto.
  - rewrite lookup_set by done. rewrite Hl, Z.eqb_refl. done.
Qed.

Definition unlocked sbi : Prop := ltree_lock sbi = false ∧ ftree_lock sbi = false.

(** An inode whose group is a key of the tree and whose path fits. *)
Definition inode_ok ei : Prop := 0 ≤ i_fgroup ei < 2 ^ 32 ∧ path_fits ei.

Lemma count_lifetime_ok sbi ei start written unlink lifetime :
  groups_ok (fgroup_tree sbi) → files_ok (lifetime_tree sbi) → unlocked sbi → inode_ok ei →
  is_Some (lookup_file_entry (lifetime_tree sbi) (u32 (i_ino ei))) →
  restored sbi (count_lifetime sbi ei start written unlink lifetime).
Proof.
  intros Hg Hf [Hl Hl'] [Hi Hp] [fe Hfe]. unfold count_lifetime, lock_ftree.
  destruct (refresh_ok ei Hp Hi) as (ei1 & -> & [Hino _] & Hi1). cbn [mbind option_bind]. rewrite Hl'.
  cbn [negb ensure mbind option_bind]. rewrite Hino.
  destruct (update_entry_ok (sbi <| ftree_lock := true |>) (i_fgroup ei1) lifetime (u32 written) (i_keyword ei1))
    as (t & -> & Ht); [done|done|]. cbn [mbind option_bind].
  replace (lookup_file_entry _ _) with (Some fe) by (by destruct sbi). cbn [mbind option_bind].
  set (sbi1 := sbi <| ftree_lock := true |> <| fgroup_tree := t |>).
  assert (H2 : ∃ t2 u2, groups_ok t2 ∧ files_ok u2 ∧
    (if f_cold fe =? 1 then put_file (clear_fgroup_cold sbi1 (i_fgroup ei1) (f_valid fe)) (u32 (i_ino ei)) (fe <| f_cold := 0 |>)
     else sbi1) = sbi1 <| fgroup_tree := t2 |> <| lifetime_tree := u2 |>).
  { destruct (f_cold fe =? 1).
    - destruct (clear_cold_ok sbi1 (i_fgroup ei1) (f_valid fe)) as (t2 & -> & Ht2); [done|].
      eexists t2, _. split; [done|]. split; [|done]. by apply (put_file_ok (lifetime_tree sbi) _ fe).
    - by exists t, (lifetime_tree sbi). }
  destruct H2 as (t2 & u2 & Ht2 & Hu2 & ->).
  destruct (_ && _).
  - destruct (convert_ok (sbi1 <| fgroup_tree := t2 |> <| lifetime_tree := u2 |>) ei1) as (t3 & u3 & ei3 & -> & ? & ? & ?);
      [done..|]. cbn [mbind option_bind]. eexists t3, u3, ei3. split; [|done]. destruct sbi; simpl in *; by subst.
  - cbn [mbind option_bind]. eexists t2, u2, ei1. split; [|done]. destruct sbi; simpl in *; by subst.
Qed.

(** The operation completes, or it waits for ever for the lock of the groups,
    which a caller has kept. *)
Definition restored_or_stuck sbi (r : option (f2fs_sb_info * inode)) : Prop :=
  restored sbi r ∨ ftree_lock sbi = true ∧ r = None.

Lemma count_lifetime_locked sbi ei start written unlink lifetime :
  ftree_lock sbi = true → inode_ok ei → count_lifetime sbi ei start written unlink lifetime = None.
Proof.
  intros Hl [Hi Hp]. unfold count_lifetime, lock_ftree.
  destruct (refresh_ok ei Hp Hi) as (ei1 & -> & _). cbn [mbind option_bind]. by rewrite Hl.
Qed.

Lemma update_file_lifetime_ok sbi ei start written unlink :
  groups_ok (fgroup_tree sbi) → files_ok (lifetime_tree sbi) → ltree_lock sbi = false → inode_ok ei →
  restored_or_stuck sbi (update_file_lifetime sbi ei start written unlink).
Proof.
  intros Hg Hf Hl Hi. unfold update_file_lifetime, lock_ltree.
  assert (Hsame : restored sbi (Some (sbi, ei))).
  { exists (fgroup_tree sbi), (lifetime_tree sbi), ei. split; [by destruct sbi|]. split_and!; try done; apply Hi. }
  bcase; [by left|]. rewrite Hl. cbn [negb ensure mbind option_bind].
  destruct (_ && _).
  { left. replace (unlock_ltree _) with sbi; [done|]. destruct sbi; simpl in *; by subst. }
  destruct (find_file_ok (sbi <| ltree_lock := true |>) (u32 (i_ino ei))) as (u & fe & -> & Hu & Hfe & Hlk); [done|].
  cbn [mbind option_bind].
  pose proof (first_block_kept fe (user_blocks sbi) start unlink) as Hk. simpl user_blocks.
  destruct (update_first_block fe (user_blocks sbi) start unlink) as [fe1 stop]. simpl in Hk.
  assert (Hput : ∀ fe', unlock_ltree (put_file (sbi <| ltree_lock := true |> <| lifetime_tree := u |>) (u32 (i_ino ei)) fe') =
    sbi <| lifetime_tree := set_file u (u32 (i_ino ei)) (λ _, fe') |>).
  { intros fe'. destruct sbi; simpl in *; by subst. }
  assert (Hdone : ∀ fe', file_kept fe fe' →
    restored sbi (Some (sbi <| lifetime_tree := set_file u (u32 (i_ino ei)) (λ _, fe') |>, ei))).
  { intros fe' Hk'. destruct (put_file_ok u (u32 (i_ino ei)) fe fe') as [H1 H2]; [done..|].
    eexists (fgroup_tree sbi), _, ei. split; [by destruct sbi|]. split_and!; try done; apply Hi. }
  rewrite Hput. destruct stop; [left; by apply Hdone|].
  set (pair := if _ && _ then _ else _).
  assert (Hp : file_kept fe pair.1).
  { unfold pair. destruct (_ && _); [|done]. eapply file_kept_trans; [exact Hk|apply sample_kept]. }
  destruct pair as [fe2 lifetime]. simpl in Hp. rewrite Hput. bcase; [|left; by apply Hdone].
  destruct (ftree_lock sbi) eqn:Hft; [right; split; [done|by apply count_lifetime_locked]|left].
  destruct (put_file_ok u (u32 (i_ino ei)) fe fe2) as [H1 H2]; [done..|].
  destruct (count_lifetime_ok (sbi <| lifetime_tree := set_file u (u32 (i_ino ei)) (λ _, fe2) |>) ei start written unlink lifetime)
    as (t & u' & ei' & -> & ? & ? & ?); [done..|eauto|]. exists t, u', ei'. split; [by destruct sbi|done].
Qed.

Lemma update_file_valid_ok sbi ei v :
  groups_ok (fgroup_tree sbi) → files_ok (lifetime_tree sbi) → ltree_lock sbi = false → inode_ok ei →
  restored_or_stuck sbi (update_file_valid sbi ei v).
Proof.
  intros Hg Hf Hl [Hi Hp]. unfold update_file_valid, lock_ltree. rewrite Hl. cbn [negb ensure mbind option_bind].
  destruct (_ && _).
  { left. exists (fgroup_tree sbi), (lifetime_tree sbi), ei. split; [destruct sbi; simpl in *; by subst|done]. }
  destruct (find_file_ok (sbi <| ltree_lock := true |>) (u32 (i_ino ei))) as (u & fe & -> & Hu & Hfe & Hlk); [done|].
  cbn [mbind option_bind]. set (fe' := fe <| f_valid := _ |>).
  destruct (put_file_ok u (u32 (i_ino ei)) fe fe') as [H1 H2]; [done..|].
  destruct (refresh_ok ei Hp Hi) as (ei1 & -> & _ & Hi1). cbn [mbind option_bind]. unfold lock_ftree.
  set (u' := set_file u (u32 (i_ino ei)) (λ _, fe')) in *.
  replace (unlock_ltree _) with (sbi <| lifetime_tree := u' |>) by (destruct sbi; simpl in *; by subst).
  simpl ftree_lock. destruct (ftree_lock sbi) eqn:Hft; [by right|left]. cbn [negb ensure mbind option_bind].
  destruct (update_valid_ok (sbi <| lifetime_tree := u' |> <| ftree_lock := true |>) (i_fgroup ei1) (valid_change fe v)
    (i_keyword ei1) (f_cold fe')) as (t & -> & Ht); [done|done|].
  cbn [mbind option_bind]. exists t, u', ei1. split; [destruct sbi; simpl in *; by subst|done].
Qed.
