(* ===== verification/KmeansInv.v ===== *)
(** * K-means: sorting, nearest centres and the order of the clusters

    The lemmas behind the theorems on the clustering: the sort of the code is a
    stable sort, the nearest centres of ordered lifetimes are ordered, and the
    centroids of an ordered assignment are ordered in the same way. *)

From S2P Require Import Prelude Stream Kmeans.

Implicit Types (data center : list Z).

(** ** The nearest centre *)

Definition nearest center (d : Z) : Z := closest 0 ((λ c, if d <? c then c - d else d - c) <$> center) (-1) MAX_DIST.

Lemma choose_nearest data center :
  choose_all_clusters_from_distances (calc_all_distances data center) = nearest center <$> data.
Proof. unfold choose_all_clusters_from_distances, calc_all_distances. by rewrite <- list_fmap_compose. Qed.

(** The search returns the first of the least elements. *)
Lemma closest_spec row : ∀ jj b c,
  (closest jj row b c = b ∧ Forall (λ x, c ≤ x) row) ∨
  (∃ i x, row !! i = Some x ∧ closest jj row b c = jj + Z.of_nat i ∧ x < c ∧ Forall (λ y, x ≤ y) row ∧
     ∀ j y, row !! j = Some y → (j < i)%nat → x < y).
Proof.
  induction row as [|x row IH]; intros jj b c; simpl; [left; done|].
  destruct (Z.ltb_spec x c).
  - right. destruct (IH (jj + 1) jj x) as [[-> Hx]|(i & y & Hi & -> & ? & Hy & Hf)].
    + exists 0%nat, x. repeat split; try done; [lia| |intros ????; lia].
      by constructor.
    + exists (S i), y. repeat split; try done; [lia|lia| |].
      * constructor; [lia|done].
      * intros [|j] z; simpl; [intros; simplify_eq; lia|]. intros Hz ?. apply (Hf j z Hz). lia.
  - destruct (IH (jj + 1) b c) as [[-> Hx]|(i & y & Hi & -> & ? & Hy & Hf)].
    + left. split; [done|]. by constructor.
    + right. exists (S i), y. repeat split; try done; [lia| |].
      * constructor; [lia|done].
      * intros [|j] z; simpl; [intros; simplify_eq; lia|]. intros Hz ?. apply (Hf j z Hz). lia.
Qed.

Definition in_dist (z : Z) : Prop := 0 ≤ z < MAX_DIST.

Definition gap (d c : Z) : Z := if d <? c then c - d else d - c.

Lemma nearest_spec center d :
  center ≠ [] → Forall in_dist center → in_dist d →
  ∃ i c, center !! i = Some c ∧ nearest center d = Z.of_nat i ∧
    (∀ j e, center !! j = Some e → gap d c ≤ gap d e) ∧
    (∀ j e, center !! j = Some e → (j < i)%nat → gap d c < gap d e).
Proof.
  intros Hne Hc Hd. unfold nearest. fold (gap d).
  destruct (closest_spec (gap d <$> center) 0 (-1) MAX_DIST) as [[_ Hall]|(i & x & Hi & Hr & Hlt & Hle & Hf)].
  - destruct center as [|c center]; [done|]. inversion Hc as [|?? H1 H2]; subst.
    rewrite fmap_cons in Hall. apply Forall_cons in Hall as [Hg _]. unfold gap, in_dist in *.
    destruct (Z.ltb_spec d c); lia.
  - rewrite list_lookup_fmap in Hi. apply fmap_Some in Hi as (c & Hi & ->).
    exists i, c. split_and!; [done|lia| |].
    + intros j e Hj. rewrite Forall_fmap, Forall_lookup in Hle. by apply (Hle j e).
    + intros j e Hj ?. apply (Hf j); [|done]. by rewrite list_lookup_fmap, Hj.
Qed.

(** ** Ordered assignments *)

(** Each group is assigned one of the centres. *)
Definition labels center (index : list Z) : Prop := Forall (λ l, 0 ≤ l < Z.of_nat (length center)) index.

(** A group with a lifetime that is not longer has the same centre or a smaller
    one. *)
Definition ordered data center (index : list Z) : Prop :=
  ∀ i j x y a b, data !! i = Some x → data !! j = Some y → index !! i = Some a → index !! j = Some b →
    x ≤ y → a = b ∨ ∃ c e, rd center a = Some c ∧ rd center b = Some e ∧ c < e.

Lemma nearest_mono center x y :
  center ≠ [] → Forall in_dist center → in_dist x → in_dist y → x ≤ y →
  nearest center x = nearest center y ∨
  ∃ c e, rd center (nearest center x) = Some c ∧ rd center (nearest center y) = Some e ∧ c < e.
Proof.
  intros Hne Hc Hx Hy Hle.
  destruct (nearest_spec center x) as (i & c & Hi & -> & Hm1 & Hf1); [done..|].
  destruct (nearest_spec center y) as (j & e & Hj & -> & Hm2 & Hf2); [done..|].
  pose proof (Hm1 j e Hj) as A1. pose proof (Hm2 i c Hi) as A2.
  pose proof (Hf1 j e Hj) as B1. pose proof (Hf2 i c Hi) as B2. unfold gap in *.
  destruct (decide (i = j)) as [->|Hij]; [by left|]. right. exists c, e.
  rewrite !rd_Some, !Nat2Z.id. split_and!; [lia|done|lia|done|].
  destruct (decide (i < j)%nat) as [Hlt|Hlt]; [specialize (B2 Hlt)|specialize (B1 ltac:(lia))]; clear Hf1 Hf2 Hm1 Hm2;
    repeat match goal with H : context [if ?b then _ else _] |- _ => let E := fresh in destruct b eqn:E; bools end; lia.
Qed.

Lemma nearest_ordered data center :
  center ≠ [] → Forall in_dist center → Forall in_dist data →
  ordered data center (nearest center <$> data) ∧ labels center (nearest center <$> data).
Proof.
  intros Hne Hc Hd. rewrite Forall_lookup in Hd. split.
  - intros i j x y a b Hi Hj Ha Hb Hle. rewrite list_lookup_fmap in Ha, Hb.
    rewrite Hi in Ha. rewrite Hj in Hb. simplify_eq/=. apply nearest_mono; eauto.
  - apply Forall_fmap, Forall_lookup. intros i x Hi. simpl.
    destruct (nearest_spec center x) as (n & c & Hn%lookup_lt_Some & -> & _); eauto with lia.
Qed.

(** ** Centroids *)

Definition zsum : list Z → Z := foldr Z.add 0.

(** The lifetimes of a cluster. *)
Definition members (ps : list (Z * Z)) (c : Z) : list Z := fst <$> filter (λ p, p.2 = c) ps.

Lemma members_cons p ps c :
  members (p :: ps) c = if decide (p.2 = c) then p.1 :: members ps c else members ps c.
Proof. unfold members. rewrite filter_cons. by case_decide. Qed.

Lemma zsum_bounds lo hi l :
  Forall (λ x, lo ≤ x ≤ hi) l → lo * Z.of_nat (length l) ≤ zsum l ≤ hi * Z.of_nat (length l).
Proof. induction 1; simpl; [lia|]. unfold zsum in *. lia. Qed.

(** The counters of a cluster after its members have been added, when nothing
    overflows. *)
Lemma add_members (k : nat) ps : ∀ ms ss (c : nat) m s,
  Forall (λ p, in_dist p.1 ∧ 0 ≤ p.2 < Z.of_nat k) ps →
  ms !! c = Some m → ss !! c = Some s → 0 ≤ m → 0 ≤ s →
  m + Z.of_nat (length ps) < 2 ^ 31 → s + 2 ^ 32 * Z.of_nat (length ps) < 2 ^ 64 →
  let acc := foldl (add_member k) (ms, ss) ps in
  acc.1 !! c = Some (m + Z.of_nat (length (members ps (Z.of_nat c)))) ∧
  acc.2 !! c = Some (s + zsum (members ps (Z.of_nat c))).
Proof.
  induction ps as [|[d a] ps IH]; intros ms ss c m s Hps Hm Hs Hm0 Hs0 Hml Hsl.
  { simpl. by rewrite !Z.add_0_r. }
  apply Forall_cons in Hps as [[Hd Ha] Hps]. cbn [foldl add_member fst snd length] in *.
  destruct (Z.ltb_spec a 0); [lia|]. destruct (Z.leb_spec (Z.of_nat k) a); [lia|]. simpl orb; cbv iota.
  rewrite members_cons. simpl fst; simpl snd. unfold in_dist, MAX_DIST in *.
  case_decide as Hc.
  - subst a. rewrite Nat2Z.id.
    edestruct (IH (alter (λ m, s32 (m + 1)) c ms) (alter (λ s, u64 (s + d)) c ss) c (m + 1) (s + d)) as [-> ->];
      [done| | |lia|lia|lia|lia|].
    + rewrite list_lookup_alter_eq, Hm. simpl. by rewrite s32_small by lia.
    + rewrite list_lookup_alter_eq, Hs. simpl. by rewrite u64_small by lia.
    + simpl length. split; f_equal; [lia|unfold zsum; simpl; lia].
  - apply IH; try done; try lia; rewrite list_lookup_alter_ne by lia; done.
Qed.

Lemma add_members_length k ps : ∀ ms ss,
  length (foldl (add_member k) (ms, ss) ps).1 = length ms ∧ length (foldl (add_member k) (ms, ss) ps).2 = length ss.
Proof.
  induction ps as [|[d a] ps IH]; intros ms ss; [done|]. simpl.
  destruct (IH (alter (λ m, s32 (m + 1)) (if (a <? 0) || (Z.of_nat k <=? a) then (k - 1)%nat else Z.to_nat a) ms)
    (alter (λ s, u64 (s + d)) (if (a <? 0) || (Z.of_nat k <=? a) then (k - 1)%nat else Z.to_nat a) ss)) as [-> ->].
  by rewrite !length_alter.
Qed.

Lemma centroids_length k data index : length (calc_cluster_centroids_org k data index) = k.
Proof.
  unfold calc_cluster_centroids_org.
  pose proof (add_members_length k (zip data index) (replicate k 0) (replicate k 0)) as [H1 H2].
  destruct (foldl _ _ _) as [ms ss]. simpl in *. rewrite length_zip_with, H1, H2, length_replicate. lia.
Qed.

(** Arrays the C types can index. *)
Definition sized data : Prop := Z.of_nat (length data) < 2 ^ 31.

Lemma labelled data center index :
  Forall in_dist data → labels center index →
  Forall (λ p, in_dist p.1 ∧ 0 ≤ p.2 < Z.of_nat (length center)) (zip data index).
Proof.
  intros Hd Hl. apply Forall_lookup. intros i [d a] Hi. apply lookup_zip_Some in Hi as [H1 H2].
  unfold labels in Hl. rewrite Forall_lookup in Hd, Hl. simpl. eauto.
Qed.

Lemma centroid_value data center index (c : nat) :
  Forall in_dist data → sized data → labels center index → (c < length center)%nat →
  let ds := members (zip data index) (Z.of_nat c) in
  calc_cluster_centroids_org (length center) data index !! c =
    Some (if decide (ds = []) then 0 else zsum ds / Z.of_nat (length ds)).
Proof.
  intros Hd Hs Hl Hc ds. unfold calc_cluster_centroids_org. unfold sized in Hs.
  assert (Hz : (length (zip data index) ≤ length data)%nat) by (rewrite length_zip_with; lia).
  assert (Hds : (length ds ≤ length (zip data index))%nat).
  { unfold ds, members. rewrite length_fmap. apply length_filter. }
  pose proof (add_members (length center) (zip data index) (replicate (length center) 0)
    (replicate (length center) 0) c 0 0) as Hm.
  destruct Hm as [H1 H2]; try (by apply lookup_replicate_2); try (by apply labelled); try lia.
  fold ds in H1, H2. destruct (foldl _ _ _) as [ms ss]. simpl in H1, H2.
  rewrite lookup_zip_with, H1. simpl. rewrite H2. simpl.
  destruct ds as [|d ds'] eqn:E; [done|]. cbn [length] in *.
  rewrite decide_False by done. destruct (Z.eqb_spec (Z.of_nat (S (length ds'))) 0); [lia|].
  rewrite u64_small by lia. done.
Qed.

Lemma mean_bounds lo hi l :
  l ≠ [] → Forall (λ x, lo ≤ x ≤ hi) l → lo ≤ zsum l / Z.of_nat (length l) ≤ hi.
Proof.
  intros Hl H%zsum_bounds. destruct l as [|x l]; [done|]. cbn [length] in *.
  split; [apply Z.div_le_lower_bound|apply Z.div_le_upper_bound]; lia.
Qed.

Lemma elem_of_members data index c d :
  d ∈ members (zip data index) c ↔ ∃ i, data !! i = Some d ∧ index !! i = Some c.
Proof.
  unfold members. rewrite list_elem_of_fmap. split.
  - intros ([x a] & -> & Hp). apply list_elem_of_filter in Hp as [<- Hp].
    apply list_elem_of_lookup in Hp as [i Hi]. apply lookup_zip_Some in Hi. eauto.
  - intros (i & H1 & H2). exists (d, c). split; [done|]. apply list_elem_of_filter. split; [done|].
    apply list_elem_of_lookup. exists i. by apply lookup_zip_Some.
Qed.

Lemma centroids_in_dist data center index :
  Forall in_dist data → sized data → labels center index →
  Forall in_dist (calc_cluster_centroids_org (length center) data index).
Proof.
  intros Hd Hs Hl. apply Forall_lookup. intros c x Hc.
  assert (Hlt : (c < length center)%nat) by (rewrite <- (centroids_length (length center) data index); by eapply lookup_lt_Some).
  rewrite centroid_value in Hc by done. case_decide; simplify_eq; [done|].
  enough (0 ≤ zsum (members (zip data index) (Z.of_nat c)) / Z.of_nat (length (members (zip data index) (Z.of_nat c)))
            ≤ MAX_DIST - 1) by (unfold in_dist; lia).
  apply mean_bounds; [done|]. apply Forall_forall. intros d (i & Hi & _)%elem_of_members.
  rewrite Forall_lookup in Hd. apply Hd in Hi. unfold in_dist in Hi. lia.
Qed.

(** The lifetimes of a cluster are separate from those of a cluster with a
    larger centre. *)
Lemma ordered_separate data center index a b c e :
  ordered data center index → rd center a = Some c → rd center b = Some e → c < e →
  ∀ x y, x ∈ members (zip data index) a → y ∈ members (zip data index) b → x < y.
Proof.
  intros Ho Ha Hb Hlt x y (i & Hi & Hia)%elem_of_members (j & Hj & Hjb)%elem_of_members.
  destruct (decide (x < y)); [done|].
  destruct (Ho j i y x b a) as [->|(e' & c' & He & Hc & ?)]; try done; [lia|..]; simplify_eq; lia.
Qed.

Lemma below_mean l x :
  l ≠ [] → (∀ y, y ∈ l → x < y) → x < zsum l / Z.of_nat (length l).
Proof.
  intros Hne Hl. destruct l as [|z l]; [done|].
  assert (x + 1 ≤ zsum (z :: l) / Z.of_nat (length (z :: l))); [|lia].
  apply Z.div_le_lower_bound; [simpl; lia|].
  assert (H : Forall (λ y, x + 1 ≤ y) (z :: l)).
  { apply Forall_forall. intros y Hy%Hl. lia. }
  revert H. generalize (z :: l). clear. induction 1; simpl; [lia|]. unfold zsum in *. lia.
Qed.

Lemma above_mean l x :
  l ≠ [] → (∀ y, y ∈ l → y ≤ x) → zsum l / Z.of_nat (length l) ≤ x.
Proof.
  intros Hne Hl. destruct l as [|z l]; [done|]. apply Z.div_le_upper_bound; [simpl; lia|].
  assert (H : Forall (λ y, y ≤ x) (z :: l)) by (by apply Forall_forall).
  revert H. generalize (z :: l). clear. induction 1; simpl; [lia|]. unfold zsum in *. lia.
Qed.

Lemma means_lt l l' :
  l ≠ [] → l' ≠ [] → (∀ x y, x ∈ l → y ∈ l' → x < y) →
  zsum l / Z.of_nat (length l) < zsum l' / Z.of_nat (length l').
Proof.
  intros H1 H2 H. apply below_mean; [done|]. intros y Hy.
  enough (zsum l / Z.of_nat (length l) ≤ y - 1) by lia. apply above_mean; [done|].
  intros x Hx. specialize (H x y Hx Hy). lia.
Qed.

(** The centroids of an ordered assignment order it again. *)
Lemma centroids_ordered data center index :
  Forall in_dist data → sized data → labels center index → ordered data center index →
  ordered data (calc_cluster_centroids_org (length center) data index) index.
Proof.
  intros Hd Hs Hl Ho i j x y a b Hi Hj Ha Hb Hle.
  destruct (Ho i j x y a b) as [->|(c & e & Hc & He & Hlt)]; try done; [by left|]. right.
  assert (Hma : members (zip data index) a ≠ []).
  { intros E. apply (not_elem_of_nil x). rewrite <- E. apply elem_of_members. eauto. }
  assert (Hmb : members (zip data index) b ≠ []).
  { intros E. apply (not_elem_of_nil y). rewrite <- E. apply elem_of_members. eauto. }
  apply rd_lt in Hc as Hca. apply rd_lt in He as Heb.
  pose proof (centroid_value data center index (Z.to_nat a) Hd Hs Hl ltac:(lia)) as H1.
  pose proof (centroid_value data center index (Z.to_nat b) Hd Hs Hl ltac:(lia)) as H2.
  cbv zeta in H1, H2. rewrite Z2Nat.id, decide_False in H1 by (done || lia). rewrite Z2Nat.id, decide_False in H2 by (done || lia).
  do 2 eexists. rewrite !rd_Some. split; [split; [lia|exact H1]|]. split; [split; [lia|exact H2]|].
  apply means_lt; [done..|]. eapply ordered_separate; eauto.
Qed.

(** ** The result of k-means *)

(** What the loop keeps: the assignments are ordered by some centres. *)
Record kstate data (k : nat) (center index : list Z) : Prop := {
  ks_len : length center = k;
  ks_dist : Forall in_dist center;
  ks_labels : labels center index;
  ks_ordered : ordered data center index;
  ks_size : length index = length data
}.

Section kmeans.
Context (data : list Z) (k : nat).
Context (Hdata : Forall in_dist data) (Hsize : sized data) (Hk : (0 < k)%nat).

Lemma centroids_kstate center index :
  kstate data k center index → kstate data k (calc_cluster_centroids_org k data index) index.
Proof.
  intros [<- Hd Hl Ho Hsz]. split.
  - apply centroids_length.
  - by apply centroids_in_dist.
  - unfold labels. by rewrite centroids_length.
  - by apply centroids_ordered.
  - done.
Qed.

Lemma nearest_kstate center :
  length center = k → Forall in_dist center →
  kstate data k center (choose_all_clusters_from_distances (calc_all_distances data center)).
Proof.
  intros Hl Hd. rewrite choose_nearest.
  destruct (nearest_ordered data center) as [Ho Hlab]; [by destruct center; simpl in *; [lia|]|done..|].
  split; try done. by rewrite length_fmap.
Qed.

Lemma kmeans_loop_kstate iterations : ∀ center cur old prev tot,
  kstate data k center cur → kstate data k old prev →
  let r := kmeans_loop iterations data center cur prev tot in kstate data k r.1 r.2.
Proof.
  induction iterations as [|n IH]; intros center cur old prev tot Hcur Hprev; [done|].
  cbn [kmeans_loop]. rewrite (ks_len _ _ _ _ Hcur).
  pose proof (centroids_kstate _ _ Hcur) as Hc. destruct (_ <? _).
  { by eapply centroids_kstate. }
  pose proof (nearest_kstate _ (ks_len _ _ _ _ Hc) (ks_dist _ _ _ _ Hc)) as Hn.
  destruct (_ =? 0); [done|]. by eapply IH.
Qed.

Lemma kmeans_org_kstate center :
  length center = k → Forall in_dist center →
  let r := kmeans_org data center in kstate data k r.1 r.2.
Proof. intros Hl Hd. pose proof (nearest_kstate center Hl Hd). by eapply kmeans_loop_kstate. Qed.
End kmeans.

(** ** Sorting *)

(** The order of the sort: by lifetime, and by index where the lifetimes agree. *)
Definition before data (i j : nat) : Prop :=
  ∃ x y, data !! i = Some x ∧ data !! j = Some y ∧ (x < y ∨ x = y ∧ (i < j)%nat).

Lemma min_scan_spec data : ∀ visit j m idx,
  length visit = length data →
  (min_scan j data visit m idx = idx ∧ ∀ i x, data !! i = Some x → visit !! i = Some false → m ≤ x) ∨
  (∃ i x, data !! i = Some x ∧ visit !! i = Some false ∧ min_scan j data visit m idx = Some (j + i)%nat ∧ x < m ∧
     ∀ i' y, data !! i' = Some y → visit !! i' = Some false → x < y ∨ x = y ∧ (i ≤ i')%nat).
Proof.
  induction data as [|d data IH]; intros [|v visit] j m idx Hlen; simplify_eq/=; [by left|].
  destruct v; [|destruct (Z.ltb_spec d m)].
  - destruct (IH visit (S j) m idx) as [[-> H]|(i & x & Hi & Hv & -> & ? & H)]; [done|left|right].
    + split; [done|]. intros [|i] x; simpl; [done|apply H].
    + exists (S i), x. split_and!; try done; [f_equal; lia|].
      intros [|i'] y; simpl; [done|]. intros H1 H2. destruct (H i' y H1 H2); [by left|right; lia].
  - right. destruct (IH visit (S j) d (Some j)) as [[-> H1]|(i & x & Hi & Hv & -> & ? & H1)]; [done| |].
    + exists 0%nat, d. split_and!; try done; [f_equal; lia|].
      intros [|i'] y; simpl; intros Hy Hv'; simplify_eq; [right; lia|].
      specialize (H1 i' y Hy Hv'). lia.
    + exists (S i), x. split_and!; try done; [f_equal; lia|lia|].
      intros [|i'] y; simpl; intros Hy Hv'; simplify_eq; [left; lia|].
      destruct (H1 i' y Hy Hv'); [by left|right; lia].
  - destruct (IH visit (S j) m idx) as [[-> H1]|(i & x & Hi & Hv & -> & ? & H1)]; [done|left|right].
    + split; [done|]. intros [|i] x; simpl; [naive_solver|apply H1].
    + exists (S i), x. split_and!; try done; [f_equal; lia|].
      intros [|i'] y; simpl; intros Hy Hv'; simplify_eq; [left; lia|].
      destruct (H1 i' y Hy Hv'); [by left|right; lia].
Qed.

Definition unvisited (visit : list bool) : nat := length (filter (λ v, v = false) visit).

Lemma unvisited_insert visit i :
  visit !! i = Some false → unvisited visit = S (unvisited (<[i := true]> visit)).
Proof.
  unfold unvisited. revert i. induction visit as [|v visit IH]; intros [|i]; simpl; intros; simplify_eq; [done|].
  rewrite !filter_cons. case_decide; simpl; erewrite IH; done.
Qed.

Lemma unvisited_pos visit : (0 < unvisited visit)%nat → ∃ i, visit !! i = Some false.
Proof.
  unfold unvisited. induction visit as [|[] visit IH]; simpl; [lia| |]; intros H.
  - destruct IH as [i Hi]; [done|]. by exists (S i).
  - by exists 0%nat.
Qed.

(** The loop lists the elements that are not visited, in order. *)
Lemma sort_loop_spec data : Forall in_dist data → ∀ passes visit,
  length visit = length data → unvisited visit = passes →
  length (sort_loop passes data visit) = passes ∧
  (∀ i, i ∈ sort_loop passes data visit → visit !! i = Some false) ∧
  StronglySorted (before data) (sort_loop passes data visit).
Proof.
  intros Hd. induction passes as [|n IH]; intros visit Hlen Hun; cbn [sort_loop].
  { split_and!; [done|intros ? []%not_elem_of_nil|constructor]. }
  destruct (min_scan_spec data visit 0 MAX_DIST None Hlen) as [[_ Hn]|(i & x & Hi & Hv & -> & _ & Hmin)].
  - destruct (unvisited_pos visit) as [i Hi]; [lia|].
    destruct (lookup_lt_is_Some_2 data i) as [x Hx]; [rewrite <- Hlen; by eapply lookup_lt_Some|].
    rewrite Forall_lookup in Hd. specialize (Hn i x Hx Hi). apply Hd in Hx. unfold in_dist in Hx. lia.
  - simpl. destruct (IH (<[i := true]> visit)) as (Hl & Hin & Hs).
    { by rewrite length_insert. }
    { rewrite (unvisited_insert _ _ Hv) in Hun. lia. }
    assert (Hin' : ∀ j, j ∈ sort_loop n data (<[i := true]> visit) → i ≠ j ∧ visit !! j = Some false).
    { intros j Hj%Hin. destruct (decide (i = j)) as [->|Hne].
      - rewrite list_lookup_insert_eq in Hj; [done|by eapply lookup_lt_Some].
      - by rewrite list_lookup_insert_ne in Hj. }
    split_and!; [lia| |].
    + intros j [->|Hj]%elem_of_cons; [done|]. by apply Hin'.
    + constructor; [done|]. apply Forall_forall. intros j [Hne Hj]%Hin'.
      destruct (lookup_lt_is_Some_2 data j) as [y Hy]; [rewrite <- Hlen; by eapply lookup_lt_Some|].
      exists x, y. split_and!; [done..|]. destruct (Hmin j y Hy Hj) as [?|[? ?]]; [by left|right; lia].
Qed.

Lemma unvisited_replicate n : unvisited (replicate n false) = n.
Proof. unfold unvisited. induction n; simpl; [done|]. f_equal. done. Qed.

Lemma before_irrefl data i : ¬ before data i i.
Proof. intros (x & y & H1 & H2 & ?). simplify_eq. lia. Qed.

(** The sort of the code is a stable sort of all elements. *)
Lemma sort_index_spec data :
  Forall in_dist data →
  StronglySorted (before data) (sort_index data) ∧ sort_index data ≡ₚ seq 0 (length data).
Proof.
  intros Hd. unfold sort_index.
  destruct (sort_loop_spec data Hd (length data) (replicate (length data) false)) as (Hl & Hin & Hs).
  { by rewrite length_replicate. } { apply unvisited_replicate. }
  split; [done|]. symmetry.
  assert (NoDup (sort_loop (length data) data (replicate (length data) false))) as Hnd.
  { clear Hl Hin. induction Hs as [|i l Hs IH Hf]; constructor; [|done].
    intros Hi. rewrite Forall_forall in Hf. by apply (before_irrefl data i), Hf. }
  symmetry. apply submseteq_length_Permutation; [|rewrite length_seq; lia].
  apply NoDup_submseteq; [done|]. intros i Hi%Hin. apply lookup_replicate in Hi as [_ Hi].
  apply elem_of_seq. lia.
Qed.

(** ** Ranks *)

Definition rank_pass center (order_result : list Z) (i : Z) : list Z :=
  let index := default 0%nat (min_scan 0 center ((λ o, 0 <=? o) <$> order_result) MAX_DIST None) in
  <[index := i]> order_result.

Lemma rank_passes center : Forall in_dist center → ∀ n a ord,
  0 ≤ a → length ord = length center → unvisited ((λ o, 0 <=? o) <$> ord) = n →
  let order := sort_loop n center ((λ o, 0 <=? o) <$> ord) in
  let ranks := foldl (rank_pass center) ord (seqZ a (Z.of_nat n)) in
  (∀ p i, order !! p = Some i → ranks !! i = Some (a + Z.of_nat p)) ∧
  (∀ i, i ∉ order → ranks !! i = ord !! i) ∧ length ranks = length ord.
Proof.
  intros Hc. induction n as [|n IH]; intros a ord Ha Hlen Hun; [done|].
  destruct (sort_loop_spec center Hc (S n) ((λ o, 0 <=? o) <$> ord)) as (_ & Hin & Hs);
    [by rewrite length_fmap|done|].
  rewrite seqZ_cons by lia. replace (Z.pred (Z.of_nat (S n))) with (Z.of_nat n) by lia.
  cbn [foldl sort_loop] in *. unfold rank_pass at 2 4 6.
  destruct (min_scan_spec center ((λ o, 0 <=? o) <$> ord) 0 MAX_DIST None) as [[_ Hn]|(i & x & Hi & Hv & Hms & _)].
  { by rewrite length_fmap. }
  { destruct (unvisited_pos ((λ o, 0 <=? o) <$> ord)) as [i Hi]; [lia|].
    destruct (lookup_lt_is_Some_2 center i) as [x Hx].
    { apply lookup_lt_Some in Hi. rewrite length_fmap in Hi. lia. }
    rewrite Forall_lookup in Hc. specialize (Hn i x Hx Hi). apply Hc in Hx. unfold in_dist in Hx. lia. }
  rewrite Hms in *. cbn [Nat.add default from_option] in *. unfold id.
  assert (Hvis : (λ o, 0 <=? o) <$> <[i := a]> ord = <[i := true]> ((λ o, 0 <=? o) <$> ord)).
  { rewrite list_fmap_insert. f_equal. by apply Z.leb_le. }
  assert (Hil : (i < length ord)%nat) by (rewrite Hlen; by eapply lookup_lt_Some).
  destruct (IH (a + 1) (<[i := a]> ord)) as (H1 & H2 & H3).
  { lia. } { by rewrite length_insert. } { rewrite Hvis. rewrite (unvisited_insert _ _ Hv) in Hun. lia. }
  rewrite Hvis in H1, H2. replace (Z.succ a) with (a + 1) by lia.
  apply StronglySorted_inv in Hs as [_ Hf]. split_and!.
  - intros [|p] j Hj; simpl in Hj; simplify_eq.
    + rewrite H2; [rewrite list_lookup_insert_eq by done; f_equal; lia|].
      intros Hj. rewrite Forall_forall in Hf. by apply (before_irrefl center j), Hf.
    + rewrite (H1 p j Hj). f_equal. lia.
  - intros j [Hne Hj]%not_elem_of_cons. rewrite H2 by done. by rewrite list_lookup_insert_ne.
  - rewrite H3. apply length_insert.
Qed.

Lemma order_clusters_spec center :
  Forall in_dist center →
  length (order_clusters center) = length center ∧
  ∀ p i, sort_index center !! p = Some i → order_clusters center !! i = Some (Z.of_nat p).
Proof.
  intros Hc. unfold order_clusters, sort_index. fold (rank_pass center).
  assert (Hv : (λ o, 0 <=? o) <$> replicate (length center) (-1) = replicate (length center) false).
  { by rewrite fmap_replicate. }
  destruct (rank_passes center Hc (length center) 0 (replicate (length center) (-1))) as (H1 & _ & H3).
  { done. } { by rewrite length_replicate. } { rewrite Hv. apply unvisited_replicate. }
  rewrite Hv in H1. rewrite length_replicate in H3. auto.
Qed.

Lemma StronglySorted_lookup {A} (R : A → A → Prop) l p q x y :
  StronglySorted R l → l !! p = Some x → l !! q = Some y → (p < q)%nat → R x y.
Proof.
  intros Hs. revert p q. induction Hs as [|z l Hs IH Hf]; intros [|p] [|q] Hp Hq ?; simplify_eq/=; try lia.
  - rewrite Forall_lookup in Hf. eauto.
  - apply (IH p q); [done..|lia].
Qed.

(** Every cluster has a rank, and a cluster with a smaller centre has a smaller
    one. *)
Lemma rank_mono center a b c e :
  Forall in_dist center → rd center a = Some c → rd center b = Some e → c < e →
  ∃ r s, rd (order_clusters center) a = Some r ∧ rd (order_clusters center) b = Some s ∧ r < s.
Proof.
  intros Hc Ha Hb Hlt. destruct (order_clusters_spec center Hc) as [_ Ho].
  destruct (sort_index_spec center Hc) as [Hs Hp].
  apply rd_Some in Ha as [? Ha]. apply rd_Some in Hb as [? Hb].
  assert (Hin : ∀ i z, center !! i = Some z → ∃ p, sort_index center !! p = Some i).
  { intros i z Hi%lookup_lt_Some. apply list_elem_of_lookup. rewrite Hp. apply elem_of_seq. lia. }
  destruct (Hin _ _ Ha) as [p Hpa]. destruct (Hin _ _ Hb) as [q Hqb].
  exists (Z.of_nat p), (Z.of_nat q). rewrite !rd_Some, (Ho _ _ Hpa), (Ho _ _ Hqb). split_and!; try done.
  destruct (decide (p = q)) as [->|].
  { rewrite Hqb in Hpa. injection Hpa as E. rewrite E in Hb. simplify_eq. lia. }
  destruct (decide (q < p)%nat); [|lia].
  destruct (StronglySorted_lookup _ _ q p _ _ Hs Hqb Hpa) as (y & x & Hy & Hx & ?); [lia|]. simplify_eq; lia.
Qed.

Lemma rank_range center a :
  Forall in_dist center → 0 ≤ a < Z.of_nat (length center) →
  ∃ r, rd (order_clusters center) a = Some r ∧ 0 ≤ r < Z.of_nat (length center).
Proof.
  intros Hc Ha. destruct (order_clusters_spec center Hc) as [_ Ho].
  destruct (sort_index_spec center Hc) as [_ Hp].
  assert (Z.to_nat a ∈ sort_index center) as [p Hpa]%list_elem_of_lookup by (rewrite Hp; apply elem_of_seq; lia).
  exists (Z.of_nat p). rewrite rd_Some, (Ho _ _ Hpa). apply lookup_lt_Some in Hpa.
  rewrite Hp, length_seq in Hpa. split_and!; [lia|done|lia..].
Qed.
