(* ===== verification/KmeansRun.v ===== *)
(** * A round of clustering

    [f2fs_update_cluster] keeps the invariant whenever it returns, and the
    lemmas that it does return and what it assigns. *)

From S2P Require Import Prelude Stream Kmeans StreamInv KmeansInv.

Implicit Types (sbi : f2fs_sb_info) (re : fgroup_entry) (data center : list Z).

(** ** The groups *)

Lemma update_new_ema_kept sbi re :
  fgroup (update_new_ema sbi re).1 = fgroup re ∧ (group_ok re → group_ok (update_new_ema sbi re).1).
Proof.
  assert (Hr : ∀ z, fgroup (raise_cluster re (f2fs_lifetime_to_cluster sbi z)) = fgroup re ∧
    (group_ok re → group_ok (raise_cluster re (f2fs_lifetime_to_cluster sbi z)))).
  { intros z. unfold raise_cluster. pose proof (lifetime_to_cluster_range sbi z) as Hz.
    bcase; [|done]. split; [done|]. intros [? ?]. split; [done|]. simpl. unfold NR_CLUSTER in *.
    rewrite u32_small; lia. }
  unfold update_new_ema. repeat bcase; simpl; try done; try apply Hr.
  split; [done|]. intros [? ?]. by split.
Qed.

Lemma collect_keys sbi t : fgroup <$> (collect sbi t).1 = fgroup <$> t.
Proof.
  induction t as [|re t IH]; [done|]. cbn [collect]. destruct (update_new_ema_kept sbi re) as [Hk _].
  destruct (update_new_ema sbi re), (collect sbi t). cbn [fst snd] in *. by rewrite !fmap_cons, Hk, IH.
Qed.

Lemma collect_groups_ok sbi t : groups_ok t → groups_ok (collect sbi t).1.
Proof.
  intros [Hs Hg]. split; [unfold sorted; by rewrite collect_keys|]. clear Hs.
  induction Hg as [|re t Hre Hg IH]; simpl; [done|]. destruct (update_new_ema_kept sbi re) as [_ Hk].
  destruct (update_new_ema sbi re), (collect sbi t). simpl in *. constructor; auto.
Qed.

(** The loop that assigns the clusters changes the tree only. *)
Definition assign_kept (st st' : assignment) : Prop :=
  (∃ t, as_sbi st' = as_sbi st <| fgroup_tree := t |> ∧ groups_ok t) ∧
  length (max_cluster st') = length (max_cluster st).

Lemma assign_kept_trans st1 st2 st3 : assign_kept st1 st2 → assign_kept st2 st3 → assign_kept st1 st3.
Proof.
  intros [(t & H1 & ?) ?] [(t' & H2 & ?) ?]. split; [|congruence]. exists t'. split; [|done].
  rewrite H2, H1. by destruct (as_sbi st1).
Qed.

Lemma update_cluster_ok sbi fg cl :
  groups_ok (fgroup_tree sbi) → 0 ≤ cl < NR_CLUSTER ∨ lookup_fgroup_entry (fgroup_tree sbi) fg = None →
  groups_ok (fgroup_tree (update_cluster sbi fg cl)).
Proof.
  intros [Hs Hg] Hc. split; [by apply set_sorted|]. apply set_Forall; [|done].
  intros re Hin [? ?] Hk. destruct Hc as [Hc|Hn].
  - split; [done|]. simpl. unfold NR_CLUSTER in *. rewrite u32_small; lia.
  - rewrite lookup_entry_None in Hn. by destruct (Hn re Hin).
Qed.

Lemma assign_cluster_kept k n result order st j fg lifetime st' :
  groups_ok (fgroup_tree (as_sbi st)) → Z.of_nat (length (max_cluster st)) ≤ NR_CLUSTER →
  assign_cluster k n result order st j fg lifetime = Some st' → assign_kept st st'.
Proof.
  intros Hg Hm. unfold assign_cluster.
  intros (cl & _ & (_ & _ & H)%bind_Some)%bind_Some. cbv zeta in H.
  set (st1 := st <| as_sbi ::= λ sbi, update_cluster sbi fg cl |> <| cluster_arr ::= λ l, l ++ [cl] |>) in *.
  assert (Hl : lookup_fgroup_entry (fgroup_tree (as_sbi st1)) fg =
    (λ re, re <| cluster := u32 cl |>) <$> lookup_fgroup_entry (fgroup_tree (as_sbi st)) fg).
  { unfold st1. simpl. rewrite lookup_set by done. by rewrite Z.eqb_refl. }
  assert (Hk : 0 ≤ cl < NR_CLUSTER ∨ lookup_fgroup_entry (fgroup_tree (as_sbi st)) fg = None → assign_kept st st1).
  { intros Hc. split; [|done]. eexists. split; [done|]. by apply update_cluster_ok. }
  destruct (lookup_fgroup_entry (fgroup_tree (as_sbi st1)) fg) as [entry|] eqn:E.
  2: { injection H as <-. apply Hk. right. symmetry in Hl. by apply fmap_None in Hl. }
  apply bind_Some in H as (m & Hrd & H). apply rd_lt in Hrd. simpl in Hrd.
  destruct Hk as [(t & Ht & Hok) Hlen]; [left; lia|].
  destruct (m <? lifetime).
  - apply bind_Some in H as (mx & Hw & H). apply wr_length in Hw. simplify_eq/=. split; [by exists t|].
    simpl. by rewrite Hw.
  - simplify_eq/=. split; [by exists t|done].
Qed.

Lemma assign_clusters_kept k n result order fgroups : ∀ st j data st',
  groups_ok (fgroup_tree (as_sbi st)) → Z.of_nat (length (max_cluster st)) ≤ NR_CLUSTER →
  assign_clusters k n result order st j fgroups data = Some st' → assign_kept st st'.
Proof.
  assert (Hrefl : ∀ st, groups_ok (fgroup_tree (as_sbi st)) → assign_kept st st).
  { intros st Hg. split; [|done]. exists (fgroup_tree (as_sbi st)). split; [by destruct (as_sbi st)|done]. }
  induction fgroups as [|fg fgroups IH]; intros st j [|d data] st' Hg Hm H; cbn [assign_clusters] in H;
    try (simplify_eq; by apply Hrefl).
  apply bind_Some in H as (st1 & H1 & H). pose proof (assign_cluster_kept _ _ _ _ _ _ _ _ _ Hg Hm H1) as Hk.
  eapply assign_kept_trans; [exact Hk|]. destruct Hk as [(t & Ht & ?) Hl].
  apply (IH st1 (S j) data); [by rewrite Ht|by rewrite Hl|done].
Qed.

Lemma init_centers_length rest : ∀ data weight order w c,
  init_centers rest data weight order w = Some c → length c = rest.
Proof.
  induction rest as [|rest IH]; intros data weight order w c H; cbn [init_centers] in H; [by simplify_eq|].
  apply bind_Some in H as ([[ci s] o] & _ & H). apply bind_Some in H as (c' & Hc & H). simplify_eq/=.
  by rewrite (IH _ _ _ _ _ Hc).
Qed.

Lemma kmeans_loop_length n : ∀ data center cur prev tot,
  length (kmeans_loop n data center cur prev tot).1 = length center.
Proof.
  induction n as [|n IH]; intros data center cur prev tot; cbn [kmeans_loop]; [done|].
  destruct (_ <? _); [apply centroids_length|]. destruct (_ =? 0); [apply centroids_length|].
  rewrite IH. apply centroids_length.
Qed.

Lemma minmax_kept sbi data weight clusters k sbi' :
  kmeans_cluster_minmax sbi data weight clusters k = Some sbi' →
  ∃ h, sbi' = sbi <| kmeans_hist := h |> ∧
    Z.of_nat (length h) = Z.of_nat (length (kmeans_hist sbi)) + if MAX_HISTORY <=? kmeans_count sbi then 0 else 1.
Proof.
  unfold kmeans_cluster_minmax. bcase; intros H.
  - simplify_eq. exists (kmeans_hist sbi'). split; [by destruct sbi'|lia].
  - run H. simplify_eq. eexists. split; [done|]. rewrite length_app. simpl. lia.
Qed.

(** The clustering keeps the invariant and does not touch the locks. *)
Definition clustered sbi sbi' : Prop :=
  sinv sbi' ∧ ltree_lock sbi' = ltree_lock sbi ∧ ftree_lock sbi' = ftree_lock sbi.

Lemma issue_room sbi l i info :
  mapM (f2fs_issue_expect_lifetime sbi) (i :: l) = Some info →
  kmeans_count sbi < Z.of_nat (length (kmeans_hist sbi)).
Proof.
  cbn [mapM]. intros H. run H. unfold f2fs_issue_expect_lifetime in E.
  apply bind_Some in E as (h & Hr & _). apply rd_lt in Hr. lia.
Qed.

Lemma start_center_length (b : bool) k data weight cs center :
  (k ≤ length cs)%nat →
  (if b then init_center k data weight else Some (take k cs)) = Some center → length center = k.
Proof.
  intros Hk H. destruct b; [by eapply init_centers_length|]. simplify_eq. rewrite length_take. lia.
Qed.

Lemma recluster_kept sbi fgroups data weight sbi' info :
  sinv sbi → recluster sbi 3 fgroups data weight = Some (sbi', info) → clustered sbi sbi'.
Proof.
  intros [Hg Hf Hmx Hct [Hh Hmax] Hhi] H. unfold recluster in H.
  apply bind_Some in H as ([[[n fg] d] w] & _ & H). apply bind_Some in H as (center & Hc & H).
  apply start_center_length in Hc; [|unfold NR_CLUSTER in *; lia].
  pose proof (kmeans_loop_length MAX_ITERATIONS (take n d) center
    (choose_all_clusters_from_distances (calc_all_distances (take n d) center))
    (choose_all_clusters_from_distances (calc_all_distances (take n d) center)) MAX_DIST) as Hl.
  fold (kmeans_org (take n d) center) in Hl. destruct (kmeans_org (take n d) center) as [center' result]. simpl in Hl.
  apply bind_Some in H as (st & Ha & H). apply assign_clusters_kept in Ha as [(t & Ht & Hok) Hml]; [|done|by unfold NR_CLUSTER].
  simpl in Ht, Hml. rewrite Ht in H.
  apply bind_Some in H as (sbi1 & Hm & H). apply minmax_kept in Hm as (h & -> & Hlen).
  apply bind_Some in H as (i & Hi & H). apply (issue_room _ [1%nat; 2%nat]) in Hi. simpl in Hi, Hlen.
  injection H as <- _.
  destruct (MAX_HISTORY <=? kmeans_count sbi) eqn:E; bools; [lia|]. unfold MAX_HISTORY, NR_CLUSTER in *.
  split; [|done]. split; simpl; try done; rewrite ?length_app, ?length_drop; unfold MAX_HISTORY, NR_CLUSTER; [lia..|].
  rewrite u32_small; lia.
Qed.

Lemma update_cluster_kept sbi sbi' info :
  sinv sbi → f2fs_update_cluster sbi = Some (sbi', info) → sinv sbi' ∧ ltree_lock sbi' = ltree_lock sbi.
Proof.
  intros Hi H. unfold f2fs_update_cluster, lock_ftree in H.
  destruct (_ <? _); [by simplify_eq|]. apply bind_Some in H as (sbi0 & Hl & H).
  apply bind_Some in Hl as (_ & _ & [= <-]). cbn [fgroup_tree setter] in H.
  assert (H0 : ∀ l z, sinv (sbi <| ftree_lock := l |> <| last_cluster := z |>)) by (intros; destruct Hi; by split).
  destruct (_ <=? _); [by simplify_eq|].
  pose proof (collect_groups_ok (sbi <| ftree_lock := true |>) (fgroup_tree sbi) (si_groups _ Hi)) as Hg.
  destruct (collect _ _) as [entries samples]. simpl in Hg.
  set (sbi1 := unlock_ftree _) in H. assert (H1 : sinv sbi1) by (destruct Hi; by split).
  apply bind_Some in H as ([sbi2 i2] & H2 & [= <- <-]).
  assert (H3 : sinv sbi2 ∧ ltree_lock sbi2 = ltree_lock sbi).
  { destruct (_ <=? _); [by simplify_eq|]. apply recluster_kept in H2 as (? & ? & _); done. }
  destruct H3 as [[? ? ? ? ? ?] ?]. split; [by split|done].
Qed.

(** ** The assignment of clusters *)

(** The clusters written one after the other. *)
Definition assign_all sbi (ps : list (Z * Z)) : f2fs_sb_info := foldl (λ s p, update_cluster s p.1 p.2) sbi ps.

Lemma assign_other ps : ∀ sbi fg, fg ∉ ps.*1 →
  lookup_fgroup_entry (fgroup_tree (assign_all sbi ps)) fg = lookup_fgroup_entry (fgroup_tree sbi) fg.
Proof.
  induction ps as [|[f c] ps IH]; intros sbi fg Hn; [done|]. cbn [assign_all foldl].
  rewrite fmap_cons, not_elem_of_cons in Hn. destruct Hn as [Hne Hn]. simpl in Hne.
  fold (assign_all (update_cluster sbi f c) ps). rewrite IH by done. simpl.
  rewrite lookup_set by done. destruct (Z.eqb_spec fg f); [done|]. by destruct (lookup_fgroup_entry _ _).
Qed.

Lemma assigned ps : ∀ sbi fg cl, NoDup ps.*1 → (fg, cl) ∈ ps →
  lookup_fgroup_entry (fgroup_tree (assign_all sbi ps)) fg =
    (λ re, re <| cluster := u32 cl |>) <$> lookup_fgroup_entry (fgroup_tree sbi) fg.
Proof.
  induction ps as [|[f c] ps IH]; intros sbi fg cl Hnd Hin; [by apply not_elem_of_nil in Hin|].
  rewrite fmap_cons, NoDup_cons in Hnd. destruct Hnd as [Hn Hnd]. cbn [assign_all foldl].
  fold (assign_all (update_cluster sbi f c) ps). apply elem_of_cons in Hin as [[= -> ->]|Hin].
  - rewrite assign_other by done. simpl. rewrite lookup_set by done. by rewrite Z.eqb_refl.
  - rewrite (IH _ fg cl) by done. simpl. rewrite lookup_set by done.
    destruct (Z.eqb_spec fg f) as [->|]; [|by destruct (lookup_fgroup_entry _ _)].
    destruct Hn. apply list_elem_of_fmap. by exists (f, cl).
Qed.

(** The clusters of the groups from position [j] on. *)
Definition clusters_from (k : Z) (n : nat) (result order : list Z) (j : nat) (cls : list Z) : Prop :=
  ∀ i cl, cls !! i = Some cl →
    cluster_of k n result order (j + i) = Some cl ∧ 0 ≤ cl < k ∧
    Z.of_nat (j + i) < vmalloc_ints (Z.of_nat n).

Lemma assign_cluster_run k n result order st j fg lifetime cl :
  cluster_of k n result order j = Some cl → 0 ≤ cl < k → Z.of_nat j < vmalloc_ints (Z.of_nat n) →
  Z.of_nat (length (max_cluster st)) = k →
  ∃ st', assign_cluster k n result order st j fg lifetime = Some st' ∧
    as_sbi st' = update_cluster (as_sbi st) fg cl ∧ cluster_arr st' = cluster_arr st ++ [cl] ∧
    length (as_weight st') = length (as_weight st) ∧ Z.of_nat (length (max_cluster st')) = k.
Proof.
  intros Hc Hcl Hj Hm. unfold assign_cluster. rewrite Hc. cbn [mbind option_bind].
  rewrite (proj2 (Z.ltb_lt _ _)) by done. cbn [ensure mbind option_bind].
  destruct (lookup_fgroup_entry _ fg) as [entry|]; [|by eexists].
  destruct (rd_is_Some (max_cluster st) cl) as [m Hr]; [lia|].
  simpl max_cluster. rewrite Hr. cbn [mbind option_bind].
  destruct (m <? lifetime).
  - simpl max_cluster. rewrite wr_in_range by lia. cbn [mbind option_bind].
    eexists. split; [done|]. simpl. rewrite !length_insert. done.
  - eexists. split; [done|]. simpl. by rewrite length_insert.
Qed.

Lemma assign_clusters_run k n result order fgroups : ∀ st j data cls,
  length data = length fgroups → length cls = length fgroups →
  clusters_from k n result order j cls → Z.of_nat (length (max_cluster st)) = k →
  ∃ st', assign_clusters k n result order st j fgroups data = Some st' ∧
    as_sbi st' = assign_all (as_sbi st) (zip fgroups cls) ∧ cluster_arr st' = cluster_arr st ++ cls ∧
    length (as_weight st') = length (as_weight st) ∧ Z.of_nat (length (max_cluster st')) = k.
Proof.
  induction fgroups as [|fg fgroups IH]; intros st j [|d data] [|cl cls] Hd Hl Hc Hm; simplify_eq/=.
  { exists st. by rewrite app_nil_r. }
  destruct (Hc 0%nat cl eq_refl) as (H1 & H2 & H3). rewrite Nat.add_0_r in H1, H3.
  destruct (assign_cluster_run _ n result order st j fg d cl H1 H2 H3 eq_refl) as (st1 & -> & Hs & Ha & Hw & Hm1).
  cbn [mbind option_bind].
  destruct (IH st1 (S j) data cls) as (st2 & Hst2 & Hs2 & Ha2 & Hw2 & Hm2); [done..| |done|].
  { intros i c Hi. specialize (Hc (S i) c Hi). by rewrite Nat.add_succ_r in Hc. }
  exists st2. split; [done|]. rewrite Hs2, Ha2, Hs, Ha, <- app_assoc. split; [done|]. split; [done|]. lia.
Qed.

(** ** The ranges of lifetimes *)

Definition four {A} (l : list A) : Prop := Z.of_nat (length l) = NR_CLUSTER.

Definition clusters_ok (k : Z) (cls : list Z) : Prop := Forall (λ cl, 0 ≤ cl < k) cls.

Lemma cluster_weights_run k weight cls :
  k ≤ NR_CLUSTER → clusters_ok k cls → ∃ ws, cluster_weights k weight cls = Some ws ∧ four ws.
Proof.
  intros Hk Hc. unfold cluster_weights.
  assert (Hps : Forall (λ p, 0 ≤ p.2 < k) (zip weight cls)).
  { apply Forall_lookup. intros i [w cl] [_ Hi]%lookup_zip_Some. unfold clusters_ok in Hc.
    rewrite Forall_lookup in Hc. by apply (Hc i). }
  assert (H0 : four (replicate (Z.to_nat NR_CLUSTER) 0)) by done.
  revert H0. generalize (replicate (Z.to_nat NR_CLUSTER) 0). clear Hc.
  induction Hps as [|[w cl] ps Hp Hps IH]; intros ws Hws; [by exists ws|]. cbn [foldl mbind option_bind].
  simpl in Hp. destruct (Z.leb_spec k cl); [lia|]. unfold four in *.
  destruct (rd_is_Some ws cl) as [x ->]; [lia|]. cbn [mbind option_bind]. rewrite wr_in_range by lia.
  apply IH. by rewrite length_insert.
Qed.

Record minmax_ok (st : minmax) : Prop := {
  mm_min : four (weight_minbound st);
  mm_max : four (weight_maxbound st);
  mm_pointer : four (weight_pointer st);
  mm_steps : four (steps st);
  mm_q1 : four (q1 (hist st));
  mm_q3 : four (q3 (hist st))
}.

Lemma minmax_step_run k data weight cls st i :
  k ≤ NR_CLUSTER → clusters_ok k cls → (i < length cls)%nat → minmax_ok st →
  ∃ st', minmax_step data weight cls st i = Some st' ∧ minmax_ok st'.
Proof.
  intros Hk Hc Hi [? ? ? ? ? ?]. unfold minmax_step. destruct (lookup_lt_is_Some_2 cls i Hi) as [cl Hcl].
  unfold clusters_ok in Hc. rewrite Forall_lookup in Hc. specialize (Hc i cl Hcl). simpl in Hc.
  rewrite Hcl. cbn [mbind option_bind]. unfold four in *.
  destruct (rd_is_Some (weight_pointer st) cl) as [p ->]; [lia|].
  destruct (rd_is_Some (weight_minbound st) cl) as [mn ->]; [lia|].
  destruct (rd_is_Some (weight_maxbound st) cl) as [mx ->]; [lia|].
  destruct (rd_is_Some (steps st) cl) as [s ->]; [lia|]. cbn [mbind option_bind].
  rewrite wr_in_range by lia. cbn [mbind option_bind]. eexists. split; [done|].
  repeat bcase; split; unfold four; simpl; rewrite ?length_insert; done.
Qed.

Lemma minmax_steps_run k data weight cls order : ∀ st,
  k ≤ NR_CLUSTER → clusters_ok k cls → Forall (λ i, (i < length cls)%nat) order → minmax_ok st →
  ∃ st', foldl (λ st i, st ← st; minmax_step data weight cls st i) (Some st) order = Some st' ∧ minmax_ok st'.
Proof.
  intros st Hk Hc Ho. revert st. induction Ho as [|i order Hi Ho IH]; intros st Hst; [by exists st|].
  cbn [foldl mbind option_bind]. destruct (minmax_step_run k data weight cls st i) as (st1 & -> & H1); [done..|].
  by apply IH.
Qed.

Lemma minmax_fill_ok kmax l : ∀ st, minmax_ok st → minmax_ok (foldl (minmax_fill kmax) st l).
Proof.
  induction l as [|i l IH]; intros st Hst; [done|]. simpl. apply IH. destruct Hst. unfold minmax_fill, four in *.
  repeat bcase; split; unfold four; simpl; rewrite ?length_insert; done.
Qed.

Lemma minmax_run sbi data weight cls k :
  Z.of_nat k ≤ NR_CLUSTER → Forall in_dist data → length cls = length data → clusters_ok (Z.of_nat k) cls →
  kmeans_count sbi < MAX_HISTORY →
  ∃ h, kmeans_cluster_minmax sbi data weight cls k = Some (sbi <| kmeans_hist ::= λ l, l ++ [h] |>) ∧
    four (q1 h) ∧ four (q3 h).
Proof.
  intros Hk Hd Hl Hc Hm. unfold kmeans_cluster_minmax. rewrite (proj2 (Z.leb_gt _ _)) by done.
  destruct (cluster_weights_run (Z.of_nat k) weight cls Hk Hc) as (ws & -> & Hws). cbn [mbind option_bind].
  destruct (sort_index_spec data Hd) as [_ Hp].
  rewrite (proj2 (Nat.eqb_eq _ _)) by (by rewrite Hp, length_seq). cbn [ensure mbind option_bind].
  assert (Ho : Forall (λ i, (i < length cls)%nat) (sort_index data)).
  { rewrite Hp, Hl. apply Forall_forall. intros i ?%elem_of_seq. lia. }
  generalize (sort_index data), Ho. intros order Ho'. clear Hp Ho.
  match goal with |- context [foldl _ (Some ?st) order] =>
    destruct (minmax_steps_run (Z.of_nat k) data weight cls order st) as (st1 & -> & H1); [done..| |] end.
  { unfold four in *. split; unfold four; simpl; rewrite ?length_zip_with, ?length_fmap; (done || lia). }
  cbn [mbind option_bind].
  match goal with |- context [foldl (minmax_fill ?m) ?st ?l] =>
    pose proof (minmax_fill_ok m l st) as [? ? ? ? ? ?] end.
  { destruct H1. unfold four in *. split; unfold four; simpl; rewrite ?length_insert; done. }
  eexists. split; [done|]. done.
Qed.

Lemma issue_run sbi (h : kmeans_history) k :
  Z.of_nat (length (kmeans_hist sbi)) = kmeans_count sbi → (k ≤ 4)%nat → four (q1 h) → four (q3 h) →
  ∃ info, mapM (f2fs_issue_expect_lifetime (sbi <| kmeans_hist ::= λ l, l ++ [h] |>)) (seq 0 k) = Some info.
Proof.
  intros Hl Hk H1 H3. apply mapM_is_Some_2, Forall_forall. intros i Hi%elem_of_seq.
  unfold compose, f2fs_issue_expect_lifetime. simpl kmeans_hist. simpl kmeans_count.
  replace (rd (kmeans_hist sbi ++ [h]) (kmeans_count sbi)) with (Some h).
  2: { symmetry. apply rd_Some. split; [lia|]. apply list_lookup_middle. lia. }
  cbn [mbind option_bind]. unfold four, NR_CLUSTER in *.
  destruct (lookup_lt_is_Some_2 (q1 h) i) as [a ->]; [lia|].
  destruct (lookup_lt_is_Some_2 (q3 h) i) as [b ->]; [lia|]. by eexists.
Qed.

(** ** The first centres *)

(** Weights of which none is more than two ninths of their sum. *)
Definition balanced (weight : list Z) : Prop :=
  zsum weight < 2 ^ 31 ∧ Forall (λ w, 1 ≤ w ∧ 9 * w ≤ 2 * zsum weight) weight.

Definition total (weight : list Z) (order : list nat) : Z := zsum ((λ i, nth i weight 0) <$> order).

Definition bounded (weight : list Z) (m : Z) : list nat → Prop := Forall (λ i, 1 ≤ nth i weight 0 ≤ m).

Lemma total_cons weight i order : total weight (i :: order) = nth i weight 0 + total weight order.
Proof. done. Qed.

Lemma total_nonneg weight m order : bounded weight m order → 0 ≤ total weight order.
Proof. induction 1; [done|]. rewrite total_cons. lia. Qed.

(** The loop takes elements until their weight reaches the interval. *)
Lemma init_loop_run data weight m interval order : ∀ s c,
  Forall in_dist data → in_dist c → bounded weight m order → order ≠ [] → 0 ≤ s →
  s + total weight order < 2 ^ 31 → 0 ≤ interval ≤ s + total weight order → s < Z.max 1 interval →
  ∃ c' s' rest, init_center_loop data weight interval order s c = Some (c', s', rest) ∧ in_dist c' ∧
    bounded weight m rest ∧ s' + total weight rest = s + total weight order ∧ 0 ≤ s' < Z.max 1 interval + m.
Proof.
  induction order as [|i order IH]; intros s c Hd Hc Hb Hne Hs Ht Hi Hlt; [done|].
  apply Forall_cons in Hb as [Hw Hb]. rewrite total_cons in *. pose proof (total_nonneg _ _ _ Hb).
  cbn [init_center_loop]. rewrite s32_small by lia. set (s1 := s + nth i weight 0) in *.
  set (c1 := if _ <=? s1 then nth i data 0 else c).
  assert (Hc1 : in_dist c1).
  { unfold c1. destruct (_ <=? s1); [|done]. destruct (nth_in_or_default i data 0) as [Hin| ->]; [|done].
    rewrite Forall_forall in Hd. apply Hd. by apply list_elem_of_In. }
  rewrite u64_small by lia. destruct (Z.leb_spec interval s1).
  - eexists c1, s1, order. split_and!; try done; lia.
  - destruct (IH s1 c1) as (c' & s' & rest & -> & ? & ? & ? & ?); try done; try lia.
    + intros ->. unfold total in *. simpl in *. lia.
    + eexists c', s', rest. split_and!; try done; lia.
Qed.

Lemma foldl_weights l : ∀ s,
  0 ≤ s → Forall (λ w, 0 ≤ w) l → s + zsum l < 2 ^ 31 → foldl (λ s w, s32 (s + w)) s l = s + zsum l.
Proof.
  induction l as [|w l IH]; intros s Hs Hl Ht; simpl in *; [unfold zsum in *; simpl in *; lia|].
  apply Forall_cons in Hl as [Hw Hl].
  assert (0 ≤ zsum l) by (clear -Hl; induction Hl; unfold zsum in *; simpl; lia). unfold zsum in Ht. simpl in Ht. fold zsum in Ht.
  rewrite s32_small by lia. rewrite IH by (done || lia). unfold zsum. simpl. lia.
Qed.

Lemma zsum_perm l l' : l ≡ₚ l' → zsum l = zsum l'.
Proof. induction 1; unfold zsum in *; simpl; lia. Qed.

Lemma nth_seq_take (l : list Z) n : (n ≤ length l)%nat → (λ i, nth i l 0) <$> seq 0 n = take n l.
Proof.
  intros Hn. apply list_eq. intros i. rewrite list_lookup_fmap, lookup_take.
  case_decide as Hi; [rewrite lookup_seq_lt by done|rewrite lookup_seq_ge by lia; done].
  simpl. destruct (lookup_lt_is_Some_2 l i) as [x Hx]; [lia|]. rewrite Hx. by rewrite (nth_lookup_Some _ _ _ x).
Qed.

(** Linear arithmetic with divisions by constants. *)
Ltac dlia := Z.to_euclidean_division_equations; lia.

Lemma init_centers_3 data weight order m :
  Forall in_dist data → bounded weight m order → total weight order < 2 ^ 31 → 9 * m ≤ 2 * total weight order →
  1 ≤ m → ∃ c, init_centers 3 data weight order (total weight order) = Some c ∧ Forall in_dist c.
Proof.
  intros Hd Hb Ht Hm Hm1. pose proof (total_nonneg _ _ _ Hb). set (W := total weight order) in *.
  assert (Hne : ∀ o, 0 < total weight o → o ≠ []) by (intros o ? ->; done).
  assert (Hq : ∀ a b, 0 ≤ a < 2 ^ 31 → 1 ≤ b → u64 (Z.quot a b) = a / b).
  { intros a b ? ?. rewrite Z.quot_div_nonneg by lia.
    assert (0 ≤ a / b ≤ a) by (split; [apply Z.div_pos|apply Z.div_le_upper_bound]; nia). apply u64_small. lia. }
  cbn [init_centers]. rewrite Hq by dlia. change (Z.of_nat 3) with 3.
  destruct (init_loop_run data weight m (W / 3) order 0 0) as (c0 & s0 & o0 & -> & ? & Hb0 & Ht0 & Hs0); try done.
  { apply Hne. dlia. } { fold W. dlia. } { dlia. }
  fold W in Ht0. cbn [mbind option_bind]. rewrite s32_small by dlia. rewrite Hq by dlia. change (Z.of_nat 2) with 2.
  assert (E0 : total weight o0 = W - s0) by lia.
  destruct (init_loop_run data weight m ((W - s0) / 2) o0 0 0) as (c1 & s1 & o1 & -> & ? & Hb1 & Ht1 & Hs1); try done.
  { apply Hne. dlia. } { lia. } { rewrite E0. dlia. } { dlia. }
  cbn [mbind option_bind]. rewrite s32_small by dlia. rewrite Hq by dlia. change (Z.of_nat 1) with 1.
  assert (E1 : total weight o1 = W - s0 - s1) by lia.
  destruct (init_loop_run data weight m ((W - s0 - s1) / 1) o1 0 0) as (c2 & s2 & o2 & -> & ? & Hb2 & Ht2 & Hs2); try done.
  { apply Hne. dlia. } { lia. } { rewrite E1. dlia. } { dlia. }
  cbn [mbind option_bind]. eexists. split; [done|]. by rewrite !Forall_cons, Forall_nil.
Qed.

(** With balanced weights the first centres are found. *)
Lemma init_center_run data weight :
  Forall in_dist data → data ≠ [] → (length data ≤ length weight)%nat → balanced (take (length data) weight) →
  ∃ c, init_center 3 data weight = Some c ∧ Forall in_dist c.
Proof.
  intros Hd Hne Hl [Hw Hb]. unfold init_center.
  destruct (sort_index_spec data Hd) as [_ Hp].
  assert (Ht : total weight (sort_index data) = zsum (take (length data) weight)).
  { unfold total. rewrite <- nth_seq_take by done. apply zsum_perm. by rewrite Hp. }
  rewrite foldl_weights; [|lia| |done].
  2: { eapply Forall_impl; [exact Hb|]. simpl. lia. }
  rewrite Z.add_0_l, <- Ht in *. apply (init_centers_3 _ _ _ (2 * total weight (sort_index data) / 9)); try done.
  - unfold bounded. rewrite Hp. rewrite <- nth_seq_take, Forall_fmap in Hb by done.
    eapply Forall_impl; [exact Hb|]. simpl. intros w [? ?]. split; [done|]. apply Z.div_le_lower_bound; lia.
  - pose proof (Z.mul_div_le (2 * total weight (sort_index data)) 9). lia.
  - destruct data as [|d data]; [done|]. destruct weight as [|w weight]; [simpl in Hl; lia|].
    simpl in Hb. apply Forall_cons in Hb as [[? ?] _]. apply Z.div_le_lower_bound; lia.
Qed.

(** ** The clusters of sorted groups *)

Section sorted_groups.
Context (data : list Z) (n : nat) (center result : list Z).
Context (Hdata : ∀ p q x y, data !! p = Some x → data !! q = Some y → (p < q)%nat → x ≤ y).
Context (Hn : (n ≤ length data)%nat) (Hk : kstate (take n data) 3 center result).

Lemma cluster_of_run j :
  ∃ cl, cluster_of 3 n result (order_clusters center) j = Some cl ∧ 0 ≤ cl < 3.
Proof.
  destruct Hk as [Hl Hd Hlab _ Hsz]. rewrite length_take, Nat.min_l in Hsz by done. unfold cluster_of.
  destruct (Nat.ltb_spec j n); [|by eexists]. destruct (lookup_lt_is_Some_2 result j) as [a Ha]; [lia|].
  rewrite Ha. cbn [mbind option_bind]. unfold labels in Hlab. rewrite Forall_lookup in Hlab.
  specialize (Hlab j a Ha). simpl in Hlab. destruct (Z.ltb_spec a 0); [lia|].
  destruct (rank_range center a) as (r & -> & Hr); [done..|]. exists r. split; [done|]. lia.
Qed.

Lemma cluster_of_mono p q x y a b :
  data !! p = Some x → data !! q = Some y → x < y →
  cluster_of 3 n result (order_clusters center) p = Some a →
  cluster_of 3 n result (order_clusters center) q = Some b → a ≤ b.
Proof.
  intros Hp Hq Hlt Ha Hb.
  destruct (cluster_of_run p) as (a' & Ha' & ?). rewrite Ha in Ha'. injection Ha' as <-.
  unfold cluster_of in Ha, Hb. destruct (Nat.ltb_spec q n); [|injection Hb as <-; lia].
  destruct (Nat.ltb_spec p n).
  2: { specialize (Hdata q p y x Hq Hp). lia. }
  apply bind_Some in Ha as (i & Hi & Ha). apply bind_Some in Hb as (j & Hj & Hb).
  destruct Hk as [Hl Hd Hlab Ho Hsz]. unfold labels in Hlab. rewrite Forall_lookup in Hlab.
  pose proof (Hlab p i Hi) as Hli. pose proof (Hlab q j Hj) as Hlj. simpl in Hli, Hlj.
  rewrite (proj2 (Z.ltb_ge i 0)) in Ha by lia. rewrite (proj2 (Z.ltb_ge j 0)) in Hb by lia.
  destruct (Ho p q x y i j) as [->|(c & e & Hc & He & ?)]; [by rewrite lookup_take_lt by lia..|done|done|lia| |].
  - rewrite Ha in Hb. injection Hb as <-. done.
  - destruct (rank_mono center i j c e) as (r & s & Hr & Hs & ?); [done..|].
    rewrite Ha in Hr. rewrite Hb in Hs. simplify_eq. lia.
Qed.

(** All clusters, in the order of the lifetimes. *)
Definition cluster_list : list Z :=
  (λ j, default 0 (cluster_of 3 n result (order_clusters center) j)) <$> seq 0 (length data).

Lemma cluster_list_lookup j cl :
  cluster_list !! j = Some cl → cluster_of 3 n result (order_clusters center) j = Some cl ∧ 0 ≤ cl < 3 ∧ (j < length data)%nat.
Proof.
  unfold cluster_list. rewrite list_lookup_fmap. intros (i & Hi & ->)%fmap_Some.
  apply lookup_seq in Hi as [-> Hi]. simpl. destruct (cluster_of_run j) as (c & -> & ?). done.
Qed.
End sorted_groups.

(** ** The sort *)

Section cut.
Context (data : list Z) (Hdata : Forall in_dist data).

Definition reorder (l : list Z) : list Z := (λ i, nth i l 0) <$> sort_index data.

Definition kept_groups : nat := Z.to_nat (Z.of_nat (length data) * VALID_FGROUP_RATE / 100).

Lemma sort_and_cut_run fgroups weight :
  sort_and_cut_data fgroups data weight = Some (kept_groups, reorder fgroups, reorder data, reorder weight).
Proof.
  unfold sort_and_cut_data. destruct (sort_index_spec data Hdata) as [_ Hp].
  rewrite (proj2 (Nat.eqb_eq _ _)) by (by rewrite Hp, length_seq). done.
Qed.

Lemma reorder_perm l : length l = length data → reorder l ≡ₚ l.
Proof.
  intros Hl. destruct (sort_index_spec data Hdata) as [_ Hp]. unfold reorder. rewrite Hp.
  rewrite nth_seq_take by lia. by rewrite take_ge by lia.
Qed.

Lemma reorder_lookup l p i : sort_index data !! p = Some i → length l = length data → reorder l !! p = l !! i.
Proof.
  intros Hi Hl. destruct (sort_index_spec data Hdata) as [_ Hp]. unfold reorder. rewrite list_lookup_fmap, Hi. simpl.
  assert (Hin : i ∈ sort_index data) by (apply list_elem_of_lookup; eauto). rewrite Hp, elem_of_seq in Hin.
  destruct (lookup_lt_is_Some_2 l i) as [x Hx]; [lia|]. rewrite Hx. by rewrite (nth_lookup_Some _ _ _ x).
Qed.

Lemma reorder_place i : (i < length data)%nat → ∃ p, sort_index data !! p = Some i.
Proof.
  intros Hi. destruct (sort_index_spec data Hdata) as [_ Hp]. apply list_elem_of_lookup. rewrite Hp. apply elem_of_seq. lia.
Qed.

Lemma reorder_sorted p q x y : reorder data !! p = Some x → reorder data !! q = Some y → (p < q)%nat → x ≤ y.
Proof.
  intros Hx Hy Hlt. destruct (sort_index_spec data Hdata) as [Hs _].
  unfold reorder in Hx, Hy. rewrite list_lookup_fmap in Hx, Hy.
  apply fmap_Some in Hx as (i & Hi & ->). apply fmap_Some in Hy as (j & Hj & ->).
  destruct (StronglySorted_lookup _ _ p q i j Hs Hi Hj Hlt) as (x & y & Hx & Hy & ?).
  rewrite (nth_lookup_Some _ _ _ _ Hx), (nth_lookup_Some _ _ _ _ Hy). lia.
Qed.
End cut.

(** ** The whole round *)

(** The centres the round starts from: computed from the weights in the first
    ten rounds, and those of the last round afterwards. *)
Definition start_ok sbi data (weight : list Z) : Prop :=
  (kmeans_count sbi < 10 → balanced (take (kept_groups data) (reorder data weight))) ∧
  (10 ≤ kmeans_count sbi → Forall in_dist (take 3 (kmeans_center sbi))).

Lemma start_run sbi data weight :
  sinv sbi → Forall in_dist data → length weight = length data → (0 < kept_groups data ≤ length data)%nat →
  start_ok sbi data weight →
  ∃ c, (if kmeans_count sbi <? 10 then init_center 3 (take (kept_groups data) (reorder data data)) (reorder data weight)
        else Some (take 3 (kmeans_center sbi))) = Some c ∧ Forall in_dist c ∧ length c = 3%nat.
Proof.
  intros Hi Hd Hw Hn [H1 H2].
  assert (Hr : ∀ l, length l = length data → length (reorder data l) = length data).
  { intros l Hl. by rewrite (reorder_perm data Hd l Hl). }
  destruct (Z.ltb_spec (kmeans_count sbi) 10).
  - assert (Hlen : length (take (kept_groups data) (reorder data data)) = kept_groups data).
    { rewrite length_take, Hr; [lia|done]. }
    destruct (init_center_run (take (kept_groups data) (reorder data data)) (reorder data weight)) as (c & Hc & ?).
    + apply Forall_take. by rewrite (reorder_perm data Hd data).
    + intros E. rewrite E in Hlen. simpl in Hlen. lia.
    + rewrite Hlen, Hr; [lia|done].
    + rewrite Hlen. auto.
    + exists c. split_and!; [done..|]. by eapply init_centers_length.
  - eexists. split; [done|]. split; [auto|]. pose proof (si_center _ Hi). unfold NR_CLUSTER in *.
    rewrite length_take. lia.
Qed.

Lemma assign_all_frame ps : ∀ sbi, ∃ t, assign_all sbi ps = sbi <| fgroup_tree := t |>.
Proof.
  induction ps as [|p ps IH]; intros sbi; [exists (fgroup_tree sbi); by destruct sbi|].
  destruct (IH (update_cluster sbi p.1 p.2)) as [t Ht]. exists t. cbn [assign_all foldl]. unfold assign_all in Ht.
  rewrite Ht. done.
Qed.

(** The end of the round, after the clusters have been assigned. *)
Lemma finish_run sbi data weight cls :
  Forall in_dist data → length cls = length data → clusters_ok 3 cls →
  Z.of_nat (length (kmeans_hist sbi)) = kmeans_count sbi → kmeans_count sbi < MAX_HISTORY →
  ∃ sbi' info,
    (sbi ← kmeans_cluster_minmax sbi data weight cls 3;
     info ← mapM (f2fs_issue_expect_lifetime sbi) (seq 0 3);
     Some (sbi <| kmeans_count := u32 (kmeans_count sbi + 1) |>, info)) = Some (sbi', info) ∧
    fgroup_tree sbi' = fgroup_tree sbi.
Proof.
  intros Hd Hl Hc Hh Hm. destruct (minmax_run sbi data weight cls 3) as (h & -> & H1 & H3); [done..|].
  cbn [mbind option_bind]. destruct (issue_run sbi h 3 Hh) as [info ->]; [lia|done..|].
  cbn [mbind option_bind]. by eexists _, _.
Qed.

(** The clusters are in the order of the lifetimes. *)
Definition in_order data (cls : list Z) : Prop :=
  ∀ p q x y a b, reorder data data !! p = Some x → reorder data data !! q = Some y →
    cls !! p = Some a → cls !! q = Some b → x < y → a ≤ b.

(** What a round assigns. *)
Definition assigns sbi fgroups data sbi' : Prop :=
  ∃ cls, length cls = length data ∧ clusters_ok 3 cls ∧
    fgroup_tree sbi' = fgroup_tree (assign_all sbi (zip (reorder data fgroups) cls)) ∧ in_order data cls.

(** K-means and the loop that assigns the clusters. *)
Lemma assign_run sbi fgroups data weight c :
  length fgroups = length data → Forall in_dist data → sized data →
  (kept_groups data ≤ length data)%nat → Z.of_nat (length data) ≤ vmalloc_ints (Z.of_nat (kept_groups data)) →
  Forall in_dist c → length c = 3%nat →
  let r := kmeans_org (take (kept_groups data) (reorder data data)) c in
  ∃ st cls, assign_clusters 3 (kept_groups data) r.2 (order_clusters r.1)
      {| as_sbi := sbi; cluster_arr := []; as_weight := weight; max_cluster := replicate 3 0 |}
      0 (reorder data fgroups) (reorder data data) = Some st ∧
    as_sbi st = assign_all sbi (zip (reorder data fgroups) cls) ∧ cluster_arr st = cls ∧
    length cls = length data ∧ clusters_ok 3 cls ∧ in_order data cls.
Proof.
  intros Hfl Hd Hsz Hn Hpg Hc Hc3 r.
  assert (Hr : ∀ l, length l = length data → length (reorder data l) = length data).
  { intros l Hl. by rewrite (reorder_perm data Hd l Hl). }
  assert (Hks : kstate (take (kept_groups data) (reorder data data)) 3 r.1 r.2).
  { apply kmeans_org_kstate; try done; [|unfold sized in *; rewrite length_take, Hr; [lia|done]|lia].
    apply Forall_take. by rewrite (reorder_perm data Hd data). }
  destruct r as [center result]. cbn [fst snd] in *.
  set (cls := cluster_list (reorder data data) (kept_groups data) center result).
  assert (Hlk : ∀ j cl, cls !! j = Some cl → _) by
    (intros j cl; apply (cluster_list_lookup (reorder data data)); [by rewrite Hr|exact Hks]).
  assert (Hcl : length cls = length data) by (unfold cls, cluster_list; by rewrite length_fmap, length_seq, Hr).
  destruct (assign_clusters_run 3 (kept_groups data) result (order_clusters center) (reorder data fgroups)
    {| as_sbi := sbi; cluster_arr := []; as_weight := weight; max_cluster := replicate 3 0 |}
    0 (reorder data data) cls) as (st & Hrun & Hs & Ha & _ & _); [by rewrite !Hr|by rewrite Hr, Hcl| |done|].
  { intros i cl Hcli. destruct (Hlk i cl Hcli) as (? & ? & Hlt). rewrite Hr in Hlt by done.
    split_and!; try done; simpl; lia. }
  exists st, cls. split_and!; try done.
  - apply Forall_lookup. intros j cl Hj. by destruct (Hlk j cl Hj) as (_ & ? & _).
  - intros p q x y a b Hp Hq Hpa Hqb Hlt. destruct (Hlk p a Hpa) as (H1 & _). destruct (Hlk q b Hqb) as (H2 & _).
    apply (cluster_of_mono (reorder data data) (kept_groups data) center result) with p q x y; try done.
    + apply reorder_sorted, Hd.
    + by rewrite Hr.
Qed.

Lemma recluster_run sbi fgroups data weight :
  sinv sbi → length fgroups = length data → length weight = length data → Forall in_dist data → sized data →
  (3 < length data)%nat → Z.of_nat (length data) ≤ vmalloc_ints (Z.of_nat (kept_groups data)) →
  kmeans_count sbi < MAX_HISTORY → start_ok sbi data weight →
  ∃ sbi' info, recluster sbi 3 fgroups data weight = Some (sbi', info) ∧ assigns sbi fgroups data sbi'.
Proof.
  intros Hi Hfl Hwl Hd Hsz Hlen Hpg Hcnt Hst. unfold recluster.
  rewrite sort_and_cut_run by done. cbn [mbind option_bind].
  assert (Hn : (0 < kept_groups data ≤ length data)%nat) by (unfold kept_groups, VALID_FGROUP_RATE; dlia).
  destruct (start_run sbi data weight Hi Hd Hwl Hn Hst) as (c & -> & Hc & Hc3). cbn [mbind option_bind].
  destruct (assign_run sbi fgroups data (reorder data weight) c) as (st & cls & Hrun & Hs & Ha & Hcl & Hok & Ho);
    [done..|lia|done|done|done|].
  destruct (kmeans_org _ c) as [center result]. cbn [fst snd] in Hrun. change (Z.of_nat 3) with 3.
  rewrite Hrun. cbn [mbind option_bind]. rewrite Ha.
  destruct (assign_all_frame (zip (reorder data fgroups) cls) sbi) as [t E].
  destruct (finish_run (as_sbi st <| kmeans_max ::= λ l, max_cluster st ++ drop 3 l |> <| kmeans_center ::= λ l, center ++ drop 3 l |>)
    (take (kept_groups data) (reorder data data)) (take (kept_groups data) (as_weight st)) (take (kept_groups data) cls))
    as (sbi' & info & -> & Ht).
  { apply Forall_take. by rewrite (reorder_perm data Hd data). }
  { by rewrite !length_take, Hcl, (reorder_perm data Hd data). }
  { by apply Forall_take. } { rewrite Hs, E. apply Hi. } { rewrite Hs, E. done. }
  eexists _, _. split; [done|]. exists cls. rewrite Ht. simpl. rewrite Hs. by split_and!.
Qed.
