(* ===== verification/StreamThms.v ===== *)
(** * Streams: what the file system promises

    Theorems on the operations of stream.c and kmeans.c together: every group of
    files always has one of the data logs, operations never trip a BUG_ON, and a
    round of clustering orders the groups by their lifetimes. *)

From S2P Require Import Prelude Stream Kmeans StreamInv KmeansInv KmeansRun.

Implicit Types (sbi : f2fs_sb_info) (re : fgroup_entry) (ei : inode).

(** ** Histories *)

(** What the rest of the file system does: writes and truncations report
    lifetimes and numbers of valid blocks, an inode is deleted, the thread runs a
    round, and data blocks are written. *)
Inductive stream_op :=
  | Lifetime (ei : inode) (range_start page_written unlink : Z)
  | Valid (ei : inode) (v : Z)
  | DeleteFile (ino : Z)
  | DeleteGroups (ino : Z)
  | Cluster
  | Blocks (n : Z).

Definition stream_step sbi (op : stream_op) : option f2fs_sb_info :=
  match op with
  | Lifetime ei start written unlink => fst <$> update_file_lifetime sbi ei start written unlink
  | Valid ei v => fst <$> update_file_valid sbi ei v
  | DeleteFile ino => delete_file_entry sbi (u32 ino)
  | DeleteGroups ino => delete_fgroup_entry sbi (u32 ino)
  | Cluster => fst <$> f2fs_update_cluster sbi
  | Blocks n => Some (sbi <| user_blocks := u32 n |>)
  end.

Definition stream_run sbi (ops : list stream_op) : option f2fs_sb_info :=
  foldl (λ s op, s ← s; stream_step s op) (Some sbi) ops.

(** The group of the inode is an [unsigned int] and its path fits. *)
Definition op_ok (op : stream_op) : Prop :=
  match op with Lifetime ei _ _ _ | Valid ei _ => inode_ok ei | _ => True end.

Definition is_cluster (op : stream_op) : Prop := match op with Cluster => True | _ => False end.

Lemma restored_step sbi r :
  sinv sbi → ltree_lock sbi = false → restored sbi r →
  ∃ sbi', fst <$> r = Some sbi' ∧ sinv sbi' ∧ ltree_lock sbi' = false ∧ ftree_lock sbi' = ftree_lock sbi.
Proof.
  intros Hi Hl (t & u & ei' & -> & Ht & Hu & _). eexists. split; [done|].
  split; [by apply sinv_trees|]. done.
Qed.

(** Every operation but a round returns when the lock of the groups is free. *)
Lemma step_returns sbi op :
  sinv sbi → ltree_lock sbi = false → op_ok op → ¬ is_cluster op →
  (∃ sbi', stream_step sbi op = Some sbi' ∧ sinv sbi' ∧ ltree_lock sbi' = false ∧ ftree_lock sbi' = ftree_lock sbi) ∨
  ftree_lock sbi = true ∧ stream_step sbi op = None.
Proof.
  intros Hi Hl Hop Hc. destruct op as [ei start written unlink|ei v|ino|ino| |n]; simpl in *; [| | | |done|].
  - destruct (update_file_lifetime_ok sbi ei start written unlink) as [H|[? ->]]; [apply Hi|apply Hi|done|done| |by right].
    left. by apply restored_step.
  - destruct (update_file_valid_ok sbi ei v) as [H|[? ->]]; [apply Hi|apply Hi|done|done| |by right].
    left. by apply restored_step.
  - left. unfold delete_file_entry, lock_ltree. rewrite Hl. simpl. eexists. split; [done|].
    destruct Hi as [? Hf ? ? ? ?]. split; [|done]. split; try done. by apply erase_files_ok.
  - destruct (ftree_lock sbi) eqn:E; [right; split; [done|]; unfold delete_fgroup_entry, lock_ftree; by rewrite E|left].
    destruct (delete_fgroup_ok sbi (u32 ino) Hi E) as (sbi' & -> & ? & ? & ?). eexists. split; [done|]. split; [done|]. split; congruence.
  - left. eexists. split; [done|]. destruct Hi. split; [by split|done].
Qed.

Lemma step_keeps sbi op sbi' :
  sinv sbi → ltree_lock sbi = false → op_ok op → stream_step sbi op = Some sbi' →
  sinv sbi' ∧ ltree_lock sbi' = false.
Proof.
  intros Hi Hl Hop H. assert (op = Cluster ∨ ¬ is_cluster op) as [->|Hc] by (destruct op; simpl; auto).
  - simpl in H. apply fmap_Some in H as ([s info] & H & ->).
    apply update_cluster_kept in H as [? ?]; [|done]. simpl. split; [done|congruence].
  - destruct (step_returns sbi op) as [(s & Hs & ? & ? & _)|[_ Hs]]; [done..| |]; rewrite H in Hs; by simplify_eq.
Qed.

Lemma run_keeps ops : ∀ sbi sbi',
  sinv sbi → ltree_lock sbi = false → Forall op_ok ops → stream_run sbi ops = Some sbi' →
  sinv sbi' ∧ ltree_lock sbi' = false.
Proof.
  unfold stream_run. induction ops as [|op ops IH]; intros sbi sbi' Hi Hl Hops H; [by simplify_eq/=|].
  apply Forall_cons in Hops as [Hop Hops]. cbn [foldl mbind option_bind] in H.
  destruct (stream_step sbi op) as [s|] eqn:E.
  - destruct (step_keeps sbi op s) as [? ?]; [done..|]. by apply (IH s).
  - exfalso. clear -H. induction ops; simpl in H; done.
Qed.

Lemma mounted_sinv b : sinv (mounted b).
Proof. split; try done; split; try done; constructor. Qed.

Lemma get_pstream_range sbi fg : groups_ok (fgroup_tree sbi) → 0 ≤ get_pstream sbi fg < NR_CLUSTER.
Proof.
  intros [_ Hg]. unfold get_pstream, get_cluster. destruct (lookup_fgroup_entry _ fg) as [re|] eqn:E; [|done].
  apply lookup_entry_Some in E as [Hin _]. rewrite Forall_forall in Hg. destruct (Hg re Hin) as [_ Hc].
  unfold CLUSTER_START_TYPE, CURSEG_COLD_DATA, NR_CLUSTER in *. rewrite s32_small by lia.
  repeat bcase; lia.
Qed.

(** ** The samples of a round *)

(** The lifetime of a group in a round, in segments; a group without one does
    not take part. *)
Definition takes_part sbi re : Prop := (update_new_ema sbi re).2 ≠ 0.
Definition round_lifetime sbi re : Z := (update_new_ema sbi re).2 / 512.

Lemma collect_elem sbi t re :
  re ∈ t → takes_part sbi re → ∃ w, (fgroup re, round_lifetime sbi re, w) ∈ (collect sbi t).2.
Proof.
  unfold takes_part, round_lifetime. intros Hin Hl. induction t as [|r t IH]; [by apply not_elem_of_nil in Hin|].
  cbn [collect]. destruct (update_new_ema_kept sbi r) as [Hk _].
  destruct (collect sbi t) as [entries samples]. cbn [snd] in IH. apply elem_of_cons in Hin as [<-|Hin].
  - destruct (update_new_ema sbi re) as [re' l]. simpl in *. rewrite (proj2 (Z.eqb_neq _ _)) by done.
    unfold group_sample. rewrite Hk. eexists. left.
  - destruct (IH Hin) as [w Hw]. destruct (update_new_ema sbi r) as [r' l]. exists w. simpl.
    destruct (l =? 0); [done|by right].
Qed.

Lemma collect_sublist sbi t : (collect sbi t).2.*1.*1 `sublist_of` fgroup <$> t.
Proof.
  induction t as [|r t IH]; [done|]. cbn [collect]. destruct (update_new_ema_kept sbi r) as [Hk _].
  destruct (collect sbi t) as [entries samples]. destruct (update_new_ema sbi r) as [r' l]. cbn [fst snd] in *.
  rewrite fmap_cons. destruct (l =? 0); [by apply sublist_cons|]. rewrite !fmap_cons. simpl. rewrite Hk.
  by apply sublist_skip.
Qed.

Lemma sorted_NoDup {A} (key : A → Z) t : sorted key t → NoDup (key <$> t).
Proof.
  unfold sorted. induction 1 as [|k l Hs IH Hf]; constructor; [|done].
  intros Hin. rewrite Forall_forall in Hf. specialize (Hf k Hin). lia.
Qed.

(** The entries updated by the round, and the groups, lifetimes and weights. *)
Definition round_entries sbi : list fgroup_entry := (collect sbi (fgroup_tree sbi)).1.
Definition round_groups sbi : list Z := (collect sbi (fgroup_tree sbi)).2.*1.*1.
Definition round_data sbi : list Z := (collect sbi (fgroup_tree sbi)).2.*1.*2.
Definition round_weights sbi : list Z := (collect sbi (fgroup_tree sbi)).2.*2.

(** A round that can be completed: it is due and the lock is free, more than
    three groups have a lifetime, their lifetimes are below the bound the code
    searches minima from, the array of clusters is written within its pages, and
    the centres to start from can be found. *)
Record round_ok sbi : Prop := {
  ro_due : last_cluster sbi ≤ user_blocks sbi;
  ro_free : ftree_lock sbi = false;
  ro_groups : 3 < Z.of_nat (length (round_data sbi)) < 2 ^ 31;
  ro_lifetimes : Forall in_dist (round_data sbi);
  ro_pages : Z.of_nat (length (round_data sbi)) ≤ vmalloc_ints (Z.of_nat (kept_groups (round_data sbi)));
  ro_rounds : kmeans_count sbi < MAX_HISTORY;
  ro_start : start_ok sbi (round_data sbi) (round_weights sbi)
}.

Lemma collect_locked sbi b t : collect (sbi <| ftree_lock := b |>) t = collect sbi t.
Proof. by induction t as [|re t IH]; [|cbn [collect]; rewrite IH]. Qed.

Lemma collect_length sbi t : (length (collect sbi t).2 ≤ length t)%nat.
Proof.
  pose proof (sublist_length _ _ (collect_sublist sbi t)) as H. by rewrite !length_fmap in H.
Qed.

(** The round as one step, given what it assigns. *)
Lemma round_run sbi :
  sinv sbi → round_ok sbi →
  ∃ sbi' info, f2fs_update_cluster sbi = Some (sbi', info) ∧ ftree_lock sbi' = false ∧
    assigns (sbi <| fgroup_tree := round_entries sbi |>) (round_groups sbi) (round_data sbi) sbi'.
Proof.
  intros Hi [Hdue Hfree Hn Hd Hpg Hcnt Hst]. unfold f2fs_update_cluster, lock_ftree. rewrite Hfree.
  rewrite (proj2 (Z.ltb_ge _ _)) by done. cbn [negb ensure mbind option_bind].
  unfold round_data in Hn. rewrite !length_fmap in Hn.
  pose proof (collect_length sbi (fgroup_tree sbi)) as Hcl. simpl fgroup_tree.
  rewrite (proj2 (Z.leb_gt _ _)) by (unfold NR_CLUSTER; lia). rewrite collect_locked.
  assert (Hi' : sinv (sbi <| fgroup_tree := round_entries sbi |>)).
  { apply sinv_groups; [done|]. apply collect_groups_ok, Hi. }
  destruct (recluster_run (sbi <| fgroup_tree := round_entries sbi |>) (round_groups sbi) (round_data sbi) (round_weights sbi))
    as (sbi' & info & Hr & Ha); try done.
  { unfold round_groups, round_data. by rewrite !length_fmap. } { unfold round_weights, round_data. by rewrite !length_fmap. }
  { unfold sized, round_data. rewrite !length_fmap. lia. } { unfold round_data. rewrite !length_fmap. lia. }
  unfold round_groups, round_data, round_weights, round_entries in *.
  destruct (collect sbi (fgroup_tree sbi)) as [entries samples]. cbn [fst snd] in *.
  rewrite (proj2 (Z.leb_gt _ _)) by (unfold NR_CLUSTER; lia).
  replace (unlock_ftree _) with (sbi <| fgroup_tree := entries |>) by (destruct sbi; simpl in *; by subst).
  change (Z.to_nat (NR_CLUSTER - 1)) with 3%nat. rewrite Hr. cbn [mbind option_bind]. eexists _, _. split; [done|].
  split; [|exact Ha]. apply recluster_kept in Hr as (_ & _ & Hl); [|done]. simpl in *. congruence.
Qed.

(** A group that takes part has a place among the samples. *)
Lemma round_place sbi re :
  Forall in_dist (round_data sbi) → re ∈ fgroup_tree sbi → takes_part sbi re →
  ∃ p, reorder (round_data sbi) (round_groups sbi) !! p = Some (fgroup re) ∧
    reorder (round_data sbi) (round_data sbi) !! p = Some (round_lifetime sbi re).
Proof.
  intros Hd Hin Hl. destruct (collect_elem sbi _ re Hin Hl) as [w [i Hi]%list_elem_of_lookup].
  assert (H1 : round_groups sbi !! i = Some (fgroup re)) by (unfold round_groups; by rewrite !list_lookup_fmap, Hi).
  assert (H2 : round_data sbi !! i = Some (round_lifetime sbi re)) by (unfold round_data; by rewrite !list_lookup_fmap, Hi).
  destruct (reorder_place (round_data sbi) Hd i) as [p Hp]; [by eapply lookup_lt_Some|]. exists p.
  rewrite !(reorder_lookup (round_data sbi) Hd _ p i); try done.
  unfold round_groups, round_data. by rewrite !length_fmap.
Qed.

(** The log of a group that takes part is the cluster it was assigned. *)
Lemma assigned_pstream sbi sbi' re cls p cl :
  sinv sbi → re ∈ fgroup_tree sbi → Forall in_dist (round_data sbi) → length cls = length (round_data sbi) →
  clusters_ok 3 cls → cls !! p = Some cl → reorder (round_data sbi) (round_groups sbi) !! p = Some (fgroup re) →
  fgroup_tree sbi' = fgroup_tree (assign_all (sbi <| fgroup_tree := round_entries sbi |>)
    (zip (reorder (round_data sbi) (round_groups sbi)) cls)) →
  get_pstream sbi' (fgroup re) = cl ∧ 0 ≤ cl < 3.
Proof.
  intros Hi Hin Hd Hl Hok Hcl Hp Ht.
  unfold clusters_ok in Hok. rewrite Forall_lookup in Hok. specialize (Hok p cl Hcl). simpl in Hok. split; [|done].
  assert (Hgl : length (round_groups sbi) = length (round_data sbi)) by (unfold round_groups, round_data; by rewrite !length_fmap).
  unfold get_pstream, get_cluster. rewrite Ht, (assigned _ _ (fgroup re) cl).
  - destruct (lookup_fgroup_entry (fgroup_tree _) (fgroup re)) as [r|] eqn:E.
    + simpl. rewrite u32_small, s32_small by lia. unfold CLUSTER_START_TYPE, CURSEG_COLD_DATA, NR_CLUSTER.
      destruct (Z.eqb_spec cl (-1)); bcase; lia.
    + exfalso. rewrite lookup_entry_None in E. simpl in E.
      assert (Hk : fgroup re ∈ fgroup <$> round_entries sbi) by (unfold round_entries; rewrite collect_keys; by apply list_elem_of_fmap_2).
      apply list_elem_of_fmap in Hk as (r & Hr & Hin'). by destruct (E r Hin').
  - rewrite fst_zip by (rewrite (reorder_perm _ Hd) by done; lia). rewrite (reorder_perm _ Hd) by done.
    eapply sublist_NoDup; [|apply collect_sublist]. apply sorted_NoDup, Hi.
  - apply list_elem_of_lookup. exists p. by apply lookup_zip_Some.
Qed.

(** ** Rounds that go wrong *)

Lemma update_file_valid_locked sbi ei v :
  files_ok (lifetime_tree sbi) → ltree_lock sbi = false → ftree_lock sbi = true → inode_ok ei → 0 ≤ v →
  update_file_valid sbi ei v = None.
Proof.
  intros Hf Hl Hl' [Hi Hp] Hv. unfold update_file_valid, lock_ltree. rewrite Hl. cbn [negb ensure mbind option_bind].
  rewrite (proj2 (Z.ltb_ge _ _)), andb_false_r by done.
  destruct (find_file_ok (sbi <| ltree_lock := true |>) (u32 (i_ino ei))) as (u & fe & -> & _); [done|].
  cbn [mbind option_bind]. destruct (refresh_ok ei Hp Hi) as (ei1 & -> & _). cbn [mbind option_bind].
  unfold lock_ftree. simpl ftree_lock. by rewrite Hl'.
Qed.

(** The first centre takes all groups when the last of them is needed for it. *)
Lemma init_loop_all data weight interval l z : ∀ s c,
  Forall (λ i, 0 ≤ nth i weight 0) (l ++ [z]) → 0 ≤ s → s + total weight (l ++ [z]) < 2 ^ 31 →
  s + total weight l < interval ≤ s + total weight (l ++ [z]) →
  ∃ c', init_center_loop data weight interval (l ++ [z]) s c = Some (c', s + total weight (l ++ [z]), []).
Proof.
  assert (Hnn : ∀ o, Forall (λ i, 0 ≤ nth i weight 0) o → 0 ≤ total weight o).
  { induction 1; [done|]. rewrite total_cons. lia. }
  induction l as [|i l IH]; intros s c Hw Hs Ht Hi; cbn [app init_center_loop] in *.
  - rewrite total_cons in *. change (total weight []) with 0 in *. apply Forall_cons in Hw as [? _].
    rewrite s32_small, u64_small by lia. rewrite (proj2 (Z.leb_le _ _)) by lia. eexists. do 3 f_equal. lia.
  - rewrite !total_cons in *. apply Forall_cons in Hw as [? Hw]. pose proof (Hnn _ Hw).
    assert (0 ≤ total weight l) by (apply Hnn; by apply Forall_app in Hw as [? _]).
    rewrite s32_small by lia. rewrite u64_small by lia. rewrite (proj2 (Z.leb_gt _ _)) by lia.
    destruct (IH (s + nth i weight 0) (if s32 (interval / 2) <=? s + nth i weight 0 then nth i data 0 else c)) as [c' Hc];
      [done|lia..|]. exists c'. rewrite Hc. do 3 f_equal. lia.
Qed.

(** ** Theorems *)

(** C27: whatever has happened since the mount, the trees are sorted, every group
    has a cluster, and the log that a file's data are written to is one of the
    data logs. *)
Theorem pstream_valid b ops sbi fg :
  Forall op_ok ops → stream_run (mounted b) ops = Some sbi →
  sinv sbi ∧ 0 ≤ get_pstream sbi fg < NR_CLUSTER.
Proof.
  intros Hops H. destruct (run_keeps ops (mounted b) sbi) as [Hi _]; [apply mounted_sinv|done..|].
  split; [done|]. apply get_pstream_range, Hi.
Qed.



(** The moving average of a group's lifetime stays within the bounds of its
    old value and of the lifetimes measured since, but for the rounding of two
    divisions. *)
Lemma ema_bounds sbi re lo hi :
  cold_type (Z.land (fgroup re) 31) = false → update_ema re ≠ 0 →
  0 ≤ valid re < 2 ^ 31 → 0 ≤ latest_count re → 0 < valid re + latest_count re → 0 ≤ lo → 1 ≤ hi →
  lo ≤ ema re ≤ hi → lo * latest_count re ≤ latest_lifetime re ≤ hi * latest_count re →
  hi * (valid re + latest_count re) < 2 ^ 64 → 10 * hi < 2 ^ 64 →
  lo - 1 ≤ ema (update_new_ema sbi re).1 ≤ hi ∧ (update_new_ema sbi re).2 = ema (update_new_ema sbi re).1.
Proof.
  intros Hc He Hv Hn Hpos Hlo Hhi Hema Hlife Hov Hov'.
  unfold update_new_ema. rewrite Hc, (proj2 (Z.eqb_neq _ _)) by done.
  assert (Hs : valid re + latest_count re < 2 ^ 64) by nia.
  assert (Hm : lo * (valid re + latest_count re) ≤ valid re * ema re + latest_lifetime re
    ≤ hi * (valid re + latest_count re)) by nia.
  rewrite (u64_small (latest_count re + valid re)) by lia. rewrite (proj2 (Z.ltb_lt _ _)) by lia.
  rewrite (u64_small (valid re)) by lia. rewrite (u64_small (valid re + latest_count re)) by lia.
  rewrite (u64_small (valid re * ema re + latest_lifetime re)) by nia.
  set (lv := (valid re * ema re + latest_lifetime re) / (valid re + latest_count re)).
  assert (Hlv : lo ≤ lv ≤ hi).
  { unfold lv. split; [apply Z.div_le_lower_bound|apply Z.div_le_upper_bound]; lia. }
  clearbody lv. unfold EMA_W_DIV, EMA_W_NUM. cbn [fst snd]. split; [|done]. simpl ema.
  rewrite (u64_small (ema re * (10 - 7))), (u64_small (lv * 7)) by lia. rewrite u64_small by dlia. dlia.
Qed.

(** When no more than three groups exist at a round, it returns without
    releasing the lock of the groups: no file can then report valid blocks, no
    inode can be deleted, and the next round does not return either. *)
Lemma few_groups_deadlock sbi :
  sinv sbi → ltree_lock sbi = false → ftree_lock sbi = false → last_cluster sbi ≤ user_blocks sbi →
  Z.of_nat (length (fgroup_tree sbi)) ≤ NR_CLUSTER - 1 →
  ∃ sbi', f2fs_update_cluster sbi = Some (sbi', []) ∧
    (∀ ino, delete_fgroup_entry sbi' ino = None) ∧
    (∀ ei v, inode_ok ei → 0 ≤ v → update_file_valid sbi' ei v = None) ∧
    (∀ n, user_blocks sbi + CLUSTER_T ≤ n → f2fs_update_cluster (sbi' <| user_blocks := n |>) = None).
Proof.
  intros Hi Hl Hf Hdue Hn. unfold f2fs_update_cluster at 1, lock_ftree. rewrite Hf, (proj2 (Z.ltb_ge _ _)) by done.
  cbn [negb ensure mbind option_bind]. simpl fgroup_tree. rewrite (proj2 (Z.leb_le _ _)) by done.
  eexists. split; [done|]. split; [done|]. split.
  - intros ei v Hei Hv. apply update_file_valid_locked; try done. apply Hi.
  - intros n Hle. unfold f2fs_update_cluster, lock_ftree. simpl. by rewrite (proj2 (Z.ltb_ge _ _)).
Qed.

(** In the first ten rounds the array of sorted indices is read past its end
    when the group with the longest lifetime has more than two thirds of the
    valid blocks. *)
Lemma init_center_overrun data weight l z :
  Forall in_dist data → (length data ≤ length weight)%nat → Forall (λ w, 0 ≤ w) (take (length data) weight) →
  zsum (take (length data) weight) < 2 ^ 31 → sort_index data = l ++ [z] →
  total weight l < zsum (take (length data) weight) / 3 →
  init_center 3 data weight = None.
Proof.
  intros Hd Hl Hw Hs Hsort Hlt. unfold init_center. rewrite foldl_weights by done.
  destruct (sort_index_spec data Hd) as [_ Hp].
  assert (Ht : total weight (sort_index data) = zsum (take (length data) weight)).
  { unfold total. rewrite <- nth_seq_take by done. apply zsum_perm. by rewrite Hp. }
  assert (Hnn : Forall (λ i, 0 ≤ nth i weight 0) (l ++ [z])).
  { rewrite <- Hsort, Hp. by rewrite <- nth_seq_take, Forall_fmap in Hw. }
  assert (0 ≤ total weight l).
  { apply Forall_app in Hnn as [Hnn _]. clear -Hnn. induction Hnn; [done|]. rewrite total_cons. lia. }
  rewrite Z.add_0_l, <- Ht, Hsort in *. cbn [init_centers]. change (Z.of_nat 3) with 3.
  rewrite Z.quot_div_nonneg, u64_small by dlia.
  destruct (init_loop_all data weight (total weight (l ++ [z]) / 3) l z 0 0) as [c Hc]; [done|lia|lia|dlia|].
  rewrite Hc. done.
Qed.

(** ** Witnesses *)

(** A database of an application, and its journal. *)
Definition demo_inode (ino : Z) (name : string) : inode :=
  {| i_ino := ino;
     i_dentry := Some [(name, ino); ("databases", 40); ("com.app", 30); ("data", 20); ("data", 10); ("/", 2)]%string;
     i_filetype := FGROUP_INIT; i_fgroup := 0; i_keyword := "KEY-INIT" |}.

Definition demo_ops : list stream_op :=
  [Blocks 1000; Valid (demo_inode 100 "mail.db") 20; Lifetime (demo_inode 100 "mail.db") 0 20 0;
   Blocks 5000; Lifetime (demo_inode 100 "mail.db") 0 20 0; Valid (demo_inode 101 "mail.db-journal") 4;
   Lifetime (demo_inode 101 "mail.db-journal") 0 4 0; Blocks 6000;
   Lifetime (demo_inode 101 "mail.db-journal") 0 4 1; DeleteFile 101; DeleteGroups 101].

Lemma demo_inode_ok ino name :
  bool_decide (is_Some (get_full_path_dentry
    [(name, ino); ("databases", 40); ("com.app", 30); ("data", 20); ("data", 10); ("/", 2)]%string 500)) = true →
  inode_ok (demo_inode ino name).
Proof. intros H%bool_decide_eq_true. by split. Qed.

Lemma demo_ops_ok : Forall op_ok demo_ops.
Proof. unfold demo_ops. rewrite !Forall_cons. split_and!; try done; by apply demo_inode_ok; vm_compute. Qed.

Lemma pstream_valid_witness : ∃ sbi, stream_run (mounted 0) demo_ops = Some sbi ∧ sinv sbi ∧
  0 ≤ get_pstream sbi (Z.shiftl 100 5 + FGROUP_DATABASES) < NR_CLUSTER.
Proof.
  destruct (stream_run (mounted 0) demo_ops) as [sbi|] eqn:E; [|by vm_compute in E].
  exists sbi. split; [done|]. apply (pstream_valid 0 demo_ops sbi (Z.shiftl 100 5 + FGROUP_DATABASES)); [apply demo_ops_ok|done].
Defined.


(** Six groups with a moving average of their lifetime. *)
Definition demo_group (fg e : Z) : fgroup_entry :=
  {| fgroup := fg; cluster := 1; cold := 0; count := 5; ema := e; latest_lifetime := 0; latest_count := 0;
     create_time := 0; update_ema := 1; valid := 10; keyword := "" |}.

Definition demo_sbi : f2fs_sb_info :=
  mounted 5000000 <| fgroup_tree := [demo_group 47 512000; demo_group 79 51200; demo_group 111 1024000;
                                     demo_group 143 600000; demo_group 175 2000000; demo_group 207 2000000] |>.

Lemma demo_sinv : sinv demo_sbi.
Proof. split; try done; split; repeat constructor; done. Qed.

Lemma demo_round_ok : round_ok demo_sbi.
Proof.
  assert (Hd : round_data demo_sbi = [1000; 100; 2000; 1171; 3906; 3906]) by (vm_compute; reflexivity).
  assert (Hw : reorder (round_data demo_sbi) (round_weights demo_sbi) = [10; 10; 10; 10; 10; 10]) by (vm_compute; reflexivity).
  split; rewrite ?Hd.
  - vm_compute. discriminate.
  - reflexivity.
  - simpl. lia.
  - repeat constructor; vm_compute; congruence.
  - vm_compute. discriminate.
  - reflexivity.
  - split; [intros _|intros H; exfalso; apply H; reflexivity]. rewrite <- Hd, Hw, Hd. split; [reflexivity|].
    repeat constructor; vm_compute; congruence.
Qed.

