(* ===== verification/RteRing.v ===== *)
(** * The ring between the pollers and the FTL thread
      (src/femu-ocssd/hw/block/femu/lib/rte_ring.c, inc/rte_ring.h)

    A ring of pointers that any number of threads enqueue to and dequeue from
    without locks.  A producer reserves entries by moving [prod.head] with a
    compare-and-set, writes its pointers, waits until the producers before it are
    done and moves [prod.tail]; consumers do the same with [cons].  The indices
    are 32-bit counters that wrap around and are masked on access.

    Each thread has a state [pc] with its local variables, and [ring_step] runs
    one access to the shared ring: so the threads may be interleaved between any
    two of them.  Loads and stores take effect in program order, as the compiler
    and memory barriers of the code ensure on x86.  [None] is a thread that has
    nothing to do, that spins in [update_tail], or an access outside the table.
    The name of a ring is left out, with the errors for names that are too long. *)

From S2P Require Import Prelude.

(** A pointer. *)
Notation obj := Z (only parsing).

Record rte_ring_headtail := { head : Z; tail : Z; single : Z }.

(** [slots] is the table of pointers behind the structure. *)
Record rte_ring := {
  flags : Z;
  size : Z;
  mask : Z;
  capacity : Z;
  prod : rte_ring_headtail;
  cons : rte_ring_headtail;
  slots : list obj
}.

#[global] Instance rte_ring_headtail_fields : Fields rte_ring_headtail := λ r,
  Build_rte_ring_headtail (head r) (tail r) (single r).
#[global] Instance rte_ring_fields : Fields rte_ring := λ r,
  Build_rte_ring (flags r) (size r) (mask r) (capacity r) (prod r) (cons r) (slots r).

Inductive rte_ring_queue_behavior := RTE_RING_QUEUE_FIXED | RTE_RING_QUEUE_VARIABLE.

Implicit Types (r : rte_ring) (b : rte_ring_queue_behavior).

Definition RING_F_SP_ENQ : Z := 1.
Definition RING_F_SC_DEQ : Z := 2.
Definition RING_F_EXACT_SZ : Z := 4.
Definition RTE_RING_SZ_MASK : Z := 268435455.

(** ** Set-up *)

Definition rte_align32pow2 (x : Z) : Z :=
  let x := u32 (x - 1) in
  let x := Z.lor x (Z.shiftr x 1) in
  let x := Z.lor x (Z.shiftr x 2) in
  let x := Z.lor x (Z.shiftr x 4) in
  let x := Z.lor x (Z.shiftr x 8) in
  let x := Z.lor x (Z.shiftr x 16) in
  u32 (x + 1).

Definition POWEROF2 (x : Z) : bool := Z.land (u32 (x - 1)) x =? 0.

(** Whether [rte_ring_get_memsize] gives a size. *)
Definition rte_ring_get_memsize (count : Z) : bool := POWEROF2 count && (count <=? RTE_RING_SZ_MASK).

(** [None] is the error; the table comes from the allocator. *)
Definition rte_ring_init (table : list obj) (count fl : Z) : option rte_ring :=
  let ht (f : Z) := {| head := 0; tail := 0; single := b2z (has fl f) |} in
  if has fl RING_F_EXACT_SZ then
    let sz := rte_align32pow2 (u32 (count + 1)) in
    Some {| flags := fl; size := sz; mask := u32 (sz - 1); capacity := count; prod := ht RING_F_SP_ENQ;
            cons := ht RING_F_SC_DEQ; slots := table |}
  else
    _ ← ensure (POWEROF2 count && (count <=? RTE_RING_SZ_MASK));
    Some {| flags := fl; size := count; mask := u32 (count - 1); capacity := u32 (count - 1);
            prod := ht RING_F_SP_ENQ; cons := ht RING_F_SC_DEQ; slots := table |}.

(** [valloc] leaves the table with any contents. *)
Definition rte_ring_create (valloc : Z → list obj) (requested_count fl : Z) : option rte_ring :=
  let count := if has fl RING_F_EXACT_SZ then rte_align32pow2 (u32 (requested_count + 1)) else requested_count in
  _ ← ensure (rte_ring_get_memsize count);
  rte_ring_init (valloc count) requested_count fl.

Inductive femu_ring_type := FEMU_RING_TYPE_SP_SC | FEMU_RING_TYPE_MP_SC | FEMU_RING_TYPE_MP_MC.

Definition femu_ring_create (valloc : Z → list obj) (type : femu_ring_type) (count : Z) : option rte_ring :=
  let fl := match type with
            | FEMU_RING_TYPE_SP_SC => Z.lor RING_F_SP_ENQ RING_F_SC_DEQ
            | FEMU_RING_TYPE_MP_SC => RING_F_SC_DEQ
            | FEMU_RING_TYPE_MP_MC => 0
            end in
  rte_ring_create valloc (u32 count) fl.

(** ** Counts *)

Definition rte_ring_count r : Z :=
  let count := Z.land (u32 (tail (prod r) - tail (cons r))) (mask r) in
  if capacity r <? count then capacity r else count.

Definition rte_ring_free_count r : Z := u32 (capacity r - rte_ring_count r).
Definition rte_ring_full r : bool := rte_ring_free_count r =? 0.
Definition rte_ring_empty r : bool := rte_ring_count r =? 0.
Definition rte_ring_get_size r : Z := size r.
Definition rte_ring_get_capacity r : Z := capacity r.
Definition femu_ring_count r : Z := rte_ring_count r.

(** ** Threads *)

(** Where a thread is in an operation: before the load of its head, before the
    load of the other tail, before the compare-and-set, before the copy of the
    [i]-th pointer, before the update of the tail, and at the end. *)
Inductive pc :=
  | Idle
  | EnqHead b (objs : list obj)
  | EnqFree b (objs : list obj) (old_head : Z)
  | EnqCas b (objs : list obj) (old_head n free_entries : Z)
  | EnqCopy (objs : list obj) (old_head n free_entries i : Z)
  | EnqTail (old_head n free_entries : Z)
  | EnqDone (n free_space : Z)
  | DeqHead b (max : Z)
  | DeqEntries b (max old_head : Z)
  | DeqCas b (max old_head n entries : Z)
  | DeqCopy (old_head n entries : Z) (objs : list obj)
  | DeqTail (old_head n entries : Z) (objs : list obj)
  | DeqDone (n available : Z) (objs : list obj).

(** The number of entries to take when [avail] are there. *)
Definition burst b (n avail : Z) : Z :=
  if avail <? n then match b with RTE_RING_QUEUE_FIXED => 0 | RTE_RING_QUEUE_VARIABLE => avail end else n.

(** The index the [i]-th pointer of [n] is copied to or from
    ([ENQUEUE_PTRS], [DEQUEUE_PTRS]). *)
Definition slot_index r (old_head n i : Z) : Z :=
  let idx := Z.land old_head (mask r) in
  if u32 (idx + n) <? size r then idx + i
  else if idx + i <? size r then idx + i else i - (size r - idx).

(** [update_tail]: [None] while the thread has to wait. *)
Definition update_tail (ht : rte_ring_headtail) (old_val new_val : Z) : option rte_ring_headtail :=
  _ ← ensure (nz (single ht) || (tail ht =? old_val));
  Some (ht <| tail := new_val |>).

(** [is_sp]: a plain store; otherwise a compare-and-set.  [None]: it failed. *)
Definition move_head (ht : rte_ring_headtail) (old_head new_head : Z) : option rte_ring_headtail :=
  if nz (single ht) || (head ht =? old_head) then Some (ht <| head := new_head |>) else None.

(** One access of a thread to the ring. *)
Definition ring_step r (t : pc) : option (rte_ring * pc) :=
  match t with
  | EnqHead b objs => Some (r, EnqFree b objs (head (prod r)))
  | EnqFree b objs old_head =>
      let free_entries := u32 (capacity r + tail (cons r) - old_head) in
      let n := burst b (Z.of_nat (length objs)) free_entries in
      Some (r, if n =? 0 then EnqDone 0 free_entries else EnqCas b objs old_head n free_entries)
  | EnqCas b objs old_head n free_entries =>
      match move_head (prod r) old_head (u32 (old_head + n)) with
      | Some ht => Some (r <| prod := ht |>, EnqCopy objs old_head n free_entries 0)
      | None => Some (r, EnqHead b objs)
      end
  | EnqCopy objs old_head n free_entries i =>
      x ← rd objs i;
      s ← wr (slots r) (slot_index r old_head n i) x;
      Some (r <| slots := s |>, if i + 1 =? n then EnqTail old_head n free_entries
                                else EnqCopy objs old_head n free_entries (i + 1))
  | EnqTail old_head n free_entries =>
      ht ← update_tail (prod r) old_head (u32 (old_head + n));
      Some (r <| prod := ht |>, EnqDone n (u32 (free_entries - n)))
  | DeqHead b max => Some (r, DeqEntries b max (head (cons r)))
  | DeqEntries b max old_head =>
      let entries := u32 (tail (prod r) - old_head) in
      let n := burst b max entries in
      Some (r, if n =? 0 then DeqDone 0 entries [] else DeqCas b max old_head n entries)
  | DeqCas b max old_head n entries =>
      match move_head (cons r) old_head (u32 (old_head + n)) with
      | Some ht => Some (r <| cons := ht |>, DeqCopy old_head n entries [])
      | None => Some (r, DeqHead b max)
      end
  | DeqCopy old_head n entries objs =>
      x ← rd (slots r) (slot_index r old_head n (Z.of_nat (length objs)));
      let objs := objs ++ [x] in
      Some (r, if Z.of_nat (length objs) =? n then DeqTail old_head n entries objs
               else DeqCopy old_head n entries objs)
  | DeqTail old_head n entries objs =>
      ht ← update_tail (cons r) old_head (u32 (old_head + n));
      Some (r <| cons := ht |>, DeqDone n (u32 (entries - n)) objs)
  | Idle | EnqDone _ _ | DeqDone _ _ _ => None
  end.

(** The calls a thread makes; [objs] are the [n] pointers of the argument.  FEMU
    uses [femu_ring_enqueue] and [femu_ring_dequeue], whose [size_t] is cut to 32
    bits.  Whether there is one producer or consumer is what the ring says. *)
Definition rte_ring_enqueue_bulk (objs : list obj) : pc := EnqHead RTE_RING_QUEUE_FIXED objs.
Definition rte_ring_enqueue_burst (objs : list obj) : pc := EnqHead RTE_RING_QUEUE_VARIABLE objs.
Definition rte_ring_dequeue_bulk (n : Z) : pc := DeqHead RTE_RING_QUEUE_FIXED n.
Definition rte_ring_dequeue_burst (n : Z) : pc := DeqHead RTE_RING_QUEUE_VARIABLE n.
Definition rte_ring_enqueue (x : obj) : pc := rte_ring_enqueue_bulk [x].
Definition rte_ring_dequeue : pc := rte_ring_dequeue_bulk 1.
Definition femu_ring_enqueue (objs : list obj) (count : Z) : pc := rte_ring_enqueue_bulk (take (Z.to_nat (u32 count)) objs).
Definition femu_ring_dequeue (count : Z) : pc := rte_ring_dequeue_burst (u32 count).
