(* ===== verification/RteRingInv.v ===== *)
(** * The ring as a queue: history, invariant, preservation

    To every state of the ring and its threads belong totals that do not wrap
    around: the list of all pointers for which entries were ever reserved, and how
    many of them have been published, taken and released.  [gexec] runs a thread
    and keeps these totals; they have no influence on the run.  [rinv] relates them
    to the 32-bit indices, the table and the local variables of the threads. *)

From S2P Require Import Prelude RteRing.

Implicit Types (r : rte_ring) (b : rte_ring_queue_behavior).

(** ** Histories *)

(** A thread, the total that belongs to its [old_head], and its batch: the
    pointers it enqueues, or those it is to return. *)
Record gthread := { g_pc : pc; g_pos : Z; g_batch : list obj }.

(** [g_log]: all pointers in the order of their entries; [g_pt], [g_ch], [g_ct]:
    how many have been published ([prod.tail]), reserved by consumers
    ([cons.head]) and released ([cons.tail]). *)
Record gring := {
  g_ring : rte_ring;
  g_threads : list gthread;
  g_log : list obj;
  g_pt : Z;
  g_ch : Z;
  g_ct : Z
}.

#[global] Instance gthread_fields : Fields gthread := λ t, Build_gthread (g_pc t) (g_pos t) (g_batch t).
#[global] Instance gring_fields : Fields gring := λ s,
  Build_gring (g_ring s) (g_threads s) (g_log s) (g_pt s) (g_ch s) (g_ct s).

Implicit Types (s : gring) (t : gthread).

(** [prod.head] as a total. *)
Definition g_ph s : Z := Z.of_nat (length (g_log s)).

(** The [n] pointers from the total [p] on. *)
Definition segment (log : list obj) (p n : Z) : list obj := take (Z.to_nat n) (drop (Z.to_nat p) log).

(** The totals after an access: the thread, the pointers added to the log, and
    the three other totals. *)
Definition gtrack s t (p : pc) : gthread * list obj * Z * Z * Z :=
  let t' := t <| g_pc := p |> in
  match g_pc t, p with
  | EnqHead _ _, _ => (t' <| g_pos := g_ph s |>, [], g_pt s, g_ch s, g_ct s)
  | EnqCas _ objs _ n _, EnqCopy _ _ _ _ _ =>
      (t' <| g_batch := take (Z.to_nat n) objs |>, take (Z.to_nat n) objs, g_pt s, g_ch s, g_ct s)
  | EnqTail _ n _, _ => (t', [], g_pos t + n, g_ch s, g_ct s)
  | DeqHead _ _, _ => (t' <| g_pos := g_ch s |> <| g_batch := [] |>, [], g_pt s, g_ch s, g_ct s)
  | DeqCas _ _ _ n _, DeqCopy _ _ _ _ =>
      (t' <| g_batch := segment (g_log s) (g_ch s) n |>, [], g_pt s, g_ch s + n, g_ct s)
  | DeqTail _ n _ _, _ => (t', [], g_pt s, g_ch s, g_pos t + n)
  | _, _ => (t', [], g_pt s, g_ch s, g_ct s)
  end.

(** A thread calls an operation, or runs up to its next access. *)
Inductive gevent := Call (i : nat) (p : pc) | Run (i : nat).

Definition idle (p : pc) : bool := match p with Idle | EnqDone _ _ | DeqDone _ _ _ => true | _ => false end.

Definition gexec s (e : gevent) : option gring :=
  match e with
  | Call i p =>
      t ← g_threads s !! i;
      _ ← ensure (idle (g_pc t) && match p with EnqHead _ _ => true | DeqHead _ m => 0 <=? m | _ => false end);
      Some (s <| g_threads ::= <[i := t <| g_pc := p |>]> |>)
  | Run i =>
      t ← g_threads s !! i;
      '(r, p) ← ring_step (g_ring s) (g_pc t);
      let '(t, objs, pt, ch, ct) := gtrack s t p in
      Some {| g_ring := r; g_threads := <[i := t]> (g_threads s); g_log := g_log s ++ objs;
              g_pt := pt; g_ch := ch; g_ct := ct |}
  end.

(** The pointers that are published and not taken. *)
Definition queue s : list obj := segment (g_log s) (g_ch s) (g_pt s - g_ch s).

(** ** Parts of an operation *)

(** A thread between its load of a head and the compare-and-set. *)
Definition enq_seen t : bool := match g_pc t with EnqFree _ _ _ | EnqCas _ _ _ _ _ => true | _ => false end.
Definition deq_seen t : bool := match g_pc t with DeqEntries _ _ _ | DeqCas _ _ _ _ _ => true | _ => false end.

(** The number of entries a thread has reserved and not yet passed on. *)
Definition enq_held t : Z := match g_pc t with EnqCopy _ _ n _ _ | EnqTail _ n _ => n | _ => 0 end.
Definition deq_held t : Z := match g_pc t with DeqCopy _ n _ _ | DeqTail _ n _ _ => n | _ => 0 end.

(** How many of them a producer has written. *)
Definition enq_written t : Z := match g_pc t with EnqCopy _ _ _ _ i => i | EnqTail _ n _ => n | _ => 0 end.

Definition enq_pc t : bool :=
  match g_pc t with EnqHead _ _ | EnqFree _ _ _ | EnqCas _ _ _ _ _ | EnqCopy _ _ _ _ _ | EnqTail _ _ _ => true | _ => false end.
Definition deq_pc t : bool :=
  match g_pc t with DeqHead _ _ | DeqEntries _ _ _ | DeqCas _ _ _ _ _ | DeqCopy _ _ _ _ | DeqTail _ _ _ _ => true | _ => false end.

(** No thread is overtaken by 2^31 entries between its load of a head and its
    compare-and-set: the 32-bit index would then be ambiguous. *)
Definition timely s : Prop :=
  ∀ i t, g_threads s !! i = Some t →
    (enq_seen t = true → g_ph s - g_pos t < 2 ^ 31) ∧ (deq_seen t = true → g_ch s - g_pos t < 2 ^ 31).

(** A ring that was created for one producer or consumer has only one. *)
Definition lone s : Prop :=
  (nz (single (prod (g_ring s))) = true →
     ∀ i j t u, g_threads s !! i = Some t → g_threads s !! j = Some u → enq_pc t = true → enq_pc u = true → i = j) ∧
  (nz (single (cons (g_ring s))) = true →
     ∀ i j t u, g_threads s !! i = Some t → g_threads s !! j = Some u → deq_pc t = true → deq_pc u = true → i = j).

(** ** The invariant *)

(** What the local variables of a thread mean. *)
Definition thread_ok s t : Prop :=
  match g_pc t with
  | Idle | EnqDone _ _ | EnqHead _ _ => True
  | DeqHead b m => 0 ≤ m
  | EnqFree b objs h => h = u32 (g_pos t) ∧ 0 ≤ g_pos t ≤ g_ph s
  | EnqCas b objs h n f =>
      h = u32 (g_pos t) ∧ 0 ≤ g_pos t ≤ g_ph s ∧ 1 ≤ n ≤ Z.of_nat (length objs) ∧
      n ≤ capacity (g_ring s) + g_ct s - g_pos t
  | EnqCopy objs h n f i =>
      h = u32 (g_pos t) ∧ g_pt s ≤ g_pos t ∧ g_pos t + n ≤ g_ph s ∧ 0 ≤ i < n ∧ n ≤ Z.of_nat (length objs) ∧
      g_batch t = take (Z.to_nat n) objs ∧ segment (g_log s) (g_pos t) n = g_batch t
  | EnqTail h n f =>
      h = u32 (g_pos t) ∧ g_pt s ≤ g_pos t ∧ g_pos t + n ≤ g_ph s ∧ 1 ≤ n ∧ segment (g_log s) (g_pos t) n = g_batch t
  | DeqEntries b m h => h = u32 (g_pos t) ∧ 0 ≤ g_pos t ≤ g_ch s ∧ 0 ≤ m ∧ g_batch t = []
  | DeqCas b m h n e => h = u32 (g_pos t) ∧ 0 ≤ g_pos t ≤ g_ch s ∧ 0 ≤ m ∧ 1 ≤ n ∧ n ≤ g_pt s - g_pos t
  | DeqCopy h n e objs =>
      h = u32 (g_pos t) ∧ g_ct s ≤ g_pos t ∧ g_pos t + n ≤ g_ch s ∧ Z.of_nat (length objs) < n ∧
      segment (g_log s) (g_pos t) n = g_batch t ∧ objs = take (length objs) (g_batch t)
  | DeqTail h n e objs =>
      h = u32 (g_pos t) ∧ g_ct s ≤ g_pos t ∧ g_pos t + n ≤ g_ch s ∧ 1 ≤ n ∧ objs = g_batch t ∧ Z.of_nat (length objs) = n
  | DeqDone n a objs => objs = g_batch t ∧ Z.of_nat (length objs) = n
  end.

(** The entry of a total has been written. *)
Definition written s (p : Z) : Prop :=
  p < g_pt s ∨ ∃ i t, g_threads s !! i = Some t ∧ g_pos t ≤ p < g_pos t + enq_written t.

(** Threads hold different entries; every entry in a range is held. *)
Definition apart (held : gthread → Z) (ths : list gthread) : Prop :=
  ∀ i j t u, i ≠ j → ths !! i = Some t → ths !! j = Some u → 0 < held t → 0 < held u →
    g_pos t + held t ≤ g_pos u ∨ g_pos u + held u ≤ g_pos t.

Definition covered (held : gthread → Z) (ths : list gthread) (lo hi : Z) : Prop :=
  ∀ p, lo ≤ p < hi → ∃ i t, ths !! i = Some t ∧ g_pos t ≤ p < g_pos t + held t.

Record ring_ok r : Prop := {
  ro_size : ∃ k, 0 ≤ k ≤ 28 ∧ size r = 2 ^ k;
  ro_mask : mask r = size r - 1;
  ro_capacity : 0 ≤ capacity r < size r;
  ro_slots : Z.of_nat (length (slots r)) = size r
}.

Record rinv s : Prop := {
  ri_ring : ring_ok (g_ring s);
  ri_prod : head (prod (g_ring s)) = u32 (g_ph s) ∧ tail (prod (g_ring s)) = u32 (g_pt s);
  ri_cons : head (cons (g_ring s)) = u32 (g_ch s) ∧ tail (cons (g_ring s)) = u32 (g_ct s);
  ri_order : 0 ≤ g_ct s ∧ g_ct s ≤ g_ch s ∧ g_ch s ≤ g_pt s ∧ g_pt s ≤ g_ph s ∧ g_ph s ≤ g_ct s + capacity (g_ring s);
  ri_threads : ∀ i t, g_threads s !! i = Some t → thread_ok s t;
  ri_enq_apart : apart enq_held (g_threads s);
  ri_deq_apart : apart deq_held (g_threads s);
  ri_enq_all : covered enq_held (g_threads s) (g_pt s) (g_ph s);
  ri_deq_all : covered deq_held (g_threads s) (g_ct s) (g_ch s);
  ri_written : ∀ p, g_ct s ≤ p < g_ph s → written s p →
    rd (slots (g_ring s)) (p mod size (g_ring s)) = rd (g_log s) p;
  ri_lone_enq : nz (single (prod (g_ring s))) = true →
    ∀ i t, g_threads s !! i = Some t → enq_seen t = true → g_pos t = g_ph s;
  ri_lone_deq : nz (single (cons (g_ring s))) = true →
    ∀ i t, g_threads s !! i = Some t → deq_seen t = true → g_pos t = g_ch s
}.

(** ** Lemmas *)

Lemma u32_add_l a n : u32 (u32 a + n) = u32 (a + n).
Proof. unfold u32. by rewrite Zplus_mod_idemp_l. Qed.

Lemma u32_sub a c : u32 (u32 a - u32 c) = u32 (a - c).
Proof. unfold u32. by rewrite <- Zminus_mod. Qed.

Lemma u32_inj a c : u32 a = u32 c → - 2 ^ 32 < a - c < 2 ^ 32 → a = c.
Proof.
  unfold u32. intros H Hr. pose proof (Z.div_mod a (2 ^ 32)). pose proof (Z.div_mod c (2 ^ 32)). nia.
Qed.

Lemma segment_app log x p n : 0 ≤ p → p + n ≤ Z.of_nat (length log) → segment (log ++ x) p n = segment log p n.
Proof.
  intros Hp Hn. unfold segment. destruct (decide (0 ≤ n)); [|by rewrite Z2Nat.nonpos by lia].
  rewrite drop_app_le by lia. rewrite take_app_le; [done|]. rewrite length_drop. lia.
Qed.

Lemma segment_all log x n : n = Z.of_nat (length x) → segment (log ++ x) (Z.of_nat (length log)) n = x.
Proof. intros ->. unfold segment. by rewrite !Nat2Z.id, drop_app_length, firstn_all. Qed.

Lemma segment_length log p n : 0 ≤ p → 0 ≤ n → p + n ≤ Z.of_nat (length log) → Z.of_nat (length (segment log p n)) = n.
Proof. intros. unfold segment. rewrite length_take, length_drop. lia. Qed.

Lemma segment_split log p a c :
  0 ≤ p → 0 ≤ a → 0 ≤ c → segment log p (a + c) = segment log p a ++ segment log (p + a) c.
Proof.
  intros. unfold segment. rewrite !Z2Nat.inj_add by lia. by rewrite <- drop_drop, take_take_drop.
Qed.

Lemma rd_segment log p n k : 0 ≤ p → 0 ≤ k < n → rd (segment log p n) k = rd log (p + k).
Proof.
  intros Hp Hk. unfold rd, segment. rewrite !(proj2 (Z.leb_le 0 _)) by lia.
  rewrite lookup_take_lt by lia. rewrite lookup_drop. f_equal. lia.
Qed.

Lemma lookup_insert_cases {A} (l : list A) i j x y :
  <[i := x]> l !! j = Some y → i = j ∧ y = x ∨ i ≠ j ∧ l !! j = Some y.
Proof.
  intros H. destruct (decide (i = j)) as [<-|]; [left|right].
  - split; [done|]. destruct (decide (i < length l)%nat).
    + rewrite list_lookup_insert_eq in H by done. by simplify_eq.
    + rewrite lookup_ge_None_2 in H; [done|]. rewrite length_insert. lia.
  - split; [done|]. by rewrite list_lookup_insert_ne in H.
Qed.

Lemma apart_insert held ths i t :
  apart held ths →
  (∀ j u, j ≠ i → ths !! j = Some u → 0 < held t → 0 < held u →
     g_pos t + held t ≤ g_pos u ∨ g_pos u + held u ≤ g_pos t) →
  apart held (<[i := t]> ths).
Proof.
  intros Ha Ht j k u v Hjk Hj Hk Hu Hv.
  apply lookup_insert_cases in Hj as [[<- ->]|[? Hj]]; apply lookup_insert_cases in Hk as [[<- ->]|[? Hk]]; [done|..].
  - by apply (Ht k v).
  - destruct (Ht j u); auto.
  - by apply (Ha j k).
Qed.

Lemma apart_same held ths i t t' :
  apart held ths → ths !! i = Some t → held t' = held t → (0 < held t → g_pos t' = g_pos t) →
  apart held (<[i := t']> ths).
Proof.
  intros Ha Hi Hh Hp. apply apart_insert; [done|]. intros j u Hj Hu Ht Hu0. rewrite Hh in *. rewrite Hp by done.
  by apply (Ha i j).
Qed.

Lemma covered_insert held ths i t t' lo hi lo' hi' :
  covered held ths lo hi → ths !! i = Some t →
  (∀ p, lo' ≤ p < hi' → lo ≤ p < hi ∧ ¬ (g_pos t ≤ p < g_pos t + held t) ∨ g_pos t' ≤ p < g_pos t' + held t') →
  covered held (<[i := t']> ths) lo' hi'.
Proof.
  intros Hc Hi Hp p Hr. destruct (Hp p Hr) as [[Hlo Hn]|Hin].
  - destruct (Hc p Hlo) as (j & u & Hj & Hu). destruct (decide (i = j)) as [<-|Hij]; [by simplify_eq|].
    exists j, u. by rewrite list_lookup_insert_ne.
  - exists i, t'. split; [|done]. apply list_lookup_insert_eq. by eapply lookup_lt_Some.
Qed.

Lemma covered_same held ths i t t' lo hi :
  covered held ths lo hi → ths !! i = Some t → held t' = held t → (0 < held t → g_pos t' = g_pos t) →
  covered held (<[i := t']> ths) lo hi.
Proof.
  intros Hc Hi Hh Hp. eapply covered_insert; [done..|]. intros p Hr. rewrite Hh.
  destruct (decide (0 < held t)); [rewrite Hp by done|]; lia.
Qed.

Lemma rd_app_l {A} (l l' : list A) p : p < Z.of_nat (length l) → rd (l ++ l') p = rd l p.
Proof.
  intros Hp. unfold rd. destruct (Z.leb_spec 0 p); [|done]. apply lookup_app_l. lia.
Qed.

(** ** Steps that only change local variables *)

Definition put_thread s (i : nat) t : gring := s <| g_threads ::= <[i := t]> |>.

(** A thread that holds the same entries before and after. *)
Record same_hold t t' : Prop := {
  sh_enq : enq_held t = 0 ∧ enq_held t' = 0 ∧ enq_written t = 0 ∧ enq_written t' = 0;
  sh_deq : deq_held t' = deq_held t ∧ (0 < deq_held t → g_pos t' = g_pos t)
}.

Lemma thread_ok_put s i t u : thread_ok (put_thread s i t) u ↔ thread_ok s u.
Proof. unfold thread_ok, put_thread. by destruct (g_pc u). Qed.

Lemma written_put s i t t' p :
  same_hold t t' → g_threads s !! i = Some t → written (put_thread s i t') p → written s p.
Proof.
  intros [(? & ? & Hw & Hw') _] Hi [?|(j & u & Hj & Hp)]; [by left|right].
  apply lookup_insert_cases in Hj as [[-> ->]|[Hij Hj]]; [lia|eauto].
Qed.

Lemma local_rinv s i t t' :
  rinv s → g_threads s !! i = Some t → same_hold t t' → thread_ok s t' →
  (nz (single (prod (g_ring s))) = true → enq_seen t' = true → g_pos t' = g_ph s) →
  (nz (single (cons (g_ring s))) = true → deq_seen t' = true → g_pos t' = g_ch s) →
  rinv (put_thread s i t').
Proof.
  intros Hs Hi Hh Ht He Hd. pose proof Hh as [(E1 & E2 & _ & _) (D1 & D2)]. destruct Hs. split; try done.
  - intros j u Hj. apply thread_ok_put. apply lookup_insert_cases in Hj as [[<- ->]|[_ Hj]]; eauto.
  - apply (apart_same _ _ i t); [done|done|congruence|lia].
  - by apply (apart_same _ _ i t).
  - apply (covered_same _ _ i t); [done|done|congruence|lia].
  - by apply (covered_same _ _ i t).
  - intros p Hp Hw. apply ri_written0; [done|]. by eapply written_put.
  - intros Hsg j u Hj Hseen. apply lookup_insert_cases in Hj as [[<- ->]|[_ Hj]]; eauto.
  - intros Hsg j u Hj Hseen. apply lookup_insert_cases in Hj as [[<- ->]|[_ Hj]]; eauto.
Qed.

(** ** Entries *)

Lemma slot_index_mod r pos n i :
  ring_ok r → 0 ≤ pos → 0 ≤ i < n → n ≤ capacity r → slot_index r (u32 pos) n i = (pos + i) mod size r.
Proof.
  intros [(k & Hk & Hs) Hm Hc _] Hp Hi Hn. unfold slot_index.
  assert (H2 : 1 ≤ 2 ^ k ≤ 2 ^ 28) by (split; [pose proof (pow2_pos k); lia|apply Z.pow_le_mono_r; lia]).
  rewrite Hm, Hs, land_mask by lia.
  assert (E : u32 pos mod 2 ^ k = pos mod 2 ^ k).
  { unfold u32. replace 32 with (k + (32 - k)) by lia. rewrite Z.pow_add_r by lia.
    assert (0 < 2 ^ (32 - k)) by (apply pow2_pos; lia). rewrite Z.rem_mul_r by lia. rewrite Z.mul_comm, Z_mod_plus_full. by rewrite Zmod_mod. }
  rewrite E. rewrite <- (Zplus_mod_idemp_l pos i). pose proof (Z.mod_pos_bound pos (2 ^ k)) as Hb.
  set (idx := pos mod 2 ^ k) in *. rewrite u32_small by lia.
  destruct (Z.ltb_spec (idx + n) (2 ^ k)); [by rewrite Z.mod_small by lia|].
  destruct (Z.ltb_spec (idx + i) (2 ^ k)); [by rewrite Z.mod_small by lia|].
  rewrite <- (Z.mod_small (i - (2 ^ k - idx)) (2 ^ k)) by lia.
  replace (idx + i) with (i - (2 ^ k - idx) + 1 * 2 ^ k) by lia. by rewrite Z_mod_plus_full.
Qed.

Lemma mod_apart p q m : 0 < m → - m < p - q < m → p mod m = q mod m → p = q.
Proof.
  intros Hm Hpq He. pose proof (Z.div_mod p m ltac:(lia)). pose proof (Z.div_mod q m ltac:(lia)).
  assert (p / m = q / m) by nia. lia.
Qed.

Lemma enq_held_ok s t :
  thread_ok s t → 0 < enq_held t →
  g_pt s ≤ g_pos t ∧ g_pos t + enq_held t ≤ g_ph s ∧ 0 ≤ enq_written t ≤ enq_held t.
Proof. unfold thread_ok, enq_held, enq_written. destruct (g_pc t); intros; naive_solver lia. Qed.

Lemma enq_written_held s t : thread_ok s t → 0 < enq_written t → 0 < enq_held t.
Proof. unfold thread_ok, enq_held, enq_written. destruct (g_pc t); intros; naive_solver lia. Qed.

Lemma deq_held_ok s t :
  thread_ok s t → 0 < deq_held t → g_ct s ≤ g_pos t ∧ g_pos t + deq_held t ≤ g_ch s.
Proof. unfold thread_ok, deq_held. destruct (g_pc t); intros; naive_solver lia. Qed.

(** ** The five steps that change the ring *)

(** What the proof of such a step starts from. *)
Section step.
Context (s : gring) (i : nat) (t : gthread).
Context (Hs : rinv s) (Hi : g_threads s !! i = Some t) (Htm : timely s) (Hln : lone s).

(** A producer that has seen the head as it is. *)
Lemma enq_head_now ht b objs h n f new :
  g_pc t = EnqCas b objs h n f → move_head (prod (g_ring s)) h new = Some ht → g_pos t = g_ph s.
Proof.
  intros Hpc Hm. unfold move_head in Hm. pose proof (ri_threads _ Hs i t Hi) as Ht. unfold thread_ok in Ht.
  rewrite Hpc in Ht. destruct Ht as (-> & Hp & _).
  destruct (nz (single (prod (g_ring s)))) eqn:E.
  - apply (ri_lone_enq _ Hs E i t Hi). unfold enq_seen. by rewrite Hpc.
  - simpl in Hm. destruct (Z.eqb_spec (head (prod (g_ring s))) (u32 (g_pos t))) as [Hh|]; [|done].
    rewrite (proj1 (ri_prod _ Hs)) in Hh. destruct (Htm i t Hi) as [Htm' _].
    specialize (Htm' ltac:(unfold enq_seen; by rewrite Hpc)). symmetry. apply u32_inj; [done|lia].
Qed.

Lemma deq_head_now ht b m h n e new :
  g_pc t = DeqCas b m h n e → move_head (cons (g_ring s)) h new = Some ht → g_pos t = g_ch s.
Proof.
  intros Hpc Hm. unfold move_head in Hm. pose proof (ri_threads _ Hs i t Hi) as Ht. unfold thread_ok in Ht.
  rewrite Hpc in Ht. destruct Ht as (-> & Hp & _).
  destruct (nz (single (cons (g_ring s)))) eqn:E.
  - apply (ri_lone_deq _ Hs E i t Hi). unfold deq_seen. by rewrite Hpc.
  - simpl in Hm. destruct (Z.eqb_spec (head (cons (g_ring s))) (u32 (g_pos t))) as [Hh|]; [|done].
    rewrite (proj1 (ri_cons _ Hs)) in Hh. destruct (Htm i t Hi) as [_ Htm'].
    specialize (Htm' ltac:(unfold deq_seen; by rewrite Hpc)). symmetry. apply u32_inj; [done|lia].
Qed.

(** A thread that may move the tail is the first of those that hold entries. *)
Lemma enq_tail_now ht h n f new :
  g_pc t = EnqTail h n f → update_tail (prod (g_ring s)) h new = Some ht → g_pos t = g_pt s.
Proof.
  intros Hpc Hu. unfold update_tail in Hu. pose proof (ri_threads _ Hs i t Hi) as Ht. unfold thread_ok in Ht.
  rewrite Hpc in Ht. destruct Ht as (-> & Hp & Hpn & Hn & _). destruct (ri_order _ Hs) as (? & ? & ? & ? & ?).
  destruct (ri_ring _ Hs) as [(k & ? & Hsz) _ Hcap _].
  assert (2 ^ k ≤ 2 ^ 28) by (apply Z.pow_le_mono_r; lia).
  destruct (nz (single (prod (g_ring s)))) eqn:E.
  - destruct (ri_enq_all _ Hs (g_pt s)) as (j & u & Hj & Hu'); [lia|].
    enough (i = j) by (simplify_eq; lia). destruct Hln as [Hln' _].
    apply (Hln' E i j t u); [done|done|unfold enq_pc; by rewrite Hpc|].
    unfold enq_pc. unfold enq_held in Hu'. destruct (g_pc u); done || lia.
  - simpl in Hu. destruct (Z.eqb_spec (tail (prod (g_ring s))) (u32 (g_pos t))) as [Hh|]; [|done].
    rewrite (proj2 (ri_prod _ Hs)) in Hh. symmetry. apply u32_inj; [done|lia].
Qed.

Lemma deq_tail_now ht h n e objs new :
  g_pc t = DeqTail h n e objs → update_tail (cons (g_ring s)) h new = Some ht → g_pos t = g_ct s.
Proof.
  intros Hpc Hu. unfold update_tail in Hu. pose proof (ri_threads _ Hs i t Hi) as Ht. unfold thread_ok in Ht.
  rewrite Hpc in Ht. destruct Ht as (-> & Hp & Hpn & Hn & _). destruct (ri_order _ Hs) as (? & ? & ? & ? & ?).
  destruct (ri_ring _ Hs) as [(k & ? & Hsz) _ Hcap _].
  assert (2 ^ k ≤ 2 ^ 28) by (apply Z.pow_le_mono_r; lia).
  destruct (nz (single (cons (g_ring s)))) eqn:E.
  - destruct (ri_deq_all _ Hs (g_ct s)) as (j & u & Hj & Hu'); [lia|].
    enough (i = j) by (simplify_eq; lia). destruct Hln as [_ Hln'].
    apply (Hln' E i j t u); [done|done|unfold deq_pc; by rewrite Hpc|].
    unfold deq_pc. unfold deq_held in Hu'. destruct (g_pc u); done || lia.
  - simpl in Hu. destruct (Z.eqb_spec (tail (cons (g_ring s))) (u32 (g_pos t))) as [Hh|]; [|done].
    rewrite (proj2 (ri_cons _ Hs)) in Hh. symmetry. apply u32_inj; [done|lia].
Qed.
End step.

(** Threads and totals after a step that changes the ring. *)
Section ring_steps.
Context (s : gring) (i : nat) (t : gthread).
Context (Hs : rinv s) (Hi : g_threads s !! i = Some t) (Htm : timely s) (Hln : lone s).

Lemma put_lookup t' j u :
  <[i := t']> (g_threads s) !! j = Some u → j = i ∧ u = t' ∨ j ≠ i ∧ g_threads s !! j = Some u.
Proof. intros [[-> ->]|[? ?]]%lookup_insert_cases; auto. Qed.

Lemma put_self t' : <[i := t']> (g_threads s) !! i = Some t'.
Proof. apply list_lookup_insert_eq. by eapply lookup_lt_Some. Qed.

(** What was written by another thread, and what by this one. *)
Lemma written_cases s' t' p :
  g_threads s' = <[i := t']> (g_threads s) → written s' p →
  p < g_pt s' ∨ (∃ j u, j ≠ i ∧ g_threads s !! j = Some u ∧ g_pos u ≤ p < g_pos u + enq_written u) ∨
  g_pos t' ≤ p < g_pos t' + enq_written t'.
Proof.
  intros Ht [Hp|(j & u & Hj & Hp)]; [by left|right]. rewrite Ht in Hj.
  apply put_lookup in Hj as [[-> ->]|[? Hj]]; [by right|left]. eauto.
Qed.

Lemma written_range p j u :
  g_threads s !! j = Some u → g_pos u ≤ p < g_pos u + enq_written u → p < g_ph s ∧ g_pos u ≤ p < g_pos u + enq_held u.
Proof.
  intros Hj Hp. pose proof (ri_threads _ Hs j u Hj) as Hu.
  destruct (enq_held_ok s u Hu) as (? & ? & ?); [apply (enq_written_held s u Hu); lia|lia].
Qed.

(** Reservation by a producer. *)
Lemma enq_reserve_rinv b objs h n f ht :
  g_pc t = EnqCas b objs h n f → move_head (prod (g_ring s)) h (u32 (h + n)) = Some ht →
  rinv {| g_ring := g_ring s <| prod := ht |>;
          g_threads := <[i := t <| g_pc := EnqCopy objs h n f 0 |> <| g_batch := take (Z.to_nat n) objs |>]> (g_threads s);
          g_log := g_log s ++ take (Z.to_nat n) objs; g_pt := g_pt s; g_ch := g_ch s; g_ct := g_ct s |}.
Proof.
  intros Hpc Hm. pose proof (enq_head_now s i t Hs Hi Htm _ _ _ _ _ _ _ Hpc Hm) as Hpos.
  pose proof (ri_threads _ Hs i t Hi) as Ht. unfold thread_ok in Ht. rewrite Hpc in Ht. destruct Ht as (-> & _ & Hn & Hroom).
  assert (Hht : ht = prod (g_ring s) <| head := u32 (u32 (g_pos t) + n) |>).
  { unfold move_head in Hm. destruct (_ || _); by simplify_eq. }
  pose proof Hs as [Hring [Hp1 Hp2] Hc Hord Hth Ha1 Ha2 Hall1 Hall2 Hw Hl1 Hl2].
  set (x := take (Z.to_nat n) objs). set (t' := t <| g_pc := _ |> <| g_batch := x |>). set (s' := Build_gring _ _ _ _ _ _).
  assert (Hx : Z.of_nat (length x) = n) by (unfold x; rewrite length_take; lia).
  assert (Hph : g_ph s' = g_ph s + n) by (unfold g_ph, s'; simpl; rewrite length_app; lia).
  assert (Hheld : ∀ u, thread_ok s u → 0 < enq_held u → g_pos u + enq_held u ≤ g_ph s).
  { intros u Hu Hh. destruct (enq_held_ok s u Hu Hh) as (_ & ? & _). done. }
  split; try done.
  - by destruct Hring.
  - rewrite Hph. simpl. rewrite Hht. simpl. rewrite u32_add_l, Hpos. done.
  - rewrite Hph. simpl. lia.
  - intros j u [[-> ->]|[Hj Hu]]%put_lookup.
    + unfold thread_ok, t'. simpl. rewrite Hph. split_and!; try done; try lia.
      rewrite Hpos. by apply segment_all.
    + specialize (Hth j u Hu). unfold thread_ok in *. destruct (g_pc u); simpl; rewrite ?Hph; try done; try lia;
        rewrite ?segment_app by (fold (g_ph s); lia); naive_solver lia.
  - apply apart_insert; [done|]. intros j u Hj Hu _ Hu0. right. simpl. rewrite Hpos. apply Hheld; eauto.
  - apply (apart_same _ _ i t); try done; unfold deq_held; simpl; by rewrite Hpc.
  - apply (covered_insert _ _ i t _ (g_pt s) (g_ph s)); [done..|]. rewrite Hph. intros p Hp. simpl in Hp.
    unfold enq_held at 1. rewrite Hpc. simpl. rewrite Hpos. change (enq_held t') with n. lia.
  - apply (covered_same _ _ i t); try done; unfold deq_held; simpl; by rewrite Hpc.
  - intros p Hp Hwr. rewrite Hph in Hp. simpl in Hp.
    assert (p < g_ph s ∧ written s p) as [Hlt Hps].
    { destruct (written_cases s' t' p eq_refl Hwr) as [?|[(j & u & Hj & Hu & Hpu)|Ht']];
        [simpl in *|simpl in *|change (enq_written t') with 0 in Ht'; lia].
      - split; [lia|by left].
      - destruct (written_range p j u Hu Hpu). split; [done|]. right. eauto. }
    simpl. rewrite rd_app_l by done. apply Hw; [lia|done].
  - intros Hsg j u [[-> ->]|[Hj Hu]]%put_lookup Hseen; [done|]. exfalso. apply Hj. destruct Hln as [Hln' _].
    simpl in Hsg. rewrite Hht in Hsg. apply (Hln' Hsg j i u t Hu Hi); [unfold enq_pc; unfold enq_seen in Hseen; by destruct (g_pc u)|].
    unfold enq_pc. by rewrite Hpc.
  - intros Hsg j u [[-> ->]|[Hj Hu]]%put_lookup Hseen; [done|]. by apply (Hl2 Hsg j u).
Qed.

(** A producer writes an entry. *)
Lemma enq_copy_rinv objs h n f k x sl p' :
  g_pc t = EnqCopy objs h n f k → rd objs k = Some x →
  wr (slots (g_ring s)) (slot_index (g_ring s) h n k) x = Some sl →
  p' = (if k + 1 =? n then EnqTail h n f else EnqCopy objs h n f (k + 1)) →
  rinv {| g_ring := g_ring s <| slots := sl |>; g_threads := <[i := t <| g_pc := p' |>]> (g_threads s);
          g_log := g_log s ++ []; g_pt := g_pt s; g_ch := g_ch s; g_ct := g_ct s |}.
Proof.
  intros Hpc Hx Hwr Hp'. pose proof (ri_threads _ Hs i t Hi) as Ht. unfold thread_ok in Ht. rewrite Hpc in Ht.
  destruct Ht as (-> & Hpt & Hph & Hk & Hn & Hb & Hseg).
  pose proof Hs as [Hring Hp Hc Hord Hth Ha1 Ha2 Hall1 Hall2 Hw Hl1 Hl2]. rewrite app_nil_r.
  set (t' := t <| g_pc := p' |>). set (s' := Build_gring _ _ _ _ _ _).
  rewrite slot_index_mod in Hwr by (done || lia).
  assert (Hh : enq_held t' = enq_held t ∧ deq_held t' = deq_held t ∧ enq_written t' = k + 1 ∧ enq_held t = n ∧
    enq_seen t' = false ∧ deq_seen t' = false).
  { unfold t', enq_held, deq_held, enq_written, enq_seen, deq_seen. rewrite Hpc, Hp'. simpl.
    destruct (Z.eqb_spec (k + 1) n); split_and!; done. }
  destruct Hh as (Hh1 & Hh2 & Hh3 & Hh4 & Hh5 & Hh6).
  assert (Hlog : rd (g_log s) (g_pos t + k) = Some x).
  { rewrite <- (rd_segment _ _ n) by lia. rewrite Hseg, Hb. unfold rd in *. destruct (Z.leb_spec 0 k); [|lia].
    rewrite lookup_take_lt by lia. done. }
  split; try done.
  - destruct Hring as [? ? ? ?]. split; try done. simpl. by rewrite (wr_length _ _ _ _ Hwr).
  - intros j u [[-> ->]|[Hj Hu]]%put_lookup; [|by apply (Hth j u)].
    unfold thread_ok, t'. simpl. rewrite Hp'. destruct (Z.eqb_spec (k + 1) n); split_and!; done || lia.
  - by apply (apart_same _ _ i t).
  - by apply (apart_same _ _ i t).
  - by apply (covered_same _ _ i t).
  - by apply (covered_same _ _ i t).
  - intros p Hpr Hwp. simpl in Hpr. simpl slots. simpl size. simpl g_log. rewrite (rd_wr _ _ _ _ _ Hwr).
    case_decide as Hd.
    + apply mod_apart in Hd; [by subst p|destruct Hring as [(? & ? & ->) _ _ _]; apply pow2_pos; lia|].
      destruct Hring. simpl in *. unfold g_ph in *. simpl in *. lia.
    + apply Hw; [done|].
      destruct (written_cases s' t' p eq_refl Hwp) as [?|[(j & u & Hj & Hu & Hpu)|Ht']]; [by left|right; eauto|].
      right. exists i, t. split; [done|]. unfold enq_written. rewrite Hpc. rewrite Hh3 in Ht'. simpl in Ht'.
      destruct (decide (p = g_pos t + k)); [by subst|lia].
  - intros Hsg j u [[-> ->]|[Hj Hu]]%put_lookup Hseen; [congruence|]. by apply (Hl1 Hsg j u).
  - intros Hsg j u [[-> ->]|[Hj Hu]]%put_lookup Hseen; [congruence|]. by apply (Hl2 Hsg j u).
Qed.

(** A producer publishes its entries. *)
Lemma enq_publish_rinv h n f ht p' :
  g_pc t = EnqTail h n f → update_tail (prod (g_ring s)) h (u32 (h + n)) = Some ht → (∃ fs, p' = EnqDone n fs) →
  rinv {| g_ring := g_ring s <| prod := ht |>; g_threads := <[i := t <| g_pc := p' |>]> (g_threads s);
          g_log := g_log s ++ []; g_pt := g_pos t + n; g_ch := g_ch s; g_ct := g_ct s |} ∧
  g_pos t = g_pt s.
Proof.
  intros Hpc Hu [fs ->]. pose proof (enq_tail_now s i t Hs Hi Hln _ _ _ _ _ Hpc Hu) as Hpos.
  pose proof (ri_threads _ Hs i t Hi) as Ht. unfold thread_ok in Ht. rewrite Hpc in Ht.
  destruct Ht as (-> & Hpt & Hph & Hn & Hseg).
  assert (Hht : ht = prod (g_ring s) <| tail := u32 (u32 (g_pos t) + n) |>).
  { unfold update_tail in Hu. destruct (_ || _); by simplify_eq/=. }
  pose proof Hs as [Hring [Hp1 Hp2] Hc Hord Hth Ha1 Ha2 Hall1 Hall2 Hw Hl1 Hl2]. rewrite app_nil_r. split; [|done].
  assert (Hh : enq_held t = n ∧ deq_held t = 0 ∧ enq_written t = n).
  { unfold enq_held, deq_held, enq_written. by rewrite Hpc. }
  destruct Hh as (Hh1 & Hh2 & Hh3). set (t' := t <| g_pc := _ |>). set (s' := Build_gring _ _ _ _ _ _).
  split; try done.
  - by destruct Hring.
  - simpl. rewrite Hht. simpl. by rewrite u32_add_l.
  - simpl. unfold g_ph in *. simpl in *. lia.
  - intros j u [[-> ->]|[Hj Hu']]%put_lookup; [done|]. pose proof (Hth j u Hu') as Hok.
    assert (0 < enq_held u → g_pos t + n ≤ g_pos u).
    { intros Hu0. destruct (enq_held_ok s u Hok Hu0) as (? & _ & _).
      destruct (Ha1 i j t u) as [?|?]; try done; lia. }
    unfold thread_ok in *. unfold enq_held in *. destruct (g_pc u); simpl; try done; naive_solver lia.
  - apply apart_insert; [done|]. intros. change (enq_held t') with 0 in *. lia.
  - by apply (apart_same _ _ i t).
  - apply (covered_insert _ _ i t _ (g_pt s) (g_ph s)); [done..|]. intros p Hp. left. rewrite Hh1. simpl in Hp.
    unfold g_ph in *. simpl in Hp. lia.
  - by apply (covered_same _ _ i t).
  - intros p Hpr Hwp. apply Hw; [done|].
    destruct (written_cases s' t' p eq_refl Hwp) as [Hlt|[(j & u & Hj & Hu' & Hpu)|Ht']]; [|right; eauto|change (enq_written t') with 0 in Ht'; lia].
    simpl in Hlt. destruct (decide (p < g_pt s)); [by left|right]. exists i, t. split; [done|]. rewrite Hh3. lia.
  - intros Hsg j u [[-> ->]|[Hj Hu']]%put_lookup Hseen; [done|]. simpl in Hsg. rewrite Hht in Hsg. by apply (Hl1 Hsg j u).
  - intros Hsg j u [[-> ->]|[Hj Hu']]%put_lookup Hseen; [done|]. by apply (Hl2 Hsg j u).
Qed.

(** Reservation by a consumer. *)
Lemma deq_reserve_rinv b m h n e ht :
  g_pc t = DeqCas b m h n e → move_head (cons (g_ring s)) h (u32 (h + n)) = Some ht →
  rinv {| g_ring := g_ring s <| cons := ht |>;
          g_threads := <[i := t <| g_pc := DeqCopy h n e [] |> <| g_batch := segment (g_log s) (g_ch s) n |>]> (g_threads s);
          g_log := g_log s ++ []; g_pt := g_pt s; g_ch := g_ch s + n; g_ct := g_ct s |} ∧
  g_pos t = g_ch s ∧ 1 ≤ n ≤ g_pt s - g_ch s.
Proof.
  intros Hpc Hm. pose proof (deq_head_now s i t Hs Hi Htm _ _ _ _ _ _ _ Hpc Hm) as Hpos.
  pose proof (ri_threads _ Hs i t Hi) as Ht. unfold thread_ok in Ht. rewrite Hpc in Ht. destruct Ht as (-> & _ & _ & Hn & Hroom).
  assert (Hht : ht = cons (g_ring s) <| head := u32 (u32 (g_pos t) + n) |>).
  { unfold move_head in Hm. destruct (_ || _); by simplify_eq. }
  pose proof Hs as [Hring Hp [Hc1 Hc2] Hord Hth Ha1 Ha2 Hall1 Hall2 Hw Hl1 Hl2]. rewrite app_nil_r.
  split; [|lia]. set (t' := t <| g_pc := _ |> <| g_batch := _ |>). set (s' := Build_gring _ _ _ _ _ _).
  assert (Hh : enq_held t = 0 ∧ deq_held t = 0 ∧ enq_written t = 0).
  { unfold enq_held, deq_held, enq_written. by rewrite Hpc. }
  destruct Hh as (Hh1 & Hh2 & Hh3). split; try done.
  - by destruct Hring.
  - simpl. rewrite Hht. simpl. by rewrite u32_add_l, Hpos.
  - simpl. unfold g_ph in *. simpl in *. lia.
  - intros j u [[-> ->]|[Hj Hu]]%put_lookup.
    + unfold thread_ok, t'. simpl. rewrite Hpos. split_and!; done || lia.
    + specialize (Hth j u Hu). unfold thread_ok in *. destruct (g_pc u); simpl; try done; naive_solver lia.
  - by apply (apart_same _ _ i t).
  - apply apart_insert; [done|]. intros j u Hj Hu _ Hu0. right. simpl. rewrite Hpos.
    destruct (deq_held_ok s u (Hth j u Hu) Hu0). done.
  - by apply (covered_same _ _ i t).
  - apply (covered_insert _ _ i t _ (g_ct s) (g_ch s)); [done..|]. intros p Hpr. simpl in Hpr. rewrite Hh2.
    change (deq_held t') with n. simpl. lia.
  - intros p Hpr Hwp. apply Hw; [done|].
    destruct (written_cases s' t' p eq_refl Hwp) as [Hlt|[(j & u & Hj & Hu' & Hpu)|Ht']];
      [by left|right; eauto|change (enq_written t') with 0 in Ht'; lia].
  - intros Hsg j u [[-> ->]|[Hj Hu]]%put_lookup Hseen; [done|]. by apply (Hl1 Hsg j u).
  - intros Hsg j u [[-> ->]|[Hj Hu]]%put_lookup Hseen; [done|]. exfalso. apply Hj. destruct Hln as [_ Hln'].
    simpl in Hsg. rewrite Hht in Hsg. apply (Hln' Hsg j i u t Hu Hi); [unfold deq_pc; unfold deq_seen in Hseen; by destruct (g_pc u)|].
    unfold deq_pc. by rewrite Hpc.
Qed.

(** A consumer releases its entries. *)
Lemma deq_release_rinv h n e objs ht p' :
  g_pc t = DeqTail h n e objs → update_tail (cons (g_ring s)) h (u32 (h + n)) = Some ht →
  (∃ a, p' = DeqDone n a objs) →
  rinv {| g_ring := g_ring s <| cons := ht |>; g_threads := <[i := t <| g_pc := p' |>]> (g_threads s);
          g_log := g_log s ++ []; g_pt := g_pt s; g_ch := g_ch s; g_ct := g_pos t + n |}.
Proof.
  intros Hpc Hu [a ->]. pose proof (deq_tail_now s i t Hs Hi Hln _ _ _ _ _ _ Hpc Hu) as Hpos.
  pose proof (ri_threads _ Hs i t Hi) as Ht. unfold thread_ok in Ht. rewrite Hpc in Ht.
  destruct Ht as (-> & Hct & Hch & Hn & Hb & Hbn).
  assert (Hht : ht = cons (g_ring s) <| tail := u32 (u32 (g_pos t) + n) |>).
  { unfold update_tail in Hu. destruct (_ || _); by simplify_eq/=. }
  pose proof Hs as [Hring Hp [Hc1 Hc2] Hord Hth Ha1 Ha2 Hall1 Hall2 Hw Hl1 Hl2]. rewrite app_nil_r.
  assert (Hh : enq_held t = 0 ∧ deq_held t = n ∧ enq_written t = 0).
  { unfold enq_held, deq_held, enq_written. by rewrite Hpc. }
  destruct Hh as (Hh1 & Hh2 & Hh3). set (t' := t <| g_pc := _ |>). set (s' := Build_gring _ _ _ _ _ _).
  split; try done.
  - by destruct Hring.
  - simpl. rewrite Hht. simpl. by rewrite u32_add_l.
  - simpl. unfold g_ph in *. simpl in *. lia.
  - intros j u [[-> ->]|[Hj Hu']]%put_lookup; [done|]. pose proof (Hth j u Hu') as Hok.
    assert (0 < deq_held u → g_pos t + n ≤ g_pos u).
    { intros Hu0. destruct (deq_held_ok s u Hok Hu0) as (? & _).
      destruct (Ha2 i j t u) as [?|?]; try done; lia. }
    unfold thread_ok in *. unfold deq_held in *. destruct (g_pc u); simpl; try done; naive_solver lia.
  - by apply (apart_same _ _ i t).
  - apply apart_insert; [done|]. intros. change (deq_held t') with 0 in *. lia.
  - by apply (covered_same _ _ i t).
  - apply (covered_insert _ _ i t _ (g_ct s) (g_ch s)); [done..|]. intros p Hpr. left. rewrite Hh2. simpl in Hpr. lia.
  - intros p Hpr Hwp. simpl in Hpr. apply Hw; [unfold g_ph in *; simpl in *; lia|].
    destruct (written_cases s' t' p eq_refl Hwp) as [Hlt|[(j & u & Hj & Hu' & Hpu)|Ht']];
      [by left|right; eauto|change (enq_written t') with 0 in Ht'; lia].
  - intros Hsg j u [[-> ->]|[Hj Hu']]%put_lookup Hseen; [done|]. by apply (Hl1 Hsg j u).
  - intros Hsg j u [[-> ->]|[Hj Hu']]%put_lookup Hseen; [done|]. simpl in Hsg. rewrite Hht in Hsg. by apply (Hl2 Hsg j u).
Qed.
End ring_steps.
