(* ===== verification/RteRingRun.v ===== *)
(** * The ring as a queue: every step of every thread

    The specification [fifo] is a queue with a limit that is used by steps that
    happen at once: a producer reserves room and later appends, a consumer takes
    pointers from the front and later gives the room back, and either may be
    refused.  [run_step] shows that each access of a thread to the ring is one
    such step or none. *)

From S2P Require Import Prelude RteRing RteRingInv.

Implicit Types (r : rte_ring) (b : rte_ring_queue_behavior) (s : gring) (t : gthread).

(** ** The specification *)

(** The queue, and the room that producers have reserved and that consumers have
    not given back. *)
Record fifo := { f_queue : list obj; f_in : Z; f_out : Z }.

Definition fifo_empty : fifo := {| f_queue := []; f_in := 0; f_out := 0 |}.

Definition f_size (f : fifo) : Z := Z.of_nat (length (f_queue f)).

Definition f_free (cap : Z) (f : fifo) : Z := cap - f_in f - f_size f - f_out f.

(** What thread [i] does. *)
Inductive ring_op :=
  | Invoke (i : nat) (p : pc)
  | Reserve (i : nat) (n : Z)
  | Push (i : nat) (objs : list obj)
  | Full (i : nat) b (objs : list obj)
  | Pop (i : nat) (objs : list obj)
  | Release (i : nat) (n : Z)
  | Empty (i : nat) b (max : Z).

Definition op_thread (o : ring_op) : nat :=
  match o with
  | Invoke i _ | Reserve i _ | Push i _ | Full i _ _ | Pop i _ | Release i _ | Empty i _ _ => i
  end.

(** An enqueue is refused when its pointers do not fit, a dequeue when the queue
    is too short. *)
Definition fifo_step (cap : Z) (f : fifo) (o : ring_op) : option fifo :=
  match o with
  | Invoke _ _ => Some f
  | Reserve _ n => _ ← ensure ((1 <=? n) && (n <=? f_free cap f)); 
      Some {| f_queue := f_queue f; f_in := f_in f + n; f_out := f_out f |}
  | Push _ objs =>
      let n := Z.of_nat (length objs) in
      _ ← ensure (n <=? f_in f); Some {| f_queue := f_queue f ++ objs; f_in := f_in f - n; f_out := f_out f |}
  | Full _ b objs => _ ← ensure (burst b (Z.of_nat (length objs)) (f_free cap f) =? 0); Some f
  | Pop _ objs =>
      let n := length objs in
      _ ← ensure (bool_decide (take n (f_queue f) = objs));
      Some {| f_queue := drop n (f_queue f); f_in := f_in f; f_out := f_out f + Z.of_nat n |}
  | Release _ n => _ ← ensure (n <=? f_out f); Some {| f_queue := f_queue f; f_in := f_in f; f_out := f_out f - n |}
  | Empty _ b max => _ ← ensure (burst b max (f_size f) =? 0); Some f
  end.

Fixpoint fifo_run (cap : Z) (f : fifo) (ops : list ring_op) : option fifo :=
  match ops with
  | [] => Some f
  | o :: ops => f ← fifo_step cap f o; fifo_run cap f ops
  end.

(** ** The ring as such a queue *)

Definition abs s : fifo := {| f_queue := queue s; f_in := g_ph s - g_pt s; f_out := g_ch s - g_ct s |}.

(** The step of the specification that an access of a thread is. *)
Definition ops_of (i : nat) t t' : list ring_op :=
  match g_pc t, g_pc t' with
  | EnqFree b objs _, EnqDone _ _ => [Full i b objs]
  | EnqCas _ _ _ n _, EnqCopy _ _ _ _ _ => [Reserve i n]
  | EnqTail _ _ _, _ => [Push i (g_batch t)]
  | DeqEntries b m _, DeqDone _ _ _ => [Empty i b m]
  | DeqCas _ _ _ _ _, DeqCopy _ _ _ _ => [Pop i (g_batch t')]
  | DeqTail _ n _ _, _ => [Release i n]
  | _, _ => []
  end.

Lemma burst_le b n avail : 0 ≤ avail → 0 ≤ n → 0 ≤ burst b n avail ∧ burst b n avail ≤ n ∧ burst b n avail ≤ avail.
Proof. intros. unfold burst. destruct (Z.ltb_spec avail n), b; lia. Qed.

Lemma burst_zero b n avail avail' : burst b n avail = 0 → 0 ≤ n → 0 ≤ avail' ≤ avail → burst b n avail' = 0.
Proof. unfold burst. intros. destruct (Z.ltb_spec avail n), (Z.ltb_spec avail' n), b; lia. Qed.

Lemma segment_queue_enq s n : g_ch s ≤ g_pt s → 0 ≤ g_ch s → 0 ≤ n →
  segment (g_log s) (g_ch s) (g_pt s + n - g_ch s) = queue s ++ segment (g_log s) (g_pt s) n.
Proof.
  intros. unfold queue. replace (g_pt s + n - g_ch s) with (g_pt s - g_ch s + n) by lia.
  rewrite segment_split by lia. do 2 f_equal. lia.
Qed.

Section run.
Context (s : gring) (i : nat) (t : gthread).
Context (Hs : rinv s) (Hi : g_threads s !! i = Some t) (Htm : timely s) (Hln : lone s).

Lemma abs_size : f_size (abs s) = g_pt s - g_ch s.
Proof.
  destruct (ri_order _ Hs) as (? & ? & ? & ? & ?). unfold f_size, abs, queue. simpl. apply segment_length; unfold g_ph in *; lia.
Qed.

Lemma abs_free : f_free (capacity (g_ring s)) (abs s) = capacity (g_ring s) + g_ct s - g_ph s.
Proof. unfold f_free. rewrite abs_size. simpl. lia. Qed.

(** The entries a producer finds free, as totals. *)
Lemma free_entries_exact b objs :
  g_pc t = EnqFree b objs (u32 (g_pos t)) →
  u32 (capacity (g_ring s) + tail (cons (g_ring s)) - u32 (g_pos t)) = capacity (g_ring s) + g_ct s - g_pos t ∧
  0 ≤ capacity (g_ring s) + g_ct s - g_pos t.
Proof.
  intros Hpc. pose proof (ri_threads _ Hs i t Hi) as Ht. unfold thread_ok in Ht. rewrite Hpc in Ht. destruct Ht as (_ & Hp).
  destruct (Htm i t Hi) as [Hq _]. specialize (Hq ltac:(unfold enq_seen; by rewrite Hpc)).
  destruct (ri_order _ Hs) as (? & ? & ? & ? & ?). destruct (ri_ring _ Hs) as [(k & ? & Hsz) _ Hcap _].
  assert (2 ^ k ≤ 2 ^ 28) by (apply Z.pow_le_mono_r; lia). split; [|lia].
  rewrite (proj2 (ri_cons _ Hs)).
  replace (capacity (g_ring s) + u32 (g_ct s) - u32 (g_pos t)) with (u32 (g_ct s) + (capacity (g_ring s) - u32 (g_pos t))) by lia.
  rewrite u32_add_l.
  replace (g_ct s + (capacity (g_ring s) - u32 (g_pos t))) with (capacity (g_ring s) + g_ct s - u32 (g_pos t)) by lia.
  unfold u32. rewrite Zminus_mod_idemp_r. apply Z.mod_small. lia.
Qed.

Lemma entries_exact b m :
  g_pc t = DeqEntries b m (u32 (g_pos t)) →
  u32 (tail (prod (g_ring s)) - u32 (g_pos t)) = g_pt s - g_pos t ∧ 0 ≤ g_pt s - g_pos t.
Proof.
  intros Hpc. pose proof (ri_threads _ Hs i t Hi) as Ht. unfold thread_ok in Ht. rewrite Hpc in Ht. destruct Ht as (_ & Hp & _).
  destruct (Htm i t Hi) as [_ Hq]. specialize (Hq ltac:(unfold deq_seen; by rewrite Hpc)).
  destruct (ri_order _ Hs) as (? & ? & ? & ? & ?). destruct (ri_ring _ Hs) as [(k & ? & Hsz) _ Hcap _].
  assert (2 ^ k ≤ 2 ^ 28) by (apply Z.pow_le_mono_r; lia). split; [|lia].
  rewrite (proj2 (ri_prod _ Hs)), u32_sub. apply u32_small. lia.
Qed.

(** The pointer a consumer reads is the next of its batch. *)
Lemma deq_copy_reads h n e objs x :
  g_pc t = DeqCopy h n e objs →
  rd (slots (g_ring s)) (slot_index (g_ring s) h n (Z.of_nat (length objs))) = Some x →
  g_batch t !! length objs = Some x ∧ Z.of_nat (length (g_batch t)) = n.
Proof.
  intros Hpc Hx. pose proof (ri_threads _ Hs i t Hi) as Ht. unfold thread_ok in Ht. rewrite Hpc in Ht.
  destruct Ht as (-> & Hct & Hch & Hl & Hseg & Hob).
  destruct (ri_order _ Hs) as (? & ? & ? & ? & ?). rewrite slot_index_mod in Hx by (lia || apply Hs).
  rewrite (ri_written _ Hs) in Hx; [|lia|left; lia]. split.
  - rewrite <- (rd_segment _ _ n), Hseg in Hx by lia. apply rd_Some in Hx as [_ Hx]. by rewrite Nat2Z.id in Hx.
  - rewrite <- Hseg. apply segment_length; unfold g_ph in *; lia.
Qed.

(** A step that leaves the ring alone. *)
Lemma local_run t' :
  same_hold t t' → thread_ok s t' →
  (enq_seen t' = true → enq_seen t = true ∧ g_pos t' = g_pos t ∨ g_pos t' = g_ph s) →
  (deq_seen t' = true → deq_seen t = true ∧ g_pos t' = g_pos t ∨ g_pos t' = g_ch s) →
  rinv (put_thread s i t').
Proof.
  intros Hh Ht He Hd. eapply local_rinv; [done..| |].
  - intros Hsg Hseen. destruct (He Hseen) as [[H1 ->]|?]; [|done]. by apply (ri_lone_enq _ Hs Hsg i t).
  - intros Hsg Hseen. destruct (Hd Hseen) as [[H1 ->]|?]; [|done]. by apply (ri_lone_deq _ Hs Hsg i t).
Qed.

(** The outcome of a step of the thread. *)
Definition run_outcome s' : Prop :=
  ∃ t', g_threads s' !! i = Some t' ∧ rinv s' ∧ fifo_run (capacity (g_ring s)) (abs s) (ops_of i t t') = Some (abs s').

Lemma local_outcome t' :
  same_hold t t' → thread_ok s t' →
  (enq_seen t' = true → enq_seen t = true ∧ g_pos t' = g_pos t ∨ g_pos t' = g_ph s) →
  (deq_seen t' = true → deq_seen t = true ∧ g_pos t' = g_pos t ∨ g_pos t' = g_ch s) →
  fifo_run (capacity (g_ring s)) (abs s) (ops_of i t t') = Some (abs s) →
  run_outcome {| g_ring := g_ring s; g_threads := <[i := t']> (g_threads s); g_log := g_log s ++ [];
                 g_pt := g_pt s; g_ch := g_ch s; g_ct := g_ct s |}.
Proof.
  intros Hh Ht He Hd Hf. exists t'. split; [by eapply put_self|].
  replace (Build_gring _ _ _ _ _ _) with (put_thread s i t') by (unfold put_thread; rewrite app_nil_r; by destruct s).
  split; [by apply local_run|]. exact Hf.
Qed.

Lemma run_enq_free b objs h :
  g_pc t = EnqFree b objs h →
  let f := u32 (capacity (g_ring s) + tail (cons (g_ring s)) - h) in
  let n := burst b (Z.of_nat (length objs)) f in
  let t' := t <| g_pc := if n =? 0 then EnqDone 0 f else EnqCas b objs h n f |> in
  run_outcome {| g_ring := g_ring s; g_threads := <[i := t']> (g_threads s); g_log := g_log s ++ [];
                 g_pt := g_pt s; g_ch := g_ch s; g_ct := g_ct s |}.
Proof.
  intros Hpc f n t'. pose proof (ri_threads _ Hs i t Hi) as Ht. unfold thread_ok in Ht. rewrite Hpc in Ht.
  destruct Ht as (-> & Hp). destruct (free_entries_exact b objs Hpc) as [Hf Hf0]. fold f in Hf.
  destruct (burst_le b (Z.of_nat (length objs)) f) as (Hb1 & Hb2 & Hb3); [lia..|]. fold n in Hb1, Hb2, Hb3.
  assert (Hh : same_hold t t').
  { split; unfold enq_held, deq_held, enq_written, t'; rewrite Hpc; simpl; by destruct (n =? 0). }
  apply local_outcome; [done|..].
  - unfold thread_ok, t'. simpl. destruct (Z.eqb_spec n 0); [done|]. split_and!; done || lia.
  - intros _. left. unfold enq_seen. by rewrite Hpc.
  - unfold deq_seen, t'. simpl. by destruct (n =? 0).
  - unfold ops_of, t'. rewrite Hpc. simpl. destruct (Z.eqb_spec n 0) as [Hn|]; [|done]. cbn [fifo_run fifo_step].
    rewrite abs_free, (burst_zero b _ f); [done|done|lia|]. destruct (ri_order _ Hs) as (? & ? & ? & ? & ?). lia.
Qed.

Lemma run_deq_entries b m h :
  g_pc t = DeqEntries b m h →
  let e := u32 (tail (prod (g_ring s)) - h) in
  let n := burst b m e in
  let t' := t <| g_pc := if n =? 0 then DeqDone 0 e [] else DeqCas b m h n e |> in
  run_outcome {| g_ring := g_ring s; g_threads := <[i := t']> (g_threads s); g_log := g_log s ++ [];
                 g_pt := g_pt s; g_ch := g_ch s; g_ct := g_ct s |}.
Proof.
  intros Hpc e n t'. pose proof (ri_threads _ Hs i t Hi) as Ht. unfold thread_ok in Ht. rewrite Hpc in Ht.
  destruct Ht as (-> & Hp & Hm & Hb). destruct (entries_exact b m Hpc) as [He He0]. fold e in He.
  destruct (burst_le b m e) as (Hb1 & Hb2 & Hb3); [lia..|]. fold n in Hb1, Hb2, Hb3.
  assert (Hh : same_hold t t').
  { split; unfold enq_held, deq_held, enq_written, t'; rewrite Hpc; simpl; by destruct (n =? 0). }
  apply local_outcome; [done|..].
  - unfold thread_ok, t'. simpl. destruct (Z.eqb_spec n 0); [done|]. split_and!; done || lia.
  - unfold enq_seen, t'. simpl. by destruct (n =? 0).
  - intros _. left. unfold deq_seen. by rewrite Hpc.
  - unfold ops_of, t'. rewrite Hpc. simpl. destruct (Z.eqb_spec n 0) as [Hn|]; [|done]. cbn [fifo_run fifo_step].
    rewrite abs_size, (burst_zero b _ e); [done|done|lia|]. destruct (ri_order _ Hs) as (? & ? & ? & ? & ?). lia.
Qed.

Lemma run_deq_copy h n e objs x :
  g_pc t = DeqCopy h n e objs →
  rd (slots (g_ring s)) (slot_index (g_ring s) h n (Z.of_nat (length objs))) = Some x →
  let t' := t <| g_pc := if Z.of_nat (length (objs ++ [x])) =? n then DeqTail h n e (objs ++ [x])
                         else DeqCopy h n e (objs ++ [x]) |> in
  run_outcome {| g_ring := g_ring s; g_threads := <[i := t']> (g_threads s); g_log := g_log s ++ [];
                 g_pt := g_pt s; g_ch := g_ch s; g_ct := g_ct s |}.
Proof.
  intros Hpc Hx t'. destruct (deq_copy_reads _ _ _ _ _ Hpc Hx) as [Hbx Hbl].
  pose proof (ri_threads _ Hs i t Hi) as Ht. unfold thread_ok in Ht. rewrite Hpc in Ht.
  destruct Ht as (Hh & Hct & Hch & Hl & Hseg & Hob).
  assert (Hob' : objs ++ [x] = take (length (objs ++ [x])) (g_batch t)).
  { rewrite length_app. simpl. rewrite Nat.add_1_r, (take_S_r _ _ x) by done. congruence. }
  assert (Hlen : length (objs ++ [x]) = S (length objs)) by (rewrite length_app; simpl; lia).
  apply local_outcome.
  - split; unfold enq_held, deq_held, enq_written, t'; rewrite Hpc; simpl; by destruct (_ =? n).
  - unfold thread_ok, t'. simpl. destruct (Z.eqb_spec (Z.of_nat (length (objs ++ [x]))) n); split_and!; try done; try lia.
    rewrite Hob'. apply firstn_all2. lia.
  - unfold enq_seen, t'. simpl. by destruct (_ =? n).
  - unfold deq_seen, t'. simpl. by destruct (_ =? n).
  - unfold ops_of. by rewrite Hpc.
Qed.
Lemma run_enq_cas b objs h n f ht :
  g_pc t = EnqCas b objs h n f → move_head (prod (g_ring s)) h (u32 (h + n)) = Some ht →
  let t' := t <| g_pc := EnqCopy objs h n f 0 |> <| g_batch := take (Z.to_nat n) objs |> in
  run_outcome {| g_ring := g_ring s <| prod := ht |>; g_threads := <[i := t']> (g_threads s);
                 g_log := g_log s ++ take (Z.to_nat n) objs; g_pt := g_pt s; g_ch := g_ch s; g_ct := g_ct s |}.
Proof.
  intros Hpc Hm t'. exists t'. split; [by eapply put_self|]. split; [by eapply enq_reserve_rinv|].
  pose proof (enq_head_now s i t Hs Hi Htm _ _ _ _ _ _ _ Hpc Hm) as Hpos.
  pose proof (ri_threads _ Hs i t Hi) as Ht. unfold thread_ok in Ht. rewrite Hpc in Ht. destruct Ht as (_ & _ & Hn & Hroom).
  destruct (ri_order _ Hs) as (? & ? & ? & ? & ?). unfold ops_of. rewrite Hpc. simpl. rewrite abs_free.
  rewrite (proj2 (Z.leb_le 1 n)), (proj2 (Z.leb_le n _)) by lia. simpl. unfold abs, queue, g_ph in *. simpl. do 2 f_equal.
  - rewrite segment_app by lia. done.
  - rewrite length_app, length_take. lia.
Qed.

Lemma run_enq_tail h n f ht :
  g_pc t = EnqTail h n f → update_tail (prod (g_ring s)) h (u32 (h + n)) = Some ht →
  let t' := t <| g_pc := EnqDone n (u32 (f - n)) |> in
  run_outcome {| g_ring := g_ring s <| prod := ht |>; g_threads := <[i := t']> (g_threads s);
                 g_log := g_log s ++ []; g_pt := g_pos t + n; g_ch := g_ch s; g_ct := g_ct s |}.
Proof.
  intros Hpc Hu t'. destruct (enq_publish_rinv s i t Hs Hi Hln h n f ht (EnqDone n (u32 (f - n))) Hpc Hu) as [Hr Hp]; [eauto|].
  exists t'. split; [by eapply put_self|]. split; [done|]. unfold ops_of. rewrite Hpc.
  pose proof (ri_threads _ Hs i t Hi) as Ht. unfold thread_ok in Ht. rewrite Hpc in Ht. destruct Ht as (_ & ? & ? & ? & Hseg).
  destruct (ri_order _ Hs) as (? & ? & ? & ? & ?).
  assert (Hl : Z.of_nat (length (g_batch t)) = n) by (rewrite <- Hseg; apply segment_length; unfold g_ph in *; lia).
  simpl. rewrite Hl, (proj2 (Z.leb_le n _)) by lia. simpl. unfold abs. rewrite app_nil_r, <- Hseg, Hp. do 2 f_equal.
  - unfold queue at 2. simpl. symmetry. apply segment_queue_enq; lia.
  - unfold g_ph. simpl. lia.
Qed.

Lemma run_deq_cas b m h n e ht :
  g_pc t = DeqCas b m h n e → move_head (cons (g_ring s)) h (u32 (h + n)) = Some ht →
  let t' := t <| g_pc := DeqCopy h n e [] |> <| g_batch := segment (g_log s) (g_ch s) n |> in
  run_outcome {| g_ring := g_ring s <| cons := ht |>; g_threads := <[i := t']> (g_threads s);
                 g_log := g_log s ++ []; g_pt := g_pt s; g_ch := g_ch s + n; g_ct := g_ct s |}.
Proof.
  intros Hpc Hm t'. destruct (deq_reserve_rinv s i t Hs Hi Htm Hln b m h n e ht Hpc Hm) as (Hr & Hp & Hn).
  exists t'. split; [by eapply put_self|]. split; [done|]. unfold ops_of. rewrite Hpc. simpl.
  destruct (ri_order _ Hs) as (? & ? & ? & ? & ?).
  assert (Hl : Z.of_nat (length (segment (g_log s) (g_ch s) n)) = n) by (apply segment_length; unfold g_ph in *; lia).
  assert (Hq : queue s = segment (g_log s) (g_ch s) n ++ segment (g_log s) (g_ch s + n) (g_pt s - (g_ch s + n))).
  { unfold queue. rewrite <- segment_split by lia. f_equal. lia. }
  rewrite Hq, take_app_length, bool_decide_true, drop_app_length by done. simpl. unfold abs, queue. simpl.
  rewrite app_nil_r, Hl. unfold g_ph. simpl. do 2 f_equal. lia.
Qed.

Lemma run_deq_tail h n e objs ht :
  g_pc t = DeqTail h n e objs → update_tail (cons (g_ring s)) h (u32 (h + n)) = Some ht →
  let t' := t <| g_pc := DeqDone n (u32 (e - n)) objs |> in
  run_outcome {| g_ring := g_ring s <| cons := ht |>; g_threads := <[i := t']> (g_threads s);
                 g_log := g_log s ++ []; g_pt := g_pt s; g_ch := g_ch s; g_ct := g_pos t + n |}.
Proof.
  intros Hpc Hu t'. pose proof (deq_tail_now s i t Hs Hi Hln _ _ _ _ _ _ Hpc Hu) as Hpos.
  exists t'. split; [by eapply put_self|]. split; [by eapply deq_release_rinv; eauto|]. unfold ops_of. rewrite Hpc.
  pose proof (ri_threads _ Hs i t Hi) as Ht. unfold thread_ok in Ht. rewrite Hpc in Ht. destruct Ht as (_ & ? & ? & ? & _).
  simpl. rewrite (proj2 (Z.leb_le n _)) by lia. simpl. unfold abs, queue. simpl. rewrite app_nil_r. unfold g_ph. simpl.
  do 2 f_equal. lia.
Qed.
End run.

(** Every step of a thread keeps the invariant and treats the queue as a queue. *)
Lemma run_step s i t s' :
  rinv s → g_threads s !! i = Some t → timely s → lone s → gexec s (Run i) = Some s' → run_outcome s i t s'.
Proof.
  intros Hs Hi Htm Hln H. cbn [gexec] in H. rewrite Hi in H. cbn [mbind option_bind] in H.
  apply bind_Some in H as ([r' p'] & Hst & H). unfold gtrack in H.
  pose proof (ri_threads _ Hs i t Hi) as Ht. unfold thread_ok in Ht. destruct (ri_order _ Hs) as (? & ? & ? & ? & ?).
  destruct (g_pc t) as [|b objs|b objs h|b objs h n f|objs h n f k|h n f|n fs|b m|b m h|b m h n e|h n e objs|h n e objs|n a objs] eqn:Hpc;
    cbn [ring_step] in Hst; try done.
  - injection Hst as <- <-. injection H as <-. apply local_outcome; try done.
    + split; unfold enq_held, deq_held, enq_written; by rewrite Hpc.
    + unfold thread_ok. simpl. split; [apply (ri_prod _ Hs)|]. unfold g_ph. lia.
    + by right.
    + unfold ops_of. by rewrite Hpc.
  - injection Hst as <- <-. injection H as <-. by apply run_enq_free.
  - destruct (move_head _ _ _) as [ht|] eqn:Hm; injection Hst as <- <-; injection H as <-; [by eapply run_enq_cas|].
    apply local_outcome; try done; [|unfold ops_of; by rewrite Hpc]. split; unfold enq_held, deq_held, enq_written; by rewrite Hpc.
  - apply bind_Some in Hst as (x & Hx & Hst). apply bind_Some in Hst as (sl & Hsl & Hst).
    injection Hst as <- <-. injection H as <-. eexists. split; [by eapply put_self|].
    split; [eapply enq_copy_rinv; [exact Hs|exact Hi|exact Hpc|exact Hx|exact Hsl|reflexivity]|].
    unfold ops_of, abs, queue, g_ph. rewrite Hpc. simpl. by rewrite app_nil_r.
  - apply bind_Some in Hst as (ht & Hu & Hst). injection Hst as <- <-. injection H as <-. by eapply run_enq_tail.
  - injection Hst as <- <-. injection H as <-. apply local_outcome; try done.
    + split; unfold enq_held, deq_held, enq_written; by rewrite Hpc.
    + unfold thread_ok. simpl. split; [apply (ri_cons _ Hs)|]. split_and!; done || lia.
    + by right.
    + unfold ops_of. by rewrite Hpc.
  - injection Hst as <- <-. injection H as <-. by apply run_deq_entries.
  - destruct (move_head _ _ _) as [ht|] eqn:Hm; injection Hst as <- <-; injection H as <-; [by eapply run_deq_cas|].
    apply local_outcome; try done; [|unfold thread_ok; simpl; lia|unfold ops_of; by rewrite Hpc].
    split; unfold enq_held, deq_held, enq_written; by rewrite Hpc.
  - apply bind_Some in Hst as (x & Hx & Hst). injection Hst as <- <-. injection H as <-. by apply run_deq_copy.
  - apply bind_Some in Hst as (ht & Hu & Hst). injection Hst as <- <-. injection H as <-. by eapply run_deq_tail.
Qed.
