(* ===== verification/RteRingThms.v ===== *)
(** * The ring: set-up, runs of many threads, theorems

    [runs] executes any interleaving of calls and accesses of any number of
    threads on a ring that was just created, and gives the steps of the queue of
    the specification that they amount to. *)

From S2P Require Import Prelude RteRing RteRingInv RteRingRun.

Implicit Types (r : rte_ring) (b : rte_ring_queue_behavior) (s : gring) (t : gthread).

(** ** Set-up *)

(** The [w] bits from the highest, [m], down are set, those above are not. *)
Definition top_set (m w x : Z) : Prop :=
  (∀ j, m < j → Z.testbit x j = false) ∧ (∀ j, 0 ≤ j ≤ m → m - w < j → Z.testbit x j = true).

Lemma top_set_step m w x : 1 ≤ w → top_set m w x → top_set m (2 * w) (Z.lor x (Z.shiftr x w)).
Proof.
  intros Hw [Hhi Hlo]. split; intros j Hj.
  - destruct (decide (0 ≤ j)); [|by rewrite Z.testbit_neg_r by lia].
    rewrite Z.lor_spec, Z.shiftr_spec, !Hhi by lia. done.
  - intros Hj'. rewrite Z.lor_spec, Z.shiftr_spec by lia. destruct (decide (m - w < j)).
    + by rewrite Hlo by lia.
    + rewrite (Hlo (j + w)) by lia. apply orb_true_r.
Qed.

Lemma top_set_ones m w x : 0 ≤ m → m < w → top_set m w x → x = Z.ones (m + 1).
Proof.
  intros Hm Hw [Hhi Hlo]. apply Z.bits_inj'. intros j Hj. destruct (decide (j ≤ m)).
  - rewrite Z.ones_spec_low by lia. apply Hlo; lia.
  - rewrite Z.ones_spec_high by lia. apply Hhi. lia.
Qed.

Lemma top_set_log2 x : 0 < x → top_set (Z.log2 x) 1 x.
Proof.
  intros Hx. split; intros j Hj.
  - by apply Z.bits_above_log2; lia.
  - intros Hj'. replace j with (Z.log2 x) by lia. by apply Z.bit_log2.
Qed.

(** The least power of two that is not below [x]. *)
Lemma rte_align32pow2_spec x : 1 ≤ x ≤ 2 ^ 31 → ∃ k, 0 ≤ k ≤ 31 ∧ rte_align32pow2 x = 2 ^ k ∧ x ≤ 2 ^ k < 2 * x.
Proof.
  intros Hx. destruct (decide (x = 1)) as [->|Hx1]; [by exists 0|].
  assert (Hlog : 0 ≤ Z.log2 (x - 1) < 31) by (split; [apply Z.log2_nonneg|apply Z.log2_lt_pow2; lia]).
  pose proof (Z.log2_spec (x - 1) ltac:(lia)) as Hsp. exists (Z.log2 (x - 1) + 1).
  rewrite <- Z.add_1_r in Hsp. rewrite Z.pow_add_r in * by lia. split; [lia|]. split; [|lia].
  unfold rte_align32pow2. cbv zeta. rewrite (u32_small (x - 1)) by lia.
  pose proof (top_set_log2 (x - 1) ltac:(lia)) as H.
  apply (top_set_step _ 1) in H; [|lia]. apply (top_set_step _ 2) in H; [|lia]. apply (top_set_step _ 4) in H; [|lia].
  apply (top_set_step _ 8) in H; [|lia]. apply (top_set_step _ 16) in H; [|lia].
  rewrite (top_set_ones (Z.log2 (x - 1)) (2 * 16) _ (proj1 Hlog) ltac:(lia) H), Z.ones_equiv, Z.pow_add_r by lia.
  assert (2 ^ Z.log2 (x - 1) ≤ 2 ^ 30) by (apply Z.pow_le_mono_r; lia). rewrite u32_small; lia.
Qed.

Lemma POWEROF2_iff x : 1 ≤ x < 2 ^ 32 → POWEROF2 x = true ↔ ∃ k, 0 ≤ k ∧ x = 2 ^ k.
Proof.
  intros Hx. unfold POWEROF2. rewrite u32_small by lia. rewrite Z.eqb_eq. split.
  - intros Hl. exists (Z.log2 x). split; [apply Z.log2_nonneg|]. pose proof (Z.log2_spec x ltac:(lia)) as Hsp.
    destruct (decide (x = 2 ^ Z.log2 x)) as [|Hne]; [done|exfalso].
    assert (Z.testbit (Z.land (x - 1) x) (Z.log2 x) = true) as Hb.
    { rewrite Z.land_spec, (Z.bit_log2 x) by lia. rewrite andb_true_r.
      replace (Z.log2 x) with (Z.log2 (x - 1)); [apply Z.bit_log2; pose proof (Z.pow_pos_nonneg 2 (Z.log2 x)); pose proof (Z.log2_nonneg x); lia|].
      apply Z.log2_unique; [apply Z.log2_nonneg|lia]. }
    by rewrite Hl, Z.bits_0 in Hb.
  - intros (k & Hk & ->). replace (2 ^ k - 1) with (Z.ones k) by (rewrite Z.ones_equiv; lia).
    rewrite Z.land_comm, Z.land_ones by done. apply Z.mod_same. lia.
Qed.

(** What a new ring of a requested size is. *)
Record new_ring (count fl : Z) r : Prop := {
  nr_ok : ring_ok r;
  nr_exact : has fl RING_F_EXACT_SZ = true → capacity r = count ∧ size r ≤ 2 * count;
  nr_pow2 : has fl RING_F_EXACT_SZ = false → size r = count ∧ capacity r = count - 1;
  nr_prod : prod r = {| head := 0; tail := 0; single := b2z (has fl RING_F_SP_ENQ) |};
  nr_cons : cons r = {| head := 0; tail := 0; single := b2z (has fl RING_F_SC_DEQ) |}
}.

Section create.
Context (valloc : Z → list obj).
Context (Hvalloc : ∀ n, length (valloc n) = Z.to_nat n).

Lemma create_exact count fl :
  1 ≤ count < 2 ^ 31 → has fl RING_F_EXACT_SZ = true →
  match rte_ring_create valloc count fl with Some r => new_ring count fl r | None => 2 ^ 27 ≤ count end.
Proof.
  intros Hc Hx. unfold rte_ring_create, rte_ring_init, rte_ring_get_memsize, RTE_RING_SZ_MASK. rewrite Hx, (u32_small (count + 1)) by lia.
  destruct (rte_align32pow2_spec (count + 1)) as (k & Hk & -> & Hlo); [lia|].
  rewrite (proj2 (POWEROF2_iff (2 ^ k) ltac:(lia))) by (exists k; lia). simpl.
  destruct (Z.leb_spec (2 ^ k) 268435455) as [Hle|]; simpl; [|lia].
  assert (k ≤ 28) by (destruct (decide (k ≤ 28)); [done|]; pose proof (Z.pow_le_mono_r 2 29 k); lia).
  assert (Hev : 2 ^ k = 2 * 2 ^ (k - 1)).
  { rewrite <- Z.pow_succ_r; [f_equal; lia|]. destruct (decide (k = 0)) as [->|]; lia. }
  split; try done; simpl; [|lia|congruence]. split; simpl; [exists k; lia|by rewrite u32_small by lia|lia|].
  rewrite Hvalloc. lia.
Qed.

Lemma create_pow2 count fl :
  1 ≤ count < 2 ^ 31 → has fl RING_F_EXACT_SZ = false →
  match rte_ring_create valloc count fl with
  | Some r => new_ring count fl r
  | None => ∀ k, 0 ≤ k < 28 → count ≠ 2 ^ k
  end.
Proof.
  intros Hc Hx. unfold rte_ring_create, rte_ring_init, rte_ring_get_memsize, RTE_RING_SZ_MASK. rewrite Hx.
  pose proof (POWEROF2_iff count ltac:(lia)) as Hiff. destruct (POWEROF2 count); simpl.
  - destruct (proj1 Hiff eq_refl) as (k & Hk & Hck). destruct (Z.leb_spec count 268435455) as [Hle|Hgt]; simpl.
    + assert (k ≤ 28) by (destruct (decide (k ≤ 28)); [done|]; pose proof (Z.pow_le_mono_r 2 29 k); lia).
      rewrite !u32_small by lia. split; try done; simpl; [|congruence]. split; simpl; [exists k; lia|done|lia|]. rewrite Hvalloc. lia.
    + intros j Hj ->. pose proof (Z.pow_le_mono_r 2 j 27). lia.
  - intros k Hk Hck. destruct Hiff as [_ Hiff]. discriminate Hiff. exists k. lia.
Qed.
End create.

(** ** Runs *)

Definition ring_start r (n : nat) : gring :=
  {| g_ring := r; g_threads := replicate n {| g_pc := Idle; g_pos := 0; g_batch := [] |};
     g_log := []; g_pt := 0; g_ch := 0; g_ct := 0 |}.

(** [timely] and [lone], decided. *)
Definition timelyb s : bool :=
  forallb (λ t, (negb (enq_seen t) || (g_ph s - g_pos t <? 2 ^ 31)) && (negb (deq_seen t) || (g_ch s - g_pos t <? 2 ^ 31)))
    (g_threads s).

Definition at_most_one {A} (f : A → bool) (l : list A) : bool := (length (List.filter f l) <=? 1)%nat.

Definition loneb s : bool :=
  (negb (nz (single (prod (g_ring s)))) || at_most_one enq_pc (g_threads s)) &&
  (negb (nz (single (cons (g_ring s)))) || at_most_one deq_pc (g_threads s)).

Definition ops_at s (e : gevent) s' : list ring_op :=
  match e with
  | Call i p => [Invoke i p]
  | Run i => match g_threads s !! i, g_threads s' !! i with Some t, Some t' => ops_of i t t' | _, _ => [] end
  end.

(** A run, with its steps of the specification.  [None]: a thread was run that
    cannot go on, or the ring was used by more threads than it was made for, or a
    thread was overtaken by 2^31 entries while it looked at a head. *)
Fixpoint runs s (es : list gevent) : option (gring * list ring_op) :=
  match es with
  | [] => Some (s, [])
  | e :: es =>
      _ ← ensure (timelyb s && loneb s);
      s' ← gexec s e;
      '(s'', ops) ← runs s' es;
      Some (s'', ops_at s e s' ++ ops)
  end.

Lemma timelyb_true s : timelyb s = true → timely s.
Proof.
  unfold timelyb. rewrite forallb_forall. intros H i t Hi.
  specialize (H t ltac:(by apply list_elem_of_In, list_elem_of_lookup; eauto)).
  destruct (enq_seen t), (deq_seen t); simpl in H; split; intros; try done; lia.
Qed.

Lemma at_most_one_true {A} (f : A → bool) l i j x y :
  at_most_one f l = true → l !! i = Some x → l !! j = Some y → f x = true → f y = true → i = j.
Proof.
  unfold at_most_one. rewrite Nat.leb_le. revert i j. induction l as [|z l IH]; intros i j Hl Hi Hj Hx Hy; [done|].
  assert (Hin : ∀ k w, l !! k = Some w → f w = true → (1 ≤ length (List.filter f l))%nat).
  { intros k w Hk Hw. destruct (List.filter f l) eqn:E; [|simpl; lia]. exfalso.
    assert (In w (List.filter f l)) as Hw' by (apply filter_In; split; [apply list_elem_of_In, list_elem_of_lookup; eauto|done]).
    by rewrite E in Hw'. }
  simpl in Hl. destruct i as [|i], j as [|j]; simpl in *; simplify_eq; [done| | |].
  - rewrite Hx in Hl. specialize (Hin j y Hj Hy). simpl in Hl. lia.
  - rewrite Hy in Hl. specialize (Hin i x Hi Hx). simpl in Hl. lia.
  - f_equal. apply IH; try done. destruct (f z); simpl in Hl; lia.
Qed.

Lemma loneb_true s : loneb s = true → lone s.
Proof.
  unfold loneb. intros [H1 H2]%andb_true_iff. split; intros E i j t u; rewrite E in *; simpl in *; by apply at_most_one_true.
Qed.

Lemma start_rinv count fl r n : new_ring count fl r → rinv (ring_start r n).
Proof.
  intros [Hok _ _ Hp Hc]. pose proof (ro_capacity _ Hok).
  assert (Hth : ∀ i t, g_threads (ring_start r n) !! i = Some t → t = {| g_pc := Idle; g_pos := 0; g_batch := [] |}).
  { intros i t Hi. simpl in Hi. by apply lookup_replicate in Hi as [-> _]. }
  split; simpl; rewrite ?Hp, ?Hc; try done; unfold g_ph; simpl; try (intros p Hpr; lia).
  - lia.
  - by intros i t ->%Hth.
  - intros i j t u _ ->%Hth _ Ht. done.
  - intros i j t u _ ->%Hth _ Ht. done.
  - by intros _ i t ->%Hth.
  - by intros _ i t ->%Hth.
Qed.

Lemma call_rinv s i p s' : rinv s → gexec s (Call i p) = Some s' → rinv s' ∧ abs s' = abs s ∧ g_ring s' = g_ring s.
Proof.
  intros Hs H. cbn [gexec] in H. apply bind_Some in H as (t & Hi & H). apply bind_Some in H as (? & He & H).
  apply ensure_Some in He as [[Hid Hp]%andb_true_iff _]. injection H as <-. split; [|done].
  apply (local_rinv s i t); [done|done| | | |].
  - split; unfold enq_held, deq_held, enq_written; simpl; destruct (g_pc t), p; done.
  - unfold thread_ok. simpl. destruct p; try done. lia.
  - unfold enq_seen. simpl. by destruct p.
  - unfold deq_seen. simpl. by destruct p.
Qed.

(** ** The calls of a thread *)

Definition thread_ops (i : nat) (ops : list ring_op) : list ring_op := List.filter (λ o, (op_thread o =? i)%nat) ops.

(** How many entries a call for [k] may use: all or nothing, or some. *)
Definition fits b (k n : Z) : Prop :=
  1 ≤ n ∧ match b with RTE_RING_QUEUE_FIXED => n = k | RTE_RING_QUEUE_VARIABLE => n ≤ k end.

(** A finished call did what it returns: the history of the thread ends with it. *)
Definition answered (i : nat) (p : pc) (h : list ring_op) : Prop :=
  match p with
  | EnqDone n _ =>
      ∃ h0 b objs,
        n = 0 ∧ h = h0 ++ [Invoke i (EnqHead b objs); Full i b objs] ∨
        fits b (Z.of_nat (length objs)) n ∧
        h = h0 ++ [Invoke i (EnqHead b objs); Reserve i n; Push i (take (Z.to_nat n) objs)]
  | DeqDone n _ objs =>
      Z.of_nat (length objs) = n ∧
      ∃ h0 b m,
        n = 0 ∧ h = h0 ++ [Invoke i (DeqHead b m); Empty i b m] ∨
        fits b m n ∧ h = h0 ++ [Invoke i (DeqHead b m); Pop i objs; Release i n]
  | _ => True
  end.

(** The same for calls that are under way. *)
Definition call_ok (i : nat) t (h : list ring_op) : Prop :=
  match g_pc t with
  | EnqHead b objs | EnqFree b objs _ => ∃ h0, h = h0 ++ [Invoke i (EnqHead b objs)]
  | EnqCas b objs _ n _ => fits b (Z.of_nat (length objs)) n ∧ ∃ h0, h = h0 ++ [Invoke i (EnqHead b objs)]
  | EnqCopy objs _ n _ _ =>
      ∃ h0 b, fits b (Z.of_nat (length objs)) n ∧ h = h0 ++ [Invoke i (EnqHead b objs); Reserve i n]
  | EnqTail _ n _ =>
      ∃ h0 b objs, g_batch t = take (Z.to_nat n) objs ∧ fits b (Z.of_nat (length objs)) n ∧
        h = h0 ++ [Invoke i (EnqHead b objs); Reserve i n]
  | DeqHead b m | DeqEntries b m _ => ∃ h0, h = h0 ++ [Invoke i (DeqHead b m)]
  | DeqCas b m _ n _ => fits b m n ∧ ∃ h0, h = h0 ++ [Invoke i (DeqHead b m)]
  | DeqCopy _ n _ _ | DeqTail _ n _ _ =>
      ∃ h0 b m, fits b m n ∧ h = h0 ++ [Invoke i (DeqHead b m); Pop i (g_batch t)]
  | p => answered i p h
  end.

Lemma burst_fits b n avail : 0 ≤ avail → 0 ≤ n → burst b n avail ≠ 0 → fits b n (burst b n avail).
Proof. unfold burst, fits. intros. destruct (Z.ltb_spec avail n), b; lia. Qed.

(** The thread after a step. *)
Definition track_thread s t (p : pc) : gthread := let '(t', _, _, _, _) := gtrack s t p in t'.

Lemma gexec_run s i s' :
  gexec s (Run i) = Some s' →
  ∃ t r p, g_threads s !! i = Some t ∧ ring_step (g_ring s) (g_pc t) = Some (r, p) ∧ g_ring s' = r ∧
    g_threads s' = <[i := track_thread s t p]> (g_threads s).
Proof.
  cbn [gexec]. intros (t & Hi & H)%bind_Some. apply bind_Some in H as ([r p] & Hst & H). exists t, r, p.
  split; [done|]. split; [done|]. unfold track_thread. destruct (gtrack s t p) as [[[[t' objs] pt] ch] ct].
  by injection H as <-.
Qed.

Lemma call_ok_run s i t r p h :
  rinv s → g_threads s !! i = Some t → ring_step (g_ring s) (g_pc t) = Some (r, p) → call_ok i t h →
  let t' := track_thread s t p in call_ok i t' (h ++ ops_of i t t').
Proof.
  intros Hs Hi Hst Hc t'. pose proof (ri_threads _ Hs i t Hi) as Ht. unfold thread_ok in Ht. unfold call_ok in Hc.
  unfold call_ok, ops_of, t', track_thread, gtrack. clear t'.
  destruct (g_pc t) as [|b objs|b objs hd|b objs hd n f|objs hd n f k|hd n f|n fs|b m|b m hd|b m hd n e|hd n e objs|hd n e objs|n a objs] eqn:Hpc;
    cbn [ring_step] in Hst; try done.
  - injection Hst as <- <-. simpl. by rewrite app_nil_r.
  - injection Hst as <- <-. simpl. destruct Hc as [h0 ->]. destruct (Z.eqb_spec (burst b (Z.of_nat (length objs)) (u32 (capacity (g_ring s) + tail (cons (g_ring s)) - hd))) 0); simpl.
    + exists h0, b, objs. left. by rewrite <- app_assoc.
    + rewrite app_nil_r. split; [|eauto]. apply burst_fits; [apply u32_range|lia|done].
  - destruct Hc as [Hf [h0 ->]]. destruct (move_head _ _ _); injection Hst as <- <-; simpl.
    + exists h0, b. by rewrite <- app_assoc.
    + rewrite app_nil_r. eauto.
  - destruct Hc as (h0 & b & Hf & ->). apply bind_Some in Hst as (x & Hx & Hst). apply bind_Some in Hst as (sl & Hsl & Hst).
    injection Hst as <- <-. simpl. rewrite app_nil_r. destruct (_ =? n); [exists h0, b, objs|exists h0, b]; naive_solver.
  - destruct Hc as (h0 & b & objs & Hb & Hf & ->). apply bind_Some in Hst as (ht & Hu & Hst). injection Hst as <- <-. simpl.
    exists h0, b, objs. right. rewrite <- app_assoc, <- Hb. done.
  - injection Hst as <- <-. simpl. by rewrite app_nil_r.
  - injection Hst as <- <-. simpl. destruct Hc as [h0 ->]. destruct (Z.eqb_spec (burst b m (u32 (tail (prod (g_ring s)) - hd))) 0); simpl.
    + split; [done|]. exists h0, b, m. left. by rewrite <- app_assoc.
    + rewrite app_nil_r. split; [|eauto]. apply burst_fits; [apply u32_range|lia|done].
  - destruct Hc as [Hf [h0 ->]]. destruct (move_head _ _ _); injection Hst as <- <-; simpl.
    + exists h0, b, m. by rewrite <- app_assoc.
    + rewrite app_nil_r. eauto.
  - apply bind_Some in Hst as (x & Hx & Hst). injection Hst as <- <-. simpl. rewrite app_nil_r. by destruct (_ =? n).
  - destruct Hc as (h0 & b & m & Hf & ->). apply bind_Some in Hst as (ht & Hu & Hst). injection Hst as <- <-. simpl.
    destruct Ht as (_ & _ & _ & _ & -> & Hl). split; [done|]. exists h0, b, m. right. by rewrite <- app_assoc.
Qed.

(** ** The simulation *)

Lemma fifo_run_app cap f ops ops' : fifo_run cap f (ops ++ ops') = f ← fifo_run cap f ops; fifo_run cap f ops'.
Proof. revert f. induction ops as [|o ops IH]; intros f; simpl; [done|]. destruct (fifo_step cap f o); simpl; auto. Qed.

Lemma move_head_single ht old new ht' : move_head ht old new = Some ht' → single ht' = single ht.
Proof. unfold move_head. destruct (_ || _); intros; by simplify_eq/=. Qed.

Lemma update_tail_single ht old new ht' : update_tail ht old new = Some ht' → single ht' = single ht.
Proof. unfold update_tail. destruct (_ || _); intros; by simplify_eq/=. Qed.

Lemma ring_step_static r p r' p' :
  ring_step r p = Some (r', p') →
  capacity r' = capacity r ∧ single (prod r') = single (prod r) ∧ single (cons r') = single (cons r).
Proof.
  destruct p; cbn [ring_step]; intros H; repeat (apply bind_Some in H as (? & ? & H)); try (by simplify_eq/=).
  - destruct (move_head _ _ _) eqn:E; simplify_eq/=; [by rewrite (move_head_single _ _ _ _ E)|done].
  - simplify_eq/=. split_and!; try done; by eapply update_tail_single.
  - destruct (move_head _ _ _) eqn:E; simplify_eq/=; [by rewrite (move_head_single _ _ _ _ E)|done].
  - simplify_eq/=. split_and!; try done; by eapply update_tail_single.
Qed.

Record sim (cap : Z) (ops : list ring_op) s : Prop := {
  sm_inv : rinv s;
  sm_cap : capacity (g_ring s) = cap;
  sm_fifo : fifo_run cap fifo_empty ops = Some (abs s);
  sm_calls : ∀ i t, g_threads s !! i = Some t → call_ok i t (thread_ops i ops)
}.

Lemma thread_ops_app i ops ops' : thread_ops i (ops ++ ops') = thread_ops i ops ++ thread_ops i ops'.
Proof. apply List.filter_app. Qed.

Lemma ops_of_thread i j t t' : thread_ops j (ops_of i t t') = if decide (i = j) then ops_of i t t' else [].
Proof. unfold ops_of, thread_ops. destruct (g_pc t), (g_pc t'); simpl; try by case_decide; destruct (Nat.eqb_spec i j). Qed.

Lemma sim_call cap ops s i p s' :
  sim cap ops s → gexec s (Call i p) = Some s' → sim cap (ops ++ ops_at s (Call i p) s') s'.
Proof.
  intros [Hs Hcap Hf Hc] H. destruct (call_rinv _ _ _ _ Hs H) as (Hs' & Ha & Hr). split; [done|congruence|..].
  - by rewrite fifo_run_app, Hf, Ha.
  - intros j u Hj. cbn [gexec] in H. apply bind_Some in H as (t & Hi & H). apply bind_Some in H as (? & He & H).
    apply ensure_Some in He as [[Hid Hp]%andb_true_iff _]. injection H as <-. rewrite thread_ops_app. simpl in Hj.
    unfold thread_ops at 2. simpl. apply lookup_insert_cases in Hj as [[-> ->]|[Hij Hj]].
    + rewrite Nat.eqb_refl. unfold call_ok. simpl. destruct p; try done; eauto.
    + destruct (Nat.eqb_spec i j); [done|]. rewrite app_nil_r. by apply Hc.
Qed.

Lemma sim_run cap ops s i s' :
  sim cap ops s → timely s → lone s → gexec s (Run i) = Some s' → sim cap (ops ++ ops_at s (Run i) s') s'.
Proof.
  intros [Hs Hcap Hf Hc] Htm Hln H. destruct (gexec_run _ _ _ H) as (t & r & p & Hi & Hst & Hr & Hths).
  destruct (run_step _ _ _ _ Hs Hi Htm Hln H) as (t' & Hi' & Hs' & Ho).
  assert (t' = track_thread s t p) as ->.
  { rewrite Hths, list_lookup_insert_eq in Hi' by (by eapply lookup_lt_Some). by simplify_eq. }
  unfold ops_at. rewrite Hi, Hi'. split; [done| | |].
  - rewrite Hr. by rewrite (proj1 (ring_step_static _ _ _ _ Hst)).
  - rewrite fifo_run_app, Hf. simpl. by rewrite <- Hcap.
  - intros j u Hj. rewrite thread_ops_app, ops_of_thread. rewrite Hths in Hj. apply lookup_insert_cases in Hj as [[-> ->]|[Hij Hj]].
    + rewrite decide_True by done. apply (call_ok_run s _ t r p); auto.
    + rewrite decide_False, app_nil_r by done. by apply Hc.
Qed.

Lemma sim_runs cap ops s es s' ops' : sim cap ops s → runs s es = Some (s', ops') → sim cap (ops ++ ops') s'.
Proof.
  revert ops s ops'. induction es as [|e es IH]; intros ops s ops' Hs H; simpl in H; [simplify_eq; by rewrite app_nil_r|].
  apply bind_Some in H as (? & He & H). apply ensure_Some in He as [[Htm Hln]%andb_true_iff _].
  apply bind_Some in H as (s1 & H1 & H). apply bind_Some in H as ([s2 ops2] & H2 & H). injection H as <- <-.
  rewrite app_assoc. eapply IH; [|done]. apply timelyb_true in Htm. apply loneb_true in Hln.
  destruct e; [by apply sim_call|by apply sim_run].
Qed.

Lemma start_sim count fl r n : new_ring count fl r → sim (capacity r) [] (ring_start r n).
Proof.
  intros Hr. split; [by eapply start_rinv|done|done|]. intros i t Hi. by apply lookup_replicate in Hi as [-> _].
Qed.

(** What [rte_ring_count] counts. *)
Lemma count_exact s : rinv s → rte_ring_count (g_ring s) = f_size (abs s) + f_out (abs s).
Proof.
  intros Hs. rewrite abs_size by done. simpl. destruct (ri_order _ Hs) as (? & ? & ? & ? & ?).
  destruct (ri_ring _ Hs) as [(k & Hk & Hsz) Hm Hcap _]. assert (2 ^ k ≤ 2 ^ 28) by (apply Z.pow_le_mono_r; lia).
  unfold rte_ring_count. rewrite (proj2 (ri_prod _ Hs)), (proj2 (ri_cons _ Hs)), u32_sub, Hm, Hsz.
  rewrite land_mask, u32_small, Z.mod_small by lia. destruct (Z.ltb_spec (capacity (g_ring s)) (g_pt s - g_ct s)); lia.
Qed.

(** ** Progress *)

Definition fair s : bool := timelyb s && loneb s.

(** The entries a producer ([k]) or consumer holds, the first that is held, and
    the copies a thread has left. *)
Definition held (k : bool) t : Z := if k then enq_held t else deq_held t.
Definition base (k : bool) s : Z := if k then g_pt s else g_ct s.
Definition remaining t : nat :=
  match g_pc t with
  | EnqCopy _ _ n _ i => Z.to_nat (n - i)
  | DeqCopy _ n _ objs => Z.to_nat n - length objs
  | _ => 0
  end.

Lemma gexec_some s i t :
  g_threads s !! i = Some t → is_Some (ring_step (g_ring s) (g_pc t)) → is_Some (gexec s (Run i)).
Proof.
  intros Hi [[r p] Hst]. cbn [gexec]. rewrite Hi. cbn [mbind option_bind]. rewrite Hst. cbn [mbind option_bind].
  destruct (gtrack s t p) as [[[[? ?] ?] ?] ?]. eauto.
Qed.

(** Copies stay inside the table. *)
Lemma slot_in_range r pos n i :
  ring_ok r → 0 ≤ pos → 0 ≤ i < n → n ≤ capacity r → 0 ≤ slot_index r (u32 pos) n i < Z.of_nat (length (slots r)).
Proof.
  intros Hr Hp Hi Hn. rewrite slot_index_mod by done. rewrite (ro_slots _ Hr). apply Z.mod_pos_bound.
  destruct (ro_size _ Hr) as (k & Hk & ->). apply pow2_pos; lia.
Qed.

Lemma step_defined s i t :
  rinv s → g_threads s !! i = Some t → idle (g_pc t) = false →
  match g_pc t with EnqTail _ _ _ => g_pos t = g_pt s | DeqTail _ _ _ _ => g_pos t = g_ct s | _ => True end →
  is_Some (ring_step (g_ring s) (g_pc t)).
Proof.
  intros Hs Hi Hid Hw. pose proof (ri_threads _ Hs i t Hi) as Ht. unfold thread_ok in Ht.
  destruct (ri_order _ Hs) as (? & ? & ? & ? & ?). pose proof (ri_ring _ Hs) as Hr.
  destruct (g_pc t) as [| | | |objs h n f k|h n f| | | | |h n e objs|h n e objs|]; try done; cbn [ring_step]; eauto.
  - case_match; eauto.
  - destruct Ht as (-> & ? & ? & ? & ? & _). destruct (rd_is_Some objs k) as [x ->]; [lia|]. cbn [mbind option_bind].
    pose proof (slot_in_range _ (g_pos t) n k Hr). rewrite wr_in_range by lia. eexists. reflexivity.
  - destruct Ht as (-> & _). unfold update_tail. rewrite (proj2 (ri_prod _ Hs)), Hw, Z.eqb_refl, orb_true_r. eexists. reflexivity.
  - case_match; eauto.
  - destruct Ht as (-> & ? & ? & ? & _). pose proof (slot_in_range _ (g_pos t) n (Z.of_nat (length objs)) Hr).
    destruct (rd_is_Some (slots (g_ring s)) (slot_index (g_ring s) (u32 (g_pos t)) n (Z.of_nat (length objs)))) as [x ->]; [lia|].
    eexists. reflexivity.
  - destruct Ht as (-> & _). unfold update_tail. rewrite (proj2 (ri_cons _ Hs)), Hw, Z.eqb_refl, orb_true_r. eexists. reflexivity.
Qed.

Lemma at_most_one_insert {A} (f : A → bool) l i x y :
  at_most_one f l = true → l !! i = Some x → (f y = true → f x = true) → at_most_one f (<[i := y]> l) = true.
Proof.
  unfold at_most_one. rewrite !Nat.leb_le. intros Hl Hi Hf.
  enough (length (List.filter f (<[i := y]> l)) ≤ length (List.filter f l))%nat by lia. clear Hl. revert i Hi.
  induction l as [|z l IH]; intros [|i] Hi; simplify_eq/=; [|specialize (IH i Hi); destruct (f z); simpl; lia].
  destruct (f y); [rewrite Hf by done; done|]. destruct (f x); simpl; lia.
Qed.

Lemma timely_timelyb s : timely s → timelyb s = true.
Proof.
  intros H. apply forallb_forall. intros t Ht. apply list_elem_of_In, list_elem_of_lookup in Ht as [i Hi].
  destruct (H i t Hi) as [He Hd]. destruct (enq_seen t), (deq_seen t); simpl; try done; try (specialize (He eq_refl));
    try (specialize (Hd eq_refl)); lia.
Qed.

(** What a step of a thread that holds entries is. *)
Record holder_step (k : bool) s (i : nat) t s' t' : Prop := {
  hs_threads : g_threads s' = <[i := t']> (g_threads s);
  hs_heads : g_ph s' = g_ph s ∧ g_ch s' = g_ch s;
  hs_seen : enq_seen t' = false ∧ deq_seen t' = false;
  hs_side : (enq_pc t' = true → enq_pc t = true) ∧ (deq_pc t' = true → deq_pc t = true);
  hs_pos : g_pos t' = g_pos t;
  hs_left : match remaining t with
            | O => idle (g_pc t') = true ∧ base k s' = g_pos t + held k t
            | S m => remaining t' = m ∧ held k t' = held k t ∧ base k s' = base k s
            end
}.

Lemma held_step k s i t s' :
  rinv s → g_threads s !! i = Some t → 0 < held k t → gexec s (Run i) = Some s' → ∃ t', holder_step k s i t s' t'.
Proof.
  intros Hs Hi Hh H. pose proof (ri_threads _ Hs i t Hi) as Ht. unfold thread_ok in Ht.
  cbn [gexec] in H. rewrite Hi in H. cbn [mbind option_bind] in H.
  apply bind_Some in H as ([r p] & Hst & H). unfold gtrack in H.
  destruct (g_pc t) as [| | | |objs h n f j|h n f| | | | |h n e objs|h n e objs|] eqn:Hpc;
    try (exfalso; revert Hh; unfold held, enq_held, deq_held; rewrite Hpc; by destruct k);
    cbn [ring_step] in Hst; apply bind_Some in Hst as (x & Hx & Hst).
  1: apply bind_Some in Hst as (sl & Hsl & Hst).
  all: injection Hst as <- <-; injection H as <-; eexists; split; try reflexivity.
  all: unfold enq_seen, deq_seen, enq_pc, deq_pc, remaining, held, base, g_ph, enq_held, deq_held in *;
    rewrite Hpc in *; simpl in *; rewrite ?app_nil_r, ?length_app; try done.
  - by destruct (_ =? n).
  - by destruct (_ =? n).
  - destruct k; [|done]. destruct (Z.to_nat (n - j)) eqn:E; [lia|]. destruct (Z.eqb_spec (j + 1) n); simpl; split_and!; lia.
  - by destruct k.
  - by destruct (_ =? n).
  - by destruct (_ =? n).
  - destruct k; [done|]. destruct (Z.to_nat n - length objs)%nat eqn:E; [lia|]. simpl.
    destruct (Z.eqb_spec (Z.of_nat (length objs + 1)) n); simpl; rewrite ?length_app; simpl; split_and!; lia.
  - by destruct k.
Qed.

Lemma fair_step k s i t s' t' :
  fair s = true → g_threads s !! i = Some t → gexec s (Run i) = Some s' → holder_step k s i t s' t' → fair s' = true.
Proof.
  unfold fair. intros [Htm Hln]%andb_true_iff Hi H [Hth [Hph Hch] [He Hd] [He' Hd'] Hp _]. apply andb_true_iff. split.
  - apply timely_timelyb. apply timelyb_true in Htm. intros j u Hj. rewrite Hph, Hch. rewrite Hth in Hj.
    apply lookup_insert_cases in Hj as [[<- ->]|[_ Hj]]; [by rewrite He, Hd|by apply (Htm j)].
  - destruct (gexec_run _ _ _ H) as (t0 & r & p & Hi0 & Hst & Hr & _). simplify_eq.
    destruct (ring_step_static _ _ _ _ Hst) as (_ & E1 & E2). unfold loneb in *. rewrite Hth, E1, E2.
    apply andb_true_iff in Hln as [H1 H2]. apply andb_true_iff. split.
    + destruct (nz (single (prod (g_ring s)))); simpl in *; [by eapply at_most_one_insert|done].
    + destruct (nz (single (cons (g_ring s)))); simpl in *; [by eapply at_most_one_insert|done].
Qed.

Lemma held_pos k s t : thread_ok s t → held k t ≠ 0 → 0 < held k t.
Proof.
  unfold thread_ok, held, enq_held, deq_held. intros Ht Hh.
  destruct k; destruct (g_pc t); try done; destruct_and?; lia.
Qed.

Lemma base_first k s i t :
  rinv s → g_threads s !! i = Some t → 0 < held k t →
  base k s ≤ g_pos t ∧ (base k s < g_pos t → ∃ j u, j ≠ i ∧ g_threads s !! j = Some u ∧ 0 < held k u ∧ g_pos u = base k s).
Proof.
  intros Hs Hi Hh. pose proof (ri_threads _ Hs i t Hi) as Ht. destruct (ri_order _ Hs) as (? & ? & ? & ? & ?). destruct k; simpl in *.
  - destruct (enq_held_ok _ _ Ht Hh) as (? & ? & _). split; [done|]. intros Hlt.
    destruct (ri_enq_all _ Hs (g_pt s)) as (j & u & Hj & Hu); [lia|]. exists j, u.
    destruct (enq_held_ok s u) as (? & _); [by eapply ri_threads|lia|]. split_and!; [|done|lia|lia]. intros ->. simplify_eq. lia.
  - destruct (deq_held_ok _ _ Ht Hh) as (? & ?). split; [done|]. intros Hlt.
    destruct (ri_deq_all _ Hs (g_ct s)) as (j & u & Hj & Hu); [lia|]. exists j, u.
    destruct (deq_held_ok s u) as (? & _); [by eapply ri_threads|lia|]. split_and!; [|done|lia|lia]. intros ->. simplify_eq. lia.
Qed.

Lemma first_steps k s i t :
  rinv s → fair s = true → g_threads s !! i = Some t → 0 < held k t → g_pos t = base k s →
  ∃ s' t', gexec s (Run i) = Some s' ∧ rinv s' ∧ fair s' = true ∧ holder_step k s i t s' t'.
Proof.
  intros Hs Hf Hi Hh Hp. destruct (step_defined s i t) as [x Hx]; [done|done|..].
  { unfold held, enq_held, deq_held in Hh. by destruct k, (g_pc t). }
  { unfold held, base, enq_held, deq_held in *. by destruct k, (g_pc t). }
  destruct (gexec_some s i t Hi ltac:(eauto)) as [s' Hs']. destruct (held_step k s i t s' Hs Hi Hh Hs') as [t' Ht'].
  exists s', t'. split; [done|]. pose proof Hf as [Htm Hln]%andb_true_iff.
  destruct (run_step s i t s') as (_ & _ & Hr & _); auto using timelyb_true, loneb_true.
  split; [done|]. split; [|done]. by eapply fair_step.
Qed.

(** The thread with the first entry finishes on its own. *)
Lemma first_finishes k m : ∀ s i t,
  remaining t = m → rinv s → fair s = true → g_threads s !! i = Some t → 0 < held k t → g_pos t = base k s →
  ∃ s' ops t', runs s (replicate (S m) (Run i)) = Some (s', ops) ∧ g_threads s' = <[i := t']> (g_threads s) ∧
    idle (g_pc t') = true ∧ rinv s' ∧ fair s' = true ∧ base k s < base k s'.
Proof.
  induction m as [|m IH]; intros s i t Hm Hs Hf Hi Hh Hp; destruct (first_steps k s i t) as (s1 & t1 & H1 & Hs1 & Hf1 & Hst); auto;
    pose proof Hst as [Hth _ _ _ Hpos Hl]; rewrite Hm in Hl; cbn [replicate runs]; unfold fair in Hf; rewrite Hf; cbn [ensure mbind option_bind];
    rewrite H1; cbn [mbind option_bind].
  - destruct Hl as [Hid Hb]. eexists _, _, t1. split_and!; try done. lia.
  - destruct Hl as (Hm1 & Hh1 & Hb).
    destruct (IH s1 i t1) as (s2 & ops & t2 & H2 & Hth2 & Hid & Hs2 & Hf2 & Hb2); [done|done|done| |congruence|congruence|].
    { rewrite Hth. apply list_lookup_insert_eq. by eapply lookup_lt_Some. }
    cbn [replicate runs] in H2. rewrite H2. eexists _, _, t2. split; [reflexivity|].
    split; [by rewrite Hth2, Hth, list_insert_insert_eq|]. split_and!; try done. lia.
Qed.

Lemma runs_app s es es' :
  runs s (es ++ es') = '(s', ops) ← runs s es; '(s'', ops') ← runs s' es'; Some (s'', ops ++ ops').
Proof.
  revert s. induction es as [|e es IH]; intros s; simpl; [by destruct (runs s es') as [[? ?]|]|].
  destruct (ensure _); simpl; [|done]. destruct (gexec s e) as [s1|]; simpl; [|done]. rewrite IH.
  destruct (runs s1 es) as [[s2 ops]|]; simpl; [|done]. destruct (runs s2 es') as [[s3 ops']|]; simpl; [|done].
  by rewrite app_assoc.
Qed.

(** Every thread that holds entries finishes, once those before it have. *)
Lemma holder_finishes k d : ∀ s i t,
  g_pos t - base k s ≤ Z.of_nat d → rinv s → fair s = true → g_threads s !! i = Some t → 0 < held k t →
  ∃ es s' ops t', runs s es = Some (s', ops) ∧ g_threads s' !! i = Some t' ∧ idle (g_pc t') = true.
Proof.
  induction d as [|d IH]; intros s i t Hd Hs Hf Hi Hh; destruct (base_first k s i t Hs Hi Hh) as [Hle Hj];
    (destruct (decide (g_pos t = base k s)) as [Hp|Hp];
       [destruct (first_finishes k _ s i t eq_refl Hs Hf Hi Hh Hp) as (s' & ops & t' & Hr & Hth & Hid & _);
        exists (replicate (S (remaining t)) (Run i)), s', ops, t'; split_and!; [done| |done]; rewrite Hth;
        apply list_lookup_insert_eq; by eapply lookup_lt_Some|]); [lia|].
  destruct Hj as (j & u & Hij & Hju & Hhu & Hpu); [lia|].
  destruct (first_finishes k _ s j u eq_refl Hs Hf Hju Hhu Hpu) as (s1 & ops1 & u' & Hr1 & Hth & _ & Hs1 & Hf1 & Hb).
  destruct (IH s1 i t) as (es & s2 & ops2 & t' & Hr2 & Hi2 & Hid); [lia|done|done| |done|].
  { by rewrite Hth, list_lookup_insert_ne. }
  exists (replicate (S (remaining u)) (Run j) ++ es), s2, (ops1 ++ ops2), t'. split_and!; [|done|done].
  by rewrite runs_app, Hr1; simpl; rewrite Hr2.
Qed.

(** ** Theorems *)

Lemma create_new valloc count fl r :
  (∀ n, length (valloc n) = Z.to_nat n) → 1 ≤ count < 2 ^ 31 → rte_ring_create valloc count fl = Some r → new_ring count fl r.
Proof.
  intros Hv Hc Hr. destruct (has fl RING_F_EXACT_SZ) eqn:E.
  - pose proof (create_exact valloc Hv count fl Hc E) as H. by rewrite Hr in H.
  - pose proof (create_pow2 valloc Hv count fl Hc E) as H. by rewrite Hr in H.
Qed.

(** C24: whatever the interleaving of any number of threads, the accesses to a
    new ring are steps of a queue of the ring's capacity: pointers leave it in the
    order in which they were published and none is lost or duplicated, an enqueue
    is refused only if its pointers did not fit and a dequeue only if the queue was
    too short at that moment; every call returns what it did to the queue; and
    [rte_ring_count] is the number of entries that are published and not given back. *)
Theorem ring_refines_fifo valloc count fl r n es s ops :
  (∀ k, length (valloc k) = Z.to_nat k) → 1 ≤ count < 2 ^ 31 → rte_ring_create valloc count fl = Some r →
  runs (ring_start r n) es = Some (s, ops) →
  fifo_run (capacity r) fifo_empty ops = Some (abs s) ∧
  rte_ring_count (g_ring s) = f_size (abs s) + f_out (abs s) ∧
  ∀ i t, g_threads s !! i = Some t → answered i (g_pc t) (thread_ops i ops).
Proof.
  intros Hv Hc Hr H. destruct (sim_runs _ [] _ _ _ _ (start_sim _ _ _ n (create_new _ _ _ _ Hv Hc Hr)) H) as [Hs _ Hf Hcalls].
  split; [done|]. split; [by apply count_exact|]. intros i t Hi. specialize (Hcalls i t Hi). unfold call_ok in Hcalls.
  by destruct (g_pc t).
Qed.

(** Two producers and a consumer on a ring of three: the second producer reserves
    after the first and publishes after it; the consumer takes two of the three. *)
Definition demo_calls : list gevent :=
  [Call 0 (femu_ring_enqueue [11; 12] 2); Call 1 (femu_ring_enqueue [13] 1); Run 0; Run 1; Run 0; Run 0; Run 1; Run 1; Run 1;
   Run 1; Run 1; Run 1].
Definition demo_rest : list gevent :=
  [Run 0; Run 0; Run 0; Run 1; Call 2 (femu_ring_dequeue 2); Run 2; Run 2; Run 2; Run 2; Run 2; Run 2].

Definition demo_ring : rte_ring :=
  {| flags := 0; size := 4; mask := 3; capacity := 3; prod := {| head := 0; tail := 0; single := 0 |};
     cons := {| head := 0; tail := 0; single := 0 |}; slots := [0; 0; 0; 0] |}.

Lemma ring_refines_fifo_witness : ∃ s ops,
  rte_ring_create (λ k, replicate (Z.to_nat k) 0) 4 0 = Some demo_ring ∧ runs (ring_start demo_ring 3) (demo_calls ++ demo_rest) = Some (s, ops) ∧
  f_queue (abs s) = [13] ∧ fifo_run 3 fifo_empty ops = Some (abs s) ∧
  answered 2 (DeqDone 2 1 [11; 12]) (thread_ops 2 ops).
Proof.
  eexists _, _. split; [vm_compute; reflexivity|]. split; [vm_compute; reflexivity|]. split; [vm_compute; reflexivity|].
  match goal with |- context [fifo_run 3 fifo_empty ?o = Some (abs ?s)] =>
    destruct (ring_refines_fifo (λ k, replicate (Z.to_nat k) 0) 4 0 demo_ring 3 (demo_calls ++ demo_rest) s o) as (H1 & _ & H3)
  end; [intros k; apply length_replicate|lia|vm_compute; reflexivity|vm_compute; reflexivity|].
  split; [exact H1|]. apply (H3 2%nat _ eq_refl).
Defined.



(** [rte_ring_create] on every size: without [RING_F_EXACT_SZ] it accepts just
    the powers of two up to 2^27 and leaves one entry unused; with it, it gives the
    requested capacity, for every size below 2^27, in a table of the least power of
    two that is larger.  The index mask fits the table and the ring is empty. *)
Lemma rte_ring_create_total valloc count fl :
  (∀ n, length (valloc n) = Z.to_nat n) → 1 ≤ count < 2 ^ 31 →
  match rte_ring_create valloc count fl with
  | Some r => new_ring count fl r
  | None => if has fl RING_F_EXACT_SZ then 2 ^ 27 ≤ count else ∀ k, 0 ≤ k < 28 → count ≠ 2 ^ k
  end.
Proof.
  intros Hv Hc. destruct (has fl RING_F_EXACT_SZ) eqn:E; [by apply create_exact|by apply create_pow2].
Qed.

(** A size of 0 passes the test for powers of two, and so does the largest size
    with [RING_F_EXACT_SZ]: the ring has no table but a capacity of 2^32 - 1. *)
Lemma zero_size_ring valloc fl count :
  (if has fl RING_F_EXACT_SZ then count = 2 ^ 32 - 1 else count = 0) →
  ∃ r, rte_ring_create valloc count fl = Some r ∧ slots r = valloc 0 ∧ size r = 0 ∧ capacity r = 2 ^ 32 - 1.
Proof.
  intros Hc. unfold rte_ring_create, rte_ring_init. destruct (has fl RING_F_EXACT_SZ); subst count; eexists; (split; [reflexivity|done]).
Qed.
