(* ===== verification/PblkAddr.v ===== *)
(** * Physical addresses of pblk (src/mstream-pblk/pblk.h, pblk_set_ppaf of pblk-init.c)

    The sectors of a line are numbered by packing the parts of their address,
    sector, plane, channel, LUN and page from the lowest bits up; the block is the
    line.  [pblk_set_ppaf] derives the packing from the geometry of the drive. *)

From S2P Require Import Prelude RingBuffer.

(** ** Formats *)

Record pblk_addr_format := {
  ch_mask : Z; lun_mask : Z; pln_mask : Z; blk_mask : Z; pg_mask : Z; sec_mask : Z;
  ch_offset : Z; lun_offset : Z; pln_offset : Z; blk_offset : Z; pg_offset : Z; sec_offset : Z
}.

(** What pblk and the core read of the kernel's [struct nvm_geo]. *)
Record nvm_geo := {
  nr_chnls : Z; nr_luns : Z; luns_per_chnl : Z; blks_per_lun : Z;
  geo_sec_per_blk : Z; geo_sec_per_pl : Z; geo_sec_per_lun : Z; geo_sec_size : Z; plane_mode : Z;
  sect_len : Z; pln_len : Z; pg_len : Z; blk_len : Z
}.

Implicit Types (fmt : pblk_addr_format) (geo : nvm_geo).

(** [((1ULL << len) - 1) << off] *)
Definition field_mask (len off : Z) : Z := u64 (Z.shiftl (u64 (Z.shiftl 1 len) - 1) off).

(** The format and the number of bits of an address; [None] is [-EINVAL].
    [get_count_order] is the kernel's rounded-up binary logarithm. *)
Definition pblk_set_ppaf (get_count_order : Z → Z) geo : option (pblk_addr_format * Z) :=
  let ch_len := get_count_order (nr_chnls geo) in
  _ ← ensure (Z.shiftl 1 ch_len =? nr_chnls geo);
  let lun_len := get_count_order (luns_per_chnl geo) in
  _ ← ensure (Z.shiftl 1 lun_len =? luns_per_chnl geo);
  let pln_off := u8 (sect_len geo) in
  let ch_off := u8 (pln_off + pln_len geo) in
  let lun_off := u8 (ch_off + ch_len) in
  let pg_off := u8 (lun_off + lun_len) in
  let blk_off := u8 (pg_off + pg_len geo) in
  Some ({| sec_offset := 0; pln_offset := pln_off; ch_offset := ch_off; lun_offset := lun_off;
           pg_offset := pg_off; blk_offset := blk_off;
           sec_mask := field_mask (sect_len geo) 0; pln_mask := field_mask (pln_len geo) pln_off;
           ch_mask := field_mask ch_len ch_off; lun_mask := field_mask lun_len lun_off;
           pg_mask := field_mask (pg_len geo) pg_off; blk_mask := field_mask (blk_len geo) blk_off |},
        blk_off + blk_len geo).

(** [(a & mask) >> off] *)
Definition field (a mask off : Z) : Z := Z.shiftr (Z.land a mask) off.

Definition addr_to_gen_ppa fmt (paddr line_id : Z) : ppa_addr :=
  Dev line_id (field paddr (pg_mask fmt) (pg_offset fmt)) (field paddr (lun_mask fmt) (lun_offset fmt))
    (field paddr (ch_mask fmt) (ch_offset fmt)) (field paddr (pln_mask fmt) (pln_offset fmt))
    (field paddr (sec_mask fmt) (sec_offset fmt)).

Definition addr_to_pblk_ppa fmt (paddr line_id : Z) : ppa_addr := addr_to_gen_ppa fmt paddr line_id.

(** [None]: the address is not one of the device. *)
Definition pblk_dev_ppa_to_line_addr fmt (p : ppa_addr) : option Z :=
  match p with
  | Dev _ pg lun ch pl sec =>
      let a := Z.lor 0 (u64 (Z.shiftl pg (pg_offset fmt))) in
      let a := Z.lor a (u64 (Z.shiftl lun (lun_offset fmt))) in
      let a := Z.lor a (u64 (Z.shiftl ch (ch_offset fmt))) in
      let a := Z.lor a (u64 (Z.shiftl pl (pln_offset fmt))) in
      Some (Z.lor a (u64 (Z.shiftl sec (sec_offset fmt))))
  | _ => None
  end.

Definition pblk_tgt_ppa_to_line (p : ppa_addr) : option Z := match p with Dev blk _ _ _ _ _ => Some blk | _ => None end.
Definition pblk_dev_ppa_to_line (p : ppa_addr) : option Z := match p with Dev blk _ _ _ _ _ => Some blk | _ => None end.

Definition pblk_ppa64_to_ppa32 fmt (p : ppa_addr) : Z :=
  match p with
  | ADDR_EMPTY => 2 ^ 32 - 1
  | Cache line _ _ => Z.lor (u32 (Z.lor 0 line)) (2 ^ 31)
  | Dev blk pg lun ch pl sec =>
      let a := u32 (Z.lor 0 (Z.shiftl blk (blk_offset fmt))) in
      let a := u32 (Z.lor a (Z.shiftl pg (pg_offset fmt))) in
      let a := u32 (Z.lor a (Z.shiftl lun (lun_offset fmt))) in
      let a := u32 (Z.lor a (Z.shiftl ch (ch_offset fmt))) in
      let a := u32 (Z.lor a (Z.shiftl pl (pln_offset fmt))) in
      u32 (Z.lor a (Z.shiftl sec (sec_offset fmt)))
  end.

Definition pblk_ppa32_to_ppa64 fmt (x : Z) : ppa_addr :=
  if x =? 2 ^ 32 - 1 then ADDR_EMPTY
  else if has x (2 ^ 31) then Cache (Z.land x (2 ^ 31 - 1)) 0 false
  else Dev (field x (blk_mask fmt) (blk_offset fmt)) (field x (pg_mask fmt) (pg_offset fmt))
         (field x (lun_mask fmt) (lun_offset fmt)) (field x (ch_mask fmt) (ch_offset fmt))
         (field x (pln_mask fmt) (pln_offset fmt)) (field x (sec_mask fmt) (sec_offset fmt)).

(** ** Packing *)

(** The lengths of the six fields. *)
Record lens := { l_sec : Z; l_pl : Z; l_ch : Z; l_lun : Z; l_pg : Z; l_blk : Z }.

Definition lens_ok (n : Z) (l : lens) : Prop :=
  0 ≤ l_sec l ∧ 0 ≤ l_pl l ∧ 0 ≤ l_ch l ∧ 0 ≤ l_lun l ∧ 0 ≤ l_pg l ∧ 0 ≤ l_blk l ∧
  l_sec l + l_pl l + l_ch l + l_lun l + l_pg l + l_blk l ≤ n.

(** The format of given lengths. *)
Record fmt_of (l : lens) fmt : Prop := {
  fo_sec : sec_offset fmt = 0 ∧ sec_mask fmt = field_mask (l_sec l) 0;
  fo_pl : pln_offset fmt = l_sec l ∧ pln_mask fmt = field_mask (l_pl l) (l_sec l);
  fo_ch : ch_offset fmt = l_sec l + l_pl l ∧ ch_mask fmt = field_mask (l_ch l) (l_sec l + l_pl l);
  fo_lun : lun_offset fmt = l_sec l + l_pl l + l_ch l ∧ lun_mask fmt = field_mask (l_lun l) (l_sec l + l_pl l + l_ch l);
  fo_pg : pg_offset fmt = l_sec l + l_pl l + l_ch l + l_lun l ∧
          pg_mask fmt = field_mask (l_pg l) (l_sec l + l_pl l + l_ch l + l_lun l);
  fo_blk : blk_offset fmt = l_sec l + l_pl l + l_ch l + l_lun l + l_pg l ∧
           blk_mask fmt = field_mask (l_blk l) (l_sec l + l_pl l + l_ch l + l_lun l + l_pg l)
}.

(** An address whose fields have these lengths. *)
Definition dev_in (l : lens) (p : ppa_addr) : Prop :=
  match p with
  | Dev blk pg lun ch pl sec =>
      0 ≤ blk < 2 ^ l_blk l ∧ 0 ≤ pg < 2 ^ l_pg l ∧ 0 ≤ lun < 2 ^ l_lun l ∧ 0 ≤ ch < 2 ^ l_ch l ∧
      0 ≤ pl < 2 ^ l_pl l ∧ 0 ≤ sec < 2 ^ l_sec l
  | _ => False
  end.

(** A number in mixed base. *)
Definition pack (l : lens) (blk pg lun ch pl sec : Z) : Z :=
  sec + 2 ^ l_sec l * (pl + 2 ^ l_pl l * (ch + 2 ^ l_ch l * (lun + 2 ^ l_lun l * (pg + 2 ^ l_pg l * blk)))).

Lemma field_eq a len off : 0 ≤ len → 0 ≤ off → len + off ≤ 64 → field a (field_mask len off) off = (a / 2 ^ off) mod 2 ^ len.
Proof.
  intros Hl Ho Hlo. unfold field, field_mask. pose proof (pow2_pos len Hl). pose proof (pow2_pos off Ho).
  destruct (decide (len = 64)) as [->|].
  - replace off with 0 by lia. rewrite Z.shiftl_0_r, Z.shiftr_0_r, Z.shiftl_1_l, Z.div_1_r.
    change (u64 (u64 (2 ^ 64) - 1)) with (2 ^ 64 - 1). by rewrite land_mask.
  - assert (2 ^ len ≤ 2 ^ 63) by (apply Z.pow_le_mono_r; lia). assert (2 ^ (len + off) ≤ 2 ^ 64) by (apply Z.pow_le_mono_r; lia).
    rewrite Z.shiftl_1_l, (u64_small (2 ^ len)) by lia. rewrite Z.pow_add_r in * by lia.
    rewrite u64_small by (rewrite Z.shiftl_mul_pow2 by lia; nia).
    rewrite Z.shiftr_land, Z.shiftr_shiftl_l, Z.sub_diag, Z.shiftl_0_r by lia.
    by rewrite land_mask, Z.shiftr_div_pow2.
Qed.

Lemma lor_shiftl x y k : 0 ≤ k → 0 ≤ x < 2 ^ k → Z.lor (Z.shiftl y k) x = x + 2 ^ k * y.
Proof.
  intros Hk Hx. rewrite <- Z.add_nocarry_lor; [rewrite Z.shiftl_mul_pow2 by lia; lia|].
  apply Z.bits_inj'. intros j Hj. rewrite Z.land_spec, Z.bits_0. destruct (decide (j < k)).
  - by rewrite Z.shiftl_spec_low.
  - rewrite <- (Z.mod_small x (2 ^ k)) by done. rewrite Z.mod_pow2_bits_high by lia. apply andb_false_r.
Qed.

Lemma horner_div k lo h : 0 ≤ k → 0 ≤ lo < 2 ^ k → (lo + 2 ^ k * h) / 2 ^ k = h.
Proof. intros. rewrite Z.mul_comm, Z.div_add by lia. rewrite Z.div_small by lia. lia. Qed.

Lemma horner_mod k lo h : 0 ≤ k → 0 ≤ lo < 2 ^ k → (lo + 2 ^ k * h) mod 2 ^ k = lo.
Proof. intros. rewrite Z.mul_comm, Z_mod_plus_full. by apply Z.mod_small. Qed.

Lemma div_pow_add a i j : 0 ≤ i → 0 ≤ j → a / 2 ^ (i + j) = a / 2 ^ i / 2 ^ j.
Proof.
  intros. rewrite Z.pow_add_r, Z.div_div by (try apply pow2_pos; try (apply Z.pow_nonzero); lia). done.
Qed.

Lemma horner_range k lo h n : 0 ≤ k → 0 ≤ n → 0 ≤ lo < 2 ^ k → 0 ≤ h < 2 ^ n → 0 ≤ lo + 2 ^ k * h < 2 ^ (k + n).
Proof. intros. rewrite Z.pow_add_r by lia. nia. Qed.

Lemma lor_step h lo k o : 0 ≤ k → 0 ≤ o → 0 ≤ lo < 2 ^ k → Z.lor (Z.shiftl h (k + o)) (Z.shiftl lo o) = Z.shiftl (lo + 2 ^ k * h) o.
Proof. intros. rewrite <- Z.shiftl_shiftl, <- Z.shiftl_lor, lor_shiftl by lia. done. Qed.

Lemma shiftl_range x n o : 0 ≤ n → 0 ≤ o → 0 ≤ x < 2 ^ n → 0 ≤ Z.shiftl x o < 2 ^ (n + o).
Proof. intros. rewrite Z.shiftl_mul_pow2, Z.pow_add_r by lia. pose proof (pow2_pos o). nia. Qed.

Lemma shiftl_u64 x n o : 0 ≤ n → 0 ≤ o → n + o ≤ 64 → 0 ≤ x < 2 ^ n → u64 (Z.shiftl x o) = Z.shiftl x o.
Proof.
  intros Hn Ho Hno Hx. pose proof (shiftl_range x n o Hn Ho Hx). apply u64_small.
  assert (2 ^ (n + o) ≤ 2 ^ 64) by (apply Z.pow_le_mono_r; lia). lia.
Qed.

Section packing.
Context (l : lens) (fmt : pblk_addr_format) (Hf : fmt_of l fmt).

Lemma line_addr_pack blk pg lun ch pl sec :
  lens_ok 64 l → dev_in l (Dev blk pg lun ch pl sec) →
  pblk_dev_ppa_to_line_addr fmt (Dev blk pg lun ch pl sec) = Some (pack l 0 pg lun ch pl sec).
Proof.
  intros (H1 & H2 & H3 & H4 & H5 & H6 & Hn) (_ & Hpg & Hlun & Hch & Hpl & Hsec).
  unfold pblk_dev_ppa_to_line_addr, pack. destruct Hf as [[-> _] [-> _] [-> _] [-> _] [-> _] _]. f_equal.
  rewrite (shiftl_u64 pg (l_pg l)), (shiftl_u64 lun (l_lun l)), (shiftl_u64 ch (l_ch l)), (shiftl_u64 pl (l_pl l)),
    (shiftl_u64 sec (l_sec l)), Z.lor_0_l by lia.
  replace (l_sec l + l_pl l + l_ch l + l_lun l) with (l_lun l + (l_sec l + l_pl l + l_ch l)) by lia. rewrite lor_step by lia.
  replace (l_sec l + l_pl l + l_ch l) with (l_ch l + (l_sec l + l_pl l)) by lia. rewrite lor_step by lia.
  replace (l_sec l + l_pl l) with (l_pl l + l_sec l) by lia. rewrite lor_step by lia.
  rewrite <- (Z.add_0_r (l_sec l)) at 1. rewrite lor_step, Z.shiftl_0_r by lia. by rewrite Z.mul_0_r, Z.add_0_r.
Qed.

(** The parts of a packed number. *)
Lemma pack_fields n blk pg lun ch pl sec :
  lens_ok n l → n ≤ 64 → dev_in l (Dev blk pg lun ch pl sec) →
  let a := pack l blk pg lun ch pl sec in
  field a (sec_mask fmt) (sec_offset fmt) = sec ∧ field a (pln_mask fmt) (pln_offset fmt) = pl ∧
  field a (ch_mask fmt) (ch_offset fmt) = ch ∧ field a (lun_mask fmt) (lun_offset fmt) = lun ∧
  field a (pg_mask fmt) (pg_offset fmt) = pg ∧ field a (blk_mask fmt) (blk_offset fmt) = blk.
Proof.
  intros (H1 & H2 & H3 & H4 & H5 & H6 & Hn) Hn' (Hblk & Hpg & Hlun & Hch & Hpl & Hsec) a.
  destruct Hf as [[-> ->] [-> ->] [-> ->] [-> ->] [-> ->] [-> ->]]. rewrite !field_eq by lia.
  rewrite !div_pow_add by lia. unfold a, pack. rewrite Z.pow_0_r, Z.div_1_r, !horner_div by lia.
  rewrite !horner_mod by lia. by rewrite (Z.mod_small blk).
Qed.

Lemma pack_of a : lens_ok 64 l → 0 ≤ a < 2 ^ blk_offset fmt →
  ∃ pg lun ch pl sec, a = pack l 0 pg lun ch pl sec ∧ dev_in l (Dev 0 pg lun ch pl sec).
Proof.
  intros (H1 & H2 & H3 & H4 & H5 & H6 & Hn) Ha. destruct Hf as [_ _ _ _ _ [E _]]. rewrite E in Ha. clear E.
  assert (Hd : ∀ x k n, 0 ≤ k → 0 ≤ n → 0 ≤ x < 2 ^ (k + n) → x = x mod 2 ^ k + 2 ^ k * (x / 2 ^ k) ∧ 0 ≤ x mod 2 ^ k < 2 ^ k ∧ 0 ≤ x / 2 ^ k < 2 ^ n).
  { intros x k n Hk Hn0 Hx. pose proof (pow2_pos k Hk). pose proof (Z.div_mod x (2 ^ k)). pose proof (Z.mod_pos_bound x (2 ^ k)).
    rewrite Z.pow_add_r in Hx by lia. split; [lia|]. split; [lia|]. split; [apply Z.div_pos; lia|]. apply Z.div_lt_upper_bound; lia. }
  destruct (Hd a (l_sec l) (l_pl l + (l_ch l + (l_lun l + l_pg l)))) as (E1 & R1 & Q1); [lia|lia|by rewrite !Z.add_assoc|].
  destruct (Hd _ (l_pl l) (l_ch l + (l_lun l + l_pg l)) H2 ltac:(lia) Q1) as (E2 & R2 & Q2).
  destruct (Hd _ (l_ch l) (l_lun l + l_pg l) H3 ltac:(lia) Q2) as (E3 & R3 & Q3).
  destruct (Hd _ (l_lun l) (l_pg l) H4 H5 Q3) as (E4 & R4 & Q4).
  pose proof (pow2_pos (l_blk l) H6). eexists _, _, _, _, _.
  split; [|exact (conj (conj (Z.le_refl 0) H) (conj Q4 (conj R4 (conj R3 (conj R2 R1)))))].
  unfold pack. rewrite Z.mul_0_r, Z.add_0_r. by rewrite <- E4, <- E3, <- E2, <- E1.
Qed.
End packing.

(** ** The format of a geometry *)

(** The lengths of the fields for a geometry, and that they fit [n] bits. *)
Definition geo_lens (get_count_order : Z → Z) geo : lens :=
  {| l_sec := sect_len geo; l_pl := pln_len geo; l_ch := get_count_order (nr_chnls geo);
     l_lun := get_count_order (luns_per_chnl geo); l_pg := pg_len geo; l_blk := blk_len geo |}.

Record ppaf_ok (get_count_order : Z → Z) (n : Z) geo : Prop := {
  po_pos : 0 < nr_chnls geo ∧ 0 < luns_per_chnl geo;
  po_lens : 0 ≤ sect_len geo ∧ 0 ≤ pln_len geo ∧ 0 ≤ pg_len geo ∧ 0 ≤ blk_len geo;
  po_bits : sect_len geo + pln_len geo + get_count_order (nr_chnls geo) + get_count_order (luns_per_chnl geo)
            + pg_len geo + blk_len geo ≤ n
}.

Lemma shiftl_1_pos k m : Z.shiftl 1 k = m → 0 < m → 0 ≤ k ∧ m = 2 ^ k.
Proof.
  intros H Hm. destruct (Z.le_gt_cases 0 k) as [Hk|Hk].
  - split; [done|]. by rewrite <- H, Z.shiftl_1_l.
  - rewrite Z.shiftl_div_pow2 in H by lia. assert (2 ^ 1 ≤ 2 ^ (- k)) by (apply Z.pow_le_mono_r; lia).
    rewrite Z.div_small in H by lia. lia.
Qed.

Lemma u8_small z : 0 ≤ z < 2 ^ 8 → u8 z = z.
Proof. apply Z.mod_small. Qed.

Lemma set_ppaf_fmt get_count_order geo fmt bits n :
  pblk_set_ppaf get_count_order geo = Some (fmt, bits) → ppaf_ok get_count_order n geo → n ≤ 64 →
  let l := geo_lens get_count_order geo in
  fmt_of l fmt ∧ lens_ok n l ∧ nr_chnls geo = 2 ^ l_ch l ∧ luns_per_chnl geo = 2 ^ l_lun l.
Proof.
  intros H [[P1 P2] (L1 & L2 & L3 & L4) Hb] Hn l. unfold pblk_set_ppaf in H.
  apply bind_Some in H as (? & [E1 _]%ensure_Some & H). apply bind_Some in H as (? & [E2 _]%ensure_Some & H). bools.
  destruct (shiftl_1_pos _ _ E1 P1) as [K1 E3]. destruct (shiftl_1_pos _ _ E2 P2) as [K2 E4].
  split; [|split; [|by split]]; [|unfold lens_ok; simpl; lia].
  rewrite !u8_small in H by (rewrite ?u8_small; rewrite ?u8_small; lia). injection H as <- <-. by split.
Qed.

Lemma set_ppaf_bits get_count_order geo fmt bits n :
  pblk_set_ppaf get_count_order geo = Some (fmt, bits) → ppaf_ok get_count_order 64 geo → bits ≤ n →
  lens_ok n (geo_lens get_count_order geo).
Proof.
  intros H Hg Hb. destruct (set_ppaf_fmt _ _ _ _ _ H Hg) as ([_ _ _ _ _ [E _]] & (? & ? & ? & ? & ? & ? & _) & _); [lia|].
  assert (bits = blk_offset fmt + blk_len geo).
  { unfold pblk_set_ppaf in H. apply bind_Some in H as (? & _ & H). apply bind_Some in H as (? & _ & H). by injection H as <- <-. }
  unfold lens_ok. simpl in *. lia.
Qed.

Lemma shiftl_u32 x n o : 0 ≤ n → 0 ≤ o → n + o ≤ 32 → 0 ≤ x < 2 ^ n → u32 (Z.shiftl x o) = Z.shiftl x o.
Proof.
  intros Hn Ho Hno Hx. pose proof (shiftl_range x n o Hn Ho Hx). apply u32_small.
  assert (2 ^ (n + o) ≤ 2 ^ 32) by (apply Z.pow_le_mono_r; lia). lia.
Qed.

Lemma pack_range l n blk pg lun ch pl sec :
  lens_ok n l → dev_in l (Dev blk pg lun ch pl sec) → 0 ≤ pack l blk pg lun ch pl sec < 2 ^ n.
Proof.
  intros (H1 & H2 & H3 & H4 & H5 & H6 & Hn) (Hblk & Hpg & Hlun & Hch & Hpl & Hsec).
  pose proof (horner_range (l_pg l) pg blk (l_blk l) H5 H6 Hpg Hblk) as R1.
  pose proof (horner_range (l_lun l) lun _ (l_pg l + l_blk l) H4 ltac:(lia) Hlun R1) as R2.
  pose proof (horner_range (l_ch l) ch _ (l_lun l + (l_pg l + l_blk l)) H3 ltac:(lia) Hch R2) as R3.
  pose proof (horner_range (l_pl l) pl _ (l_ch l + (l_lun l + (l_pg l + l_blk l))) H2 ltac:(lia) Hpl R3) as R4.
  pose proof (horner_range (l_sec l) sec _ (l_pl l + (l_ch l + (l_lun l + (l_pg l + l_blk l)))) H1 ltac:(lia) Hsec R4) as R5.
  pose proof (Z.pow_le_mono_r 2 (l_sec l + (l_pl l + (l_ch l + (l_lun l + (l_pg l + l_blk l))))) n). unfold pack. lia.
Qed.

Lemma ppa32_pack l fmt blk pg lun ch pl sec :
  fmt_of l fmt → lens_ok 32 l → dev_in l (Dev blk pg lun ch pl sec) →
  pblk_ppa64_to_ppa32 fmt (Dev blk pg lun ch pl sec) = pack l blk pg lun ch pl sec.
Proof.
  intros Hf (H1 & H2 & H3 & H4 & H5 & H6 & Hn) (Hblk & Hpg & Hlun & Hch & Hpl & Hsec).
  unfold pblk_ppa64_to_ppa32, pack. destruct Hf as [[-> _] [-> _] [-> _] [-> _] [-> _] [-> _]].
  pose proof (horner_range (l_pg l) pg blk (l_blk l) H5 H6 Hpg Hblk) as R1.
  pose proof (horner_range (l_lun l) lun _ (l_pg l + l_blk l) H4 ltac:(lia) Hlun R1) as R2.
  pose proof (horner_range (l_ch l) ch _ (l_lun l + (l_pg l + l_blk l)) H3 ltac:(lia) Hch R2) as R3.
  pose proof (horner_range (l_pl l) pl _ (l_ch l + (l_lun l + (l_pg l + l_blk l))) H2 ltac:(lia) Hpl R3) as R4.
  pose proof (horner_range (l_sec l) sec _ (l_pl l + (l_ch l + (l_lun l + (l_pg l + l_blk l)))) H1 ltac:(lia) Hsec R4) as R5.
  rewrite Z.lor_0_l, (shiftl_u32 blk (l_blk l)) by lia.
  replace (l_sec l + l_pl l + l_ch l + l_lun l + l_pg l) with (l_pg l + (l_sec l + l_pl l + l_ch l + l_lun l)) by lia.
  rewrite lor_step by lia. erewrite shiftl_u32; [| | | |exact R1]; [|lia..].
  replace (l_sec l + l_pl l + l_ch l + l_lun l) with (l_lun l + (l_sec l + l_pl l + l_ch l)) by lia.
  rewrite lor_step by lia. erewrite shiftl_u32; [| | | |exact R2]; [|lia..].
  replace (l_sec l + l_pl l + l_ch l) with (l_ch l + (l_sec l + l_pl l)) by lia.
  rewrite lor_step by lia. erewrite shiftl_u32; [| | | |exact R3]; [|lia..].
  replace (l_sec l + l_pl l) with (l_pl l + l_sec l) by lia.
  rewrite lor_step by lia. erewrite shiftl_u32; [| | | |exact R4]; [|lia..].
  rewrite <- (Z.add_0_r (l_sec l)) at 1. rewrite lor_step by lia.
  erewrite shiftl_u32; [| | | |exact R5]; [|lia..]. apply Z.shiftl_0_r.
Qed.

Lemma ppa32_roundtrip l fmt blk pg lun ch pl sec :
  fmt_of l fmt → lens_ok 31 l → dev_in l (Dev blk pg lun ch pl sec) →
  pblk_ppa32_to_ppa64 fmt (pblk_ppa64_to_ppa32 fmt (Dev blk pg lun ch pl sec)) = Dev blk pg lun ch pl sec.
Proof.
  intros Hf Hl Hp. rewrite (ppa32_pack l) by (done || (unfold lens_ok in *; lia)).
  pose proof (pack_range l 31 _ _ _ _ _ _ Hl Hp) as Hr. unfold pblk_ppa32_to_ppa64.
  destruct (Z.eqb_spec (pack l blk pg lun ch pl sec) (2 ^ 32 - 1)); [lia|].
  assert (Hb : has (pack l blk pg lun ch pl sec) (2 ^ 31) = false).
  { rewrite <- Z.shiftl_1_l, has_bit by lia. rewrite <- (Z.mod_small _ _ Hr). apply Z.mod_pow2_bits_high. lia. }
  rewrite Hb. destruct (pack_fields l fmt Hf 31 blk pg lun ch pl sec) as (E1 & E2 & E3 & E4 & E5 & E6); [done|lia|done|]. congruence.
Qed.


(** A drive of 8 channels with 4 LUNs each, 2 planes, 256 pages of 4 sectors and
    1024 blocks. *)
Definition geo_sample : nvm_geo :=
  {| nr_chnls := 8; nr_luns := 32; luns_per_chnl := 4; blks_per_lun := 1024; geo_sec_per_blk := 2048; geo_sec_per_pl := 8;
     geo_sec_per_lun := 2097152; geo_sec_size := 4096; plane_mode := 2; sect_len := 2; pln_len := 1; pg_len := 8; blk_len := 10 |}.

