(* ===== verification/PblkLine.v ===== *)
(** * Lines of pblk and their garbage collection
      (src/mstream-pblk/pblk-core.c, pblk-gc.c, pblk-init.c, pblk-map.c, pblk-write.c)

    A line is one block of every LUN.  A free line is taken by a stream
    ([pblk_line_get]), set up ([pblk_line_init_bb]), filled page by page
    ([pblk_map_page_data]), completed with its metadata ([pblk_submit_meta_io]) and
    closed ([pblk_line_close]); overwritten sectors are counted out of it
    ([__pblk_map_invalidate]) until the collector ([pblk_gc_run]) reclaims it.

    A line is linked into at most one list through its only list entry, [ln_link].
    The references that hold a line ([ref]) are its own, one per sector of the write
    buffers that is mapped to it and one per request of the collector; the first
    kind is in [wb], the list of the sectors whose map update is still to come, the
    second in [gc_rqs].

    The allocator, the drive and the contents of metadata read back are arguments
    ([line_env]).  [None] is code that stops, follows a null pointer, leaves a bitmap,
    damages a list, or has to wait for another thread. *)

From stdpp Require Import functions.
From S2P Require Import Prelude Bitmap RateLimiter.

(** ** Data (pblk.h) *)

Inductive line_state :=
  | PBLK_LINESTATE_FREE | PBLK_LINESTATE_OPEN | PBLK_LINESTATE_CLOSED
  | PBLK_LINESTATE_GC | PBLK_LINESTATE_BAD | PBLK_LINESTATE_CORRUPT.

Inductive line_gc :=
  | PBLK_LINEGC_NONE | PBLK_LINEGC_EMPTY | PBLK_LINEGC_LOW
  | PBLK_LINEGC_MID | PBLK_LINEGC_HIGH | PBLK_LINEGC_FULL.

Inductive line_type := PBLK_LINETYPE_FREE | PBLK_LINETYPE_LOG | PBLK_LINETYPE_DATA.

Inductive pblk_run_state :=
  | PBLK_STATE_RUNNING | PBLK_STATE_STOPPING | PBLK_STATE_RECOVERING | PBLK_STATE_STOPPED.

(** The lists a line can be linked into. *)
Inductive line_list :=
  | free_list | corrupt_list | bad_list
  | gc_full_list | gc_high_list | gc_mid_list | gc_low_list | gc_empty_list
  | emeta_list (nrb : Z) | gc_r_list.

#[global] Instance line_state_eq_dec : EqDecision line_state.
Proof. solve_decision. Defined.
#[global] Instance line_gc_eq_dec : EqDecision line_gc.
Proof. solve_decision. Defined.
#[global] Instance line_type_eq_dec : EqDecision line_type.
Proof. solve_decision. Defined.
#[global] Instance pblk_run_state_eq_dec : EqDecision pblk_run_state.
Proof. solve_decision. Defined.
#[global] Instance line_list_eq_dec : EqDecision line_list.
Proof. solve_decision. Defined.

Definition EMPTY_ENTRY : Z := 2 ^ 32 - 1.
Definition PBLK_DATA_LINES : Z := 18.
Definition DATA_START_STREAM : Z := 4.
Definition PBLK_GC_L_QD : Z := 4.
Definition PBLK_GC_NR_LISTS : Z := 3.

Definition NONE_MAP : Z := 0.
Definition BLOCK_MAP : Z := 1.
Definition SECTOR_MAP : Z := 2.
Definition PAGE_MAP : Z := 3.

(** What all lines share: [pblk_line_meta], the geometry, the write size. *)
Record pblk_line_meta := {
  sec_per_line : Z;
  blk_per_line : Z;
  sec_per_blk : Z;
  sec_per_pl : Z;
  sec_size : Z;
  smeta_sec : Z;
  emeta_sec : Z;      (* emeta_sec[0] *)
  emeta_len : Z;      (* emeta_len[0] *)
  emeta_bb : Z;
  min_blk_line : Z;
  high_thrs : Z;
  mid_thrs : Z;
  min_write_pgs : Z;
  max_write_pgs : Z
}.

(** [ln_meta] is the pair of pointers [smeta] and [emeta], as the index of the
    metadata buffers they point to. *)
Record pblk_line := {
  ln_state : line_state;
  ln_type : line_type;
  gc_group : line_gc;
  ln_link : option line_list;
  ln_meta : option Z;
  meta_line : Z;
  seq_nr : Z;
  pstream : Z;
  smeta_ssec : Z;
  emeta_ssec : Z;
  sec_in_line : Z;
  blk_in_line : Z;
  blk_bitmap : list bool;
  erase_bitmap : list bool;
  map_bitmap : option (list bool);
  invalid_bitmap : option (list bool);
  left_eblks : Z;
  left_seblks : Z;
  left_msecs : Z;
  cur_sec : Z;
  nr_valid_lbas : Z;
  vsc : Z;
  ref : Z
}.

#[global] Instance pblk_line_fields : Fields pblk_line := λ r,
  Build_pblk_line (ln_state r) (ln_type r) (gc_group r) (ln_link r) (ln_meta r) (meta_line r)
    (seq_nr r) (pstream r) (smeta_ssec r) (emeta_ssec r) (sec_in_line r) (blk_in_line r)
    (blk_bitmap r) (erase_bitmap r) (map_bitmap r) (invalid_bitmap r) (left_eblks r)
    (left_seblks r) (left_msecs r) (cur_sec r) (nr_valid_lbas r) (vsc r) (ref r).

(** The line management of the device.  [gc_reader_wq] holds the lines whose
    preparation is queued; [warns] counts the warnings given for a broken
    assumption, [double_invalidates] those for an address invalidated twice. *)
Record pblk := {
  lines : list pblk_line;
  lists : line_list → list Z;
  nr_free_lines : Z;
  data_line : list (option Z);
  data_next : list (option Z);
  meta_bitmap : list bool;
  emeta_mem : list Z;
  emeta_sync : list Z;
  d_seq_nr : Z;
  gc_target : Z;
  map_type : list Z;
  invalid_line : list Z;
  nr_erase : list Z;
  inflight_gc : Z;
  gc_reader_wq : list Z;
  gc_rqs : list (Z * list Z);
  wb : list Z;
  pblk_state : pblk_run_state;
  rl : pblk_rl;
  rb_rl : list pblk_rl_per_rb;
  gc : pblk_gc;
  warns : nat;
  double_invalidates : nat
}.

#[global] Instance pblk_fields : Fields pblk := λ r,
  Build_pblk (lines r) (lists r) (nr_free_lines r) (data_line r) (data_next r) (meta_bitmap r)
    (emeta_mem r) (emeta_sync r) (d_seq_nr r) (gc_target r) (map_type r) (invalid_line r)
    (nr_erase r) (inflight_gc r) (gc_reader_wq r) (gc_rqs r) (wb r) (pblk_state r) (rl r)
    (rb_rl r) (gc r) (warns r) (double_invalidates r).

(** How the erasure of one block ends: done, failed on the drive, not submitted. *)
Inductive erase_result := EraseDone | EraseFailed | EraseNotSubmitted.

(** The environment: whether the two bitmaps of a line can be allocated, what the
    second one then contains, how erasures and the write of the first metadata end. *)
Record line_env := {
  map_alloc : Z → bool;
  invalid_alloc : Z → bool;
  junk : Z → list bool;
  erase : Z → Z → erase_result;
  smeta_fails : Z → bool
}.

(** ** Lists (the kernel's list.h) *)

Definition upd_line (st : pblk) (i : Z) (f : pblk_line → pblk_line) : option pblk :=
  ln ← rd (lines st) i; ls ← wr (lines st) i (f ln); Some (st <| lines := ls |>).

Definition warn_if (b : bool) (st : pblk) : pblk := if b then st <| warns ::= S |> else st.

Definition list_add_tail (st : pblk) (i : Z) (h : line_list) : option pblk :=
  ln ← rd (lines st) i;
  _ ← ensure (bool_decide (ln_link ln = None));
  st ← upd_line st i (λ ln, ln <| ln_link := Some h |>);
  Some (st <| lists := <[h := lists st h ++ [i]]> (lists st) |>).

Definition list_add (st : pblk) (i : Z) (h : line_list) : option pblk :=
  ln ← rd (lines st) i;
  _ ← ensure (bool_decide (ln_link ln = None));
  st ← upd_line st i (λ ln, ln <| ln_link := Some h |>);
  Some (st <| lists := <[h := i :: lists st h]> (lists st) |>).

(** A deleted entry is poisoned, so that it cannot be deleted again. *)
Definition list_del (st : pblk) (i : Z) : option pblk :=
  ln ← rd (lines st) i;
  h ← ln_link ln;
  st ← upd_line st i (λ ln, ln <| ln_link := None |>);
  Some (st <| lists := <[h := filter (λ j, j ≠ i) (lists st h)]> (lists st) |>).

Definition list_move_tail (st : pblk) (i : Z) (h : line_list) : option pblk :=
  st ← list_del st i; list_add_tail st i h.

Definition list_empty (st : pblk) (h : line_list) : bool :=
  match lists st h with [] => true | _ => false end.

Section lines.
Context (lm : pblk_line_meta).

(** ** Valid sectors (pblk-core.c) *)

(** The list a closed line belongs to by its number of valid sectors, if it is not
    the one of its current group. *)
Definition pblk_line_gc_list (ln : pblk_line) : pblk_line * option line_list :=
  let v := s32 (vsc ln) in
  let enter g h :=
    if bool_decide (gc_group ln = g) then (ln, None) else (ln <| gc_group := g |>, Some h) in
  if v =? 0 then enter PBLK_LINEGC_FULL gc_full_list
  else if u32 v <? high_thrs lm then enter PBLK_LINEGC_HIGH gc_high_list
  else if u32 v <? mid_thrs lm then enter PBLK_LINEGC_MID gc_mid_list
  else if u32 v <? sec_in_line ln then enter PBLK_LINEGC_LOW gc_low_list
  else if u32 v =? sec_in_line ln then enter PBLK_LINEGC_EMPTY gc_empty_list
  else (ln <| ln_state := PBLK_LINESTATE_CORRUPT |> <| gc_group := PBLK_LINEGC_NONE |>,
        Some corrupt_list).

(** Neither a line being reclaimed nor a free one can lose a sector. *)
Definition gone (ln : pblk_line) : bool :=
  bool_decide (ln_state ln = PBLK_LINESTATE_GC) || bool_decide (ln_state ln = PBLK_LINESTATE_FREE).

Definition __pblk_map_invalidate (st : pblk) (i paddr : Z) : option pblk :=
  ln ← rd (lines st) i;
  if gone ln then Some st else
  b ← invalid_bitmap ln;
  '(old, b) ← test_and_set_bit b paddr;
  if (old : bool) then Some (st <| double_invalidates ::= S |>) else
  let ln := ln <| invalid_bitmap := Some b |> <| vsc := u32 (vsc ln - 1) |> in
  let '(ln, move_list) :=
    if bool_decide (ln_state ln = PBLK_LINESTATE_CLOSED) then pblk_line_gc_list ln
    else (ln, None) in
  st ← upd_line st i (λ _, ln);
  match move_list with
  | None => Some st
  | Some h => if gone ln then Some st else list_move_tail st i h
  end.

(** ** Sectors to write *)

(** The loop over the sectors of a page; [warned] counts the ones already taken. *)
Fixpoint set_secs (n : nat) (m : list bool) (cur : Z) (warned : nat) : option (list bool * nat) :=
  match n with
  | O => Some (m, warned)
  | S n => '(old, m) ← test_and_set_bit m cur;
           set_secs n m (cur + 1) (if (old : bool) then S warned else warned)
  end.

Definition __pblk_alloc_page (st : pblk) (i nr_secs : Z) : option (pblk * Z) :=
  ln ← rd (lines st) i;
  m ← map_bitmap ln;
  let out := sec_per_line lm <? u32 (cur_sec ln + nr_secs) in
  let nr_secs := if out then s32 (sec_per_line lm - cur_sec ln) else nr_secs in
  let addr := find_next_zero_bit m (sec_per_line lm) (cur_sec ln) in
  '(m, warned) ← set_secs (Z.to_nat nr_secs) m addr 0;
  let ln := ln <| map_bitmap := Some m |> <| cur_sec := u32 (addr + Z.max 0 nr_secs) |> in
  st ← upd_line (warn_if out st) i (λ _, ln);
  Some (st <| warns ::= Nat.add warned |>, addr).

Definition pblk_alloc_page (st : pblk) (i nr_secs : Z) : option (pblk * Z) :=
  '(st, addr) ← __pblk_alloc_page st i nr_secs;
  ln ← rd (lines st) i;
  let left := s32 (left_msecs ln - nr_secs) in
  st ← upd_line st i (λ ln, ln <| left_msecs := left |>);
  Some (warn_if (left <? 0) st, addr).

(** The loop of [pblk_dealloc_page], downwards from [cur]. *)
Fixpoint clear_secs (n : nat) (m : list bool) (cur : Z) (warned : nat) : option (list bool * nat) :=
  match n with
  | O => Some (m, warned)
  | S n => '(old, m) ← test_and_clear_bit m cur;
           clear_secs n m (u32 (cur - 1)) (if (old : bool) then warned else S warned)
  end.

Definition pblk_dealloc_page (st : pblk) (i nr_secs : Z) : option pblk :=
  ln ← rd (lines st) i;
  m ← map_bitmap ln;
  let addr := find_next_zero_bit m (sec_per_line lm) (cur_sec ln) in
  let cur := u32 (addr - nr_secs) in
  '(m, warned) ← clear_secs (Z.to_nat nr_secs) m cur 0;
  st ← upd_line st i (λ ln, ln <| map_bitmap := Some m |>
                               <| cur_sec := u32 (cur - Z.max 0 nr_secs) |>);
  Some (st <| warns ::= Nat.add warned |>).

Definition pblk_lookup_page (st : pblk) (i : Z) : option Z :=
  ln ← rd (lines st) i; m ← map_bitmap ln;
  Some (find_next_zero_bit m (sec_per_line lm) (cur_sec ln)).

Definition pblk_line_is_full (ln : pblk_line) : bool := left_msecs ln =? 0.

(** ** Returning lines *)

Definition pblk_line_free (st : pblk) (i : Z) : option pblk :=
  upd_line st i (λ ln, ln <| vsc := EMPTY_ENTRY |> <| map_bitmap := None |>
                          <| invalid_bitmap := None |> <| ln_meta := None |>).

(** Called by [kref_put] when the last reference is dropped. *)
Definition pblk_line_put (st : pblk) (i : Z) : option pblk :=
  ln ← rd (lines st) i;
  n ← rd (nr_erase st) (pstream ln);
  ne ← wr (nr_erase st) (pstream ln) (n + 1);
  let st := st <| nr_erase := ne |> in
  let st := warn_if (negb (bool_decide (ln_state ln = PBLK_LINESTATE_GC))) st in
  st ← upd_line st i (λ ln, ln <| ln_state := PBLK_LINESTATE_FREE |>
                               <| gc_group := PBLK_LINEGC_NONE |>);
  st ← pblk_line_free st i;
  st ← list_add_tail st i free_list;
  let st := st <| nr_free_lines := s32 (nr_free_lines st + 1) |> in
  '(rl', gc') ← pblk_rl_free_lines_inc (rl st) (gc st) (blk_in_line ln);
  Some (st <| rl := rl' |> <| gc := gc' |>).

Definition kref_get (st : pblk) (i : Z) : option pblk :=
  upd_line st i (λ ln, ln <| ref := ref ln + 1 |>).

Definition kref_put (st : pblk) (i : Z) : option pblk :=
  ln ← rd (lines st) i;
  st ← upd_line st i (λ ln, ln <| ref := ref ln - 1 |>);
  if ref ln - 1 =? 0 then pblk_line_put st i else Some st.

(** ** Taking lines *)

Inductive prepare_result := PrepareOk (st : pblk) | PrepareNoMem (st : pblk) | PrepareAgain (st : pblk).

Definition pblk_line_prepare (env : line_env) (st : pblk) (i : Z) : option prepare_result :=
  ln ← rd (lines st) i;
  if negb (map_alloc env i) then
    st ← upd_line st i (λ ln, ln <| map_bitmap := None |>); Some (PrepareNoMem st)
  else
  st ← upd_line st i (λ ln, ln <| map_bitmap :=
                                    Some (replicate (Z.to_nat (sec_per_line lm)) false) |>);
  if negb (invalid_alloc env i) then
    st ← upd_line st i (λ ln, ln <| invalid_bitmap := None |>); Some (PrepareNoMem st)
  else
  st ← upd_line st i (λ ln, ln <| invalid_bitmap := Some (junk env i) |>);
  if negb (bool_decide (ln_state ln = PBLK_LINESTATE_FREE)) then
    Some (PrepareAgain (warn_if true st))
  else
  st ← upd_line st i (λ ln, ln <| ln_state := PBLK_LINESTATE_OPEN |>
                               <| left_eblks := blk_in_line ln |>
                               <| left_seblks := blk_in_line ln |>
                               <| erase_bitmap := blk_bitmap ln |> <| ref := 1 |>);
  Some (PrepareOk st).

(** The loop of [pblk_line_get]: every turn takes the first free line, so that the
    number of free lines and one more is enough fuel. *)
Fixpoint line_get_loop (fuel : nat) (env : line_env) (st : pblk) : option (pblk * option Z) :=
  match fuel with
  | O => None
  | S fuel =>
      match lists st free_list with
      | [] => Some (st, None)
      | i :: _ =>
          st ← list_del st i;
          let st := st <| nr_free_lines := s32 (nr_free_lines st - 1) |> in
          ln ← rd (lines st) i;
          if blk_per_line lm <=? find_first_zero_bit (blk_bitmap ln) (blk_per_line lm) then
            st ← upd_line st i (λ ln, ln <| ln_state := PBLK_LINESTATE_BAD |>);
            st ← list_add_tail st i bad_list;
            line_get_loop fuel env st
          else
          r ← pblk_line_prepare env st i;
          match r with
          | PrepareOk st => Some (st, Some i)
          | PrepareAgain st => st ← list_add st i corrupt_list; line_get_loop fuel env st
          | PrepareNoMem st =>
              st ← list_add st i free_list;
              Some (st <| nr_free_lines := s32 (nr_free_lines st + 1) |>, None)
          end
      end
  end.

Definition pblk_line_get (env : line_env) (st : pblk) : option (pblk * option Z) :=
  line_get_loop (S (length (lists st free_list))) env st.

(** *** Erasure *)

(** [__pblk_end_io_erase] and [pblk_mark_bb]; the position of the block in the line is
    the index of its LUN, as [pblk_luns_init] stripes them. *)
Definition pblk_mark_bb (st : pblk) (i pos : Z) : option pblk :=
  ln ← rd (lines st) i;
  '(_, b) ← test_and_set_bit (blk_bitmap ln) pos;
  upd_line st i (λ ln, ln <| blk_in_line := blk_in_line ln - 1 |> <| blk_bitmap := b |>).

Definition __pblk_end_io_erase (st : pblk) (i pos : Z) (error : bool) : option pblk :=
  st ← upd_line st i (λ ln, ln <| left_seblks := left_seblks ln - 1 |>);
  if error then pblk_mark_bb st i pos else Some st.

(** The loop of [pblk_line_erase] from [bit]; every turn passes a block.  The flag
    says that the line could not be erased. *)
Fixpoint line_erase_loop (n : nat) (env : line_env) (st : pblk) (i bit : Z)
    : option (pblk * bool) :=
  match n with
  | O => Some (st, false)
  | S n =>
      ln ← rd (lines st) i;
      old ← rd (erase_bitmap ln) bit;
      if (old : bool) then line_erase_loop n env st i (bit + 1) else
      eb ← wr (erase_bitmap ln) bit true;
      st ← upd_line st i (λ ln, ln <| left_eblks := left_eblks ln - 1 |>
                                   <| erase_bitmap := eb |>);
      match erase env i bit with
      | EraseDone => st ← __pblk_end_io_erase st i bit false; line_erase_loop n env st i (bit + 1)
      | EraseFailed => st ← __pblk_end_io_erase st i bit true; line_erase_loop n env st i (bit + 1)
      | EraseNotSubmitted => st ← __pblk_end_io_erase st i bit true; Some (st, true)
      end
  end.

Definition pblk_line_erase (env : line_env) (st : pblk) (i : Z) : option (pblk * bool) :=
  line_erase_loop (Z.to_nat (blk_per_line lm)) env st i 0.

(** *** Metadata buffers *)

(** Waits while all buffers are in use. *)
Definition pblk_line_setup_metadata (st : pblk) (i : Z) : option pblk :=
  let m := find_first_zero_bit (meta_bitmap st) PBLK_DATA_LINES in
  _ ← ensure (m <? PBLK_DATA_LINES);
  mb ← wr (meta_bitmap st) m true;
  mem ← wr (emeta_mem st) m 0;
  sync ← wr (emeta_sync st) m 0;
  st ← upd_line st i (λ ln, ln <| meta_line := m |> <| ln_meta := Some m |>);
  Some (st <| meta_bitmap := mb |> <| emeta_mem := mem |> <| emeta_sync := sync |>).

(** [pblk_line_init_metadata] without the contents of the buffers: false if erasures
    left too few blocks.  The previous line is chained to the new one through its
    own buffers. *)
Definition pblk_line_init_metadata (st : pblk) (i : Z) (cur : option Z) : option (pblk * bool) :=
  ln ← rd (lines st) i;
  _ ← ln_meta ln;
  let nr_blk_line := blk_per_line lm - bitmap_weight (blk_bitmap ln) in
  if nr_blk_line <? min_blk_line lm then
    st ← upd_line st i (λ ln, ln <| ln_state := PBLK_LINESTATE_BAD |>);
    st ← list_add_tail st i bad_list;
    Some (st, false)
  else
  match cur with
  | None => Some (st, true)
  | Some c => lc ← rd (lines st) c; _ ← ln_meta lc; Some (st, true)
  end.

(** *** Bad blocks *)

(** The sectors of the first LUN ([pblk_lines_init]): [sec_per_pl] of every
    [blk_per_line * sec_per_pl]. *)
Definition bb_template : list bool :=
  (λ s, s mod (blk_per_line lm * sec_per_pl lm) <? sec_per_pl lm) <$> seqZ 0 (sec_per_line lm).

(** The first loop of [pblk_line_init_bb] over the blocks from [bit]: bad blocks are
    taken out of the map; those behind [emeta_bb] are counted. *)
Fixpoint bb_loop (blks : list bool) (bit : Z) (m : list bool) (secs nr_bb : Z)
    : list bool * Z * Z :=
  match blks with
  | [] => (m, secs, nr_bb)
  | false :: blks => bb_loop blks (bit + 1) m secs nr_bb
  | true :: blks =>
      let m := bitmap_or m (bitmap_shift_left bb_template (bit * sec_per_pl lm)) in
      bb_loop blks (bit + 1) m (u32 (secs - sec_per_blk lm))
        (if emeta_bb lm <=? bit then nr_bb + 1 else nr_bb)
  end.

(** The second loop: as many pages as the bad blocks took from the last ones are
    added before them.  Every turn goes down one page. *)
Fixpoint emeta_loop (fuel : nat) (b : list bool) (off nr_bb : Z) : option (list bool * Z) :=
  if nr_bb =? 0 then Some (b, off) else
  match fuel with
  | O => None
  | S fuel =>
      let off := u64 (off - sec_per_pl lm) in
      old ← rd b off;
      if (old : bool) then emeta_loop fuel b off nr_bb else
      b ← bitmap_set b off (sec_per_pl lm);
      emeta_loop fuel b off (nr_bb - 1)
  end.

(** [init] asks for the first metadata to be written; a failure of that write
    returns 1 as success does, with the rest of the set-up left out. *)
Definition pblk_line_init_bb (env : line_env) (st : pblk) (i : Z) (init : bool)
    : option (pblk * bool) :=
  ln ← rd (lines st) i;
  m ← map_bitmap ln;
  let '(m, secs, nr_bb) := bb_loop (take (Z.to_nat (blk_per_line lm)) (blk_bitmap ln)) 0 m
                             (sec_per_line lm) 0 in
  let off := find_first_zero_bit (blk_bitmap ln) (blk_per_line lm) * sec_per_pl lm in
  m ← bitmap_set m off (smeta_sec lm);
  let secs := u32 (secs - smeta_sec lm) in
  st ← upd_line st i (λ ln, ln <| map_bitmap := Some m |> <| sec_in_line := secs |>
                               <| smeta_ssec := off |> <| cur_sec := off + smeta_sec lm |>);
  if init && smeta_fails env i then Some (st, true) else
  _ ← invalid_bitmap ln;
  b ← bitmap_set m (sec_per_line lm - emeta_sec lm) (emeta_sec lm);
  '(b, off) ← emeta_loop (Z.to_nat (sec_per_line lm)) b (sec_per_line lm - emeta_sec lm) nr_bb;
  let secs := u32 (secs - emeta_sec lm) in
  st ← upd_line st i (λ ln, ln <| invalid_bitmap := Some b |> <| sec_in_line := secs |>
                               <| emeta_ssec := off |> <| nr_valid_lbas := 0 |>
                               <| left_msecs := s32 secs |> <| vsc := secs |>);
  if negb (u32 (sec_per_line lm - secs) =? bitmap_weight b) then
    st ← upd_line st i (λ ln, ln <| ln_state := PBLK_LINESTATE_BAD |>);
    st ← list_add_tail st i bad_list;
    Some (st, false)
  else Some (st, true).

(** *** The lines of a stream *)

(** Another line in place of line [i], whose buffers it takes over.  Every turn takes a
    free line. *)
Fixpoint line_retry_loop (fuel : nat) (env : line_env) (st : pblk) (i nrb : Z)
    : option (pblk * option Z) :=
  match fuel with
  | O => None
  | S fuel =>
      '(st, r) ← pblk_line_get env st;
      match r with
      | None => dl ← wr (data_line st) nrb None; Some (st <| data_line := dl |>, None)
      | Some j =>
          ln ← rd (lines st) i;
          st ← upd_line st j (λ lj, lj <| ln_meta := ln_meta ln |> <| meta_line := meta_line ln |>
                                       <| pstream := u8 nrb |>);
          st ← pblk_line_free st i;
          dl ← wr (data_line st) nrb (Some j);
          lj ← rd (lines st) j;
          let st := st <| data_line := dl |>
                       <| rl := pblk_rl_free_lines_dec (rl st) (blk_in_line lj) |> in
          '(st, failed) ← pblk_line_erase env st j;
          if (failed : bool) then line_retry_loop fuel env st i nrb else Some (st, Some j)
      end
  end.

Definition pblk_line_retry (env : line_env) (st : pblk) (i nrb : Z) : option (pblk * option Z) :=
  line_retry_loop (S (length (lists st free_list))) env st i nrb.

(** The loop at [retry_setup]: metadata and bad blocks, with another line when
    either refuses this one. *)
Fixpoint retry_setup (fuel : nat) (env : line_env) (st : pblk) (i nrb : Z) (cur : option Z)
    : option (pblk * option Z) :=
  match fuel with
  | O => None
  | S fuel =>
      '(st, ok) ← pblk_line_init_metadata st i cur;
      if negb ok then
        '(st, r) ← pblk_line_retry env st i nrb;
        match r with None => Some (st, None) | Some j => retry_setup fuel env st j nrb cur end
      else
      '(st, ok) ← pblk_line_init_bb env st i true;
      if negb ok then
        '(st, r) ← pblk_line_retry env st i nrb;
        match r with None => Some (st, None) | Some j => retry_setup fuel env st j nrb cur end
      else Some (st, Some i)
  end.

Definition setup_fuel (st : pblk) : nat := S (length (lists st free_list)).

Definition pblk_set_space_limit (st : pblk) (nrb : Z) : option pblk :=
  r ← rd (rb_rl st) nrb;
  rs ← wr (rb_rl st) nrb (r <| rb_space := 0 |>);
  Some (st <| rb_rl := rs |>).

Definition rl_dec (st : pblk) (i : Z) : option pblk :=
  ln ← rd (lines st) i;
  Some (st <| rl := pblk_rl_free_lines_dec (rl st) (blk_in_line ln) |>).

(** A data line gets the next sequence number. *)
Definition number_line (st : pblk) (i : Z) : option pblk :=
  st ← upd_line st i (λ ln, ln <| seq_nr := u32 (d_seq_nr st) |> <| ln_type := PBLK_LINETYPE_DATA |>);
  Some (st <| d_seq_nr := u64 (d_seq_nr st + 1) |>).

Definition pblk_line_get_first_data (env : line_env) (st : pblk) (nrb : Z)
    : option (pblk * option Z) :=
  '(st, r) ← pblk_line_get env st;
  match r with
  | None => Some (st, None)
  | Some i =>
      st ← number_line st i;
      dl ← wr (data_line st) nrb (Some i);
      st ← upd_line (st <| data_line := dl |>) i (λ ln, ln <| pstream := u8 nrb |>);
      st ← pblk_line_setup_metadata st i;
      '(st, next) ← pblk_line_get env st;
      dn ← wr (data_next st) nrb next;
      let st := st <| data_next := dn |> in
      st ← match next with
           | None => pblk_set_space_limit st nrb
           | Some j => number_line st j
           end;
      '(st, failed) ← pblk_line_erase env st i;
      '(st, r) ← (if (failed : bool) then pblk_line_retry env st i nrb else Some (st, Some i));
      match r with
      | None => Some (st, None)
      | Some i =>
          st ← rl_dec st i;
          st ← match next with None => Some st | Some j => rl_dec st j end;
          retry_setup (setup_fuel st) env st i nrb None
      end
  end.

Definition pblk_stop_writes (st : pblk) (nrb : Z) : option pblk :=
  st ← pblk_set_space_limit st nrb;
  Some (st <| pblk_state := PBLK_STATE_STOPPING |>).

(** The end of [pblk_line_replace_data]: a line to go on with later. *)
Definition prepare_next (env : line_env) (st : pblk) (nrb : Z) : option pblk :=
  '(st, next) ← pblk_line_get env st;
  dn ← wr (data_next st) nrb next;
  let st := st <| data_next := dn |> in
  match next with
  | None => pblk_stop_writes st nrb
  | Some j =>
      st ← number_line st j;
      st ← upd_line st j (λ ln, ln <| pstream := u8 nrb |>);
      rl_dec st j
  end.

(** The stream goes on with its next line.  The loop at [retry_erase] erases what
    is left; blocks whose erasure is under way have to be waited for. *)
Definition pblk_line_replace_data (env : line_env) (st : pblk) (nrb : Z) : option pblk :=
  cur ← rd (data_line st) nrb;
  new ← rd (data_next st) nrb;
  match new with
  | None => Some st
  | Some new =>
      dl ← wr (data_line st) nrb (Some new);
      let st := st <| data_line := dl |> in
      if negb (bool_decide (pblk_state st = PBLK_STATE_RUNNING)) then
        dl ← wr (data_line st) nrb None;
        dn ← wr (data_next st) nrb None;
        Some (st <| data_line := dl |> <| data_next := dn |>)
      else
      st ← pblk_line_setup_metadata st new;
      ln ← rd (lines st) new;
      '(st, failed) ← (if nz (left_seblks ln) && nz (left_eblks ln)
                        then pblk_line_erase env st new else Some (st, false));
      if (failed : bool) then Some st else
      ln ← rd (lines st) new;
      _ ← ensure (negb (nz (left_seblks ln)));
      '(st, r) ← retry_setup (setup_fuel st) env st new nrb cur;
      match r with
      | None => Some st
      | Some _ => prepare_next env st nrb
      end
  end.

(** ** Closing lines *)

Definition pblk_line_close (st : pblk) (i : Z) : option pblk :=
  ln ← rd (lines st) i;
  '(old, mb) ← test_and_clear_bit (meta_bitmap st) (meta_line ln);
  let st := warn_if (negb old) (st <| meta_bitmap := mb |>) in
  let st := warn_if (negb (bool_decide (ln_state ln = PBLK_LINESTATE_OPEN))) st in
  mt ← rd (map_type st) (pstream ln);
  let st := if negb (mt =? BLOCK_MAP) then st <| gc_target := s32 (gc_target st + 1) |> else st in
  let '(ln, move_list) := pblk_line_gc_list (ln <| ln_state := PBLK_LINESTATE_CLOSED |>) in
  st ← upd_line st i (λ _, ln);
  h ← move_list;
  st ← list_add_tail st i h;
  st ← upd_line st i (λ ln, ln <| map_bitmap := None |> <| ln_meta := None |>);
  '(rl', gc') ← pblk_gc_should_kick (rl st) (gc st);
  Some (st <| rl := rl' |> <| gc := gc' |>).

(** The next page of metadata of a line.  [submitted] is false if the drive does not
    take it; the entry is then added to itself, which breaks the list it is in. *)
Definition pblk_submit_meta_io (st : pblk) (i nrb : Z) (submitted : bool) : option pblk :=
  ln ← rd (lines st) i;
  k ← ln_meta ln;
  '(st, _) ← __pblk_alloc_page st i (min_write_pgs lm);
  mem ← rd (emeta_mem st) k;
  let mem := s32 (mem + min_write_pgs lm * sec_size lm) in
  ms ← wr (emeta_mem st) k mem;
  let st := st <| emeta_mem := ms |> in
  st ← (if emeta_len lm <=? mem then
          st ← list_del st i;
          ln ← rd (lines st) i;
          m ← map_bitmap ln;
          Some (warn_if (negb (bitmap_full m)) st)
        else Some st);
  _ ← ensure submitted;
  Some st.

(** The metadata of the first line of the list goes out with the data of the stream, unless they would
    share a LUN with it ([pblk_valid_meta_ppa]).  A line without a free sector would be
    looked at again forever. *)
Definition pblk_sched_meta_io (st : pblk) (nrb : Z) (valid_meta_ppa submitted : bool) : option pblk :=
  match lists st (emeta_list nrb) with
  | [] => Some st
  | i :: _ =>
      ln ← rd (lines st) i;
      m ← map_bitmap ln;
      _ ← ensure (negb (bitmap_full m));
      if valid_meta_ppa then pblk_submit_meta_io st i nrb submitted else Some st
  end.

(** Completion of a page of metadata; after the last one the line is closed. *)
Definition pblk_end_io_write_meta (st : pblk) (i : Z) : option pblk :=
  ln ← rd (lines st) i;
  k ← ln_meta ln;
  s ← rd (emeta_sync st) k;
  let s := s + min_write_pgs lm in
  ss ← wr (emeta_sync st) k s;
  let st := st <| emeta_sync := ss |> in
  if s =? emeta_sec lm then pblk_line_close st i else Some st.

(** All pages of metadata of a line; enough fuel is their number and one more. *)
Fixpoint meta_sync_line (fuel : nat) (st : pblk) (i nrb : Z) : option pblk :=
  match fuel with
  | O => None
  | S fuel =>
      ln ← rd (lines st) i;
      k ← ln_meta ln;
      mem ← rd (emeta_mem st) k;
      if mem <? emeta_len lm then
        st ← pblk_submit_meta_io st i nrb true;
        meta_sync_line fuel st i nrb
      else Some st
  end.

(** The completions that [pblk_wait_for_meta] and the flush of the queue wait for. *)
Fixpoint meta_complete (fuel : nat) (st : pblk) (i : Z) : option pblk :=
  match fuel with
  | O => None
  | S fuel =>
      st ← pblk_end_io_write_meta st i;
      ln ← rd (lines st) i;
      if bool_decide (ln_meta ln = None) then Some st else meta_complete fuel st i
  end.

Fixpoint close_meta_lines (st : pblk) (ls : list Z) (nrb : Z) : option pblk :=
  match ls with
  | [] => Some st
  | i :: ls => st ← meta_sync_line (S (Z.to_nat (emeta_sec lm))) st i nrb;
               st ← meta_complete (Z.to_nat (emeta_sec lm)) st i;
               close_meta_lines st ls nrb
  end.

Definition pblk_line_close_meta_sync (st : pblk) (nrb : Z) : option pblk :=
  close_meta_lines st (lists st (emeta_list nrb)) nrb.

Definition pblk_line_should_sync_meta (st : pblk) (nrb : Z) : option pblk :=
  r ← rd (rb_rl st) nrb;
  if pblk_rl_is_limit r then pblk_line_close_meta_sync st nrb else Some st.

Definition pblk_line_close_meta (st : pblk) (i nrb : Z) : option pblk :=
  ln ← rd (lines st) i;
  _ ← ln_meta ln;
  st ← list_add_tail st i (emeta_list nrb);
  pblk_line_should_sync_meta st nrb.

(** ** Filling lines (pblk-map.c) *)

(** The loop of [pblk_map_page_data] over the sectors of a page, as far as the line sees it: a
    sector that holds data takes a reference, one that pads the page is counted out. *)
Fixpoint map_page_secs (n : nat) (st : pblk) (i paddr j valid_secs : Z) : option pblk :=
  match n with
  | O => Some st
  | S n =>
      st ← (if j <? valid_secs then
              st ← kref_get st i;
              st ← upd_line st i (λ ln, ln <| nr_valid_lbas := u32 (nr_valid_lbas ln + 1) |>);
              Some (st <| wb := wb st ++ [i] |>)
            else __pblk_map_invalidate st i paddr);
      map_page_secs n st i (paddr + 1) (j + 1) valid_secs
  end.

Definition pblk_map_page_line (env : line_env) (st : pblk) (nrb valid_secs : Z)
    : option (pblk * Z) :=
  d ← rd (data_line st) nrb;
  i ← d;
  ln ← rd (lines st) i;
  _ ← ln_meta ln;
  '(st, paddr) ← pblk_alloc_page st i (min_write_pgs lm);
  st ← map_page_secs (Z.to_nat (min_write_pgs lm)) st i paddr 0 valid_secs;
  ln ← rd (lines st) i;
  if pblk_line_is_full ln then
    st ← pblk_line_replace_data env st nrb;
    st ← pblk_line_close_meta st i nrb;
    Some (st, paddr)
  else Some (st, paddr).

(** The update of the map for sector [n] of those waiting ([__pblk_rb_update_l2p]) drops its
    reference. *)
Definition l2p_update (st : pblk) (n : nat) : option pblk :=
  i ← wb st !! n;
  kref_put (st <| wb := delete n (wb st) |>) i.

(** ** Garbage collection (pblk-gc.c) *)

(** A closed line is marked as being reclaimed and leaves its list. *)
Definition gc_take (st : pblk) (i : Z) : option pblk :=
  ln ← rd (lines st) i;
  let st := warn_if (negb (bool_decide (ln_state ln = PBLK_LINESTATE_CLOSED))) st in
  st ← upd_line st i (λ ln, ln <| ln_state := PBLK_LINESTATE_GC |>);
  mt ← rd (map_type st) (pstream ln);
  let st := if negb (mt =? BLOCK_MAP) then st <| gc_target := s32 (gc_target st - 1) |> else st in
  list_del st i.

(** The loop of [pblk_gc_get_victim_line] over the rest of the list. *)
Fixpoint victim_loop (st : pblk) (ls : list Z) (victim : Z) : option Z :=
  match ls with
  | [] => Some victim
  | i :: ls =>
      ln ← rd (lines st) i;
      if s32 (vsc ln) =? 0 then Some i else
      inv ← rd (invalid_line st) (pstream ln);
      mt ← rd (map_type st) (pstream ln);
      if (DATA_START_STREAM <=? pstream ln) && (u32 inv =? i) then victim_loop st ls victim
      else if mt =? BLOCK_MAP then victim_loop st ls victim
      else
      v ← rd (lines st) victim;
      vt ← rd (map_type st) (pstream v);
      if vt =? BLOCK_MAP then victim_loop st ls i
      else if s32 (vsc ln) <? s32 (vsc v) then victim_loop st ls i
      else victim_loop st ls victim
  end.

Definition pblk_gc_get_victim_line (st : pblk) (h : line_list) : option Z :=
  match lists st h with
  | [] => None
  | i :: ls => victim_loop st (i :: ls) i
  end.

(** The first loop of [pblk_gc_run]: lines without valid sectors are returned. *)
Fixpoint gc_full_loop (fuel : nat) (st : pblk) : option pblk :=
  match lists st gc_full_list with
  | [] => Some st
  | i :: _ =>
      match fuel with
      | O => None
      | S fuel => st ← gc_take st i; st ← kref_put st i; gc_full_loop fuel st
      end
  end.

(** The second loop, over one list; the flag says that a line was taken. *)
Fixpoint gc_group_loop (fuel : nat) (st : pblk) (h : line_list) (prev_group : bool)
    : option (pblk * bool) :=
  match lists st h with
  | [] => Some (st, prev_group)
  | _ :: _ =>
      match fuel with
      | O => None
      | S fuel =>
          i ← pblk_gc_get_victim_line st h;
          ln ← rd (lines st) i;
          mt ← rd (map_type st) (pstream ln);
          if (mt =? BLOCK_MAP) && (0 <? s32 (vsc ln)) then Some (st, prev_group) else
          st ← gc_take st i;
          st ← list_add_tail st i gc_r_list;
          let st := st <| inflight_gc := s32 (inflight_gc st + 1) |> in
          if negb (pblk_gc_should_run (gc st) (rl st) (gc_target st))
             || (PBLK_GC_L_QD <=? inflight_gc st)
          then Some (st, true)
          else gc_group_loop fuel st h true
      end
  end.

(** The loop at [next_gc_group]; [gc_group] is the number of lists tried. *)
Fixpoint gc_groups (gs : list line_list) (st : pblk) (tried : Z) : option pblk :=
  match gs with
  | [] => Some st
  | h :: gs =>
      '(st, prev_group) ← gc_group_loop (length (lists st h)) st h false;
      let tried := tried + 1 in
      if negb prev_group && (tried <? rb_state (rl st)) && (tried <? PBLK_GC_NR_LISTS)
      then gc_groups gs st tried else Some st
  end.

Definition gc_lists : list line_list := [gc_high_list; gc_mid_list; gc_low_list].

Definition pblk_gc_run (st : pblk) : option pblk :=
  st ← gc_full_loop (length (lists st gc_full_list)) st;
  if negb (pblk_gc_should_run (gc st) (rl st) (gc_target st)) || (PBLK_GC_L_QD <=? inflight_gc st)
  then Some st
  else gc_groups gc_lists st 0.

(** The reader thread hands a line to the queue that prepares it; false if there is none. *)
Definition pblk_gc_read (st : pblk) : option (pblk * bool) :=
  match lists st gc_r_list with
  | [] => Some (st, false)
  | i :: _ =>
      st ← list_del st i;
      Some (st <| gc := pblk_gc_kick (gc st) |> <| gc_reader_wq := gc_reader_wq st ++ [i] |>, true)
  end.

Definition pblk_put_line_back (st : pblk) (i : Z) : option pblk :=
  ln ← rd (lines st) i;
  let st := warn_if (negb (bool_decide (ln_state ln = PBLK_LINESTATE_GC))) st in
  mt ← rd (map_type st) (pstream ln);
  let st := if negb (mt =? BLOCK_MAP) then st <| gc_target := s32 (gc_target st + 1) |> else st in
  let '(ln, move_list) := pblk_line_gc_list (ln <| ln_state := PBLK_LINESTATE_CLOSED |>) in
  st ← upd_line st i (λ _, ln);
  match move_list with None => Some st | Some h => list_add_tail st i h end.

Section prepare.
(** The type of the map of a logical address ([pblk_get_maptype]) and the list of
    logical addresses read from the line. *)
Context (maptype : Z → Z) (lba_list : list Z).

(** One request: the loop from [bit] on, with the [nr_secs] addresses taken so far.
    Every turn passes a sector. *)
Fixpoint gc_collect (fuel : nat) (b : list bool) (essec bit : Z) (acc : list Z)
    : option (Z * list Z) :=
  match fuel with
  | O => None
  | S fuel =>
      let bit := find_next_zero_bit b (sec_per_line lm) (bit + 1) in
      if essec <? bit then Some (bit, acc) else
      lba ← rd lba_list bit;
      let acc' := acc ++ [lba] in
      let nr_secs := Z.of_nat (length acc) in
      if (maptype lba =? PAGE_MAP) && (12 <=? nr_secs) && (lba mod 4 =? 3) then Some (bit, acc')
      else if nr_secs + 1 <? max_write_pgs lm then gc_collect fuel b essec bit acc'
      else Some (bit, acc')
  end.

(** The loop at [next_rq]. *)
Fixpoint gc_requests (fuel : nat) (b : list bool) (essec bit sec_left : Z) : option (list (list Z)) :=
  match fuel with
  | O => None
  | S fuel =>
      '(bit, lbas) ← gc_collect (S (Z.to_nat (sec_per_line lm))) b essec bit [];
      match lbas with
      | [] => Some []
      | _ =>
          let sec_left := sec_left - Z.of_nat (length lbas) in
          if 0 <? sec_left then
            rest ← gc_requests fuel b essec bit sec_left; Some (lbas :: rest)
          else Some [lbas]
      end
  end.

Fixpoint kref_gets (n : nat) (st : pblk) (i : Z) : option pblk :=
  match n with O => Some st | S n => st ← kref_get st i; kref_gets n st i end.

(** The preparation of the first line of the queue: its valid sectors are divided into
    requests, each with a reference.  [emeta_ok] is false if its metadata cannot be read. *)
Definition pblk_gc_line_prepare_ws (st : pblk) (emeta_ok : bool) : option pblk :=
  match gc_reader_wq st with
  | [] => Some st
  | i :: wq =>
      let st := st <| gc_reader_wq := wq |> in
      ln ← rd (lines st) i;
      if negb emeta_ok || (s32 (vsc ln) <? 0) then
        st ← pblk_put_line_back st i;
        st ← kref_put st i;
        Some (st <| inflight_gc := s32 (inflight_gc st - 1) |>)
      else
      b ← invalid_bitmap ln;
      rqs ← gc_requests (S (Z.to_nat (vsc ln))) b (emeta_ssec ln) (-1) (s32 (vsc ln));
      st ← kref_gets (length rqs) st i;
      let st := st <| gc_rqs := gc_rqs st ++ ((λ r, (i, r)) <$> rqs) |> in
      st ← kref_put st i;
      Some (st <| inflight_gc := s32 (inflight_gc st - 1) |>)
  end.
End prepare.

(** Request [n] of the collector is finished: its sectors are in a write buffer
    ([pblk_gc_write]), or none was left or could be read ([pblk_gc_move_valid_secs]). *)
Definition gc_request_done (st : pblk) (n : nat) : option pblk :=
  '(i, _) ← gc_rqs st !! n;
  kref_put (st <| gc_rqs := delete n (gc_rqs st) |>) i.
End lines.
