(* ===== verification/PblkLineInv.v ===== *)
(** * Lines of pblk: bitmaps by pages, set-up of a line, allocation of pages

    The bitmaps of a line are uniform on pages ([sec_per_pl] sectors): [expand] gives
    the bitmap of sectors of a bitmap of pages.  [init_bb_spec] shows what the
    set-up of a line leaves, [alloc_page_spec] that a page is taken. *)

From stdpp Require Import functions.
From S2P Require Import Prelude Bitmap RateLimiter PblkLine.

(** ** Bitmaps uniform on pages *)

Section pages.
Context (p : nat).

Definition expand (P : list bool) : list bool := P ≫= replicate p.

Lemma expand_cons x P : expand (x :: P) = replicate p x ++ expand P.
Proof. done. Qed.

Lemma expand_app P Q : expand (P ++ Q) = expand P ++ expand Q.
Proof. unfold expand. by rewrite bind_app. Qed.

Lemma expand_length P : length (expand P) = (p * length P)%nat.
Proof. induction P; [simpl; lia|]. rewrite expand_cons, length_app, length_replicate, IHP. simpl. lia. Qed.

Lemma expand_zeros P : zeros (expand P) = Z.of_nat p * zeros P.
Proof.
  induction P as [|x P IH]; [rewrite zeros_nil; simpl; rewrite zeros_nil; lia|].
  rewrite expand_cons, zeros_app, zeros_cons, zeros_replicate, IH. destruct x; lia.
Qed.

Lemma expand_take q P : expand (take q P) = take (p * q) (expand P).
Proof.
  revert q. induction P as [|x P IH]; intros q; [simpl; by rewrite !take_nil|].
  destruct q as [|q]; [by rewrite Nat.mul_0_r|]. cbn [take]. rewrite !expand_cons, IH, take_app.
  rewrite (take_ge (replicate p x)) by (rewrite length_replicate; lia).
  rewrite length_replicate. do 2 f_equal. lia.
Qed.

Lemma expand_drop q P : expand (drop q P) = drop (p * q) (expand P).
Proof.
  revert q. induction P as [|x P IH]; intros q; [simpl; by rewrite !drop_nil|].
  destruct q as [|q]; [by rewrite Nat.mul_0_r|]. cbn [drop]. rewrite !expand_cons, IH, drop_app.
  rewrite (drop_ge (replicate p x)) by (rewrite length_replicate; lia).
  rewrite length_replicate. simpl. f_equal. lia.
Qed.

Lemma expand_lookup P q r x :
  (r < p)%nat → P !! q = Some x → expand P !! (p * q + r)%nat = Some x.
Proof.
  intros Hr. revert q. induction P as [|y P IH]; intros q H; [done|].
  destruct q as [|q]; [injection H as ->|change (P !! q = Some x) in H].
  - rewrite expand_cons, lookup_app_l by (rewrite length_replicate; lia).
    apply lookup_replicate; split; [done|lia].
  - rewrite expand_cons, lookup_app_r by (rewrite length_replicate; lia).
    rewrite length_replicate. rewrite <- (IH q H). f_equal. lia.
Qed.

Lemma expand_replicate n x : expand (replicate n x) = replicate (p * n) x.
Proof.
  induction n; [by rewrite Nat.mul_0_r|]. cbn [replicate]. rewrite expand_cons, IHn.
  rewrite <- replicate_add. f_equal. lia.
Qed.

(** Setting the bits of one page. *)
Lemma expand_insert P q :
  (q < length P)%nat →
  take (p * q) (expand P) ++ replicate p true ++ drop (p * q + p) (expand P)
    = expand (<[q := true]> P).
Proof.
  intros Hq. rewrite insert_take_drop by lia. rewrite expand_app, expand_cons, expand_take, expand_drop.
  do 3 f_equal. lia.
Qed.

Lemma find_next_zero_page P c q :
  (0 < p)%nat → (c ≤ q < length P)%nat →
  (∀ k, (c ≤ k < q)%nat → P !! k = Some true) → P !! q = Some false →
  find_next_zero_bit (expand P) (Z.of_nat (p * length P)) (Z.of_nat (p * c)) = Z.of_nat (p * q).
Proof.
  intros Hp Hq H1 H2. rewrite <- expand_length. apply find_next_zero_unique.
  - lia.
  - rewrite expand_length. nia.
  - rewrite !Nat2Z.id. intros k Hk.
    assert (Hc : (c ≤ k / p)%nat) by (apply Nat.div_le_lower_bound; lia).
    assert (Hd : (k / p < q)%nat) by (apply Nat.Div0.div_lt_upper_bound; lia).
    rewrite (Nat.div_mod k p) by lia.
    apply expand_lookup; [apply Nat.mod_upper_bound; lia | apply H1; lia].
  - rewrite Nat2Z.id. replace (p * q)%nat with (p * q + 0)%nat by lia. apply expand_lookup; [lia|done].
Qed.

(** The first free page, when some page is free. *)
Lemma first_zero_page P c :
  (∀ k, (k < c)%nat → P !! k = Some true) → 0 < zeros P →
  ∃ q, (c ≤ q < length P)%nat ∧ (∀ k, (k < q)%nat → P !! k = Some true) ∧ P !! q = Some false.
Proof.
  revert c. induction P as [|x P IH]; intros c H Hz; [rewrite zeros_nil in Hz; lia|].
  rewrite zeros_cons in Hz. destruct x.
  - destruct (IH (pred c)) as (q & Hq & H1 & H2); [|lia|].
    { intros k Hk. apply (H (S k)). lia. }
    exists (S q). simpl. split; [lia|]. split; [|done]. intros [|k] Hk; [done|]. apply H1. lia.
  - destruct c as [|c]; [|by specialize (H 0%nat ltac:(lia))].
    exists 0%nat. simpl. split; [lia|]. split; [lia|done].
Qed.
End pages.

(** ** Bitmaps given by a function of the bit *)

Definition tab (n : nat) (f : nat → bool) : list bool := f <$> seq 0 n.

Lemma tab_length n f : length (tab n f) = n.
Proof. unfold tab. by rewrite length_fmap, length_seq. Qed.

Lemma tab_lookup n f k : (k < n)%nat → tab n f !! k = Some (f k).
Proof. intros Hk. unfold tab. rewrite list_lookup_fmap, lookup_seq_lt by lia. done. Qed.

Lemma tab_eq n f b :
  length b = n → (∀ k, (k < n)%nat → b !! k = Some (f k)) → b = tab n f.
Proof.
  intros Hl H. apply list_eq_same_length with n; rewrite ?tab_length; try done.
  intros k x y Hk Hx Hy. rewrite tab_lookup in Hy by lia. rewrite H in Hx by lia. congruence.
Qed.

Lemma tab_ext n f g : (∀ k, (k < n)%nat → f k = g k) → tab n f = tab n g.
Proof. intros H. apply tab_eq; [apply tab_length|]. intros k Hk. rewrite tab_lookup, H by lia. done. Qed.

Lemma tab_of_list b : b = tab (length b) (λ k, default false (b !! k)).
Proof.
  apply tab_eq; [done|]. intros k Hk. destruct (lookup_lt_is_Some_2 b k Hk) as [x Hx].
  by rewrite Hx.
Qed.

Lemma tab_or n f g : bitmap_or (tab n f) (tab n g) = tab n (λ k, f k || g k).
Proof.
  apply tab_eq; unfold bitmap_or; [rewrite length_zip_with, !tab_length; lia|].
  intros k Hk. rewrite lookup_zip_with, !tab_lookup by lia. done.
Qed.

Lemma tab_shift n f off :
  0 ≤ off →
  bitmap_shift_left (tab n f) off
    = tab n (λ k, (Z.to_nat off <=? k)%nat && f (k - Z.to_nat off)%nat).
Proof.
  intros Ho. unfold bitmap_shift_left. rewrite tab_length.
  apply tab_eq; [rewrite length_take, length_app, tab_length, length_replicate; lia|].
  intros k Hk. rewrite lookup_take_lt by lia.
  destruct (Nat.leb_spec (Z.to_nat off) k); simpl.
  - rewrite lookup_app_r by (rewrite length_replicate; lia). rewrite length_replicate.
    apply tab_lookup. lia.
  - rewrite lookup_app_l by (rewrite length_replicate; lia). apply lookup_replicate; split; [done|lia].
Qed.

Lemma tab_expand p n f :
  (0 < p)%nat → tab (p * n) (λ k, f (k / p)%nat) = expand p (tab n f).
Proof.
  intros Hp. symmetry. apply tab_eq; [rewrite expand_length, tab_length; lia|].
  intros k Hk. rewrite (Nat.div_mod k p) at 1 by lia. apply expand_lookup.
  - apply Nat.mod_upper_bound. lia.
  - apply tab_lookup. apply Nat.Div0.div_lt_upper_bound; lia.
Qed.

(** Repeating a row of [length l] bits. *)
Lemma zeros_rows r l :
  zeros (tab (r * length l) (λ k, default false (l !! (k mod length l)%nat))) = Z.of_nat r * zeros l.
Proof.
  destruct (decide (length l = 0%nat)) as [E|E].
  { rewrite (nil_length_inv l E), zeros_nil. rewrite Nat.mul_0_r. unfold tab. simpl. rewrite zeros_nil. lia. }
  induction r as [|r IH]; [unfold tab; simpl; rewrite zeros_nil; lia|].
  assert (H : tab (S r * length l) (λ k, default false (l !! (k mod length l)%nat))
              = l ++ tab (r * length l) (λ k, default false (l !! (k mod length l)%nat))).
  { symmetry. apply tab_eq; [rewrite length_app, tab_length; lia|]. intros k Hk.
    destruct (decide (k < length l)%nat).
    - rewrite lookup_app_l, Nat.mod_small by lia.
      destruct (lookup_lt_is_Some_2 l k) as [x ->]; [lia|done].
    - rewrite lookup_app_r, tab_lookup by lia. do 2 f_equal.
      replace k with (k - length l + 1 * length l)%nat at 2 by lia.
      by rewrite Nat.Div0.mod_add. }
  rewrite H, zeros_app, IH. lia.
Qed.

(** ** Updates of one line *)

Definition set_line (st : pblk) (i : Z) (ln : pblk_line) : pblk :=
  st <| lines := <[Z.to_nat i := ln]> (lines st) |>.

Lemma upd_line_eq st i ln f :
  rd (lines st) i = Some ln → upd_line st i f = Some (set_line st i (f ln)).
Proof.
  intros H. unfold upd_line. rewrite H. cbn [mbind option_bind].
  rewrite wr_in_range by (eapply rd_lt; done). done.
Qed.

Lemma rd_set_line st i j ln lj :
  rd (lines st) i = Some ln →
  rd (lines (set_line st i lj)) j = if decide (i = j) then Some lj else rd (lines st) j.
Proof. intros H%rd_lt. apply (rd_wr (lines st) _ i j lj). by apply wr_in_range. Qed.

Lemma rd_set_line_eq st i ln lj :
  rd (lines st) i = Some ln → rd (lines (set_line st i lj)) i = Some lj.
Proof. intros H. rewrite (rd_set_line _ _ _ ln) by done. by rewrite decide_True. Qed.

Lemma rd_set_line_ne st i j lj :
  i ≠ j → 0 ≤ i → rd (lines (set_line st i lj)) j = rd (lines st) j.
Proof.
  intros H Hi. unfold set_line, rd. simpl. destruct (Z.leb_spec 0 j); [|done].
  apply list_lookup_insert_ne. lia.
Qed.

Lemma set_line_twice st i l1 l2 : set_line (set_line st i l1) i l2 = set_line st i l2.
Proof. unfold set_line. simpl. by rewrite list_insert_insert_eq. Qed.

(** A second update of the same line. *)
Lemma upd_set_line st i ln l1 f :
  rd (lines st) i = Some ln →
  upd_line (set_line st i l1) i f = Some (set_line st i (f l1)).
Proof.
  intros H. rewrite (upd_line_eq _ _ l1) by (by eapply rd_set_line_eq). by rewrite set_line_twice.
Qed.

(** ** Geometry

    A page has [p] sectors, a line [L] blocks of [R] pages; the first metadata takes one
    page and the last metadata [e] of them, at most one in each block.  These are the
    values [pblk_lines_init] computes when the first metadata fits one page. *)

Record lm_ok (lm : pblk_line_meta) (p L R e : nat) : Prop := {
  lm_p : (0 < p)%nat;
  lm_L : (0 < L)%nat;
  lm_R : (0 < R)%nat;
  lm_e : (0 < e ≤ L)%nat;
  lm_sec_per_pl : sec_per_pl lm = Z.of_nat p;
  lm_min_write_pgs : min_write_pgs lm = Z.of_nat p;
  lm_blk_per_line : blk_per_line lm = Z.of_nat L;
  lm_sec_per_blk : sec_per_blk lm = Z.of_nat (p * R);
  lm_sec_per_line : sec_per_line lm = Z.of_nat (p * (R * L));
  lm_smeta : smeta_sec lm = Z.of_nat p;
  lm_emeta : emeta_sec lm = Z.of_nat (p * e);
  lm_emeta_bb : emeta_bb lm = Z.of_nat (L - e);
  lm_min_blk : Z.of_nat (R + 1 + e) ≤ Z.of_nat R * min_blk_line lm;
  lm_sec_size : 0 < sec_size lm;
  lm_emeta_len : emeta_len lm = emeta_sec lm * sec_size lm;
  lm_high : high_thrs lm = sec_per_line lm / 2;
  lm_mid : mid_thrs lm = sec_per_line lm / 4;
  lm_max_write : 0 < max_write_pgs lm;
  lm_int : sec_per_line lm < 2 ^ 31;
  lm_emeta_int : emeta_len lm < 2 ^ 31
}.

Section geometry.
Context (lm : pblk_line_meta) (p L R e : nat) (Hlm : lm_ok lm p L R e).

(** Pages of a line. *)
Definition pages : nat := (R * L)%nat.

(** The pages of bad blocks. *)
Definition bad_pages (blk : list bool) : list bool :=
  tab pages (λ q, default false (blk !! (q mod L)%nat)).

Lemma bb_template_tab :
  bb_template lm = tab (p * pages) (λ s, (s / p) mod L =? 0)%nat.
Proof using Hlm.
  destruct Hlm. unfold bb_template. rewrite lm_sec_per_line0, lm_blk_per_line0, lm_sec_per_pl0.
  fold pages. unfold tab, seqZ. rewrite Nat2Z.id, <- list_fmap_compose. apply list_fmap_ext.
  intros i s Hs. unfold compose. apply lookup_seq in Hs as [-> Hs]. simpl.
  replace (Z.of_nat i + 0) with (Z.of_nat i) by lia.
  rewrite <- Nat2Z.inj_mul, <- Nat2Z.inj_mod.
  rewrite (Nat.mul_comm L p), Nat.Div0.mod_mul_r.
  pose proof (Nat.mod_upper_bound i p ltac:(lia)).
  destruct (Nat.eqb_spec ((i / p) mod L) 0) as [E|E];
    [apply Z.ltb_lt | apply Z.ltb_ge]; nia.
Qed.

(** A sector is in the template shifted by [bit] pages when its block is [bit]. *)
Lemma lun_shift bit s :
  (bit < L)%nat →
  (p * bit <=? s)%nat && ((s - p * bit) / p mod L =? 0)%nat = ((s / p) mod L =? bit)%nat.
Proof using Hlm.
  destruct Hlm. intros Hb. apply eq_bool_prop_intro. rewrite andb_True, !Is_true_true.
  rewrite Nat.leb_le, !Nat.eqb_eq. split.
  - intros [H1 H2]. replace s with ((s - p * bit) + bit * p)%nat by lia.
    rewrite Nat.div_add by lia. rewrite Nat.Div0.add_mod, H2. simpl.
    rewrite Nat.Div0.mod_mod. apply Nat.mod_small. lia.
  - intros E. pose proof (Nat.Div0.mod_le (s / p) L). pose proof (Nat.Div0.mul_div_le s p).
    assert (p * bit ≤ s)%nat by nia. split; [done|].
    replace s with ((s - p * bit) + bit * p)%nat in E by lia.
    rewrite Nat.div_add in E by lia. set (x := ((s - p * bit) / p)%nat) in *.
    pose proof (Nat.div_mod (x + bit) L ltac:(lia)) as D. rewrite E in D.
    replace x with ((x + bit) / L * L)%nat by nia. apply Nat.Div0.mod_mul.
Qed.

Lemma weight_cons x b : bitmap_weight (x :: b) = (if x then 1 else 0) + bitmap_weight b.
Proof. unfold bitmap_weight. rewrite zeros_cons. simpl length. destruct x; lia. Qed.

Lemma weight_bounds b : 0 ≤ bitmap_weight b.
Proof. unfold bitmap_weight. pose proof (zeros_bounds b). lia. Qed.

Lemma bb_loop_spec blks bit f secs nr :
  (bit + length blks = L)%nat →
  bitmap_weight blks * sec_per_blk lm ≤ secs < 2 ^ 32 →
  bb_loop lm blks (Z.of_nat bit) (tab (p * pages) f) secs nr =
  (tab (p * pages) (λ s, f s || (let l := (s / p) mod L in
                                  (bit <=? l) && default false (blks !! (l - bit))))%nat,
   secs - bitmap_weight blks * sec_per_blk lm,
   nr + bitmap_weight (drop (L - e - bit) blks)).
Proof using Hlm.
  pose proof Hlm as []. revert bit f secs nr.
  induction blks as [|x blks IH]; intros bit f secs nr Hb Hs; cbn [bb_loop].
  - rewrite drop_nil. change (bitmap_weight []) with 0. f_equal; [f_equal|]; [|lia..].
    apply tab_ext. intros k _. rewrite lookup_nil. simpl. by rewrite andb_false_r, orb_false_r.
  - simpl in Hb. rewrite weight_cons in *. pose proof (weight_bounds blks).
    assert (Hbit : ∀ l, (l < L)%nat →
      ((bit <=? l) && default false ((x :: blks) !! (l - bit)) =
       (l =? bit) && x || (S bit <=? l) && default false (blks !! (l - S bit)))%nat).
    { intros l _. destruct (Nat.leb_spec bit l), (Nat.eqb_spec l bit), (Nat.leb_spec (S bit) l);
        try lia; simpl; subst; rewrite ?Nat.sub_diag; simpl; rewrite ?orb_false_r; try done.
      replace (l - bit)%nat with (S (l - S bit)) by lia. done. }
    assert (Hd : bitmap_weight (drop (L - e - bit) (x :: blks)) =
      (if (emeta_bb lm <=? Z.of_nat bit) && x then 1 else 0) + bitmap_weight (drop (L - e - S bit) blks)).
    { rewrite lm_emeta_bb0. destruct (Z.leb_spec (Z.of_nat (L - e)) (Z.of_nat bit)).
      - replace (L - e - bit)%nat with 0%nat by lia. replace (L - e - S bit)%nat with 0%nat by lia.
        rewrite !drop_0, weight_cons. by destruct x.
      - replace (L - e - bit)%nat with (S (L - e - S bit)) by lia. simpl. lia. }
    rewrite Hd. destruct x.
    + rewrite bb_template_tab, tab_shift, tab_or by (rewrite lm_sec_per_pl0; lia).
      replace (Z.to_nat (Z.of_nat bit * sec_per_pl lm)) with (p * bit)%nat by (rewrite lm_sec_per_pl0; lia).
      rewrite u32_small by lia.
      replace (Z.of_nat bit + 1) with (Z.of_nat (S bit)) by lia. rewrite IH by lia.
      f_equal; [f_equal|]; [|lia|destruct (emeta_bb lm <=? Z.of_nat bit); simpl; lia].
      apply tab_ext. intros k _. cbn zeta.
      rewrite Hbit, lun_shift by (try apply Nat.mod_upper_bound; lia).
      by rewrite andb_true_r, orb_assoc.
    + replace (Z.of_nat bit + 1) with (Z.of_nat (S bit)) by lia. rewrite IH by lia.
      rewrite andb_false_r. f_equal; [f_equal|..]; try lia.
      apply tab_ext. intros k _. cbn zeta.
      rewrite Hbit by (apply Nat.mod_upper_bound; lia). by rewrite andb_false_r.
Qed.

Lemma bitmap_set_pages P q n :
  (q + n ≤ length P)%nat →
  bitmap_set (expand p P) (Z.of_nat (p * q)) (Z.of_nat (p * n))
    = Some (expand p (take q P ++ replicate n true ++ drop (q + n) P)).
Proof.
  intros Hq. unfold bitmap_set. rewrite expand_length.
  replace (_ && _ && _) with true.
  2:{ symmetry. rewrite !andb_true_iff, !Z.leb_le. nia. }
  cbn [ensure mbind option_bind]. rewrite <- Nat2Z.inj_add, !Nat2Z.id.
  rewrite !expand_app, expand_take, expand_drop, expand_replicate.
  do 4 f_equal. lia.
Qed.

Lemma take_S_snoc (P : list bool) q x : P !! q = Some x → take (S q) P = take q P ++ [x].
Proof. apply take_S_r. Qed.

(** The last metadata starts at the page where enough free pages follow. *)
Lemma emeta_loop_spec P q nr fuel :
  length P = pages → (q ≤ pages)%nat → (q ≤ fuel)%nat →
  0 ≤ nr ≤ zeros (take q P) →
  ∃ q', (q' ≤ q)%nat ∧ zeros (take q' P) = zeros (take q P) - nr ∧
    emeta_loop lm fuel (expand p (take q P ++ replicate (pages - q) true)) (Z.of_nat (p * q)) nr
      = Some (expand p (take q' P ++ replicate (pages - q') true), Z.of_nat (p * q')).
Proof using Hlm.
  pose proof Hlm as []. intros HP. fold pages in lm_sec_per_line0. revert nr fuel. induction q as [|q IH]; intros nr fuel Hq Hf Hnr.
  { rewrite take_0, zeros_nil in Hnr. replace nr with 0 by lia.
    exists 0%nat. rewrite take_0, zeros_nil. split; [lia|]. split; [lia|]. by destruct fuel. }
  destruct (decide (nr = 0)) as [->|Hz].
  { exists (S q). split; [lia|]. split; [lia|]. by destruct fuel. }
  destruct fuel as [|fuel]; [lia|]. cbn [emeta_loop].
  rewrite (proj2 (Z.eqb_neq nr 0)), lm_sec_per_pl0 by done.
  rewrite u64_small by nia.
  replace (Z.of_nat (p * S q) - Z.of_nat p) with (Z.of_nat (p * q)) by lia.
  destruct (lookup_lt_is_Some_2 P q) as [x Hx]; [lia|].
  assert (Hrep : replicate (pages - q) true = true :: replicate (pages - S q) true).
  { by replace (pages - q)%nat with (S (pages - S q)) by lia. }
  rewrite (take_S_snoc P q x Hx) in *. rewrite zeros_app, zeros_cons, zeros_nil in *.
  assert (Hrd : rd (expand p ((take q P ++ [x]) ++ replicate (pages - S q) true)) (Z.of_nat (p * q)) = Some x).
  { apply rd_Some. split; [lia|]. rewrite Nat2Z.id.
    replace (p * q)%nat with (p * q + 0)%nat by lia. apply expand_lookup; [lia|].
    rewrite <- app_assoc, lookup_app_r by (rewrite length_take; lia).
    rewrite length_take. replace (q - _)%nat with 0%nat by lia. done. }
  rewrite Hrd. cbn [mbind option_bind]. destruct x.
  - destruct (IH nr fuel) as (q' & H1 & H2 & H3); [lia..|]. exists q'.
    split; [lia|]. split; [lia|]. rewrite <- H3, Hrep, <- app_assoc. done.
  - set (X := (take q P ++ [false]) ++ replicate (pages - S q) true).
    assert (HX : take q X ++ replicate 1 true ++ drop (q + 1) X = take q P ++ replicate (pages - q) true).
    { unfold X. rewrite Hrep, <- app_assoc, take_app_length', drop_app by (rewrite length_take; lia).
      rewrite (drop_ge (take q P)), length_take by (rewrite length_take; lia).
      replace (q + 1 - _)%nat with 1%nat by lia. done. }
    replace (Z.of_nat p) with (Z.of_nat (p * 1)) by lia.
    rewrite bitmap_set_pages, HX by (unfold X; rewrite !length_app, length_take, length_replicate; simpl; lia).
    cbn [mbind option_bind].
    destruct (IH (nr - 1) fuel) as (q' & H1 & H2 & H3); [lia..|]. exists q'.
    split; [lia|]. split; [lia|]. done.
Qed.

(** *** Set-up of a line *)

(** The line after its set-up: pages [P] are taken, the last metadata starts at page [qe]. *)
Definition set_up_line (ln : pblk_line) (P : list bool) (g qe : nat) (n : Z) : pblk_line :=
  ln <| map_bitmap := Some (expand p P) |> <| sec_in_line := n |>
     <| smeta_ssec := Z.of_nat (p * g) |> <| cur_sec := Z.of_nat (p * S g) |>
     <| invalid_bitmap := Some (expand p (take qe P ++ replicate (pages - qe) true)) |>
     <| emeta_ssec := Z.of_nat (p * qe) |> <| nr_valid_lbas := 0 |>
     <| left_msecs := n |> <| vsc := n |>.

(** Pages for data: those of the good blocks without the metadata. *)
Definition data_pages (blk : list bool) : Z := Z.of_nat R * zeros blk - 1 - Z.of_nat e.

Definition smeta_page (blk : list bool) (g : nat) : Prop :=
  (g < L)%nat ∧ blk !! g = Some false ∧ ∀ k, (k < g)%nat → blk !! k = Some true.

Lemma bad_pages_length blk : length (bad_pages blk) = pages.
Proof. apply tab_length. Qed.

Lemma bad_pages_zeros blk : length blk = L → zeros (bad_pages blk) = Z.of_nat R * zeros blk.
Proof. intros Hl. unfold bad_pages, pages. rewrite <- Hl. apply zeros_rows. Qed.

Lemma bad_pages_lookup blk k : (k < L)%nat → length blk = L → bad_pages blk !! k = blk !! k.
Proof using Hlm.
  destruct Hlm. intros Hk Hl. unfold bad_pages, pages. rewrite tab_lookup by nia.
  rewrite Nat.mod_small by lia. destruct (lookup_lt_is_Some_2 blk k) as [x ->]; [lia|done].
Qed.

(** The last pages are those of the last blocks. *)
Lemma bad_pages_last blk : length blk = L → drop (pages - e) (bad_pages blk) = drop (L - e) blk.
Proof using Hlm.
  destruct Hlm. intros Hl. unfold pages. apply list_eq_same_length with e; try done.
  { rewrite length_drop, Hl. lia. }
  { rewrite length_drop, bad_pages_length. unfold pages. nia. }
  intros k x y Hk. rewrite !lookup_drop. unfold bad_pages, pages.
  rewrite tab_lookup by nia. intros Hx Hy.
  replace (R * L - e + k)%nat with (L - e + k + (R - 1) * L)%nat in Hx by nia.
  rewrite Nat.Div0.mod_add, Nat.mod_small, Hy in Hx by lia. simpl in Hx. congruence.
Qed.

(** The first metadata is not among the last pages, as enough blocks are good. *)
Lemma smeta_page_early blk g :
  length blk = L → min_blk_line lm ≤ zeros blk → smeta_page blk g → (g < pages - e)%nat.
Proof using Hlm.
  destruct Hlm. intros Hl Hm (Hg & H1 & H2). unfold pages.
  destruct (decide (g < L - e)%nat) as [|Hn]; [nia|].
  assert (zeros (take g blk) = 0) as Hz.
  { apply zeros_all_true. intros k Hk. rewrite length_take in Hk.
    rewrite lookup_take_lt by lia. apply H2. lia. }
  pose proof (zeros_take_drop g blk). pose proof (zeros_bounds (drop g blk)).
  rewrite length_drop in *. nia.
Qed.

Lemma bb_loop_line blk :
  length blk = L →
  bb_loop lm (take (Z.to_nat (blk_per_line lm)) blk) 0 (replicate (p * pages) false) (sec_per_line lm) 0
  = (expand p (bad_pages blk), sec_per_line lm - bitmap_weight blk * sec_per_blk lm,
     bitmap_weight (drop (L - e) blk)).
Proof using Hlm.
  pose proof Hlm as []. intros Hl. rewrite lm_blk_per_line0, Nat2Z.id, take_ge by lia.
  replace (replicate (p * pages) false) with (tab (p * pages) (λ _, false)).
  2:{ symmetry. apply tab_eq; [apply length_replicate|]. intros k Hk. by apply lookup_replicate. }
  pose proof (zeros_bounds blk) as Hz. rewrite Hl in Hz.
  change 0 with (Z.of_nat 0) at 1. rewrite bb_loop_spec.
  2: lia.
  2:{ rewrite lm_sec_per_line0, lm_sec_per_blk0. unfold bitmap_weight. rewrite Hl. nia. }
  rewrite Nat.sub_0_r, Z.add_0_l. f_equal. f_equal.
  unfold bad_pages. rewrite <- tab_expand by lia. apply tab_ext. intros k _. cbn zeta.
  by rewrite Nat.sub_0_r.
Qed.

Lemma find_smeta blk g :
  length blk = L → smeta_page blk g → find_first_zero_bit blk (blk_per_line lm) = Z.of_nat g.
Proof using Hlm.
  pose proof Hlm as []. intros Hl (Hg & H1 & H2). unfold find_first_zero_bit.
  rewrite lm_blk_per_line0, <- Hl. apply find_next_zero_unique; rewrite ?Nat2Z.id; try lia; try done.
  intros k Hk. apply H2. lia.
Qed.

Lemma smeta_page_exists blk : length blk = L → 0 < zeros blk → ∃ g, smeta_page blk g.
Proof using.
  intros Hl Hz. destruct (first_zero_page blk 0) as (g & H1 & H2 & H3); [intros ?; lia|done|].
  exists g. split; [lia|]. done.
Qed.

Lemma set_page P g :
  (g < length P)%nat →
  bitmap_set (expand p P) (Z.of_nat (p * g)) (Z.of_nat p) = Some (expand p (<[g := true]> P)).
Proof using.
  intros Hg. replace (Z.of_nat p) with (Z.of_nat (p * 1)) by lia.
  rewrite bitmap_set_pages, insert_take_drop, Nat.add_1_r by lia. done.
Qed.

(** Where the last metadata starts. *)
Lemma emeta_start blk g :
  length blk = L → min_blk_line lm ≤ zeros blk → smeta_page blk g →
  let P := <[g := true]> (bad_pages blk) in
  ∃ qe, (qe ≤ pages - e)%nat ∧ zeros (take qe P) = data_pages blk ∧ zeros (drop qe P) = Z.of_nat e ∧
    emeta_loop lm (Z.to_nat (sec_per_line lm)) (expand p (take (pages - e) P ++ replicate e true))
      (Z.of_nat (p * (pages - e))) (bitmap_weight (drop (L - e) blk))
      = Some (expand p (take qe P ++ replicate (pages - qe) true), Z.of_nat (p * qe)).
Proof using Hlm.
  pose proof Hlm as []. intros Hl Hm Hg P. pose proof (smeta_page_early blk g Hl Hm Hg) as Hge.
  assert (He : (e ≤ pages)%nat) by (unfold pages; nia).
  assert (HP : length P = pages) by (unfold P; rewrite length_insert; apply bad_pages_length).
  assert (HzP : zeros P = Z.of_nat R * zeros blk - 1).
  { unfold P. rewrite zeros_insert, bad_pages_zeros by
      (try rewrite bad_pages_lookup by (try apply Hg; done); try apply Hg; done). done. }
  assert (Hlast : zeros (drop (pages - e) P) = Z.of_nat e - bitmap_weight (drop (L - e) blk)).
  { unfold P. rewrite drop_insert_lt, bad_pages_last by lia. unfold bitmap_weight.
    rewrite length_drop, Hl. lia. }
  pose proof (zeros_take_drop (pages - e) P).
  destruct (emeta_loop_spec P (pages - e) (bitmap_weight (drop (L - e) blk)) (Z.to_nat (sec_per_line lm)))
    as (qe & H1 & H2 & H3); [done|lia|rewrite lm_sec_per_line0; fold pages; nia| |].
  { pose proof (weight_bounds (drop (L - e) blk)). nia. }
  exists qe. split; [lia|]. pose proof (zeros_take_drop qe P). unfold data_pages.
  split; [lia|]. split; [lia|].
  replace (pages - (pages - e))%nat with e in H3 by lia. done.
Qed.

Lemma line_secs blk :
  length blk = L → min_blk_line lm ≤ zeros blk →
  sec_per_line lm - bitmap_weight blk * sec_per_blk lm = Z.of_nat p * (Z.of_nat R * zeros blk) ∧
  Z.of_nat p * (Z.of_nat R * zeros blk) < 2 ^ 31 ∧
  Z.of_nat p * (1 + Z.of_nat e) ≤ Z.of_nat p * (Z.of_nat R * zeros blk).
Proof using Hlm.
  pose proof Hlm as []. intros Hl Hm.
  assert (Hsec : sec_per_line lm - bitmap_weight blk * sec_per_blk lm = Z.of_nat p * (Z.of_nat R * zeros blk)).
  { rewrite lm_sec_per_line0, lm_sec_per_blk0. unfold bitmap_weight. rewrite Hl. nia. }
  pose proof (weight_bounds blk). split; [done|]. split; [rewrite <- Hsec|]; nia.
Qed.

(** Set-up of a line with enough good blocks: it is never refused, and it counts exactly
    the sectors it has for data. *)
Lemma init_bb_spec env st i ln b0 init :
  rd (lines st) i = Some ln →
  map_bitmap ln = Some (replicate (p * pages) false) → invalid_bitmap ln = Some b0 →
  length (blk_bitmap ln) = L → min_blk_line lm ≤ zeros (blk_bitmap ln) →
  init && smeta_fails env i = false →
  ∃ g qe, let P := <[g := true]> (bad_pages (blk_bitmap ln)) in
    let n := Z.of_nat p * data_pages (blk_bitmap ln) in
    smeta_page (blk_bitmap ln) g ∧ (qe ≤ pages - e)%nat ∧
    zeros (take qe P) = data_pages (blk_bitmap ln) ∧ zeros (drop qe P) = Z.of_nat e ∧
    pblk_line_init_bb lm env st i init = Some (set_line st i (set_up_line ln P g qe n), true).
Proof using Hlm.
  pose proof Hlm as []. intros Hi Hmap Hinv Hl Hm Hok. set (blk := blk_bitmap ln) in *.
  pose proof (zeros_bounds blk) as Hz. assert (0 < zeros blk) by nia.
  destruct (smeta_page_exists blk Hl) as [g Hg]; [done|].
  destruct (emeta_start blk g Hl Hm Hg) as (qe & Hq & Hz1 & Hz2 & Hloop).
  exists g, qe. cbn zeta. split; [done|]. split; [done|]. split; [done|]. split; [done|].
  set (P := <[g := true]> (bad_pages blk)) in *.
  assert (HP : length P = pages) by (unfold P; rewrite length_insert; apply bad_pages_length).
  pose proof (smeta_page_early blk g Hl Hm Hg) as Hge. pose proof Hg as (HgL & _ & _).
  assert (Hpg : (L ≤ pages)%nat) by (unfold pages; nia).
  unfold pblk_line_init_bb. rewrite Hi. cbn [mbind option_bind]. rewrite Hmap. cbn [mbind option_bind].
  fold blk. rewrite bb_loop_line by done. cbn iota beta.
  rewrite (find_smeta blk g), lm_sec_per_pl0, lm_smeta0 by done.
  replace (Z.of_nat g * Z.of_nat p) with (Z.of_nat (p * g)) by lia.
  rewrite set_page by (rewrite bad_pages_length; lia). cbn [mbind option_bind]. fold P.
  destruct (line_secs blk Hl Hm) as (Hsec & Hup & Hlo).
  rewrite Hsec, (u32_small (_ - Z.of_nat p)) by nia.
  rewrite (upd_line_eq _ _ ln) by done. cbn [mbind option_bind]. rewrite Hok, Hinv. cbn [mbind option_bind].
  assert (Hoff : sec_per_line lm - emeta_sec lm = Z.of_nat (p * (pages - e))).
  { rewrite lm_sec_per_line0, lm_emeta0. fold pages. nia. }
  rewrite Hoff, lm_emeta0, bitmap_set_pages by lia. cbn [mbind option_bind].
  rewrite (drop_ge P), app_nil_r by lia. rewrite Hloop. cbn [mbind option_bind].
  rewrite (u32_small (_ - _ - _)) by nia.
  replace (Z.of_nat p * (Z.of_nat R * zeros blk) - Z.of_nat p - Z.of_nat (p * e))
    with (Z.of_nat p * data_pages blk) by (unfold data_pages; nia).
  assert (Hn : 0 ≤ Z.of_nat p * data_pages blk < 2 ^ 31) by (unfold data_pages; nia).
  rewrite (upd_set_line _ _ ln), s32_small by (done || lia). cbn [mbind option_bind].
  replace (u32 _) with (Z.of_nat (p * pages) - Z.of_nat p * data_pages blk).
  2:{ rewrite lm_sec_per_line0. fold pages. rewrite u32_small; [done|].
      unfold data_pages, pages in *. nia. }
  replace (bitmap_weight _) with (Z.of_nat (p * pages) - Z.of_nat p * data_pages blk).
  2:{ unfold bitmap_weight. rewrite expand_length, expand_zeros, zeros_app, zeros_replicate, Hz1.
      rewrite length_app, length_take, length_replicate. nia. }
  rewrite Z.eqb_refl. cbn [negb].
  replace (Z.of_nat (p * g) + Z.of_nat p) with (Z.of_nat (p * S g)) by lia. reflexivity.
Qed.

(** *** Allocation of a page *)

Lemma set_secs_run n a c w :
  set_secs n (a ++ replicate n false ++ c) (Z.of_nat (length a)) w = Some (a ++ replicate n true ++ c, w).
Proof using.
  revert a. induction n as [|n IH]; intros a; cbn [set_secs replicate app]; [done|].
  unfold test_and_set_bit. set (m := a ++ false :: replicate n false ++ c).
  assert (Hm : rd m (Z.of_nat (length a)) = Some false).
  { apply rd_Some. split; [lia|]. rewrite Nat2Z.id. apply list_lookup_middle. done. }
  rewrite Hm, wr_in_range by (by apply rd_lt in Hm). cbn [mbind option_bind].
  rewrite Nat2Z.id. unfold m. rewrite insert_app_r_alt, Nat.sub_diag by lia. cbn [insert list_insert].
  replace (a ++ true :: replicate n false ++ c) with ((a ++ [true]) ++ replicate n false ++ c)
    by (by rewrite <- app_assoc).
  replace (Z.of_nat (length a) + 1) with (Z.of_nat (length (a ++ [true]))) by (rewrite length_app; simpl; lia).
  rewrite IH, <- app_assoc. done.
Qed.

Lemma set_secs_page P q w :
  P !! q = Some false →
  set_secs p (expand p P) (Z.of_nat (p * q)) w = Some (expand p (<[q := true]> P), w).
Proof using.
  intros Hq. pose proof (lookup_lt_Some _ _ _ Hq).
  rewrite <- (take_drop_middle P q false Hq) at 1.
  rewrite expand_app, expand_cons.
  replace (Z.of_nat (p * q)) with (Z.of_nat (length (expand p (take q P))))
    by (rewrite expand_length, length_take; f_equal; lia).
  rewrite set_secs_run, insert_take_drop by lia. by rewrite expand_app, expand_cons.
Qed.

(** An open line: pages [P] are taken, all those before page [c] among them; pages from [qe] on
    are for the metadata. *)
Record open_line (ln : pblk_line) (P : list bool) (c qe : nat) : Prop := {
  op_map : map_bitmap ln = Some (expand p P);
  op_len : length P = pages;
  op_cur : cur_sec ln = Z.of_nat (p * c);
  op_before : ∀ k, (k < c)%nat → P !! k = Some true;
  op_qe : (qe ≤ pages)%nat;
  op_essec : emeta_ssec ln = Z.of_nat (p * qe);
  op_left : left_msecs ln = Z.of_nat p * zeros (take qe P)
}.

Lemma warns_add_0 (st : pblk) : st <| warns ::= Nat.add 0 |> = st.
Proof. by destruct st. Qed.

(** The line after page [q] was taken. *)
Definition take_page (ln : pblk_line) (P : list bool) (q : nat) : pblk_line :=
  ln <| map_bitmap := Some (expand p (<[q := true]> P)) |> <| cur_sec := Z.of_nat (p * S q) |>.

(** Page [q] is the first free one. *)
Definition first_free (P : list bool) (q : nat) : Prop :=
  P !! q = Some false ∧ ∀ k, (k < q)%nat → P !! k = Some true.

Lemma first_free_exists P c :
  (∀ k, (k < c)%nat → P !! k = Some true) → 0 < zeros P → ∃ q, first_free P q ∧ (c ≤ q)%nat.
Proof. intros H1 H2. destruct (first_zero_page P c H1 H2) as (q & ? & ? & ?). exists q. repeat split; try done; lia. Qed.

Lemma first_free_after P q c :
  first_free P q → (∀ k, (k < c)%nat → P !! k = Some true) → (c ≤ q)%nat.
Proof. intros [H1 _] H2. destruct (decide (c ≤ q)%nat); [done|]. rewrite H2 in H1 by lia. done. Qed.

Lemma alloc_page_spec st i ln P c qe q :
  rd (lines st) i = Some ln → open_line ln P c qe → first_free P q →
  __pblk_alloc_page lm st i (min_write_pgs lm)
    = Some (set_line st i (take_page ln P q), Z.of_nat (p * q)).
Proof using Hlm.
  pose proof Hlm as []. intros Hi [] [Hq Hbq]. unfold __pblk_alloc_page. rewrite Hi.
  pose proof (lookup_lt_Some _ _ _ Hq) as Hlt. fold pages in lm_sec_per_line0.
  assert (Hc : (c ≤ q)%nat) by (by eapply first_free_after).
  cbn [mbind option_bind]. rewrite op_map0. cbn [mbind option_bind].
  rewrite op_cur0, lm_sec_per_line0, lm_min_write_pgs0, u32_small by nia.
  rewrite (proj2 (Z.ltb_ge _ _)) by nia.
  replace (p * pages)%nat with (p * length P)%nat by lia.
  rewrite (find_next_zero_page p P c q) by (try done; try lia; intros; apply Hbq; lia).
  rewrite Nat2Z.id, set_secs_page by done. cbn [mbind option_bind warn_if].
  rewrite (upd_line_eq _ _ ln) by done. cbn [mbind option_bind]. rewrite warns_add_0.
  do 3 f_equal. unfold take_page. rewrite Z.max_r, u32_small by nia.
  by replace (Z.of_nat (p * q) + Z.of_nat p) with (Z.of_nat (p * S q)) by lia.
Qed.

Lemma take_page_open ln P c qe q :
  open_line ln P c qe → first_free P q → (qe ≤ q)%nat →
  open_line (take_page ln P q) (<[q := true]> P) (S q) qe.
Proof using.
  intros [] [Hq Hbq] Hge. split; simpl; try done; rewrite ?length_insert; try done.
  - intros k Hk. destruct (decide (k = q)) as [->|].
    + apply list_lookup_insert_eq. by eapply lookup_lt_Some.
    + rewrite list_lookup_insert_ne by done. apply Hbq. lia.
  - rewrite take_insert_ge by lia. done.
Qed.

(** A page for data is one before the metadata. *)
Lemma data_page_early P q qe : first_free P q → 0 < zeros (take qe P) → (q < qe)%nat.
Proof using.
  intros [_ H] Hz. destruct (decide (q < qe)%nat); [done|].
  assert (zeros (take qe P) = 0); [|lia]. apply zeros_all_true. intros k Hk.
  rewrite length_take in Hk. rewrite lookup_take_lt by lia. apply H. lia.
Qed.

Lemma alloc_data_page_spec st i ln P c qe q :
  rd (lines st) i = Some ln → open_line ln P c qe → first_free P q → (q < qe)%nat →
  let ln' := (take_page ln P q) <| left_msecs := left_msecs ln - Z.of_nat p |> in
  pblk_alloc_page lm st i (min_write_pgs lm) = Some (set_line st i ln', Z.of_nat (p * q)) ∧
  open_line ln' (<[q := true]> P) (S q) qe.
Proof using Hlm.
  pose proof Hlm as []. intros Hi Hop Hff Hlt ln'. pose proof Hff as [Hq Hbq].
  assert (Hz : zeros (take qe (<[q := true]> P)) = zeros (take qe P) - 1).
  { rewrite take_insert_lt by done. apply zeros_insert. by rewrite lookup_take_lt. }
  pose proof (zeros_bounds (take qe (<[q := true]> P))). pose proof (zeros_bounds (take qe P)) as Hzb.
  pose proof Hop as []. rewrite length_take in Hzb. fold pages in lm_sec_per_line0.
  split.
  - unfold pblk_alloc_page. rewrite (alloc_page_spec st i ln P c qe q) by done.
    cbn [mbind option_bind]. rewrite (rd_set_line_eq _ _ ln) by done. cbn [mbind option_bind].
    change (left_msecs (take_page ln P q)) with (left_msecs ln).
    rewrite lm_min_write_pgs0, s32_small by nia.
    rewrite (upd_set_line _ _ ln) by done. cbn [mbind option_bind].
    rewrite (proj2 (Z.ltb_ge _ _)) by nia. done.
  - split; simpl; rewrite ?length_insert; try done.
    + intros k Hk. destruct (decide (k = q)) as [->|].
      * apply list_lookup_insert_eq. by eapply lookup_lt_Some.
      * rewrite list_lookup_insert_ne by done. apply Hbq. lia.
    + rewrite Hz, op_left0. lia.
Qed.
End geometry.

(** ** The requests of the collector *)

(** The positions of the zeros of a bitmap that starts at [off]. *)
Fixpoint zero_positions (b : list bool) (off : nat) : list nat :=
  match b with
  | [] => []
  | x :: b => if x then zero_positions b (S off) else off :: zero_positions b (S off)
  end.

Lemma zero_positions_length b off : Z.of_nat (length (zero_positions b off)) = zeros b.
Proof.
  revert off. induction b as [|x b IH]; intros off; [done|]. rewrite zeros_cons.
  destruct x; simpl; specialize (IH (S off)); lia.
Qed.

Lemma elem_of_zero_positions b off z :
  z ∈ zero_positions b off ↔ (off ≤ z)%nat ∧ b !! (z - off)%nat = Some false.
Proof.
  revert off. induction b as [|x b IH]; intros off.
  { simpl. rewrite lookup_nil. set_solver. }
  assert (H : (off ≤ z)%nat → z ≠ off → ((x :: b) !! (z - off) = b !! (z - S off))%nat).
  { intros. by replace (z - off)%nat with (S (z - S off)) by lia. }
  destruct (decide (z = off)) as [->|Hne].
  - rewrite Nat.sub_diag. destruct x; simpl; rewrite ?elem_of_cons, IH; naive_solver lia.
  - destruct x; simpl; rewrite ?elem_of_cons, IH; (destruct (decide (off ≤ z)%nat);
      [rewrite H by done; naive_solver lia | naive_solver lia]).
Qed.

Lemma zero_positions_cons b off z zs :
  zero_positions b off = z :: zs →
  (off ≤ z)%nat ∧ (z - off < length b)%nat ∧ (∀ j, (j < z - off)%nat → b !! j = Some true) ∧
  b !! (z - off)%nat = Some false ∧ zs = zero_positions (drop (S (z - off)) b) (S z).
Proof.
  revert off. induction b as [|x b IH]; intros off H; [done|]. destruct x; simpl in H.
  - destruct (IH _ H) as (H1 & H2 & H3 & H4 & ->).
    replace (z - off)%nat with (S (z - S off)) by lia. simpl.
    split; [lia|]. split; [lia|]. split; [|done]. intros [|j] Hj; [done|]. apply H3. lia.
  - simplify_eq. rewrite Nat.sub_diag. simpl. rewrite drop_0. naive_solver lia.
Qed.

Lemma zero_positions_nil b off : zero_positions b off = [] → ∀ j, (j < length b)%nat → b !! j = Some true.
Proof.
  revert off. induction b as [|x b IH]; intros off H j Hj; simpl in *; [lia|].
  destruct x; [|done]. destruct j; [done|]. apply (IH _ H). lia.
Qed.

(** The zeros from [k] on, as the loop finds them. *)
Definition zeros_from (b : list bool) (k : nat) : list nat := zero_positions (drop k b) k.

Lemma zeros_from_cons b k z zs :
  zeros_from b k = z :: zs →
  find_next_zero_bit b (Z.of_nat (length b)) (Z.of_nat k) = Z.of_nat z ∧ zs = zeros_from b (S z).
Proof.
  intros H. apply zero_positions_cons in H as (H1 & H2 & H3 & H4 & ->).
  rewrite length_drop in H2. rewrite lookup_drop in H4.
  replace (k + (z - k))%nat with z in H4 by lia. split.
  - apply find_next_zero_unique; rewrite ?Nat2Z.id; [lia|lia| |done].
    intros j Hj. specialize (H3 (j - k)%nat ltac:(lia)). rewrite lookup_drop in H3.
    by replace (k + (j - k))%nat with j in H3 by lia.
  - unfold zeros_from. rewrite drop_drop. f_equal. f_equal. lia.
Qed.

Lemma zeros_from_nil b k :
  (k ≤ length b)%nat → zeros_from b k = [] →
  find_next_zero_bit b (Z.of_nat (length b)) (Z.of_nat k) = Z.of_nat (length b).
Proof.
  intros Hk H. destruct (find_next_zero_spec b (Z.of_nat k) _ ltac:(lia) eq_refl) as (A & B & C).
  set (r := find_next_zero_bit b (Z.of_nat (length b)) (Z.of_nat k)) in *.
  destruct (decide (r < Z.of_nat (length b))) as [Hr|]; [|lia]. exfalso. specialize (C Hr).
  pose proof (zero_positions_nil _ _ H (Z.to_nat r - k)%nat) as E.
  rewrite length_drop, lookup_drop in E.
  replace (k + (Z.to_nat r - k))%nat with (Z.to_nat r) in E by lia. rewrite C in E. naive_solver lia.
Qed.

Lemma zeros_from_end b : zeros_from b (S (length b)) = [].
Proof. unfold zeros_from. by rewrite drop_ge by lia. Qed.

Section requests.
Context (lm : pblk_line_meta) (maptype : Z → Z) (lbas : list Z) (b : list bool) (essec : Z).
Context (Hlen : sec_per_line lm = Z.of_nat (length b)) (Hess : 0 ≤ essec < Z.of_nat (length b))
        (Hmax : 0 < max_write_pgs lm) (Hlbas : essec ≤ Z.of_nat (length lbas))
        (Hmeta : ∀ k, essec ≤ Z.of_nat k → (k < length b)%nat → b !! k = Some true).

(** The logical address the metadata of the line give for a sector. *)
Definition lba_at (k : nat) : Z := default 0 (lbas !! k).

Lemma zero_before_meta k z : z ∈ zeros_from b k → Z.of_nat z < essec.
Proof using Hlen Hess Hmax Hlbas Hmeta.
  intros [H1 H2]%elem_of_zero_positions. rewrite lookup_drop in H2.
  replace (k + (z - k))%nat with z in H2 by lia.
  destruct (decide (Z.of_nat z < essec)); [done|].
  rewrite Hmeta in H2; [done|lia|]. by eapply lookup_lt_Some.
Qed.

Lemma gc_collect_spec fuel k acc :
  (k ≤ length b)%nat → (length (zeros_from b k) < fuel)%nat →
  Z.of_nat (length acc) < max_write_pgs lm →
  ∃ n k', gc_collect lm maptype lbas fuel b essec (Z.of_nat k - 1) acc
            = Some (Z.of_nat k' - 1, acc ++ (lba_at <$> take n (zeros_from b k))) ∧
    drop n (zeros_from b k) = zeros_from b k' ∧ (zeros_from b k' ≠ [] → (k' ≤ length b)%nat) ∧
    (zeros_from b k ≠ [] → (0 < n)%nat) ∧ (n ≤ length (zeros_from b k))%nat ∧
    Z.of_nat (length acc + n) ≤ max_write_pgs lm.
Proof using Hlen Hess Hmax Hlbas Hmeta.
  revert k acc. induction fuel as [|fuel IH]; intros k acc Hk Hf Hacc; [lia|]. cbn [gc_collect].
  replace (Z.of_nat k - 1 + 1) with (Z.of_nat k) by lia. rewrite Hlen.
  destruct (zeros_from b k) as [|z zs] eqn:E.
  - rewrite zeros_from_nil by done. rewrite (proj2 (Z.ltb_lt _ _)) by lia.
    exists 0%nat, (S (length b)). rewrite zeros_from_end, take_nil, drop_nil, app_nil_r. simpl.
    split; [do 2 f_equal; lia|]. split; [done|]. split; [done|]. split; [done|]. lia.
  - destruct (zeros_from_cons b k z zs E) as [-> ->].
    assert (Hz : Z.of_nat z < essec) by (apply (zero_before_meta k); rewrite E; left).
    rewrite (proj2 (Z.ltb_ge _ _)) by lia.
    assert (Hrd : rd lbas (Z.of_nat z) = Some (lba_at z)).
    { unfold lba_at. destruct (lookup_lt_is_Some_2 lbas z) as [x Hx]; [lia|].
      rewrite Hx. apply rd_Some. rewrite Nat2Z.id. split; [lia|done]. }
    rewrite Hrd. cbn [mbind option_bind].
    assert (Hstop : ∃ n k',
      Some (Z.of_nat z, acc ++ [lba_at z]) =
        Some (Z.of_nat k' - 1, acc ++ (lba_at <$> take n (z :: zeros_from b (S z)))) ∧
      drop n (z :: zeros_from b (S z)) = zeros_from b k' ∧ (zeros_from b k' ≠ [] → (k' ≤ length b)%nat) ∧
      (z :: zeros_from b (S z) ≠ [] → (0 < n)%nat) ∧
      (n ≤ length (z :: zeros_from b (S z)))%nat ∧ Z.of_nat (length acc + n) ≤ max_write_pgs lm).
    { exists 1%nat, (S z). split; [simpl; do 2 f_equal; lia|]. simpl. split; [done|]. split; [lia|].
      split; [lia|]. lia. }
    destruct (_ && _ && _); [done|].
    destruct (Z.ltb_spec (Z.of_nat (length acc) + 1) (max_write_pgs lm)); [|done].
    replace (Z.of_nat z) with (Z.of_nat (S z) - 1) by lia. simpl in Hf.
    destruct (IH (S z) (acc ++ [lba_at z])) as (n & k' & H1 & H2 & H3 & H4 & H5 & H6);
      [lia|lia|rewrite length_app; simpl; lia|].
    exists (S n), k'. rewrite length_app in H6. simpl in *.
    split; [by rewrite H1, <- app_assoc|]. split; [done|]. split; [done|]. split; [lia|]. lia.
Qed.

Lemma gc_requests_spec fuel k :
  (k ≤ length b)%nat → (length (zeros_from b k) < fuel)%nat →
  ∃ rqs, gc_requests lm maptype lbas fuel b essec (Z.of_nat k - 1) (Z.of_nat (length (zeros_from b k)))
           = Some rqs ∧
    concat rqs = lba_at <$> zeros_from b k ∧
    Forall (λ r, 0 < Z.of_nat (length r) ≤ max_write_pgs lm) rqs.
Proof using Hlen Hess Hmax Hlbas Hmeta.
  revert k. induction fuel as [|fuel IH]; intros k Hk Hf; [lia|]. cbn [gc_requests].
  destruct (gc_collect_spec (S (Z.to_nat (sec_per_line lm))) k []) as (n & k' & H1 & H2 & H3 & H4 & H5 & H6);
    [done| |simpl; lia|].
  { pose proof (zero_positions_length (drop k b) k) as Hl. pose proof (zeros_bounds (drop k b)) as Hb.
    rewrite length_drop in Hb. fold (zeros_from b k) in Hl. lia. }
  rewrite H1. cbn [mbind option_bind app]. simpl in H6.
  assert (Hcat : lba_at <$> zeros_from b k = (lba_at <$> take n (zeros_from b k)) ++ (lba_at <$> zeros_from b k')).
  { by rewrite <- H2, <- fmap_app, take_drop. }
  assert (Hl : length (zeros_from b k) = (n + length (zeros_from b k'))%nat).
  { rewrite <- H2, length_drop. lia. }
  assert (Hn : length (lba_at <$> take n (zeros_from b k)) = n) by (rewrite length_fmap, length_take; lia).
  destruct (lba_at <$> take n (zeros_from b k)) as [|x r] eqn:Er.
  { simpl in Hn. subst n. destruct (zeros_from b k) as [|z zs]; [|naive_solver lia].
    exists []. naive_solver. }
  rewrite Hn.
  destruct (Z.ltb_spec 0 (Z.of_nat (length (zeros_from b k)) - Z.of_nat n)).
  - simpl in Hn. assert (zeros_from b k' ≠ []) by (intros E; rewrite E in Hl; simpl in Hl; lia).
    destruct (IH k') as (rqs & R1 & R2 & R3); [auto|lia|].
    replace (Z.of_nat (length (zeros_from b k)) - Z.of_nat n)
      with (Z.of_nat (length (zeros_from b k'))) by lia.
    rewrite R1. cbn [mbind option_bind]. exists ((x :: r) :: rqs). split; [done|].
    split; [cbn [concat]; by rewrite R2|]. constructor; [simpl; lia|done].
  - exists [x :: r]. split; [done|]. destruct (zeros_from b k') eqn:E; [|simpl in *; lia].
    split; [rewrite Hcat; done|]. constructor; [simpl in *; lia|constructor].
Qed.
End requests.
