(* ===== verification/PblkLineRun.v ===== *)
(** * Lines of pblk: the invariant and the operations that keep it

    [inv] says what is true of every line in every state: a closed line is in the
    list of its number of valid sectors, that number is exact, the references are
    the ones held, the counters are those of the lines.  One lemma for each
    operation gives the line it leaves and that the invariant is kept. *)

From stdpp Require Import functions.
From S2P Require Import Prelude Bitmap RateLimiter PblkLine PblkLineInv.

(** ** Sums over lines, numbers of occurrences *)

Definition lsum (f : pblk_line → Z) (ls : list pblk_line) : Z := foldr (λ ln s, f ln + s) 0 ls.

Lemma lsum_insert f ls i ln ln' :
  ls !! i = Some ln → lsum f (<[i := ln']> ls) = lsum f ls - f ln + f ln'.
Proof.
  revert i. induction ls as [|l ls IH]; intros [|i] H; simplify_eq/=; [lia|]. rewrite (IH i H). lia.
Qed.

Lemma lsum_bounds f ls m :
  (∀ ln, ln ∈ ls → 0 ≤ f ln ≤ m) → 0 ≤ lsum f ls ≤ m * Z.of_nat (length ls).
Proof.
  induction ls as [|l ls IH]; intros H; simpl; [lia|].
  pose proof (H l ltac:(left)). specialize (IH ltac:(intros; apply H; by right)). nia.
Qed.

Definition count (i : Z) (l : list Z) : Z := Z.of_nat (length (filter (λ j, j = i) l)).

Lemma count_nonneg i l : 0 ≤ count i l.
Proof. unfold count. lia. Qed.

Lemma count_nil i : count i [] = 0.
Proof. done. Qed.

Lemma count_cons i j l : count i (j :: l) = (if decide (j = i) then 1 else 0) + count i l.
Proof. unfold count. rewrite filter_cons. case_decide; simpl; lia. Qed.

Lemma count_app i l1 l2 : count i (l1 ++ l2) = count i l1 + count i l2.
Proof. unfold count. rewrite filter_app, length_app. lia. Qed.

Lemma count_delete i j l n :
  l !! n = Some j → count i (delete n l) = count i l - if decide (j = i) then 1 else 0.
Proof.
  intros H. rewrite <- (take_drop_middle l n j H) at 2. rewrite delete_take_drop.
  rewrite !count_app, count_cons. lia.
Qed.

Lemma count_pos i l : i ∈ l ↔ 0 < count i l.
Proof.
  induction l as [|j l IH]; [rewrite count_nil; split; [inversion 1|lia]|]. rewrite count_cons, elem_of_cons, IH.
  pose proof (count_nonneg i l). case_decide; naive_solver lia.
Qed.

Lemma count_replicate i j n : count i (replicate n j) = if decide (j = i) then Z.of_nat n else 0.
Proof.
  induction n; [rewrite count_nil; by case_decide|]. cbn [replicate]. rewrite count_cons, IHn.
  case_decide; lia.
Qed.

(** ** Links

    A line is in the list its entry is linked into, once. *)

Record links_ok (st : pblk) : Prop := {
  lk_mem : ∀ h i, i ∈ lists st h ↔ ∃ ln, rd (lines st) i = Some ln ∧ ln_link ln = Some h;
  lk_nodup : ∀ h, NoDup (lists st h)
}.

Lemma links_set_line st i ln ln' :
  links_ok st → rd (lines st) i = Some ln → ln_link ln' = ln_link ln → links_ok (set_line st i ln').
Proof.
  intros [H1 H2] Hi Hl. split; [|done]. intros h j. change (lists (set_line st i ln')) with (lists st).
  rewrite H1. rewrite (rd_set_line st i j ln) by done. case_decide; [subst j|done].
  split; intros (x & E & ?); eexists; (split; [done|congruence]).
Qed.

(** The same lines and lists. *)
Lemma links_same st st' : lines st' = lines st → lists st' = lists st → links_ok st → links_ok st'.
Proof. intros E1 E2 [H1 H2]. split; rewrite ?E1, ?E2; done. Qed.

Lemma list_add_tail_eq st i h ln :
  rd (lines st) i = Some ln → ln_link ln = None →
  list_add_tail st i h = Some (set_line st i (ln <| ln_link := Some h |>)
                                 <| lists := <[h := lists st h ++ [i]]> (lists st) |>).
Proof.
  intros Hi Hl. unfold list_add_tail. rewrite Hi. cbn [mbind option_bind].
  rewrite bool_decide_true by done. cbn [ensure mbind option_bind].
  rewrite (upd_line_eq _ _ ln) by done. done.
Qed.

Lemma list_del_eq st i h ln :
  rd (lines st) i = Some ln → ln_link ln = Some h →
  list_del st i = Some (set_line st i (ln <| ln_link := None |>)
                          <| lists := <[h := filter (λ j, j ≠ i) (lists st h)]> (lists st) |>).
Proof.
  intros Hi Hl. unfold list_del. rewrite Hi. cbn [mbind option_bind]. rewrite Hl.
  cbn [mbind option_bind]. rewrite (upd_line_eq _ _ ln) by done. done.
Qed.

Lemma links_add st i h ln :
  links_ok st → rd (lines st) i = Some ln → ln_link ln = None →
  links_ok (set_line st i (ln <| ln_link := Some h |>)
              <| lists := <[h := lists st h ++ [i]]> (lists st) |>).
Proof.
  intros [H1 H2] Hi Hl.
  assert (Hni : ∀ h', i ∉ lists st h') by (intros h'; rewrite H1; intros (x & ? & ?); congruence).
  split.
  - intros h' j. cbn [lists]. change (lines (_ <| lists := _ |>))
      with (lines (set_line st i (ln <| ln_link := Some h |>))).
    rewrite (rd_set_line st i j ln) by done. simpl.
    destruct (decide (h = h')) as [<-|Hh].
    + rewrite fn_lookup_insert, elem_of_app, list_elem_of_singleton, H1.
      case_decide; [subst j; split; [eauto|by right] | split; [intros [?|?]|]; by auto].
    + rewrite fn_lookup_insert_ne, H1 by done. case_decide; [subst j|done].
      split; intros (x & E & ?); simplify_eq/=; congruence.
  - intros h'. simpl. destruct (decide (h = h')) as [<-|Hh].
    + rewrite fn_lookup_insert. apply NoDup_app. split; [done|]. split; [|apply NoDup_singleton].
      intros x Hx ->%list_elem_of_singleton. by destruct (Hni h).
    + rewrite fn_lookup_insert_ne by done. done.
Qed.

Lemma links_del st i h ln :
  links_ok st → rd (lines st) i = Some ln → ln_link ln = Some h →
  links_ok (set_line st i (ln <| ln_link := None |>)
              <| lists := <[h := filter (λ j, j ≠ i) (lists st h)]> (lists st) |>).
Proof.
  intros [H1 H2] Hi Hl. split.
  - intros h' j. change (lines (_ <| lists := _ |>))
      with (lines (set_line st i (ln <| ln_link := None |>))).
    rewrite (rd_set_line st i j ln) by done. simpl.
    destruct (decide (h = h')) as [<-|Hh].
    + rewrite fn_lookup_insert, list_elem_of_filter, H1. case_decide.
      * subst j. split; [by intros [? _]|intros (x & E & ?); by simplify_eq/=].
      * split; [by intros [_ ?]|by auto].
    + rewrite fn_lookup_insert_ne, H1 by done. case_decide; [subst j|done].
      split; intros (x & E & ?); simplify_eq/=; congruence.
  - intros h'. simpl. destruct (decide (h = h')) as [<-|Hh].
    + rewrite fn_lookup_insert. by apply NoDup_filter.
    + rewrite fn_lookup_insert_ne by done. done.
Qed.

(** ** The invariant *)

(** The group of a line by its number of valid sectors, and the list of a group. *)
Definition group_of (lm : pblk_line_meta) (ln : pblk_line) : line_gc :=
  if vsc ln =? 0 then PBLK_LINEGC_FULL
  else if vsc ln <? high_thrs lm then PBLK_LINEGC_HIGH
  else if vsc ln <? mid_thrs lm then PBLK_LINEGC_MID
  else if vsc ln <? sec_in_line ln then PBLK_LINEGC_LOW
  else PBLK_LINEGC_EMPTY.

Definition list_of (g : line_gc) : line_list :=
  match g with
  | PBLK_LINEGC_NONE => corrupt_list
  | PBLK_LINEGC_EMPTY => gc_empty_list
  | PBLK_LINEGC_LOW => gc_low_list
  | PBLK_LINEGC_MID => gc_mid_list
  | PBLK_LINEGC_HIGH => gc_high_list
  | PBLK_LINEGC_FULL => gc_full_list
  end.

(** While a line is replaced, [Some (i, nrb)]: line [i] of stream [nrb] has just become full and
    is not queued yet; the next line of the stream may already be its current one. *)
Definition full_at (x : option (Z * Z)) (i : Z) : bool :=
  match x with Some (j, _) => bool_decide (j = i) | None => false end.
Definition stale_at (x : option (Z * Z)) (nrb : Z) : bool :=
  match x with Some (_, n) => bool_decide (n = nrb) | None => false end.

Section inv.
Context (lm : pblk_line_meta) (p L R e : nat).

(** The valid sectors of a line are counted: the zeros of its bitmap, none of them
    metadata. *)
Record counted (ln : pblk_line) (b : list bool) : Prop := {
  ct_inv : invalid_bitmap ln = Some b;
  ct_len : sec_per_line lm = Z.of_nat (length b);
  ct_vsc : vsc ln = zeros b;
  ct_sec : zeros b ≤ sec_in_line ln ≤ sec_per_line lm;
  ct_ess : 0 ≤ emeta_ssec ln < sec_per_line lm;
  ct_meta : ∀ k, emeta_ssec ln ≤ Z.of_nat k → (k < length b)%nat → b !! k = Some true
}.

(** A line that was taken but not set up. *)
Record prepared (ln : pblk_line) : Prop := {
  pr_map : map_bitmap ln = Some (replicate (p * pages L R) false);
  pr_inv : is_Some (invalid_bitmap ln);
  pr_vsc : vsc ln = EMPTY_ENTRY;
  pr_link : ln_link ln = None;
  pr_meta : ln_meta ln = None;
  pr_erase : erase_bitmap ln = blk_bitmap ln;
  pr_eblks : left_eblks ln = blk_in_line ln;
  pr_seblks : left_seblks ln = blk_in_line ln
}.

(** A line that is written, with its metadata buffer [k]: the data first ([mem = 0]), then
    [mem] bytes of the metadata, of which [sync] sectors are on the drive.  A full line
    waits in a list of its stream until its metadata are all submitted; [x] exempts
    the one that has just become full. *)
Record writing (x : bool) (st : pblk) (ln : pblk_line) (P : list bool) (c qe : nat)
    (b : list bool) (k mem sync : Z) : Prop := {
  wr_open : open_line p L R ln P c qe;
  wr_counted : counted ln b;
  wr_meta : ln_meta ln = Some k ∧ meta_line ln = k;
  wr_bit : rd (meta_bitmap st) k = Some true;
  wr_mem_k : rd (emeta_mem st) k = Some mem;
  wr_sync_k : rd (emeta_sync st) k = Some sync;
  wr_data : 0 < left_msecs ln ∨ x = true → mem = 0;
  wr_mem : Z.of_nat p * zeros (drop qe P) * sec_size lm + mem = emeta_len lm;
  wr_sync : 0 ≤ sync < emeta_sec lm ∧ sync * sec_size lm ≤ mem;
  wr_sync_p : ∃ s : nat, sync = Z.of_nat (p * s);
  wr_link : if (left_msecs ln =? 0) && (mem <? emeta_len lm) && negb x
            then ∃ nrb, ln_link ln = Some (emeta_list nrb)
            else ln_link ln = None
}.

Definition shape (x : option (Z * Z)) (st : pblk) (i : Z) (ln : pblk_line) : Prop :=
  match ln_state ln with
  | PBLK_LINESTATE_FREE =>
      ln_link ln = Some free_list ∧ gc_group ln = PBLK_LINEGC_NONE ∧ ln_meta ln = None ∧
      vsc ln = EMPTY_ENTRY
  | PBLK_LINESTATE_OPEN =>
      gc_group ln = PBLK_LINEGC_NONE ∧
      (prepared ln ∨ ∃ P c qe b k mem sync, writing (full_at x i) st ln P c qe b k mem sync)
  | PBLK_LINESTATE_CLOSED =>
      gc_group ln = group_of lm ln ∧ ln_link ln = Some (list_of (gc_group ln)) ∧ ln_meta ln = None ∧
      ∃ b, counted ln b
  | PBLK_LINESTATE_GC =>
      gc_group ln = group_of lm ln ∧ (ln_link ln = None ∨ ln_link ln = Some gc_r_list) ∧
      ln_meta ln = None ∧ ∃ b, counted ln b
  | PBLK_LINESTATE_BAD => ln_link ln = Some bad_list ∧ ln_meta ln = None
  | PBLK_LINESTATE_CORRUPT => False
  end.

(** A line being reclaimed holds its own reference until its requests are made. *)
Definition own (st : pblk) (i : Z) (ln : pblk_line) : Z :=
  (if bool_decide (ln_link ln = Some gc_r_list) then 1 else 0) + count i (gc_reader_wq st).

Definition refs (st : pblk) (i : Z) (ln : pblk_line) : Prop :=
  match ln_state ln with
  | PBLK_LINESTATE_OPEN | PBLK_LINESTATE_CLOSED =>
      ref ln = 1 + count i (wb st) ∧ count i (gc_rqs st).*1 = 0 ∧ count i (gc_reader_wq st) = 0
  | PBLK_LINESTATE_GC =>
      ref ln = own st i ln + count i (wb st) + count i (gc_rqs st).*1 ∧ own st i ln ≤ 1
  | _ => count i (wb st) = 0 ∧ count i (gc_rqs st).*1 = 0 ∧ count i (gc_reader_wq st) = 0
  end.

(** The blocks of a line, and the stream it belongs to. *)
Definition blocks (st : pblk) (ln : pblk_line) : Prop :=
  length (blk_bitmap ln) = L ∧
  (ln_state ln ≠ PBLK_LINESTATE_BAD →
     blk_in_line ln = zeros (blk_bitmap ln) ∧ min_blk_line lm ≤ zeros (blk_bitmap ln)) ∧
  0 ≤ pstream ln < Z.of_nat (length (map_type st)).

Record line_ok (x : option (Z * Z)) (st : pblk) (i : Z) (ln : pblk_line) : Prop := {
  lo_shape : shape x st i ln;
  lo_refs : refs st i ln;
  lo_blocks : blocks st ln
}.

(** *** Counters *)

Definition is_free (ln : pblk_line) : Z :=
  if bool_decide (ln_state ln = PBLK_LINESTATE_FREE) then 1 else 0.
Definition free_blks (ln : pblk_line) : Z := is_free ln * blk_in_line ln.
Definition is_target (types : list Z) (ln : pblk_line) : Z :=
  if bool_decide (ln_state ln = PBLK_LINESTATE_CLOSED)
     && negb (bool_decide (rd types (pstream ln) = Some BLOCK_MAP)) then 1 else 0.
Definition is_queued (ln : pblk_line) : Z :=
  if bool_decide (ln_link ln = Some gc_r_list) then 1 else 0.

Record counters (st : pblk) : Prop := {
  cn_free : nr_free_lines st = lsum is_free (lines st);
  cn_target : gc_target st = lsum (is_target (map_type st)) (lines st);
  cn_blks : free_blocks (rl st) = lsum free_blks (lines st);
  cn_inflight : inflight_gc st = lsum is_queued (lines st) + Z.of_nat (length (gc_reader_wq st));
  cn_qd : inflight_gc st ≤ PBLK_GC_L_QD;
  cn_rl : rl_ok (rl st);
  cn_size : (Z.of_nat (length (lines st)) + 1) * (Z.of_nat L + 1) < 2 ^ 31
}.

(** *** Streams and buffers for metadata *)

(** The next line of a stream that has a current one; the other entries of
    the table are not set. *)
Definition next_of (st : pblk) (nrb i : Z) : Prop :=
  (∃ c, rd (data_line st) nrb = Some (Some c)) ∧ rd (data_next st) nrb = Some (Some i).

Record streams (x : option (Z * Z)) (st : pblk) : Prop := {
  sm_line : ∀ nrb i, rd (data_line st) nrb = Some (Some i) →
    ∃ ln, rd (lines st) i = Some ln ∧ ln_state ln = PBLK_LINESTATE_OPEN ∧ is_Some (ln_meta ln) ∧
      (0 < left_msecs ln ∨ full_at x i = true);
  sm_next : ∀ nrb i, stale_at x nrb = false → next_of st nrb i →
    ∃ ln, rd (lines st) i = Some ln ∧ ln_state ln = PBLK_LINESTATE_OPEN ∧ ln_meta ln = None;
  sm_line_inj : ∀ n1 n2 i, rd (data_line st) n1 = Some (Some i) → rd (data_line st) n2 = Some (Some i) → n1 = n2;
  sm_next_inj : ∀ n1 n2 i, next_of st n1 i → next_of st n2 i → n1 = n2;
  sm_length : length (data_next st) = length (data_line st) ∧ length (rb_rl st) = length (data_line st) ∧
    (length (data_line st) ≤ length (map_type st))%nat ∧ Z.of_nat (length (map_type st)) ≤ 256 ∧
    length (nr_erase st) = length (map_type st) ∧ length (invalid_line st) = length (map_type st)
}.

Record metas (st : pblk) : Prop := {
  mt_unique : ∀ i j li lj k, rd (lines st) i = Some li → rd (lines st) j = Some lj →
    ln_meta li = Some k → ln_meta lj = Some k → i = j;
  mt_length : Z.of_nat (length (meta_bitmap st)) = PBLK_DATA_LINES ∧
    length (emeta_mem st) = length (meta_bitmap st) ∧ length (emeta_sync st) = length (meta_bitmap st)
}.

Record inv (x : option (Z * Z)) (st : pblk) : Prop := {
  in_line : ∀ i ln, rd (lines st) i = Some ln → line_ok x st i ln;
  in_links : links_ok st;
  in_counters : counters st;
  in_streams : streams x st;
  in_metas : metas st;
  in_held : ∀ j, 0 < count j (wb st) + count j (gc_rqs st).*1 + count j (gc_reader_wq st) →
    is_Some (rd (lines st) j);
  in_warns : warns st = 0%nat
}.

(** Every line being reclaimed is still held, but for [z]. *)
Definition alive (z : option Z) (st : pblk) : Prop :=
  ∀ i ln, rd (lines st) i = Some ln → ln_state ln = PBLK_LINESTATE_GC → z ≠ Some i → 0 < ref ln.

(** *** Steps that change one line *)

(** Nothing changes for the other lines: references, metadata buffers, types of maps. *)
Record frame (st st' : pblk) (i : Z) : Prop := {
  fr_wb : ∀ j, j ≠ i → count j (wb st') = count j (wb st);
  fr_rqs : ∀ j, j ≠ i → count j (gc_rqs st').*1 = count j (gc_rqs st).*1;
  fr_wq : ∀ j, j ≠ i → count j (gc_reader_wq st') = count j (gc_reader_wq st);
  fr_type : map_type st' = map_type st;
  fr_meta : ∀ j lj k, j ≠ i → rd (lines st) j = Some lj → ln_meta lj = Some k →
    rd (meta_bitmap st') k = rd (meta_bitmap st) k ∧ rd (emeta_mem st') k = rd (emeta_mem st) k ∧
    rd (emeta_sync st') k = rd (emeta_sync st) k
}.

Lemma shape_frame x x' st st' j lj :
  shape x st j lj → full_at x' j = full_at x j →
  (∀ k, ln_meta lj = Some k → rd (meta_bitmap st') k = rd (meta_bitmap st) k ∧
     rd (emeta_mem st') k = rd (emeta_mem st) k ∧ rd (emeta_sync st') k = rd (emeta_sync st) k) →
  shape x' st' j lj.
Proof using.
  unfold shape. intros Hs -> Hm. destruct (ln_state lj); try done.
  destruct Hs as [Hg [Hp|(P & c & qe & b & k & mem & sync & Hw)]]; (split; [done|]); [by left|].
  right. exists P, c, qe, b, k, mem, sync.
  destruct (Hm k) as (E1 & E2 & E3); [by apply Hw|].
  destruct Hw. split; rewrite ?E1, ?E2, ?E3; done.
Qed.

Lemma refs_frame st st' j lj :
  refs st j lj → count j (wb st') = count j (wb st) → count j (gc_rqs st').*1 = count j (gc_rqs st).*1 →
  count j (gc_reader_wq st') = count j (gc_reader_wq st) → refs st' j lj.
Proof using. unfold refs, own. intros Hr -> -> ->. done. Qed.

Lemma in_line_step x x' st st' i ln ln' :
  (∀ j lj, rd (lines st) j = Some lj → line_ok x st j lj) → rd (lines st) i = Some ln →
  lines st' = <[Z.to_nat i := ln']> (lines st) → frame st st' i →
  (∀ j, j ≠ i → full_at x' j = full_at x j) →
  line_ok x' st' i ln' → ∀ j lj, rd (lines st') j = Some lj → line_ok x' st' j lj.
Proof using.
  intros Hall Hi El [] Hx Hok j lj Hj. rewrite El in Hj.
  assert (Hj' : rd (lines (set_line st i ln')) j = Some lj) by done.
  rewrite (rd_set_line st i j ln) in Hj' by done. case_decide; [by simplify_eq|].
  destruct (Hall j lj Hj') as [H1 H2 H3]. split.
  - eapply shape_frame; [done|by apply Hx|]. intros k Hk. by eapply (fr_meta0 j lj k).
  - eapply refs_frame; eauto.
  - unfold blocks in *. by rewrite fr_type0.
Qed.

Lemma in_held_step st st' i ln ln' :
  (∀ j, 0 < count j (wb st) + count j (gc_rqs st).*1 + count j (gc_reader_wq st) → is_Some (rd (lines st) j)) →
  rd (lines st) i = Some ln → lines st' = <[Z.to_nat i := ln']> (lines st) → frame st st' i →
  ∀ j, 0 < count j (wb st') + count j (gc_rqs st').*1 + count j (gc_reader_wq st') → is_Some (rd (lines st') j).
Proof using.
  intros H Hi El [] j Hj. rewrite El. change (is_Some (rd (lines (set_line st i ln')) j)).
  rewrite (rd_set_line st i j ln) by done. case_decide as Hij; [done|].
  apply H. rewrite <- fr_wb0, <- fr_rqs0, <- fr_wq0 by congruence. done.
Qed.

Lemma counters_step st st' i ln ln' :
  counters st → rd (lines st) i = Some ln →
  lines st' = <[Z.to_nat i := ln']> (lines st) → map_type st' = map_type st →
  nr_free_lines st' = nr_free_lines st - is_free ln + is_free ln' →
  gc_target st' = gc_target st - is_target (map_type st) ln + is_target (map_type st) ln' →
  free_blocks (rl st') = free_blocks (rl st) - free_blks ln + free_blks ln' →
  inflight_gc st' - Z.of_nat (length (gc_reader_wq st'))
    = inflight_gc st - Z.of_nat (length (gc_reader_wq st)) - is_queued ln + is_queued ln' →
  inflight_gc st' ≤ PBLK_GC_L_QD → rl_ok (rl st') → counters st'.
Proof using.
  intros [] [_ Hi]%rd_Some El Et E1 E2 E3 E4 E5 Hrl.
  split; rewrite ?El, ?Et, ?(lsum_insert _ _ _ ln), ?length_insert by done; try done; lia.
Qed.

Lemma metas_step st st' i ln ln' :
  metas st → rd (lines st) i = Some ln → lines st' = <[Z.to_nat i := ln']> (lines st) →
  (ln_meta ln' = ln_meta ln ∨ ln_meta ln' = None ∨
   ∃ k, ln_meta ln' = Some k ∧ ∀ j lj, j ≠ i → rd (lines st) j = Some lj → ln_meta lj ≠ Some k) →
  length (meta_bitmap st') = length (meta_bitmap st) → length (emeta_mem st') = length (emeta_mem st) →
  length (emeta_sync st') = length (emeta_sync st) → metas st'.
Proof using.
  intros [Hu Hl] Hi El Hm E1 E2 E3. split; [|by rewrite E1, E2, E3]. rewrite El.
  assert (Hrd : ∀ j, rd (<[Z.to_nat i := ln']> (lines st)) j = if decide (i = j) then Some ln' else rd (lines st) j)
    by (intros j; apply (rd_set_line st i j ln ln' Hi)).
  assert (Hown : ∀ j lj k, i ≠ j → rd (lines st) j = Some lj → ln_meta lj = Some k → ln_meta ln' ≠ Some k).
  { intros j lj k Hne Hj Mj Mi. destruct Hm as [Hm|[Hm|(k' & Hm & Hk)]]; rewrite Hm in Mi; simplify_eq.
    - destruct Hne. by apply (Hu i j ln lj k).
    - by apply (Hk j lj). }
  intros j1 j2 l1 l2 k H1 H2 M1 M2. rewrite Hrd in H1, H2.
  destruct (decide (i = j1)), (decide (i = j2)); subst; simplify_eq; try done.
  - exfalso. eapply (Hown j2); eauto.
  - exfalso. eapply (Hown j1); eauto.
  - by apply (Hu j1 j2 l1 l2 k).
Qed.

Lemma streams_step x x' st st' i ln ln' :
  streams x st → rd (lines st) i = Some ln → lines st' = <[Z.to_nat i := ln']> (lines st) →
  data_line st' = data_line st → data_next st' = data_next st →
  length (rb_rl st') = length (rb_rl st) → length (map_type st') = length (map_type st) →
  length (nr_erase st') = length (nr_erase st) → length (invalid_line st') = length (invalid_line st) →
  (∀ j, j ≠ i → full_at x' j = full_at x j) → (∀ nrb, stale_at x' nrb = false → stale_at x nrb = false) →
  ((∃ nrb, rd (data_line st) nrb = Some (Some i)) →
     ln_state ln' = PBLK_LINESTATE_OPEN ∧ is_Some (ln_meta ln') ∧ (0 < left_msecs ln' ∨ full_at x' i = true)) →
  ((∃ nrb, stale_at x' nrb = false ∧ next_of st nrb i) →
     ln_state ln' = PBLK_LINESTATE_OPEN ∧ ln_meta ln' = None) →
  streams x' st'.
Proof using.
  intros [] Hi El D1 D2 E1 E2 E3 E4 Hx Hy Hl Hn.
  assert (Hrd : ∀ j, rd (lines st') j = if decide (i = j) then Some ln' else rd (lines st) j)
    by (intros j; rewrite El; apply (rd_set_line st i j ln ln' Hi)).
  assert (Hno : ∀ n j, next_of st' n j ↔ next_of st n j) by (intros; unfold next_of; by rewrite D1, D2).
  split; rewrite ?D1, ?D2, ?E1, ?E2, ?E3, ?E4; try done.
  - intros nrb j Hj. rewrite Hrd. case_decide; [subst j; exists ln'; split; [done|]; eauto|].
    destruct (sm_line0 nrb j Hj) as (lj & ? & ? & ? & Hc). exists lj. repeat (split; [done|]).
    destruct Hc; [by left|right]. rewrite Hx by congruence. done.
  - intros nrb j Hs Hj%Hno. rewrite Hrd. case_decide; [subst j; exists ln'; split; [done|]; eauto|].
    apply (sm_next0 nrb); auto.
  - intros n1 n2 j H1%Hno H2%Hno. by apply (sm_next_inj0 n1 n2 j).
Qed.
End inv.

Section ops.
Context (lm : pblk_line_meta) (p L R e : nat) (Hlm : lm_ok lm p L R e).

Local Notation INV := (inv lm p L R).
Local Notation OK := (line_ok lm p L R).
Local Notation pages := (pages L R).

(** ** Lists *)

Lemma list_add_spec st i ln h :
  links_ok st → rd (lines st) i = Some ln → ln_link ln = None →
  ∃ ls, list_add_tail st i h = Some (set_line st i (ln <| ln_link := Some h |>) <| lists := ls |>) ∧
    links_ok (set_line st i (ln <| ln_link := Some h |>) <| lists := ls |>).
Proof using.
  intros Hk Hi Hl. eexists. split; [by apply list_add_tail_eq|]. by apply links_add.
Qed.

Lemma list_del_spec st i ln h :
  links_ok st → rd (lines st) i = Some ln → ln_link ln = Some h →
  ∃ ls, list_del st i = Some (set_line st i (ln <| ln_link := None |>) <| lists := ls |>) ∧
    links_ok (set_line st i (ln <| ln_link := None |>) <| lists := ls |>).
Proof using.
  intros Hk Hi Hl. eexists. split; [by apply list_del_eq|]. by apply links_del.
Qed.

Lemma list_move_spec st i ln h0 h :
  links_ok st → rd (lines st) i = Some ln → ln_link ln = Some h0 →
  ∃ ls, list_move_tail st i h = Some (set_line st i (ln <| ln_link := Some h |>) <| lists := ls |>) ∧
    links_ok (set_line st i (ln <| ln_link := Some h |>) <| lists := ls |>).
Proof using.
  intros Hk Hi Hl. destruct (list_del_spec st i ln h0 Hk Hi Hl) as (l1 & E1 & H1).
  unfold list_move_tail. rewrite E1. cbn [mbind option_bind].
  set (s1 := set_line st i (ln <| ln_link := None |>) <| lists := l1 |>) in *.
  assert (Hi1 : rd (lines s1) i = Some (ln <| ln_link := None |>)) by (by eapply (rd_set_line_eq st)).
  destruct (list_add_spec s1 i _ h H1 Hi1 eq_refl) as (l2 & E2 & H2).
  assert (E : set_line s1 i (ln <| ln_link := None |> <| ln_link := Some h |>) <| lists := l2 |>
              = set_line st i (ln <| ln_link := Some h |>) <| lists := l2 |>).
  { unfold s1, set_line. simpl. by rewrite list_insert_insert_eq. }
  rewrite E in E2, H2. by exists l2.
Qed.

(** ** Steps that leave the state of a line as it is *)

Lemma inv_touch x x' st i ln ln' ls :
  INV x st → rd (lines st) i = Some ln →
  let st' := set_line st i ln' <| lists := ls |> in
  links_ok st' → OK x' st' i ln' → (∀ j, j ≠ i → full_at x' j = full_at x j) →
  (∀ nrb, stale_at x' nrb = false → stale_at x nrb = false) →
  ln_state ln' = ln_state ln → blk_in_line ln' = blk_in_line ln → pstream ln' = pstream ln →
  is_queued ln' = is_queued ln → ln_meta ln' = ln_meta ln →
  (0 < left_msecs ln ∨ full_at x i = true → 0 < left_msecs ln' ∨ full_at x' i = true) →
  INV x' st'.
Proof using.
  intros [Hall Hk Hc Hs Hm Hh Hw] Hi st' Hk' Hok Hx Hy E1 E2 E3 E4 E5 Hleft.
  assert (Hf : frame st st' i) by done. split; try done.
  - eapply (in_line_step lm p L R x x' st); done.
  - eapply (counters_step L st st' i ln ln'); try done; try apply Hc;
      unfold is_free, free_blks, is_target, is_free; simpl; rewrite ?E1, ?E2, ?E3, ?E4; lia.
  - eapply (streams_step x x' st st' i ln ln'); try done.
    + intros [nrb Hn]. destruct (sm_line _ _ Hs nrb i Hn) as (l & ? & ? & ? & ?).
      simplify_eq. rewrite E1, E5. auto.
    + intros (nrb & Hst & Hn). destruct (sm_next _ _ Hs nrb i (Hy _ Hst) Hn) as (l & ? & ? & ?).
      simplify_eq. rewrite E1, E5. auto.
  - eapply (metas_step st st' i ln ln'); try done. by left.
  - by eapply (in_held_step st st' i ln ln').
Qed.

(** A written line after a change that leaves its pages, its metadata and its link. *)
Lemma writing_upd x st st' ln ln' P c qe b b' k mem sync :
  writing lm p L R x st ln P c qe b k mem sync →
  map_bitmap ln' = map_bitmap ln → cur_sec ln' = cur_sec ln → emeta_ssec ln' = emeta_ssec ln →
  left_msecs ln' = left_msecs ln → ln_meta ln' = ln_meta ln → meta_line ln' = meta_line ln →
  ln_link ln' = ln_link ln → counted lm ln' b' →
  meta_bitmap st' = meta_bitmap st → emeta_mem st' = emeta_mem st → emeta_sync st' = emeta_sync st →
  writing lm p L R x st' ln' P c qe b' k mem sync.
Proof using.
  intros [[] ] E1 E2 E3 E4 E5 E6 E7 Hc E8 E9 E10.
  split; rewrite ?E4, ?E5, ?E6, ?E7, ?E8, ?E9, ?E10; try done.
  split; rewrite ?E1, ?E2, ?E3, ?E4; done.
Qed.

(** ** Invalidation *)

Lemma counted_invalidate ln b k :
  counted lm ln b → b !! k = Some false →
  counted lm (ln <| invalid_bitmap := Some (<[k := true]> b) |> <| vsc := u32 (vsc ln - 1) |>) (<[k := true]> b) ∧
  vsc ln - 1 = zeros (<[k := true]> b) ∧ u32 (vsc ln - 1) = vsc ln - 1.
Proof using Hlm.
  intros [] Hk. pose proof (zeros_insert b k Hk) as Hz.
  pose proof (zeros_bounds (<[k := true]> b)). pose proof (lm_int _ _ _ _ _ Hlm).
  rewrite ct_vsc0, u32_small by lia. split; [|lia].
  split; simpl; rewrite ?length_insert; try done; try lia.
  intros j Hj1 Hj2. destruct (decide (j = k)) as [->|].
  - apply list_lookup_insert_eq. lia.
  - rewrite list_lookup_insert_ne by done. by apply ct_meta0.
Qed.

Lemma gc_list_spec ln b :
  counted lm ln b →
  pblk_line_gc_list lm ln =
    if bool_decide (gc_group ln = group_of lm ln) then (ln, None)
    else (ln <| gc_group := group_of lm ln |>, Some (list_of (group_of lm ln))).
Proof using Hlm.
  intros []. pose proof (zeros_bounds b). pose proof (lm_int _ _ _ _ _ Hlm).
  unfold pblk_line_gc_list, group_of. rewrite s32_small, u32_small by lia.
  destruct (vsc ln =? 0) eqn:?; [done|]. destruct (vsc ln <? high_thrs lm); [done|].
  destruct (vsc ln <? mid_thrs lm); [done|]. destruct (Z.ltb_spec (vsc ln) (sec_in_line ln)); [done|].
  rewrite (proj2 (Z.eqb_eq _ _)) by lia. done.
Qed.

Lemma counted_open x st i ln :
  OK x st i ln → ln_state ln = PBLK_LINESTATE_OPEN → is_Some (ln_meta ln) →
  ∃ P c qe b k mem sync, writing lm p L R (full_at x i) st ln P c qe b k mem sync.
Proof using.
  intros [Hs _ _] E [k Hk]. unfold shape in Hs. rewrite E in Hs.
  destruct Hs as [_ [[]|H]]; [congruence|done].
Qed.

Lemma counted_closed x st i ln :
  OK x st i ln → ln_state ln = PBLK_LINESTATE_CLOSED ∨ ln_state ln = PBLK_LINESTATE_GC →
  ∃ b, counted lm ln b.
Proof using. intros [Hs _ _] [E|E]; unfold shape in Hs; rewrite E in Hs; naive_solver. Qed.

(** The line without one more sector; a closed one moves to its new list. *)
Definition invalidated (ln : pblk_line) (b : list bool) (k : nat) : pblk_line :=
  ln <| invalid_bitmap := Some (<[k := true]> b) |> <| vsc := vsc ln - 1 |>.

Definition regrouped (ln : pblk_line) : pblk_line :=
  ln <| gc_group := group_of lm ln |> <| ln_link := Some (list_of (group_of lm ln)) |>.

Lemma invalidate_open x st i ln b k :
  INV x st → rd (lines st) i = Some ln → ln_state ln = PBLK_LINESTATE_OPEN → is_Some (ln_meta ln) →
  invalid_bitmap ln = Some b → b !! k = Some false →
  let st' := set_line st i (invalidated ln b k) in
  __pblk_map_invalidate lm st i (Z.of_nat k) = Some st' ∧ INV x st'.
Proof using Hlm.
  intros Hinv Hi Hop Hme Hb Hk st'. pose proof (in_line _ _ _ _ _ _ Hinv i ln Hi) as Hok.
  destruct (counted_open x st i ln Hok Hop Hme) as (P & c & qe & b' & mk & mem & sync & Hw).
  pose proof (wr_counted _ _ _ _ _ _ _ _ _ _ _ _ _ _ Hw) as Hct.
  pose proof (ct_inv _ _ _ Hct) as Eb. rewrite Hb in Eb. simplify_eq.
  destruct (counted_invalidate ln b' k Hct Hk) as (Hct' & Hz & Hu). rewrite Hu in Hct'.
  split.
  - unfold __pblk_map_invalidate. rewrite Hi. cbn [mbind option_bind]. unfold gone. rewrite Hop.
    cbn [bool_decide decide_rel]. simpl bool_decide. cbn [orb]. rewrite Hb. cbn [mbind option_bind].
    rewrite (test_and_set_spec b' k false) by done. cbn [mbind option_bind].
    rewrite bool_decide_false by (simpl; congruence). rewrite Hu.
    rewrite (upd_line_eq _ _ ln) by done. done.
  - apply (inv_touch x x st i ln _ (lists st) Hinv Hi); try done.
    + apply (links_set_line st i ln); [apply Hinv|done|done].
    + destruct Hok as [Hs Hr Hbl]. split; [|by unfold refs in *; simpl|done].
      unfold shape in *. simpl. rewrite Hop in *. destruct Hs as [Hg _]. split; [done|]. right.
      exists P, c, qe, (<[k := true]> b'), mk, mem, sync.
      eapply (writing_upd _ st _ ln); done.
Qed.

Lemma invalidate_closed x st i ln b k :
  INV x st → rd (lines st) i = Some ln → ln_state ln = PBLK_LINESTATE_CLOSED →
  invalid_bitmap ln = Some b → b !! k = Some false →
  ∃ ls, let st' := set_line st i (regrouped (invalidated ln b k)) <| lists := ls |> in
  __pblk_map_invalidate lm st i (Z.of_nat k) = Some st' ∧ INV x st'.
Proof using Hlm.
  intros Hinv Hi Hop Hb Hk. pose proof (in_line _ _ _ _ _ _ Hinv i ln Hi) as Hok.
  pose proof Hok as [Hs Hr Hbl]. unfold shape in Hs. rewrite Hop in Hs.
  destruct Hs as (Hg & Hl & Hme & b' & Hct). pose proof (ct_inv _ _ _ Hct) as Eb. rewrite Hb in Eb. simplify_eq.
  destruct (counted_invalidate ln b' k Hct Hk) as (Hct' & Hz & Hu). rewrite Hu in Hct'.
  set (l1 := invalidated ln b' k).
  assert (H : ∃ ls, __pblk_map_invalidate lm st i (Z.of_nat k)
                      = Some (set_line st i (regrouped l1) <| lists := ls |>) ∧
                    links_ok (set_line st i (regrouped l1) <| lists := ls |>)).
  { unfold __pblk_map_invalidate. rewrite Hi. cbn [mbind option_bind]. unfold gone. rewrite Hop.
    simpl bool_decide. cbn [orb]. rewrite Hb. cbn [mbind option_bind].
    rewrite (test_and_set_spec b' k false) by done. cbn [mbind option_bind].
    rewrite bool_decide_true by done. rewrite Hu.
    change (pblk_line_gc_list lm _) with (pblk_line_gc_list lm l1).
    rewrite (gc_list_spec l1 _ Hct'). case_bool_decide as Hgr.
    - rewrite (upd_line_eq _ _ ln) by done. cbn [mbind option_bind]. exists (lists st).
      assert (E : regrouped l1 = l1).
      { unfold regrouped. rewrite <- Hgr. unfold l1, invalidated. simpl. rewrite <- Hl. by destruct ln. }
      rewrite E. split; [done|]. apply (links_set_line st i ln); [apply Hinv|done|done].
    - rewrite (upd_line_eq _ _ ln) by done. cbn [mbind option_bind].
      simpl bool_decide. rewrite Hop. simpl bool_decide. cbn [orb].
      set (s1 := set_line st i _).
      destruct (list_move_spec s1 i (l1 <| gc_group := group_of lm l1 |>) (list_of (gc_group ln)) (list_of (group_of lm l1)))
        as (ls & E1 & E2).
      { apply (links_set_line st i ln); [apply Hinv|done|done]. }
      { by apply (rd_set_line_eq st i ln). }
      { done. }
      unfold s1 in E1, E2. rewrite set_line_twice in E1, E2. exists ls. done. }
  destruct H as (ls & E & Hlk). exists ls. split; [done|].
  apply (inv_touch x x st i ln _ ls Hinv Hi); try done.
  - split; [|by unfold refs in *; simpl; rewrite Hop in *|done].
    unfold shape. simpl. rewrite Hop. split; [done|]. split; [done|]. split; [done|].
    exists (<[k := true]> b'). by destruct Hct'.
  - unfold is_queued. simpl. rewrite Hl. destruct (group_of lm l1), (gc_group ln); done.
Qed.

(** ** References *)

Lemma inv_one x x' st st' i ln ln' :
  INV x st → rd (lines st) i = Some ln →
  lines st' = <[Z.to_nat i := ln']> (lines st) → frame st st' i → links_ok st' →
  (∀ j, j ≠ i → full_at x' j = full_at x j) → OK x' st' i ln' →
  counters L st' → streams x' st' → metas st' → warns st' = warns st → INV x' st'.
Proof using.
  intros [] Hi El Hf Hk Hx Hok Hc Hs Hm Hw. split; try done; [|by eapply (in_held_step st st' i ln ln')|congruence].
  eapply (in_line_step lm p L R x x' st); done.
Qed.

Lemma rates_free (r : pblk_rl) : free_blocks (rates_spec r) = free_blocks r.
Proof using. unfold rates_spec. by destruct (high r <=? free_blocks r). Qed.

Lemma rl_inc_spec r g n :
  rl_ok r → 0 ≤ n → free_blocks r + n < 2 ^ 31 →
  ∃ r' g', pblk_rl_free_lines_inc r g n = Some (r', g') ∧ rl_ok r' ∧ free_blocks r' = free_blocks r + n.
Proof using.
  intros Hok Hn Hb. pose proof Hok as []. unfold pblk_rl_free_lines_inc, pblk_gc_should_kick.
  rewrite s32_small by lia. set (r1 := r <| free_blocks := free_blocks r + n |>).
  assert (rl_ok r1) as Hok1 by (split; simpl; lia).
  rewrite (pblk_rl_update_rates_spec r1 Hok1). cbn [mbind option_bind].
  eexists _, _. split; [done|]. split; [by apply rates_spec_ok|]. apply rates_free.
Qed.

Lemma rl_kick_spec r g :
  rl_ok r → ∃ r' g', pblk_gc_should_kick r g = Some (r', g') ∧ rl_ok r' ∧ free_blocks r' = free_blocks r.
Proof using.
  intros Hok. unfold pblk_gc_should_kick. rewrite (pblk_rl_update_rates_spec r Hok). cbn [mbind option_bind].
  eexists _, _. split; [done|]. split; [by apply rates_spec_ok|]. apply rates_free.
Qed.

(** The counters stay in range. *)
Lemma counters_bounds x st :
  INV x st →
  0 ≤ nr_free_lines st < 2 ^ 31 - 1 ∧ 0 ≤ gc_target st < 2 ^ 31 - 1 ∧
  0 ≤ free_blocks (rl st) < 2 ^ 31 - Z.of_nat L ∧ 0 ≤ inflight_gc st ≤ 4.
Proof using.
  intros [Hall _ [] _ _ _ _]. rewrite cn_free0, cn_target0, cn_blks0.
  pose proof (lsum_bounds is_free (lines st) 1) as B1.
  pose proof (lsum_bounds (is_target (map_type st)) (lines st) 1) as B2.
  pose proof (lsum_bounds free_blks (lines st) (Z.of_nat L)) as B3.
  pose proof (lsum_bounds is_queued (lines st) 1) as B4.
  assert (∀ ln, 0 ≤ is_free ln ≤ 1) by (intros; unfold is_free; case_bool_decide; lia).
  assert (∀ ln, 0 ≤ is_target (map_type st) ln ≤ 1) by (intros; unfold is_target; destruct (_ && _); lia).
  assert (∀ ln, 0 ≤ is_queued ln ≤ 1) by (intros; unfold is_queued; case_bool_decide; lia).
  assert (∀ ln, ln ∈ lines st → 0 ≤ free_blks ln ≤ Z.of_nat L).
  { intros ln [k Hk]%list_elem_of_lookup_1. destruct (Hall (Z.of_nat k) ln) as [_ _ (Hb1 & Hb2 & _)].
    { apply rd_Some. rewrite Nat2Z.id. split; [lia|done]. }
    pose proof (zeros_bounds (blk_bitmap ln)). unfold free_blks, is_free. case_bool_decide as Hf; [|lia].
    destruct Hb2 as [-> _]; [by rewrite Hf|lia]. }
  unfold PBLK_GC_L_QD in *. specialize (B1 ltac:(auto)). specialize (B2 ltac:(auto)).
  specialize (B3 ltac:(auto)). specialize (B4 ltac:(auto)).
  assert (Z.of_nat (length (lines st)) < 2 ^ 31 - 1) by nia. repeat split; nia.
Qed.

(** The line returned to the pool. *)
Definition freed (ln : pblk_line) : pblk_line :=
  ln <| ln_state := PBLK_LINESTATE_FREE |> <| gc_group := PBLK_LINEGC_NONE |> <| vsc := EMPTY_ENTRY |>
     <| map_bitmap := None |> <| invalid_bitmap := None |> <| ln_meta := None |>
     <| ln_link := Some free_list |>.

Lemma line_put_spec x st i ln :
  INV x st → rd (lines st) i = Some ln → ln_state ln = PBLK_LINESTATE_GC → ln_link ln = None →
  ∃ ne ls r' g', let st' := set_line st i (freed ln) <| lists := ls |> <| nr_erase := ne |>
      <| nr_free_lines := nr_free_lines st + 1 |> <| rl := r' |> <| gc := g' |> in
    pblk_line_put st i = Some st' ∧ links_ok st' ∧ length ne = length (nr_erase st) ∧ rl_ok r' ∧
    free_blocks r' = free_blocks (rl st) + blk_in_line ln.
Proof using.
  intros Hinv Hi Hgc Hl. destruct (in_line _ _ _ _ _ _ Hinv i ln Hi) as [_ _ (Hb1 & Hb2 & Hps)].
  destruct Hb2 as [Hb2 _]; [by rewrite Hgc|].
  pose proof (in_streams _ _ _ _ _ _ Hinv) as [_ _ _ _ (_ & _ & _ & _ & Hne & _)].
  pose proof (counters_bounds x st Hinv) as (B1 & _ & B3 & _).
  pose proof (in_counters _ _ _ _ _ _ Hinv) as []. pose proof (zeros_bounds (blk_bitmap ln)) as Hz.
  destruct (rd_is_Some (nr_erase st) (pstream ln)) as [n Hn]; [lia|].
  destruct (rl_inc_spec (rl st) (gc st) (blk_in_line ln)) as (r' & g' & Er & Hr1 & Hr2); [done|lia|lia|].
  set (ne := <[Z.to_nat (pstream ln) := n + 1]> (nr_erase st)).
  set (s0 := st <| nr_erase := ne |>). set (l1 := freed ln <| ln_link := None |>).
  destruct (list_add_spec (set_line s0 i l1) i l1 free_list) as (ls & E1 & E2).
  { apply (links_same (set_line st i l1)); [done..|].
    apply (links_set_line st i ln); [apply Hinv|done|by rewrite Hl]. }
  { by apply (rd_set_line_eq s0 i ln). }
  { done. }
  rewrite set_line_twice in E1, E2. exists ne, ls, r', g'.
  split; [|split; [by eapply links_same; [..|exact E2]|by unfold ne; rewrite length_insert]].
  unfold pblk_line_put. rewrite Hi. cbn [mbind option_bind]. rewrite Hn. cbn [mbind option_bind].
  rewrite wr_in_range by lia. cbn [mbind option_bind]. rewrite bool_decide_true by done. cbn [negb warn_if].
  fold ne s0. rewrite (upd_line_eq s0 i ln) by done. cbn [mbind option_bind].
  unfold pblk_line_free. rewrite (upd_set_line s0 i ln) by done. cbn [mbind option_bind].
  match goal with |- context [list_add_tail (set_line s0 i ?l) _ _] => replace l with l1 end.
  2:{ unfold l1, freed. clear - Hl. destruct ln. cbn in Hl |- *. by subst. }
  rewrite E1. cbn [mbind option_bind].
  change (pblk_rl_free_lines_inc _ _ _) with (pblk_rl_free_lines_inc (rl st) (gc st) (blk_in_line ln)).
  rewrite Er. cbn [mbind option_bind]. rewrite s32_small by (simpl; lia).
  unfold l1, s0, set_line. clear. destruct st, ln. reflexivity.
Qed.

Lemma not_owned x st i ln :
  INV x st → rd (lines st) i = Some ln → ln_state ln ≠ PBLK_LINESTATE_OPEN →
  (¬ ∃ nrb, rd (data_line st) nrb = Some (Some i)) ∧
  (¬ ∃ nrb, stale_at x nrb = false ∧ next_of st nrb i).
Proof using.
  intros Hinv Hi Hne. pose proof (in_streams _ _ _ _ _ _ Hinv) as [].
  split; [intros [nrb Hn]|intros (nrb & Hst & Hn)].
  - destruct (sm_line0 nrb i Hn) as (l & ? & ? & _). congruence.
  - destruct (sm_next0 nrb i Hst Hn) as (l & ? & ? & _). congruence.
Qed.

Lemma line_put_inv x st i ln :
  INV x st → alive (Some i) st → rd (lines st) i = Some ln → ln_state ln = PBLK_LINESTATE_GC → ref ln = 0 →
  ∃ st', pblk_line_put st i = Some st' ∧ INV x st' ∧ alive None st' ∧
    lines st' = <[Z.to_nat i := freed ln]> (lines st).
Proof using Hlm.
  intros Hinv Hal Hi Hgc Hr0. pose proof (in_line _ _ _ _ _ _ Hinv i ln Hi) as [Hs Hr Hb].
  unfold shape in Hs. unfold refs in Hr. rewrite Hgc in Hs, Hr. destruct Hr as (Hr & Ho).
  pose proof (count_nonneg i (wb st)) as C1. pose proof (count_nonneg i (gc_rqs st).*1) as C2.
  pose proof (count_nonneg i (gc_reader_wq st)) as C3. unfold own in Hr, Ho.
  assert (Hl : ln_link ln = None).
  { destruct Hs as (_ & [Hl|Hl] & _); [done|]. rewrite bool_decide_true in Hr by done. lia. }
  rewrite bool_decide_false in Hr by (rewrite Hl; done).
  destruct (line_put_spec x st i ln Hinv Hi Hgc Hl) as (ne & ls & r' & g' & Ep & Hk & Hne & Hrl & Hfb).
  eexists. split; [exact Ep|]. pose proof (not_owned x st i ln Hinv Hi ltac:(by rewrite Hgc)) as [No1 No2].
  pose proof (in_counters _ _ _ _ _ _ Hinv) as Hc.
  split; [|split; [|done]].
  - eapply (inv_one x x st _ i ln (freed ln)); try done.
    + split; [|unfold refs; simpl; lia|].
      * unfold shape. simpl. done.
      * destruct Hb as (? & Hmin & ?). split; [done|]. split; [|done].
        intros _. apply Hmin. by rewrite Hgc.
    + eapply (counters_step L st _ i ln (freed ln)); try done; unfold free_blks, is_free, is_target, is_queued;
        rewrite ?Hgc, ?Hl; simpl; try lia. apply Hc.
    + eapply (streams_step x x st _ i ln (freed ln)); try done; apply Hinv.
    + eapply (metas_step st _ i ln (freed ln)); try done; [apply Hinv|]. by right; left.
  - intros j lj Hj Hjg _. simpl in Hj.
    assert (Hj' : rd (lines (set_line st i (freed ln))) j = Some lj) by done.
    rewrite (rd_set_line st i j ln) in Hj' by done. case_decide; [by simplify_eq|].
    apply (Hal j lj); [done|done|congruence].
Qed.

Lemma alive_weaken z st : alive None st → alive z st.
Proof using. intros H i ln Hi Hg _. by apply (H i ln). Qed.

(** Dropping a reference: [st] is the state without the holder's claim. *)
Lemma kref_put_inv x st i ln :
  rd (lines st) i = Some ln → let ln' := ln <| ref := ref ln - 1 |> in
  INV x (set_line st i ln') → alive (Some i) (set_line st i ln') →
  ln_state ln = PBLK_LINESTATE_OPEN ∨ ln_state ln = PBLK_LINESTATE_CLOSED ∨ ln_state ln = PBLK_LINESTATE_GC →
  ∃ st', kref_put st i = Some st' ∧ INV x st' ∧ alive None st' ∧
    (if ref ln - 1 =? 0 then ln_state ln = PBLK_LINESTATE_GC ∧ lines st' = <[Z.to_nat i := freed ln']> (lines st)
     else st' = set_line st i ln').
Proof using Hlm.
  intros Hi ln' Hinv Hal Hst. unfold kref_put. rewrite Hi. cbn [mbind option_bind].
  rewrite (upd_line_eq st i ln) by done. cbn [mbind option_bind].
  change (set_line st i _) with (set_line st i ln').
  assert (Hi' : rd (lines (set_line st i ln')) i = Some ln') by (by eapply rd_set_line_eq).
  pose proof (in_line _ _ _ _ _ _ Hinv i ln' Hi') as [_ Hr _]. unfold refs in Hr.
  change (ln_state ln') with (ln_state ln) in Hr. change (ref ln') with (ref ln - 1) in Hr.
  pose proof (count_nonneg i (wb (set_line st i ln'))) as C1.
  pose proof (count_nonneg i (gc_rqs (set_line st i ln')).*1) as C2.
  pose proof (count_nonneg i (gc_reader_wq (set_line st i ln'))) as C3.
  destruct (Z.eqb_spec (ref ln - 1) 0) as [E|E].
  - assert (Hgc : ln_state ln = PBLK_LINESTATE_GC).
    { destruct Hst as [E1|[E1|E1]]; [..|done]; rewrite E1 in Hr; lia. }
    destruct (line_put_inv x _ i ln' Hinv Hal Hi' Hgc E) as (st' & E1 & E2 & E3 & E4).
    exists st'. split; [done|]. split; [done|]. split; [done|]. split; [done|].
    rewrite E4. simpl. by rewrite list_insert_insert_eq.
  - exists (set_line st i ln'). split; [done|]. split; [done|]. split; [|done].
    intros j lj Hj Hg _. destruct (decide (j = i)) as [->|].
    + assert (lj = ln') as -> by congruence. change (ln_state ln') with (ln_state ln) in Hg.
      rewrite Hg in Hr. unfold own in Hr. simpl. destruct (bool_decide _); lia.
    + apply (Hal j lj); [done|done|congruence].
Qed.

(** Only the references and the number of addresses written differ. *)
Definition same_shape (ln ln' : pblk_line) : Prop :=
  ∃ r v, ln' = ln <| ref := r |> <| nr_valid_lbas := v |>.

Lemma same_shape_ref ln r : same_shape ln (ln <| ref := r |>).
Proof using. exists r, (nr_valid_lbas ln). by destruct ln. Qed.

Lemma shape_same x st st' i ln ln' :
  shape lm p L R x st i ln → same_shape ln ln' →
  meta_bitmap st' = meta_bitmap st → emeta_mem st' = emeta_mem st → emeta_sync st' = emeta_sync st →
  shape lm p L R x st' i ln'.
Proof using.
  intros Hs (r & v & ->) E1 E2 E3. unfold shape in *. simpl. destruct (ln_state ln); try done.
  - destruct Hs as [Hg [Hp|(P & c & qe & b & k & mem & sync & Hw)]]; (split; [done|]).
    + left. by destruct Hp.
    + right. exists P, c, qe, b, k, mem, sync. eapply (writing_upd _ st _ ln); try done.
      pose proof (wr_counted _ _ _ _ _ _ _ _ _ _ _ _ _ _ Hw) as []. done.
  - destruct Hs as (? & ? & ? & b & []). do 3 (split; [done|]). by exists b.
  - destruct Hs as (? & ? & ? & b & []). do 3 (split; [done|]). by exists b.
Qed.

(** A line that something refers to is open, closed or being reclaimed. *)
Lemma held_state x st i ln :
  INV x st → rd (lines st) i = Some ln →
  0 < count i (wb st) + count i (gc_rqs st).*1 + count i (gc_reader_wq st) →
  ln_state ln = PBLK_LINESTATE_OPEN ∨ ln_state ln = PBLK_LINESTATE_CLOSED ∨ ln_state ln = PBLK_LINESTATE_GC.
Proof using.
  intros Hinv Hi Hc. pose proof (in_line _ _ _ _ _ _ Hinv i ln Hi) as [_ Hr _]. unfold refs in Hr.
  destruct (ln_state ln); auto; lia.
Qed.

(** A step that only changes the references of line [i]. *)
Lemma inv_refs x st st' i ln ln' :
  INV x st → rd (lines st) i = Some ln → same_shape ln ln' →
  lines st' = <[Z.to_nat i := ln']> (lines st) → lists st' = lists st → frame st st' i →
  refs st' i ln' →
  nr_free_lines st' = nr_free_lines st → gc_target st' = gc_target st → rl st' = rl st →
  inflight_gc st' - Z.of_nat (length (gc_reader_wq st'))
    = inflight_gc st - Z.of_nat (length (gc_reader_wq st)) → inflight_gc st' ≤ PBLK_GC_L_QD →
  data_line st' = data_line st → data_next st' = data_next st → rb_rl st' = rb_rl st →
  nr_erase st' = nr_erase st → invalid_line st' = invalid_line st →
  meta_bitmap st' = meta_bitmap st → emeta_mem st' = emeta_mem st → emeta_sync st' = emeta_sync st →
  warns st' = warns st → INV x st'.
Proof using.
  intros Hinv Hi Hss El Els Hf Hr E1 E2 E3 E4 E5 D1 D2 D3 D4 D5 M1 M2 M3 Hw.
  pose proof (in_line _ _ _ _ _ _ Hinv i ln Hi) as [Hs _ Hb]. pose proof (fr_type _ _ _ Hf) as Ht.
  pose proof (shape_same x st st' i ln ln' Hs Hss M1 M2 M3) as Hs'. destruct Hss as (r & v & E').
  pose proof (in_counters _ _ _ _ _ _ Hinv) as Hc.
  eapply (inv_one x x st st' i ln); try done.
  - apply (links_same (set_line st i ln')); [done|by rewrite Els|].
    apply (links_set_line st i ln); [apply Hinv|done|by rewrite E'].
  - split; [done|done|]. unfold blocks in *. rewrite Ht, E'. done.
  - eapply (counters_step L st st' i ln); try done; rewrite ?E3, ?E'; unfold free_blks, is_free, is_target, is_queued;
      simpl; try lia. apply Hc.
  - eapply (streams_step x x st st' i ln); try done; rewrite ?D3, ?D4, ?D5, ?Ht, ?E'; try done; [apply Hinv|..].
    + intros [nrb Hn]. destruct (sm_line _ _ (in_streams _ _ _ _ _ _ Hinv) nrb i Hn) as (l & ? & ?).
      simplify_eq. done.
    + intros (nrb & Hst & Hn). destruct (sm_next _ _ (in_streams _ _ _ _ _ _ Hinv) nrb i Hst Hn) as (l & ? & ?).
      simplify_eq. done.
  - apply (metas_step st st' i ln ln'); [apply Hinv|done|done|left; by rewrite E'|by rewrite M1|by rewrite M2|by rewrite M3].
Qed.

Lemma alive_but x st st' i ln ln' :
  INV x st → alive None st → rd (lines st) i = Some ln →
  lines st' = <[Z.to_nat i := ln']> (lines st) → alive (Some i) st'.
Proof using.
  intros Hinv Hal Hi El j lj Hj Hg Hne. rewrite El in Hj.
  assert (Hj' : rd (lines (set_line st i ln')) j = Some lj) by done.
  rewrite (rd_set_line st i j ln) in Hj' by done. case_decide; [congruence|]. by apply (Hal j lj).
Qed.

Lemma l2p_update_inv x st n :
  INV x st → alive None st → (n < length (wb st))%nat →
  ∃ st', l2p_update st n = Some st' ∧ INV x st' ∧ alive None st'.
Proof using Hlm.
  intros Hinv Hal Hn. destruct (lookup_lt_is_Some_2 _ _ Hn) as [i Hw].
  assert (Hcnt : 0 < count i (wb st)) by (apply count_pos; by eapply list_elem_of_lookup_2).
  pose proof (count_nonneg i (gc_rqs st).*1). pose proof (count_nonneg i (gc_reader_wq st)).
  destruct (in_held _ _ _ _ _ _ Hinv i) as [ln Hi]; [lia|].
  pose proof (held_state x st i ln Hinv Hi ltac:(lia)) as Hst.
  unfold l2p_update. rewrite Hw. cbn [mbind option_bind].
  set (s1 := st <| wb := delete n (wb st) |>).
  assert (Hd : ∀ j, count j (wb s1) = count j (wb st) - if decide (i = j) then 1 else 0)
    by (intros j; by apply count_delete).
  destruct (kref_put_inv x s1 i ln) as (st' & E1 & E2 & E3 & _); [done|..|done|by exists st'].
  - pose proof (in_counters _ _ _ _ _ _ Hinv) as []. pose proof (in_line _ _ _ _ _ _ Hinv i ln Hi) as [_ Hr _].
    eapply (inv_refs x st _ i ln); try done; [apply same_shape_ref|..].
    + split; try done. intros j Hj. change (count j (wb s1) = count j (wb st)).
      rewrite Hd, decide_False by congruence. lia.
    + specialize (Hd i). rewrite decide_True in Hd by done. unfold refs, own in *.
      destruct Hst as [E|[E|E]]; rewrite E in Hr; simpl; rewrite E, ?Hd; simpl in Hd; lia.
  - eapply (alive_but x st _ i ln); done.
Qed.

Lemma gc_request_done_inv x st n :
  INV x st → alive None st → (n < length (gc_rqs st))%nat →
  ∃ st', gc_request_done st n = Some st' ∧ INV x st' ∧ alive None st'.
Proof using Hlm.
  intros Hinv Hal Hn. destruct (lookup_lt_is_Some_2 _ _ Hn) as [[i r] Hw].
  assert (Hw1 : (gc_rqs st).*1 !! n = Some i) by (by rewrite list_lookup_fmap, Hw).
  assert (Hcnt : 0 < count i (gc_rqs st).*1) by (apply count_pos; by eapply list_elem_of_lookup_2).
  pose proof (count_nonneg i (wb st)). pose proof (count_nonneg i (gc_reader_wq st)).
  destruct (in_held _ _ _ _ _ _ Hinv i) as [ln Hi]; [lia|].
  pose proof (held_state x st i ln Hinv Hi ltac:(lia)) as Hst.
  unfold gc_request_done. rewrite Hw. cbn [mbind option_bind].
  set (s1 := st <| gc_rqs := delete n (gc_rqs st) |>).
  assert (Hd : ∀ j, count j (gc_rqs s1).*1 = count j (gc_rqs st).*1 - if decide (i = j) then 1 else 0).
  { intros j. simpl. rewrite list_fmap_delete. by apply count_delete. }
  destruct (kref_put_inv x s1 i ln) as (st' & E1 & E2 & E3 & _); [done|..|done|by exists st'].
  - pose proof (in_counters _ _ _ _ _ _ Hinv) as []. pose proof (in_line _ _ _ _ _ _ Hinv i ln Hi) as [_ Hr _].
    eapply (inv_refs x st _ i ln); try done; [apply same_shape_ref|..].
    + split; try done. intros j Hj. change (count j (gc_rqs s1).*1 = count j (gc_rqs st).*1).
      rewrite Hd, decide_False by congruence. lia.
    + specialize (Hd i). rewrite decide_True in Hd by done. unfold refs, own in *.
      destruct Hst as [E|[E|E]]; rewrite E in Hr; simpl; rewrite E, ?Hd; simpl in Hd; lia.
  - eapply (alive_but x st _ i ln); done.
Qed.
End ops.
