(* ===== verification/PblkLineGc.v ===== *)
(** * Lines of pblk: the collector keeps the invariant

    [pblk_gc_run] takes closed lines to be reclaimed, [pblk_gc_read] queues them,
    [pblk_gc_line_prepare_ws] divides their valid sectors into requests. *)

From stdpp Require Import functions.
From S2P Require Import Prelude Bitmap RateLimiter PblkLine PblkLineInv PblkLineRun.

Section gc.
Context (lm : pblk_line_meta) (p L R e : nat) (Hlm : lm_ok lm p L R e).

Local Notation INV := (inv lm p L R).
Local Notation OK := (line_ok lm p L R).

(** A list loses the line that leaves it. *)
Lemma list_shrinks st st' i ln ln' h :
  links_ok st → links_ok st' → rd (lines st) i = Some ln → lines st' = <[Z.to_nat i := ln']> (lines st) →
  ln_link ln = Some h → ln_link ln' ≠ Some h → lists st h ≡ₚ i :: lists st' h.
Proof using.
  intros K1 K2 Hi El H1 H2.
  assert (Hrd : ∀ j, rd (lines st') j = if decide (i = j) then Some ln' else rd (lines st) j)
    by (intros j; rewrite El; apply (rd_set_line st i j ln ln' Hi)).
  apply NoDup_Permutation.
  - apply K1.
  - constructor; [|apply K2]. rewrite (lk_mem _ K2), Hrd, decide_True by done.
    intros (x & E & ?). by simplify_eq.
  - intros j. rewrite elem_of_cons, (lk_mem _ K1), (lk_mem _ K2), Hrd.
    destruct (decide (i = j)) as [<-|Hne]; [split; [by left|naive_solver]|].
    split; [by right|]. intros [?|?]; [congruence|done].
Qed.

(** ** Taking a line *)

Definition taken (ln : pblk_line) : pblk_line :=
  ln <| ln_state := PBLK_LINESTATE_GC |> <| ln_link := None |>.

Lemma gc_take_spec x st i ln :
  INV x st → rd (lines st) i = Some ln → ln_state ln = PBLK_LINESTATE_CLOSED →
  ∃ ls, let st' := set_line st i (taken ln) <| lists := ls |>
                     <| gc_target := gc_target st - is_target (map_type st) ln |> in
    gc_take st i = Some st' ∧ links_ok st'.
Proof using.
  intros Hinv Hi Hc. pose proof (in_line _ _ _ _ _ _ Hinv i ln Hi) as [Hs _ (_ & _ & Hps)].
  unfold shape in Hs. rewrite Hc in Hs. destruct Hs as (_ & Hl & _).
  destruct (rd_is_Some (map_type st) (pstream ln)) as [mt Hmt]; [lia|].
  pose proof (counters_bounds lm p L R x st Hinv) as (_ & B & _).
  set (l1 := ln <| ln_state := PBLK_LINESTATE_GC |>).
  set (tg := gc_target st - is_target (map_type st) ln).
  set (s1 := set_line st i l1 <| gc_target := tg |>).
  destruct (list_del_spec s1 i l1 (list_of (gc_group ln))) as (ls & E1 & E2).
  { apply (links_same (set_line st i l1)); [done..|]. apply (links_set_line st i ln); [apply Hinv|done|done]. }
  { by apply (rd_set_line_eq st i ln). }
  { done. }
  exists ls. cbn zeta. split.
  - unfold gc_take. rewrite Hi. cbn [mbind option_bind]. rewrite bool_decide_true by done. cbn [negb warn_if].
    rewrite (upd_line_eq st i ln) by done. cbn [mbind option_bind]. fold l1.
    change (map_type (set_line st i l1)) with (map_type st). rewrite Hmt. cbn [mbind option_bind].
    replace (if negb (mt =? BLOCK_MAP) then _ else _) with s1.
    2:{ unfold s1, tg, is_target. rewrite bool_decide_true, Hmt by done. cbn [andb].
        destruct (Z.eqb_spec mt BLOCK_MAP) as [->|Hne]; cbn [negb].
        - rewrite bool_decide_true, Z.sub_0_r by done. unfold set_line. by destruct st.
        - rewrite bool_decide_false by congruence. rewrite s32_small; [done|].
          simpl. lia. }
    rewrite E1. unfold s1, set_line. simpl. by rewrite list_insert_insert_eq.
  - apply (links_same _ _) with (3 := E2); [|done]. simpl. by rewrite list_insert_insert_eq.
Qed.

Lemma closed_refs x st i ln :
  INV x st → rd (lines st) i = Some ln → ln_state ln = PBLK_LINESTATE_CLOSED →
  gc_group ln = group_of lm ln ∧ ln_link ln = Some (list_of (gc_group ln)) ∧ ln_meta ln = None ∧
  is_queued ln = 0 ∧ (∃ b, counted lm ln b) ∧
  ref ln = 1 + count i (wb st) ∧ count i (gc_rqs st).*1 = 0 ∧ count i (gc_reader_wq st) = 0.
Proof using.
  intros Hinv Hi Hc. pose proof (in_line _ _ _ _ _ _ Hinv i ln Hi) as [Hs Hr _].
  unfold shape in Hs. unfold refs in Hr. rewrite Hc in Hs, Hr. destruct Hs as (? & Hl & ? & ?).
  do 3 (split; [done|]). split; [|done]. unfold is_queued. rewrite Hl. by destruct (gc_group ln).
Qed.

(** A line without valid sectors is returned, once nothing refers to it. *)
Lemma gc_return_inv x st i ln :
  INV x st → alive None st → rd (lines st) i = Some ln → ln_state ln = PBLK_LINESTATE_CLOSED →
  ∃ s1 st', gc_take st i = Some s1 ∧ kref_put s1 i = Some st' ∧ INV x st' ∧ alive None st' ∧
    ∃ ln', lines st' = <[Z.to_nat i := ln']> (lines st) ∧ ln_link ln' ≠ ln_link ln.
Proof using Hlm.
  intros Hinv Hal Hi Hc. destruct (gc_take_spec x st i ln Hinv Hi Hc) as (ls & E1 & Hk).
  destruct (closed_refs x st i ln Hinv Hi Hc) as (Hg & Hl & Hme & Hq & Hct & Hr & Hrq & Hwq).
  pose proof (in_line _ _ _ _ _ _ Hinv i ln Hi) as [_ _ Hb].
  pose proof (not_owned lm p L R x st i ln Hinv Hi ltac:(by rewrite Hc)) as [No1 No2].
  pose proof (in_counters _ _ _ _ _ _ Hinv) as Hcn.
  set (s1 := set_line st i (taken ln) <| lists := ls |> <| gc_target := _ |>) in *.
  assert (Hi1 : rd (lines s1) i = Some (taken ln)) by (by apply (rd_set_line_eq st i ln)).
  set (l2 := taken ln <| ref := ref ln - 1 |>).
  assert (El : lines (set_line s1 i l2) = <[Z.to_nat i := l2]> (lines st))
    by (simpl; by rewrite list_insert_insert_eq).
  destruct (kref_put_inv lm p L R e Hlm x s1 i (taken ln) Hi1) as (st' & E2 & E3 & E4 & E5).
  - eapply (inv_one lm p L R x x st (set_line s1 i l2) i ln l2); try done.
    + apply (links_set_line s1 i (taken ln)); done.
    + split.
      * unfold shape. simpl. split; [done|]. split; [by left|]. split; [done|].
        destruct Hct as [b []]. by exists b.
      * unfold refs, own. simpl. rewrite Hrq, Hwq. lia.
      * destruct Hb as (? & Hmin & ?). split; [done|]. split; [|done].
        intros _. apply Hmin. by rewrite Hc.
    + eapply (counters_step L st (set_line s1 i l2) i ln l2); try done; try apply Hcn;
        rewrite ?Hq; try change (is_target (map_type st) l2) with 0;
        unfold free_blks, is_free, is_queued; simpl; rewrite ?Hc; simpl; lia.
    + eapply (streams_step x x st (set_line s1 i l2) i ln l2); try done; apply Hinv.
    + apply (metas_step st (set_line s1 i l2) i ln l2); try done; [apply Hinv|]. by right; left.
  - apply (alive_but lm p L R x st _ i ln l2); done.
  - by right; right.
  - exists s1, st'. split; [done|]. split; [done|]. split; [done|]. split; [done|].
    simpl in E5. destruct (ref ln - 1 =? 0).
    + eexists. split; [rewrite (proj2 E5); simpl; by rewrite list_insert_insert_eq|].
      simpl. rewrite Hl. by destruct (gc_group ln).
    + exists l2. split; [by rewrite E5|]. simpl. by rewrite Hl.
Qed.

(** The lists of the collector hold closed lines, each in the list of its group. *)
Lemma in_gc_list x st h i :
  INV x st → i ∈ lists st h → (∃ g, g ≠ PBLK_LINEGC_NONE ∧ h = list_of g) →
  ∃ ln, rd (lines st) i = Some ln ∧ ln_state ln = PBLK_LINESTATE_CLOSED ∧ ln_link ln = Some h.
Proof using.
  intros Hinv Hin (g & Hg & ->). apply (lk_mem _ (in_links _ _ _ _ _ _ Hinv)) in Hin as (ln & Hi & Hl).
  exists ln. split; [done|]. split; [|done]. pose proof (in_line _ _ _ _ _ _ Hinv i ln Hi) as [Hs _ _].
  unfold shape in Hs. destruct (ln_state ln); try done; exfalso.
  - destruct Hs as (Hs & _). rewrite Hs in Hl. by destruct g.
  - destruct Hs as (_ & [[]|(P & c & qe & b & k & mem & sync & [])]); [congruence|].
    destruct (_ && _); [|congruence]. destruct wr_link as [nrb E]. rewrite E in Hl. by destruct g.
  - destruct Hs as (_ & [E|E] & _); rewrite E in Hl; by destruct g.
  - destruct Hs as (E & _). rewrite E in Hl. by destruct g.
Qed.

Lemma gc_full_loop_inv x fuel st :
  INV x st → alive None st → (length (lists st gc_full_list) ≤ fuel)%nat →
  ∃ st', gc_full_loop fuel st = Some st' ∧ INV x st' ∧ alive None st' ∧ lists st' gc_full_list = [].
Proof using Hlm.
  revert st. induction fuel as [|fuel IH]; intros st Hinv Hal Hf; cbn [gc_full_loop];
    destruct (lists st gc_full_list) as [|i ls] eqn:E; try (by exists st); [simpl in Hf; lia|].
  destruct (in_gc_list x st gc_full_list i Hinv) as (ln & Hi & Hc & Hl); [rewrite E; left|by exists PBLK_LINEGC_FULL|].
  destruct (gc_return_inv x st i ln Hinv Hal Hi Hc) as (s1 & s2 & E1 & E2 & Hinv2 & Hal2 & l2 & El & Hne).
  rewrite E1. cbn [mbind option_bind]. rewrite E2. cbn [mbind option_bind].
  assert (Hp : lists st gc_full_list ≡ₚ i :: lists s2 gc_full_list).
  { apply (list_shrinks st s2 i ln l2); try done; [apply Hinv|apply Hinv2|congruence]. }
  rewrite E in Hp. apply Permutation_length in Hp. simpl in Hp, Hf.
  apply (IH s2); [done|done|lia].
Qed.

(** ** The victim *)

(** A line the collector may choose: it is not the one being invalidated in its stream, and
    its stream is not mapped by blocks. *)
Definition block_mapped (st : pblk) (ln : pblk_line) : bool :=
  bool_decide (rd (map_type st) (pstream ln) = Some BLOCK_MAP).

Definition candidate (st : pblk) (i : Z) (ln : pblk_line) : Prop :=
  ¬ (DATA_START_STREAM ≤ pstream ln ∧ u32 <$> rd (invalid_line st) (pstream ln) = Some i) ∧
  block_mapped st ln = false.

Definition victims_ok (st : pblk) (ls : list Z) : Prop :=
  ∀ i, i ∈ ls → ∃ ln, rd (lines st) i = Some ln ∧ 0 ≤ vsc ln < 2 ^ 31 ∧
    0 ≤ pstream ln < Z.of_nat (length (map_type st)) ∧ length (invalid_line st) = length (map_type st).

Lemma candidate_test st i ln inv mt :
  rd (invalid_line st) (pstream ln) = Some inv → rd (map_type st) (pstream ln) = Some mt →
  candidate st i ln ↔ (DATA_START_STREAM <=? pstream ln) && (u32 inv =? i) = false ∧ mt =? BLOCK_MAP = false.
Proof using.
  intros H1 H2. unfold candidate, block_mapped. rewrite H1, H2. simpl.
  rewrite bool_decide_eq_false, andb_false_iff, Z.leb_gt, !Z.eqb_neq. split.
  - intros [Ha Hb]. split; [|congruence].
    destruct (Z.lt_ge_cases (pstream ln) DATA_START_STREAM); [by left|]. right. intros <-. by apply Ha.
  - intros [Ha Hb]. split; [|congruence]. intros [Hc Hd]. simplify_eq. destruct Ha; [lia|done].
Qed.

(** What the loop returns from [victim]: a line without valid sectors if it meets one;
    otherwise no candidate has fewer than the result, which is a candidate or [victim]. *)
Definition best (st : pblk) (ls : list Z) (victim v : Z) : Prop :=
  ∃ lv, rd (lines st) v = Some lv ∧
    (vsc lv = 0 ∧ v ∈ ls ∨
     (v = victim ∨ v ∈ ls ∧ candidate st v lv) ∧
     (∀ c lc, c ∈ ls → rd (lines st) c = Some lc → candidate st c lc →
        block_mapped st lv = false ∧ vsc lv ≤ vsc lc) ∧
     (∀ l0, rd (lines st) victim = Some l0 → block_mapped st l0 = false →
        block_mapped st lv = false ∧ vsc lv ≤ vsc l0)).

Lemma best_skip st i ln ls victim l0 v :
  rd (lines st) i = Some ln → rd (lines st) victim = Some l0 →
  (candidate st i ln → block_mapped st l0 = false ∧ vsc l0 ≤ vsc ln) →
  best st ls victim v → best st (i :: ls) victim v.
Proof using.
  intros Hi H0 Hc (lv & Hv & H). exists lv. split; [done|].
  destruct H as [[? ?]|(H1 & H2 & H3)]; [left; split; [done|by right]|right].
  split; [destruct H1 as [?|[? ?]]; [by left|right; split; [by right|done]]|]. split; [|done].
  intros c lc [->|Hin]%elem_of_cons Hlc Hcc; [|by apply (H2 c lc)].
  simplify_eq. destruct (Hc Hcc) as [Hb Hle]. destruct (H3 l0 H0 Hb). split; [done|lia].
Qed.

Lemma best_take st i ln ls victim v :
  rd (lines st) i = Some ln → candidate st i ln →
  (∀ l0, rd (lines st) victim = Some l0 → block_mapped st l0 = false → vsc ln ≤ vsc l0) →
  best st ls i v → best st (i :: ls) victim v.
Proof using.
  intros Hi Hc Hl (lv & Hv & H). exists lv. split; [done|].
  destruct H as [[? ?]|(H1 & H2 & H3)]; [left; split; [done|by right]|right].
  destruct (H3 ln Hi (proj2 Hc)) as [Hb Hle]. split.
  { right. destruct H1 as [->|[? ?]]; [split; [left|by simplify_eq]|split; [by right|done]]. }
  split.
  - intros c lc [->|Hin]%elem_of_cons Hlc Hcc; [by simplify_eq|by apply (H2 c lc)].
  - intros l0 H0 Hb0. split; [done|]. specialize (Hl l0 H0 Hb0). lia.
Qed.

Lemma victim_loop_spec st ls victim :
  victims_ok st (victim :: ls) → ∃ v, victim_loop st ls victim = Some v ∧ best st ls victim v.
Proof using.
  clear Hlm. revert victim. induction ls as [|i ls IH]; intros victim Hok; cbn [victim_loop].
  { destruct (Hok victim) as (lv & Hv & _); [left|]. exists victim. split; [done|]. exists lv. split; [done|].
    right. split; [by left|]. split; [inversion 1|]. intros l0 H0 H1. simplify_eq. split; [done|lia]. }
  destruct (Hok victim) as (lv & Hv & Hvv & Hvp & Hlen); [left|].
  destruct (Hok i) as (ln & Hi & Hiv & Hip & _); [right; left|].
  rewrite Hi. cbn [mbind option_bind]. rewrite s32_small by lia.
  destruct (Z.eqb_spec (vsc ln) 0) as [E0|E0].
  { exists i. split; [done|]. exists ln. split; [done|]. left. split; [done|left]. }
  destruct (rd_is_Some (invalid_line st) (pstream ln)) as [inv Hinv]; [lia|].
  destruct (rd_is_Some (map_type st) (pstream ln)) as [mt Hmt]; [lia|].
  destruct (rd_is_Some (map_type st) (pstream lv)) as [vt Hvt]; [lia|].
  rewrite Hinv. cbn [mbind option_bind]. rewrite Hmt. cbn [mbind option_bind].
  destruct (IH victim) as (v1 & E1 & B1); [intros j Hj; apply Hok; set_solver|].
  destruct (IH i) as (v2 & E2 & B2); [intros j Hj; apply Hok; set_solver|].
  pose proof (candidate_test st i ln inv mt Hinv Hmt) as Hcand.
  assert (Hb : block_mapped st lv = (vt =? BLOCK_MAP)).
  { unfold block_mapped. rewrite Hvt. destruct (Z.eqb_spec vt BLOCK_MAP);
      [apply bool_decide_eq_true|apply bool_decide_eq_false]; congruence. }
  destruct (_ && _) eqn:T1.
  { exists v1. split; [done|]. apply (best_skip st i ln ls victim lv); try done. intros [? ?]%Hcand. congruence. }
  destruct (mt =? BLOCK_MAP) eqn:T2.
  { exists v1. split; [done|]. apply (best_skip st i ln ls victim lv); try done. intros [? ?]%Hcand. congruence. }
  rewrite Hv. cbn [mbind option_bind]. rewrite Hvt. cbn [mbind option_bind].
  destruct (vt =? BLOCK_MAP) eqn:T3.
  { exists v2. split; [done|]. apply (best_take st i ln); try done; [by apply Hcand|]. intros; simplify_eq. congruence. }
  rewrite (s32_small (vsc lv)) by lia. destruct (Z.ltb_spec (vsc ln) (vsc lv)).
  - exists v2. split; [done|]. apply (best_take st i ln); try done; [by apply Hcand|]. intros; simplify_eq. lia.
  - exists v1. split; [done|]. apply (best_skip st i ln ls victim lv); try done.
Qed.

Lemma victim_spec x st h f ls :
  INV x st → (∃ g, g ≠ PBLK_LINEGC_NONE ∧ h = list_of g) → lists st h = f :: ls →
  ∃ v, pblk_gc_get_victim_line st h = Some v ∧ v ∈ lists st h ∧ best st (f :: ls) f v.
Proof using Hlm.
  intros Hinv Hh E. unfold pblk_gc_get_victim_line. rewrite E.
  destruct (victim_loop_spec st (f :: ls) f) as (v & E1 & B).
  { intros i Hi. assert (Hin : i ∈ lists st h) by (rewrite E; set_solver).
    destruct (in_gc_list x st h i Hinv Hin Hh) as (ln & Hln & Hc & _). exists ln. split; [done|].
    destruct (closed_refs x st i ln Hinv Hln Hc) as (_ & _ & _ & _ & [b []] & _).
    pose proof (in_line _ _ _ _ _ _ Hinv i ln Hln) as [_ _ (_ & _ & Hps)].
    pose proof (in_streams _ _ _ _ _ _ Hinv) as [_ _ _ _ (_ & _ & _ & _ & _ & Hil)].
    pose proof (zeros_bounds b). pose proof (lm_int _ _ _ _ _ Hlm). split; [lia|done]. }
  exists v. split; [done|]. split; [|done]. destruct B as (lv & _ & [[_ ?]|([->|[? _]] & _)]); [done|left|done].
Qed.

(** ** The loop over a list *)

Definition queued (ln : pblk_line) : pblk_line :=
  ln <| ln_state := PBLK_LINESTATE_GC |> <| ln_link := Some gc_r_list |>.

(** A line is taken and queued to be read. *)
Lemma gc_queue_inv x st i ln :
  INV x st → alive None st → rd (lines st) i = Some ln → ln_state ln = PBLK_LINESTATE_CLOSED →
  inflight_gc st < PBLK_GC_L_QD →
  ∃ s1 s2, gc_take st i = Some s1 ∧ list_add_tail s1 i gc_r_list = Some s2 ∧
    let st' := s2 <| inflight_gc := s32 (inflight_gc s2 + 1) |> in
    INV x st' ∧ alive None st' ∧ lines st' = <[Z.to_nat i := queued ln]> (lines st).
Proof using.
  intros Hinv Hal Hi Hc Hq4. destruct (gc_take_spec x st i ln Hinv Hi Hc) as (ls & E1 & Hk).
  destruct (closed_refs x st i ln Hinv Hi Hc) as (Hg & Hl & Hme & Hq & Hct & Hr & Hrq & Hwq).
  pose proof (in_line _ _ _ _ _ _ Hinv i ln Hi) as [_ _ Hb].
  pose proof (not_owned lm p L R x st i ln Hinv Hi ltac:(by rewrite Hc)) as [No1 No2].
  pose proof (in_counters _ _ _ _ _ _ Hinv) as Hcn. pose proof (counters_bounds lm p L R x st Hinv) as (_ & _ & _ & Hfl).
  set (s1 := set_line st i (taken ln) <| lists := ls |> <| gc_target := _ |>) in *.
  assert (Hi1 : rd (lines s1) i = Some (taken ln)) by (by apply (rd_set_line_eq st i ln)).
  destruct (list_add_spec s1 i (taken ln) gc_r_list Hk Hi1 eq_refl) as (l2 & E2 & Hk2).
  set (s2 := set_line s1 i _ <| lists := l2 |>) in *. exists s1, s2. split; [done|]. split; [done|]. cbn zeta.
  set (s3 := s2 <| inflight_gc := _ |>).
  assert (El : lines s3 = <[Z.to_nat i := queued ln]> (lines st)) by (simpl; by rewrite list_insert_insert_eq).
  assert (Efl : inflight_gc s3 = inflight_gc st + 1) by (simpl; apply s32_small; lia).
  unfold PBLK_GC_L_QD in *. split; [|split; [|done]].
  - eapply (inv_one lm p L R x x st s3 i ln (queued ln)); try done.
    + by apply (links_same s2).
    + split.
      * unfold shape. simpl. split; [done|]. split; [by right|]. split; [done|].
        destruct Hct as [b []]. by exists b.
      * unfold refs, own. simpl. rewrite Hrq, Hwq. lia.
      * destruct Hb as (? & Hmin & ?). split; [done|]. split; [|done].
        intros _. apply Hmin. by rewrite Hc.
    + eapply (counters_step L st s3 i ln (queued ln)); try done; try apply Hcn; rewrite ?Efl, ?Hq;
        try change (is_target (map_type st) (queued ln)) with 0; unfold PBLK_GC_L_QD;
        unfold free_blks, is_free, is_queued; simpl; rewrite ?Hc; simpl; lia.
    + eapply (streams_step x x st s3 i ln (queued ln)); try done; apply Hinv.
    + apply (metas_step st s3 i ln (queued ln)); try done; [apply Hinv|]. by right; left.
  - intros j lj Hj Hjg _. rewrite El in Hj.
    assert (Hj' : rd (lines (set_line st i (queued ln))) j = Some lj) by done.
    rewrite (rd_set_line st i j ln) in Hj' by done. case_decide; [|by apply (Hal j lj)].
    simplify_eq. pose proof (count_nonneg j (wb st)). simpl. lia.
Qed.

Lemma gc_group_loop_inv x fuel st h prev :
  INV x st → alive None st → (∃ g, g ≠ PBLK_LINEGC_NONE ∧ h = list_of g) → inflight_gc st < PBLK_GC_L_QD →
  (length (lists st h) ≤ fuel)%nat →
  ∃ st' r, gc_group_loop fuel st h prev = Some (st', r) ∧ INV x st' ∧ alive None st' ∧
    (r = false → prev = false ∧ st' = st).
Proof using Hlm.
  revert st prev. induction fuel as [|fuel IH]; intros st prev Hinv Hal Hh Hfl Hf; cbn [gc_group_loop];
    destruct (lists st h) as [|f ls] eqn:E; try (by exists st, prev); [simpl in Hf; lia|].
  destruct (victim_spec x st h f ls Hinv Hh E) as (v & Ev & Hin & _).
  rewrite Ev. cbn [mbind option_bind].
  destruct (in_gc_list x st h v Hinv Hin Hh) as (ln & Hv & Hc & Hl). rewrite Hv. cbn [mbind option_bind].
  pose proof (in_line _ _ _ _ _ _ Hinv v ln Hv) as [_ _ (_ & _ & Hps)].
  destruct (rd_is_Some (map_type st) (pstream ln)) as [mt Hmt]; [lia|]. rewrite Hmt. cbn [mbind option_bind].
  destruct (_ && _); [by exists st, prev|].
  destruct (gc_queue_inv x st v ln Hinv Hal Hv Hc Hfl) as (s1 & s2 & E1 & E2 & Hinv2 & Hal2 & El).
  rewrite E1. cbn [mbind option_bind]. rewrite E2. cbn [mbind option_bind].
  set (s3 := s2 <| inflight_gc := _ |>) in *.
  assert (Hp : lists st h ≡ₚ v :: lists s3 h).
  { apply (list_shrinks st s3 v ln (queued ln)); try done; [apply Hinv|apply Hinv2|].
    destruct Hh as (g & _ & ->). by destruct g. }
  rewrite E in Hp. apply Permutation_length in Hp. simpl in Hf. cbn [length] in Hp.
  destruct (negb _ || _) eqn:T; [by exists s3, true|].
  apply orb_false_iff in T as [_ T]. apply Z.leb_gt in T.
  destruct (IH s3 true) as (st' & r & H1 & H2 & H3 & H4); [done|done|done|done|lia|].
  exists st', r. split; [done|]. split; [done|]. split; [done|]. intros Hr. by destruct (H4 Hr).
Qed.

Lemma gc_groups_inv x gs st tried :
  INV x st → alive None st → Forall (λ h, ∃ g, g ≠ PBLK_LINEGC_NONE ∧ h = list_of g) gs →
  inflight_gc st < PBLK_GC_L_QD →
  ∃ st', gc_groups gs st tried = Some st' ∧ INV x st' ∧ alive None st'.
Proof using Hlm.
  intros Hinv Hal Hgs Hfl. revert tried. induction gs as [|h gs IH]; intros tried; cbn [gc_groups]; [by exists st|].
  apply Forall_cons in Hgs as [Hh Hgs].
  destruct (gc_group_loop_inv x (length (lists st h)) st h false) as (st' & r & E & H1 & H2 & H3); [done..|].
  rewrite E. cbn [mbind option_bind]. destruct r; cbn [negb andb]; [by exists st'|].
  destruct H3 as [_ ->]; [done|]. destruct (_ && _); [by apply IH|by exists st].
Qed.

Lemma gc_run_inv x st :
  INV x st → alive None st →
  ∃ st', pblk_gc_run st = Some st' ∧ INV x st' ∧ alive None st'.
Proof using Hlm.
  intros Hinv Hal. unfold pblk_gc_run.
  destruct (gc_full_loop_inv x _ st Hinv Hal (Nat.le_refl _)) as (s1 & E & H1 & H2 & _).
  rewrite E. cbn [mbind option_bind]. destruct (_ || _) eqn:T; [by exists s1|].
  apply orb_false_iff in T as [_ T]. apply Z.leb_gt in T.
  apply gc_groups_inv; [done|done| |done]. unfold gc_lists.
  repeat constructor; [exists PBLK_LINEGC_HIGH|exists PBLK_LINEGC_MID|exists PBLK_LINEGC_LOW]; done.
Qed.

(** ** Reading a line *)

Lemma gc_line_state x st i ln :
  INV x st → rd (lines st) i = Some ln → ln_link ln = Some gc_r_list → ln_state ln = PBLK_LINESTATE_GC.
Proof using.
  intros Hinv Hi Hl. pose proof (in_line _ _ _ _ _ _ Hinv i ln Hi) as [Hs _ _].
  unfold shape in Hs. destruct (ln_state ln); try done; exfalso.
  - destruct Hs as (Hs & _). congruence.
  - destruct Hs as (_ & [[]|(P & c & qe & b & k & mem & sync & [])]); [congruence|].
    destruct (_ && _); [|congruence]. destruct wr_link as [nrb E]. congruence.
  - destruct Hs as (_ & E & _). rewrite Hl in E. by destruct (gc_group ln).
  - destruct Hs as (Hs & _). congruence.
Qed.

Lemma gc_read_inv x st :
  INV x st → alive None st →
  ∃ st' r, pblk_gc_read st = Some (st', r) ∧ INV x st' ∧ alive None st'.
Proof using.
  intros Hinv Hal. unfold pblk_gc_read. destruct (lists st gc_r_list) as [|i ls] eqn:E; [by exists st, false|].
  pose proof (in_links _ _ _ _ _ _ Hinv) as Hk.
  destruct (proj1 (lk_mem _ Hk gc_r_list i)) as (ln & Hi & Hl); [rewrite E; left|].
  pose proof (gc_line_state x st i ln Hinv Hi Hl) as Hg.
  destruct (list_del_spec st i ln gc_r_list Hk Hi Hl) as (l1 & E1 & Hk1). rewrite E1. cbn [mbind option_bind].
  set (l' := ln <| ln_link := None |>) in *. set (s1 := set_line st i l' <| lists := l1 |>) in *.
  set (s2 := s1 <| gc := _ |> <| gc_reader_wq := _ |>). exists s2, true. split; [done|].
  pose proof (in_line _ _ _ _ _ _ Hinv i ln Hi) as [Hs Hr Hb].
  unfold shape in Hs. unfold refs, own in Hr. rewrite Hg in Hs, Hr. destruct Hs as (Hg1 & _ & Hme & b & Hct).
  rewrite bool_decide_true in Hr by done.
  pose proof (not_owned lm p L R x st i ln Hinv Hi ltac:(by rewrite Hg)) as [No1 No2].
  pose proof (in_counters _ _ _ _ _ _ Hinv) as Hcn.
  assert (Hcnt : ∀ j, count j (gc_reader_wq s2) = count j (gc_reader_wq st) + if decide (i = j) then 1 else 0).
  { intros j. simpl. rewrite count_app, count_cons, count_nil. lia. }
  split.
  - eapply (inv_one lm p L R x x st s2 i ln l'); try done.
    + split; try done. intros j Hj. rewrite Hcnt, decide_False by congruence. lia.
    + by apply (links_same s1).
    + split; [|unfold refs, own|done].
      * unfold shape. simpl. rewrite Hg. split; [done|]. split; [by left|]. split; [done|].
        destruct Hct. by exists b.
      * simpl. rewrite Hg. specialize (Hcnt i). rewrite decide_True in Hcnt by done. simpl in Hcnt. rewrite Hcnt. lia.
    + assert (length (gc_reader_wq s2) = S (length (gc_reader_wq st))) as Hlen.
      { simpl. rewrite length_app. simpl. lia. }
      eapply (counters_step L st s2 i ln l'); try done; try apply Hcn; rewrite ?Hlen;
        unfold free_blks, is_free, is_queued, is_target; simpl; rewrite ?Hg, ?Hl; simpl; lia.
    + eapply (streams_step x x st s2 i ln l'); try done; apply Hinv.
    + apply (metas_step st s2 i ln l'); try done; [apply Hinv|]. by left.
  - intros j lj Hj Hjg _. assert (Hj' : rd (lines (set_line st i l')) j = Some lj) by done.
    rewrite (rd_set_line st i j ln) in Hj' by done. case_decide; [|by apply (Hal j lj)].
    simplify_eq. simpl. by apply (Hal j ln).
Qed.

(** ** Preparing a line *)

(** Dropping a reference does not look at the number of lines in flight. *)
Definition fl (a : Z) (st : pblk) : pblk := st <| inflight_gc := a |>.

Lemma upd_line_fl a st i f : upd_line (fl a st) i f = fl a <$> upd_line st i f.
Proof using.
  unfold upd_line. change (lines (fl a st)) with (lines st).
  destruct (rd (lines st) i); [|done]. cbn [mbind option_bind]. by destruct (wr (lines st) i (f p0)).
Qed.

Lemma list_add_tail_fl a st i h : list_add_tail (fl a st) i h = fl a <$> list_add_tail st i h.
Proof using.
  unfold list_add_tail. change (lines (fl a st)) with (lines st).
  destruct (rd (lines st) i) as [ln|]; [|done]. cbn [mbind option_bind].
  destruct (bool_decide (ln_link ln = None)); [|done]. cbn [ensure mbind option_bind].
  rewrite upd_line_fl. by destruct (upd_line st i _).
Qed.

Lemma line_put_fl a st i : pblk_line_put (fl a st) i = fl a <$> pblk_line_put st i.
Proof using.
  unfold pblk_line_put. change (lines (fl a st)) with (lines st). change (nr_erase (fl a st)) with (nr_erase st).
  destruct (rd (lines st) i) as [ln|]; [|done]. cbn [mbind option_bind].
  destruct (rd (nr_erase st) (pstream ln)) as [n|]; [|done]. cbn [mbind option_bind].
  destruct (wr (nr_erase st) (pstream ln) (n + 1)) as [ne|]; [|done]. cbn [mbind option_bind].
  change (fl a st <| nr_erase := ne |>) with (fl a (st <| nr_erase := ne |>)).
  set (s0 := st <| nr_erase := ne |>). generalize s0. intros s1.
  assert (Hw : ∀ b, warn_if b (fl a s1) = fl a (warn_if b s1)) by (intros b; by destruct b).
  rewrite Hw, upd_line_fl. destruct (upd_line (warn_if _ s1) i _) as [s2|]; [|done]. cbn [fmap option_fmap option_map mbind option_bind].
  unfold pblk_line_free. rewrite upd_line_fl.
  destruct (upd_line s2 i _) as [s3|]; [|done]. cbn [fmap option_fmap option_map mbind option_bind].
  rewrite list_add_tail_fl. destruct (list_add_tail s3 i free_list) as [s4|]; [|done].
  cbn [fmap option_fmap option_map mbind option_bind].
  change (pblk_rl_free_lines_inc _ _ _) with (pblk_rl_free_lines_inc (rl s4) (gc s4) (blk_in_line ln)) at 1.
  change (pblk_rl_free_lines_inc _ _ _) with (pblk_rl_free_lines_inc (rl s4) (gc s4) (blk_in_line ln)).
  by destruct (pblk_rl_free_lines_inc (rl s4) (gc s4) (blk_in_line ln)) as [[r g]|].
Qed.

Lemma kref_put_fl a st i : kref_put (fl a st) i = fl a <$> kref_put st i.
Proof using.
  unfold kref_put. change (lines (fl a st)) with (lines st).
  destruct (rd (lines st) i) as [ln|]; [|done]. cbn [mbind option_bind].
  rewrite upd_line_fl. destruct (upd_line st i _) as [s1|]; [|done]. cbn [fmap option_fmap option_map mbind option_bind].
  destruct (_ =? 0); [apply line_put_fl|done].
Qed.

Lemma kref_gets_spec n st i ln :
  rd (lines st) i = Some ln →
  kref_gets n st i = Some (set_line st i (ln <| ref := ref ln + Z.of_nat n |>)).
Proof using.
  revert st ln. induction n as [|n IH]; intros st ln Hi; cbn [kref_gets].
  - f_equal. unfold set_line. replace (ln <| ref := ref ln + Z.of_nat 0 |>) with ln.
    + apply rd_Some in Hi as [_ Hi]. rewrite list_insert_id by done. by destruct st.
    + rewrite Z.add_0_r. by destruct ln.
  - unfold kref_get. rewrite (upd_line_eq st i ln) by done. cbn [mbind option_bind].
    rewrite (IH _ (ln <| ref := ref ln + 1 |>)) by (by eapply rd_set_line_eq).
    rewrite set_line_twice. do 2 f_equal. change (ref (ln <| ref := ref ln + 1 |>)) with (ref ln + 1).
    replace (ref ln + Z.of_nat (S n)) with (ref ln + 1 + Z.of_nat n) by lia. by destruct ln.
Qed.

Lemma kref_put_inflight st i st' : kref_put st i = Some st' → inflight_gc st' = inflight_gc st.
Proof using.
  intros H. pose proof (kref_put_fl (inflight_gc st) st i) as E.
  replace (fl (inflight_gc st) st) with st in E by (by destruct st). rewrite H in E. simpl in E.
  injection E as E. by rewrite E.
Qed.

Lemma kref_put_fl_Some a st i s : kref_put (fl a st) i = Some s → ∃ st', kref_put st i = Some st' ∧ s = fl a st'.
Proof using. rewrite kref_put_fl. intros (st' & H & ->)%fmap_Some. by exists st'. Qed.

(** A line in the queue is being reclaimed, and counted. *)
Lemma wq_line x st i wq :
  INV x st → gc_reader_wq st = i :: wq →
  ∃ ln b, rd (lines st) i = Some ln ∧ ln_state ln = PBLK_LINESTATE_GC ∧ counted lm ln b ∧
    ref ln = (own st i ln - 1) + 1 + count i (wb st) + count i (gc_rqs st).*1 ∧
    count i wq = 0 ∧ ln_link ln = None ∧ own st i ln = 1 ∧ 1 ≤ inflight_gc st.
Proof using.
  intros Hinv Hwq.
  assert (Hc : count i (gc_reader_wq st) = 1 + count i wq) by (rewrite Hwq, count_cons, decide_True; done).
  pose proof (count_nonneg i (wb st)). pose proof (count_nonneg i (gc_rqs st).*1). pose proof (count_nonneg i wq).
  destruct (in_held _ _ _ _ _ _ Hinv i) as [ln Hi]; [lia|]. exists ln.
  pose proof (in_line _ _ _ _ _ _ Hinv i ln Hi) as [Hs Hr _]. unfold refs in Hr.
  assert (Hg : ln_state ln = PBLK_LINESTATE_GC) by (destruct (ln_state ln); [lia..|done|lia|lia]).
  rewrite Hg in Hr. unfold shape in Hs. rewrite Hg in Hs. destruct Hs as (_ & Hl & _ & b & Hct). exists b.
  do 3 (split; [done|]). unfold own in *. rewrite Hc in *.
  destruct Hl as [Hl|Hl]; [|rewrite bool_decide_true in Hr by done; lia].
  rewrite bool_decide_false in * by congruence. repeat split; try lia; try done.
  pose proof (in_counters _ _ _ _ _ _ Hinv) as []. rewrite cn_inflight, Hwq. simpl length.
  pose proof (lsum_bounds is_queued (lines st) 1) as B.
  specialize (B ltac:(intros ? _; unfold is_queued; case_bool_decide; lia)). lia.
Qed.

(** The requests made for a line: its valid sectors, in order. *)
Lemma line_requests ln b maptype lbas :
  counted lm ln b → emeta_ssec ln ≤ Z.of_nat (length lbas) →
  ∃ rqs, gc_requests lm maptype lbas (S (Z.to_nat (vsc ln))) b (emeta_ssec ln) (-1) (s32 (vsc ln)) = Some rqs ∧
    concat rqs = lba_at lbas <$> zero_positions b 0 ∧
    Forall (λ r, 0 < Z.of_nat (length r) ≤ max_write_pgs lm) rqs.
Proof using Hlm.
  intros [] Hlb. pose proof (lm_int _ _ _ _ _ Hlm). pose proof (zeros_bounds b).
  assert (Hz : Z.of_nat (length (zeros_from b 0)) = vsc ln).
  { unfold zeros_from. rewrite drop_0, zero_positions_length. lia. }
  destruct (gc_requests_spec lm maptype lbas b (emeta_ssec ln)) with (fuel := S (Z.to_nat (vsc ln))) (k := 0%nat)
    as (rqs & E1 & E2 & E3); [done|lia|by apply Hlm|done|done|lia|lia|].
  exists rqs. rewrite Hz in E1. rewrite s32_small by lia. split; [done|]. split; [|done].
  by rewrite E2.
Qed.

Lemma gc_prepare_inv x st i wq ln b maptype lbas :
  INV x st → alive None st → gc_reader_wq st = i :: wq → rd (lines st) i = Some ln →
  invalid_bitmap ln = Some b → emeta_ssec ln ≤ Z.of_nat (length lbas) →
  ∃ st' rqs, pblk_gc_line_prepare_ws lm maptype lbas st true = Some st' ∧ INV x st' ∧ alive None st' ∧
    concat rqs = lba_at lbas <$> zero_positions b 0 ∧
    Forall (λ r, 0 < Z.of_nat (length r) ≤ max_write_pgs lm) rqs ∧
    (rqs ≠ [] → gc_rqs st' = gc_rqs st ++ ((λ r, (i, r)) <$> rqs)).
Proof using Hlm.
  intros Hinv Hal Hwq Hi Hb Hlb. destruct (wq_line x st i wq Hinv Hwq) as (ln' & b' & Hi' & Hg & Hct & Hr & Hcw & Hl & Ho & Hfl).
  assert (ln' = ln) as -> by congruence. pose proof (ct_inv _ _ _ Hct) as Hb'.
  assert (b' = b) as -> by congruence. destruct (line_requests ln b maptype lbas Hct Hlb) as (rqs & E1 & E2 & E3).
  pose proof Hct as []. pose proof (lm_int _ _ _ _ _ Hlm). pose proof (zeros_bounds b).
  unfold pblk_gc_line_prepare_ws. rewrite Hwq. set (s1 := st <| gc_reader_wq := wq |>).
  change (rd (lines s1) i) with (rd (lines st) i). rewrite Hi. cbn [mbind option_bind].
  rewrite (proj2 (Z.ltb_ge _ _)) by (rewrite s32_small; lia). cbn [negb orb]. rewrite Hb. cbn [mbind option_bind].
  rewrite E1. cbn [mbind option_bind].
  rewrite (kref_gets_spec _ s1 i ln) by done. cbn [mbind option_bind].
  set (l2 := ln <| ref := _ |>). set (s2 := set_line s1 i l2 <| gc_rqs := _ |>).
  set (a := inflight_gc st - 1).
  assert (Hcr : ∀ j, count j (gc_rqs s2).*1 = count j (gc_rqs st).*1 + if decide (i = j) then Z.of_nat (length rqs) else 0).
  { intros j. simpl. rewrite fmap_app, count_app. f_equal. rewrite <- list_fmap_compose.
    rewrite <- (count_replicate j i (length rqs)). f_equal. clear. induction rqs; [done|]. simpl. by f_equal. }
  assert (Hi2 : rd (lines (fl a s2)) i = Some l2) by (by apply (rd_set_line_eq s1 i ln)).
  destruct (kref_put_inv lm p L R e Hlm x (fl a s2) i l2 Hi2) as (s3 & K1 & K2 & K3 & K4).
  - eapply (inv_refs lm p L R x st _ i ln); try done.
    + exists (ref ln + Z.of_nat (length rqs) - 1), (nr_valid_lbas ln). by destruct ln.
    + simpl. by rewrite list_insert_insert_eq.
    + split; try done; intros j Hj.
      * change (count j (gc_rqs s2).*1 = count j (gc_rqs st).*1). rewrite Hcr, decide_False by congruence. lia.
      * simpl. rewrite Hwq, count_cons, decide_False by congruence. lia.
    + specialize (Hcr i). rewrite decide_True in Hcr by done. unfold refs, own in *. simpl. rewrite Hg, Hl in *. simpl in *.
      rewrite Hcr, Hcw. lia.
    + simpl. rewrite Hwq. simpl length. unfold a. lia.
    + simpl. unfold a. pose proof (in_counters _ _ _ _ _ _ Hinv) as []. lia.
  - apply (alive_but lm p L R x st _ i ln (l2 <| ref := ref l2 - 1 |>)); try done. simpl. by rewrite list_insert_insert_eq.
  - by right; right.
  - apply kref_put_fl_Some in K1 as (s4 & K1 & ->). rewrite K1. cbn [mbind option_bind].
    exists (fl a s4), rqs. split.
    { f_equal. rewrite (kref_put_inflight _ _ _ K1). simpl. rewrite s32_small; [done|].
      pose proof (in_counters _ _ _ _ _ _ Hinv) as []. unfold PBLK_GC_L_QD in *. lia. }
    do 4 (split; [done|]). intros Hne.
    destruct (ref l2 - 1 =? 0) eqn:T; [|rewrite K4; done]. exfalso. apply Z.eqb_eq in T. simpl in T.
    destruct rqs; [done|]. simpl length in T. pose proof (count_nonneg i (wb st)). pose proof (count_nonneg i (gc_rqs st).*1). lia.
Qed.
End gc.
