(* ===== verification/PblkLineWrite.v ===== *)
(** * Lines of pblk: filling, completing and replacing lines keeps the invariant

    A page of data ([pblk_map_page_line]), a page of metadata ([pblk_submit_meta_io]) and its
    completion ([pblk_end_io_write_meta]), which closes the line after the last one. *)

From stdpp Require Import functions.
From S2P Require Import Prelude Bitmap RateLimiter PblkLine PblkLineInv PblkLineRun PblkLineGc.

Section write.
Context (lm : pblk_line_meta) (p L R e : nat) (Hlm : lm_ok lm p L R e).

Local Notation INV := (inv lm p L R).
Local Notation OK := (line_ok lm p L R).
Local Notation pages := (pages L R).

(** A change of line [i] that leaves the lines being reclaimed as they are. *)
Lemma alive_touch z st st' i ln ln' :
  alive z st → rd (lines st) i = Some ln → lines st' = <[Z.to_nat i := ln']> (lines st) →
  ln_state ln' ≠ PBLK_LINESTATE_GC → alive z st'.
Proof using.
  intros Hal Hi El Hne j lj Hj Hg Hz. rewrite El in Hj.
  assert (Hj' : rd (lines (set_line st i ln')) j = Some lj) by done.
  rewrite (rd_set_line st i j ln) in Hj' by done. case_decide; [congruence|]. by apply (Hal j lj).
Qed.

(** *** Changes of the buffers for metadata *)

(** Buffer [k] belongs to line [i]. *)
Lemma meta_other x st i ln k j lj k' :
  INV x st → rd (lines st) i = Some ln → ln_meta ln = Some k → j ≠ i →
  rd (lines st) j = Some lj → ln_meta lj = Some k' → k' ≠ k.
Proof using.
  intros Hinv Hi Hk Hji Hj Hk' ->. destruct Hji.
  by apply (mt_unique _ (in_metas _ _ _ _ _ _ Hinv) j i lj ln k).
Qed.

Lemma rd_insert_ne {A} (l : list A) k k' v : 0 ≤ k → k' ≠ k → rd (<[Z.to_nat k := v]> l) k' = rd l k'.
Proof using.
  intros Hk Hne. unfold rd. destruct (Z.leb_spec 0 k'); [|done]. apply list_lookup_insert_ne. lia.
Qed.

Lemma rd_insert_eq {A} (l : list A) k v x : rd l k = Some x → rd (<[Z.to_nat k := v]> l) k = Some v.
Proof using.
  intros H. pose proof (rd_lt _ _ _ H). apply rd_Some. split; [lia|]. apply list_lookup_insert_eq. lia.
Qed.

(** A step of the open line [i] that may change its buffers. *)
Lemma inv_meta_step x st st' i ln ln' k :
  INV x st → rd (lines st) i = Some ln → ln_meta ln = Some k →
  lines st' = <[Z.to_nat i := ln']> (lines st) → links_ok st' → OK x st' i ln' →
  wb st' = wb st → gc_rqs st' = gc_rqs st → gc_reader_wq st' = gc_reader_wq st →
  map_type st' = map_type st →
  (∀ k', k' ≠ k → rd (meta_bitmap st') k' = rd (meta_bitmap st) k' ∧
     rd (emeta_mem st') k' = rd (emeta_mem st) k' ∧ rd (emeta_sync st') k' = rd (emeta_sync st) k') →
  length (meta_bitmap st') = length (meta_bitmap st) → length (emeta_mem st') = length (emeta_mem st) →
  length (emeta_sync st') = length (emeta_sync st) → (ln_meta ln' = Some k ∨ ln_meta ln' = None) →
  counters L st' → streams x st' → warns st' = warns st → INV x st'.
Proof using.
  intros Hinv Hi Hk El Hlk Hok W1 W2 W3 Ht Hm L1 L2 L3 Hk' Hc Hs Hw.
  eapply (inv_one lm p L R x x st st' i ln ln'); try done.
  - split; rewrite ?W1, ?W2, ?W3; try done. intros j lj k' Hj Hlj Hlk'.
    apply Hm. by apply (meta_other x st i ln k j lj k').
  - apply (metas_step st st' i ln ln'); try done; [apply Hinv|]. destruct Hk' as [E|E]; [left; congruence|by right; left].
Qed.

(** *** A page of metadata *)

Lemma zeros_all P qe :
  zeros (take qe P) = 0 → ∀ k, (k < qe)%nat → (k < length P)%nat → P !! k = Some true.
Proof using.
  intros Hz k H1 H2. pose proof (proj2 (zeros_all_true (take qe P)) Hz k) as E.
  rewrite length_take, lookup_take_lt in E by lia. apply E. lia.
Qed.

(** The free pages of a line without room for data are those of its metadata. *)
Lemma meta_page P qe :
  zeros (take qe P) = 0 → 0 < zeros (drop qe P) →
  ∃ q, first_free P q ∧ (qe ≤ q)%nat ∧ zeros (drop qe (<[q := true]> P)) = zeros (drop qe P) - 1.
Proof using.
  intros H1 H2. pose proof (zeros_take_drop qe P).
  destruct (first_free_exists P 0) as (q & Hq & _); [intros; lia|lia|].
  assert (Hqe : (qe ≤ q)%nat).
  { destruct (decide (qe ≤ q)%nat); [done|]. destruct Hq as [Hq _].
    rewrite (zeros_all P qe H1 q) in Hq; [done|lia|by eapply lookup_lt_Some]. }
  exists q. split; [done|]. split; [done|]. rewrite drop_insert_ge by lia. apply zeros_insert.
  rewrite lookup_drop. replace (qe + (q - qe))%nat with q by lia. apply Hq.
Qed.

(** The counters do not see a change of an open line. *)
Lemma counters_open x st st' i ln ln' :
  INV x st → rd (lines st) i = Some ln → lines st' = <[Z.to_nat i := ln']> (lines st) →
  ln_state ln = PBLK_LINESTATE_OPEN → ln_state ln' = PBLK_LINESTATE_OPEN →
  is_queued ln = 0 → is_queued ln' = 0 →
  map_type st' = map_type st → nr_free_lines st' = nr_free_lines st → gc_target st' = gc_target st →
  rl st' = rl st → inflight_gc st' = inflight_gc st → gc_reader_wq st' = gc_reader_wq st → counters L st'.
Proof using.
  intros Hinv Hi El S1 S2 Q1 Q2 E1 E2 E3 E4 E5 E6. pose proof (in_counters _ _ _ _ _ _ Hinv) as Hc.
  eapply (counters_step L st st' i ln ln'); try done; rewrite ?E2, ?E3, ?E4, ?E5, ?E6; try apply Hc;
    unfold free_blks, is_free, is_target; rewrite ?S1, ?S2; simpl; lia.
Qed.

(** The streams do not see a change of an open line that keeps its buffers. *)
Lemma streams_open x st st' i ln ln' :
  INV x st → rd (lines st) i = Some ln → lines st' = <[Z.to_nat i := ln']> (lines st) →
  data_line st' = data_line st → data_next st' = data_next st → rb_rl st' = rb_rl st →
  map_type st' = map_type st → nr_erase st' = nr_erase st → invalid_line st' = invalid_line st →
  ln_state ln' = ln_state ln → ln_meta ln' = ln_meta ln → left_msecs ln' = left_msecs ln → streams x st'.
Proof using.
  intros Hinv Hi El D1 D2 E1 E2 E3 E4 S1 S2 S3. pose proof (in_streams _ _ _ _ _ _ Hinv) as Hs.
  eapply (streams_step x x st st' i ln ln'); rewrite ?E1, ?E2, ?E3, ?E4; try done.
  - intros [nrb Hn]. destruct (sm_line _ _ Hs nrb i Hn) as (l & ? & ? & ? & ?). simplify_eq. by rewrite S1, S2, S3.
  - intros (nrb & Hst & Hn). destruct (sm_next _ _ Hs nrb i Hst Hn) as (l & ? & ? & ?). simplify_eq. by rewrite S1, S2.
Qed.

Lemma open_queued x st i ln :
  OK x st i ln → ln_state ln = PBLK_LINESTATE_OPEN → is_queued ln = 0.
Proof using.
  intros [Hs _ _] Ho. unfold shape in Hs. rewrite Ho in Hs. unfold is_queued.
  destruct Hs as (_ & [[]|(P & c & qe & b & k & mem & sync & [])]); [by rewrite pr_link|].
  destruct (_ && _); [destruct wr_link as [nrb ->]|rewrite wr_link]; done.
Qed.

Lemma counted_same ln ln' b :
  counted lm ln b → invalid_bitmap ln' = invalid_bitmap ln → vsc ln' = vsc ln →
  sec_in_line ln' = sec_in_line ln → emeta_ssec ln' = emeta_ssec ln → counted lm ln' b.
Proof using. intros [] E1 E2 E3 E4. split; rewrite ?E1, ?E2, ?E3, ?E4; done. Qed.

(** A line in a list of metadata is full, and its metadata are not all submitted. *)
Lemma emeta_line x st ln P c qe b k mem sync nrb :
  writing lm p L R x st ln P c qe b k mem sync → ln_link ln = Some (emeta_list nrb) →
  left_msecs ln = 0 ∧ mem < emeta_len lm ∧ x = false ∧ zeros (take qe P) = 0 ∧ 0 < zeros (drop qe P).
Proof using Hlm.
  intros [] Hl. pose proof Hlm as []. destruct wr_open.
  destruct (left_msecs ln =? 0) eqn:T1; [|simpl in wr_link; congruence].
  destruct (mem <? emeta_len lm) eqn:T2; [|simpl in wr_link; congruence].
  destruct x; [simpl in wr_link; congruence|]. bools. do 3 (split; [done|]).
  pose proof (zeros_bounds (take qe P)). pose proof (zeros_bounds (drop qe P)). split; nia.
Qed.

(** A line that waits for its metadata to be written is open. *)
Lemma emeta_open x st i ln nrb :
  OK x st i ln → ln_link ln = Some (emeta_list nrb) →
  ln_state ln = PBLK_LINESTATE_OPEN ∧
  ∃ P c qe b k mem sync, writing lm p L R (full_at x i) st ln P c qe b k mem sync.
Proof using.
  intros [Hs _ _] Hl. unfold shape in Hs. destruct (ln_state ln); try done.
  - destruct Hs as (E & _). congruence.
  - split; [done|]. destruct Hs as (_ & [[]|Hw]); [congruence|done].
  - destruct Hs as (_ & E & _). rewrite Hl in E. by destruct (gc_group ln).
  - destruct Hs as (_ & [E|E] & _); congruence.
  - destruct Hs as (E & _). congruence.
Qed.

(** What a page of metadata leaves of its line. *)
Definition meta_taken (ln : pblk_line) (P : list bool) (q : nat) (done : bool) : pblk_line :=
  if done then (take_page p ln P q) <| ln_link := None |> else take_page p ln P q.

Lemma submit_meta_spec x st i ln nrb nrb' P c qe b k mem sync :
  INV x st → rd (lines st) i = Some ln → ln_link ln = Some (emeta_list nrb') →
  writing lm p L R (full_at x i) st ln P c qe b k mem sync →
  ∃ q ls, let mem' := mem + Z.of_nat p * sec_size lm in let d := emeta_len lm <=? mem' in
    let st' := set_line st i (meta_taken ln P q d) <| lists := ls |>
                 <| emeta_mem := <[Z.to_nat k := mem']> (emeta_mem st) |> in
    first_free P q ∧ (qe ≤ q)%nat ∧ zeros (drop qe (<[q := true]> P)) = zeros (drop qe P) - 1 ∧
    pblk_submit_meta_io lm st i nrb true = Some st' ∧ links_ok st'.
Proof using Hlm.
  intros Hinv Hi Hl Hw. pose proof Hlm as []. destruct (emeta_line _ _ _ _ _ _ _ _ _ _ _ Hw Hl) as (Hleft & Hmem & _ & Hz1 & Hz2).
  destruct (meta_page P qe Hz1 Hz2) as (q & Hq & Hqe & Hzq).
  pose proof (wr_open _ _ _ _ _ _ _ _ _ _ _ _ _ _ Hw) as Hop. pose proof (wr_mem _ _ _ _ _ _ _ _ _ _ _ _ _ _ Hw) as Hm.
  pose proof (wr_mem_k _ _ _ _ _ _ _ _ _ _ _ _ _ _ Hw) as Hmk. pose proof (wr_meta _ _ _ _ _ _ _ _ _ _ _ _ _ _ Hw) as [Hmeta _].
  pose proof (rd_lt _ _ _ Hmk) as Hk. pose proof (wr_sync _ _ _ _ _ _ _ _ _ _ _ _ _ _ Hw) as [Hsync1 Hsync2].
  set (mem' := mem + Z.of_nat p * sec_size lm).
  assert (Hmem' : 0 ≤ mem' ≤ emeta_len lm) by (unfold mem'; nia).
  set (s1 := set_line st i (take_page p ln P q)).
  set (s2 := s1 <| emeta_mem := <[Z.to_nat k := mem']> (emeta_mem st) |>).
  assert (Hi2 : rd (lines s2) i = Some (take_page p ln P q)) by (by apply (rd_set_line_eq st i ln)).
  assert (Hk2 : links_ok s2).
  { apply (links_same s1); [done..|]. apply (links_set_line st i ln); [apply Hinv|done|done]. }
  assert (Hfull : emeta_len lm <= mem' → zeros (<[q := true]> P) = 0).
  { intros Hd. rewrite <- (zeros_take_drop qe), take_insert_ge, Hz1, Hzq by lia.
    pose proof (zeros_bounds (drop qe P)). unfold mem' in *. nia. }
  exists q. destruct (list_del_spec s2 i _ (emeta_list nrb') Hk2 Hi2 Hl) as (l3 & E3 & Hk3).
  exists (if emeta_len lm <=? mem' then l3 else lists st). cbn zeta. fold mem'. do 3 (split; [done|]).
  unfold pblk_submit_meta_io. rewrite Hi. cbn [mbind option_bind]. rewrite Hmeta. cbn [mbind option_bind].
  rewrite (alloc_page_spec lm p L R e Hlm st i ln P c qe q) by done. cbn [mbind option_bind]. fold s1.
  change (emeta_mem s1) with (emeta_mem st). rewrite Hmk. cbn [mbind option_bind].
  rewrite lm_min_write_pgs. fold mem'. rewrite s32_small by lia. rewrite wr_in_range by lia. cbn [mbind option_bind]. fold s2.
  unfold meta_taken. destruct (Z.leb_spec (emeta_len lm) mem') as [Hd|Hd].
  - rewrite E3. cbn [mbind option_bind]. change (rd (lines (_ <| lists := l3 |>)) i)
      with (rd (lines (set_line s2 i (take_page p ln P q <| ln_link := None |>))) i).
    rewrite (rd_set_line_eq s2 i _ _ Hi2). cbn [mbind option_bind map_bitmap].
    change (map_bitmap (take_page p ln P q <| ln_link := None |>)) with (Some (expand p (<[q := true]> P))).
    cbn [mbind option_bind]. unfold bitmap_full. rewrite expand_zeros, Hfull, Z.mul_0_r by done.
    cbn [Z.eqb negb warn_if ensure mbind option_bind].
    assert (E : set_line s2 i (take_page p ln P q <| ln_link := None |>) <| lists := l3 |>
                = set_line st i (take_page p ln P q <| ln_link := None |>) <| lists := l3 |>
                    <| emeta_mem := <[Z.to_nat k := mem']> (emeta_mem st) |>).
    { unfold s2, s1, set_line. simpl. by rewrite list_insert_insert_eq. }
    rewrite <- E. done.
  - cbn [mbind option_bind ensure]. split; [|done]. f_equal.
Qed.

(** The open line of a written line, for the invariant. *)
Lemma ok_writing x st i ln P c qe b k mem sync :
  ln_state ln = PBLK_LINESTATE_OPEN → gc_group ln = PBLK_LINEGC_NONE →
  writing lm p L R (full_at x i) st ln P c qe b k mem sync → refs st i ln → blocks lm L st ln → OK x st i ln.
Proof using.
  intros Ho Hg Hw Hr Hb. split; [|done|done]. unfold shape. rewrite Ho. split; [done|]. right.
  by exists P, c, qe, b, k, mem, sync.
Qed.

Lemma open_group x st i ln : OK x st i ln → ln_state ln = PBLK_LINESTATE_OPEN → gc_group ln = PBLK_LINEGC_NONE.
Proof using. intros [Hs _ _] Ho. unfold shape in Hs. rewrite Ho in Hs. apply Hs. Qed.

(** Changes that keep what counts for the references and the blocks of an open line. *)
Lemma refs_same st st' i ln ln' :
  refs st i ln → ln_state ln = PBLK_LINESTATE_OPEN → ln_state ln' = PBLK_LINESTATE_OPEN → ref ln' = ref ln →
  wb st' = wb st → gc_rqs st' = gc_rqs st → gc_reader_wq st' = gc_reader_wq st → refs st' i ln'.
Proof using. unfold refs. intros Hr S1 S2 E1 E2 E3 E4. rewrite S1 in Hr. by rewrite S2, E1, E2, E3, E4. Qed.

Lemma blocks_same st st' ln ln' :
  blocks lm L st ln → ln_state ln = PBLK_LINESTATE_OPEN →
  blk_bitmap ln' = blk_bitmap ln → blk_in_line ln' = blk_in_line ln → pstream ln' = pstream ln →
  map_type st' = map_type st → blocks lm L st' ln'.
Proof using.
  unfold blocks. intros (H1 & H3 & H4) S E1 E2 E3 E4. rewrite E1, E2, E3, E4.
  split; [done|]. split; [|done]. intros _. apply H3. by rewrite S.
Qed.

Lemma submit_meta_inv x st i ln nrb nrb' P c qe b k mem sync :
  INV x st → rd (lines st) i = Some ln → ln_state ln = PBLK_LINESTATE_OPEN →
  ln_link ln = Some (emeta_list nrb') → writing lm p L R (full_at x i) st ln P c qe b k mem sync →
  let mem' := mem + Z.of_nat p * sec_size lm in
  ∃ st' ln' P' c', pblk_submit_meta_io lm st i nrb true = Some st' ∧ INV x st' ∧
    lines st' = <[Z.to_nat i := ln']> (lines st) ∧ ln_state ln' = PBLK_LINESTATE_OPEN ∧
    writing lm p L R (full_at x i) st' ln' P' c' qe b k mem' sync ∧
    ln_link ln' = (if emeta_len lm <=? mem' then None else Some (emeta_list nrb')).
Proof using Hlm.
  intros Hinv Hi Ho Hl Hw mem'. pose proof Hlm as [].
  destruct (emeta_line _ _ _ _ _ _ _ _ _ _ _ Hw Hl) as (Hleft & Hmem & Hx & Hz1 & Hz2).
  destruct (submit_meta_spec x st i ln nrb nrb' P c qe b k mem sync Hinv Hi Hl Hw)
    as (q & ls & Hq & Hqe & Hzq & E & Hk'). fold mem' in E, Hk'.
  pose proof (in_line _ _ _ _ _ _ Hinv i ln Hi) as Hok. pose proof Hok as [_ Hr Hb].
  set (ln' := meta_taken ln P q (emeta_len lm <=? mem')) in *.
  set (st' := set_line st i ln' <| lists := ls |> <| emeta_mem := _ |>) in *.
  assert (Eq : ln' = take_page p ln P q <| ln_link := ln_link ln' |>) by
    (unfold ln', meta_taken; destruct (_ <=? _); by destruct ln).
  assert (Hln : ln_link ln' = (if emeta_len lm <=? mem' then None else Some (emeta_list nrb'))).
  { unfold ln', meta_taken. by destruct (_ <=? _). }
  pose proof (wr_open _ _ _ _ _ _ _ _ _ _ _ _ _ _ Hw) as Hop. pose proof Hw as [].
  pose proof (rd_lt _ _ _ wr_mem_k) as Hkl.
  assert (Hw' : writing lm p L R (full_at x i) st' ln' (<[q := true]> P) (S q) qe b k mem' sync).
  { destruct (take_page_open p L R ln P c qe q Hop Hq Hqe). rewrite Eq.
    split; try done.
    - by apply (counted_same ln).
    - by apply (rd_insert_eq _ _ _ mem).
    - rewrite Hx. simpl. intros [?|?]; [lia|done].
    - rewrite Hzq. unfold mem'. nia.
    - unfold mem'. split; [lia|nia].
    - simpl. rewrite Hleft, Hx, Hln. cbn [Z.eqb negb andb]. rewrite andb_true_r.
      rewrite Z.leb_antisym. destruct (mem' <? emeta_len lm); cbn [negb]; [by exists nrb'|done]. }
  exists st', ln', (<[q := true]> P), (S q). split; [done|].
  assert (Hfields : ln_state ln' = PBLK_LINESTATE_OPEN ∧ gc_group ln' = gc_group ln ∧ ref ln' = ref ln ∧
    blk_bitmap ln' = blk_bitmap ln ∧ blk_in_line ln' = blk_in_line ln ∧ pstream ln' = pstream ln ∧
    ln_meta ln' = ln_meta ln ∧ left_msecs ln' = left_msecs ln) by (rewrite Eq; done).
  destruct Hfields as (F1 & F2 & F3 & F4 & F5 & F6 & F7 & F8). split; [|done].
  assert (Hok' : OK x st' i ln').
  { eapply ok_writing; [done|rewrite F2; by apply (open_group x st i)|done|by apply (refs_same st _ i ln)|].
    by apply (blocks_same st _ ln). }
  eapply (inv_meta_step x st st' i ln ln' k); try done; [apply wr_meta|..].
  - intros k' Hne. split; [done|]. split; [|done]. apply rd_insert_ne; [lia|done].
  - simpl. apply length_insert.
  - left. rewrite F7. apply wr_meta.
  - eapply (counters_open x st st' i ln ln'); try done; by eapply open_queued.
  - eapply (streams_open x st st' i ln ln'); try done. congruence.
Qed.

(** *** Closing a line *)

Definition shut (ln : pblk_line) : pblk_line :=
  regrouped lm (ln <| ln_state := PBLK_LINESTATE_CLOSED |>) <| map_bitmap := None |> <| ln_meta := None |>.

Lemma line_close_spec x st i ln P c qe b k mem sync ss :
  INV x st → rd (lines st) i = Some ln → ln_state ln = PBLK_LINESTATE_OPEN → ln_link ln = None →
  writing lm p L R (full_at x i) st ln P c qe b k mem sync →
  let st0 := st <| emeta_sync := ss |> in
  ∃ ls r' g', let st' := set_line st0 i (shut ln) <| lists := ls |>
      <| meta_bitmap := <[Z.to_nat k := false]> (meta_bitmap st) |>
      <| gc_target := gc_target st + is_target (map_type st) (shut ln) |> <| rl := r' |> <| gc := g' |> in
    pblk_line_close lm st0 i = Some st' ∧ links_ok st' ∧ rl_ok r' ∧ free_blocks r' = free_blocks (rl st).
Proof using Hlm.
  intros Hinv Hi Ho Hl Hw st0. pose proof Hw as []. destruct wr_meta as [Hme Hml].
  pose proof (rd_lt _ _ _ wr_bit) as Hkl.
  pose proof (in_line _ _ _ _ _ _ Hinv i ln Hi) as Hok. pose proof Hok as [_ _ (_ & _ & Hps)].
  pose proof (open_group x st i ln Hok Ho) as Hg.
  destruct (rd_is_Some (map_type st) (pstream ln)) as [mt Hmt]; [lia|].
  pose proof (counters_bounds lm p L R x st Hinv) as (_ & B & _). pose proof (in_counters _ _ _ _ _ _ Hinv) as Hc.
  destruct (rl_kick_spec (rl st) (gc st)) as (r' & g' & Er & Hr1 & Hr2); [apply Hc|].
  set (l1 := ln <| ln_state := PBLK_LINESTATE_CLOSED |>).
  set (l2 := l1 <| gc_group := group_of lm l1 |>).
  set (mb := <[Z.to_nat k := false]> (meta_bitmap st)).
  set (tg := gc_target st + is_target (map_type st) (shut ln)).
  set (s1 := set_line st0 i l2 <| meta_bitmap := mb |> <| gc_target := tg |>).
  assert (Hi1 : rd (lines s1) i = Some l2) by (by apply (rd_set_line_eq st0 i ln)).
  destruct (list_add_spec s1 i l2 (list_of (group_of lm l1))) as (ls & E1 & Hk1); [|done|done|].
  { apply (links_same (set_line st i l2)); [done..|]. apply (links_set_line st i ln); [apply Hinv|done|done]. }
  set (s2 := set_line s1 i _ <| lists := ls |>) in *.
  exists ls, r', g'. cbn zeta.
  assert (Eshut : lines (set_line s2 i (shut ln)) = lines (set_line st0 i (shut ln))).
  { unfold s2, s1, set_line. simpl. by rewrite !list_insert_insert_eq. }
  split; [|split; [|done]].
  - unfold pblk_line_close. change (rd (lines st0) i) with (rd (lines st) i). rewrite Hi. cbn [mbind option_bind]. unfold test_and_clear_bit.
    change (meta_bitmap st0) with (meta_bitmap st). rewrite Hml, wr_bit. cbn [mbind option_bind]. rewrite wr_in_range by lia. cbn [mbind option_bind negb warn_if].
    rewrite bool_decide_true by done. cbn [negb warn_if]. fold mb.
    change (map_type (st0 <| meta_bitmap := mb |>)) with (map_type st). rewrite Hmt. cbn [mbind option_bind].
    fold l1. rewrite (gc_list_spec lm p L R e Hlm l1 b) by (by apply (counted_same ln)).
    rewrite bool_decide_false.
    2:{ change (gc_group l1) with (gc_group ln). rewrite Hg. unfold group_of. repeat case_match; done. }
    fold l2. replace (if negb (mt =? BLOCK_MAP) then _ else _) with (st0 <| meta_bitmap := mb |> <| gc_target := tg |>).
    2:{ unfold tg, is_target. change (pstream (shut ln)) with (pstream ln). rewrite Hmt.
        rewrite bool_decide_true by done. cbn [andb].
        destruct (Z.eqb_spec mt BLOCK_MAP) as [->|Hne]; cbn [negb].
        - rewrite bool_decide_true, Z.add_0_r by done. by destruct st.
        - rewrite bool_decide_false by congruence. rewrite s32_small; [done|]. simpl. lia. }
    rewrite (upd_line_eq _ i ln) by done. cbn [mbind option_bind].
    change (set_line (_ <| gc_target := tg |>) i l2) with s1. rewrite E1. cbn [mbind option_bind].
    rewrite (upd_line_eq s2 i (l2 <| ln_link := Some (list_of (group_of lm l1)) |>)) by (by apply (rd_set_line_eq s1 i l2)).
    cbn [mbind option_bind]. change (set_line s2 i _) with (set_line s2 i (shut ln)).
    change (pblk_gc_should_kick _ _) with (pblk_gc_should_kick (rl st) (gc st)). rewrite Er. cbn [mbind option_bind].
    f_equal. unfold set_line in Eshut |- *. unfold s2, s1, set_line in *. simpl in Eshut |- *. by rewrite Eshut.
  - apply (links_same (set_line s2 i (shut ln))); [by rewrite Eshut|done|].
    apply (links_set_line s2 i (l2 <| ln_link := Some (list_of (group_of lm l1)) |>)); [done| |done].
    by apply (rd_set_line_eq s1 i l2).
Qed.

Lemma line_close_inv x st i ln P c qe b k mem sync ss :
  INV x st → rd (lines st) i = Some ln → ln_state ln = PBLK_LINESTATE_OPEN → ln_link ln = None →
  full_at x i = false → left_msecs ln = 0 → writing lm p L R (full_at x i) st ln P c qe b k mem sync →
  length ss = length (emeta_sync st) → (∀ k', k' ≠ k → rd ss k' = rd (emeta_sync st) k') →
  ∃ st', pblk_line_close lm (st <| emeta_sync := ss |>) i = Some st' ∧ INV x st' ∧
    lines st' = <[Z.to_nat i := shut ln]> (lines st).
Proof using Hlm.
  intros Hinv Hi Ho Hl Hx Hleft Hw Hss1 Hss2.
  destruct (line_close_spec x st i ln P c qe b k mem sync ss Hinv Hi Ho Hl Hw) as (ls & r' & g' & E & Hlk & Hr1 & Hr2).
  eexists. split; [exact E|]. split; [|done]. set (st' := set_line _ i _ <| lists := ls |> <| meta_bitmap := _ |>
    <| gc_target := _ |> <| rl := _ |> <| gc := _ |>) in *.
  pose proof (in_line _ _ _ _ _ _ Hinv i ln Hi) as Hok. pose proof Hok as [_ Hr Hb]. pose proof Hw as [].
  pose proof (in_counters _ _ _ _ _ _ Hinv) as Hc. pose proof (in_streams _ _ _ _ _ _ Hinv) as Hs.
  pose proof (rd_lt _ _ _ wr_bit) as Hkl. pose proof (open_queued x st i ln Hok Ho) as Hq.
  eapply (inv_meta_step x st st' i ln (shut ln) k); try done.
  - apply wr_meta.
  - split.
    + unfold shape. simpl. do 3 (split; [done|]). exists b. by apply (counted_same ln).
    + unfold refs in *. simpl. by rewrite Ho in Hr.
    + by apply (blocks_same st st' ln).
  - intros k' Hne. split; [|split; [done|by apply Hss2]]. simpl. apply rd_insert_ne; [lia|done].
  - simpl. apply length_insert.
  - by right.
  - apply (counters_step L st st' i ln (shut ln)); try done; try apply Hc; try rewrite Hq;
      try (change (is_target (map_type st) ln) with
        (if bool_decide (ln_state ln = PBLK_LINESTATE_CLOSED) && negb (bool_decide (rd (map_type st) (pstream ln) = Some BLOCK_MAP)) then 1 else 0));
      unfold free_blks, is_free, is_queued; rewrite ?Ho; simpl; try lia.
    destruct (group_of lm _); simpl; lia.
  - apply (streams_step x x st st' i ln (shut ln)); try done.
    + intros [nrb Hn]. destruct (sm_line _ _ Hs nrb i Hn) as (l & ? & ? & ? & [?|?]); simplify_eq; [lia|congruence].
    + intros (nrb & Hst & Hn). destruct (sm_next _ _ Hs nrb i Hst Hn) as (l & ? & ? & ?). simplify_eq.
      destruct wr_meta. congruence.
Qed.

(** Completion of a page of metadata that was submitted. *)
Lemma end_meta_inv x st i ln P c qe b k mem sync :
  INV x st → rd (lines st) i = Some ln → ln_state ln = PBLK_LINESTATE_OPEN → full_at x i = false →
  writing lm p L R (full_at x i) st ln P c qe b k mem sync → sync * sec_size lm < mem →
  let sync' := sync + Z.of_nat p in
  ∃ st' ln', pblk_end_io_write_meta lm st i = Some st' ∧ INV x st' ∧
    lines st' = <[Z.to_nat i := ln']> (lines st) ∧
    (if sync' =? emeta_sec lm then ln' = shut ln
     else ln' = ln ∧ writing lm p L R (full_at x i) st' ln P c qe b k mem sync').
Proof using Hlm.
  intros Hinv Hi Ho Hx Hw Hlt sync'. pose proof Hlm as []. pose proof Hw as [].
  destruct wr_meta as [Hme Hml]. destruct wr_sync as [Hs1 Hs2]. destruct wr_sync_p as [s Hsp].
  pose proof (zeros_bounds (drop qe P)) as Hzb. pose proof (rd_lt _ _ _ wr_sync_k) as Hkl.
  assert (Hle : sync' * sec_size lm ≤ mem).
  { unfold sync'. rewrite Hsp in *. rewrite lm_emeta_len, lm_emeta in wr_mem.
    assert (Z.of_nat s < Z.of_nat e - zeros (drop qe P)) by nia. nia. }
  assert (Hmem0 : 0 < mem) by nia.
  assert (Hleft : left_msecs ln = 0).
  { destruct wr_open. pose proof (zeros_bounds (take qe P)). destruct (decide (0 < left_msecs ln)) as [Hp|]; [|nia].
    specialize (wr_data (or_introl Hp)). lia. }
  unfold pblk_end_io_write_meta. rewrite Hi. cbn [mbind option_bind]. rewrite Hme. cbn [mbind option_bind].
  rewrite wr_sync_k. cbn [mbind option_bind]. rewrite wr_in_range by lia. cbn [mbind option_bind].
  rewrite lm_min_write_pgs. fold sync'. set (ss := <[Z.to_nat k := sync']> (emeta_sync st)).
  destruct (Z.eqb_spec sync' (emeta_sec lm)) as [Heq|Hne].
  - assert (Hm : mem = emeta_len lm) by (rewrite Heq in Hle; nia).
    assert (Hl : ln_link ln = None).
    { rewrite (proj2 (Z.ltb_ge mem (emeta_len lm))) in wr_link by lia. by rewrite andb_false_r in wr_link. }
    destruct (line_close_inv x st i ln P c qe b k mem sync ss) as (st' & E1 & E2 & E3); try done.
    { unfold ss. apply length_insert. }
    { intros k' Hk'. unfold ss. apply rd_insert_ne; [lia|done]. }
    by exists st', (shut ln).
  - set (st' := st <| emeta_sync := ss |>). exists st', ln. split; [done|].
    pose proof (in_line _ _ _ _ _ _ Hinv i ln Hi) as Hok. pose proof Hok as [_ Hr Hb].
    assert (El : lines st' = <[Z.to_nat i := ln]> (lines st)).
    { apply rd_Some in Hi as [_ Hi]. simpl. by rewrite list_insert_id. }
    assert (Hw' : writing lm p L R (full_at x i) st' ln P c qe b k mem sync').
    { split; try done.
      - by apply (rd_insert_eq _ _ _ sync).
      - unfold sync' in *. split; [|nia]. rewrite lm_emeta, Hsp in *. nia.
      - exists (S s). unfold sync'. lia. }
    split; [|done].
    assert (Hok' : OK x st' i ln) by (eapply ok_writing; [done|by apply (open_group x st i)|done..]).
    eapply (inv_meta_step x st st' i ln ln k); try done.
    + by apply (links_same st), Hinv.
    + intros k' Hk'. do 2 (split; [done|]). apply rd_insert_ne; [lia|done].
    + simpl. unfold ss. apply length_insert.
    + by left.
    + apply (counters_open x st st' i ln ln); try done; by eapply open_queued.
    + apply (streams_open x st st' i ln ln); done.
Qed.

(** *** Taking a line

    The drive and the allocator do not fail. *)

Record env_ok (env : line_env) : Prop := {
  eo_map : ∀ i, map_alloc env i = true;
  eo_invalid : ∀ i, invalid_alloc env i = true;
  eo_erase : ∀ i b, erase env i b = EraseDone;
  eo_smeta : ∀ i, smeta_fails env i = false
}.

Definition got (env : line_env) (i : Z) (ln : pblk_line) : pblk_line :=
  ln <| ln_link := None |> <| map_bitmap := Some (replicate (Z.to_nat (sec_per_line lm)) false) |>
     <| invalid_bitmap := Some (junk env i) |> <| ln_state := PBLK_LINESTATE_OPEN |>
     <| left_eblks := blk_in_line ln |> <| left_seblks := blk_in_line ln |>
     <| erase_bitmap := blk_bitmap ln |> <| ref := 1 |>.

Lemma free_line x st i ls :
  INV x st → lists st free_list = i :: ls →
  ∃ ln, rd (lines st) i = Some ln ∧ ln_state ln = PBLK_LINESTATE_FREE ∧ ln_link ln = Some free_list ∧
    gc_group ln = PBLK_LINEGC_NONE ∧ ln_meta ln = None ∧ vsc ln = EMPTY_ENTRY.
Proof using.
  intros Hinv E. destruct (proj1 (lk_mem _ (in_links _ _ _ _ _ _ Hinv) free_list i)) as (ln & Hi & Hl); [rewrite E; left|].
  exists ln. split; [done|]. pose proof (in_line _ _ _ _ _ _ Hinv i ln Hi) as [Hs _ _].
  unfold shape in Hs. destruct (ln_state ln); try done; exfalso.
  - destruct Hs as (_ & [[]|(P & c & qe & b & k & mem & sync & [])]); [congruence|].
    destruct (_ && _); [|congruence]. destruct wr_link as [nrb E']. congruence.
  - destruct Hs as (_ & E' & _). rewrite Hl in E'. by destruct (gc_group ln).
  - destruct Hs as (_ & [E'|E'] & _); congruence.
  - destruct Hs as (E' & _). congruence.
Qed.

Lemma line_get_ok env st i ls ln :
  links_ok st → env_ok env → lists st free_list = i :: ls → rd (lines st) i = Some ln →
  ln_state ln = PBLK_LINESTATE_FREE → ln_link ln = Some free_list → length (blk_bitmap ln) = L →
  min_blk_line lm ≤ zeros (blk_bitmap ln) → 0 ≤ nr_free_lines st < 2 ^ 31 →
  let st' := set_line st i (got env i ln) <| lists := <[free_list := filter (λ j, j ≠ i) (lists st free_list)]> (lists st) |>
               <| nr_free_lines := nr_free_lines st - 1 |> in
  pblk_line_get lm env st = Some (st', Some i) ∧ links_ok st'.
Proof using Hlm.
  intros Hlk [] E Hi Hf Hl Hb1 Hmin B.
  set (l1 := ln <| ln_link := None |>).
  set (l' := <[free_list := filter (λ j, j ≠ i) (lists st free_list)]> (lists st)).
  assert (E1 : list_del st i = Some (set_line st i l1 <| lists := l' |>)) by (by apply list_del_eq).
  assert (Hk : links_ok (set_line st i l1 <| lists := l' |>)) by (by apply links_del).
  set (s1 := set_line st i l1 <| lists := l' |> <| nr_free_lines := nr_free_lines st - 1 |>).
  assert (Hi1 : rd (lines s1) i = Some l1) by (by apply (rd_set_line_eq st i ln)).
  cbn zeta. split.
  - unfold pblk_line_get. rewrite E. cbn [length line_get_loop]. rewrite E, E1. cbn [mbind option_bind].
    match goal with |- context [rd (lines ?s) i] => change (rd (lines s) i) with (rd (lines s1) i) end.
    rewrite s32_small by (simpl; lia). rewrite Hi1. cbn [mbind option_bind].
    change (blk_bitmap l1) with (blk_bitmap ln).
    destruct (smeta_page_exists L (blk_bitmap ln)) as [g Hg]; [done| |].
    { pose proof (lm_min_blk _ _ _ _ _ Hlm). pose proof (lm_R _ _ _ _ _ Hlm). nia. }
    rewrite (find_smeta lm p L R e Hlm _ g), (lm_blk_per_line _ _ _ _ _ Hlm) by done.
    destruct Hg as (Hg & _). rewrite (proj2 (Z.leb_gt _ _)) by lia.
    match goal with |- context [pblk_line_prepare lm env ?s i] => change s with s1 end.
    unfold pblk_line_prepare. rewrite Hi1. cbn [mbind option_bind]. rewrite eo_map0, eo_invalid0. cbn [negb].
    rewrite (upd_line_eq s1 i l1) by done. cbn [mbind option_bind].
    rewrite (upd_set_line s1 i l1) by done. cbn [mbind option_bind].
    change (ln_state l1) with (ln_state ln). rewrite bool_decide_true by done. cbn [negb].
    rewrite (upd_set_line s1 i l1) by done. cbn [mbind option_bind]. do 3 f_equal.
    unfold s1, set_line. simpl. rewrite list_insert_insert_eq. done.
  - apply (links_same (set_line s1 i (got env i ln))).
    + unfold s1, set_line. simpl. by rewrite list_insert_insert_eq.
    + done.
    + apply (links_set_line s1 i l1); [by apply (links_same _ s1) in Hk|done|done].
Qed.

Lemma line_get_spec x env st i ls ln :
  INV x st → env_ok env → lists st free_list = i :: ls → rd (lines st) i = Some ln →
  ∃ l', let st' := set_line st i (got env i ln) <| lists := l' |> <| nr_free_lines := nr_free_lines st - 1 |> in
    pblk_line_get lm env st = Some (st', Some i) ∧ links_ok st'.
Proof using Hlm.
  intros Hinv Henv E Hi. destruct (free_line x st i ls Hinv E) as (lx & Hi' & Hf & Hl & _). assert (lx = ln) as -> by congruence.
  pose proof (in_line _ _ _ _ _ _ Hinv i ln Hi) as [_ _ (Hb1 & Hmin & _)].
  eexists. apply (line_get_ok env st i ls ln); try done; [apply Hinv|apply Hmin; by rewrite Hf|].
  pose proof (counters_bounds lm p L R x st Hinv). lia.
Qed.

(** A step that only changes the tables of the streams. *)
Lemma inv_globals x x' st a b c d :
  INV x st → let st' := st <| data_line := a |> <| data_next := b |> <| rb_rl := c |> <| pblk_state := d |> in
  (∀ i, 0 ≤ i → full_at x' i = full_at x i) → streams x' st' → INV x' st'.
Proof using.
  intros [] st' Hx Hs. split; try done.
  - intros i ln Hi. destruct (in_line i ln Hi) as [Hsh Hr Hb]. split; [|done|done].
    eapply shape_frame; [done|apply Hx; apply rd_lt in Hi; lia|done].
  - by apply (links_same st).
  - by destruct in_counters.
  - by destruct in_metas.
Qed.

Definition next_ok (st : pblk) (nrb : Z) : Prop :=
  ∀ j, rd (data_next st) nrb = Some (Some j) →
    ∃ ln, rd (lines st) j = Some ln ∧ ln_state ln = PBLK_LINESTATE_OPEN ∧ ln_meta ln = None.

(** The lines in use are left alone. *)
Definition keeps (st st' : pblk) : Prop :=
  ∀ j ln, rd (lines st) j = Some ln → ln_state ln ≠ PBLK_LINESTATE_FREE → rd (lines st') j = Some ln.

Lemma rd_insert_other {A} (l : list A) n n' v y :
  0 ≤ n → rd (<[Z.to_nat n := v]> l) n' = Some y → n' = n ∧ y = v ∨ n' ≠ n ∧ rd l n' = Some y.
Proof using.
  intros Hn H. destruct (decide (n' = n)) as [->|Hne].
  - left. split; [done|]. apply rd_Some in H as [_ H].
    pose proof (lookup_lt_Some _ _ _ H) as Hlt. rewrite length_insert in Hlt.
    rewrite list_lookup_insert_eq in H by done. congruence.
  - right. split; [done|]. by rewrite rd_insert_ne in H.
Qed.

(** The streams after the next line of a stream was replaced. *)
Lemma streams_next x st st' nrb v :
  streams x st → 0 ≤ nrb → data_line st' = data_line st →
  data_next st' = <[Z.to_nat nrb := v]> (data_next st) →
  length (rb_rl st') = length (rb_rl st) → map_type st' = map_type st →
  length (nr_erase st') = length (nr_erase st) → length (invalid_line st') = length (invalid_line st) →
  keeps st st' →
  (∀ j, v = Some j → (∀ n, n ≠ nrb → ¬ next_of st n j) ∧
     (stale_at x nrb = false → ∃ ln, rd (lines st') j = Some ln ∧ ln_state ln = PBLK_LINESTATE_OPEN ∧ ln_meta ln = None)) →
  streams x st'.
Proof using.
  intros [] Hn D1 D2 E1 E2 E3 E4 Hkeep Hv.
  assert (Hno : ∀ n j, next_of st' n j → n = nrb ∧ Some j = v ∨ n ≠ nrb ∧ next_of st n j).
  { unfold next_of. rewrite D1, D2. intros n j [Hr H]. apply rd_insert_other in H as [[-> <-]|[Hne H]]; [by left|by right|done]. }
  split; rewrite ?D1, ?D2, ?E1, ?E2, ?E3, ?E4, ?length_insert; try done.
  - intros n i H. destruct (sm_line n i H) as (ln & Hi & Ho & Hrest). exists ln. split; [|done].
    apply Hkeep; [done|]. by rewrite Ho.
  - intros n i Hs H. apply Hno in H as [[-> <-]|[Hne H]].
    + by apply (Hv i).
    + destruct (sm_next n i Hs H) as (ln & Hi & Ho & Hrest). exists ln. split; [|done].
      apply Hkeep; [done|]. by rewrite Ho.
  - intros n1 n2 i H1 H2. apply Hno in H1 as [[-> <-]|[N1 H1]]; apply Hno in H2 as [[-> F]|[N2 H2]]; try done.
    + exfalso. by apply (proj1 (Hv i eq_refl) n2 N2).
    + exfalso. subst v. by apply (proj1 (Hv i eq_refl) n1 N1).
    + by apply (sm_next_inj n1 n2 i).
Qed.

Lemma keeps_free st st' j ln ln' :
  rd (lines st) j = Some ln → ln_state ln = PBLK_LINESTATE_FREE →
  lines st' = <[Z.to_nat j := ln']> (lines st) → keeps st st'.
Proof using.
  intros Hj Hf El i li Hi Hne. rewrite El. change (rd (lines (set_line st j ln')) i = Some li).
  rewrite (rd_set_line st j i ln) by done. case_decide; [congruence|done].
Qed.

Lemma rd_lines_eq s ls j l y :
  lines s = <[Z.to_nat j := l]> ls → rd ls j = Some y → rd (lines s) j = Some l.
Proof using. intros ->. apply rd_insert_eq. Qed.

(** A line prepared for stream [nrb]. *)
Definition next_line (env : line_env) (st : pblk) (nrb j : Z) (ln : pblk_line) : pblk_line :=
  got env j ln <| seq_nr := u32 (d_seq_nr st) |> <| ln_type := PBLK_LINETYPE_DATA |> <| pstream := u8 nrb |>.

Lemma prepare_next_none x env st nrb :
  INV x st → lists st free_list = [] → 0 ≤ nrb < Z.of_nat (length (data_line st)) →
  ∃ st', prepare_next lm env st nrb = Some st' ∧ INV x st' ∧ next_ok st' nrb ∧ keeps st st' ∧
    lines st' = lines st ∧ data_line st' = data_line st.
Proof using.
  intros Hinv E Hn. pose proof (in_streams _ _ _ _ _ _ Hinv) as Hs. pose proof Hs as [_ _ _ _ (Hl1 & Hl2 & _)].
  destruct (rd_is_Some (rb_rl st) nrb) as [r Hr]; [lia|].
  unfold prepare_next, pblk_line_get. cbn [line_get_loop]. rewrite E. cbn [mbind option_bind].
  rewrite wr_in_range by lia. cbn [mbind option_bind]. unfold pblk_stop_writes, pblk_set_space_limit.
  change (rb_rl (st <| data_next := _ |>)) with (rb_rl st). rewrite Hr. cbn [mbind option_bind].
  rewrite wr_in_range by lia. cbn [mbind option_bind]. eexists. split; [done|].
  set (dn := <[Z.to_nat nrb := None]> (data_next st)). set (rs := <[Z.to_nat nrb := _]> (rb_rl st)).
  assert (Hk : keeps st (st <| data_next := dn |> <| rb_rl := rs |> <| pblk_state := PBLK_STATE_STOPPING |>)) by (by intros ? ? ?).
  split; [|split; [|done]].
  - apply (inv_globals x x st (data_line st) dn rs PBLK_STATE_STOPPING Hinv); [done|].
    apply (streams_next x st _ nrb None); try done; [lia|]. simpl. unfold rs. apply length_insert.
  - intros j Hj. simpl in Hj. apply rd_insert_other in Hj as [[_ ?]|[? _]]; [done..|lia].
Qed.

(** What a step leaves of the state, apart from the lines and the lists. *)
Definition same_refs (st st' : pblk) : Prop :=
  wb st' = wb st ∧ gc_rqs st' = gc_rqs st ∧ gc_reader_wq st' = gc_reader_wq st ∧ map_type st' = map_type st ∧
  inflight_gc st' = inflight_gc st ∧ rb_rl st' = rb_rl st ∧ nr_erase st' = nr_erase st ∧
  invalid_line st' = invalid_line st ∧ warns st' = warns st.

Definition same_metas (st st' : pblk) : Prop :=
  meta_bitmap st' = meta_bitmap st ∧ emeta_mem st' = emeta_mem st ∧ emeta_sync st' = emeta_sync st.

Lemma prepare_next_spec x env st nrb j ls ln :
  INV x st → env_ok env → lists st free_list = j :: ls → 0 ≤ nrb < Z.of_nat (length (data_line st)) →
  rd (lines st) j = Some ln →
  ∃ st', prepare_next lm env st nrb = Some st' ∧ links_ok st' ∧ same_refs st st' ∧ same_metas st st' ∧
    lines st' = <[Z.to_nat j := next_line env st nrb j ln]> (lines st) ∧ data_line st' = data_line st ∧
    data_next st' = <[Z.to_nat nrb := Some j]> (data_next st) ∧
    nr_free_lines st' = nr_free_lines st - 1 ∧ gc_target st' = gc_target st ∧
    rl st' = pblk_rl_free_lines_dec (rl st) (blk_in_line ln).
Proof using Hlm.
  intros Hinv Henv E Hn Hj. destruct (line_get_spec x env st j ls ln Hinv Henv E Hj) as (l' & E1 & Hk).
  pose proof (in_streams _ _ _ _ _ _ Hinv) as [_ _ _ _ (Hl1 & _)].
  set (s1 := set_line st j _ <| lists := l' |> <| nr_free_lines := _ |>) in *.
  set (nl := next_line env st nrb j ln). set (dn := <[Z.to_nat nrb := Some j]> (data_next st)).
  assert (Hi1 : rd (lines s1) j = Some (got env j ln)) by (by apply (rd_set_line_eq st j ln)).
  unfold prepare_next. rewrite E1. cbn [mbind option_bind].
  change (data_next s1) with (data_next st). rewrite wr_in_range by lia. cbn [mbind option_bind]. fold dn.
  unfold number_line. rewrite (upd_line_eq _ j (got env j ln)) by done. cbn [mbind option_bind].
  match goal with |- ∃ _, upd_line ?s j ?f ≫= _ = _ ∧ _ =>
    rewrite (upd_line_eq s j (got env j ln <| seq_nr := u32 (d_seq_nr st) |> <| ln_type := PBLK_LINETYPE_DATA |>) f)
      by (by apply (rd_set_line_eq s1 j (got env j ln))) end.
  cbn [mbind option_bind]. unfold rl_dec.
  match goal with |- ∃ _, rd (lines ?s) j ≫= _ = _ ∧ _ => assert (Hrd : rd (lines s) j = Some nl) end.
  { apply (rd_lines_eq _ (lines st) j nl ln); [|done]. cbn. by rewrite !list_insert_insert_eq. }
  rewrite Hrd. cbn [mbind option_bind]. eexists. split; [done|].
  match goal with |- links_ok ?s ∧ _ => assert (El : lines s = <[Z.to_nat j := nl]> (lines st))
    by (cbn; by rewrite !list_insert_insert_eq) end.
  split; [|done]. apply (links_same (set_line s1 j nl)); [|cbn; reflexivity|].
  - rewrite El. cbn. by rewrite list_insert_insert_eq.
  - apply (links_set_line s1 j (got env j ln) nl Hk Hi1). unfold nl, next_line. cbn. reflexivity.
Qed.

Lemma rl_dec_ok (r : pblk_rl) n :
  rl_ok r → 0 ≤ n ≤ free_blocks r →
  rl_ok (pblk_rl_free_lines_dec r n) ∧ free_blocks (pblk_rl_free_lines_dec r n) = free_blocks r - n.
Proof using.
  intros [] Hn. unfold pblk_rl_free_lines_dec. rewrite s32_small by lia. split; [|done]. split; simpl; lia.
Qed.

Lemma lsum_ge f ls i ln : (∀ l, l ∈ ls → 0 ≤ f l) → ls !! i = Some ln → f ln ≤ lsum f ls.
Proof using.
  revert i. induction ls as [|l ls IH]; intros [|i] H Hi; simplify_eq/=.
  - pose proof (lsum_bounds f ls (lsum f ls + 0)) as B. clear B.
    assert (0 ≤ lsum f ls); [|lia]. clear IH. assert (H' : ∀ x, x ∈ ls → 0 ≤ f x) by (intros; apply H; by right).
    clear H. induction ls; simpl; [lia|]. pose proof (H' a ltac:(left)). specialize (IHls ltac:(intros; apply H'; by right)). lia.
  - specialize (IH i ltac:(intros; apply H; by right) Hi). pose proof (H l ltac:(left)). lia.
Qed.

Lemma next_line_fields env st nrb j ln :
  let nl := next_line env st nrb j ln in
  ln_state nl = PBLK_LINESTATE_OPEN ∧ ln_link nl = None ∧ gc_group nl = gc_group ln ∧ ln_meta nl = ln_meta ln ∧
  vsc nl = vsc ln ∧ map_bitmap nl = Some (replicate (Z.to_nat (sec_per_line lm)) false) ∧
  invalid_bitmap nl = Some (junk env j) ∧ erase_bitmap nl = blk_bitmap nl ∧ left_eblks nl = blk_in_line nl ∧
  left_seblks nl = blk_in_line nl ∧ ref nl = 1 ∧ blk_bitmap nl = blk_bitmap ln ∧ blk_in_line nl = blk_in_line ln ∧
  pstream nl = u8 nrb.
Proof using. unfold next_line, got. cbn. done. Qed.

Lemma free_blks_nonneg x st ln : INV x st → ln ∈ lines st → 0 ≤ free_blks ln.
Proof using.
  intros Hinv [k Hk]%list_elem_of_lookup_1. destruct (in_line _ _ _ _ _ _ Hinv (Z.of_nat k) ln) as [_ _ (Hb1 & Hb2 & _)].
  { apply rd_Some. rewrite Nat2Z.id. split; [lia|done]. }
  pose proof (zeros_bounds (blk_bitmap ln)). unfold free_blks, is_free. case_bool_decide as Hf; [|lia].
  destruct Hb2 as [-> _]; [by rewrite Hf|lia].
Qed.

(** What a line has to be to wait as the next one of a stream. *)
Record waiting (ln nl : pblk_line) (n : Z) : Prop := {
  wt_state : ln_state nl = PBLK_LINESTATE_OPEN;
  wt_link : ln_link nl = None;
  wt_same : gc_group nl = gc_group ln ∧ ln_meta nl = ln_meta ln ∧ vsc nl = vsc ln;
  wt_map : map_bitmap nl = Some (replicate (Z.to_nat (sec_per_line lm)) false);
  wt_inv : is_Some (invalid_bitmap nl);
  wt_erase : erase_bitmap nl = blk_bitmap nl ∧ left_eblks nl = blk_in_line nl ∧ left_seblks nl = blk_in_line nl;
  wt_ref : ref nl = 1;
  wt_blks : blk_bitmap nl = blk_bitmap ln ∧ blk_in_line nl = blk_in_line ln;
  wt_stream : 0 ≤ pstream nl < n
}.

(** A free line becomes the next one of stream [nrb]. *)
Lemma next_inv x st st' nrb j ln nl :
  INV x st → 0 ≤ nrb < Z.of_nat (length (data_line st)) → (∀ n, stale_at x n = true → n = nrb) →
  rd (lines st) j = Some ln → ln_state ln = PBLK_LINESTATE_FREE →
  waiting ln nl (Z.of_nat (length (map_type st))) → links_ok st' → same_refs st st' → same_metas st st' →
  lines st' = <[Z.to_nat j := nl]> (lines st) → data_line st' = data_line st →
  data_next st' = <[Z.to_nat nrb := Some j]> (data_next st) →
  nr_free_lines st' = nr_free_lines st - 1 → gc_target st' = gc_target st →
  rl st' = pblk_rl_free_lines_dec (rl st) (blk_in_line ln) →
  INV x st' ∧ next_ok st' nrb ∧ keeps st st'.
Proof using Hlm.
  intros Hinv Hn Hst Hj Hf [F1 F2 (F3 & F4 & F5) F6 F7 (F8 & F9 & F10) F11 (F12 & F13) F14] Hk
    (R1 & R2 & R3 & R4 & R5 & R6 & R7 & R8 & R9) (M1 & M2 & M3) El D1 D2 C1 C2 C3.
  pose proof (in_line _ _ _ _ _ _ Hinv j ln Hj) as [Hsh Hr (Hb1 & Hmin & Hps)]. unfold refs in Hr. rewrite Hf in Hr.
  destruct Hmin as [Hb2 Hmin]; [by rewrite Hf|].
  unfold shape in Hsh. rewrite Hf in Hsh. destruct Hsh as (Hl & Hg & Hme & Hv).
  pose proof (in_streams _ _ _ _ _ _ Hinv) as Hs. pose proof Hs as [_ _ _ _ (Hl1 & Hl2 & Hl3 & Hl4 & _)].
  pose proof (in_counters _ _ _ _ _ _ Hinv) as Hc. pose proof (not_owned lm p L R x st j ln Hinv Hj ltac:(by rewrite Hf)) as [No1 No2].
  assert (Hkeep : keeps st st') by (by eapply (keeps_free st st' j ln)).
  assert (Hj1 : rd (lines st') j = Some nl) by (by apply (rd_lines_eq _ (lines st) j nl ln)).
  assert (Hblk : 0 ≤ blk_in_line ln ≤ free_blocks (rl st)).
  { rewrite (cn_blks _ _ Hc). pose proof Hj as [_ Hj2]%rd_Some. pose proof (zeros_bounds (blk_bitmap ln)).
    pose proof (lsum_ge free_blks (lines st) _ ln (λ l, free_blks_nonneg x st l Hinv) Hj2) as Hge.
    assert (free_blks ln = blk_in_line ln) by (unfold free_blks, is_free; rewrite Hf; simpl; lia). lia. }
  destruct (rl_dec_ok (rl st) (blk_in_line ln)) as [Hrl Hfb]; [apply Hc|done|].
  split; [|split; [|done]].
  - eapply (inv_one lm p L R x x st st' j ln nl); try done.
    + split; rewrite ?R1, ?R2, ?R3, ?M1, ?M2, ?M3; done.
    + split.
      * unfold shape. rewrite F1. split; [by rewrite F3|]. left. split; try done; try congruence.
        rewrite F6. do 2 f_equal. rewrite (lm_sec_per_line _ _ _ _ _ Hlm). unfold PblkLineInv.pages. lia.
      * unfold refs. rewrite F1, F11, R1, R2, R3. lia.
      * unfold blocks. rewrite F12, F13, R4. done.
    + eapply (counters_step L st st' j ln nl); try done; rewrite ?R3, ?R5, ?C1, ?C2, ?C3, ?Hfb; try apply Hc; try done;
        unfold is_free, is_target, is_queued, free_blks, is_free; rewrite ?Hf, ?F1, ?F2, ?Hl; simpl; lia.
    + apply (streams_next x st st' nrb (Some j)); try done; rewrite ?R6, ?R7, ?R8; try done; [lia|].
      intros j' [= <-]. split.
      * intros n Hne Hx. destruct No2. exists n. split; [|done].
        destruct (stale_at x n) eqn:T; [by apply Hst in T|done].
      * intros _. exists nl. split; [done|]. split; [done|]. by rewrite F4.
    + apply (metas_step st st' j ln nl); rewrite ?M1, ?M2, ?M3; try done; [apply Hinv|]. left. done.
  - intros j' Hj''. rewrite D2 in Hj''. apply rd_insert_other in Hj'' as [[_ [= ->]]|[? _]]; [|done|lia].
    exists nl. split; [done|]. split; [done|]. by rewrite F4.
Qed.

Lemma prepare_next_some x env st nrb j ls ln :
  INV x st → env_ok env → lists st free_list = j :: ls → 0 ≤ nrb < Z.of_nat (length (data_line st)) →
  rd (lines st) j = Some ln → (∀ n, stale_at x n = true → n = nrb) →
  ∃ st', prepare_next lm env st nrb = Some st' ∧ INV x st' ∧ next_ok st' nrb ∧ keeps st st' ∧
    lines st' = <[Z.to_nat j := next_line env st nrb j ln]> (lines st) ∧ data_line st' = data_line st.
Proof using Hlm.
  intros Hinv Henv E Hn Hj Hst. destruct (free_line x st j ls Hinv E) as (lx & Hj' & Hf & Hl & Hg & Hme & Hv).
  assert (lx = ln) as -> by congruence.
  destruct (prepare_next_spec x env st nrb j ls ln Hinv Henv E Hn Hj)
    as (st' & Ep & Hk & Hr & Hm & El & D1 & D2 & C1 & C2 & C3).
  pose proof (sm_length _ _ (in_streams _ _ _ _ _ _ Hinv)) as (Hl1 & Hl2 & Hl3 & Hl4 & _).
  destruct (next_inv x st st' nrb j ln (next_line env st nrb j ln)) as (H1 & H2 & H3); try done.
  - pose proof (next_line_fields env st nrb j ln) as (F1 & F2 & F3 & F4 & F5 & F6 & F7 & F8 & F9 & F10 & F11 & F12 & F13 & F14).
    split; try done. rewrite F14. unfold u8. rewrite Z.mod_small by lia. lia.
  - by exists st'.
Qed.

Lemma prepare_next_inv x env st nrb :
  INV x st → env_ok env → 0 ≤ nrb < Z.of_nat (length (data_line st)) → (∀ n, stale_at x n = true → n = nrb) →
  alive None st →
  ∃ st', prepare_next lm env st nrb = Some st' ∧ INV x st' ∧ next_ok st' nrb ∧ keeps st st' ∧
    data_line st' = data_line st ∧ alive None st'.
Proof using Hlm.
  intros Hinv Henv Hn Hst Hal. destruct (lists st free_list) as [|j ls] eqn:E.
  - destruct (prepare_next_none x env st nrb Hinv E Hn) as (st' & E1 & E2 & E3 & E4 & E5 & E6).
    exists st'. do 5 (split; [done|]). intros i ln Hi. rewrite E5 in Hi. by apply Hal.
  - destruct (free_line x st j ls Hinv E) as (ln & Hj & Hf & _).
    destruct (prepare_next_some x env st nrb j ls ln Hinv Henv E Hn Hj Hst) as (st' & E1 & E2 & E3 & E4 & E5 & E6).
    exists st'. do 5 (split; [done|]). eapply alive_touch; [done|done|done|].
    by rewrite (proj1 (next_line_fields env st nrb j ln)).
Qed.

(** *** Erasing a line *)

Definition erased (ln : pblk_line) (a : Z) (b : list bool) (c : Z) : pblk_line :=
  ln <| left_eblks := a |> <| erase_bitmap := b |> <| left_seblks := c |>.

Lemma erased_twice ln a b c a' b' c' : erased (erased ln a b c) a' b' c' = erased ln a' b' c'.
Proof using. by destruct ln. Qed.

Lemma erased_id ln : erased ln (left_eblks ln) (erase_bitmap ln) (left_seblks ln) = ln.
Proof using. by destruct ln. Qed.

Lemma erase_loop_spec n env st i l0 ln bit :
  env_ok env → rd (lines st) i = Some l0 → length (erase_bitmap ln) = (bit + n)%nat →
  let z := zeros (drop bit (erase_bitmap ln)) in
  line_erase_loop n env (set_line st i ln) i (Z.of_nat bit) =
    Some (set_line st i (erased ln (left_eblks ln - z) (take bit (erase_bitmap ln) ++ replicate n true)
                           (left_seblks ln - z)), false).
Proof using.
  intros Henv Hi. revert ln bit. induction n as [|n IH]; intros ln bit Hl; cbn [line_erase_loop].
  - rewrite drop_ge, take_ge, zeros_nil, !Z.sub_0_r, app_nil_r by lia. cbn zeta. by rewrite erased_id.
  - rewrite (rd_set_line_eq st i l0) by done. cbn [mbind option_bind].
    destruct (lookup_lt_is_Some_2 (erase_bitmap ln) bit) as [x Hx]; [lia|].
    assert (Hrd : rd (erase_bitmap ln) (Z.of_nat bit) = Some x) by (apply rd_Some; rewrite Nat2Z.id; split; [lia|done]).
    rewrite Hrd. cbn [mbind option_bind]. replace (Z.of_nat bit + 1) with (Z.of_nat (S bit)) by lia.
    assert (Hd : zeros (drop bit (erase_bitmap ln)) = (if x then 0 else 1) + zeros (drop (S bit) (erase_bitmap ln))).
    { rewrite (drop_S _ x bit Hx), zeros_cons. done. }
    assert (Ht : take (S bit) (erase_bitmap ln) = take bit (erase_bitmap ln) ++ [x]) by (by apply take_S_r).
    destruct x.
    + rewrite (IH ln (S bit)) by lia. cbn zeta. rewrite Hd, Ht, <- app_assoc. done.
    + rewrite wr_in_range by (apply rd_lt in Hrd; lia). cbn [mbind option_bind].
      rewrite (upd_set_line st i l0) by done. cbn [mbind option_bind]. rewrite (eo_erase env Henv).
      unfold __pblk_end_io_erase. rewrite (upd_set_line st i l0) by done. cbn [mbind option_bind].
      rewrite Nat2Z.id. set (eb := <[bit := true]> (erase_bitmap ln)).
      match goal with |- line_erase_loop _ _ ?s _ _ = _ =>
        change s with (set_line st i (erased ln (left_eblks ln - 1) eb (left_seblks ln - 1))) end.
      rewrite IH by (unfold eb; simpl; rewrite length_insert; lia). cbn zeta. rewrite erased_twice.
      change (erase_bitmap (erased ln (left_eblks ln - 1) eb (left_seblks ln - 1))) with eb.
      unfold eb. rewrite drop_insert_lt, take_S_r with (x := true) by (try lia; apply list_lookup_insert_eq; lia).
      rewrite take_insert_ge, <- app_assoc by lia.
      change (left_eblks (erased ln _ _ _)) with (left_eblks ln - 1).
      change (left_seblks (erased ln _ _ _)) with (left_seblks ln - 1). rewrite Hd.
      replace (left_eblks ln - (1 + _)) with (left_eblks ln - 1 - zeros (drop (S bit) (erase_bitmap ln))) by lia.
      replace (left_seblks ln - (1 + _)) with (left_seblks ln - 1 - zeros (drop (S bit) (erase_bitmap ln))) by lia.
      done.
Qed.

(** *** Setting up a line *)

Lemma set_up_fields ln P g qe n :
  let l := set_up_line p L R ln P g qe n in
  (map_bitmap l = Some (expand p P) ∧ cur_sec l = Z.of_nat (p * S g) ∧ emeta_ssec l = Z.of_nat (p * qe) ∧
   left_msecs l = n ∧ vsc l = n ∧ sec_in_line l = n ∧
   invalid_bitmap l = Some (expand p (take qe P ++ replicate (pages - qe) true))) ∧
  ln_state l = ln_state ln ∧ gc_group l = gc_group ln ∧ ln_link l = ln_link ln ∧ ln_meta l = ln_meta ln ∧
  meta_line l = meta_line ln ∧ ref l = ref ln ∧ blk_bitmap l = blk_bitmap ln ∧ blk_in_line l = blk_in_line ln ∧
  pstream l = pstream ln.
Proof using. unfold set_up_line. cbn. done. Qed.

(** The bitmap of valid sectors after the set-up. *)
Lemma set_up_counted ln P g qe :
  length P = pages → (qe ≤ pages - e)%nat →
  let n := Z.of_nat p * zeros (take qe P) in
  n ≤ sec_per_line lm → counted lm (set_up_line p L R ln P g qe n) (expand p (take qe P ++ replicate (pages - qe) true)).
Proof using Hlm.
  pose proof Hlm as []. intros HP Hqe n Hn.
  pose proof (set_up_fields ln P g qe n) as ((F1 & F2 & F3 & F4 & F5 & F6 & F7) & _).
  set (l := set_up_line p L R ln P g qe n) in *. clearbody l.
  assert (Hz : zeros (expand p (take qe P ++ replicate (pages - qe) true)) = n).
  { rewrite expand_zeros, zeros_app, zeros_replicate. unfold n. lia. }
  assert (Hlen : length (expand p (take qe P ++ replicate (pages - qe) true)) = (p * pages)%nat).
  { rewrite expand_length, length_app, length_take, length_replicate. f_equal. lia. }
  assert (He : (pages - e < pages)%nat) by (unfold PblkLineInv.pages; nia).
  fold pages in lm_sec_per_line.
  split; rewrite ?F3, ?F5, ?F6, ?Hz, ?Hlen; try done; try lia.
  - split; [lia|]. rewrite lm_sec_per_line. nia.
  - intros k Hk1 Hk2. rewrite (Nat.div_mod k p) by lia. apply expand_lookup.
    + apply Nat.mod_upper_bound. lia.
    + assert (qe ≤ k / p)%nat by (apply Nat.div_le_lower_bound; lia).
      assert (k / p < pages)%nat by (apply Nat.Div0.div_lt_upper_bound; lia).
      rewrite lookup_app_r by (rewrite length_take; lia). rewrite length_take.
      apply lookup_replicate. split; [done|lia].
Qed.

Lemma find_meta st :
  Z.of_nat (length (meta_bitmap st)) = PBLK_DATA_LINES → 0 < zeros (meta_bitmap st) →
  ∃ m, find_first_zero_bit (meta_bitmap st) PBLK_DATA_LINES = m ∧ 0 ≤ m < PBLK_DATA_LINES ∧
    rd (meta_bitmap st) m = Some false.
Proof using.
  intros Hl Hz. destruct (first_zero_page (meta_bitmap st) 0) as (g & H1 & H2 & H3); [intros; lia|done|].
  exists (Z.of_nat g). split; [|split; [lia|apply rd_Some; rewrite Nat2Z.id; split; [lia|done]]].
  unfold find_first_zero_bit. rewrite <- Hl. apply find_next_zero_unique; rewrite ?Nat2Z.id; try lia; try done.
  intros k Hk. apply H2. lia.
Qed.

(** The buffers given to a line. *)
Definition with_meta (st : pblk) (m : Z) : pblk :=
  st <| meta_bitmap := <[Z.to_nat m := true]> (meta_bitmap st) |>
     <| emeta_mem := <[Z.to_nat m := 0]> (emeta_mem st) |>
     <| emeta_sync := <[Z.to_nat m := 0]> (emeta_sync st) |>.

Definition own_meta (ln : pblk_line) (m : Z) : pblk_line := ln <| meta_line := m |> <| ln_meta := Some m |>.

(** The line [new] after it was given buffer [m], erased and set up. *)
Definition fresh_line (ln : pblk_line) (m : Z) (P : list bool) (g qe : nat) (n : Z) : pblk_line :=
  set_up_line p L R (erased (own_meta ln m) 0 (replicate L true) 0) P g qe n.

Lemma setup_metadata_spec st new ln m :
  rd (lines st) new = Some ln → find_first_zero_bit (meta_bitmap st) PBLK_DATA_LINES = m → 0 ≤ m < PBLK_DATA_LINES →
  Z.of_nat (length (meta_bitmap st)) = PBLK_DATA_LINES → length (emeta_mem st) = length (meta_bitmap st) →
  length (emeta_sync st) = length (meta_bitmap st) →
  pblk_line_setup_metadata st new = Some (set_line (with_meta st m) new (own_meta ln m)).
Proof using.
  intros Hn Em Hm Hl1 Hl2 Hl3.
  unfold pblk_line_setup_metadata. rewrite Em, (proj2 (Z.ltb_lt _ _)) by lia. cbn [ensure mbind option_bind].
  unfold PBLK_DATA_LINES in *. rewrite !wr_in_range by lia. cbn [mbind option_bind].
  rewrite (upd_line_eq st new ln) by done. done.
Qed.

Lemma erase_line_spec env st new l0 ln :
  env_ok env → rd (lines st) new = Some l0 → prepared p L R ln → blocks lm L st ln → ln_state ln = PBLK_LINESTATE_OPEN →
  ∀ m, let l1 := own_meta ln m in
  pblk_line_erase lm env (set_line st new l1) new = Some (set_line st new (erased l1 0 (replicate L true) 0), false).
Proof using Hlm.
  intros Henv Hn [] (Hb1 & Hb2 & _) Ho m. destruct Hb2 as [Hb2 _]; [by rewrite Ho|]. cbn zeta. set (l1 := own_meta ln m). pose proof Hlm as [].
  unfold pblk_line_erase. rewrite lm_blk_per_line, Nat2Z.id. change 0 with (Z.of_nat 0) at 1.
  rewrite (erase_loop_spec L env st new l0 l1 0) by (try done; simpl; rewrite pr_erase; lia).
  cbn zeta. change (erase_bitmap l1) with (erase_bitmap ln). change (left_seblks l1) with (left_seblks ln).
  change (left_eblks l1) with (left_eblks ln). rewrite drop_0, pr_erase, pr_eblks, pr_seblks, Hb2, Z.sub_diag. done.
Qed.

(** The previous line of the stream, if there is one, still has its buffers. *)
Definition chained (st : pblk) (cur : option Z) (new : Z) : Prop :=
  ∀ c, cur = Some c → c ≠ new ∧ ∃ lc, rd (lines st) c = Some lc ∧ is_Some (ln_meta lc).

Lemma retry_setup_spec env st new l0 ln nrb cur m :
  rd (lines st) new = Some l0 → prepared p L R ln → blocks lm L st ln → ln_state ln = PBLK_LINESTATE_OPEN → env_ok env →
  chained st cur new →
  ∃ g qe, let P := <[g := true]> (bad_pages L R (blk_bitmap ln)) in
    let n := Z.of_nat p * zeros (take qe P) in
    smeta_page L (blk_bitmap ln) g ∧ (qe ≤ pages - e)%nat ∧ 0 < n ≤ sec_per_line lm ∧ zeros (drop qe P) = Z.of_nat e ∧
    ∀ fuel, retry_setup lm (S fuel) env (set_line st new (erased (own_meta ln m) 0 (replicate L true) 0)) new nrb cur
      = Some (set_line st new (fresh_line ln m P g qe n), Some new).
Proof using Hlm.
  intros Hn [] (Hb1 & Hmin & Hps) Ho Henv Hc. pose proof Hlm as [].
  destruct Hmin as [Hb2 Hmin']; [by rewrite Ho|].
  set (l2 := erased (own_meta ln m) 0 (replicate L true) 0).
  destruct (init_bb_spec lm p L R e Hlm env (set_line st new l2) new l2 (default [] (invalid_bitmap ln)) true)
    as (g & qe & Hg & Hqe & Hz1 & Hz2 & Einit); try done.
  { by apply (rd_set_line_eq st new l0). }
  { destruct pr_inv as [b0 Hb0]. change (invalid_bitmap l2) with (invalid_bitmap ln). by rewrite Hb0. }
  { simpl. apply Henv. }
  change (blk_bitmap l2) with (blk_bitmap ln) in *.
  exists g, qe. cbn zeta. split; [done|]. split; [done|].
  destruct (line_secs lm p L R e Hlm (blk_bitmap ln) Hb1 Hmin') as (Hsec & _ & _). pose proof (weight_bounds (blk_bitmap ln)).
  rewrite Hz1 in *. unfold data_pages in *. split; [split; nia|]. split; [done|].
  intros fuel. cbn [retry_setup].
  assert (Hmd : pblk_line_init_metadata lm (set_line st new l2) new cur = Some (set_line st new l2, true)).
  { unfold pblk_line_init_metadata. rewrite (rd_set_line_eq st new l0) by done. cbn [mbind option_bind].
    change (ln_meta l2) with (Some m). cbn [mbind option_bind]. change (blk_bitmap l2) with (blk_bitmap ln).
    unfold bitmap_weight. rewrite Hb1, lm_blk_per_line, (proj2 (Z.ltb_ge _ _)) by lia.
    destruct cur as [c|]; [|done]. destruct (Hc c eq_refl) as (Hne & lc & Hlc & [kc Hkc]).
    rewrite rd_set_line_ne by (try done; apply rd_lt in Hn; lia). rewrite Hlc. cbn [mbind option_bind]. by rewrite Hkc. }
  rewrite Hmd. cbn [mbind option_bind negb]. rewrite Einit. cbn [mbind option_bind negb]. by rewrite set_line_twice.
Qed.

Lemma fresh_fields ln m P g qe n :
  let l := fresh_line ln m P g qe n in
  ln_state l = ln_state ln ∧ gc_group l = gc_group ln ∧ ln_link l = ln_link ln ∧ ln_meta l = Some m ∧
  meta_line l = m ∧ ref l = ref ln ∧ blk_bitmap l = blk_bitmap ln ∧ blk_in_line l = blk_in_line ln ∧ pstream l = pstream ln.
Proof using. unfold fresh_line, set_up_line, erased, own_meta. cbn. done. Qed.

Lemma fresh_writing x st ln m g qe :
  length (blk_bitmap ln) = L → smeta_page L (blk_bitmap ln) g → (qe ≤ pages - e)%nat → ln_link ln = None →
  let P := <[g := true]> (bad_pages L R (blk_bitmap ln)) in
  let n := Z.of_nat p * zeros (take qe P) in
  0 < n ≤ sec_per_line lm → zeros (drop qe P) = Z.of_nat e →
  rd (meta_bitmap st) m = Some true → rd (emeta_mem st) m = Some 0 → rd (emeta_sync st) m = Some 0 →
  writing lm p L R x st (fresh_line ln m P g qe n) P (S g) qe
    (expand p (take qe P ++ replicate (pages - qe) true)) m 0 0.
Proof using Hlm.
  intros Hb Hg Hqe Hl P n Hn Hz M1 M2 M3. pose proof Hlm as [].
  assert (HP : length P = pages) by (unfold P; rewrite length_insert; apply bad_pages_length).
  pose proof (set_up_counted (erased (own_meta ln m) 0 (replicate L true) 0) P g qe HP Hqe ltac:(apply Hn)) as Hct.
  cbn zeta in Hct. fold n in Hct.
  pose proof (set_up_fields (erased (own_meta ln m) 0 (replicate L true) 0) P g qe n)
    as ((F1 & F2 & F3 & F4 & F5 & F6 & F7) & _).
  pose proof (fresh_fields ln m P g qe n) as (G1 & G2 & G3 & G4 & G5 & G6 & G7 & G8 & G9).
  unfold fresh_line in *. set (l := set_up_line p L R _ P g qe n) in *. clearbody l.
  split; try done.
  - split; try done; [|lia].
    intros k Hk. destruct Hg as (Hg1 & Hg2 & Hg3). unfold P. destruct (decide (k = g)) as [->|].
    + apply list_lookup_insert_eq. rewrite bad_pages_length. unfold PblkLineInv.pages. nia.
    + rewrite list_lookup_insert_ne by done. rewrite (bad_pages_lookup lm p L R e Hlm) by (done || lia). apply Hg3. lia.
  - rewrite Hz, lm_emeta_len, lm_emeta. lia.
  - split; [|lia]. rewrite lm_emeta. nia.
  - exists 0%nat. lia.
  - rewrite F4, (proj2 (Z.eqb_neq n 0)) by lia. simpl. by rewrite G3.
Qed.

(** The streams after the current line of a stream was replaced. *)
Lemma streams_line x st st' nrb new ln ln' :
  streams x st → 0 ≤ nrb → stale_at x nrb = true →
  rd (data_next st) nrb = Some (Some new) → (∀ n, n ≠ nrb → ¬ next_of st n new) →
  rd (lines st) new = Some ln → ln_meta ln = None →
  lines st' = <[Z.to_nat new := ln']> (lines st) →
  data_line st' = <[Z.to_nat nrb := Some new]> (data_line st) → data_next st' = data_next st →
  rb_rl st' = rb_rl st → map_type st' = map_type st → nr_erase st' = nr_erase st → invalid_line st' = invalid_line st →
  ln_state ln' = PBLK_LINESTATE_OPEN → is_Some (ln_meta ln') → 0 < left_msecs ln' → streams x st'.
Proof using.
  intros Hs Hn Hst Hnx Huniq Hi Hme El D1 D2 E1 E2 E3 E4 S1 S2 S3. pose proof Hs as [].
  assert (Hno : ∀ n j, next_of st' n j → n = nrb ∧ j = new ∨ n ≠ nrb ∧ next_of st n j).
  { unfold next_of. rewrite D1, D2. intros n j [[c Hr] H]. apply rd_insert_other in Hr as [[-> _]|[Hne Hr]]; [|by eauto|done].
    left. split; [done|congruence]. }
  assert (Hrd : ∀ j, rd (lines st') j = if decide (new = j) then Some ln' else rd (lines st) j)
    by (intros j; rewrite El; apply (rd_set_line st new j ln ln' Hi)).
  assert (Hnew : ∀ n, rd (data_line st) n ≠ Some (Some new)).
  { intros n Hx. destruct (sm_line n new Hx) as (l & ? & ? & [? ?] & _). congruence. }
  split; rewrite ?D1, ?D2, ?E1, ?E2, ?E3, ?E4, ?length_insert; try done.
  - intros n j H. apply rd_insert_other in H as [[-> [= ->]]|[Hne H]]; [..|done].
    + exists ln'. rewrite Hrd, decide_True by done. auto.
    + rewrite Hrd, decide_False by (intros <-; by apply (Hnew n)). by apply (sm_line n).
  - intros n j Hsn H. apply Hno in H as [[-> ->]|[Hne H]]; [congruence|].
    rewrite Hrd, decide_False; [by apply (sm_next n)|]. intros <-. by apply (Huniq n).
  - intros n1 n2 j H1 H2.
    apply rd_insert_other in H1 as [[-> [= ->]]|[N1 H1]]; [..|done];
      (apply rd_insert_other in H2 as [[-> F]|[N2 H2]]; [..|done]); try done.
    + by destruct (Hnew n2).
    + injection F as ->. by destruct (Hnew n1).
    + by apply (sm_line_inj n1 n2 j).
  - intros n1 n2 j H1 H2. apply Hno in H1 as [[-> ->]|[N1 H1]]; apply Hno in H2 as [[-> F]|[N2 H2]]; try done.
    + by destruct (Huniq n2).
    + subst j. by destruct (Huniq n1).
    + by apply (sm_next_inj n1 n2 j).
Qed.

Lemma setup_inv x st nrb new ln m g qe :
  INV x st → stale_at x nrb = true → 0 ≤ nrb → rd (data_next st) nrb = Some (Some new) →
  (∀ n, n ≠ nrb → ¬ next_of st n new) →
  rd (lines st) new = Some ln → ln_state ln = PBLK_LINESTATE_OPEN → prepared p L R ln → full_at x new = false →
  rd (meta_bitmap st) m = Some false → smeta_page L (blk_bitmap ln) g → (qe ≤ pages - e)%nat →
  let P := <[g := true]> (bad_pages L R (blk_bitmap ln)) in
  let n := Z.of_nat p * zeros (take qe P) in
  0 < n ≤ sec_per_line lm → zeros (drop qe P) = Z.of_nat e →
  INV x (set_line (with_meta (st <| data_line := <[Z.to_nat nrb := Some new]> (data_line st) |>) m) new
           (fresh_line ln m P g qe n)).
Proof using Hlm.
  intros Hinv Hst Hn Hnx Hun Hi Ho Hpr Hfx Hbit Hg Hqe P n Hnn Hz. set (st' := set_line _ new _).
  pose proof (in_line _ _ _ _ _ _ Hinv new ln Hi) as Hok. pose proof Hok as [_ Hr Hb]. pose proof Hpr as [].
  pose proof (in_metas _ _ _ _ _ _ Hinv) as [_ (Hl1 & Hl2 & Hl3)]. pose proof (rd_lt _ _ _ Hbit) as Hml.
  destruct (rd_is_Some (emeta_mem st) m) as [v1 Hv1]; [lia|]. destruct (rd_is_Some (emeta_sync st) m) as [v2 Hv2]; [lia|].
  pose proof (fresh_fields ln m P g qe n) as (G1 & G2 & G3 & G4 & G5 & G6 & G7 & G8 & G9).
  assert (Hfree : ∀ j lj k, rd (lines st) j = Some lj → ln_meta lj = Some k → k ≠ m).
  { intros j lj k Hj Hk ->. pose proof (in_line _ _ _ _ _ _ Hinv j lj Hj) as Hoj. destruct Hoj as [Hs _ _].
    unfold shape in Hs. destruct (ln_state lj); try (destruct_and? Hs; congruence).
    destruct Hs as (_ & [[]|(P' & c & qe' & b & k & mem & sync & [])]); [congruence|]. destruct wr_meta. congruence. }
  assert (Hw : writing lm p L R (full_at x new) st' (fresh_line ln m P g qe n) P (S g) qe
                 (expand p (take qe P ++ replicate (pages - qe) true)) m 0 0).
  { apply fresh_writing; try done; [apply Hb|..]; by eapply rd_insert_eq. }
  pose proof (op_left _ _ _ _ _ _ _ (wr_open _ _ _ _ _ _ _ _ _ _ _ _ _ _ Hw)) as Hleft.
  set (nl := fresh_line ln m P g qe n) in *. clearbody nl.
  assert (Hok' : OK x st' new nl).
  { eapply ok_writing; [by rewrite G1|rewrite G2; by apply (open_group x st new)|done| |].
    - apply (refs_same st st' new ln nl); try done. by rewrite G1.
    - by apply (blocks_same st st' ln nl). }
  eapply (inv_one lm p L R x x st st' new ln nl); try done.
  - split; try done. intros j lj k Hj Hlj Hk. pose proof (Hfree j lj k Hlj Hk).
    simpl. rewrite !rd_insert_ne by (done || lia). done.
  - apply (links_same (set_line st new nl)); [done|done|]. apply (links_set_line st new ln); [apply Hinv|done|done].
  - eapply (counters_open x st st' new ln nl); try done; [by rewrite G1|by eapply open_queued|].
    eapply open_queued; [exact Hok'|]. by rewrite G1.
  - eapply (streams_line x st st' nrb new ln nl); try done; [apply Hinv|by rewrite G1|lia].
  - apply (metas_step st st' new ln nl); try done; [apply Hinv| |simpl; by rewrite length_insert..].
    right. right. exists m. split; [done|]. intros j lj _ Hlj Hk. by apply (Hfree j lj m).
Qed.

Lemma prepared_line x st i ln :
  OK x st i ln → ln_state ln = PBLK_LINESTATE_OPEN → ln_meta ln = None → prepared p L R ln.
Proof using.
  intros [Hs _ _] Ho Hm. unfold shape in Hs. rewrite Ho in Hs.
  destruct Hs as (_ & [?|(P & c & qe & b & k & mem & sync & [])]); [done|]. destruct wr_meta. congruence.
Qed.

Lemma to_erase x st i ln :
  OK x st i ln → ln_state ln = PBLK_LINESTATE_OPEN → prepared p L R ln → nz (left_seblks ln) && nz (left_eblks ln) = true.
Proof using Hlm.
  intros [_ _ (Hb1 & Hmin & _)] Ho []. pose proof Hlm as []. destruct (Hmin ltac:(by rewrite Ho)) as [Hb2 Hmin'].
  assert (Hz : 0 < zeros (blk_bitmap ln)) by nia.
  rewrite pr_eblks, pr_seblks, Hb2. unfold nz. by rewrite (proj2 (Z.eqb_neq _ _)) by lia.
Qed.

(** The stream goes on with its next line; the full line [i] is left for its metadata. *)
Lemma replace_inv env st nrb i li new ln :
  let x := Some (i, nrb) in
  INV x st → alive None st → env_ok env → pblk_state st = PBLK_STATE_RUNNING →
  rd (data_line st) nrb = Some (Some i) → rd (lines st) i = Some li → is_Some (ln_meta li) →
  ln_state li = PBLK_LINESTATE_OPEN →
  rd (data_next st) nrb = Some (Some new) → rd (lines st) new = Some ln → ln_state ln = PBLK_LINESTATE_OPEN →
  ln_meta ln = None → 0 < zeros (meta_bitmap st) →
  ∃ st', pblk_line_replace_data lm env st nrb = Some st' ∧ INV x st' ∧ alive None st' ∧ next_ok st' nrb ∧
    rd (lines st') i = Some li ∧ data_line st' = <[Z.to_nat nrb := Some new]> (data_line st) ∧ i ≠ new.
Proof using Hlm.
  intros x Hinv Hal Henv Hrun Hd Hi Hmi Hoi Hnx Hn Hon Hmn Hz.
  pose proof (in_line _ _ _ _ _ _ Hinv new ln Hn) as Hok. pose proof (prepared_line x st new ln Hok Hon Hmn) as Hpr.
  assert (Hne : i ≠ new) by (intros ->; destruct Hmi; congruence).
  pose proof (in_metas _ _ _ _ _ _ Hinv) as [_ (Hl1 & Hl2 & Hl3)]. destruct (find_meta st Hl1 Hz) as (m & Em & Hm & Hbit).
  pose proof (rd_lt _ _ _ Hd) as Hnrb.
  set (st0 := st <| data_line := <[Z.to_nat nrb := Some new]> (data_line st) |>).
  set (s0 := with_meta st0 m). assert (Hn0 : rd (lines s0) new = Some ln) by done.
  destruct (retry_setup_spec env s0 new ln ln nrb (Some i) m) as (g & qe & Hg & Hqe & Hnn & Hze & Es3); try done.
  { apply Hok. }
  { intros c [= <-]. split; [done|]. by exists li. }
  set (P := <[g := true]> _) in *. set (s3 := set_line s0 new (fresh_line ln m P g qe _)) in *.
  assert (Hinv3 : INV x s3).
  { apply (setup_inv x st nrb new ln m g qe); try done; [by apply bool_decide_true|lia| |].
    { intros n Hn' Hno. destruct Hn'. apply (sm_next_inj _ _ (in_streams _ _ _ _ _ _ Hinv) n nrb new); [done|]. split; [by exists i|done]. }
    by apply bool_decide_false. }
  assert (Hd3 : data_line s3 = <[Z.to_nat nrb := Some new]> (data_line st)) by done.
  assert (Hl3' : ∃ nl, lines s3 = <[Z.to_nat new := nl]> (lines st) ∧ ln_state nl = PBLK_LINESTATE_OPEN).
  { eexists. split; [done|]. rewrite (proj1 (fresh_fields ln m _ g qe _)). done. }
  destruct Hl3' as (nl & El3 & Hnl).
  assert (Hal3 : alive None s3) by (eapply (alive_touch None st s3 new ln nl); try done; by rewrite Hnl).
  destruct (prepare_next_inv x env s3 nrb) as (st' & Ep & Hinv' & Hnok & Hkeep & Hdl & Hal'); try done.
  { rewrite Hd3, length_insert. lia. }
  { intros n Hsn. apply bool_decide_eq_true in Hsn. done. }
  exists st'. split.
  - unfold pblk_line_replace_data. rewrite Hd. cbn [mbind option_bind]. rewrite Hnx. cbn [mbind option_bind].
    rewrite wr_in_range by lia. cbn [mbind option_bind]. fold st0. change (pblk_state st0) with (pblk_state st).
    rewrite bool_decide_true by done. cbn [negb].
    rewrite (setup_metadata_spec st0 new ln m) by done. cbn [mbind option_bind]. fold s0.
    rewrite (rd_set_line_eq s0 new ln) by done. cbn [mbind option_bind].
    change (left_seblks (own_meta ln m)) with (left_seblks ln). change (left_eblks (own_meta ln m)) with (left_eblks ln).
    rewrite (to_erase x st new ln Hok Hon Hpr).
    rewrite (erase_line_spec env s0 new ln ln Henv Hn0 Hpr ltac:(apply Hok) Hon m).
    cbn [mbind option_bind]. rewrite (rd_set_line_eq s0 new ln) by done. cbn [mbind option_bind nz negb ensure left_seblks erased].
    unfold setup_fuel. rewrite Es3. cbn [mbind option_bind]. done.
  - do 3 (split; [done|]). split; [|split; [|done]].
    + apply Hkeep; [|by rewrite Hoi]. rewrite El3. change (rd (lines (set_line st new nl)) i = Some li).
      rewrite rd_set_line_ne by (try done; apply rd_lt in Hn; lia). done.
    + by rewrite Hdl.
Qed.

(** *** A page of data *)

(** What mapping the sectors of a page leaves: only line [i] changes, and it stays open. *)
Record mapped (st st' : pblk) (i : Z) (ln : pblk_line) : Prop := {
  mp_line : ∃ ln', lines st' = <[Z.to_nat i := ln']> (lines st) ∧ ln_state ln' = PBLK_LINESTATE_OPEN ∧
    ln_meta ln' = ln_meta ln ∧ left_msecs ln' = left_msecs ln;
  mp_rest : data_line st' = data_line st ∧ data_next st' = data_next st ∧ pblk_state st' = pblk_state st ∧
    meta_bitmap st' = meta_bitmap st ∧ rb_rl st' = rb_rl st
}.

Lemma mapped_trans st1 st2 st3 i l1 l2 :
  mapped st1 st2 i l1 → rd (lines st1) i = Some l1 → rd (lines st2) i = Some l2 → mapped st2 st3 i l2 → mapped st1 st3 i l1.
Proof using.
  intros [(l & E1 & F1 & F2 & F3) (R1 & R2 & R3 & R4 & R5)] Hi1 Hi2 [(l' & E2 & G1 & G2 & G3) (S1 & S2 & S3 & S4 & S5)].
  assert (l = l2) as -> by (pose proof (rd_lines_eq st2 (lines st1) i l l1 E1 Hi1); congruence).
  split; [|split_and!; congruence]. exists l'. rewrite E2, E1, list_insert_insert_eq. split_and!; congruence.
Qed.

Lemma map_valid_inv x st i ln :
  INV x st → rd (lines st) i = Some ln → ln_state ln = PBLK_LINESTATE_OPEN →
  ∃ s1 s2, kref_get st i = Some s1 ∧
    upd_line s1 i (λ ln, ln <| nr_valid_lbas := u32 (nr_valid_lbas ln + 1) |>) = Some s2 ∧
    let st' := s2 <| wb := wb s2 ++ [i] |> in INV x st' ∧ mapped st st' i ln.
Proof using.
  intros Hinv Hi Ho. unfold kref_get. rewrite (upd_line_eq st i ln) by done.
  eexists _, _. split; [done|]. rewrite (upd_set_line st i ln) by done. split; [done|]. cbn zeta.
  pose proof (in_line _ _ _ _ _ _ Hinv i ln Hi) as [_ Hr _]. unfold refs in Hr. rewrite Ho in Hr.
  pose proof (in_counters _ _ _ _ _ _ Hinv) as [].
  split.
  - eapply (inv_refs lm p L R x st _ i ln (ln <| ref := ref ln + 1 |> <| nr_valid_lbas := u32 (nr_valid_lbas ln + 1) |>)); try done.
    + by eexists _, _.
    + split; try done. intros j Hj. simpl. rewrite count_app, count_cons, count_nil, decide_False by congruence. lia.
    + unfold refs. simpl. rewrite Ho, count_app, count_cons, count_nil, decide_True by done. lia.
  - split; [|done]. eexists. split; [done|]. done.
Qed.

Lemma inv_double x st : INV x st → INV x (st <| double_invalidates ::= S |>).
Proof using.
  intros []. split; try done.
  - intros i ln Hi. destruct (in_line i ln Hi) as [Hsh Hr Hb]. split; [|done|done]. by eapply shape_frame.
  - by apply (links_same st).
  - by destruct in_counters.
  - by destruct in_streams.
  - by destruct in_metas.
Qed.

Lemma map_pad_inv x st i ln paddr :
  INV x st → rd (lines st) i = Some ln → ln_state ln = PBLK_LINESTATE_OPEN → is_Some (ln_meta ln) →
  0 ≤ paddr < sec_per_line lm →
  ∃ st', __pblk_map_invalidate lm st i paddr = Some st' ∧ INV x st' ∧ mapped st st' i ln.
Proof using Hlm.
  intros Hinv Hi Ho Hme Hp. pose proof (in_line _ _ _ _ _ _ Hinv i ln Hi) as Hok.
  destruct (counted_open lm p L R x st i ln Hok Ho Hme) as (P & c & qe & b & mk & mem & sync & Hw).
  pose proof (wr_counted _ _ _ _ _ _ _ _ _ _ _ _ _ _ Hw) as [].
  destruct (lookup_lt_is_Some_2 b (Z.to_nat paddr)) as [v Hv]; [lia|].
  replace paddr with (Z.of_nat (Z.to_nat paddr)) by lia. destruct v.
  - exists (st <| double_invalidates ::= S |>). split; [|split].
    + unfold __pblk_map_invalidate. rewrite Hi. cbn [mbind option_bind]. unfold gone. rewrite Ho.
      simpl bool_decide. cbn [orb]. rewrite ct_inv. cbn [mbind option_bind].
      rewrite (test_and_set_spec b _ true) by done. done.
    + by apply inv_double.
    + split; [|done]. exists ln. split; [|done]. apply rd_Some in Hi as [_ Hi]. simpl. by rewrite list_insert_id.
  - destruct (invalidate_open lm p L R e Hlm x st i ln b (Z.to_nat paddr) Hinv Hi Ho Hme ct_inv Hv) as [E1 E2].
    eexists. split; [done|]. split; [done|]. split; [|done]. eexists. split; [done|]. done.
Qed.

Lemma map_page_secs_inv x n st i ln paddr j v :
  INV x st → rd (lines st) i = Some ln → ln_state ln = PBLK_LINESTATE_OPEN → is_Some (ln_meta ln) →
  0 ≤ paddr → paddr + Z.of_nat n ≤ sec_per_line lm →
  ∃ st', map_page_secs lm n st i paddr j v = Some st' ∧ INV x st' ∧ mapped st st' i ln.
Proof using Hlm.
  revert st ln paddr j. induction n as [|n IH]; intros st ln paddr j Hinv Hi Ho Hme Hp1 Hp2; cbn [map_page_secs].
  { exists st. split; [done|]. split; [done|]. split; [|done]. exists ln. split; [|done].
    apply rd_Some in Hi as [_ Hi]. by rewrite list_insert_id. }
  assert (Hstep : ∃ s1, (if j <? v then s ← kref_get st i;
       s ← upd_line s i (λ ln, ln <| nr_valid_lbas := u32 (nr_valid_lbas ln + 1) |>); Some (s <| wb := wb s ++ [i] |>)
     else __pblk_map_invalidate lm st i paddr) = Some s1 ∧ INV x s1 ∧ mapped st s1 i ln).
  { destruct (j <? v).
    - destruct (map_valid_inv x st i ln Hinv Hi Ho) as (s1 & s2 & E1 & E2 & E3 & E4).
      rewrite E1. cbn [mbind option_bind]. rewrite E2. cbn [mbind option_bind]. by eexists.
    - apply map_pad_inv; try done. lia. }
  destruct Hstep as (s1 & E1 & Hinv1 & Hm1). rewrite E1. cbn [mbind option_bind].
  pose proof Hm1 as [(l1 & El & Ho1 & Hme1 & _) _].
  assert (Hi1 : rd (lines s1) i = Some l1) by (by eapply rd_lines_eq).
  destruct (IH s1 l1 (paddr + 1) (j + 1) Hinv1 Hi1 Ho1) as (st' & E2 & Hinv2 & Hm2); [by rewrite Hme1|lia|lia|].
  exists st'. split; [done|]. split; [done|]. by eapply (mapped_trans st s1 st' i ln l1).
Qed.

Lemma alloc_inv st nrb i ln :
  INV None st → rd (data_line st) nrb = Some (Some i) → rd (lines st) i = Some ln →
  ∃ st' ln' paddr, let x := if left_msecs ln' =? 0 then Some (i, nrb) else None in
    pblk_alloc_page lm st i (min_write_pgs lm) = Some (st', paddr) ∧ INV x st' ∧ st' = set_line st i ln' ∧
    ln_state ln' = PBLK_LINESTATE_OPEN ∧ is_Some (ln_meta ln') ∧ left_msecs ln' = left_msecs ln - Z.of_nat p ∧
    0 ≤ paddr ∧ paddr + Z.of_nat p ≤ sec_per_line lm.
Proof using Hlm.
  intros Hinv Hd Hi. pose proof Hlm as [].
  destruct (sm_line _ _ (in_streams _ _ _ _ _ _ Hinv) nrb i Hd) as (lx & Hi' & Ho & Hme & [Hleft|?]); [|done].
  assert (lx = ln) as -> by congruence. pose proof (in_line _ _ _ _ _ _ Hinv i ln Hi) as Hok. pose proof Hok as [_ Hr Hb].
  destruct (counted_open lm p L R None st i ln Hok Ho Hme) as (P & c & qe & b & k & mem & sync & Hw). pose proof Hw as [].
  assert (Hz : 0 < zeros (take qe P)) by (destruct wr_open; nia).
  destruct (first_free_exists P c) as (q & Hq & _); [apply wr_open|pose proof (zeros_take_drop qe P); pose proof (zeros_bounds (drop qe P)); lia|].
  pose proof (data_page_early P q qe Hq Hz) as Hqe.
  destruct (alloc_data_page_spec lm p L R e Hlm st i ln P c qe q Hi wr_open Hq Hqe) as [E Hop'].
  set (ln' := take_page p ln P q <| left_msecs := left_msecs ln - Z.of_nat p |>) in *.
  assert (Hlink : ln_link ln = None) by (rewrite (proj2 (Z.eqb_neq (left_msecs ln) 0)) in wr_link by lia; done).
  exists (set_line st i ln'), ln', (Z.of_nat (p * q)). cbn zeta. split; [done|].
  assert (Hl' : left_msecs ln' = left_msecs ln - Z.of_nat p) by done.
  split; [|do 2 (split; [done|]); split; [done|]; split; [done|]; split; [lia|];
    rewrite lm_sec_per_line; fold pages; pose proof (op_len _ _ _ _ _ _ _ wr_open);
    destruct Hq as [Hq _]; apply lookup_lt_Some in Hq; nia].
  set (x := if left_msecs ln' =? 0 then Some (i, nrb) else None).
  assert (Hfull : full_at x i = (left_msecs ln' =? 0)).
  { unfold x. destruct (left_msecs ln' =? 0); [|done]. by apply bool_decide_true. }
  apply (inv_touch lm p L R None x st i ln ln' (lists st)); try done.
  - apply (links_set_line st i ln); [apply Hinv|done|done].
  - eapply ok_writing; [done|by apply (open_group None st i ln)| |by apply (refs_same st _ i ln)|by apply (blocks_same st _ ln)].
    instantiate (7 := <[q := true]> P). instantiate (6 := S q). instantiate (5 := qe). instantiate (4 := b).
    instantiate (3 := k). instantiate (2 := mem). instantiate (1 := sync).
    split; try done.
    + by apply (counted_same ln).
    + intros _. by apply wr_data; left.
    + by rewrite drop_insert_lt.
    + rewrite Hfull. destruct (left_msecs ln' =? 0); [rewrite andb_false_r|]; done.
  - intros j Hj. unfold x. destruct (left_msecs ln' =? 0); [|done]. by apply bool_decide_false.
  - intros _. rewrite Hfull. destruct (Z.eqb_spec (left_msecs ln') 0); [by right|left].
    pose proof (op_left _ _ _ _ _ _ _ Hop') as Hl2. pose proof (zeros_bounds (take qe (<[q := true]> P))). nia.
Qed.

(** *** The metadata of a full line *)

Lemma queue_meta_inv st i ln nrb :
  INV (Some (i, nrb)) st → alive None st → rd (lines st) i = Some ln → ln_state ln = PBLK_LINESTATE_OPEN →
  is_Some (ln_meta ln) → left_msecs ln = 0 →
  next_ok st nrb → (∀ n, rd (data_line st) n ≠ Some (Some i)) →
  ∃ st', list_add_tail st i (emeta_list nrb) = Some st' ∧ INV None st' ∧ alive None st' ∧
    lines st' = <[Z.to_nat i := ln <| ln_link := Some (emeta_list nrb) |>]> (lines st) ∧ rb_rl st' = rb_rl st.
Proof using Hlm.
  intros Hinv Hal Hi Ho Hme Hleft Hnext Hno.
  pose proof (in_line _ _ _ _ _ _ Hinv i ln Hi) as Hok. pose proof Hok as [_ Hr Hb].
  destruct (counted_open lm p L R _ st i ln Hok Ho Hme) as (P & c & qe & b & k & mem & sync & Hw). pose proof Hw as [].
  assert (Hx : full_at (Some (i, nrb)) i = true) by (by apply bool_decide_true).
  assert (Hl : ln_link ln = None) by (by rewrite Hx, andb_false_r in wr_link).
  assert (mem = 0) as -> by (apply wr_data; by right).
  destruct (list_add_spec st i ln (emeta_list nrb)) as (ls & E & Hk); [apply Hinv|done|done|].
  set (l' := ln <| ln_link := Some (emeta_list nrb) |>) in *.
  set (st' := set_line st i l' <| lists := ls |>) in *. exists st'. split; [done|].
  pose proof (in_streams _ _ _ _ _ _ Hinv) as Hs.
  assert (Hw' : writing lm p L R (full_at None i) st' l' P c qe b k 0 sync).
  { split; try done.
    - by destruct wr_open.
    - by apply (counted_same ln).
    - change (left_msecs l') with (left_msecs ln). rewrite Hleft, (proj2 (Z.ltb_lt _ _)).
      + simpl. by exists nrb.
      + pose proof Hlm as []. rewrite lm_emeta_len, lm_emeta. nia. }
  split; [|split; [|done]].
  - eapply (inv_one lm p L R (Some (i, nrb)) None st st' i ln l'); try done.
    + intros j Hj. symmetry. by apply bool_decide_false.
    + eapply ok_writing; [done|by apply (open_group (Some (i, nrb)) st i ln)|exact Hw'|by apply (refs_same st _ i ln)|by apply (blocks_same st _ ln)].
    + eapply (counters_open (Some (i, nrb)) st st' i ln l'); try done; by eapply open_queued.
    + destruct Hs. split; try done.
      * intros n j Hj. destruct (sm_line n j Hj) as (lj & Hj1 & Hj2 & Hj3 & Hj4).
        assert (Hij : i ≠ j) by (intros <-; by apply (Hno n)).
        exists lj. split; [by eapply (eq_trans (rd_set_line_ne st i j l' Hij ltac:(apply rd_lt in Hi; lia)))|].
        do 2 (split; [done|]). destruct Hj4 as [?|Hf]; [by left|]. apply bool_decide_eq_true in Hf. done.
      * intros n j _ Hj.
        assert (Hnx : ∃ lj, rd (lines st) j = Some lj ∧ ln_state lj = PBLK_LINESTATE_OPEN ∧ ln_meta lj = None).
        { destruct (decide (n = nrb)) as [->|Hne]; [by apply Hnext, Hj|]. apply (sm_next n j); [|done].
          by apply bool_decide_false. }
        destruct Hnx as (lj & Hj1 & Hj2 & Hj3). exists lj. split; [|done].
        assert (Hij : i ≠ j) by (intros <-; destruct Hme; congruence).
        by eapply (eq_trans (rd_set_line_ne st i j l' Hij ltac:(apply rd_lt in Hi; lia))).
    + apply (metas_step st st' i ln l'); try done; [apply Hinv|by left].
  - eapply (alive_touch None st st' i ln l'); try done. simpl. by rewrite Ho.
Qed.

(** Only line [i] changes. *)
Definition only (st st' : pblk) (i : Z) : Prop :=
  ∀ j, j ≠ i → rd (lines st') j = rd (lines st) j.

Lemma only_insert st st' i ln' : 0 ≤ i → lines st' = <[Z.to_nat i := ln']> (lines st) → only st st' i.
Proof using. intros Hi El j Hj. rewrite El. by apply rd_insert_ne. Qed.

Lemma meta_sync_line_inv fuel st i ln nrb nrb' P c qe b k mem sync :
  INV None st → alive None st → rd (lines st) i = Some ln → ln_state ln = PBLK_LINESTATE_OPEN →
  writing lm p L R false st ln P c qe b k mem sync →
  ln_link ln = (if emeta_len lm <=? mem then None else Some (emeta_list nrb')) →
  zeros (drop qe P) < Z.of_nat fuel →
  ∃ st' ln' P' c', meta_sync_line lm fuel st i nrb = Some st' ∧ INV None st' ∧ alive None st' ∧ only st st' i ∧
    rd (lines st') i = Some ln' ∧ ln_state ln' = PBLK_LINESTATE_OPEN ∧
    writing lm p L R false st' ln' P' c' qe b k (emeta_len lm) sync.
Proof using Hlm.
  revert st ln P c mem. induction fuel as [|fuel IH]; intros st ln P c mem Hinv Hal Hi Ho Hw Hl Hf.
  { pose proof (zeros_bounds (drop qe P)). lia. }
  cbn [meta_sync_line]. rewrite Hi. cbn [mbind option_bind]. pose proof Hw as []. destruct wr_meta as [Hme _].
  rewrite Hme. cbn [mbind option_bind]. rewrite wr_mem_k. cbn [mbind option_bind].
  rewrite Z.leb_antisym in Hl. destruct (Z.ltb_spec mem (emeta_len lm)) as [Hlt|Hge]; simpl in Hl.
  - destruct (submit_meta_inv None st i ln nrb nrb' P c qe b k mem sync Hinv Hi Ho Hl Hw)
      as (s1 & l1 & P1 & c1 & E1 & Hinv1 & El & Ho1 & Hw1 & Hl1).
    rewrite E1. cbn [mbind option_bind]. assert (Hi1 : rd (lines s1) i = Some l1) by (by eapply rd_lines_eq).
    assert (Hal1 : alive None s1) by (eapply (alive_touch None st s1 i ln l1); try done; by rewrite Ho1).
    pose proof (lm_sec_size _ _ _ _ _ Hlm). pose proof (lm_p _ _ _ _ _ Hlm).
    pose proof (PblkLineRun.wr_mem _ _ _ _ _ _ _ _ _ _ _ _ _ _ Hw1) as Hm1.
    destruct (IH s1 l1 P1 c1 _ Hinv1 Hal1 Hi1 Ho1 Hw1 Hl1) as (st' & l' & P' & c' & E2 & H1 & H2 & H3 & H4).
    { assert (Z.of_nat p * sec_size lm * (zeros (drop qe P1) + 1) = Z.of_nat p * sec_size lm * zeros (drop qe P)) by nia.
      assert (0 < Z.of_nat p * sec_size lm) by nia. nia. }
    exists st', l', P', c'. do 3 (split; [done|]). split; [|done]. intros j Hj. rewrite H3 by done.
    apply (only_insert st s1 i l1); [apply rd_lt in Hi; lia|done|done].
  - assert (mem = emeta_len lm) as ->.
    { pose proof (zeros_bounds (drop qe P)). pose proof (lm_sec_size _ _ _ _ _ Hlm). nia. }
    exists st, ln, P, c. do 3 (split; [done|]). done.
Qed.

Lemma meta_complete_inv fuel st i ln P c qe b k (s : nat) :
  INV None st → alive None st → rd (lines st) i = Some ln → ln_state ln = PBLK_LINESTATE_OPEN →
  writing lm p L R false st ln P c qe b k (emeta_len lm) (Z.of_nat (p * s)) →
  (e - s ≤ fuel)%nat →
  ∃ st', meta_complete lm fuel st i = Some st' ∧ INV None st' ∧ alive None st' ∧ only st st' i.
Proof using Hlm.
  revert st s. induction fuel as [|fuel IH]; intros st s Hinv Hal Hi Ho Hw Hf.
  { pose proof Hlm as []. pose proof Hw as []. rewrite lm_emeta in wr_sync. nia. }
  cbn [meta_complete]. pose proof Hlm as [].
  assert (Hlt : Z.of_nat (p * s) * sec_size lm < emeta_len lm).
  { pose proof Hw as []. rewrite lm_emeta_len, lm_emeta in *. nia. }
  destruct (end_meta_inv None st i ln P c qe b k (emeta_len lm) (Z.of_nat (p * s)) Hinv Hi Ho eq_refl Hw Hlt)
    as (s1 & l1 & E1 & Hinv1 & El & Hcase).
  rewrite E1. cbn [mbind option_bind]. assert (Hi1 : rd (lines s1) i = Some l1) by (by eapply rd_lines_eq).
  rewrite Hi1. cbn [mbind option_bind].
  assert (Honly : only st s1 i) by (apply (only_insert st s1 i l1); [apply rd_lt in Hi; lia|done]).
  destruct (_ =? emeta_sec lm) eqn:T.
  - subst l1. rewrite bool_decide_true by done. exists s1. do 2 (split; [done|]). split; [|done].
    eapply (alive_touch None st s1 i ln (shut ln)); try done.
  - destruct Hcase as [-> Hw1]. rewrite bool_decide_false.
    2:{ pose proof Hw as []. destruct wr_meta as [Hme _]. by rewrite Hme. }
    replace (Z.of_nat (p * s) + Z.of_nat p) with (Z.of_nat (p * S s)) in Hw1 by lia.
    assert (Hal1 : alive None s1) by (eapply (alive_touch None st s1 i ln ln); try done; by rewrite Ho).
    destruct (IH s1 (S s) Hinv1 Hal1 Hi1 Ho Hw1) as (st' & E2 & H1 & H2 & H3); [lia|].
    exists st'. do 3 (split; [done|]). intros j Hj. by rewrite H3, Honly.
Qed.

Lemma close_meta_lines_inv st ls nrb :
  INV None st → alive None st → NoDup ls →
  (∀ i, i ∈ ls → ∃ ln, rd (lines st) i = Some ln ∧ ln_link ln = Some (emeta_list nrb)) →
  ∃ st', close_meta_lines lm st ls nrb = Some st' ∧ INV None st' ∧ alive None st'.
Proof using Hlm.
  revert st. induction ls as [|i ls IH]; intros st Hinv Hal Hnd Hls; cbn [close_meta_lines]; [by exists st|].
  apply NoDup_cons in Hnd as [Hni Hnd]. destruct (Hls i) as (ln & Hi & Hl); [left|].
  pose proof (in_line _ _ _ _ _ _ Hinv i ln Hi) as Hok.
  destruct (emeta_open None st i ln nrb Hok Hl) as (Ho & P & c & qe & b & k & mem & sync & Hw).
  destruct (emeta_line _ _ _ _ _ _ _ _ _ _ _ Hw Hl) as (_ & Hmem & _ & _ & Hz).
  pose proof Hlm as []. pose proof (PblkLineRun.wr_mem _ _ _ _ _ _ _ _ _ _ _ _ _ _ Hw) as Hm.
  pose proof (wr_sync _ _ _ _ _ _ _ _ _ _ _ _ _ _ Hw) as [Hs1 Hs2]. rewrite lm_emeta_len, lm_emeta in Hm.
  destruct (meta_sync_line_inv (S (Z.to_nat (emeta_sec lm))) st i ln nrb nrb P c qe b k mem sync)
    as (s1 & l1 & P1 & c1 & E1 & Hinv1 & Hal1 & On1 & Hi1 & Ho1 & Hw1); try done.
  { by rewrite (proj2 (Z.leb_gt _ _)) by lia. }
  { rewrite lm_emeta. assert (zeros (drop qe P) ≤ Z.of_nat e); [|nia].
    assert (0 ≤ mem) by nia. assert (0 < Z.of_nat p * sec_size lm) by nia. nia. }
  rewrite E1. cbn [mbind option_bind]. destruct (wr_sync_p _ _ _ _ _ _ _ _ _ _ _ _ _ _ Hw1) as [s ->].
  destruct (meta_complete_inv (Z.to_nat (emeta_sec lm)) s1 i l1 P1 c1 qe b k s) as (s2 & E2 & Hinv2 & Hal2 & On2); try done.
  { rewrite lm_emeta. nia. }
  rewrite E2. cbn [mbind option_bind]. apply IH; try done.
  intros j Hj. destruct (Hls j) as (lj & Hlj & Hll); [by right|]. exists lj. split; [|done].
  rewrite On2, On1 by (intros ->; done). done.
Qed.

Lemma close_meta_inv st i ln nrb :
  INV (Some (i, nrb)) st → alive None st → rd (lines st) i = Some ln → ln_state ln = PBLK_LINESTATE_OPEN →
  is_Some (ln_meta ln) → left_msecs ln = 0 → next_ok st nrb → (∀ n, rd (data_line st) n ≠ Some (Some i)) →
  is_Some (rd (rb_rl st) nrb) →
  ∃ st', pblk_line_close_meta lm st i nrb = Some st' ∧ INV None st' ∧ alive None st'.
Proof using Hlm.
  intros Hinv Hal Hi Ho Hme Hleft Hnext Hno [r Hr].
  destruct (queue_meta_inv st i ln nrb) as (s1 & E1 & Hinv1 & Hal1 & El & Er); try done.
  unfold pblk_line_close_meta. rewrite Hi. cbn [mbind option_bind]. destruct Hme as [k Hk]. rewrite Hk.
  cbn [mbind option_bind]. rewrite E1. cbn [mbind option_bind].
  unfold pblk_line_should_sync_meta. rewrite Er, Hr. cbn [mbind option_bind].
  destruct (pblk_rl_is_limit r); [|by exists s1].
  unfold pblk_line_close_meta_sync. pose proof (in_links _ _ _ _ _ _ Hinv1) as [Hk1 Hk2].
  apply close_meta_lines_inv; try done. intros j Hj. by apply Hk1.
Qed.

(** One page of a stream: its line, and when it fills the line, the switch to the next one.
    A switch needs a next line and a free buffer for its metadata. *)
Lemma map_page_inv env st nrb i ln v :
  INV None st → alive None st → env_ok env → rd (data_line st) nrb = Some (Some i) → rd (lines st) i = Some ln →
  (left_msecs ln = Z.of_nat p → pblk_state st = PBLK_STATE_RUNNING ∧ 0 < zeros (meta_bitmap st) ∧
     ∃ new, rd (data_next st) nrb = Some (Some new)) →
  ∃ st' paddr, pblk_map_page_line lm env st nrb v = Some (st', paddr) ∧ INV None st' ∧ alive None st'.
Proof using Hlm.
  intros Hinv Hal Henv Hd Hi Hsw. pose proof Hlm as [].
  destruct (alloc_inv st nrb i ln Hinv Hd Hi) as (s1 & l1 & pa & E1 & Hinv1 & Es & Ho1 & Hm1 & Hleft & Hpa1 & Hpa2).
  assert (Hi1 : rd (lines s1) i = Some l1) by (rewrite Es; by apply (rd_set_line_eq st i ln)).
  destruct (map_page_secs_inv _ p s1 i l1 pa 0 v Hinv1 Hi1 Ho1 Hm1 Hpa1 Hpa2) as (s2 & E2 & Hinv2 & Hmap).
  destruct (sm_line _ _ (in_streams _ _ _ _ _ _ Hinv) nrb i Hd) as (lx & Hi' & Ho & [k Hme] & _).
  assert (lx = ln) as -> by congruence.
  unfold pblk_map_page_line. rewrite Hd. cbn [mbind option_bind]. rewrite Hi. cbn [mbind option_bind]. rewrite Hme.
  cbn [mbind option_bind]. rewrite E1. cbn [mbind option_bind].
  replace (Z.to_nat (min_write_pgs lm)) with p by lia. rewrite E2. cbn [mbind option_bind].
  destruct Hmap as [(l2 & El & Ho2 & Hm2 & Hl2) (R1 & R2 & R3 & R4 & R5)].
  pose proof (rd_lines_eq s2 (lines s1) i l2 l1 El Hi1) as Hi2. rewrite Hi2. cbn [mbind option_bind].
  assert (Hal1 : alive None s1) by (eapply (alive_touch None st s1 i ln l1); try done; [by rewrite Es|by rewrite Ho1]).
  assert (Hal2 : alive None s2) by (eapply (alive_touch None s1 s2 i l1 l2); try done; by rewrite Ho2).
  unfold pblk_line_is_full. rewrite Hl2. destruct (Z.eqb_spec (left_msecs l1) 0) as [Hz|Hz]; [|by exists s2, pa].
  destruct Hsw as (Hrun & Hfree & new & Hnew); [lia|].
  assert (F : pblk_state s1 = pblk_state st ∧ meta_bitmap s1 = meta_bitmap st ∧ data_next s1 = data_next st ∧
    data_line s1 = data_line st) by (by rewrite Es). destruct F as (F1 & F2 & F3 & F4).
  assert (Hln : ∃ lnew, rd (lines s2) new = Some lnew ∧ ln_state lnew = PBLK_LINESTATE_OPEN ∧ ln_meta lnew = None).
  { destruct (sm_next _ _ (in_streams _ _ _ _ _ _ Hinv) nrb new eq_refl (conj (ex_intro _ i Hd) Hnew)) as (lnew & N1 & N2 & N3).
    exists lnew. split; [|done]. assert (i ≠ new) by (intros <-; congruence).
    rewrite El, rd_insert_ne, Es by (apply rd_lt in Hi; try lia; done).
    apply (eq_trans (rd_set_line_ne st i new l1 ltac:(done) ltac:(apply rd_lt in Hi; lia))). done. }
  destruct Hln as (lnew & N1 & N2 & N3).
  destruct (replace_inv env s2 nrb i l2 new lnew) as (s3 & E3 & Hinv3 & Hal3 & Hnx & Hi3 & Ed & Hne); try done; try congruence.
  rewrite E3. cbn [mbind option_bind].
  assert (Hrl : is_Some (rd (rb_rl s3) nrb)).
  { apply rd_is_Some. pose proof (sm_length _ _ (in_streams _ _ _ _ _ _ Hinv3)) as (_ & Hl & _).
    rewrite Hl, Ed, length_insert, R1, F4. by apply rd_lt in Hd. }
  destruct (close_meta_inv s3 i l2 nrb) as (s4 & E4 & H4 & H5); try done.
  { by rewrite Hm2. }
  { congruence. }
  { intros n Hn. rewrite Ed, R1, F4 in Hn. apply rd_insert_other in Hn as [[_ E]|[Hnn Hn]]; [congruence| |apply rd_lt in Hd; lia].
    by pose proof (sm_line_inj _ _ (in_streams _ _ _ _ _ _ Hinv) n nrb i Hn Hd). }
  rewrite E4. cbn [mbind option_bind]. by exists s4, pa.
Qed.
End write.
