(* ===== verification/PblkInit.v ===== *)
(** * Bringing up the lines of a device (pblk-init.c)

    [pblk_lines_init] computes the geometry of the lines from that of the drive and sorts
    them into free and bad ones; [pblk_lines_configure] gives every stream
    its first two lines, on a device that is created anew (NVM_TARGET_FACTORY).  The
    allocations of memory succeed here.  Errors are values, [inl]; [None] is an access
    outside an array or a loop that ran out of fuel. *)

From stdpp Require Import base list functions.
From S2P Require Import Prelude Bitmap RateLimiter PblkAddr PblkLine.

Open Scope Z_scope.

(** ** Geometry *)

Inductive init_error := EINVAL | ENOMEM | EFAULT.

Definition PAGE_SIZE : Z := 4096.
Definition MAX_PSTREAM : Z := 8.
Definition OP_RATE : Z := 25.
Definition NVM_BLK_T_FREE : Z := 0.
Definition RWB_BUFFER : Z := 32.

(** [sizeof] of [struct line_smeta] and [struct line_emeta] without their arrays. *)
Definition sizeof_line_smeta : Z := 64.
Definition sizeof_line_emeta : Z := 72.

Definition DIV_ROUND_UP (n d : Z) : Z := (n + d - 1) / d.
Definition BITS_TO_LONGS (n : Z) : Z := DIV_ROUND_UP n 64.

(** *** Blocks of a line *)

(** A block within a line corresponds to the LUN; a LUN is its channel and its number. *)
Definition pblk_ppa_to_pos (geo : nvm_geo) (lun : Z * Z) : Z := lun.2 * nr_chnls geo + lun.1.

(** Stripe across channels. *)
Fixpoint luns_loop (n : nat) (geo : nvm_geo) (luns : list (Z * Z)) (i : Z) : option (list (Z * Z)) :=
  match n with
  | O => Some []
  | S n =>
      let ch := i mod nr_chnls geo in
      let lun_raw := i / nr_chnls geo in
      let lunid := lun_raw + ch * luns_per_chnl geo in
      l ← rd luns lunid;
      ls ← luns_loop n geo luns (i + 1);
      Some (l :: ls)
  end.

Definition pblk_luns_init (geo : nvm_geo) (luns : list (Z * Z)) : option (init_error + list (Z * Z)) :=
  if luns_per_chnl geo <? 0 then Some (inl EINVAL)
  else ls ← luns_loop (Z.to_nat (nr_luns geo)) geo luns 0; Some (inr ls).

(** The bad blocks of line [id]; [bb] are the tables of the LUNs. *)
Fixpoint pblk_bb_line (n : nat) (geo : nvm_geo) (luns : list (Z * Z)) (bb : list (list Z)) (id i : Z)
    (blk_bitmap : list bool) (bb_cnt : Z) : option (list bool * Z) :=
  match n with
  | O => Some (blk_bitmap, bb_cnt)
  | S n =>
      l ← rd luns i;
      t ← rd bb i;
      s ← rd t id;
      if s =? NVM_BLK_T_FREE then pblk_bb_line n geo luns bb id (i + 1) blk_bitmap bb_cnt
      else
        blk_bitmap ← wr blk_bitmap (pblk_ppa_to_pos geo l) true;
        pblk_bb_line n geo luns bb id (i + 1) blk_bitmap (bb_cnt + 1)
  end.

(** *** Metadata *)

(** The bytes of the last metadata when [emeta_sec0] sectors are set aside for them. *)
Definition calc_emeta_len (geo : nvm_geo) (blk_bitmap_len sec_per_line emeta_sec0 : Z) : Z :=
  let len sec := u32 (sec * geo_sec_size geo) in
  let sec1 := u32 (DIV_ROUND_UP (sizeof_line_emeta + blk_bitmap_len) (geo_sec_size geo)) in
  let dsec_per_line := u32 (sec_per_line - emeta_sec0) in
  let sec2 := u32 (DIV_ROUND_UP (dsec_per_line * 8) (geo_sec_size geo)) in
  let sec3 := u32 (DIV_ROUND_UP (blks_per_lun geo * 4) (geo_sec_size geo)) in
  u32 (len sec1 + len sec2 + len sec3).

(** The loops at [add_smeta_page] and [add_emeta_page]: the first number of pages that is
    enough.  There is no use for more pages than the line has. *)
Fixpoint add_smeta_page (fuel : nat) (geo : nvm_geo) (lun_bitmap_len i : Z) : option Z :=
  match fuel with
  | O => None
  | S fuel =>
      let len := u32 (i * geo_sec_per_pl geo * geo_sec_size geo) in
      if len <? u32 (sizeof_line_smeta + lun_bitmap_len)
      then add_smeta_page fuel geo lun_bitmap_len (i + 1) else Some i
  end.

Fixpoint add_emeta_page (fuel : nat) (geo : nvm_geo) (blk_bitmap_len sec_per_line i : Z) : option Z :=
  match fuel with
  | O => None
  | S fuel =>
      let sec := u32 (i * geo_sec_per_pl geo) in
      if u32 (sec * geo_sec_size geo) <? calc_emeta_len geo blk_bitmap_len sec_per_line sec
      then add_emeta_page fuel geo blk_bitmap_len sec_per_line (i + 1) else Some i
  end.

(** The first half of [pblk_lines_init].  [max_phys_sects] is the limit of the drive. *)
Definition lines_geometry (geo : nvm_geo) (max_phys_sects : Z) : option (init_error + pblk_line_meta) :=
  let min_write := geo_sec_per_pl geo * (geo_sec_size geo / PAGE_SIZE) in
  let max_write_ppas := min_write * nr_luns geo in
  let max_write := if max_write_ppas <? max_phys_sects then max_write_ppas else max_phys_sects in
  if PBLK_MAX_REQ_ADDRS <? max_write then Some (inl EINVAL) else
  _ ← ensure (nz min_write);
  if nz (geo_sec_per_blk geo mod min_write) then Some (inl EINVAL) else
  let spl := u32 (geo_sec_per_blk geo * nr_luns geo) in
  let bitmap_len := u32 (BITS_TO_LONGS (nr_luns geo) * 8) in
  ns ← add_smeta_page (S (Z.to_nat spl)) geo bitmap_len 1;
  ne ← add_emeta_page (S (Z.to_nat spl)) geo bitmap_len spl 1;
  let ssec := u32 (ns * geo_sec_per_pl geo) in
  let esec := u32 (ne * geo_sec_per_pl geo) in
  let min_blk := u32 (1 + DIV_ROUND_UP (u32 (ssec + esec)) (geo_sec_per_blk geo)) in
  if nr_luns geo <? min_blk then Some (inl EINVAL) else
  Some (inr {| sec_per_line := spl; blk_per_line := nr_luns geo; sec_per_blk := geo_sec_per_blk geo;
               sec_per_pl := geo_sec_per_pl geo; sec_size := geo_sec_size geo; smeta_sec := ssec;
               emeta_sec := esec; emeta_len := u32 (esec * geo_sec_size geo);
               emeta_bb := u32 (nr_luns geo - ne); min_blk_line := min_blk;
               high_thrs := spl / 2; mid_thrs := spl / 4; min_write_pgs := min_write;
               max_write_pgs := max_write |}).

(** ** Lines *)

(** A line as it is allocated, with its bad blocks. *)
Definition init_line (L : nat) (s : line_state) (blk : list bool) (nr_blk : Z) : pblk_line :=
  {| ln_state := s; ln_type := PBLK_LINETYPE_FREE; gc_group := PBLK_LINEGC_NONE; ln_link := None;
     ln_meta := None; meta_line := 0; seq_nr := 0; pstream := 0; smeta_ssec := 0; emeta_ssec := 0;
     sec_in_line := 0; blk_in_line := nr_blk; blk_bitmap := blk; erase_bitmap := replicate L false;
     map_bitmap := None; invalid_bitmap := None; left_eblks := 0; left_seblks := 0;
     left_msecs := 0; cur_sec := 0; nr_valid_lbas := 0; vsc := EMPTY_ENTRY; ref := 0 |}.

(** The loop over the lines; also counts the free blocks.  The array is filled from its
    start, so that the lines done so far are its prefix. *)
Fixpoint lines_loop (n : nat) (geo : nvm_geo) (lm : pblk_line_meta) (luns : list (Z * Z))
    (bb : list (list Z)) (st : pblk) (i nr_free_blks : Z) : option (init_error + pblk * Z) :=
  match n with
  | O => Some (inr (st, nr_free_blks))
  | S n =>
      let L := Z.to_nat (blk_per_line lm) in
      '(blk, nr_bad) ← pblk_bb_line L geo luns bb i 0 (replicate L false) 0;
      if (nr_bad <? 0) || (blk_per_line lm <? nr_bad) then Some (inl EINVAL) else
      let nr_blk := blk_per_line lm - nr_bad in
      if nr_blk <? min_blk_line lm then
        let st := st <| lines := lines st ++ [init_line L PBLK_LINESTATE_BAD blk 0] |> in
        st ← list_add_tail st i bad_list;
        lines_loop n geo lm luns bb st (i + 1) nr_free_blks
      else
        let st := st <| lines := lines st ++ [init_line L PBLK_LINESTATE_FREE blk nr_blk] |>
                     <| nr_free_lines := s32 (nr_free_lines st + 1) |> in
        st ← list_add_tail st i free_list;
        lines_loop n geo lm luns bb st (i + 1) (nr_free_blks + nr_blk)
  end.

(** The capacity in sectors that is offered to the user; the counts start with all blocks. *)
Definition pblk_set_provision (lm : pblk_line_meta) (st : pblk) (nr_free_blks : Z) : pblk * Z :=
  let provisioned := u64 (u64 (nr_free_blks - RESERVED_SPACE) * (100 - OP_RATE)) / 100 in
  (st <| rl := rl st <| total_blocks := nr_free_blks |> <| free_blocks := nr_free_blks |> |>,
   u64 (provisioned * sec_per_blk lm)).

(** The line management before the lines are listed; [junk] is what the array [data_next], which
    is not initialised, happens to contain. *)
Definition lines_start (nr_rwb : nat) (junk : list (option Z)) (st : pblk) : pblk :=
  st <| data_line := replicate nr_rwb None |> <| data_next := junk |>
     <| d_seq_nr := 0 |> <| nr_free_lines := 0 |>
     <| meta_bitmap := replicate (Z.to_nat PBLK_DATA_LINES) false |>
     <| emeta_mem := replicate (Z.to_nat PBLK_DATA_LINES) 0 |>
     <| emeta_sync := replicate (Z.to_nat PBLK_DATA_LINES) 0 |>
     <| lists := λ _, [] |> <| lines := [] |>.

(** [st] is the device as it is allocated. *)
Definition pblk_lines_init (geo : nvm_geo) (max_phys_sects : Z) (luns : list (Z * Z))
    (bb : list (list Z)) (nr_rwb : nat) (junk : list (option Z)) (st : pblk)
    : option (init_error + pblk_line_meta * pblk * Z) :=
  r ← lines_geometry geo max_phys_sects;
  match r with
  | inl e => Some (inl e)
  | inr lm =>
      r ← lines_loop (Z.to_nat (blks_per_lun geo)) geo lm luns bb (lines_start nr_rwb junk st) 0 0;
      match r with
      | inl e => Some (inl e)
      | inr (st, n) => let '(st, capacity) := pblk_set_provision lm st n in Some (inr (lm, st, capacity))
      end
  end.

(** ** Streams *)

(** The first lines of the streams from [nrb] on. *)
Fixpoint configure_loop (n : nat) (lm : pblk_line_meta) (env : line_env) (st : pblk) (nrb : Z)
    : option (init_error + pblk) :=
  match n with
  | O => Some (inr st)
  | S n =>
      '(st, r) ← pblk_line_get_first_data lm env st nrb;
      match r with
      | None => Some (inl EFAULT)
      | Some _ => configure_loop n lm env st (nrb + 1)
      end
  end.

Definition pblk_lines_configure (lm : pblk_line_meta) (env : line_env) (st : pblk) (nr_rwb : nat)
    : option (init_error + pblk) :=
  configure_loop nr_rwb lm env st 0.

Section init.
(** The kernel's rounded-up binary logarithm. *)
Context (get_count_order : Z → Z).

(** [pblk_core_init] fails for a geometry that has no format of addresses. *)
Definition core_init (geo : nvm_geo) : bool :=
  match pblk_set_ppaf get_count_order geo with Some _ => true | None => false end.

(** The streams of the map ([pblk_l2p_init]) and the rate limiter ([pblk_rwb_init]). *)
Definition streams_init (st : pblk) : pblk :=
  let n := Z.to_nat MAX_PSTREAM in
  st <| map_type := replicate n SECTOR_MAP |> <| invalid_line := replicate n (-1) |>
     <| nr_erase := replicate n 0 |>.

Definition limiter_init (lm : pblk_line_meta) (st : pblk) (nr_rwb : nat) : pblk :=
  let nr_entries := Z.shiftl 1 (get_count_order RWB_BUFFER) in
  let '(r, rbs) := pblk_rl_init get_count_order (rl st) (blk_per_line lm) nr_entries nr_rwb in
  st <| rl := r |> <| rb_rl := rbs |>.

(** The device as [kzalloc] returns it, with the switches [g] of the collector and the state
    set first. *)
Definition pblk_zero (g : pblk_gc) : pblk :=
  {| lines := []; lists := λ _, []; nr_free_lines := 0; data_line := []; data_next := [];
     meta_bitmap := []; emeta_mem := []; emeta_sync := []; d_seq_nr := 0; gc_target := 0;
     map_type := []; invalid_line := []; nr_erase := []; inflight_gc := 0; gc_reader_wq := [];
     gc_rqs := []; wb := []; pblk_state := PBLK_STATE_RUNNING;
     rl := {| high := 0; low := 0; high_pw := 0; rb_windows_pw := 0; rb_budget := 0; rb_user_max := 0;
              rb_gc_max := 0; rb_state := 0; rb_max_io := 0; rsv_blocks := 0; total_blocks := 0;
              free_blocks := 0 |};
     rb_rl := []; gc := g; warns := 0; double_invalidates := 0 |}.

(** [pblk_init], as far as lines are concerned: the LUNs, the lines, the format of addresses, the write buffers, the map and
    the first lines of the streams. *)
Definition pblk_bring_up (nr_rwb : nat) (geo : nvm_geo) (max_phys_sects : Z) (luns : list (Z * Z))
    (bb : list (list Z)) (junk : list (option Z)) (g : pblk_gc) (env : line_env)
    : option (init_error + pblk_line_meta * pblk * Z) :=
  r ← pblk_luns_init geo luns;
  match r with
  | inl e => Some (inl e)
  | inr luns =>
      r ← pblk_lines_init geo max_phys_sects luns bb nr_rwb junk (pblk_zero g);
      match r with
      | inl e => Some (inl e)
      | inr (lm, st, capacity) =>
          if negb (core_init geo) then Some (inl ENOMEM) else
          let st := streams_init (limiter_init lm st nr_rwb) in
          r ← pblk_lines_configure lm env st nr_rwb;
          match r with
          | inl e => Some (inl e)
          | inr st => Some (inr (lm, st, capacity))
          end
      end
  end.

Definition pblk_init := pblk_bring_up (Z.to_nat MAX_PSTREAM).
End init.
