(* ===== verification/PblkInitInv.v ===== *)
(** * The invariant of the lines holds after bring-up

    The geometry computed by [pblk_lines_init] satisfies [lm_ok], the lines it sorts and those
    [pblk_line_get_first_data] sets up satisfy the invariant of PblkLineRun. *)

From stdpp Require Import base list functions.
From S2P Require Import Prelude Bitmap RateLimiter PblkLine PblkLineInv PblkLineRun PblkLineWrite PblkInit.

Open Scope Z_scope.

Section first.
Context (lm : pblk_line_meta) (p L R e : nat) (Hlm : lm_ok lm p L R e).

Local Notation INV := (inv lm p L R).
Local Notation OK := (line_ok lm p L R).
Local Notation pages := (pages L R).

(** ** The first lines of a stream *)

Lemma set_line_id st i ln : rd (lines st) i = Some ln → set_line st i ln = st.
Proof using. intros [_ Hi]%rd_Some. unfold set_line. rewrite list_insert_id by done. by destruct st. Qed.

(** The line [i] taken as the current one of stream [nrb], and the line [j] taken as the next. *)
Definition first_line (env : line_env) (st : pblk) (nrb i : Z) (ln : pblk_line) : pblk_line :=
  got lm env i ln <| seq_nr := u32 (d_seq_nr st) |> <| ln_type := PBLK_LINETYPE_DATA |> <| pstream := u8 nrb |>.

Definition second_line (env : line_env) (st : pblk) (j : Z) (ln : pblk_line) : pblk_line :=
  got lm env j ln <| seq_nr := u32 (d_seq_nr st) |> <| ln_type := PBLK_LINETYPE_DATA |>.

Lemma first_fields env st nrb i ln :
  let l := first_line env st nrb i ln in
  blk_bitmap l = blk_bitmap ln ∧ blk_in_line l = blk_in_line ln ∧ ln_state l = PBLK_LINESTATE_OPEN.
Proof using. unfold first_line, got. cbn. done. Qed.

Lemma first_waiting env st nrb i ln n : 0 ≤ u8 nrb < n → waiting lm ln (first_line env st nrb i ln) n.
Proof using. intros Hn. unfold first_line, got. by split. Qed.

Lemma second_waiting env st j ln n : 0 ≤ pstream ln < n → waiting lm ln (second_line env st j ln) n.
Proof using. intros Hn. unfold second_line, got. by split. Qed.

(** A stream whose lines are being chosen: exempt, with no line being full. *)
Lemma inv_exempt st nrb : INV None st → INV (Some (-1, nrb)) st.
Proof using.
  intros Hinv. replace st with (st <| data_line := data_line st |> <| data_next := data_next st |>
    <| rb_rl := rb_rl st |> <| pblk_state := pblk_state st |>) by (by destruct st).
  apply (inv_globals lm p L R None); [done|intros i Hi; apply bool_decide_false; lia|].
  replace (st <| data_line := _ |> <| data_next := _ |> <| rb_rl := _ |> <| pblk_state := _ |>) with st by (by destruct st).
  destruct (in_streams _ _ _ _ _ _ Hinv). split; try done.
  - intros n i Hn. destruct (sm_line n i Hn) as (ln & ? & ? & ? & [?|?]); [|done]. exists ln. auto.
  - intros n i _. by apply sm_next.
Qed.

Lemma inv_exempt_end st nrb : INV (Some (-1, nrb)) st → next_ok st nrb → INV None st.
Proof using.
  intros Hinv Hok. replace st with (st <| data_line := data_line st |> <| data_next := data_next st |>
    <| rb_rl := rb_rl st |> <| pblk_state := pblk_state st |>) by (by destruct st).
  apply (inv_globals lm p L R (Some (-1, nrb))); [done|intros i Hi; symmetry; apply bool_decide_false; lia|].
  replace (st <| data_line := _ |> <| data_next := _ |> <| rb_rl := _ |> <| pblk_state := _ |>) with st by (by destruct st).
  destruct (in_streams _ _ _ _ _ _ Hinv). split; try done.
  - intros n i Hn. destruct (sm_line n i Hn) as (ln & Hi & ? & ? & [?|Hf]); [by exists ln; auto|].
    apply bool_decide_eq_true in Hf as <-. apply rd_lt in Hi. lia.
  - intros n i _ Hn. destruct (decide (n = nrb)) as [->|Hne]; [by apply Hok, Hn|].
    apply (sm_next n i); [|done]. apply bool_decide_false. congruence.
Qed.

(** Everything but the two lines. *)
Definition first_base (st : pblk) (nrb i j : Z) (li lj : pblk_line) (m : Z) : pblk :=
  with_meta (st <| data_line := <[Z.to_nat nrb := Some i]> (data_line st) |>
                <| data_next := <[Z.to_nat nrb := Some j]> (data_next st) |>
                <| lists := <[free_list := filter (λ k, k ≠ j) (filter (λ k, k ≠ i) (lists st free_list))]> (lists st) |>
                <| nr_free_lines := nr_free_lines st - 1 - 1 |>
                <| d_seq_nr := u64 (u64 (d_seq_nr st + 1) + 1) |>
                <| rl := pblk_rl_free_lines_dec (pblk_rl_free_lines_dec (rl st) (blk_in_line li)) (blk_in_line lj) |>) m.

(** A line that can be taken. *)
Record takable (st : pblk) (i : Z) (ln : pblk_line) : Prop := {
  tk_line : rd (lines st) i = Some ln;
  tk_state : ln_state ln = PBLK_LINESTATE_FREE;
  tk_link : ln_link ln = Some free_list;
  tk_blocks : blocks lm L st ln
}.

Lemma get_takable env st i ls ln :
  links_ok st → env_ok env → lists st free_list = i :: ls → takable st i ln → 0 ≤ nr_free_lines st < 2 ^ 31 →
  let st' := set_line st i (got lm env i ln)
               <| lists := <[free_list := filter (λ j, j ≠ i) (lists st free_list)]> (lists st) |>
               <| nr_free_lines := nr_free_lines st - 1 |> in
  pblk_line_get lm env st = Some (st', Some i) ∧ links_ok st'.
Proof using Hlm.
  intros Hk He E [Hi Hf Hl (Hb1 & Hb2 & _)] Hn. destruct Hb2 as [_ Hmin]; [by rewrite Hf|].
  by apply (line_get_ok lm p L R e Hlm env st i ls ln).
Qed.

Lemma number_line_eq st i ln :
  rd (lines st) i = Some ln →
  number_line st i = Some (set_line st i (ln <| seq_nr := u32 (d_seq_nr st) |> <| ln_type := PBLK_LINETYPE_DATA |>)
                             <| d_seq_nr := u64 (d_seq_nr st + 1) |>).
Proof using. intros Hi. unfold number_line. by rewrite (upd_line_eq st i ln) by done. Qed.

Lemma rl_dec_eq st i ln :
  rd (lines st) i = Some ln → rl_dec st i = Some (st <| rl := pblk_rl_free_lines_dec (rl st) (blk_in_line ln) |>).
Proof using. intros Hi. unfold rl_dec. by rewrite Hi. Qed.

Lemma takable_ne st st' i j ln v :
  takable st j ln → i ≠ j → 0 ≤ i → lines st' = <[Z.to_nat i := v]> (lines st) → map_type st' = map_type st → takable st' j ln.
Proof using.
  intros [H1 H2 H3 H4] Hne Hi El Em. split; [|done|done|].
  - rewrite El. by rewrite rd_insert_ne.
  - unfold blocks in *. by rewrite Em.
Qed.

(** The current line, taken and numbered, with its buffers. *)
Definition first_line_taken (env : line_env) (st : pblk) (nrb i : Z) (li : pblk_line) (m : Z) : pblk :=
  set_line (with_meta (st <| data_line := <[Z.to_nat nrb := Some i]> (data_line st) |>
                <| lists := <[free_list := filter (λ k, k ≠ i) (lists st free_list)]> (lists st) |>
                <| nr_free_lines := nr_free_lines st - 1 |> <| d_seq_nr := u64 (d_seq_nr st + 1) |>) m)
    i (own_meta (first_line env st nrb i li) m).

Lemma first_line_steps env st nrb i ls li m :
  links_ok st → env_ok env → lists st free_list = i :: ls → takable st i li → 0 ≤ nr_free_lines st < 2 ^ 31 →
  0 ≤ nrb < Z.of_nat (length (data_line st)) →
  find_first_zero_bit (meta_bitmap st) PBLK_DATA_LINES = m → 0 ≤ m < PBLK_DATA_LINES →
  Z.of_nat (length (meta_bitmap st)) = PBLK_DATA_LINES → length (emeta_mem st) = length (meta_bitmap st) →
  length (emeta_sync st) = length (meta_bitmap st) →
  ∃ s1 s2 s3, pblk_line_get lm env st = Some (s1, Some i) ∧ number_line s1 i = Some s2 ∧
    wr (data_line s2) nrb (Some i) = Some (<[Z.to_nat nrb := Some i]> (data_line st)) ∧
    upd_line (s2 <| data_line := <[Z.to_nat nrb := Some i]> (data_line st) |>) i (λ ln, ln <| pstream := u8 nrb |>) = Some s3 ∧
    pblk_line_setup_metadata s3 i = Some (first_line_taken env st nrb i li m) ∧ links_ok (first_line_taken env st nrb i li m).
Proof using Hlm.
  intros Hk He E Ht Hn Hnrb Em Hm Hl1 Hl2 Hl3. pose proof (tk_line _ _ _ Ht) as Hi.
  destruct (get_takable env st i ls li Hk He E Ht Hn) as [E1 Hk1].
  set (s1 := set_line st i _ <| lists := _ |> <| nr_free_lines := _ |>) in *.
  assert (Hi1 : rd (lines s1) i = Some (got lm env i li)) by (by apply (rd_set_line_eq st i li)).
  pose proof (number_line_eq s1 i _ Hi1) as E2. set (s2 := set_line s1 i _ <| d_seq_nr := _ |>) in *.
  set (s2' := s2 <| data_line := <[Z.to_nat nrb := Some i]> (data_line st) |>).
  set (l2 := got lm env i li <| seq_nr := u32 (d_seq_nr s1) |> <| ln_type := PBLK_LINETYPE_DATA |>) in *.
  assert (Hi2 : rd (lines s2') i = Some l2) by (by apply (rd_set_line_eq s1 i (got lm env i li))).
  assert (Hi3 : rd (lines (set_line s2' i (l2 <| pstream := u8 nrb |>))) i = Some (first_line env st nrb i li))
    by (by apply (rd_set_line_eq s2' i l2)).
  exists s1, s2, (set_line s2' i (l2 <| pstream := u8 nrb |>)). split; [done|]. split; [done|].
  assert (Hfin : pblk_line_setup_metadata (set_line s2' i (l2 <| pstream := u8 nrb |>)) i = Some (first_line_taken env st nrb i li m)).
  { rewrite (setup_metadata_spec _ i _ m Hi3) by done. f_equal. unfold first_line_taken, set_line, with_meta.
    unfold s2', s2, s1. simpl. by rewrite !list_insert_insert_eq. }
  split; [by apply wr_in_range|]. split; [by apply upd_line_eq|]. split; [exact Hfin|].
  apply (links_same (set_line s1 i (own_meta (first_line env st nrb i li) m))).
  - unfold first_line_taken, s1, set_line, with_meta. simpl. by rewrite list_insert_insert_eq.
  - done.
  - apply (links_set_line s1 i (got lm env i li)); [exact Hk1|exact Hi1|].
    unfold first_line, got, own_meta. cbn. reflexivity.
Qed.

(** The next line, taken and numbered. *)
Definition second_line_taken (env : line_env) (s : pblk) (nrb j : Z) (lj : pblk_line) : pblk :=
  set_line (s <| data_next := <[Z.to_nat nrb := Some j]> (data_next s) |>
              <| lists := <[free_list := filter (λ k, k ≠ j) (lists s free_list)]> (lists s) |>
              <| nr_free_lines := nr_free_lines s - 1 |>
              <| d_seq_nr := u64 (d_seq_nr s + 1) |>)
    j (second_line env s j lj).

Lemma second_line_steps env s nrb j ls lj :
  links_ok s → env_ok env → lists s free_list = j :: ls → takable s j lj → 0 ≤ nr_free_lines s < 2 ^ 31 →
  0 ≤ nrb < Z.of_nat (length (data_next s)) →
  ∃ s1, pblk_line_get lm env s = Some (s1, Some j) ∧
    wr (data_next s1) nrb (Some j) = Some (<[Z.to_nat nrb := Some j]> (data_next s)) ∧
    number_line (s1 <| data_next := <[Z.to_nat nrb := Some j]> (data_next s) |>) j = Some (second_line_taken env s nrb j lj) ∧
    links_ok (second_line_taken env s nrb j lj).
Proof using Hlm.
  intros Hk He E Ht Hn Hnrb. pose proof (tk_line _ _ _ Ht) as Hj.
  destruct (get_takable env s j ls lj Hk He E Ht Hn) as [E1 Hk1].
  set (s1 := set_line s j _ <| lists := _ |> <| nr_free_lines := _ |>) in *.
  assert (Hj1 : rd (lines s1) j = Some (got lm env j lj)) by (by apply (rd_set_line_eq s j lj)).
  exists s1. split; [exact E1|]. split; [by apply wr_in_range|]. split.
  - rewrite (number_line_eq _ j (got lm env j lj)) by exact Hj1. f_equal.
    unfold second_line_taken, s1, set_line. simpl. by rewrite list_insert_insert_eq.
  - apply (links_same (set_line s1 j (second_line env s j lj))).
    + unfold second_line_taken, s1, set_line. simpl. by rewrite list_insert_insert_eq.
    + done.
    + apply (links_set_line s1 j (got lm env j lj)); [exact Hk1|exact Hj1|].
      unfold second_line, got. cbn. reflexivity.
Qed.

Lemma first_prepared env st nrb i li :
  takable st i li → ln_meta li = None → vsc li = EMPTY_ENTRY → prepared p L R (first_line env st nrb i li).
Proof using Hlm.
  intros [Hi Hf Hl _] Hm Hv. unfold first_line, got. split; try done.
  simpl. do 2 f_equal. rewrite (lm_sec_per_line _ _ _ _ _ Hlm). unfold PblkLineInv.pages. lia.
Qed.

Lemma first_blocks env st s nrb i li :
  takable st i li → map_type s = map_type st → 0 ≤ u8 nrb < Z.of_nat (length (map_type st)) →
  blocks lm L s (first_line env st nrb i li).
Proof using.
  intros [_ Hf _ (Hb1 & Hb2 & _)] Em Hn. unfold blocks. rewrite Em. split; [done|]. split; [|done].
  intros _. apply Hb2. by rewrite Hf.
Qed.

Lemma first_taken_fields env st nrb i li m :
  let s := first_line_taken env st nrb i li m in
  lines s = <[Z.to_nat i := own_meta (first_line env st nrb i li) m]> (lines st) ∧
  lists s = <[free_list := filter (λ k, k ≠ i) (lists st free_list)]> (lists st) ∧
  nr_free_lines s = nr_free_lines st - 1 ∧ d_seq_nr s = u64 (d_seq_nr st + 1) ∧ rl s = rl st ∧ gc_target s = gc_target st ∧
  data_line s = <[Z.to_nat nrb := Some i]> (data_line st) ∧ data_next s = data_next st ∧ same_refs st s ∧
  meta_bitmap s = <[Z.to_nat m := true]> (meta_bitmap st) ∧ emeta_mem s = <[Z.to_nat m := 0]> (emeta_mem st) ∧
  emeta_sync s = <[Z.to_nat m := 0]> (emeta_sync st).
Proof using. unfold first_line_taken, same_refs. cbn. done. Qed.

Lemma second_taken_fields env st nrb j lj :
  let s := second_line_taken env st nrb j lj in
  lines s = <[Z.to_nat j := second_line env st j lj]> (lines st) ∧
  lists s = <[free_list := filter (λ k, k ≠ j) (lists st free_list)]> (lists st) ∧
  nr_free_lines s = nr_free_lines st - 1 ∧ d_seq_nr s = u64 (d_seq_nr st + 1) ∧ rl s = rl st ∧ gc_target s = gc_target st ∧
  data_line s = data_line st ∧ data_next s = <[Z.to_nat nrb := Some j]> (data_next st) ∧ same_refs st s ∧ same_metas st s.
Proof using. unfold second_line_taken, same_refs, same_metas. cbn. done. Qed.

(** The rest of [pblk_line_get_first_data] after the two lines were taken. *)
Lemma first_data_rest env s nrb i j l0 lj ln m :
  rd (lines s) i = Some l0 → l0 = own_meta ln m → rd (lines s) j = Some lj → i ≠ j → env_ok env →
  prepared p L R ln → blocks lm L s ln → ln_state ln = PBLK_LINESTATE_OPEN →
  let r := pblk_rl_free_lines_dec (pblk_rl_free_lines_dec (rl s) (blk_in_line ln)) (blk_in_line lj) in
  ∃ g qe, let P := <[g := true]> (bad_pages L R (blk_bitmap ln)) in
    let n := Z.of_nat p * zeros (take qe P) in
    smeta_page L (blk_bitmap ln) g ∧ (qe ≤ pages - e)%nat ∧ 0 < n ≤ sec_per_line lm ∧ zeros (drop qe P) = Z.of_nat e ∧
    ∃ s1 s2 s3, pblk_line_erase lm env s i = Some (s1, false) ∧ rl_dec s1 i = Some s2 ∧ rl_dec s2 j = Some s3 ∧
      ∀ fuel, retry_setup lm (S fuel) env s3 i nrb None
        = Some (set_line (s <| rl := r |>) i (fresh_line p L R ln m P g qe n), Some i).
Proof using Hlm.
  intros Hi -> Hj Hne He Hp Hb Ho r. pose proof (erase_line_spec lm p L R e Hlm env s i _ ln He Hi Hp Hb Ho m) as E1.
  cbn zeta in E1. rewrite (set_line_id s i _ Hi) in E1. set (l2 := erased _ 0 (replicate L true) 0) in *.
  set (s' := s <| rl := r |>).
  destruct (retry_setup_spec lm p L R e Hlm env s' i _ ln nrb None m Hi Hp Hb Ho He) as (g & qe & H1 & H2 & H3 & H4 & E); [done|].
  cbn zeta in E. fold l2 in E. exists g, qe. do 4 (split; [done|]).
  exists (set_line s i l2), (set_line s i l2 <| rl := pblk_rl_free_lines_dec (rl s) (blk_in_line ln) |>),
    (set_line (s <| rl := r |>) i l2).
  split; [done|]. split; [|split; [|exact E]].
  - by apply (rl_dec_eq (set_line s i l2) i l2), (rd_set_line_eq s i _ l2 Hi).
  - assert (Hj2 : rd (lines (set_line s i l2)) j = Some lj) by (rewrite rd_set_line_ne; [done|done|apply rd_lt in Hi; lia]).
    match goal with |- rl_dec ?t j = _ => by rewrite (rl_dec_eq t j lj Hj2) end.
Qed.

Lemma same_refs_trans s1 s2 s3 : same_refs s1 s2 → same_refs s2 s3 → same_refs s1 s3.
Proof using. unfold same_refs. intros. destruct_and!. split_and!; congruence. Qed.

Lemma filter_head (i : Z) ls : i ∉ ls → filter (λ k, k ≠ i) (i :: ls) = ls.
Proof using.
  intros Hi. rewrite filter_cons_False by (intros H; by apply H).
  induction ls as [|k ls IH]; [done|]. rewrite filter_cons_True by (intros ->; apply Hi; left).
  f_equal. apply IH. intros H. apply Hi. by right.
Qed.

Lemma links_fresh s i ln m ln' r :
  links_ok s → rd (lines s) i = Some (own_meta ln m) → ln_link ln' = ln_link ln → links_ok (set_line (s <| rl := r |>) i ln').
Proof using.
  intros Hk Hi Hl. apply (links_same (set_line s i ln')); [done|done|].
  by apply (links_set_line s i (own_meta ln m)).
Qed.

Lemma first_data_run env st nrb i j ls li lj m :
  links_ok st → env_ok env → lists st free_list = i :: j :: ls → takable st i li → takable st j lj →
  ln_meta li = None → vsc li = EMPTY_ENTRY → 1 ≤ nr_free_lines st < 2 ^ 31 →
  0 ≤ nrb < Z.of_nat (length (data_line st)) → length (data_next st) = length (data_line st) →
  0 ≤ u8 nrb < Z.of_nat (length (map_type st)) →
  find_first_zero_bit (meta_bitmap st) PBLK_DATA_LINES = m → 0 ≤ m < PBLK_DATA_LINES →
  Z.of_nat (length (meta_bitmap st)) = PBLK_DATA_LINES → length (emeta_mem st) = length (meta_bitmap st) →
  length (emeta_sync st) = length (meta_bitmap st) →
  ∃ g qe st' nl, let fl := first_line env st nrb i li in
    let P := <[g := true]> (bad_pages L R (blk_bitmap li)) in let n := Z.of_nat p * zeros (take qe P) in
    (smeta_page L (blk_bitmap li) g ∧ (qe ≤ pages - e)%nat ∧ 0 < n ≤ sec_per_line lm ∧ zeros (drop qe P) = Z.of_nat e) ∧
    pblk_line_get_first_data lm env st nrb = Some (st', Some i) ∧ links_ok st' ∧
    waiting lm lj nl (Z.of_nat (length (map_type st))) ∧
    lines st' = <[Z.to_nat j := nl]> (<[Z.to_nat i := fresh_line p L R fl m P g qe n]> (lines st)) ∧
    lists st' free_list = ls ∧ nr_free_lines st' = nr_free_lines st - 1 - 1 ∧
    rl st' = pblk_rl_free_lines_dec (pblk_rl_free_lines_dec (rl st) (blk_in_line li)) (blk_in_line lj) ∧
    gc_target st' = gc_target st ∧ data_line st' = <[Z.to_nat nrb := Some i]> (data_line st) ∧
    data_next st' = <[Z.to_nat nrb := Some j]> (data_next st) ∧ same_refs st st' ∧
    meta_bitmap st' = <[Z.to_nat m := true]> (meta_bitmap st) ∧ emeta_mem st' = <[Z.to_nat m := 0]> (emeta_mem st) ∧
    emeta_sync st' = <[Z.to_nat m := 0]> (emeta_sync st).
Proof using Hlm.
  intros Hk He E Hi Hj Hmeta Hv Hfree Hnrb Hdn Hst Em Hm Hl1 Hl2 Hl3.
  pose proof (lk_nodup _ Hk free_list) as Hnd. rewrite E in Hnd. apply NoDup_cons in Hnd as [Hni [Hnj Hnd]%NoDup_cons].
  assert (Hne : i ≠ j) by (intros ->; apply Hni; left). pose proof (rd_lt _ _ _ (tk_line _ _ _ Hi)) as Hi0.
  pose proof (rd_lt _ _ _ (tk_line _ _ _ Hj)) as Hj0.
  destruct (first_line_steps env st nrb i (j :: ls) li m) as (a1 & a2 & a3 & A1 & A2 & A3 & A4 & A5 & Hk1); try done; [lia|].
  pose proof (first_taken_fields env st nrb i li m) as (F1 & F2 & F3 & F4 & F5 & F6 & F7 & F8 & F9 & F10 & F11 & F12).
  remember (first_line_taken env st nrb i li m) as s1 eqn:Es1. clear Es1.
  assert (El1 : lists s1 free_list = j :: ls) by (rewrite F2, fn_lookup_insert, E; by apply filter_head).
  assert (Hj1 : takable s1 j lj) by (eapply (takable_ne st s1 i j); try done; [lia|apply F9]).
  destruct (second_line_steps env s1 nrb j ls lj) as (b1 & B1 & B2 & B3 & Hk2); try done; [lia|by rewrite F8, Hdn|].
  pose proof (second_taken_fields env s1 nrb j lj) as (G1 & G2 & G3 & G4 & G5 & G6 & G7 & G8 & G9 & (G10 & G11 & G12)).
  pose proof (second_waiting env s1 j lj (Z.of_nat (length (map_type st))) ltac:(apply Hj)) as Hw.
  remember (second_line_taken env s1 nrb j lj) as s2 eqn:Es2. clear Es2. set (nl := second_line env s1 j lj) in *. clearbody nl.
  pose proof (first_fields env st nrb i li) as (Fb & Fi & Fo).
  pose proof (first_prepared env st nrb i li Hi Hmeta Hv) as Hpr.
  pose proof (first_blocks env st s2 nrb i li Hi ltac:(destruct F9 as (_ & _ & _ & T1 & _), G9 as (_ & _ & _ & T2 & _); congruence) Hst) as Hbl.
  set (fl := first_line env st nrb i li) in *.
  assert (Hi2 : rd (lines s2) i = Some (own_meta fl m)).
  { rewrite G1, rd_insert_ne, F1 by (done || lia). by eapply rd_insert_eq, Hi. }
  assert (Hj2 : rd (lines s2) j = Some nl) by (rewrite G1; by eapply rd_insert_eq, Hj1).
  destruct (first_data_rest env s2 nrb i j _ nl fl m Hi2 eq_refl Hj2 Hne He) as
    (g & qe & Hg & Hqe & Hn & Hz & c1 & c2 & c3 & C1 & C2 & C3 & C4).
  { exact Hpr. }
  { exact Hbl. }
  { exact Fo. }
  rewrite Fb in *. rewrite Fi in *.
  set (P := <[g := true]> (bad_pages L R (blk_bitmap li))) in *. set (n := Z.of_nat p * zeros (take qe P)) in *.
  pose proof (fresh_fields p L R fl m P g qe n) as (_ & _ & Hfr & _). cbn zeta in C4.
  match type of C4 with ∀ _, _ = Some (?s, _) => exists g, qe, s, nl end.
  cbn zeta. fold fl P n. set (fr := fresh_line p L R fl m P g qe n) in *. clearbody fr fl.
  split; [done|]. split.
  - unfold pblk_line_get_first_data. rewrite A1. cbn [mbind option_bind]. rewrite A2. cbn [mbind option_bind].
    rewrite A3. cbn [mbind option_bind]. rewrite A4. cbn [mbind option_bind]. rewrite A5. cbn [mbind option_bind].
    rewrite B1. cbn [mbind option_bind]. rewrite B2. cbn [mbind option_bind]. rewrite B3. cbn [mbind option_bind].
    rewrite C1. cbn [mbind option_bind]. rewrite C2. cbn [mbind option_bind]. rewrite C3. cbn [mbind option_bind].
    unfold setup_fuel. rewrite C4. reflexivity.
  - split.
    { by apply (links_fresh s2 i fl m fr). }
    split; [done|]. cbn. rewrite G1, G2, G3, G5, G6, G7, G8, F1, F3, F5, F6, F7, F8, G10, G11, G12, F10, F11, F12.
    rewrite (list_insert_insert_ne (lines st)), list_insert_insert_eq by lia.
    split_and!; try done.
    + by rewrite list_insert_insert_ne by lia.
    + rewrite fn_lookup_insert, El1. by apply filter_head.
    + by rewrite (proj2 (wt_blks _ _ _ _ Hw)).
    + by apply (same_refs_trans _ s1).
Qed.

(** The state with only the current line taken, waiting as the next one. *)
Definition one_taken (st : pblk) (nrb i : Z) (li fl : pblk_line) : pblk :=
  set_line st i fl <| lists := <[free_list := filter (λ k, k ≠ i) (lists st free_list)]> (lists st) |>
    <| data_next := <[Z.to_nat nrb := Some i]> (data_next st) |> <| nr_free_lines := nr_free_lines st - 1 |>
    <| rl := pblk_rl_free_lines_dec (rl st) (blk_in_line li) |>.

Lemma one_taken_inv st nrb i li fl x :
  INV x st → 0 ≤ nrb < Z.of_nat (length (data_line st)) → (∀ n, stale_at x n = true → n = nrb) →
  rd (lines st) i = Some li → ln_state li = PBLK_LINESTATE_FREE →
  waiting lm li fl (Z.of_nat (length (map_type st))) → INV x (one_taken st nrb i li fl).
Proof using Hlm.
  intros Hinv Hn Hst Hi Hf Hw. pose proof (in_line _ _ _ _ _ _ Hinv i li Hi) as [Hsh _ _].
  unfold shape in Hsh. rewrite Hf in Hsh. destruct Hsh as (Hl & _).
  eapply (next_inv lm p L R e Hlm x st _ nrb i li fl Hinv); try done.
  apply (links_same (set_line st i fl <| lists := <[free_list := filter (λ k, k ≠ i) (lists st free_list)]> (lists st) |>)); [done|done|].
  pose proof (links_del st i free_list li (in_links _ _ _ _ _ _ Hinv) Hi Hl) as Hk.
  set (s := set_line st i (li <| ln_link := None |>) <| lists := _ |>) in *.
  apply (links_same (set_line s i fl)).
  - unfold s, set_line. simpl. by rewrite list_insert_insert_eq.
  - done.
  - apply (links_set_line s i (li <| ln_link := None |>)); [done|by apply (rd_set_line_eq st i li)|].
    by rewrite (wt_link _ _ _ _ Hw).
Qed.

Lemma one_taken_fields st nrb i li fl :
  let s := one_taken st nrb i li fl in
  lines s = <[Z.to_nat i := fl]> (lines st) ∧ nr_free_lines s = nr_free_lines st - 1 ∧
  rl s = pblk_rl_free_lines_dec (rl st) (blk_in_line li) ∧ gc_target s = gc_target st ∧
  data_line s = data_line st ∧ data_next s = <[Z.to_nat nrb := Some i]> (data_next st) ∧ same_refs st s ∧ same_metas st s.
Proof using. unfold one_taken, same_refs, same_metas. cbn. done. Qed.

(** The current line set up. *)
Lemma one_set_up st nrb i fl m g qe :
  let x := Some (-1, nrb) in
  INV x st → 0 ≤ nrb → rd (data_next st) nrb = Some (Some i) → (∀ n, n ≠ nrb → ¬ next_of st n i) →
  rd (lines st) i = Some fl → ln_state fl = PBLK_LINESTATE_OPEN → prepared p L R fl →
  rd (meta_bitmap st) m = Some false → smeta_page L (blk_bitmap fl) g → (qe ≤ pages - e)%nat →
  let P := <[g := true]> (bad_pages L R (blk_bitmap fl)) in let n := Z.of_nat p * zeros (take qe P) in
  0 < n ≤ sec_per_line lm → zeros (drop qe P) = Z.of_nat e →
  ∃ s fr, INV x s ∧ fr = fresh_line p L R fl m P g qe n ∧ lines s = <[Z.to_nat i := fr]> (lines st) ∧
    data_line s = <[Z.to_nat nrb := Some i]> (data_line st) ∧ data_next s = data_next st ∧
    nr_free_lines s = nr_free_lines st ∧ rl s = rl st ∧ gc_target s = gc_target st ∧ same_refs st s ∧
    meta_bitmap s = <[Z.to_nat m := true]> (meta_bitmap st) ∧ emeta_mem s = <[Z.to_nat m := 0]> (emeta_mem st) ∧
    emeta_sync s = <[Z.to_nat m := 0]> (emeta_sync st).
Proof using Hlm.
  intros x Hinv Hn Hnx Hun Hi Ho Hpr Hm Hg Hqe P n Hnn Hz. eexists _, (fresh_line p L R fl m P g qe n).
  split; [apply (setup_inv lm p L R e Hlm x st nrb i fl m g qe); try done|].
  - by apply bool_decide_true.
  - apply bool_decide_false. intros <-. apply rd_lt in Hi. lia.
  - done.
Qed.

Lemma takable_line x st i ls :
  INV x st → i ∈ lists st free_list → lists st free_list = ls →
  ∃ ln, takable st i ln ∧ ln_meta ln = None ∧ vsc ln = EMPTY_ENTRY.
Proof using.
  intros Hinv Hi _. destruct (proj1 (lk_mem _ (in_links _ _ _ _ _ _ Hinv) free_list i) Hi) as (ln & Hr & Hl).
  pose proof (in_line _ _ _ _ _ _ Hinv i ln Hr) as [Hs _ Hb].
  assert (Hf : ln_state ln = PBLK_LINESTATE_FREE).
  { unfold shape in Hs. destruct (ln_state ln); try done; exfalso.
    - destruct Hs as (_ & [[]|(P & c & qe & b & k & mem & sync & [])]); [congruence|].
      destruct (_ && _); [|congruence]. destruct wr_link as [nrb E']. congruence.
    - destruct Hs as (_ & E' & _). rewrite Hl in E'. by destruct (gc_group ln).
    - destruct Hs as (_ & [E'|E'] & _); congruence.
    - destruct Hs as (E' & _). congruence. }
  unfold shape in Hs. rewrite Hf in Hs. destruct Hs as (_ & _ & Hm & Hv). exists ln. by split; [split|].
Qed.

Lemma zeros_set (m : list bool) k : rd m k = Some false → zeros (<[Z.to_nat k := true]> m) = zeros m - 1.
Proof using. intros [_ H]%rd_Some. rewrite zeros_insert by done. lia. Qed.

(** A stream gets its first two lines. *)
Lemma first_data_inv env st nrb i j ls :
  INV None st → alive None st → env_ok env → 0 ≤ nrb < Z.of_nat (length (data_line st)) →
  lists st free_list = i :: j :: ls → 0 < zeros (meta_bitmap st) →
  ∃ st', pblk_line_get_first_data lm env st nrb = Some (st', Some i) ∧ INV None st' ∧ alive None st' ∧
    lists st' free_list = ls ∧ zeros (meta_bitmap st') = zeros (meta_bitmap st) - 1 ∧
    data_line st' = <[Z.to_nat nrb := Some i]> (data_line st) ∧ data_next st' = <[Z.to_nat nrb := Some j]> (data_next st).
Proof using Hlm.
  intros Hinv Hal He Hn E Hz. pose proof (in_metas _ _ _ _ _ _ Hinv) as [_ (Hl1 & Hl2 & Hl3)].
  destruct (find_meta st Hl1 Hz) as (m & Em & Hm & Hbit).
  destruct (takable_line None st i (i :: j :: ls) Hinv) as (li & Hi & Hmi & Hvi); [rewrite E; left|done|].
  destruct (takable_line None st j (i :: j :: ls) Hinv) as (lj & Hj & Hmj & Hvj); [rewrite E; right; left|done|].
  pose proof (sm_length _ _ (in_streams _ _ _ _ _ _ Hinv)) as (S1 & S2 & S3 & S4 & _).
  assert (Hst : 0 ≤ u8 nrb < Z.of_nat (length (map_type st))) by (unfold u8; rewrite Z.mod_small by lia; lia).
  pose proof (lk_nodup _ (in_links _ _ _ _ _ _ Hinv) free_list) as Hnd. rewrite E in Hnd.
  apply NoDup_cons in Hnd as [Hni _]. assert (Hne : i ≠ j) by (intros ->; apply Hni; left).
  pose proof (rd_lt _ _ _ (tk_line _ _ _ Hi)) as Hi0. pose proof (rd_lt _ _ _ (tk_line _ _ _ Hj)) as Hj0.
  destruct (first_data_run env st nrb i j ls li lj m) as
    (g & qe & st' & nl & (Hg & Hqe & Hnn & Hze) & Erun & Hk' & Hw & El & Efl & C1 & C2 & C3 & D1 & D2 & Hr & M1 & M2 & M3); try done.
  { apply Hinv. }
  { pose proof (counters_bounds lm p L R None st Hinv) as (B & _). split; [|lia].
    rewrite (cn_free _ _ (in_counters _ _ _ _ _ _ Hinv)). pose proof (tk_line _ _ _ Hi) as [_ Hi']%rd_Some.
    pose proof (lsum_ge is_free (lines st) (Z.to_nat i) li) as Hge.
    assert (is_free li = 1) by (unfold is_free; by rewrite (tk_state _ _ _ Hi)).
    enough (is_free li ≤ lsum is_free (lines st)) by lia. apply Hge; [|done].
    intros l _. unfold is_free. case_bool_decide; lia. }
  pose proof (first_waiting env st nrb i li _ Hst) as Hwi.
  pose proof (one_taken_inv st nrb i li (first_line env st nrb i li) (Some (-1, nrb)) (inv_exempt st nrb Hinv) Hn
    ltac:(by intros n ?%bool_decide_eq_true) (tk_line _ _ _ Hi) (tk_state _ _ _ Hi) Hwi) as Hinv1.
  pose proof (one_taken_fields st nrb i li (first_line env st nrb i li)) as (F1 & F2 & F3 & F4 & F5 & F6 & F7 & F8).
  set (v1 := one_taken st nrb i li _) in *. clearbody v1.
  pose proof (first_prepared env st nrb i li Hi Hmi Hvi) as Hpr. pose proof (first_fields env st nrb i li) as (B1 & B2 & B3).
  set (fl := first_line env st nrb i li) in *. clearbody fl. cbn zeta in *. rewrite <- B1 in Hg, Hnn, Hze, El.
  destruct (one_set_up v1 nrb i fl m g qe Hinv1) as (v2 & fr & Hinv2 & Efr & G1 & G2 & G3 & G4 & G5 & G6 & G7 & G8 & G9 & G10); try done.
  { lia. }
  { rewrite F6. destruct (rd_is_Some (data_next st) nrb) as [v Hv]; [lia|]. by eapply rd_insert_eq. }
  { intros n Hne' [Hrun Hnx]. rewrite F5 in Hrun. rewrite F6, rd_insert_ne in Hnx by (done || lia).
    destruct (not_owned lm p L R None st i li Hinv (tk_line _ _ _ Hi) ltac:(by rewrite (tk_state _ _ _ Hi))) as [_ No].
    apply No. exists n. by split; [|split]. }
  { rewrite F1. by eapply rd_insert_eq, Hi. }
  { by rewrite (proj1 F8). }
  assert (Hfr : ln_state fr = PBLK_LINESTATE_OPEN) by (rewrite Efr, (proj1 (fresh_fields p L R fl m _ g qe _)); done).
  rewrite <- Efr in El. clear Efr. destruct F8 as (X1 & X2 & X3).
  destruct (next_inv lm p L R e Hlm (Some (-1, nrb)) v2 st' nrb j lj nl Hinv2) as (Hinv3 & Hnok & _); try done.
  - by rewrite G2, F5, length_insert.
  - by intros n ?%bool_decide_eq_true.
  - rewrite G1, F1, !rd_insert_ne by (done || lia). apply Hj.
  - apply Hj.
  - destruct F7 as (_ & _ & _ & T1 & _), G7 as (_ & _ & _ & T2 & _). by rewrite T2, T1.
  - pose proof (same_refs_trans _ _ _ F7 G7) as Hr2. unfold same_refs in *. clear - Hr Hr2. destruct_and!. split_and!; congruence.
  - unfold same_metas. rewrite M1, M2, M3, G8, G9, G10, X1, X2, X3. done.
  - by rewrite El, G1, F1, list_insert_insert_eq.
  - by rewrite D1, G2, F5.
  - by rewrite D2, G3, F6, list_insert_insert_eq.
  - rewrite C1, G4, F2. done.
  - by rewrite C3, G6, F4.
  - by rewrite C2, G5, F3.
  - exists st'. split; [done|]. split; [by apply (inv_exempt_end st' nrb)|]. split; [|by rewrite M1, zeros_set].
    intros k lk Hk Hg' _. rewrite El in Hk. apply rd_insert_other in Hk as [[_ ->]|[_ Hk]]; [|..|lia].
    { by rewrite (wt_state _ _ _ _ Hw) in Hg'. }
    apply rd_insert_other in Hk as [[_ ->]|[_ Hk]]; [congruence| |lia]. by apply (Hal k lk).
Qed.

(** Both lines of a stream are chosen. *)
Definition ready (st : pblk) (nrb : Z) : Prop :=
  ∃ i j, rd (data_line st) nrb = Some (Some i) ∧ rd (data_next st) nrb = Some (Some j).

Lemma configure_inv n env st nrb :
  INV None st → alive None st → env_ok env → 0 ≤ nrb → nrb + Z.of_nat n ≤ Z.of_nat (length (data_line st)) →
  (2 * n ≤ length (lists st free_list))%nat → Z.of_nat n ≤ zeros (meta_bitmap st) → (∀ k, 0 ≤ k < nrb → ready st k) →
  ∃ st', configure_loop n lm env st nrb = Some (inr st') ∧ INV None st' ∧ alive None st' ∧
    length (data_line st') = length (data_line st) ∧ ∀ k, 0 ≤ k < nrb + Z.of_nat n → ready st' k.
Proof using Hlm.
  revert st nrb. induction n as [|n IH]; intros st nrb Hinv Hal He Hn Hlen Hfree Hz Hr; cbn [configure_loop].
  { exists st. split; [done|]. split; [done|]. split; [done|]. split; [done|]. intros k Hk. apply Hr. lia. }
  destruct (lists st free_list) as [|i [|j ls]] eqn:E; [simpl in Hfree; lia..|].
  destruct (first_data_inv env st nrb i j ls) as (s1 & E1 & Hinv1 & Hal1 & El & Ez & D1 & D2); try done; [lia..|].
  pose proof (sm_length _ _ (in_streams _ _ _ _ _ _ Hinv)) as (S1 & _).
  rewrite E1. cbn [mbind option_bind].
  destruct (IH s1 (nrb + 1)) as (st' & E2 & H1 & H2 & H3 & H4); try done; rewrite ?El, ?Ez, ?D1, ?length_insert; try lia.
  { simpl in Hfree. lia. }
  { intros k Hk. unfold ready. rewrite D1, D2. destruct (decide (k = nrb)) as [->|Hne].
    - destruct (rd_is_Some (data_line st) nrb) as [v1 Hv1]; [lia|]. destruct (rd_is_Some (data_next st) nrb) as [v2 Hv2]; [lia|].
      exists i, j. split; by eapply rd_insert_eq.
    - rewrite !rd_insert_ne by (done || lia). apply Hr. lia. }
  exists st'. do 3 (split; [done|]). split; [rewrite H3, D1; apply length_insert|]. intros k Hk. apply H4. lia.
Qed.
End first.
