(* ===== verification/PblkInitLines.v ===== *)
(** * The geometry and the lines [pblk_lines_init] computes

    The geometry satisfies [lm_ok] when the first metadata fits a page and the last one fits a page of
    each LUN, and the lines are sorted by their bad blocks. *)

From stdpp Require Import base list functions numbers.
From S2P Require Import Prelude Bitmap RateLimiter PblkAddr PblkLine PblkLineInv PblkLineRun PblkLineWrite PblkInit PblkInitInv.

Open Scope Z_scope.

(** ** Geometry *)

Lemma div_round_up_spec n d : 0 < d → n ≤ d * DIV_ROUND_UP n d < n + d.
Proof. intros Hd. unfold DIV_ROUND_UP. pose proof (Z.div_mod (n + d - 1) d). pose proof (Z.mod_pos_bound (n + d - 1) d). lia. Qed.

Lemma div_round_up_mono n n' d : 0 < d → n ≤ n' → DIV_ROUND_UP n d ≤ DIV_ROUND_UP n' d.
Proof. intros Hd Hn. unfold DIV_ROUND_UP. apply Z.div_le_mono; lia. Qed.

Lemma div_round_up_nonneg n d : 0 < d → 0 ≤ n → 0 ≤ DIV_ROUND_UP n d.
Proof. intros Hd Hn. unfold DIV_ROUND_UP. apply Z.div_pos; lia. Qed.

(** A drive with [L] LUNs, pages of [p] sectors of 4096 bytes and [R] pages in a block, for which the
    first metadata fits a page, the last one a page of each LUN, and whose sizes fit an [int]. *)
Record geo_ok (geo : nvm_geo) (max_phys_sects : Z) (p L R : nat) : Prop := {
  go_p : (0 < p)%nat;
  go_L : (0 < L)%nat;
  go_R : (0 < R)%nat;
  go_pl : geo_sec_per_pl geo = Z.of_nat p;
  go_luns : nr_luns geo = Z.of_nat L;
  go_blk : geo_sec_per_blk geo = Z.of_nat (p * R);
  go_size : geo_sec_size geo = PAGE_SIZE;
  go_lines : 0 ≤ blks_per_lun geo < 2 ^ 28;
  go_int : Z.of_nat (p * R * L) < 2 ^ 28;
  go_meta_int : Z.of_nat (p * L) * PAGE_SIZE < 2 ^ 31;
  go_req : 0 < max_phys_sects ∧ Z.min (Z.of_nat (p * L)) max_phys_sects ≤ PBLK_MAX_REQ_ADDRS;
  go_smeta : sizeof_line_smeta + BITS_TO_LONGS (Z.of_nat L) * 8 ≤ Z.of_nat p * PAGE_SIZE;
  go_emeta : calc_emeta_len geo (BITS_TO_LONGS (Z.of_nat L) * 8) (Z.of_nat (p * R * L)) (Z.of_nat (p * L))
             ≤ Z.of_nat (p * L) * PAGE_SIZE;
  go_min : 1 + DIV_ROUND_UP (Z.of_nat (p + p * L)) (Z.of_nat (p * R)) ≤ Z.of_nat L
}.

Section geometry.
Context (geo : nvm_geo) (max : Z) (p L R : nat) (Hgeo : geo_ok geo max p L R).

Lemma add_emeta_ok fuel bl (i : nat) :
  (1 ≤ i ≤ L)%nat → (L - i < fuel)%nat →
  calc_emeta_len geo bl (Z.of_nat (p * R * L)) (Z.of_nat (p * L)) ≤ Z.of_nat (p * L) * PAGE_SIZE →
  ∃ e : nat, add_emeta_page fuel geo bl (Z.of_nat (p * R * L)) (Z.of_nat i) = Some (Z.of_nat e) ∧ (i ≤ e ≤ L)%nat ∧
    calc_emeta_len geo bl (Z.of_nat (p * R * L)) (Z.of_nat (p * e)) ≤ Z.of_nat (p * e) * PAGE_SIZE.
Proof using Hgeo.
  revert i. induction fuel as [|fuel IH]; intros i Hi Hf Hfit; [lia|]. cbn [add_emeta_page].
  destruct Hgeo. unfold PAGE_SIZE in *.
  assert (Hpi : Z.of_nat (p * i) ≤ Z.of_nat (p * L)) by nia.
  rewrite go_pl0, go_size0. replace (Z.of_nat i * Z.of_nat p) with (Z.of_nat (p * i)) by lia.
  rewrite (u32_small (Z.of_nat (p * i))) by lia. rewrite u32_small by lia.
  destruct (Z.ltb_spec (Z.of_nat (p * i) * 4096) (calc_emeta_len geo bl (Z.of_nat (p * R * L)) (Z.of_nat (p * i)))) as [Hlt|Hge].
  - assert (i ≠ L) by (intros ->; lia). replace (Z.of_nat i + 1) with (Z.of_nat (S i)) by lia.
    destruct (IH (S i)) as (e & E & He & Hfe); [lia|lia|done|]. exists e. split; [done|]. split; [lia|done].
  - exists i. split; [done|]. split; [lia|lia].
Qed.

Lemma lines_geometry_ok :
  ∃ lm e, lines_geometry geo max = Some (inr lm) ∧ lm_ok lm p L R e.
Proof using Hgeo.
  pose proof Hgeo as []. unfold PAGE_SIZE in *. unfold lines_geometry. rewrite go_pl0, go_luns0, go_blk0, go_size0. unfold PAGE_SIZE.
  rewrite Z.div_same, Z.mul_1_r by lia. rewrite <- Nat2Z.inj_mul.
  set (mw := if Z.of_nat (p * L) <? max then Z.of_nat (p * L) else max).
  assert (Hmw : 0 < mw ≤ PBLK_MAX_REQ_ADDRS) by (unfold mw; destruct (Z.ltb_spec (Z.of_nat (p * L)) max); nia).
  rewrite (proj2 (Z.ltb_ge _ _)) by lia.
  assert (Hnz : nz (Z.of_nat p) = true) by (unfold nz; by rewrite (proj2 (Z.eqb_neq _ _)) by lia).
  rewrite Hnz. cbn [ensure mbind option_bind].
  assert (Hmod : Z.of_nat (p * R) mod Z.of_nat p = 0) by (rewrite Nat2Z.inj_mul, Z.mul_comm; apply Z.mod_mul; lia).
  rewrite Hmod. cbn [nz Z.eqb negb]. rewrite <- (Nat2Z.inj_mul (p * R) L).
  pose proof (div_round_up_spec (Z.of_nat L) 64) as Hbl. unfold BITS_TO_LONGS in *.
  assert (HL : Z.of_nat L ≤ Z.of_nat (p * R * L)) by nia.
  rewrite (u32_small (DIV_ROUND_UP (Z.of_nat L) 64 * 8)) by lia.
  rewrite (u32_small (Z.of_nat (p * R * L))) by lia. rewrite Nat2Z.id.
  cbn [add_smeta_page]. rewrite go_pl0, go_size0, Z.mul_1_l.
  rewrite (u32_small (sizeof_line_smeta + _)) by (unfold sizeof_line_smeta in *; nia).
  rewrite (u32_small (Z.of_nat p * 4096)) by nia.
  rewrite (proj2 (Z.ltb_ge _ _)) by (unfold PAGE_SIZE; lia). cbn [mbind option_bind].
  destruct (add_emeta_ok (S (p * R * L)) (DIV_ROUND_UP (Z.of_nat L) 64 * 8) 1) as (e & Ee & He & Hfit); [lia|nia|done|].
  change (Z.of_nat 1) with 1 in Ee. rewrite Ee. cbn [mbind option_bind].
  assert (Hpe : Z.of_nat (p * e) ≤ Z.of_nat (p * L)) by nia.
  replace (Z.of_nat e * Z.of_nat p) with (Z.of_nat (p * e)) by lia. rewrite Z.mul_1_l.
  rewrite (u32_small (Z.of_nat p)), (u32_small (Z.of_nat (p * e))), (u32_small (Z.of_nat L - Z.of_nat e)) by nia.
  rewrite (u32_small (Z.of_nat (p * e) * 4096)), (u32_small (Z.of_nat p + Z.of_nat (p * e))) by nia.
  set (nb := DIV_ROUND_UP (Z.of_nat p + Z.of_nat (p * e)) (Z.of_nat (p * R))).
  assert (Hpr : 0 < Z.of_nat (p * R)) by nia.
  assert (Hnb : 0 ≤ nb ≤ DIV_ROUND_UP (Z.of_nat (p + p * L)) (Z.of_nat (p * R))).
  { split; [apply div_round_up_nonneg; lia|]. apply div_round_up_mono; lia. }
  pose proof (div_round_up_spec (Z.of_nat p + Z.of_nat (p * e)) (Z.of_nat (p * R)) Hpr) as Hup. fold nb in Hup.
  rewrite (u32_small (1 + nb)) by lia. rewrite (proj2 (Z.ltb_ge _ _)) by lia.
  eexists _, e. split; [done|]. clear Hgeo Hbl go_emeta0 Hfit Ee go_smeta0.
  split; cbn; try lia; nia.
Qed.
End geometry.

(** ** LUNs

    Position [i] of a line is LUN [i] of the stripe. *)

Section luns.
Context (geo : nvm_geo) (luns : list (Z * Z)).
Context (Hch : 0 < nr_chnls geo) (Hlun : 0 < luns_per_chnl geo) (Hnr : nr_luns geo = nr_chnls geo * luns_per_chnl geo).
(** The LUNs of the target as the core lists them: channel by channel. *)
Context (Hluns : ∀ ch l, 0 ≤ ch < nr_chnls geo → 0 ≤ l < luns_per_chnl geo → rd luns (l + ch * luns_per_chnl geo) = Some (ch, l)).

Lemma luns_loop_spec n i :
  0 ≤ i → i + Z.of_nat n ≤ nr_luns geo →
  ∃ ls, luns_loop n geo luns i = Some ls ∧ length ls = n ∧
    ∀ k : nat, (k < n)%nat → ∃ l, ls !! k = Some l ∧ pblk_ppa_to_pos geo l = i + Z.of_nat k.
Proof using Hch Hluns Hlun Hnr.
  revert i. induction n as [|n IH]; intros i Hi Hn; cbn [luns_loop].
  { exists []. split; [done|]. split; [done|]. intros k Hk. lia. }
  pose proof (Z.mod_pos_bound i (nr_chnls geo) Hch). pose proof (Z.div_mod i (nr_chnls geo)).
  rewrite Hluns; [|lia|].
  2:{ split; [apply Z.div_pos; lia|]. apply Z.div_lt_upper_bound; lia. }
  cbn [mbind option_bind]. destruct (IH (i + 1)) as (ls & E & Hl & Hk); [lia|lia|]. rewrite E. cbn [mbind option_bind].
  eexists. split; [done|]. split; [simpl; lia|]. intros [|k] Hlt.
  - eexists. split; [done|]. unfold pblk_ppa_to_pos. simpl. lia.
  - destruct (Hk k) as (l & H1 & H2); [lia|]. exists l. split; [done|]. lia.
Qed.

Lemma luns_init_ok :
  ∃ ls, pblk_luns_init geo luns = Some (inr ls) ∧ length ls = Z.to_nat (nr_luns geo) ∧
    ∀ k : nat, Z.of_nat k < nr_luns geo → ∃ l, ls !! k = Some l ∧ pblk_ppa_to_pos geo l = Z.of_nat k.
Proof using Hch Hluns Hlun Hnr.
  unfold pblk_luns_init. rewrite (proj2 (Z.ltb_ge _ _)) by lia.
  destruct (luns_loop_spec (Z.to_nat (nr_luns geo)) 0) as (ls & E & Hl & Hk); [lia|lia|].
  exists ls. rewrite E. split; [done|]. split; [done|]. intros k Hlt. destruct (Hk k) as (l & H1 & H2); [lia|].
  exists l. by rewrite H2.
Qed.
End luns.

(** ** Lines *)

(** The bad blocks of line [id] by the tables of the LUNs. *)
Definition bad_of (bb : list (list Z)) (id : Z) : list bool :=
  (λ t, negb (default 0 (rd t id) =? NVM_BLK_T_FREE)) <$> bb.

(** *** The array of lines *)

Lemma rd_app_last {A} (l : list A) x : rd (l ++ [x]) (Z.of_nat (length l)) = Some x.
Proof. apply rd_Some. rewrite Nat2Z.id. split; [lia|]. rewrite lookup_app_r, Nat.sub_diag by lia. done. Qed.

Lemma rd_app_inv {A} (l : list A) x j y : rd (l ++ [x]) j = Some y → rd l j = Some y ∨ j = Z.of_nat (length l) ∧ y = x.
Proof.
  intros [Hj H]%rd_Some. apply lookup_app_Some in H as [H|[Hl H]]; [left; by apply rd_Some|].
  apply list_lookup_singleton_Some in H as [H <-]. right. split; [lia|done].
Qed.

Lemma links_append st ln : links_ok st → ln_link ln = None → links_ok (st <| lines := lines st ++ [ln] |>).
Proof.
  intros [H1 H2] Hl. split; [|done]. intros h j. change (lists (st <| lines := _ |>)) with (lists st).
  rewrite H1. change (lines (st <| lines := _ |>)) with (lines st ++ [ln]). split.
  - intros (x & [Hj Hx]%rd_Some & E). exists x. split; [|done]. apply rd_Some. split; [done|]. by apply lookup_app_l_Some.
  - intros (x & [Hx|[_ ->]]%rd_app_inv & E); [by exists x|congruence].
Qed.

Lemma lsum_app f l1 l2 : lsum f (l1 ++ l2) = lsum f l1 + lsum f l2.
Proof. induction l1 as [|x l1 IH]; simpl; [done|]. rewrite IH. lia. Qed.

(** A line is added at the end of the array and to the list [h]. *)
Lemma add_line_spec st ln h :
  links_ok st → ln_link ln = None →
  ∃ st', list_add_tail (st <| lines := lines st ++ [ln] |>) (Z.of_nat (length (lines st))) h = Some st' ∧ links_ok st' ∧
    st' = st <| lines := lines st ++ [ln <| ln_link := Some h |>] |>
             <| lists := <[h := lists st h ++ [Z.of_nat (length (lines st))]]> (lists st) |>.
Proof.
  intros Hk Hl. set (s := st <| lines := lines st ++ [ln] |>).
  assert (Hi : rd (lines s) (Z.of_nat (length (lines st))) = Some ln) by (by apply rd_app_last).
  eexists. split; [by apply list_add_tail_eq|]. split; [apply links_add; [by apply links_append|done|done]|].
  unfold set_line, s. cbn. rewrite Nat2Z.id, insert_app_r_alt, Nat.sub_diag by lia. done.
Qed.
Section lines.
Context (geo : nvm_geo) (lm : pblk_line_meta) (p L R e : nat) (Hlm : lm_ok lm p L R e).
Context (luns : list (Z * Z)) (bb : list (list Z)) (N : nat).
Context (Hpos : ∀ k : nat, (k < L)%nat → ∃ l, luns !! k = Some l ∧ pblk_ppa_to_pos geo l = Z.of_nat k).
Context (Hbb : length bb = L) (Htab : ∀ t, t ∈ bb → (N ≤ length t)%nat).

Lemma bb_line_spec n i blk cnt (id : nat) :
  (i + n = L)%nat → (id < N)%nat → length blk = L → drop i blk = replicate n false →
  pblk_bb_line n geo luns bb (Z.of_nat id) (Z.of_nat i) blk cnt =
    Some (take i blk ++ drop i (bad_of bb (Z.of_nat id)), cnt + Z.of_nat n - zeros (drop i (bad_of bb (Z.of_nat id)))).
Proof using Hpos Hbb Htab.
  revert i blk cnt. induction n as [|n IH]; intros i blk cnt Hi Hid Hb Hd; cbn [pblk_bb_line].
  { rewrite !(drop_ge (bad_of _ _)) by (unfold bad_of; rewrite length_fmap; lia).
    rewrite take_ge, app_nil_r, zeros_nil by lia. do 2 f_equal. lia. }
  destruct (Hpos i) as (l & Hl & Hp); [lia|]. destruct (lookup_lt_is_Some_2 bb i) as [t Ht]; [lia|].
  pose proof (Htab t (list_elem_of_lookup_2 _ _ _ Ht)) as Hlt. destruct (rd_is_Some t (Z.of_nat id)) as [s Hs]; [lia|].
  rewrite (proj2 (rd_Some luns (Z.of_nat i) l)) by (rewrite Nat2Z.id; split; [lia|done]). cbn [mbind option_bind].
  rewrite (proj2 (rd_Some bb (Z.of_nat i) t)) by (rewrite Nat2Z.id; split; [lia|done]). cbn [mbind option_bind].
  rewrite Hs. cbn [mbind option_bind].
  assert (Hbad : bad_of bb (Z.of_nat id) !! i = Some (negb (s =? NVM_BLK_T_FREE))).
  { unfold bad_of. rewrite list_lookup_fmap, Ht. simpl. by rewrite Hs. }
  assert (Hbi : blk !! i = Some false).
  { replace i with (i + 0)%nat by lia. rewrite <- lookup_drop, Hd. done. }
  rewrite (drop_S (bad_of _ _) _ i Hbad), zeros_cons. replace (Z.of_nat i + 1) with (Z.of_nat (S i)) by lia.
  assert (Hd' : drop (S i) blk = replicate n false) by (rewrite (drop_S blk false i Hbi) in Hd; simpl in Hd; by injection Hd).
  destruct (s =? NVM_BLK_T_FREE); cbn [negb].
  - rewrite (IH (S i)) by (done || lia). rewrite (take_S_r blk i false Hbi), <- app_assoc. do 2 f_equal. lia.
  - rewrite Hp. rewrite wr_in_range by lia. cbn [mbind option_bind]. rewrite Nat2Z.id.
    rewrite (IH (S i)).
    2-5: rewrite ?length_insert, ?drop_insert_lt by lia; done || lia.
    rewrite (take_S_r _ i true) by (apply list_lookup_insert_eq; lia). rewrite take_insert_ge, <- app_assoc by lia. do 2 f_equal. lia.
Qed.

(** Lines with enough good blocks among the first [n]. *)
Definition good_lines (n : nat) : nat :=
  length (filter (λ id : nat, min_blk_line lm ≤ zeros (bad_of bb (Z.of_nat id))) (seq 0 n)).

Lemma good_lines_S n :
  good_lines (S n) = (good_lines n + if decide (min_blk_line lm ≤ zeros (bad_of bb (Z.of_nat n)))%Z then 1 else 0)%nat.
Proof using.
  unfold good_lines. rewrite seq_S, filter_app, length_app, filter_cons. cbn. by case_decide.
Qed.

(** What the loop makes of a line. *)
Definition made (ln : pblk_line) : Prop :=
  length (blk_bitmap ln) = L ∧ gc_group ln = PBLK_LINEGC_NONE ∧ ln_meta ln = None ∧ vsc ln = EMPTY_ENTRY ∧ pstream ln = 0 ∧
  (ln_state ln = PBLK_LINESTATE_FREE ∧ ln_link ln = Some free_list ∧ blk_in_line ln = zeros (blk_bitmap ln) ∧
     min_blk_line lm ≤ zeros (blk_bitmap ln) ∨
   ln_state ln = PBLK_LINESTATE_BAD ∧ ln_link ln = Some bad_list).

Record built (st0 st : pblk) (i : nat) (n : Z) : Prop := {
  bl_len : length (lines st) = i;
  bl_line : ∀ j ln, rd (lines st) j = Some ln → made ln;
  bl_links : links_ok st;
  bl_free : nr_free_lines st = lsum is_free (lines st);
  bl_blks : n = lsum free_blks (lines st);
  bl_list : Z.of_nat (length (lists st free_list)) = nr_free_lines st;
  bl_good : nr_free_lines st = Z.of_nat (good_lines i);
  bl_same : st = st0 <| lines := lines st |> <| lists := lists st |> <| nr_free_lines := nr_free_lines st |>
}.


Lemma bad_of_length id : length (bad_of bb id) = L.
Proof using Hbb. unfold bad_of. by rewrite length_fmap. Qed.

(** One more line, in either list. *)
Lemma built_add st0 st i n ln h st' :
  built st0 st i n → made (ln <| ln_link := Some h |>) → links_ok st' →
  st' = st <| lines := lines st ++ [ln <| ln_link := Some h |>] |>
           <| lists := <[h := lists st h ++ [Z.of_nat (length (lines st))]]> (lists st) |>
           <| nr_free_lines := nr_free_lines st + is_free ln |> →
  (h = free_list ∧ is_free ln = 1 ∨ h = bad_list ∧ is_free ln = 0) →
  Z.of_nat (good_lines (S i)) = Z.of_nat (good_lines i) + is_free ln →
  built st0 st' (S i) (n + free_blks ln).
Proof using.
  clear Hbb Htab Hpos Hlm. intros [] Hm Hk E Hh Hg.
  assert (El : lines st' = lines st ++ [ln <| ln_link := Some h |>]) by (by rewrite E).
  assert (Els : lists st' = <[h := lists st h ++ [Z.of_nat (length (lines st))]]> (lists st)) by (by rewrite E).
  assert (Ef : nr_free_lines st' = nr_free_lines st + is_free ln) by (by rewrite E).
  split; rewrite ?El, ?Els, ?Ef, ?lsum_app; try done.
  - rewrite length_app. simpl. lia.
  - intros j lj [Hj|[_ ->]]%rd_app_inv; [by apply (bl_line0 j)|done].
  - rewrite bl_free0. simpl. change (is_free (ln <| ln_link := Some h |>)) with (is_free ln). lia.
  - rewrite bl_blks0. simpl. change (free_blks (ln <| ln_link := Some h |>)) with (free_blks ln). lia.
  - destruct Hh as [[-> F]|[-> F]]; rewrite F.
    + rewrite fn_lookup_insert, length_app. simpl. lia.
    + rewrite fn_lookup_insert_ne by done. lia.
  - lia.
  - rewrite E, bl_same0 at 1. done.
Qed.

Lemma lines_loop_spec n st0 st i nb :
  (i + n = N)%nat → Z.of_nat N < 2 ^ 31 → built st0 st i nb →
  ∃ st' nb', lines_loop n geo lm luns bb st (Z.of_nat i) nb = Some (inr (st', nb')) ∧ built st0 st' N nb'.
Proof using Hlm Hpos Hbb Htab.
  revert st i nb. induction n as [|n IH]; intros st i nb Hi HN Hb; cbn [lines_loop].
  { exists st, nb. split; [done|]. by replace N with i by lia. }
  pose proof (lm_blk_per_line _ _ _ _ _ Hlm) as HL. rewrite HL, Nat2Z.id.
  pose proof (bb_line_spec L 0 (replicate L false) 0 i) as Ebb. rewrite !drop_0 in Ebb. change (Z.of_nat 0) with 0 in Ebb.
  rewrite Ebb by (rewrite ?length_replicate; done || lia). clear Ebb. cbn [mbind option_bind]. rewrite take_0, app_nil_l.
  set (b := bad_of bb (Z.of_nat i)). assert (Hlb : length b = L) by apply bad_of_length.
  pose proof (zeros_bounds b) as Hz. rewrite (proj2 (Z.ltb_ge _ 0)), (proj2 (Z.ltb_ge (Z.of_nat L) _)) by lia. cbn [orb].
  replace (Z.of_nat L - (0 + Z.of_nat L - zeros b)) with (zeros b) by lia.
  pose proof (good_lines_S i) as Hgs. fold b in Hgs. pose proof (bl_len _ _ _ _ Hb) as Hlen.
  replace (Z.of_nat i + 1) with (Z.of_nat (S i)) by lia.
  destruct (Z.ltb_spec (zeros b) (min_blk_line lm)) as [Hlt|Hge].
  - rewrite decide_False in Hgs by lia.
    destruct (add_line_spec st (init_line L PBLK_LINESTATE_BAD b 0) bad_list) as (s1 & E1 & Hk1 & Es); [apply Hb|done|].
    rewrite Hlen in E1. rewrite E1. cbn [mbind option_bind].
    replace nb with (nb + free_blks (init_line L PBLK_LINESTATE_BAD b 0)) by (unfold free_blks, is_free; simpl; lia).
    apply IH; [lia|done|]. apply (built_add st0 st i nb _ bad_list); try done.
    + unfold made. simpl. auto 10.
    + rewrite Es. unfold is_free. simpl. rewrite Z.add_0_r. by destruct st.
    + by right.
    + unfold is_free. simpl. lia.
  - rewrite decide_True in Hgs by lia.
    set (s0 := st <| nr_free_lines := nr_free_lines st + 1 |>).
    assert (Hnf : 0 ≤ nr_free_lines st < 2 ^ 31 - 1).
    { rewrite (bl_good _ _ _ _ Hb). pose proof (length_filter (λ id : nat, min_blk_line lm ≤ zeros (bad_of bb (Z.of_nat id))) (seq 0 i)) as Hf.
      rewrite length_seq in Hf. unfold good_lines. lia. }
    rewrite s32_small by lia.
    destruct (add_line_spec s0 (init_line L PBLK_LINESTATE_FREE b (zeros b)) free_list) as (s1 & E1 & Hk1 & Es).
    { by apply (links_same st); [..|apply Hb]. }
    { done. }
    change (lines s0) with (lines st) in *. rewrite Hlen in E1. change (s0 <| lines := _ |>) with
      (st <| lines := lines st ++ [init_line L PBLK_LINESTATE_FREE b (zeros b)] |> <| nr_free_lines := nr_free_lines st + 1 |>) in E1.
    rewrite E1. cbn [mbind option_bind].
    replace (nb + zeros b) with (nb + free_blks (init_line L PBLK_LINESTATE_FREE b (zeros b))) by (unfold free_blks, is_free; simpl; lia).
    apply IH; [lia|done|]. apply (built_add st0 st i nb _ free_list); try done.
    + unfold made. simpl. auto 10.
    + by left.
    + unfold is_free. simpl. lia.
Qed.
End lines.

(** ** The device before its streams have lines *)

Lemma lsum_zero f ls : (∀ ln, ln ∈ ls → f ln = 0) → lsum f ls = 0.
Proof.
  induction ls as [|x ls IH]; intros H; simpl; [done|].
  rewrite (H x) by left. apply IH. intros ln Hln. apply H. by right.
Qed.

Section device.
Context (get_count_order : Z → Z).
Context (Horder : ∀ n, 0 < n → 0 ≤ get_count_order n ∧ 2 ^ (get_count_order n - 1) < n ≤ 2 ^ get_count_order n).
Context (lm : pblk_line_meta) (p L R e : nat) (Hlm : lm_ok lm p L R e).
Context (bb : list (list Z)) (g : pblk_gc) (junk : list (option Z)).

(** The device [lines_loop] starts with. *)
Definition start : pblk := lines_start (Z.to_nat MAX_PSTREAM) junk (pblk_zero g).

Lemma start_built : built lm L bb start start 0 0.
Proof using.
  assert (Hno : ∀ i ln, rd (lines start) i ≠ Some ln) by (intros i ln Hi; apply rd_lt in Hi; simpl in Hi; lia).
  split; try done.
  - intros j ln Hj. by destruct (Hno j ln).
  - split; [|intros h; apply NoDup_nil_2]. intros h i. split; [by intros ?%not_elem_of_nil|].
    intros (ln & Hi & _). by destruct (Hno i ln).
Qed.

Definition device (st : pblk) (nb : Z) : pblk :=
  streams_init (limiter_init get_count_order lm (pblk_set_provision lm st nb).1 (Z.to_nat MAX_PSTREAM)).

Lemma count_order_32 : Z.shiftl 1 (get_count_order RWB_BUFFER) = 2 ^ 5.
Proof using Horder.
  unfold RWB_BUFFER. destruct (Horder 32 ltac:(lia)) as (H0 & H1 & H2).
  assert (get_count_order 32 = 5) as ->; [|done].
  assert (get_count_order 32 - 1 < 5) by (apply (Z.pow_lt_mono_r_iff 2); lia).
  assert (5 ≤ get_count_order 32) by (apply (Z.pow_le_mono_r_iff 2); lia). lia.
Qed.

Lemma device_fields st nb :
  0 ≤ nb < 2 ^ 31 → Z.of_nat L < 2 ^ 31 →
  ∃ r rbs, rl_ok r ∧ free_blocks r = nb ∧ length rbs = Z.to_nat MAX_PSTREAM ∧
    device st nb = st <| rl := r |> <| rb_rl := rbs |> <| map_type := replicate (Z.to_nat MAX_PSTREAM) SECTOR_MAP |>
                      <| invalid_line := replicate (Z.to_nat MAX_PSTREAM) (-1) |> <| nr_erase := replicate (Z.to_nat MAX_PSTREAM) 0 |>.
Proof using Horder Hlm.
  intros Hnb HL. unfold device, pblk_set_provision, limiter_init. cbn [fst]. rewrite count_order_32.
  set (r0 := rl st <| total_blocks := nb |> <| free_blocks := nb |>).
  pose proof (pblk_rl_init_ok get_count_order r0 (blk_per_line lm) 5 (Z.to_nat MAX_PSTREAM) Horder) as Hr.
  change (rl (st <| rl := r0 |>)) with r0.
  destruct (pblk_rl_init get_count_order r0 (blk_per_line lm) (2 ^ 5) (Z.to_nat MAX_PSTREAM)) as [r rbs].
  destruct Hr as (Hok & _ & Hf & Hl & _); [lia|rewrite (lm_blk_per_line _ _ _ _ _ Hlm); lia|done|].
  exists r, rbs. split; [done|]. split; [by rewrite Hf|]. split; [done|]. by destruct st.
Qed.

Lemma made_ok st j ln :
  made lm L ln → wb st = [] → gc_rqs st = [] → gc_reader_wq st = [] → (0 < length (map_type st))%nat →
  line_ok lm p L R None st j ln.
Proof using.
  intros (Hb & Hg & Hm & Hv & Hp & Hs) E1 E2 E3 Hmt. split.
  - unfold shape. destruct Hs as [(-> & ? & _)|(-> & ?)]; done.
  - unfold refs. rewrite E1, E2, E3. by destruct Hs as [(-> & _)|(-> & _)].
  - unfold blocks. split; [done|]. split; [|rewrite Hp; lia]. intros Hbad. destruct Hs as [(? & ? & ?)|(? & _)]; [done|congruence].
Qed.

(** Before the streams have lines, the invariant holds. *)
Lemma device_inv st N nb :
  built lm L bb start st N nb → length junk = Z.to_nat MAX_PSTREAM → (Z.of_nat N + 1) * (Z.of_nat L + 1) < 2 ^ 31 →
  inv lm p L R None (device st nb) ∧ alive None (device st nb) ∧ lists (device st nb) free_list = lists st free_list ∧
  data_line (device st nb) = replicate (Z.to_nat MAX_PSTREAM) None ∧
  meta_bitmap (device st nb) = replicate (Z.to_nat PBLK_DATA_LINES) false.
Proof using Horder Hlm.
  intros Hb Hj Hsz. pose proof Hb as [].
  assert (Hfb : ∀ ln, ln ∈ lines st → made lm L ln).
  { intros ln [k Hk]%list_elem_of_lookup_1. apply (bl_line0 (Z.of_nat k)), rd_Some. rewrite Nat2Z.id. split; [lia|done]. }
  assert (Hnb : 0 ≤ nb < 2 ^ 31).
  { rewrite bl_blks0. pose proof (lsum_bounds free_blks (lines st) (Z.of_nat L)) as B. rewrite bl_len0 in B.
    assert (0 ≤ lsum free_blks (lines st) ≤ Z.of_nat L * Z.of_nat N); [|nia]. apply B. intros ln Hln.
    destruct (Hfb ln Hln) as (E1 & _ & _ & _ & _ & Hs). pose proof (zeros_bounds (blk_bitmap ln)).
    unfold free_blks, is_free. destruct Hs as [(-> & _ & -> & _)|(-> & _)]; simpl; lia. }
  destruct (device_fields st nb Hnb) as (r & rbs & Hrl & Hfr & Hrb & Ed); [nia|].
  assert (F : wb st = [] ∧ gc_rqs st = [] ∧ gc_reader_wq st = [] ∧ gc_target st = 0 ∧ inflight_gc st = 0 ∧
    data_line st = replicate (Z.to_nat MAX_PSTREAM) None ∧ data_next st = junk ∧
    meta_bitmap st = replicate (Z.to_nat PBLK_DATA_LINES) false ∧ emeta_mem st = replicate (Z.to_nat PBLK_DATA_LINES) 0 ∧
    emeta_sync st = replicate (Z.to_nat PBLK_DATA_LINES) 0 ∧ warns st = 0%nat) by (rewrite bl_same0; done).
  destruct F as (F1 & F2 & F3 & F4 & F5 & F6 & F7 & F8 & F9 & F10 & F11).
  rewrite Ed. clear Ed bl_same0. cbn.
  split; [|split; [|by rewrite F6, F8]].
  2:{ intros i ln Hi Hg _. destruct (bl_line0 i ln Hi) as (_ & _ & _ & _ & _ & [[? _]|[? _]]); simpl in *; congruence. }
  split; cbn; rewrite ?F1, ?F2, ?F3.
  - intros i ln Hi. apply made_ok; try done; [by apply (bl_line0 i)|]. simpl. unfold MAX_PSTREAM. simpl. lia.
  - by apply (links_same st).
  - split; cbn; try done.
    + rewrite F4. symmetry. apply lsum_zero. intros ln Hln. destruct (Hfb ln Hln) as (_ & _ & _ & _ & _ & [[E _]|[E _]]);
        unfold is_target; by rewrite E.
    + by rewrite Hfr.
    + rewrite F5, F3. symmetry. rewrite Z.add_0_r. apply lsum_zero. intros ln Hln.
      destruct (Hfb ln Hln) as (_ & _ & _ & _ & _ & [(_ & E & _)|(_ & E)]); unfold is_queued; by rewrite E.
    + by rewrite F5.
    + by rewrite bl_len0.
  - assert (Hno : ∀ n i, rd (replicate (Z.to_nat MAX_PSTREAM) (None : option Z)) n ≠ Some (Some i)).
    { intros n i [_ [? _]%lookup_replicate]%rd_Some. done. }
    split; cbn; unfold next_of; cbn; rewrite ?F6, ?F7.
    + intros n i H. by destruct (Hno n i).
    + intros n i _ [[c Hc] _]. by destruct (Hno n c).
    + intros n1 n2 i H. by destruct (Hno n1 i).
    + intros n1 n2 i [[c Hc] _]. by destruct (Hno n1 c).
    + rewrite !length_replicate, Hrb, Hj. unfold MAX_PSTREAM. lia.
  - split; cbn; [|by rewrite F8, F9, F10]. intros i j li lj k Hi _ Hk. destruct (bl_line0 i li Hi) as (_ & _ & E & _). congruence.
  - intros j. rewrite !count_nil. lia.
  - done.
Qed.
End device.

(** ** The whole bring-up *)

(** The drive: its geometry, the LUNs as the core lists them, a table of bad blocks for each LUN. *)
Record drive_ok (geo : nvm_geo) (max_phys_sects : Z) (luns : list (Z * Z)) (bb : list (list Z)) (p L R : nat) : Prop := {
  dr_geo : geo_ok geo max_phys_sects p L R;
  dr_chnls : ∃ k, 0 ≤ k ∧ nr_chnls geo = 2 ^ k;
  dr_luns_per : ∃ k, 0 ≤ k ∧ luns_per_chnl geo = 2 ^ k;
  dr_nr_luns : nr_luns geo = nr_chnls geo * luns_per_chnl geo;
  dr_luns : ∀ ch l, 0 ≤ ch < nr_chnls geo → 0 ≤ l < luns_per_chnl geo →
    rd luns (l + ch * luns_per_chnl geo) = Some (ch, l);
  dr_bb : length bb = L ∧ ∀ t, t ∈ bb → blks_per_lun geo ≤ Z.of_nat (length t);
  dr_int : (blks_per_lun geo + 1) * (Z.of_nat L + 1) < 2 ^ 31
}.

Lemma lines_init_steps geo max luns bb nr_rwb junk st0 lm st nb :
  lines_geometry geo max = Some (inr lm) →
  lines_loop (Z.to_nat (blks_per_lun geo)) geo lm luns bb (lines_start nr_rwb junk st0) 0 0 = Some (inr (st, nb)) →
  pblk_lines_init geo max luns bb nr_rwb junk st0 =
    Some (inr (lm, (pblk_set_provision lm st nb).1, (pblk_set_provision lm st nb).2)).
Proof.
  intros E1 E2. unfold pblk_lines_init. rewrite E1. cbn [mbind option_bind]. rewrite E2. cbn [mbind option_bind].
  by destruct (pblk_set_provision lm st nb).
Qed.

Lemma bring_up_steps nr_rwb get_count_order geo max luns bb junk g env ls lm st capacity st' :
  pblk_luns_init geo luns = Some (inr ls) →
  pblk_lines_init geo max ls bb nr_rwb junk (pblk_zero g) = Some (inr (lm, st, capacity)) →
  core_init get_count_order geo = true →
  configure_loop nr_rwb lm env (streams_init (limiter_init get_count_order lm st nr_rwb)) 0 = Some (inr st') →
  pblk_bring_up get_count_order nr_rwb geo max luns bb junk g env = Some (inr (lm, st', capacity)).
Proof.
  intros E1 E2 E3 E4. unfold pblk_bring_up, pblk_lines_configure. rewrite E1. cbn [mbind option_bind]. rewrite E2. cbn [mbind option_bind].
  rewrite E3. cbn [negb]. by rewrite E4.
Qed.

Lemma core_init_ok get_count_order geo :
  (∀ n, 0 < n → 0 ≤ get_count_order n ∧ 2 ^ (get_count_order n - 1) < n ≤ 2 ^ get_count_order n) →
  (∃ k, 0 ≤ k ∧ nr_chnls geo = 2 ^ k) → (∃ k, 0 ≤ k ∧ luns_per_chnl geo = 2 ^ k) → core_init get_count_order geo = true.
Proof.
  intros Horder (c & Hc & Ec) (l & Hl & El).
  assert (Ho : ∀ k, 0 ≤ k → Z.shiftl 1 (get_count_order (2 ^ k)) = 2 ^ k).
  { intros k Hk. destruct (Horder (2 ^ k)) as (H1 & H2 & H3); [by apply Z.pow_pos_nonneg|].
    apply Z.pow_lt_mono_r_iff in H2; [|lia..]. apply Z.pow_le_mono_r_iff in H3; [|lia..].
    rewrite Z.shiftl_1_l. f_equal. lia. }
  unfold core_init, pblk_set_ppaf. by rewrite Ec, El, !Ho, !Z.eqb_refl.
Qed.

Lemma pblk_init_spec get_count_order geo max luns bb junk g env p L R :
  (∀ n, 0 < n → 0 ≤ get_count_order n ∧ 2 ^ (get_count_order n - 1) < n ≤ 2 ^ get_count_order n) →
  drive_ok geo max luns bb p L R → length junk = Z.to_nat MAX_PSTREAM → env_ok env →
  ∃ lm e, lines_geometry geo max = Some (inr lm) ∧ lm_ok lm p L R e ∧
    ((2 * Z.to_nat MAX_PSTREAM ≤ good_lines lm bb (Z.to_nat (blks_per_lun geo)))%nat →
     ∃ st capacity, pblk_init get_count_order geo max luns bb junk g env = Some (inr (lm, st, capacity)) ∧
       inv lm p L R None st ∧ alive None st ∧ ∀ k, 0 ≤ k < MAX_PSTREAM → ready st k).
Proof.
  intros Horder [] Hj He. destruct (lines_geometry_ok geo max p L R dr_geo0) as (lm & e & Eg & Hlm).
  exists lm, e. split; [done|]. split; [done|]. intros Hgood. destruct dr_bb0 as [Hbb Htab].
  destruct (luns_init_ok geo luns) as (ls & El & Hl & Hpos); try done.
  { destruct dr_chnls0 as (k & ? & ->). by apply Z.pow_pos_nonneg. }
  { destruct dr_luns_per0 as (k & ? & ->). by apply Z.pow_pos_nonneg. }
  pose proof (go_luns _ _ _ _ _ dr_geo0) as HL. pose proof (go_lines _ _ _ _ _ dr_geo0) as Hn.
  set (N := Z.to_nat (blks_per_lun geo)) in *.
  destruct (lines_loop_spec geo lm p L R e Hlm ls bb N) with (n := N) (st0 := start g junk) (st := start g junk) (i := 0%nat) (nb := 0)
    as (st & nb & Eloop & Hb); try done.
  { intros k Hk. apply Hpos. lia. }
  { intros t Ht. specialize (Htab t Ht). lia. }
  { lia. }
  { apply start_built. }
  destruct (device_inv get_count_order Horder lm p L R e Hlm bb g junk st N nb Hb Hj) as (Hinv & Hal & Hfl & Hdl & Hmb); [lia|].
  destruct (configure_inv lm p L R e Hlm (Z.to_nat MAX_PSTREAM) env (device get_count_order lm st nb) 0)
    as (st' & Ec & Hinv' & Hal' & _ & Hr); try done.
  { rewrite Hdl, length_replicate. lia. }
  { rewrite Hfl. pose proof (bl_list _ _ _ _ _ _ _ Hb) as B1. pose proof (bl_good _ _ _ _ _ _ _ Hb) as B2. lia. }
  { rewrite Hmb. done. }
  { intros k Hk. lia. }
  change (Z.of_nat 0) with 0 in Eloop.
  exists st', (pblk_set_provision lm st nb).2. split; [|split; [done|split; [done|]]].
  - unfold device in Ec. unfold start in Eloop. unfold pblk_init.
    apply (bring_up_steps _ _ geo max luns bb junk g env ls lm _ _ st' El (lines_init_steps _ _ _ _ _ _ _ _ _ _ Eg Eloop)
             (core_init_ok _ _ Horder dr_chnls0 dr_luns_per0) Ec).
  - intros k Hk. apply Hr. unfold MAX_PSTREAM in *. lia.
Qed.
