(* ===== verification/PblkLineThms.v ===== *)
(** * Lines of pblk: what the device does from bring-up on

    The events that change lines, as they may follow one another: pages of a stream are
    mapped, the map is updated, sectors are invalidated, metadata are written and closes the lines, the
    collector picks, reads, prepares and finishes lines.  Every event that may happen
    goes through and keeps the invariant. *)

From stdpp Require Import base list functions.
From S2P Require Import Prelude Bitmap RateLimiter PblkLine PblkLineInv PblkLineRun PblkLineGc PblkLineWrite.
From S2P Require Import PblkAddr PblkInit PblkInitInv PblkInitLines.

Open Scope Z_scope.

Section events.
Context (lm : pblk_line_meta) (p L R e : nat) (Hlm : lm_ok lm p L R e).

Local Notation INV := (inv lm p L R).
Local Notation OK := (line_ok lm p L R).

(** ** Single events *)

(** An address that may be invalidated: in a line that holds data, or that is gone. *)
Definition written (ln : pblk_line) : Prop :=
  match ln_state ln with
  | PBLK_LINESTATE_OPEN => is_Some (ln_meta ln)
  | PBLK_LINESTATE_BAD | PBLK_LINESTATE_CORRUPT => False
  | _ => True
  end.

Lemma invalidate_inv x st i ln paddr :
  INV x st → alive None st → rd (lines st) i = Some ln → written ln → 0 ≤ paddr < sec_per_line lm →
  ∃ st', __pblk_map_invalidate lm st i paddr = Some st' ∧ INV x st' ∧ alive None st'.
Proof using Hlm.
  intros Hinv Hal Hi Hw Hp. unfold written in Hw.
  assert (Hcase : gone ln = true ∨ ln_state ln = PBLK_LINESTATE_OPEN ∨ ln_state ln = PBLK_LINESTATE_CLOSED)
    by (unfold gone; destruct (ln_state ln); auto; done).
  destruct Hcase as [Hg|[Ho|Hc]].
  - exists st. split; [|done]. unfold __pblk_map_invalidate. rewrite Hi. cbn [mbind option_bind]. by rewrite Hg.
  - rewrite Ho in Hw.
    destruct (map_pad_inv lm p L R e Hlm x st i ln paddr Hinv Hi Ho Hw Hp) as (st' & E & Hinv' & [(l' & El & Ho' & _) _]).
    exists st'. split; [done|]. split; [done|]. eapply (alive_touch None st st' i ln l'); try done. by rewrite Ho'.
  - pose proof (in_line _ _ _ _ _ _ Hinv i ln Hi) as Hok.
    destruct (counted_closed lm p L R x st i ln Hok (or_introl Hc)) as [b Hb]. pose proof Hb as [].
    destruct (lookup_lt_is_Some_2 b (Z.to_nat paddr)) as [v Hv]; [lia|].
    replace paddr with (Z.of_nat (Z.to_nat paddr)) by lia. destruct v.
    + exists (st <| double_invalidates ::= S |>). split; [|split; [by apply inv_double|done]].
      unfold __pblk_map_invalidate. rewrite Hi. cbn [mbind option_bind]. unfold gone. rewrite Hc.
      simpl bool_decide. cbn [orb]. rewrite ct_inv. cbn [mbind option_bind].
      by rewrite (test_and_set_spec b _ true) by done.
    + destruct (invalidate_closed lm p L R e Hlm x st i ln b (Z.to_nat paddr) Hinv Hi Hc ct_inv Hv) as (ls & E & Hinv').
      eexists. split; [done|]. split; [done|].
      eapply (alive_touch None st _ i ln); [done|done|done|]. unfold regrouped, invalidated. cbn. by rewrite Hc.
Qed.

Lemma sched_meta_inv st nrb valid :
  INV None st → alive None st →
  ∃ st', pblk_sched_meta_io lm st nrb valid true = Some st' ∧ INV None st' ∧ alive None st'.
Proof using Hlm.
  intros Hinv Hal. unfold pblk_sched_meta_io. destruct (lists st (emeta_list nrb)) as [|i ls] eqn:E; [by exists st|].
  destruct (proj1 (lk_mem _ (in_links _ _ _ _ _ _ Hinv) (emeta_list nrb) i)) as (ln & Hi & Hl); [rewrite E; left|].
  pose proof (in_line _ _ _ _ _ _ Hinv i ln Hi) as Hok.
  destruct (emeta_open lm p L R None st i ln nrb Hok Hl) as (Ho & P & c & qe & b & k & mem & sync & Hw).
  destruct (emeta_line lm p L R e Hlm _ _ _ _ _ _ _ _ _ _ nrb Hw Hl) as (_ & _ & _ & Hz1 & Hz2).
  pose proof (wr_open _ _ _ _ _ _ _ _ _ _ _ _ _ _ Hw) as [].
  rewrite Hi. cbn [mbind option_bind]. rewrite op_map. cbn [mbind option_bind].
  unfold bitmap_full. rewrite expand_zeros, <- (zeros_take_drop qe P), Hz1, (proj2 (Z.eqb_neq _ 0)).
  2:{ pose proof (lm_p _ _ _ _ _ Hlm). nia. }
  cbn [negb ensure mbind option_bind]. destruct valid; [|by exists st].
  destruct (submit_meta_inv lm p L R e Hlm None st i ln nrb nrb P c qe b k mem sync Hinv Hi Ho Hl Hw)
    as (st' & l' & P' & c' & E1 & Hinv' & El & Ho' & _).
  exists st'. split; [done|]. split; [done|]. eapply (alive_touch None st st' i ln l'); try done. by rewrite Ho'.
Qed.

(** A page of metadata that was submitted and is not yet on the drive. *)
Definition meta_in_flight (st : pblk) (i : Z) : Prop :=
  ∃ ln k mem sync, rd (lines st) i = Some ln ∧ ln_state ln = PBLK_LINESTATE_OPEN ∧ ln_meta ln = Some k ∧
    rd (emeta_mem st) k = Some mem ∧ rd (emeta_sync st) k = Some sync ∧ sync * sec_size lm < mem.

Lemma meta_done_inv st i :
  INV None st → alive None st → meta_in_flight st i →
  ∃ st', pblk_end_io_write_meta lm st i = Some st' ∧ INV None st' ∧ alive None st'.
Proof using Hlm.
  intros Hinv Hal (ln & k & mem & sync & Hi & Ho & Hk & Hm & Hs & Hlt).
  pose proof (in_line _ _ _ _ _ _ Hinv i ln Hi) as Hok.
  destruct (counted_open lm p L R None st i ln Hok Ho) as (P & c & qe & b & k' & mem' & sync' & Hw); [by rewrite Hk|].
  pose proof Hw as [_ _ [Hk' _] _ Hm' Hs' _ _ _ _ _].
  assert (k' = k) as -> by congruence. assert (mem' = mem) as -> by congruence. assert (sync' = sync) as -> by congruence.
  destruct (end_meta_inv lm p L R e Hlm None st i ln P c qe b k mem sync Hinv Hi Ho eq_refl Hw Hlt)
    as (st' & l' & E & Hinv' & El & Hc).
  exists st'. split; [done|]. split; [done|]. eapply (alive_touch None st st' i ln l'); try done.
  destruct (_ =? _); [by subst l'|]. destruct Hc as [-> _]. by rewrite Ho.
Qed.
End events.

(** ** Events *)

(** What can happen to the lines of a device: a page of stream [nrb] is mapped, with [valid_secs] sectors of
    data; sector [n] of those mapped is entered into the map; metadata are sent with the
    data of a stream, and a page of the metadata of a line arrives; an address is overwritten
    or discarded; the collector runs, its reader takes a line, a line is divided into requests,
    and request [n] ends. *)
Inductive line_event :=
  | MapPage (nrb valid_secs : Z)
  | UpdateMap (n : nat)
  | SendMeta (nrb : Z) (valid_meta_ppa : bool)
  | MetaDone (line : Z)
  | Invalidate (line paddr : Z)
  | GcRun
  | GcRead
  | GcPrepare (maptype : Z → Z) (lba_list : list Z)
  | GcDone (n : nat).

Section step.
Context (lm : pblk_line_meta) (env : line_env).

Definition line_step (st : pblk) (ev : line_event) : option pblk :=
  match ev with
  | MapPage nrb v => fst <$> pblk_map_page_line lm env st nrb v
  | UpdateMap n => l2p_update st n
  | SendMeta nrb valid => pblk_sched_meta_io lm st nrb valid true
  | MetaDone i => pblk_end_io_write_meta lm st i
  | Invalidate i paddr => __pblk_map_invalidate lm st i paddr
  | GcRun => pblk_gc_run st
  | GcRead => fst <$> pblk_gc_read st
  | GcPrepare maptype lbas => pblk_gc_line_prepare_ws lm maptype lbas st true
  | GcDone n => gc_request_done st n
  end.

(** When an event can happen.  A page that fills its line needs a next line and
    a buffer for the metadata of that line; the list read from a line reaches to its
    metadata. *)
Definition may_happen (st : pblk) (ev : line_event) : Prop :=
  match ev with
  | MapPage nrb _ =>
      ∃ i ln, rd (data_line st) nrb = Some (Some i) ∧ rd (lines st) i = Some ln ∧
        (left_msecs ln = min_write_pgs lm →
         pblk_state st = PBLK_STATE_RUNNING ∧ 0 < zeros (meta_bitmap st) ∧ ∃ new, rd (data_next st) nrb = Some (Some new))
  | UpdateMap n => (n < length (wb st))%nat
  | MetaDone i => meta_in_flight lm st i
  | Invalidate i paddr => ∃ ln, rd (lines st) i = Some ln ∧ written ln ∧ 0 ≤ paddr < sec_per_line lm
  | GcPrepare _ lbas => ∀ i wq ln, gc_reader_wq st = i :: wq → rd (lines st) i = Some ln →
      emeta_ssec ln ≤ Z.of_nat (length lbas)
  | GcDone n => (n < length (gc_rqs st))%nat
  | SendMeta _ _ | GcRun | GcRead => True
  end.
End step.

Lemma step_inv lm env p L R e st ev :
  lm_ok lm p L R e → env_ok env → inv lm p L R None st → alive None st → may_happen lm st ev →
  ∃ st', line_step lm env st ev = Some st' ∧ inv lm p L R None st' ∧ alive None st'.
Proof.
  intros Hlm He Hinv Hal Hev. destruct ev; simpl in *.
  - destruct Hev as (i & ln & Hd & Hi & Hsw). rewrite (lm_min_write_pgs _ _ _ _ _ Hlm) in Hsw.
    destruct (map_page_inv lm p L R e Hlm env st nrb i ln valid_secs) as (st' & paddr & E & H1 & H2); try done.
    exists st'. by rewrite E.
  - by apply (l2p_update_inv lm p L R e Hlm).
  - by apply (sched_meta_inv lm p L R e Hlm).
  - by apply (meta_done_inv lm p L R e Hlm).
  - destruct Hev as (ln & Hi & Hw & Hp). by apply (invalidate_inv lm p L R e Hlm None st line ln).
  - by apply (gc_run_inv lm p L R e Hlm).
  - destruct (gc_read_inv lm p L R None st Hinv Hal) as (st' & r & E & H1 & H2). exists st'. by rewrite E.
  - destruct (gc_reader_wq st) as [|i wq] eqn:E.
    { exists st. split; [|done]. unfold pblk_gc_line_prepare_ws. by rewrite E. }
    destruct (wq_line lm p L R None st i wq Hinv E) as (ln & b & Hi & _ & Hb & _).
    destruct (gc_prepare_inv lm p L R e Hlm None st i wq ln b maptype lba_list) as (st' & rqs & E1 & H1 & H2 & _); try done.
    + apply Hb.
    + by apply (Hev i wq).
    + by exists st'.
  - by apply (gc_request_done_inv lm p L R e Hlm).
Qed.

(** ** Reachable states *)

Section reachable.
Context (get_count_order : Z → Z) (geo : nvm_geo) (max_phys_sects : Z) (luns : list (Z * Z)) (bb : list (list Z)).
Context (junk : list (option Z)) (g : pblk_gc) (env : line_env).

(** From a factory bring-up on, one event after the other. *)
Inductive reachable : pblk_line_meta → pblk → Prop :=
  | reach_init lm st capacity :
      pblk_init get_count_order geo max_phys_sects luns bb junk g env = Some (inr (lm, st, capacity)) →
      reachable lm st
  | reach_step lm st ev st' :
      reachable lm st → may_happen lm st ev → line_step lm env st ev = Some st' → reachable lm st'.

(** What the kernel, the drive and the geometry provide: the logarithm rounds up, nothing fails, and every
    stream can get two lines. *)
Record setting (p L R : nat) : Prop := {
  set_order : ∀ n, 0 < n → 0 ≤ get_count_order n ∧ 2 ^ (get_count_order n - 1) < n ≤ 2 ^ get_count_order n;
  set_drive : drive_ok geo max_phys_sects luns bb p L R;
  set_junk : length junk = Z.to_nat MAX_PSTREAM;
  set_env : env_ok env;
  set_good : ∀ lm, lines_geometry geo max_phys_sects = Some (inr lm) →
    (2 * Z.to_nat MAX_PSTREAM ≤ good_lines lm bb (Z.to_nat (blks_per_lun geo)))%nat
}.

Lemma reachable_inv p L R lm st :
  setting p L R → reachable lm st → ∃ e, lm_ok lm p L R e ∧ inv lm p L R None st ∧ alive None st.
Proof using.
  intros [] Hr. induction Hr as [lm st cap E|lm st ev st' _ (e & Hlm & Hinv & Hal) Hev E].
  - destruct (pblk_init_spec get_count_order geo max_phys_sects luns bb junk g env p L R) as (lm' & e & Eg & Hlm & Hi); try done.
    destruct (Hi (set_good0 lm' Eg)) as (st' & cap' & E' & Hinv & Hal & _). rewrite E' in E. injection E as <- <- <-. by exists e.
  - exists e. split; [done|]. destruct (step_inv lm env p L R e st ev) as (s & E' & H1 & H2); try done.
    rewrite E' in E. injection E as <-. done.
Qed.
End reachable.

(** ** Executable runs *)

Section run.
Context (lm : pblk_line_meta) (env : line_env).

Definition may_happen_b (st : pblk) (ev : line_event) : bool :=
  match ev with
  | MapPage nrb _ =>
      match rd (data_line st) nrb with
      | Some (Some i) =>
          match rd (lines st) i with
          | Some ln => negb (left_msecs ln =? min_write_pgs lm) ||
              bool_decide (pblk_state st = PBLK_STATE_RUNNING) && (0 <? zeros (meta_bitmap st)) &&
              match rd (data_next st) nrb with Some (Some _) => true | _ => false end
          | None => false
          end
      | _ => false
      end
  | UpdateMap n => (n <? length (wb st))%nat
  | MetaDone i =>
      match rd (lines st) i with
      | Some ln =>
          bool_decide (ln_state ln = PBLK_LINESTATE_OPEN) &&
          match ln_meta ln with
          | Some k => match rd (emeta_mem st) k, rd (emeta_sync st) k with
                      | Some mem, Some sync => sync * sec_size lm <? mem
                      | _, _ => false
                      end
          | None => false
          end
      | None => false
      end
  | Invalidate i paddr =>
      match rd (lines st) i with
      | Some ln =>
          match ln_state ln with
          | PBLK_LINESTATE_OPEN => match ln_meta ln with Some _ => true | None => false end
          | PBLK_LINESTATE_BAD | PBLK_LINESTATE_CORRUPT => false
          | _ => true
          end && (0 <=? paddr) && (paddr <? sec_per_line lm)
      | None => false
      end
  | GcPrepare _ lbas =>
      match gc_reader_wq st with
      | i :: _ => match rd (lines st) i with Some ln => emeta_ssec ln <=? Z.of_nat (length lbas) | None => true end
      | [] => true
      end
  | GcDone n => (n <? length (gc_rqs st))%nat
  | SendMeta _ _ | GcRun | GcRead => true
  end.

Lemma may_happen_spec st ev : may_happen_b st ev = true → may_happen lm st ev.
Proof.
  destruct ev; simpl; try done.
  - destruct (rd (data_line st) nrb) as [[i|]|] eqn:E1; try done. destruct (rd (lines st) i) as [ln|] eqn:E2; [|done].
    intros H. exists i, ln. split; [done|]. split; [done|]. intros E. rewrite E, Z.eqb_refl in H. simpl in H.
    destruct (rd (data_next st) nrb) as [[new|]|]; bools; [|done..].
    case_bool_decide; [|done]. split; [done|]. split; [done|]. by exists new.
  - intros H. by apply Nat.ltb_lt.
  - destruct (rd (lines st) line) as [ln|] eqn:E1; [|done]. intros [H1 H2]%andb_true_iff. apply bool_decide_eq_true_1 in H1.
    destruct (ln_meta ln) as [k|] eqn:E2; [|done]. destruct (rd (emeta_mem st) k) as [mem|] eqn:E3; [|done].
    destruct (rd (emeta_sync st) k) as [sync|] eqn:E4; [|done]. apply Z.ltb_lt in H2. by exists ln, k, mem, sync.
  - destruct (rd (lines st) line) as [ln|] eqn:E1; [|done]. intros H. exists ln. split; [done|]. unfold written.
    destruct (ln_state ln); try (bools; done). by destruct (ln_meta ln); bools.
  - intros H i wq ln E1 E2. rewrite E1, E2 in H. by apply Z.leb_le.
  - intros H. by apply Nat.ltb_lt.
Qed.

Fixpoint run_events (st : pblk) (evs : list line_event) : option pblk :=
  match evs with
  | [] => Some st
  | ev :: evs => _ ← ensure (may_happen_b st ev); st ← line_step lm env st ev; run_events st evs
  end.
End run.

Lemma run_reachable get_count_order geo max luns bb junk g env lm st evs st' :
  reachable get_count_order geo max luns bb junk g env lm st → run_events lm env st evs = Some st' →
  reachable get_count_order geo max luns bb junk g env lm st'.
Proof.
  revert st. induction evs as [|ev evs IH]; intros st Hr E; cbn [run_events] in E; [by simplify_eq|].
  destruct (may_happen_b lm st ev) eqn:T; [|done]. cbn [ensure mbind option_bind] in E.
  destruct (line_step lm env st ev) as [s|] eqn:Es; [|done]. cbn [mbind option_bind] in E.
  apply (IH s); [|done]. eapply reach_step; [done|by apply may_happen_spec|done].
Qed.

(** ** A small drive

    Two channels of two LUNs with twenty blocks of two pages of one sector. *)

Module Sample.
Definition geo : nvm_geo :=
  {| nr_chnls := 2; nr_luns := 4; luns_per_chnl := 2; blks_per_lun := 20; geo_sec_per_blk := 2;
     geo_sec_per_pl := 1; geo_sec_per_lun := 40; geo_sec_size := 4096; plane_mode := 1; sect_len := 0; pln_len := 0; pg_len := 1; blk_len := 5 |}.
Definition luns : list (Z * Z) := [(0, 0); (0, 1); (1, 0); (1, 1)].
Definition bb : list (list Z) := replicate 4 (replicate 20 0).
Definition junk : list (option Z) := replicate 8 (Some 7).
Definition g : pblk_gc := {| gc_active := 1; gc_enabled := 1; gc_forced := 0; gc_kicks := 0 |}.
Definition env : line_env :=
  {| map_alloc := λ _, true; invalid_alloc := λ _, true; PblkLine.junk := λ _, replicate 8 false;
     erase := λ _ _, EraseDone; smeta_fails := λ _, false |}.

Lemma count_order : ∀ n, 0 < n → 0 ≤ Z.log2_up n ∧ 2 ^ (Z.log2_up n - 1) < n ≤ 2 ^ Z.log2_up n.
Proof.
  intros n Hn. split; [apply Z.log2_up_nonneg|].
  destruct (Z.eq_dec n 1) as [->|]; [split; reflexivity|].
  pose proof (Z.log2_up_spec n ltac:(lia)). rewrite Z.sub_1_r. lia.
Qed.

Lemma sample_geo : geo_ok geo 64 1 4 2.
Proof. split; try reflexivity; try lia; vm_compute; repeat split; try reflexivity; discriminate. Qed.

Lemma sample_drive : drive_ok geo 64 luns bb 1 4 2.
Proof.
  split; try reflexivity; try apply sample_geo.
  - by exists 1.
  - by exists 1.
  - intros ch l Hch Hl. simpl in *. assert (ch = 0 ∨ ch = 1) as [->| ->] by lia;
      assert (l = 0 ∨ l = 1) as [->| ->] by lia; reflexivity.
  - split; [reflexivity|]. intros t Ht. apply elem_of_replicate in Ht as [-> _]. done.
Qed.

Lemma sample_setting : setting Z.log2_up geo 64 luns bb junk env 1 4 2.
Proof.
  split; [apply count_order|apply sample_drive|reflexivity|split; done|].
  intros lm E. vm_compute in E. injection E as <-. vm_compute. repeat constructor.
Qed.

Definition lm : pblk_line_meta :=
  {| sec_per_line := 8; blk_per_line := 4; sec_per_blk := 2; sec_per_pl := 1; sec_size := 4096; smeta_sec := 1;
     emeta_sec := 3; emeta_len := 12288; emeta_bb := 1; min_blk_line := 3; high_thrs := 4; mid_thrs := 2;
     min_write_pgs := 1; max_write_pgs := 4 |}.
Definition up : option (init_error + pblk_line_meta * pblk * Z) := pblk_init Z.log2_up geo 64 luns bb junk g env.
Definition first_state : pblk := match up with Some (inr (_, st, _)) => st | _ => pblk_zero g end.

Lemma up_eq : pblk_init Z.log2_up geo 64 luns bb junk g env = Some (inr (lm, first_state, 88)).
Proof. vm_compute. reflexivity. Qed.

Lemma first_reachable : reachable Z.log2_up geo 64 luns bb junk g env lm first_state.
Proof. exact (reach_init Z.log2_up geo 64 luns bb junk g env lm first_state 88 up_eq). Qed.

(** Line 0 filled, its metadata written, one of its sectors overwritten. *)
Definition fill : list line_event :=
  [MapPage 0 1; MapPage 0 1; MapPage 0 1; MapPage 0 1; UpdateMap 0; UpdateMap 0; UpdateMap 0; UpdateMap 0;
   SendMeta 0 true; SendMeta 0 true; SendMeta 0 true; MetaDone 0; MetaDone 0; MetaDone 0; Invalidate 0 4].
Definition after (evs : list line_event) : pblk := default first_state (run_events lm env first_state evs).

Lemma after_reachable evs :
  is_Some (run_events lm env first_state evs) → reachable Z.log2_up geo 64 luns bb junk g env lm (after evs).
Proof. intros [st E]. unfold after. rewrite E. eapply run_reachable; [exact first_reachable|exact E]. Qed.

(** Line 0 filled, filled and picked by the collector, and also read by it. *)
Definition picked : list line_event := fill ++ [Invalidate 0 1; GcRun].
Definition read : list line_event := picked ++ [GcRead].
Definition line0 (evs : list line_event) : pblk_line :=
  default (init_line 3 PBLK_LINESTATE_BAD [] 0) (rd (lines (after evs)) 0).

Lemma fill_reachable : reachable Z.log2_up geo 64 luns bb junk g env lm (after fill).
Proof. apply after_reachable. vm_compute. by eexists. Qed.

Lemma read_reachable : reachable Z.log2_up geo 64 luns bb junk g env lm (after read).
Proof. apply after_reachable. vm_compute. by eexists. Qed.
End Sample.

(** ** Theorems *)

Section claims.
Context (get_count_order : Z → Z) (geo : nvm_geo) (max_phys_sects : Z) (luns : list (Z * Z)) (bb : list (list Z)).
Context (junk : list (option Z)) (g : pblk_gc) (env : line_env).

Local Notation setting := (setting get_count_order geo max_phys_sects luns bb junk env).
Local Notation reachable := (reachable get_count_order geo max_phys_sects luns bb junk g env).




(** C9: In every reachable state a line that somebody still needs - a sector of it waits for its map update, or
    a request of the collector reads it - is neither free nor about to be: it holds a reference for each of them. *)
Theorem needed_line_kept p L R lm st i :
  setting p L R → reachable lm st → i ∈ wb st ∨ i ∈ (gc_rqs st).*1 ∨ i ∈ gc_reader_wq st →
  ∃ ln, rd (lines st) i = Some ln ∧ ln_state ln ≠ PBLK_LINESTATE_FREE ∧ ln_state ln ≠ PBLK_LINESTATE_BAD ∧
    count i (wb st) + count i (gc_rqs st).*1 + count i (gc_reader_wq st) ≤ ref ln ∧ i ∉ lists st free_list.
Proof using.
  intros Hs Hr Hi. destruct (reachable_inv get_count_order geo max_phys_sects luns bb junk g env p L R lm st Hs Hr) as (e & Hlm & Hinv & Hal).
  pose proof (count_nonneg i (wb st)). pose proof (count_nonneg i (gc_rqs st).*1). pose proof (count_nonneg i (gc_reader_wq st)).
  assert (Hpos : 0 < count i (wb st) + count i (gc_rqs st).*1 + count i (gc_reader_wq st))
    by (destruct Hi as [?%count_pos|[?%count_pos|?%count_pos]]; lia).
  destruct (in_held _ _ _ _ _ _ Hinv i Hpos) as [ln Hln]. exists ln. split; [done|].
  pose proof (in_line _ _ _ _ _ _ Hinv i ln Hln) as [Hsh Hrf _]. unfold refs, own in Hrf.
  assert (Hnf : i ∈ lists st free_list → ln_link ln = Some free_list).
  { intros (l & Hl1 & Hl2)%(lk_mem _ (in_links _ _ _ _ _ _ Hinv)). congruence. }
  unfold shape in Hsh. destruct (ln_state ln) eqn:Es; try (exfalso; lia); try done; (split; [done|]; split; [done|]; split).
  - lia.
  - intros H'%Hnf. destruct Hsh as (_ & [[]|(P & c & qe & b & k & mem & sync & [])]); [congruence|].
    destruct (_ && _); [|congruence]. destruct wr_link as [nrb E']. congruence.
  - lia.
  - intros H'%Hnf. destruct Hsh as (_ & E & _). rewrite E in H'. by destruct (gc_group ln).
  - case_bool_decide; lia.
  - intros H'%Hnf. destruct Hsh as (_ & [E|E] & _); congruence.
Qed.


(** C11: A page of a stream in a reachable state gets addresses nobody has: every sector was free in the map of the
    line and is taken afterwards, the others stay as they were, and the page ends before the part of the line kept for the last
    metadata. *)
Theorem page_addresses_fresh p L R lm st nrb i ln :
  setting p L R → reachable lm st → rd (data_line st) nrb = Some (Some i) → rd (lines st) i = Some ln →
  ∃ paddr st' ln' m m', pblk_alloc_page lm st i (min_write_pgs lm) = Some (st', paddr) ∧
    rd (lines st') i = Some ln' ∧ map_bitmap ln = Some m ∧ map_bitmap ln' = Some m' ∧
    0 ≤ paddr ∧ paddr + min_write_pgs lm ≤ emeta_ssec ln ∧ left_msecs ln' = left_msecs ln - min_write_pgs lm ∧
    m' = take (Z.to_nat paddr) m ++ replicate (Z.to_nat (min_write_pgs lm)) true ++
         drop (Z.to_nat (paddr + min_write_pgs lm)) m ∧
    ∀ s, paddr ≤ s < paddr + min_write_pgs lm → m !! Z.to_nat s = Some false.
Proof using.
  intros Hs Hr Hd Hi. destruct (reachable_inv get_count_order geo max_phys_sects luns bb junk g env p L R lm st Hs Hr) as (e & Hlm & Hinv & Hal).
  destruct (sm_line _ _ (in_streams _ _ _ _ _ _ Hinv) nrb i Hd) as (lx & Hi' & Ho & Hme & [Hleft|?]); [|done].
  assert (lx = ln) as -> by congruence. pose proof (in_line _ _ _ _ _ _ Hinv i ln Hi) as Hok.
  destruct (counted_open lm p L R None st i ln Hok Ho Hme) as (P & c & qe & b & k & mem & sync & Hw).
  pose proof (wr_open _ _ _ _ _ _ _ _ _ _ _ _ _ _ Hw) as Hop. pose proof Hop as [].
  rewrite (lm_min_write_pgs _ _ _ _ _ Hlm).
  assert (Hz : 0 < zeros (take qe P)) by nia.
  destruct (first_free_exists P c) as (q & Hq & _); [done|pose proof (zeros_take_drop qe P); pose proof (zeros_bounds (drop qe P)); lia|].
  pose proof (data_page_early P q qe Hq Hz) as Hqe.
  destruct (alloc_data_page_spec lm p L R e Hlm st i ln P c qe q Hi Hop Hq Hqe) as [E _].
  set (ln' := take_page p ln P q <| left_msecs := left_msecs ln - Z.of_nat p |>) in *.
  rewrite (lm_min_write_pgs _ _ _ _ _ Hlm) in E.
  exists (Z.of_nat (p * q)), (set_line st i ln'), ln', (expand p P), (expand p (<[q := true]> P)).
  split; [done|]. split; [by apply (rd_set_line_eq st i ln)|]. split; [done|]. split; [done|]. split; [lia|]. split; [nia|].
  split; [done|]. rewrite <- Nat2Z.inj_add, !Nat2Z.id. destruct Hq as [Hq _]. split.
  - symmetry. apply expand_insert. by eapply lookup_lt_Some.
  - intros s Hsq. replace (Z.to_nat s) with (p * q + (Z.to_nat s - p * q))%nat by lia. apply expand_lookup; [lia|done].
Qed.

(** C12: The victim the collector takes from a list in a reachable state is a line of that list; it has no valid
    sector left, or no candidate - a line that is not mapped by blocks and not the one its stream is invalidating - has
    fewer. *)
Theorem victim_least p L R lm st gr f ls :
  setting p L R → reachable lm st → gr ≠ PBLK_LINEGC_NONE → lists st (list_of gr) = f :: ls →
  ∃ v lv, pblk_gc_get_victim_line st (list_of gr) = Some v ∧ v ∈ f :: ls ∧ rd (lines st) v = Some lv ∧
    ln_state lv = PBLK_LINESTATE_CLOSED ∧
    (vsc lv = 0 ∨ ∀ c lc, c ∈ f :: ls → rd (lines st) c = Some lc → candidate st c lc →
                    block_mapped st lv = false ∧ vsc lv ≤ vsc lc).
Proof using.
  intros Hs Hr Hg E. destruct (reachable_inv get_count_order geo max_phys_sects luns bb junk g env p L R lm st Hs Hr) as (e & Hlm & Hinv & Hal).
  assert (Hh : ∃ g0, g0 ≠ PBLK_LINEGC_NONE ∧ list_of gr = list_of g0) by (by exists gr).
  destruct (victim_spec lm p L R e Hlm None st _ f ls Hinv Hh E) as (v & Ev & Hin & lv & Hlv & B).
  destruct (in_gc_list lm p L R None st _ v Hinv Hin Hh) as (ln & Hln & Hc & _). assert (ln = lv) as -> by congruence.
  exists v, lv. rewrite <- E at 1. do 4 (split; [done|]). destruct B as [[? _]|(_ & B & _)]; [by left|by right].
Qed.

(** C13: A line that is collected is read exactly where it is valid: its requests, one after the other, hold the
    logical address of each valid sector once and in order, none longer than a write may be. *)
Theorem gc_reads_valid_sectors p L R lm st i wq ln b maptype lbas :
  setting p L R → reachable lm st → gc_reader_wq st = i :: wq → rd (lines st) i = Some ln →
  invalid_bitmap ln = Some b → emeta_ssec ln ≤ Z.of_nat (length lbas) →
  ∃ st' rqs, pblk_gc_line_prepare_ws lm maptype lbas st true = Some st' ∧
    concat rqs = lba_at lbas <$> zero_positions b 0 ∧
    Forall (λ r, 0 < Z.of_nat (length r) ≤ max_write_pgs lm) rqs ∧
    (rqs ≠ [] → gc_rqs st' = gc_rqs st ++ ((λ r, (i, r)) <$> rqs)).
Proof using.
  intros Hs Hr Hw Hi Hb Hl. destruct (reachable_inv get_count_order geo max_phys_sects luns bb junk g env p L R lm st Hs Hr) as (e & Hlm & Hinv & Hal).
  destruct (gc_prepare_inv lm p L R e Hlm None st i wq ln b maptype lbas Hinv Hal Hw Hi Hb Hl) as (st' & rqs & H1 & _ & _ & H2).
  by exists st', rqs.
Qed.

(** Invalidating a valid sector of a closed line takes exactly that sector from its bitmap and one from its
    count, and moves the line to the list for the new count. *)
Lemma invalidate_moves_line p L R lm st i ln b k :
  setting p L R → reachable lm st → rd (lines st) i = Some ln → ln_state ln = PBLK_LINESTATE_CLOSED →
  invalid_bitmap ln = Some b → b !! k = Some false →
  ∃ st' ln', __pblk_map_invalidate lm st i (Z.of_nat k) = Some st' ∧
    (∀ j, rd (lines st') j = if decide (j = i) then Some ln' else rd (lines st) j) ∧
    invalid_bitmap ln' = Some (<[k := true]> b) ∧ vsc ln' = vsc ln - 1 ∧
    ∀ h, i ∈ lists st' h ↔ h = list_of (group_of lm ln').
Proof using.
  intros Hs Hr Hi Hc Hb Hk. destruct (reachable_inv get_count_order geo max_phys_sects luns bb junk g env p L R lm st Hs Hr) as (e & Hlm & Hinv & Hal).
  destruct (invalidate_closed lm p L R e Hlm None st i ln b k Hinv Hi Hc Hb Hk) as (ls & E & Hinv').
  set (ln' := regrouped lm (invalidated ln b k)) in *. exists (set_line st i ln' <| lists := ls |>), ln'.
  split; [exact E|].
  assert (Hl : ∀ j, rd (lines (set_line st i ln' <| lists := ls |>)) j = if decide (j = i) then Some ln' else rd (lines st) j).
  { intros j. change (lines (_ <| lists := _ |>)) with (lines (set_line st i ln')). destruct (decide (j = i)) as [->|].
    - by apply (rd_set_line_eq st i ln).
    - apply rd_set_line_ne; [done|]. apply rd_lt in Hi. lia. }
  split; [exact Hl|]. split; [done|]. split; [done|]. intros h. rewrite (lk_mem _ (in_links _ _ _ _ _ _ Hinv')).
  rewrite Hl, decide_True by done. split.
  - intros (l & E1 & E2). injection E1 as <-. by injection E2 as <-.
  - intros ->. by exists ln'.
Qed.

(** The list for half-invalid lines is never used: the thresholds are set the wrong way round, so in every
    reachable state it is empty, and the collector never finds a line there. *)
Lemma mid_list_unused p L R lm st :
  setting p L R → reachable lm st → mid_thrs lm ≤ high_thrs lm ∧ lists st gc_mid_list = [].
Proof using.
  intros Hs Hr. destruct (reachable_inv get_count_order geo max_phys_sects luns bb junk g env p L R lm st Hs Hr) as (e & Hlm & Hinv & Hal).
  assert (Ht : mid_thrs lm ≤ high_thrs lm) by (rewrite (lm_high _ _ _ _ _ Hlm), (lm_mid _ _ _ _ _ Hlm), (lm_sec_per_line _ _ _ _ _ Hlm);
    apply Z.div_le_compat_l; lia).
  split; [done|]. destruct (lists st gc_mid_list) as [|i ls] eqn:E; [done|exfalso].
  assert (Hin : i ∈ lists st (list_of PBLK_LINEGC_MID)) by (simpl; rewrite E; left).
  destruct (in_gc_list lm p L R None st _ i Hinv Hin) as (ln & Hi & Hc & Hl); [by exists PBLK_LINEGC_MID|].
  pose proof (in_line _ _ _ _ _ _ Hinv i ln Hi) as [Hsh _ _]. unfold shape in Hsh. rewrite Hc in Hsh.
  destruct Hsh as (Hg & Hl' & _). rewrite Hl, Hg in Hl'. injection Hl' as Hl'. unfold group_of in Hl'.
  destruct (vsc ln =? 0); [done|]. destruct (Z.ltb_spec (vsc ln) (high_thrs lm)); [done|].
  rewrite (proj2 (Z.ltb_ge _ _)) in Hl' by lia. by destruct (_ <? _).
Qed.
End claims.

(** A line whose metadata cannot be read is lost: there is a reachable state in which the collector has taken a
    line with two valid sectors and, failing to read the metadata, puts it back and then frees it all the same, with a
    warning and the valid sectors on it. *)
Lemma gc_failure_frees_line :
  ∃ lm st ln st' ln', reachable Z.log2_up Sample.geo 64 Sample.luns Sample.bb Sample.junk Sample.g Sample.env lm st ∧
    gc_reader_wq st = [0] ∧ rd (lines st) 0 = Some ln ∧ vsc ln = 2 ∧
    pblk_gc_line_prepare_ws lm (λ _, PAGE_MAP) [] st false = Some st' ∧ rd (lines st') 0 = Some ln' ∧
    ln_state ln' = PBLK_LINESTATE_FREE ∧ 0 ∈ lists st' free_list ∧ warns st' = 1%nat.
Proof.
  set (evs := Sample.read). exists Sample.lm, (Sample.after evs).
  destruct (rd (lines (Sample.after evs)) 0) as [ln|] eqn:E1; [|vm_compute in E1; discriminate]. exists ln.
  destruct (pblk_gc_line_prepare_ws Sample.lm (λ _, PAGE_MAP) [] (Sample.after evs) false) as [st'|] eqn:E2; [|vm_compute in E2; discriminate].
  exists st'. destruct (rd (lines st') 0) as [ln'|] eqn:E3.
  2:{ vm_compute in E2. injection E2 as <-. vm_compute in E3. discriminate. }
  exists ln'. split; [exact Sample.read_reachable|]. split; [vm_compute; reflexivity|]. split; [done|].
  split; [vm_compute in E1; injection E1 as <-; reflexivity|]. split; [done|]. split; [done|].
  vm_compute in E2. injection E2 as <-. vm_compute in E3. injection E3 as <-. split; [done|]. split; [|done].
  apply list_elem_of_In. vm_compute. tauto.
Qed.

(** ** A drive whose last metadata need more pages than it has LUNs *)

Module Overrun.
Definition geo : nvm_geo :=
  {| nr_chnls := 2; nr_luns := 4; luns_per_chnl := 2; blks_per_lun := 20; geo_sec_per_blk := 300;
     geo_sec_per_pl := 1; geo_sec_per_lun := 6000; geo_sec_size := 4096; plane_mode := 1; sect_len := 0; pln_len := 0; pg_len := 9; blk_len := 5 |}.
Definition bb : list (list Z) := (1 :: replicate 19 0) :: replicate 3 (replicate 20 0).

(** Line 0 is in the bad list, though it has enough good blocks. *)
Definition refused (r : option (init_error + pblk_line_meta * pblk * Z)) : bool :=
  match r with
  | Some (inr (lm, st, _)) =>
      match rd (lines st) 0 with
      | Some ln => (emeta_bb lm =? 2 ^ 32 - 1) && (min_blk_line lm <=? zeros (blk_bitmap ln)) &&
                   bool_decide (ln_state ln = PBLK_LINESTATE_BAD) && bool_decide (lists st bad_list = [0])
      | None => false
      end
  | _ => false
  end.

Lemma refused_spec r :
  refused r = true → ∃ lm st capacity ln, r = Some (inr (lm, st, capacity)) ∧
    emeta_bb lm = 2 ^ 32 - 1 ∧ rd (lines st) 0 = Some ln ∧ min_blk_line lm ≤ zeros (blk_bitmap ln) ∧
    ln_state ln = PBLK_LINESTATE_BAD ∧ lists st bad_list = [0].
Proof.
  unfold refused. destruct r as [[|[[lm st] cap]]|]; [done| |done]. destruct (rd (lines st) 0) as [ln|] eqn:E; [|done].
  intros H. bools. repeat case_bool_decide; [|done..]. by exists lm, st, cap, ln.
Qed.

Lemma line_refused : refused (pblk_init Z.log2_up geo 64 Sample.luns bb Sample.junk Sample.g Sample.env) = true.
Proof. vm_compute. reflexivity. Qed.
End Overrun.

(** A line with enough good blocks can be refused at bring-up: when the last metadata need more pages
    than there are LUNs, the number of blocks they may lose wraps around, bad blocks among the last
    pages are not made up for, and the line goes to the bad list. *)
Lemma usable_line_refused :
  ∃ lm st capacity ln,
    pblk_init Z.log2_up Overrun.geo 64 Sample.luns Overrun.bb Sample.junk Sample.g Sample.env = Some (inr (lm, st, capacity)) ∧
    emeta_bb lm = 2 ^ 32 - 1 ∧ rd (lines st) 0 = Some ln ∧ min_blk_line lm ≤ zeros (blk_bitmap ln) ∧
    ln_state ln = PBLK_LINESTATE_BAD ∧ lists st bad_list = [0].
Proof. exact (Overrun.refused_spec _ Overrun.line_refused). Qed.

(** ** The hypotheses of the theorems hold on the small drive *)




Lemma needed_line_kept_witness :
  ∃ ln, rd (lines (Sample.after Sample.read)) 0 = Some ln ∧ ln_state ln ≠ PBLK_LINESTATE_FREE ∧
    ln_state ln ≠ PBLK_LINESTATE_BAD ∧
    count 0 (wb (Sample.after Sample.read)) + count 0 (gc_rqs (Sample.after Sample.read)).*1 +
      count 0 (gc_reader_wq (Sample.after Sample.read)) ≤ ref ln ∧ 0 ∉ lists (Sample.after Sample.read) free_list.
Proof.
  apply (needed_line_kept _ _ _ _ _ _ _ _ 1 4 2 _ _ 0 Sample.sample_setting Sample.read_reachable).
  right. right. apply list_elem_of_In. vm_compute. tauto.
Defined.


Lemma page_addresses_fresh_witness :
  let ln := Sample.line0 [] in
  ∃ paddr st' ln' m m', pblk_alloc_page Sample.lm Sample.first_state 0 (min_write_pgs Sample.lm) = Some (st', paddr) ∧
    rd (lines st') 0 = Some ln' ∧ map_bitmap ln = Some m ∧ map_bitmap ln' = Some m' ∧
    0 ≤ paddr ∧ paddr + min_write_pgs Sample.lm ≤ emeta_ssec ln ∧ left_msecs ln' = left_msecs ln - min_write_pgs Sample.lm ∧
    m' = take (Z.to_nat paddr) m ++ replicate (Z.to_nat (min_write_pgs Sample.lm)) true ++
         drop (Z.to_nat (paddr + min_write_pgs Sample.lm)) m ∧
    ∀ s, paddr ≤ s < paddr + min_write_pgs Sample.lm → m !! Z.to_nat s = Some false.
Proof.
  apply (page_addresses_fresh _ _ _ _ _ _ _ _ 1 4 2 _ _ 0 0 (Sample.line0 []) Sample.sample_setting Sample.first_reachable);
    vm_compute; reflexivity.
Defined.

Lemma victim_least_witness :
  let st := Sample.after Sample.fill in
  ∃ v lv, pblk_gc_get_victim_line st (list_of PBLK_LINEGC_HIGH) = Some v ∧ v ∈ [0] ∧ rd (lines st) v = Some lv ∧
    ln_state lv = PBLK_LINESTATE_CLOSED ∧
    (vsc lv = 0 ∨ ∀ c lc, c ∈ [0] → rd (lines st) c = Some lc → candidate st c lc →
                    block_mapped st lv = false ∧ vsc lv ≤ vsc lc).
Proof.
  apply (victim_least _ _ _ _ _ _ _ _ 1 4 2 _ _ PBLK_LINEGC_HIGH 0 [] Sample.sample_setting Sample.fill_reachable);
    [discriminate|vm_compute; reflexivity].
Defined.

Lemma gc_reads_valid_sectors_witness :
  let lbas := [100; 101; 102; 103; 104; 105] in
  ∃ st' rqs, pblk_gc_line_prepare_ws Sample.lm (λ _, PAGE_MAP) lbas (Sample.after Sample.read) true = Some st' ∧
    concat rqs = lba_at lbas <$> zero_positions [true; true; false; false; true; true; true; true] 0 ∧
    Forall (λ r, 0 < Z.of_nat (length r) ≤ max_write_pgs Sample.lm) rqs ∧
    (rqs ≠ [] → gc_rqs st' = gc_rqs (Sample.after Sample.read) ++ ((λ r, (0, r)) <$> rqs)).
Proof.
  apply (gc_reads_valid_sectors _ _ _ _ _ _ _ _ 1 4 2 _ _ 0 [] (Sample.line0 Sample.read) _ (λ _, PAGE_MAP) [100; 101; 102; 103; 104; 105]
           Sample.sample_setting Sample.read_reachable); try (vm_compute; reflexivity). vm_compute. discriminate.
Defined.
