(* ===== verification/NvmCore.v ===== *)
(** * The LightNVM core (src/mstream-pblk/core.c)

    The core knows the geometry of a drive and lends its LUNs to targets such as pblk.
    A target gets a range of LUNs, numbers its channels and LUNs from zero, and the core converts
    between its addresses and those of the drive: [td_map], per target, is added to an address
    on the way down, [rmap], one for the whole drive, is subtracted on the way up.  The
    core also folds tables of bad blocks of planes, expands addresses to planes and hands out
    areas of sectors.

    The kernel's conversion of addresses to the format of the drive, the allocator, and the
    target's own initialisation are arguments.  [None] is an access outside an
    array or a division by zero.  Errors are negative numbers, as in the code. *)

From stdpp Require Import strings.
From S2P Require Import Prelude Bitmap RingBuffer PblkAddr.

Open Scope Z_scope.

(** ** Data *)

Definition EINVAL : Z := 22.
Definition ENOMEM : Z := 12.
Definition EBUSY : Z := 16.
Definition ENODEV : Z := 19.
Definition EEXIST : Z := 17.
Definition EPERM : Z := 1.
Definition EFAULT : Z := 14.

(** Widths of the parts of an address ([struct ppa_addr] of the kernel). *)
Definition NVM_CH_BITS : Z := 7.
Definition NVM_LUN_BITS : Z := 8.

Definition NVM_PLANE_SINGLE : Z := 1.
Definition NVM_PLANE_DOUBLE : Z := 2.
Definition NVM_PLANE_QUAD : Z := 4.
Definition NVM_BLK_T_BAD : Z := 1.
Definition NVM_BLK_T_GRWN_BAD : Z := 2.
Definition NVM_ID_FMTYPE_SLC : Z := 0.
Definition NVM_ID_FMTYPE_MLC : Z := 1.

#[global] Instance nvm_geo_fields : Fields nvm_geo := λ g,
  {| nr_chnls := nr_chnls g; nr_luns := nr_luns g; luns_per_chnl := luns_per_chnl g; blks_per_lun := blks_per_lun g;
     geo_sec_per_blk := geo_sec_per_blk g; geo_sec_per_pl := geo_sec_per_pl g; geo_sec_per_lun := geo_sec_per_lun g;
     geo_sec_size := geo_sec_size g; plane_mode := plane_mode g; sect_len := sect_len g; pln_len := pln_len g;
     pg_len := pg_len g; blk_len := blk_len g |}.

(** A channel: the channel and the LUNs of a target are shifted by these offsets. *)
Record nvm_ch_map := { ch_off : Z; ch_nr_luns : Z; lun_offs : list Z }.

Record nvm_area := { area_begin : Z; area_end : Z }.

(** The part of a drive a target sees. *)
Record nvm_tgt_dev := {
  td_geo : nvm_geo;
  td_map : list nvm_ch_map;
  td_luns : list (Z * Z);
  td_total_secs : Z
}.

Record nvm_target := { t_name : string; t_dev : nvm_tgt_dev }.

(** The drive; [d_warns] counts the warnings printed. *)
Record nvm_dev := {
  d_geo : nvm_geo;
  lun_map : list bool;
  rmap : list nvm_ch_map;
  area_list : list nvm_area;
  targets : list nvm_target;
  total_secs : Z;
  lptbl : list Z;
  d_warns : nat
}.

#[global] Instance nvm_dev_fields : Fields nvm_dev := λ d,
  {| d_geo := d_geo d; lun_map := lun_map d; rmap := rmap d; area_list := area_list d; targets := targets d;
     total_secs := total_secs d; lptbl := lptbl d; d_warns := d_warns d |}.

(** What can go wrong while a target is created: its type is not known, there is no memory for
    the target, for its map (as a whole, for the LUNs of a channel, for the device), and
    [setup], the error of the disk, its queue, the target's own set-up and sysfs. *)
Record create_env := {
  type_found : bool;
  target_alloc : bool;
  map_alloc : bool;
  lun_offs_alloc : Z → bool;
  tgt_dev_alloc : bool;
  setup : Z
}.

#[global] Instance create_env_fields : Fields create_env := λ e,
  {| type_found := type_found e; target_alloc := target_alloc e; map_alloc := map_alloc e;
     lun_offs_alloc := lun_offs_alloc e; tgt_dev_alloc := tgt_dev_alloc e; setup := setup e |}.

(** ** LUNs *)

(** Takes LUN [i] and those after it; stops at the first one that is taken. *)
Fixpoint reserve_loop (n : nat) (m : list bool) (i : Z) : option (list bool * option Z) :=
  match n with
  | O => Some (m, None)
  | S n => '(old, m) ← test_and_set_bit m i;
           if (old : bool) then Some (m, Some i) else reserve_loop n m (i + 1)
  end.

(** Gives [n] LUNs from [i] downwards back. *)
Fixpoint clear_down (n : nat) (m : list bool) (i : Z) : option (list bool) :=
  match n with
  | O => Some m
  | S n => m ← wr m i false; clear_down n m (i - 1)
  end.

Definition nvm_reserve_luns (dev : nvm_dev) (lun_begin lun_end : Z) : option (nvm_dev * Z) :=
  '(m, r) ← reserve_loop (Z.to_nat (lun_end - lun_begin + 1)) (lun_map dev) lun_begin;
  match r with
  | None => Some (dev <| lun_map := m |>, 0)
  | Some i => m ← clear_down (Z.to_nat (i - lun_begin)) m (i - 1); Some (dev <| lun_map := m |>, - EBUSY)
  end.

(** Gives LUN [i] and those after it back; warns of one that is not taken. *)
Fixpoint release_loop (n : nat) (m : list bool) (i : Z) (w : nat) : option (list bool * nat) :=
  match n with
  | O => Some (m, w)
  | S n => '(old, m) ← test_and_clear_bit m i;
           release_loop n m (i + 1) (if (old : bool) then w else S w)
  end.

Definition nvm_release_luns_err (dev : nvm_dev) (lun_begin lun_end : Z) : option nvm_dev :=
  '(m, w) ← release_loop (Z.to_nat (lun_end - lun_begin + 1)) (lun_map dev) lun_begin 0;
  Some (dev <| lun_map := m |> <| d_warns ::= Nat.add w |>).

(** ** Devices of targets *)

(** The loop over the LUNs of a channel. *)
Fixpoint roffs_loop (n : nat) (roffs : list Z) (j blun : Z) : option (list Z) :=
  match n with
  | O => Some roffs
  | S n => roffs ← wr roffs (j + blun) blun; roffs_loop n roffs (j + 1) blun
  end.

Record tgt_build := {
  b_rmap : list nvm_ch_map;
  b_map : list nvm_ch_map;
  b_luns : list (Z * Z);
  b_balanced : bool
}.

(** The loop over the channels; [false] if there is no memory for the LUNs of one. *)
Fixpoint ch_loop (n : nat) (alloc : Z → bool) (per_chnl bch prev i luns_left blun : Z) (b : tgt_build)
    : option (tgt_build * bool) :=
  match n with
  | O => Some (b, true)
  | S n =>
      r ← rd (b_rmap b) (i + bch);
      let luns_in_chnl := if per_chnl <? luns_left then per_chnl else luns_left in
      let balanced := b_balanced b && (prev =? luns_in_chnl) in
      if negb (alloc i) then
        rm ← wr (b_rmap b) (i + bch) {| ch_off := bch; ch_nr_luns := ch_nr_luns r; lun_offs := lun_offs r |};
        Some ({| b_rmap := rm; b_map := b_map b; b_luns := b_luns b; b_balanced := balanced |}, false)
      else
      roffs ← roffs_loop (Z.to_nat luns_in_chnl) (lun_offs r) 0 blun;
      rm ← wr (b_rmap b) (i + bch) {| ch_off := bch; ch_nr_luns := ch_nr_luns r; lun_offs := roffs |};
      ch_loop n alloc per_chnl bch prev (i + 1) (luns_left - luns_in_chnl) 0
        {| b_rmap := rm;
           b_map := b_map b ++ [{| ch_off := bch; ch_nr_luns := luns_in_chnl;
                                   lun_offs := replicate (Z.to_nat luns_in_chnl) blun |}];
           b_luns := b_luns b ++ ((λ j, (i, Z.of_nat j)) <$> seq 0 (Z.to_nat luns_in_chnl));
           b_balanced := balanced |}
  end.

Definition nvm_create_tgt_dev (dev : nvm_dev) (env : create_env) (lun_begin lun_end : Z)
    : option (nvm_dev * option nvm_tgt_dev) :=
  let geo := d_geo dev in
  let nluns := lun_end - lun_begin + 1 in
  _ ← ensure (nz (luns_per_chnl geo));
  let chnls := Z.quot nluns (luns_per_chnl geo) in
  let chnls := if Z.rem nluns (luns_per_chnl geo) =? 0 then chnls else chnls + 1 in
  let bch := Z.quot lun_begin (luns_per_chnl geo) in
  let blun := Z.rem lun_begin (luns_per_chnl geo) in
  if negb (map_alloc env) then Some (dev, None) else
  let prev := if luns_per_chnl geo <? nluns then luns_per_chnl geo else nluns in
  '(b, ok) ← ch_loop (Z.to_nat chnls) (lun_offs_alloc env) (luns_per_chnl geo) bch prev 0 nluns blun
               {| b_rmap := rmap dev; b_map := []; b_luns := []; b_balanced := true |};
  let dev := dev <| rmap := b_rmap b |> in
  if negb (ok && tgt_dev_alloc env) then Some (dev, None) else
  Some (dev, Some {| td_geo := geo <| nr_chnls := chnls |> <| nr_luns := nluns |>
                                   <| luns_per_chnl := if b_balanced b then prev else -1 |>;
                     td_map := b_map b; td_luns := b_luns b;
                     td_total_secs := u64 (s32 (nluns * geo_sec_per_lun geo)) |}).

(** The LUNs of one channel of a target are given back. *)
Fixpoint clear_luns (n : nat) (per_chnl ch : Z) (offs : list Z) (j : Z) (m : list bool) (w : nat)
    : option (list bool * nat) :=
  match n with
  | O => Some (m, w)
  | S n =>
      off ← rd offs j;
      '(old, m) ← test_and_clear_bit m (ch * per_chnl + (j + off));
      clear_luns n per_chnl ch offs (j + 1) m (if (old : bool) then w else S w)
  end.

Fixpoint clear_chnls (per_chnl i : Z) (maps : list nvm_ch_map) (m : list bool) (w : nat) : option (list bool * nat) :=
  match maps with
  | [] => Some (m, w)
  | c :: maps =>
      '(m, w) ← clear_luns (Z.to_nat (ch_nr_luns c)) per_chnl (i + ch_off c) (lun_offs c) 0 m w;
      clear_chnls per_chnl (i + 1) maps m w
  end.

Definition nvm_remove_tgt_dev (dev : nvm_dev) (td : nvm_tgt_dev) (clear : bool) : option nvm_dev :=
  if clear then
    '(m, w) ← clear_chnls (luns_per_chnl (d_geo dev)) 0 (td_map td) (lun_map dev) 0;
    Some (dev <| lun_map := m |> <| d_warns ::= Nat.add w |>)
  else Some dev.

(** ** Targets *)

(** The first target of that name, with its place in the list. *)
Definition nvm_find_target (dev : nvm_dev) (name : string) : option (nat * nvm_target) :=
  list_find (λ t, t_name t = name) (targets dev).

Definition nvm_create_tgt (dev : nvm_dev) (env : create_env) (name : string) (lun_begin lun_end : Z)
    : option (nvm_dev * Z) :=
  if negb (type_found env) then Some (dev, - EINVAL) else
  match nvm_find_target dev name with
  | Some _ => Some (dev, - EINVAL)
  | None =>
      '(dev, ret) ← nvm_reserve_luns dev lun_begin lun_end;
      if nz ret then Some (dev, ret) else
      let err dev ret := dev ← nvm_release_luns_err dev lun_begin lun_end; Some (dev, ret) in
      if negb (target_alloc env) then err dev (- ENOMEM) else
      '(dev, td) ← nvm_create_tgt_dev dev env lun_begin lun_end;
      match td with
      | None => err dev (- ENOMEM)
      | Some td =>
          if nz (setup env) then dev ← nvm_remove_tgt_dev dev td false; err dev (setup env)
          else Some (dev <| targets ::= (.++ [{| t_name := name; t_dev := td |}]) |>, 0)
      end
  end.

(** Target [t], number [k] of the list, gives its LUNs back and leaves the list. *)
Definition __nvm_remove_target (dev : nvm_dev) (k : nat) (t : nvm_target) : option nvm_dev :=
  dev ← nvm_remove_tgt_dev dev (t_dev t) true;
  Some (dev <| targets ::= delete k |>).

Definition nvm_remove_tgt (dev : nvm_dev) (name : string) : option (nvm_dev * Z) :=
  match nvm_find_target dev name with
  | None => Some (dev, 1)
  | Some (k, t) => dev ← __nvm_remove_target dev k t; Some (dev, 0)
  end.

Fixpoint remove_all (dev : nvm_dev) (ts : list nvm_target) : option nvm_dev :=
  match ts with
  | [] => Some dev
  | t :: ts => dev ← __nvm_remove_target dev 0 t; remove_all dev ts
  end.

Definition nvm_unregister (dev : nvm_dev) : option nvm_dev := remove_all dev (targets dev).

(** A request for a drive that was found.  The numbers of the first and last LUN are unsigned; both 2^32 - 1
    stand for the whole drive. *)
Definition configure_dev (dev : nvm_dev) (env : create_env) (simple : bool) (name : string) (lun_begin lun_end : Z)
    : option (nvm_dev * Z) :=
  if negb simple then Some (dev, - EINVAL) else
  let whole := (lun_begin =? 2 ^ 32 - 1) && (lun_end =? 2 ^ 32 - 1) in
  let lun_begin := if whole then 0 else lun_begin in
  let lun_end := if whole then u32 (nr_luns (d_geo dev) - 1) else lun_end in
  if (lun_end <? lun_begin) || (u32 (nr_luns (d_geo dev)) <=? lun_end) then Some (dev, - EINVAL)
  else nvm_create_tgt dev env name lun_begin lun_end.

(** ** The drive *)

Definition nvm_register_map (geo : nvm_geo) : list nvm_ch_map :=
  replicate (Z.to_nat (nr_chnls geo))
    {| ch_off := -1; ch_nr_luns := luns_per_chnl geo; lun_offs := replicate (Z.to_nat (luns_per_chnl geo)) (-1) |}.

(** What a drive reports ([struct nvm_id_group]), with the lengths of the parts of its addresses. *)
Record nvm_id_group := {
  mtype : Z; fmtype : Z; num_ch : Z; num_lun : Z; num_pln : Z; num_blk : Z; num_pg : Z;
  fpg_sz : Z; csecs : Z; mpos : Z; num_pairs : Z; pairs : list Z;
  id_sect_len : Z; id_pln_len : Z; id_pg_len : Z; id_blk_len : Z
}.

Definition nvm_init_slc_tbl (pgs_per_blk : Z) : list Z := Z.of_nat <$> seq 0 (Z.to_nat pgs_per_blk).

(** The lower pages from number [i] on; [prev] is the one before. *)
Fixpoint mlc_loop (n : nat) (ps : list Z) (i prev : Z) : option (list Z) :=
  match n with
  | O => Some []
  | S n =>
      p ← rd ps (Z.shiftr i 1);
      let v := if nz (Z.land i 1) then prev + Z.shiftr (Z.land p 240) 4 else prev + Z.land p 15 in
      l ← mlc_loop n ps (i + 1) v;
      Some (v :: l)
  end.

Definition nvm_init_mlc_tbl (grp : nvm_id_group) : option (list Z) :=
  if num_pairs grp =? 0 then Some [] else
  p ← rd (pairs grp) 0;
  let v := Z.land p 15 in
  l ← mlc_loop (Z.to_nat (num_pairs grp - 1)) (pairs grp) 1 v;
  Some (v :: l).

Definition core_geo (grp : nvm_id_group) : option nvm_geo :=
  _ ← ensure (nz (csecs grp));
  let sec_per_pg := fpg_sz grp / csecs grp in
  let mode := if nz (Z.land (mpos grp) 263172) then NVM_PLANE_QUAD
              else if nz (Z.land (mpos grp) 131586) then NVM_PLANE_DOUBLE else NVM_PLANE_SINGLE in
  let sec_per_pl := s32 (sec_per_pg * num_pln grp) in
  let sec_per_blk := s32 (sec_per_pl * num_pg grp) in
  let sec_per_lun := s32 (sec_per_blk * num_blk grp) in
  Some {| nr_chnls := num_ch grp; luns_per_chnl := num_lun grp; nr_luns := s32 (num_lun grp * num_ch grp);
          blks_per_lun := num_blk grp; geo_sec_per_blk := sec_per_blk; geo_sec_per_pl := sec_per_pl;
          geo_sec_per_lun := sec_per_lun; geo_sec_size := csecs grp; plane_mode := mode;
          sect_len := id_sect_len grp; pln_len := id_pln_len grp; pg_len := id_pg_len grp; blk_len := id_blk_len grp |}.

(** Whether there is memory for the map of LUNs, the table of lower pages, and the map of channels. *)
Record core_env := { lun_map_alloc : bool; lptbl_alloc : bool; rmap_alloc : bool }.

Definition nvm_core_init (env : core_env) (grp : nvm_id_group) : option (Z + nvm_dev) :=
  geo ← core_geo grp;
  if nz (mtype grp) then Some (inl (- EINVAL)) else
  if negb (lun_map_alloc env) then Some (inl (- ENOMEM)) else
  let map := replicate (Z.to_nat ((nr_luns geo + 63) / 64 * 64)) false in
  let finish tbl :=
    if negb (rmap_alloc env) then inl (- ENOMEM) else
    inr {| d_geo := geo; lun_map := map; rmap := nvm_register_map geo; area_list := []; targets := [];
           total_secs := u64 (s32 (nr_luns geo * geo_sec_per_lun geo)); lptbl := tbl; d_warns := 0 |} in
  if fmtype grp =? NVM_ID_FMTYPE_SLC then
    if negb (lptbl_alloc env) then Some (inl (- ENOMEM)) else Some (finish (nvm_init_slc_tbl (num_pg grp)))
  else if fmtype grp =? NVM_ID_FMTYPE_MLC then
    if nz (num_pairs grp) && negb (lptbl_alloc env) then Some (inl (- ENOMEM)) else
    tbl ← nvm_init_mlc_tbl grp; Some (finish tbl)
  else Some (inl (- EINVAL)).

(** What the driver of a drive says: whether the queue and the operations are there, how many sectors a request has at
    most, whether a pool of memory was created, and the drive's version and geometry, if it could be identified. *)
Record driver := {
  has_ops : bool;
  max_phys_sect : Z;
  pool_created : bool;
  identity : option (Z * nvm_id_group);
  core_alloc : core_env
}.

Definition nvm_init (d : driver) : option (Z + nvm_dev) :=
  match identity d with
  | None => Some (inl (- EINVAL))
  | Some (ver_id, grp) => if negb (ver_id =? 1) then Some (inl (- EINVAL)) else nvm_core_init (core_alloc d) grp
  end.

(** The error, or the new drive. *)
Definition register_dev (d : driver) : option (Z + nvm_dev) :=
  if negb (has_ops d) then Some (inl (- EINVAL)) else
  if 256 <? max_phys_sect d then Some (inl (- EINVAL)) else
  if (1 <? max_phys_sect d) && negb (pool_created d) then Some (inl (- ENOMEM)) else nvm_init d.

(** ** Addresses *)

Definition nvm_map_to_dev (td : nvm_tgt_dev) (p : ppa_addr) : option ppa_addr :=
  match p with
  | Dev blk pg lun ch pl sec =>
      c ← rd (td_map td) ch;
      off ← rd (lun_offs c) lun;
      Some (Dev blk pg ((lun + off) mod 2 ^ NVM_LUN_BITS) ((ch + ch_off c) mod 2 ^ NVM_CH_BITS) pl sec)
  | _ => None
  end.

Definition nvm_map_to_tgt (dev : nvm_dev) (p : ppa_addr) : option ppa_addr :=
  match p with
  | Dev blk pg lun ch pl sec =>
      c ← rd (rmap dev) ch;
      off ← rd (lun_offs c) lun;
      Some (Dev blk pg ((lun - off) mod 2 ^ NVM_LUN_BITS) ((ch - ch_off c) mod 2 ^ NVM_CH_BITS) pl sec)
  | _ => None
  end.

(** The addresses of a request: one, or a list. *)
Inductive rqd_ppas (A : Type) := OnePpa (p : A) | PpaList (l : list A).
Arguments OnePpa {A} p.
Arguments PpaList {A} l.

Section addresses.
(** The kernel's conversions between addresses and the format of the drive. *)
Context (generic_to_dev_addr : nvm_geo → ppa_addr → Z) (dev_to_generic_addr : nvm_geo → Z → ppa_addr).

Definition nvm_ppa_tgt_to_dev (td : nvm_tgt_dev) (ps : list ppa_addr) : option (list Z) :=
  mapM (λ p, p ← nvm_map_to_dev td p; Some (generic_to_dev_addr (td_geo td) p)) ps.

Definition nvm_ppa_dev_to_tgt (dev : nvm_dev) (td : nvm_tgt_dev) (as_ : list Z) : option (list ppa_addr) :=
  mapM (λ a, nvm_map_to_tgt dev (dev_to_generic_addr (td_geo td) a)) as_.

Definition nvm_rq_tgt_to_dev (td : nvm_tgt_dev) (r : rqd_ppas ppa_addr) : option (rqd_ppas Z) :=
  match r with
  | OnePpa p => l ← nvm_ppa_tgt_to_dev td [p]; a ← head l; Some (OnePpa a)
  | PpaList l => l ← nvm_ppa_tgt_to_dev td l; Some (PpaList l)
  end.

Definition nvm_rq_dev_to_tgt (dev : nvm_dev) (td : nvm_tgt_dev) (r : rqd_ppas Z) : option (rqd_ppas ppa_addr) :=
  match r with
  | OnePpa a => l ← nvm_ppa_dev_to_tgt dev td [a]; p ← head l; Some (OnePpa p)
  | PpaList l => l ← nvm_ppa_dev_to_tgt dev td l; Some (PpaList l)
  end.

(** [submit_io] is the driver's operation, if it has one, and its answer to the request.  A request that is not taken
    comes back with the target's addresses, [inl]; one that is taken is with the drive, [inr]. *)
Definition nvm_submit_io (dev : nvm_dev) (td : nvm_tgt_dev) (submit_io : option (rqd_ppas Z → Z)) (r : rqd_ppas ppa_addr)
    : option ((rqd_ppas ppa_addr + rqd_ppas Z) * Z) :=
  match submit_io with
  | None => Some (inl r, - ENODEV)
  | Some submit =>
  d ← nvm_rq_tgt_to_dev td r;
  let ret := submit d in
  if nz ret then r ← nvm_rq_dev_to_tgt dev td d; Some (inl r, ret) else Some (inr d, 0)
  end.

(** The completion of a request, of a target or of none: what its owner gets. *)
Definition nvm_end_io (dev : nvm_dev) (td : option nvm_tgt_dev) (r : rqd_ppas Z) : option (rqd_ppas ppa_addr + rqd_ppas Z) :=
  match td with
  | Some td => r ← nvm_rq_dev_to_tgt dev td r; Some (inl r)
  | None => Some (inr r)
  end.

Definition set_plane (pl : Z) (p : ppa_addr) : ppa_addr :=
  match p with Dev blk pg lun ch _ sec => Dev blk pg lun ch pl sec | _ => p end.

(** The loop over planes and addresses, plane by plane: entry [pl * nr_ppas + i] is address [i] on plane [pl]. *)
Definition plane_list (mode : Z) (ppas : list ppa_addr) : list ppa_addr :=
  seq 0 (Z.to_nat mode) ≫= λ pl, set_plane (Z.of_nat pl) <$> ppas.

(** The addresses [ppas] of a request, on each plane if they are blocks of all planes ([vblk]), or an error. *)
Definition nvm_set_rqd_ppalist (geo : nvm_geo) (dma_alloc : bool) (ppas : list ppa_addr) (vblk : bool)
    : Z + rqd_ppas ppa_addr :=
  let long :=
    if negb dma_alloc then inl (- ENOMEM)
    else inr (PpaList (if vblk then plane_list (plane_mode geo) ppas else ppas)) in
  match ppas with
  | [p] => if negb vblk || (plane_mode geo =? NVM_PLANE_SINGLE) then inr (OnePpa p) else long
  | _ => long
  end.

(** The erasure of blocks, up to its completion: what is returned, and what the drive was asked for. *)
Definition nvm_erase_sync (dev : nvm_dev) (td : nvm_tgt_dev) (dma_alloc : bool) (submit_io : option (rqd_ppas Z → Z))
    (ppas : list ppa_addr) : option (Z * option (rqd_ppas Z)) :=
  match nvm_set_rqd_ppalist (td_geo td) dma_alloc ppas true with
  | inl ret => Some (ret, None)
  | inr r =>
      '(r, ret) ← nvm_submit_io dev td submit_io r;
      Some (ret, match r with inl _ => None | inr d => Some d end)
  end.
End addresses.

(** ** Tables of bad blocks *)

(** The type of a block: that of the first plane that is bad, or of plane 0. *)
Fixpoint bad_plane (n : nat) (blks : list Z) (offset pl blktype : Z) : option Z :=
  match n with
  | O => Some blktype
  | S n =>
      t ← rd blks (offset + pl);
      if nz (Z.land t (Z.lor NVM_BLK_T_BAD NVM_BLK_T_GRWN_BAD)) then Some t
      else bad_plane n blks offset (pl + 1) blktype
  end.

Fixpoint fold_loop (n : nat) (mode blk : Z) (blks : list Z) : option (list Z) :=
  match n with
  | O => Some blks
  | S n =>
      let offset := blk * mode in
      t0 ← rd blks offset;
      t ← bad_plane (Z.to_nat mode) blks offset 0 t0;
      blks ← wr blks blk t;
      fold_loop n mode (blk + 1) blks
  end.

(** The table is folded in place; the second part is what is returned. *)
Definition nvm_bb_tbl_fold (geo : nvm_geo) (blks : list Z) (nr_blks : Z) : option (list Z * Z) :=
  if negb (nr_blks =? s32 (blks_per_lun geo * plane_mode geo)) then Some (blks, - EINVAL) else
  blks ← fold_loop (Z.to_nat (blks_per_lun geo)) (plane_mode geo) 0 blks;
  Some (blks, blks_per_lun geo).

(** ** Areas of sectors *)

(** The place of an area of [len] sectors: where it begins, and the number of areas before it. *)
Fixpoint area_loop (areas : list nvm_area) (len begin : Z) (k : nat) : Z * nat :=
  match areas with
  | [] => (begin, k)
  | a :: areas => if area_begin a <? u64 (begin + len) then area_loop areas len (area_end a) (S k) else (begin, k)
  end.

Definition max_sectors (dev : nvm_dev) : Z := Z.shiftr (u64 (geo_sec_size (d_geo dev) * total_secs dev)) 9.

(** The error, or where the area begins. *)
Definition nvm_get_area (dev : nvm_dev) (alloc : bool) (len : Z) : nvm_dev * (Z + Z) :=
  if max_sectors dev <? len then (dev, inl (- EINVAL)) else
  if negb alloc then (dev, inl (- ENOMEM)) else
  let '(begin, k) := area_loop (area_list dev) len 0 0 in
  if max_sectors dev <? u64 (begin + len) then (dev, inl (- EINVAL)) else
  let area := {| area_begin := begin; area_end := u64 (begin + len) |} in
  (dev <| area_list ::= λ l, take k l ++ area :: drop k l |>, inr begin).

(** The first area that begins there is given back. *)
Definition nvm_put_area (dev : nvm_dev) (begin : Z) : nvm_dev :=
  match list_find (λ a, area_begin a = begin) (area_list dev) with
  | Some (k, _) => dev <| area_list ::= delete k |>
  | None => dev
  end.

(** ** The control device *)

(** The types of targets that are registered, by their names, and the drives with theirs. *)
Record nvm_core := { nvm_tgt_types : list string; nvm_devices : list (string * nvm_dev) }.

#[global] Instance nvm_core_fields : Fields nvm_core := λ s,
  {| nvm_tgt_types := nvm_tgt_types s; nvm_devices := nvm_devices s |}.

Definition nvm_find_target_type (s : nvm_core) (name : string) : bool := bool_decide (name ∈ nvm_tgt_types s).

Definition nvm_register_tgt_type (s : nvm_core) (name : string) : nvm_core * Z :=
  if nvm_find_target_type s name then (s, - EEXIST) else (s <| nvm_tgt_types ::= cons name |>, 0).

(** The type that is registered under that name leaves the list. *)
Definition nvm_unregister_tgt_type (s : nvm_core) (name : string) : nvm_core :=
  match list_find (λ n, n = name) (nvm_tgt_types s) with
  | Some (k, _) => s <| nvm_tgt_types ::= delete k |>
  | None => s
  end.

Definition nvm_register (s : nvm_core) (name : string) (d : driver) : option (nvm_core * Z) :=
  r ← register_dev d;
  match r with
  | inl ret => Some (s, ret)
  | inr dev => Some (s <| nvm_devices ::= cons (name, dev) |>, 0)
  end.

(** Drive number [k] of the list gives up its targets and leaves the list. *)
Definition unregister_nth (s : nvm_core) (k : nat) : option nvm_core :=
  '(_, dev) ← nvm_devices s !! k;
  _ ← nvm_unregister dev;
  Some (s <| nvm_devices ::= delete k |>).

Definition nvm_find_nvm_dev (s : nvm_core) (name : string) : option (nat * (string * nvm_dev)) :=
  list_find (λ d, d.1 = name) (nvm_devices s).

(** A request of [struct nvm_ioctl_create]. *)
Record nvm_ioctl_create := {
  cr_dev : string; cr_tgttype : string; cr_tgtname : string; cr_flags : Z; cr_simple : bool; cr_begin : Z; cr_end : Z
}.

Definition __nvm_configure_create (s : nvm_core) (env : create_env) (c : nvm_ioctl_create) : option (nvm_core * Z) :=
  match nvm_find_nvm_dev s (cr_dev c) with
  | None => Some (s, - EINVAL)
  | Some (k, (name, dev)) =>
      let env := env <| type_found := nvm_find_target_type s (cr_tgttype c) |> in
      '(dev, ret) ← configure_dev dev env (cr_simple c) (cr_tgtname c) (cr_begin c) (cr_end c);
      Some (s <| nvm_devices ::= <[k := (name, dev)]> |>, ret)
  end.

(** Who asks, and whether the request could be copied. *)
Record caller := { capable : bool; copied : bool }.

Definition DISK_NAME_LEN : nat := 32.
Definition NVM_TTYPE_NAME_MAX : nat := 48.
Definition NVM_TARGET_FACTORY : Z := 1.

(** A name that ends within an array of [n] characters. *)
Definition cut (n : nat) (name : string) : string := String.substring 0 (n - 1) name.

Definition nvm_ioctl_dev_create (s : nvm_core) (w : caller) (env : create_env) (c : nvm_ioctl_create) : option (nvm_core * Z) :=
  if negb (capable w) then Some (s, - EPERM) else
  if negb (copied w) then Some (s, - EFAULT) else
  let c := {| cr_dev := cut DISK_NAME_LEN (cr_dev c); cr_tgttype := cut NVM_TTYPE_NAME_MAX (cr_tgttype c);
              cr_tgtname := cut DISK_NAME_LEN (cr_tgtname c); cr_flags := cr_flags c; cr_simple := cr_simple c;
              cr_begin := cr_begin c; cr_end := cr_end c |} in
  if nz (Z.ldiff (cr_flags c) NVM_TARGET_FACTORY) then Some (s, - EINVAL) else __nvm_configure_create s env c.

(** The target of that name is removed from the first drive that has one; [ret] is the answer of the drive before. *)
Fixpoint remove_loop (devs : list (string * nvm_dev)) (name : string) (ret : Z) : option (list (string * nvm_dev) * Z) :=
  match devs with
  | [] => Some ([], ret)
  | (n, dev) :: devs =>
      '(dev, ret) ← nvm_remove_tgt dev name;
      if negb (nz ret) then Some ((n, dev) :: devs, ret) else
      '(devs, ret) ← remove_loop devs name ret;
      Some ((n, dev) :: devs, ret)
  end.

Definition nvm_ioctl_dev_remove (s : nvm_core) (w : caller) (name : string) (flags : Z) : option (nvm_core * Z) :=
  if negb (capable w) then Some (s, - EPERM) else
  if negb (copied w) then Some (s, - EFAULT) else
  if nz flags then Some (s, - EINVAL) else
  '(devs, ret) ← remove_loop (nvm_devices s) (cut DISK_NAME_LEN name) 0;
  Some (s <| nvm_devices := devs |>, ret).
