(* ===== verification/NvmCoreInv.v ===== *)
(** * The LightNVM core: LUNs, channels and the maps of targets

    A range of LUNs is well placed if it lies within a channel or consists of whole channels.
    For such ranges the map of a target shifts all its LUNs alike, and the map of the drive
    undoes it.  [inv] says that the LUNs taken are those of the targets, each of them taken by
    one, and that the map of the drive is right for all of them. *)

From stdpp Require Import strings.
From S2P Require Import Prelude Bitmap RingBuffer PblkAddr NvmCore.

Open Scope Z_scope.

(** ** Intervals of a list *)

(** [l'] is [l] with [v] in the [n] places from [i] on. *)
Definition painted {A} (l l' : list A) (i n : nat) (v : A) : Prop :=
  length l' = length l ∧ ∀ x, l' !! x = if decide (i ≤ x < i + n)%nat then Some v else l !! x.

Lemma painted_0 {A} (l : list A) i v : painted l l i 0 v.
Proof. split; [done|]. intros x. rewrite decide_False by lia. done. Qed.

(** One place more, at the front or at the end. *)
Lemma painted_front {A} (l l' : list A) i n v :
  (i < length l)%nat → painted (<[i := v]> l) l' (S i) n v → painted l l' i (S n) v.
Proof.
  intros Hi [Hl H]. rewrite length_insert in Hl. split; [done|]. intros x. rewrite H.
  destruct (decide (x = i)) as [->|].
  - rewrite decide_False, decide_True by lia. by apply list_lookup_insert_eq.
  - rewrite list_lookup_insert_ne by done. repeat case_decide; done || lia.
Qed.

Lemma painted_end {A} (l l' : list A) i n v :
  (i + n < length l)%nat → painted (<[(i + n)%nat := v]> l) l' i n v → painted l l' i (S n) v.
Proof.
  intros Hi [Hl H]. rewrite length_insert in Hl. split; [done|]. intros x. rewrite H.
  destruct (decide (x = i + n)%nat) as [->|].
  - rewrite decide_False, decide_True by lia. by apply list_lookup_insert_eq.
  - rewrite list_lookup_insert_ne by done. repeat case_decide; done || lia.
Qed.

(** Painting back what was there. *)
Lemma painted_back {A} (l l1 l2 : list A) i n u v :
  painted l l1 i n u → painted l1 l2 i n v → (∀ x, (i ≤ x < i + n)%nat → l !! x = Some v) → l2 = l.
Proof.
  intros [_ H1] [_ H2] H. apply list_eq. intros x. rewrite H2, H1. repeat case_decide; [|done]. by rewrite H.
Qed.

Lemma painted_app {A} (l l1 l2 : list A) i n1 n2 v :
  painted l l1 i n1 v → painted l1 l2 (i + n1) n2 v → painted l l2 i (n1 + n2) v.
Proof.
  intros [L1 H1] [L2 H2]. split; [congruence|]. intros x. rewrite H2, H1. repeat case_decide; done || lia.
Qed.

(** ** Bits of the map of LUNs *)

Lemma test_and_clear_spec b k x :
  b !! k = Some x → test_and_clear_bit b (Z.of_nat k) = Some (x, <[k := false]> b).
Proof.
  intros H. pose proof (lookup_lt_Some _ _ _ H). unfold test_and_clear_bit.
  assert (E : rd b (Z.of_nat k) = Some x) by (apply rd_Some; rewrite Nat2Z.id; split; [lia|done]).
  rewrite E, wr_in_range by lia. cbn [mbind option_bind]. by rewrite Nat2Z.id.
Qed.

Lemma reserve_spec n m i :
  (i + n ≤ length m)%nat →
  (∃ m', reserve_loop n m (Z.of_nat i) = Some (m', None) ∧ (∀ x, (i ≤ x < i + n)%nat → m !! x = Some false) ∧
     painted m m' i n true) ∨
  (∃ m' j, reserve_loop n m (Z.of_nat i) = Some (m', Some (Z.of_nat j)) ∧ (i ≤ j < i + n)%nat ∧ m !! j = Some true ∧
     (∀ x, (i ≤ x < j)%nat → m !! x = Some false) ∧ painted m m' i (j - i) true).
Proof.
  revert m i. induction n as [|n IH]; intros m i Hn; cbn [reserve_loop].
  { left. exists m. split; [done|]. split; [lia|]. apply painted_0. }
  destruct (lookup_lt_is_Some_2 m i) as [v Hv]; [lia|]. rewrite (test_and_set_spec m i v) by done. cbn [mbind option_bind].
  destruct v.
  - right. exists (<[i := true]> m), i. split; [done|]. split; [lia|]. split; [done|]. split; [lia|].
    rewrite list_insert_id, Nat.sub_diag by done. apply painted_0.
  - replace (Z.of_nat i + 1) with (Z.of_nat (S i)) by lia.
    destruct (IH (<[i := true]> m) (S i)) as [(m' & E & H1 & H2)|(m' & j & E & H1 & H2 & H3 & H4)];
      [rewrite length_insert; lia|left|right].
    + exists m'. split; [done|]. split; [|apply painted_front; [lia|done]].
      intros x Hx. destruct (decide (x = i)) as [->|]; [done|]. rewrite <- (H1 x) by lia. by rewrite list_lookup_insert_ne.
    + exists m', j. split; [done|]. split; [lia|]. rewrite list_lookup_insert_ne in H2 by lia. split; [done|]. split.
      * intros x Hx. destruct (decide (x = i)) as [->|]; [done|]. rewrite <- (H3 x) by lia. by rewrite list_lookup_insert_ne.
      * replace (j - i)%nat with (S (j - S i)) by lia. apply painted_front; [lia|done].
Qed.

Lemma clear_down_spec n m i :
  (i + n ≤ length m)%nat → ∃ m', clear_down n m (Z.of_nat (i + n) - 1) = Some m' ∧ painted m m' i n false.
Proof.
  revert m. induction n as [|n IH]; intros m Hn; cbn [clear_down].
  { exists m. split; [done|]. apply painted_0. }
  rewrite wr_in_range by lia. cbn [mbind option_bind].
  replace (Z.to_nat (Z.of_nat (i + S n) - 1)) with (i + n)%nat by lia.
  destruct (IH (<[(i + n)%nat := false]> m)) as (m' & E & Hp); [rewrite length_insert; lia|].
  exists m'. split; [|apply painted_end; [lia|done]]. rewrite <- E. f_equal. lia.
Qed.

Lemma release_spec n m i w :
  (∀ x, (i ≤ x < i + n)%nat → m !! x = Some true) →
  ∃ m', release_loop n m (Z.of_nat i) w = Some (m', w) ∧ painted m m' i n false.
Proof.
  revert m i. induction n as [|n IH]; intros m i H; cbn [release_loop].
  { exists m. split; [done|]. apply painted_0. }
  rewrite (test_and_clear_spec m i true) by (apply H; lia). cbn [mbind option_bind].
  replace (Z.of_nat i + 1) with (Z.of_nat (S i)) by lia.
  destruct (IH (<[i := false]> m) (S i)) as (m' & E & Hp).
  { intros x Hx. rewrite list_lookup_insert_ne by lia. apply H. lia. }
  exists m'. split; [done|]. apply painted_front; [|done]. eapply lookup_lt_Some, H. lia.
Qed.

(** ** Ranges of LUNs *)

(** [r_k] channels from [r_ch] on, of each of them [r_per] LUNs from [r_lun] on. *)
Record range := { r_ch : nat; r_k : nat; r_lun : nat; r_per : nat }.

Section ranges.
(** A drive of [C] channels with [L] LUNs each. *)
Context (C L : nat).

Record range_ok (r : range) : Prop := {
  ro_k : (0 < r_k r)%nat;
  ro_per : (0 < r_per r)%nat;
  ro_ch : (r_ch r + r_k r ≤ C)%nat;
  ro_lun : (r_lun r + r_per r ≤ L)%nat;
  ro_whole : r_k r = 1%nat ∨ r_per r = L
}.

Definition r_begin (r : range) : nat := (r_ch r * L + r_lun r)%nat.
Definition r_size (r : range) : nat := (r_k r * r_per r)%nat.
Definition owns (r : range) (x : nat) : Prop := (r_begin r ≤ x < r_begin r + r_size r)%nat.

Definition disjoint (r1 r2 : range) : Prop := ∀ x, owns r1 x → owns r2 x → False.

Lemma whole_lun r : range_ok r → (2 ≤ r_k r)%nat → r_lun r = 0%nat ∧ r_per r = L.
Proof. intros [] H. lia. Qed.

Lemma owns_lun r i j :
  range_ok r → (i < r_k r)%nat → (j < r_per r)%nat → owns r ((r_ch r + i) * L + (r_lun r + j)).
Proof.
  intros Hr Hi Hj. pose proof Hr as []. unfold owns, r_begin, r_size.
  destruct (decide (r_k r = 1%nat)) as [E|E]; [rewrite E in *; assert (i = 0%nat) as -> by lia; lia|].
  destruct (whole_lun r Hr) as [E1 E2]; [lia|]. rewrite E1, E2 in *. nia.
Qed.

Lemma owns_split r x :
  range_ok r → owns r x → ∃ i j, (i < r_k r)%nat ∧ (j < r_per r)%nat ∧ x = ((r_ch r + i) * L + (r_lun r + j))%nat.
Proof.
  intros Hr [H1 H2]. pose proof Hr as []. unfold r_begin, r_size in *.
  destruct (decide (r_k r = 1%nat)) as [E|E]; [rewrite E in *; exists 0%nat, (x - r_ch r * L - r_lun r)%nat; lia|].
  destruct (whole_lun r Hr) as [E1 E2]; [lia|]. rewrite E1, E2 in *.
  exists ((x - r_ch r * L) / L)%nat, ((x - r_ch r * L) mod L)%nat.
  pose proof (Nat.div_mod_eq (x - r_ch r * L) L). pose proof (Nat.mod_upper_bound (x - r_ch r * L) L ltac:(lia)).
  split; [|lia]. apply Nat.Div0.div_lt_upper_bound. lia.
Qed.

Lemma owns_bound r x : range_ok r → owns r x → (x < C * L)%nat.
Proof.
  intros Hr [_ H]. pose proof Hr as []. unfold r_begin, r_size in H.
  destruct (decide (r_k r = 1%nat)) as [E|E]; [rewrite E in *; nia|].
  destruct (whole_lun r Hr) as [E1 E2]; [lia|]. rewrite E1, E2 in *. nia.
Qed.

Lemma size_pos r : range_ok r → (0 < r_size r)%nat.
Proof. intros []. unfold r_size. nia. Qed.

(** Two ranges that share a channel but no LUN are each within it. *)
Lemma shared_channel r1 r2 c :
  range_ok r1 → range_ok r2 → disjoint r1 r2 →
  (r_ch r1 ≤ c < r_ch r1 + r_k r1)%nat → (r_ch r2 ≤ c < r_ch r2 + r_k r2)%nat →
  r_ch r1 = c ∧ r_ch r2 = c ∧ ∀ x, (r_lun r1 ≤ x < r_lun r1 + r_per r1)%nat → (r_lun r2 ≤ x < r_lun r2 + r_per r2)%nat → False.
Proof.
  intros H1 H2 Hd Hc1 Hc2.
  assert (Hx : ∀ x, (r_lun r1 ≤ x < r_lun r1 + r_per r1)%nat → (r_lun r2 ≤ x < r_lun r2 + r_per r2)%nat → False).
  { intros x Hx1 Hx2. apply (Hd (c * L + x)%nat).
    - replace (c * L + x)%nat with ((r_ch r1 + (c - r_ch r1)) * L + (r_lun r1 + (x - r_lun r1)))%nat by nia. apply owns_lun; [done|lia..].
    - replace (c * L + x)%nat with ((r_ch r2 + (c - r_ch r2)) * L + (r_lun r2 + (x - r_lun r2)))%nat by nia. apply owns_lun; [done|lia..]. }
  pose proof H1 as []. pose proof H2 as []. split_and!; [| |done].
  - destruct (decide (r_k r1 = 1%nat)); [lia|]. destruct (whole_lun r1 H1) as [E1 E2]; [lia|].
    exfalso. apply (Hx (r_lun r2)); lia.
  - destruct (decide (r_k r2 = 1%nat)); [lia|]. destruct (whole_lun r2 H2) as [E1 E2]; [lia|].
    exfalso. apply (Hx (r_lun r1)); lia.
Qed.

(** ** The map of a target and that of the drive *)

Definition ch_map_of (r : range) : nvm_ch_map :=
  {| ch_off := Z.of_nat (r_ch r); ch_nr_luns := Z.of_nat (r_per r); lun_offs := replicate (r_per r) (Z.of_nat (r_lun r)) |}.

Definition luns_of (r : range) (i n : nat) : list (Z * Z) :=
  seq i n ≫= λ i, (λ j, (Z.of_nat i, Z.of_nat j)) <$> seq 0 (r_per r).

(** Channel [c] of the map of the drive undoes the map of [r]. *)
Definition undoes (r : range) (m : nvm_ch_map) : Prop :=
  ch_off m = Z.of_nat (r_ch r) ∧ ∀ x, (r_lun r ≤ x < r_lun r + r_per r)%nat → lun_offs m !! x = Some (Z.of_nat (r_lun r)).

Definition undone (r : range) (rm : list nvm_ch_map) : Prop :=
  ∀ c, (r_ch r ≤ c < r_ch r + r_k r)%nat → ∃ m, rm !! c = Some m ∧ undoes r m.

Definition rmap_ok (rm : list nvm_ch_map) : Prop :=
  length rm = C ∧ ∀ c m, rm !! c = Some m → length (lun_offs m) = L.

(** What setting up a target of range [r] may change in channel [c]. *)
Record touched (r : range) (c : nat) (m m' : nvm_ch_map) : Prop := {
  to_len : length (lun_offs m') = length (lun_offs m);
  to_out : (c < r_ch r ∨ r_ch r + r_k r ≤ c)%nat → m' = m;
  to_off : ch_off m' = ch_off m ∨ ch_off m' = Z.of_nat (r_ch r);
  to_lun : ∀ x, (x < r_lun r ∨ r_lun r + r_per r ≤ x)%nat → lun_offs m' !! x = lun_offs m !! x
}.

Definition touched_map (r : range) (rm rm' : list nvm_ch_map) : Prop :=
  length rm' = length rm ∧ ∀ c m, rm !! c = Some m → ∃ m', rm' !! c = Some m' ∧ touched r c m m'.

Lemma touched_refl r c m : touched r c m m.
Proof. split; auto. Qed.

Lemma touched_map_refl r rm : touched_map r rm rm.
Proof. split; [done|]. intros c m H. exists m. split; [done|apply touched_refl]. Qed.

Lemma touched_map_trans r rm1 rm2 rm3 : touched_map r rm1 rm2 → touched_map r rm2 rm3 → touched_map r rm1 rm3.
Proof.
  intros [L1 H1] [L2 H2]. split; [congruence|]. intros c m Hm. destruct (H1 c m Hm) as (m2 & Hm2 & []).
  destruct (H2 c m2 Hm2) as (m3 & Hm3 & []). exists m3. split; [done|]. split.
  - congruence.
  - intros Hc. rewrite to_out1, to_out0; done.
  - destruct to_off1 as [->|]; [done|by right].
  - intros x Hx. rewrite to_lun1, to_lun0; done.
Qed.

Lemma touched_insert r rm c m m' :
  rm !! c = Some m → touched r c m m' → touched_map r rm (<[c := m']> rm).
Proof.
  intros Hm Ht. split; [apply length_insert|]. intros d md Hd. destruct (decide (d = c)) as [->|].
  - exists m'. rewrite list_lookup_insert_eq by (by eapply lookup_lt_Some). assert (md = m) as -> by congruence. done.
  - exists md. rewrite list_lookup_insert_ne by done. split; [done|apply touched_refl].
Qed.

Lemma rmap_touched r rm rm' : touched_map r rm rm' → rmap_ok rm → rmap_ok rm'.
Proof.
  intros [Hl H] [H1 H2]. split; [congruence|]. intros c m' Hm'. pose proof (lookup_lt_Some _ _ _ Hm').
  destruct (lookup_lt_is_Some_2 rm c) as [m Hm]; [lia|]. destruct (H c m Hm) as (m2 & Hm2 & []).
  assert (m2 = m') as -> by congruence. rewrite to_len0. by apply (H2 c).
Qed.

(** The map stays right for the other targets. *)
Lemma undone_touched r r' rm rm' :
  range_ok r → range_ok r' → disjoint r r' → touched_map r rm rm' → undone r' rm → undone r' rm'.
Proof.
  intros Hr Hr' Hd [_ H] Hu c Hc. destruct (Hu c Hc) as (m & Hm & E & Hx). destruct (H c m Hm) as (m' & Hm' & []).
  exists m'. split; [done|].
  destruct (decide (r_ch r ≤ c < r_ch r + r_k r)%nat) as [Hin|Hout]; [|by rewrite to_out0 by lia].
  destruct (shared_channel r r' c Hr Hr' Hd Hin Hc) as (E1 & E2 & Hn). split.
  - destruct to_off0 as [->| ->]; [done|]. congruence.
  - intros x Hxr. rewrite to_lun0; [by apply Hx|]. destruct (decide (r_lun r ≤ x < r_lun r + r_per r)%nat); [|lia]. exfalso. by apply (Hn x).
Qed.

(** ** Setting up the maps *)

Lemma roffs_spec n l j bl :
  (bl + j + n ≤ length l)%nat →
  ∃ l', roffs_loop n l (Z.of_nat j) (Z.of_nat bl) = Some l' ∧ painted l l' (bl + j) n (Z.of_nat bl).
Proof.
  revert l j. induction n as [|n IH]; intros l j Hn; cbn [roffs_loop].
  { exists l. split; [done|apply painted_0]. }
  rewrite wr_in_range by lia. cbn [mbind option_bind].
  replace (Z.to_nat (Z.of_nat j + Z.of_nat bl)) with (bl + j)%nat by lia. replace (Z.of_nat j + 1) with (Z.of_nat (S j)) by lia.
  destruct (IH (<[(bl + j)%nat := Z.of_nat bl]> l) (S j)) as (l' & E & Hp); [rewrite length_insert; lia|].
  exists l'. split; [done|]. apply painted_front; [lia|]. by rewrite Nat.add_succ_r in Hp.
Qed.

Lemma painted_touched r c m l' :
  (r_ch r ≤ c < r_ch r + r_k r)%nat → painted (lun_offs m) l' (r_lun r) (r_per r) (Z.of_nat (r_lun r)) →
  let m' := {| ch_off := Z.of_nat (r_ch r); ch_nr_luns := ch_nr_luns m; lun_offs := l' |} in
  touched r c m m' ∧ undoes r m'.
Proof.
  intros Hc [Hl H] m'. split; [split|split]; simpl.
  - done.
  - lia.
  - by right.
  - intros x Hx. rewrite H, decide_False by lia. done.
  - done.
  - intros x Hx. by rewrite H, decide_True by lia.
Qed.

(** What the loop over the channels leaves: the maps so far, and the map of the drive right for the
    channels that are done. *)
Record built_from (r : range) (i n : nat) (b b' : tgt_build) (ok : bool) : Prop := {
  bf_touched : touched_map r (b_rmap b) (b_rmap b');
  bf_before : ∀ c, (c < r_ch r + i)%nat → b_rmap b' !! c = b_rmap b !! c;
  bf_map : ok = true → b_map b' = b_map b ++ replicate n (ch_map_of r);
  bf_luns : ok = true → b_luns b' = b_luns b ++ luns_of r i n;
  bf_bal : ok = true → b_balanced b' = b_balanced b;
  bf_undoes : ok = true → ∀ c, (r_ch r + i ≤ c < r_ch r + i + n)%nat → ∃ m, b_rmap b' !! c = Some m ∧ undoes r m
}.

Lemma luns_in r n :
  range_ok r → (S n ≤ r_k r)%nat →
  (if Z.of_nat L <? Z.of_nat (S n * r_per r) then Z.of_nat L else Z.of_nat (S n * r_per r)) = Z.of_nat (r_per r) .
Proof.
  intros Hr Hn. pose proof Hr as []. destruct n as [|n]; [rewrite (proj2 (Z.ltb_ge _ _)) by lia; lia|].
  destruct (whole_lun r Hr) as [_ E]; [lia|]. rewrite E. rewrite (proj2 (Z.ltb_lt _ _)) by nia. done.
Qed.

(** One channel, and the rest of them. *)
Lemma built_step r i n b m rm1 b' ok :
  b_rmap b !! (r_ch r + i)%nat = Some m → (i < r_k r)%nat →
  touched r (r_ch r + i) m rm1 → undoes r rm1 →
  built_from r (S i) n
    {| b_rmap := <[(r_ch r + i)%nat := rm1]> (b_rmap b); b_map := b_map b ++ [ch_map_of r];
       b_luns := b_luns b ++ luns_of r i 1; b_balanced := b_balanced b |} b' ok →
  built_from r i (S n) b b' ok.
Proof.
  intros Hm Hi Ht Hu []. simpl in *. pose proof (lookup_lt_Some _ _ _ Hm) as Hlt. split.
  - eapply touched_map_trans; [by eapply touched_insert|done].
  - intros c Hc. rewrite bf_before0 by lia. by rewrite list_lookup_insert_ne by lia.
  - intros E. rewrite bf_map0 by done. by rewrite <- app_assoc.
  - intros E. rewrite bf_luns0 by done. rewrite <- app_assoc. f_equal. unfold luns_of. simpl. by rewrite app_nil_r.
  - done.
  - intros E c Hc. destruct (decide (c = r_ch r + i)%nat) as [->|]; [|apply bf_undoes0; [done|lia]].
    exists rm1. split; [|done]. rewrite bf_before0 by lia. by apply list_lookup_insert_eq.
Qed.

Lemma ch_loop_spec r n alloc b i bl :
  range_ok r → rmap_ok (b_rmap b) → (i + n = r_k r)%nat → (n ≠ 0%nat → bl = Z.of_nat (r_lun r)) →
  ∃ b' ok, ch_loop n alloc (Z.of_nat L) (Z.of_nat (r_ch r)) (Z.of_nat (r_per r)) (Z.of_nat i) (Z.of_nat (n * r_per r)) bl b = Some (b', ok) ∧
    built_from r i n b b' ok ∧ ((∀ j, alloc j = true) → ok = true).
Proof.
  intros Hr. revert b i bl. induction n as [|n IH]; intros b i bl Hrm Hi Hbl; cbn [ch_loop].
  { exists b, true. split; [done|]. split; [|done]. split; try done; try (intros; by rewrite ?app_nil_r); [apply touched_map_refl|lia]. }
  pose proof Hr as []. pose proof Hrm as [Hlen Hoffs].
  destruct (lookup_lt_is_Some_2 (b_rmap b) (r_ch r + i)) as [m Hm]; [lia|].
  rewrite (luns_in r n Hr) by lia. rewrite Hbl by done.
  assert (Er : rd (b_rmap b) (Z.of_nat i + Z.of_nat (r_ch r)) = Some m).
  { apply rd_Some. split; [lia|]. by replace (Z.to_nat _) with (r_ch r + i)%nat by lia. }
  rewrite Er. cbn [mbind option_bind]. rewrite Z.eqb_refl, andb_true_r.
  rewrite !(wr_in_range (b_rmap b)) by lia. replace (Z.to_nat (Z.of_nat i + Z.of_nat (r_ch r))) with (r_ch r + i)%nat by lia.
  destruct (alloc (Z.of_nat i)) eqn:Ea; cbn [negb].
  2:{ eexists _, false. cbn [mbind option_bind]. split; [done|]. split; [|intros Ha; by rewrite Ha in Ea].
      split; simpl; try done.
      - eapply touched_insert; [done|]. split; simpl; try done; [lia|by right].
      - intros c Hc. by rewrite list_lookup_insert_ne by lia. }
  rewrite Nat2Z.id. destruct (roffs_spec (r_per r) (lun_offs m) 0 (r_lun r)) as (l' & El & Hp).
  { rewrite (Hoffs _ _ Hm). lia. }
  change (Z.of_nat 0) with 0 in El. rewrite El. cbn [mbind option_bind]. rewrite Nat.add_0_r in Hp.
  destruct (painted_touched r (r_ch r + i) m l' ltac:(lia) Hp) as [Ht Hu].
  set (m' := {| ch_off := _; ch_nr_luns := ch_nr_luns m; lun_offs := l' |}) in *.
  replace (Z.of_nat i + 1) with (Z.of_nat (S i)) by lia.
  replace (Z.of_nat (S n * r_per r) - Z.of_nat (r_per r)) with (Z.of_nat (n * r_per r)) by lia.
  change {| ch_off := _; ch_nr_luns := Z.of_nat (r_per r); lun_offs := replicate (r_per r) (Z.of_nat (r_lun r)) |} with (ch_map_of r).
  replace ((λ j, (Z.of_nat i, Z.of_nat j)) <$> seq 0 (r_per r)) with (luns_of r i 1) by (unfold luns_of; simpl; by rewrite app_nil_r).
  set (b1 := {| b_rmap := <[(r_ch r + i)%nat := m']> (b_rmap b); b_map := b_map b ++ [ch_map_of r];
                b_luns := b_luns b ++ luns_of r i 1; b_balanced := b_balanced b |}).
  destruct (IH b1 (S i) 0) as (b' & ok & E & Hb & Hok).
  { eapply rmap_touched; [|exact Hrm]. by eapply touched_insert. }
  { lia. }
  { intros Hn. destruct (whole_lun r Hr) as [E _]; [lia|]. by rewrite E. }
  exists b', ok. rewrite wr_in_range by lia. cbn [mbind option_bind].
  replace (Z.to_nat (Z.of_nat i + Z.of_nat (r_ch r))) with (r_ch r + i)%nat by lia.
  split; [exact E|]. split; [|done]. apply (built_step r i n b m m'); [done|lia|done..].
Qed.
End ranges.

(** ** The drive and its targets *)

Section drive.
Context (C L : nat).

Record geo_is (geo : nvm_geo) (c l n : nat) : Prop := {
  gi_chnls : nr_chnls geo = Z.of_nat c;
  gi_luns : luns_per_chnl geo = Z.of_nat l;
  gi_nr : nr_luns geo = Z.of_nat n
}.

(** The device of a target of range [r]. *)
Record td_is (geo : nvm_geo) (r : range) (td : nvm_tgt_dev) : Prop := {
  ti_geo : td_geo td = geo <| nr_chnls := Z.of_nat (r_k r) |> <| nr_luns := Z.of_nat (r_size r) |>
                           <| luns_per_chnl := Z.of_nat (r_per r) |>;
  ti_map : td_map td = replicate (r_k r) (ch_map_of r);
  ti_luns : td_luns td = luns_of r 0 (r_k r)
}.

(** The LUNs in use are those of the targets, whose ranges are [rs]. *)
Record inv (dev : nvm_dev) (rs : list range) : Prop := {
  iv_geo : geo_is (d_geo dev) C L (C * L);
  iv_len : (C * L ≤ length (lun_map dev))%nat;
  iv_rmap : rmap_ok C L (rmap dev);
  iv_targets : Forall2 (λ t r, td_is (d_geo dev) r (t_dev t) ∧ range_ok C L r ∧ undone r (rmap dev)) (targets dev) rs;
  iv_taken : ∀ x, lun_map dev !! x = Some true ↔ ∃ r, r ∈ rs ∧ owns L r x;
  iv_disj : ∀ i j r1 r2, rs !! i = Some r1 → rs !! j = Some r2 → i ≠ j → disjoint L r1 r2;
  iv_names : NoDup (t_name <$> targets dev);
  iv_warns : d_warns dev = 0%nat
}.

Definition lun_begin (r : range) : Z := Z.of_nat (r_begin L r).
Definition lun_end (r : range) : Z := Z.of_nat (r_begin L r + r_size r) - 1.

(** *** Reserving and releasing *)

Lemma dev_map_id (dev : nvm_dev) : dev <| lun_map := lun_map dev |> = dev.
Proof. by destruct dev. Qed.

Lemma range_in_map dev rs r x : inv dev rs → range_ok C L r → owns L r x → is_Some (lun_map dev !! x).
Proof. intros Hi Hr Hx. apply lookup_lt_is_Some_2. pose proof (owns_bound C L r x Hr Hx). pose proof (iv_len _ _ Hi). lia. Qed.

Lemma range_len dev rs r : inv dev rs → range_ok C L r → (r_begin L r + r_size r ≤ length (lun_map dev))%nat.
Proof.
  intros Hi Hr. pose proof (size_pos C L r Hr). pose proof (iv_len _ _ Hi).
  pose proof (owns_bound C L r (r_begin L r + r_size r - 1) Hr ltac:(unfold owns; lia)). lia.
Qed.

Definition is_new (dev : nvm_dev) (r : range) : Prop := ∀ x, owns L r x → lun_map dev !! x = Some false.

Lemma reserve_luns_spec dev rs r :
  inv dev rs → range_ok C L r →
  (is_new dev r ∧ ∃ m, nvm_reserve_luns dev (lun_begin r) (lun_end r) = Some (dev <| lun_map := m |>, 0) ∧
     painted (lun_map dev) m (r_begin L r) (r_size r) true) ∨
  (¬ is_new dev r ∧ nvm_reserve_luns dev (lun_begin r) (lun_end r) = Some (dev, - EBUSY)).
Proof.
  intros Hi Hr. pose proof (range_len dev rs r Hi Hr) as Hl. unfold nvm_reserve_luns, lun_end, lun_begin.
  replace (Z.to_nat _) with (r_size r) by lia.
  destruct (reserve_spec (r_size r) (lun_map dev) (r_begin L r) Hl) as [(m & E & Hf & Hp)|(m & j & E & Hj & Ht & Hf & Hp)];
    rewrite E; cbn [mbind option_bind]; [left|right].
  - split; [|by exists m]. intros x Hx. by apply Hf.
  - split; [intros Hn; rewrite (Hn j) in Ht by (unfold owns; lia); done|].
    replace (Z.to_nat (Z.of_nat j - Z.of_nat (r_begin L r))) with (j - r_begin L r)%nat by lia.
    destruct (clear_down_spec (j - r_begin L r) m (r_begin L r)) as (m' & E' & Hp').
    { destruct Hp as [-> _]. lia. }
    replace (Z.of_nat (r_begin L r + (j - r_begin L r))) with (Z.of_nat j) in E' by lia.
    rewrite E'. cbn [mbind option_bind].
    rewrite (painted_back _ _ _ _ _ _ _ Hp Hp'), dev_map_id; [done|]. intros x Hx. apply Hf. lia.
Qed.

Lemma release_luns_spec dev dev0 r :
  is_new dev0 r → painted (lun_map dev0) (lun_map dev) (r_begin L r) (r_size r) true →
  nvm_release_luns_err dev (lun_begin r) (lun_end r) = Some (dev <| lun_map := lun_map dev0 |>).
Proof.
  intros Hn Hp. unfold nvm_release_luns_err, lun_begin, lun_end. replace (Z.to_nat _) with (r_size r) by lia.
  destruct (release_spec (r_size r) (lun_map dev) (r_begin L r) 0) as (m & E & Hp').
  { intros x Hx. destruct Hp as [_ ->]. by rewrite decide_True. }
  rewrite E. cbn [mbind option_bind]. rewrite (painted_back _ _ _ _ _ _ _ Hp Hp'); [by destruct dev|].
  intros x Hx. by apply Hn.
Qed.

(** *** The device of a new target *)

Lemma range_chnls r :
  range_ok C L r →
  (if Z.rem (Z.of_nat (r_size r)) (Z.of_nat L) =? 0 then Z.quot (Z.of_nat (r_size r)) (Z.of_nat L)
   else Z.quot (Z.of_nat (r_size r)) (Z.of_nat L) + 1) = Z.of_nat (r_k r).
Proof.
  intros []. unfold r_size. rewrite Z.quot_div_nonneg, Z.rem_mod_nonneg by lia.
  destruct (decide (r_per r = L)) as [->|].
  - rewrite Nat2Z.inj_mul, Z_mod_mult, Z.div_mul by lia. done.
  - assert (r_k r = 1%nat) as -> by lia. rewrite Nat.mul_1_l, Z.mod_small, Z.div_small by lia.
    by rewrite (proj2 (Z.eqb_neq _ 0)) by lia.
Qed.

Lemma range_begin r :
  range_ok C L r →
  Z.quot (lun_begin r) (Z.of_nat L) = Z.of_nat (r_ch r) ∧ Z.rem (lun_begin r) (Z.of_nat L) = Z.of_nat (r_lun r).
Proof.
  intros []. unfold lun_begin, r_begin. rewrite Z.quot_div_nonneg, Z.rem_mod_nonneg by lia.
  replace (Z.of_nat (r_ch r * L + r_lun r)) with (Z.of_nat (r_lun r) + Z.of_nat (r_ch r) * Z.of_nat L) by lia.
  rewrite Z.div_add, Z.mod_add, Z.div_small, Z.mod_small by lia. lia.
Qed.

Definition memory_ok (env : create_env) : Prop :=
  target_alloc env = true ∧ map_alloc env = true ∧ (∀ i, lun_offs_alloc env i = true) ∧ tgt_dev_alloc env = true.

Lemma create_dev_spec dev env r :
  geo_is (d_geo dev) C L (C * L) → rmap_ok C L (rmap dev) → range_ok C L r →
  ∃ rm td, nvm_create_tgt_dev dev env (lun_begin r) (lun_end r) = Some (dev <| rmap := rm |>, td) ∧
    touched_map r (rmap dev) rm ∧ (∀ t, td = Some t → td_is (d_geo dev) r t ∧ undone r rm) ∧
    (memory_ok env → is_Some td).
Proof.
  intros Hg Hrm Hr. pose proof Hr as []. destruct Hg as [Ec El En].
  unfold nvm_create_tgt_dev. rewrite El. unfold nz. rewrite (proj2 (Z.eqb_neq (Z.of_nat L) 0)) by lia. cbn [negb ensure mbind option_bind].
  destruct (range_begin r Hr) as [-> ->].
  replace (lun_end r - lun_begin r + 1) with (Z.of_nat (r_size r)) by (unfold lun_end, lun_begin; lia).
  rewrite (range_chnls r Hr).
  destruct (map_alloc env) eqn:Em; cbn [negb].
  2:{ exists (rmap dev), None. split; [by destruct dev|]. split; [apply touched_map_refl|]. split; [done|]. intros (_ & H & _). congruence. }
  assert (Ep : (if Z.of_nat L <? Z.of_nat (r_size r) then Z.of_nat L else Z.of_nat (r_size r)) = Z.of_nat (r_per r)).
  { pose proof (luns_in C L r (r_k r - 1) Hr ltac:(lia)) as E. replace (S (r_k r - 1)) with (r_k r) in E by lia. exact E. }
  rewrite Ep, Nat2Z.id.
  set (b0 := {| b_rmap := rmap dev; b_map := []; b_luns := []; b_balanced := true |}).
  destruct (ch_loop_spec C L r (r_k r) (lun_offs_alloc env) b0 0 (Z.of_nat (r_lun r)) Hr Hrm) as (b & ok & E & Hb & Hok); [lia|done|].
  change (Z.of_nat 0) with 0 in E. change (r_k r * r_per r)%nat with (r_size r) in E. rewrite E. cbn [mbind option_bind].
  destruct Hb. destruct (ok && tgt_dev_alloc env) eqn:Eo; cbn [negb].
  - apply andb_true_iff in Eo as [-> _]. eexists (b_rmap b), (Some _). split; [done|]. split; [done|]. split; [|done].
    intros t Et. injection Et as <-. split.
    + split; simpl; [|by apply bf_map0|by apply bf_luns0]. by rewrite bf_bal0.
    + intros c Hc. apply bf_undoes0; [done|lia].
  - exists (b_rmap b), None. split; [done|]. split; [done|]. split; [done|].
    intros (_ & _ & H1 & H2). rewrite Hok, H2 in Eo; done.
Qed.

(** *** Creating targets *)

Lemma new_disjoint dev rs r r' : inv dev rs → is_new dev r → r' ∈ rs → disjoint L r r'.
Proof.
  intros Hi Hn Hin x Hx Hx'. assert (lun_map dev !! x = Some true) by (apply (iv_taken _ _ Hi); by exists r').
  rewrite Hn in H by done. done.
Qed.

Lemma targets_touched dev rs r rm :
  inv dev rs → range_ok C L r → is_new dev r → touched_map r (rmap dev) rm →
  Forall2 (λ t r, td_is (d_geo dev) r (t_dev t) ∧ range_ok C L r ∧ undone r rm) (targets dev) rs.
Proof.
  intros Hi Hr Hn Ht. pose proof (iv_targets _ _ Hi) as Hf. rewrite Forall2_lookup in Hf. apply Forall2_lookup. intros k.
  specialize (Hf k). destruct (targets dev !! k) as [t|] eqn:E1, (rs !! k) as [r'|] eqn:E2; inv Hf; constructor.
  destruct H1 as (H1 & H2 & H3). split; [done|]. split; [done|].
  apply (undone_touched C L r r' (rmap dev)); try done. apply (new_disjoint dev rs); try done. by eapply list_elem_of_lookup_2.
Qed.

Lemma inv_touched dev rs r rm :
  inv dev rs → range_ok C L r → is_new dev r → touched_map r (rmap dev) rm → inv (dev <| rmap := rm |>) rs.
Proof.
  intros Hi Hr Hn Ht. pose proof Hi as []. split; simpl; try done; [by eapply rmap_touched|by eapply targets_touched].
Qed.

Lemma inv_add dev rs r rm m td name :
  inv dev rs → range_ok C L r → is_new dev r → touched_map r (rmap dev) rm → undone r rm →
  painted (lun_map dev) m (r_begin L r) (r_size r) true → td_is (d_geo dev) r td → nvm_find_target dev name = None →
  inv (dev <| lun_map := m |> <| rmap := rm |> <| targets := targets dev ++ [{| t_name := name; t_dev := td |}] |>) (rs ++ [r]).
Proof.
  intros Hi Hr Hn Ht Hu [Hl Hp] Htd Hf. pose proof Hi as []. split; simpl; try done.
  - by rewrite Hl.
  - by eapply rmap_touched.
  - apply Forall2_app; [by eapply targets_touched|]. apply Forall2_cons; split; [done|constructor].
  - intros x. rewrite Hp. case_decide as Hx.
    + split; [|done]. intros _. exists r. split; [apply elem_of_app; right; by left|done].
    + rewrite iv_taken0. split; intros (r' & Hin & Hx').
      * exists r'. split; [apply elem_of_app; by left|done].
      * exists r'. apply elem_of_app in Hin as [?| ->%list_elem_of_singleton]; done.
  - assert (Hd : ∀ i r', rs !! i = Some r' → disjoint L r r').
    { intros i r' H. apply (new_disjoint dev rs); try done. by eapply list_elem_of_lookup_2. }
    intros i j r1 r2 [H1|[Hi1 H1]]%lookup_app_Some [H2|[Hj1 H2]]%lookup_app_Some Hne.
    + by apply (iv_disj0 i j).
    + apply list_lookup_singleton_Some in H2 as [_ <-]. intros x Hx1 Hx2. by apply (Hd i r1 H1 x).
    + apply list_lookup_singleton_Some in H1 as [_ <-]. by apply (Hd j).
    + apply list_lookup_singleton_Some in H1 as [E1 _], H2 as [E2 _]. lia.
  - rewrite fmap_app. simpl. apply NoDup_app. split; [done|]. split; [|apply NoDup_singleton].
    intros x Hx ->%list_elem_of_singleton. apply list_elem_of_fmap in Hx as (t & -> & Hin).
    apply list_find_None in Hf. rewrite Forall_forall in Hf. by apply (Hf t).
Qed.

(** A target is created just if it can be, and an error leaves LUNs and targets as they were. *)
Lemma create_spec dev rs env name r :
  inv dev rs → range_ok C L r →
  ∃ dev' ret, nvm_create_tgt dev env name (lun_begin r) (lun_end r) = Some (dev', ret) ∧
    ((ret = 0 ∧ type_found env = true ∧ nvm_find_target dev name = None ∧ is_new dev r ∧ inv dev' (rs ++ [r]) ∧
      ∃ td, td_is (d_geo dev) r td ∧ targets dev' = targets dev ++ [{| t_name := name; t_dev := td |}] ∧ d_geo dev' = d_geo dev) ∨
     (ret ≠ 0 ∧ inv dev' rs ∧ dev' = dev <| rmap := rmap dev' |> ∧
      ¬ (type_found env = true ∧ nvm_find_target dev name = None ∧ is_new dev r ∧ memory_ok env ∧ setup env = 0))).
Proof.
  intros Hi Hr. unfold nvm_create_tgt.
  assert (Hid : dev = dev <| rmap := rmap dev |>) by (by destruct dev).
  destruct (type_found env); cbn [negb]; [|exists dev, (- EINVAL); split; [done|]; right; naive_solver].
  destruct (nvm_find_target dev name) as [[k t]|] eqn:Ef; [exists dev, (- EINVAL); split; [done|]; right; naive_solver|].
  destruct (reserve_luns_spec dev rs r Hi Hr) as [(Hn & m & E & Hp)|(Hn & E)]; rewrite E; cbn [mbind option_bind].
  2:{ exists dev, (- EBUSY). split; [done|]. right. naive_solver. }
  change (nz 0) with false. cbn iota.
  pose proof Hi as [Hg _ Hrm _ _ _ _ _].
  set (dev1 := dev <| lun_map := m |>).
  destruct (target_alloc env) eqn:Ea; cbn [negb].
  2:{ rewrite (release_luns_spec dev1 dev r Hn Hp). cbn [mbind option_bind]. exists dev, (- ENOMEM).
      split; [by destruct dev|]. right. split; [done|]. split; [done|]. split; [done|]. intros (_ & _ & _ & (H & _) & _). congruence. }
  destruct (create_dev_spec dev1 env r Hg Hrm Hr) as (rm & td & Ec & Ht & Htd & Hm). rewrite Ec. cbn [mbind option_bind].
  set (dev2 := dev1 <| rmap := rm |>).
  assert (Hback : ∀ ret : Z, (dev0 ← nvm_release_luns_err dev2 (lun_begin r) (lun_end r); Some (dev0, ret))
                         = Some (dev <| rmap := rm |>, ret)).
  { intros ret. rewrite (release_luns_spec dev2 dev r Hn Hp). cbn [mbind option_bind]. by destruct dev. }
  pose proof (inv_touched dev rs r rm Hi Hr Hn Ht) as Hit.
  destruct td as [td|].
  2:{ rewrite Hback. eexists _, _. split; [done|]. right. split; [done|]. split; [done|]. split; [done|].
      intros (_ & _ & _ & H & _). by destruct (Hm H). }
  destruct (Htd td eq_refl) as [Htd1 Htd2]. unfold nz. destruct (Z.eqb_spec (setup env) 0) as [Es|Es]; cbn [negb].
  - eexists _, 0. split; [done|]. left. split; [done|]. split; [done|]. split; [done|]. split; [done|].
    split; [|by exists td]. exact (inv_add dev rs r rm m td name Hi Hr Hn Ht Htd2 Hp Htd1 Ef).
  - cbn [nvm_remove_tgt_dev mbind option_bind]. rewrite Hback. eexists _, _. split; [done|]. right.
    split; [done|]. split; [done|]. split; [done|]. naive_solver.
Qed.

(** *** Removing targets *)

Lemma clear_luns_spec r n ch j m w :
  (j + n = r_per r)%nat → (∀ x, (ch * L + r_lun r + j ≤ x < ch * L + r_lun r + j + n)%nat → m !! x = Some true) →
  ∃ m', clear_luns n (Z.of_nat L) (Z.of_nat ch) (replicate (r_per r) (Z.of_nat (r_lun r))) (Z.of_nat j) m w = Some (m', w) ∧
    painted m m' (ch * L + r_lun r + j) n false.
Proof.
  revert j m. induction n as [|n IH]; intros j m Hj H; cbn [clear_luns].
  { exists m. split; [done|apply painted_0]. }
  assert (Eo : rd (replicate (r_per r) (Z.of_nat (r_lun r))) (Z.of_nat j) = Some (Z.of_nat (r_lun r))).
  { apply rd_Some. split; [lia|]. rewrite Nat2Z.id. apply lookup_replicate. split; [done|lia]. }
  rewrite Eo. cbn [mbind option_bind].
  replace (Z.of_nat ch * Z.of_nat L + (Z.of_nat j + Z.of_nat (r_lun r))) with (Z.of_nat (ch * L + r_lun r + j)) by lia.
  rewrite (test_and_clear_spec m _ true) by (apply H; lia). cbn [mbind option_bind].
  replace (Z.of_nat j + 1) with (Z.of_nat (S j)) by lia.
  destruct (IH (S j) (<[(ch * L + r_lun r + j)%nat := false]> m)) as (m' & E & Hp); [lia| |].
  { intros x Hx. rewrite list_lookup_insert_ne by lia. apply H. lia. }
  exists m'. split; [done|]. apply painted_front; [eapply lookup_lt_Some, H; lia|]. by rewrite Nat.add_succ_r in Hp.
Qed.

Lemma clear_chnls_spec r n i m w :
  range_ok C L r → (i + n = r_k r)%nat →
  (∀ x, ((r_ch r + i) * L + r_lun r ≤ x < (r_ch r + i) * L + r_lun r + n * r_per r)%nat → m !! x = Some true) →
  ∃ m', clear_chnls (Z.of_nat L) (Z.of_nat i) (replicate n (ch_map_of r)) m w = Some (m', w) ∧
    painted m m' ((r_ch r + i) * L + r_lun r) (n * r_per r) false.
Proof.
  intros Hr. revert i m. induction n as [|n IH]; intros i m Hi H; cbn [replicate clear_chnls].
  { exists m. split; [done|apply painted_0]. }
  cbn [ch_map_of ch_off ch_nr_luns lun_offs]. rewrite Nat2Z.id.
  replace (Z.of_nat i + Z.of_nat (r_ch r)) with (Z.of_nat (r_ch r + i)) by lia.
  destruct (clear_luns_spec r (r_per r) (r_ch r + i) 0 m w) as (m1 & E1 & Hp1); [lia|intros x Hx; apply H; lia|].
  change (Z.of_nat 0) with 0 in E1. rewrite E1, Nat.add_0_r in *. cbn [mbind option_bind].
  replace (Z.of_nat i + 1) with (Z.of_nat (S i)) by lia. destruct n as [|n].
  { cbn [replicate clear_chnls]. exists m1. split; [done|]. by rewrite Nat.mul_1_l. }
  destruct (whole_lun C L r Hr) as [El Ep]; [lia|]. rewrite El, Ep in *.
  destruct (IH (S i) m1) as (m' & E & Hp); [lia| |].
  { intros x Hx. destruct Hp1 as [_ ->]. rewrite decide_False by nia. apply H. nia. }
  exists m'. split; [done|]. cbn [Nat.mul]. apply (painted_app m m1 m'); [done|].
  by replace ((r_ch r + i) * L + 0 + L)%nat with ((r_ch r + S i) * L + 0)%nat by lia.
Qed.

Lemma remove_dev_spec dev r td :
  luns_per_chnl (d_geo dev) = Z.of_nat L → range_ok C L r → td_is (d_geo dev) r td →
  (∀ x, owns L r x → lun_map dev !! x = Some true) →
  ∃ m, nvm_remove_tgt_dev dev td true = Some (dev <| lun_map := m |>) ∧
    painted (lun_map dev) m (r_begin L r) (r_size r) false.
Proof.
  intros Hg Hr [_ Hm _] Hx. unfold nvm_remove_tgt_dev. rewrite Hg, Hm.
  destruct (clear_chnls_spec r (r_k r) 0 (lun_map dev) 0 Hr) as (m & E & Hp); [lia| |].
  { intros x H. apply Hx. unfold owns, r_begin, r_size. lia. }
  change (Z.of_nat 0) with 0 in E. rewrite E, Nat.add_0_r in *. cbn [mbind option_bind]. exists m. split; [by destruct dev|done].
Qed.

Lemma lookup_delete_some {A} (l : list A) k i x :
  delete k l !! i = Some x → ∃ j, l !! j = Some x ∧ j = (if decide (i < k)%nat then i else S i).
Proof.
  intros H. destruct (decide (i < k)%nat).
  - rewrite list_lookup_delete_lt in H by lia. by exists i.
  - rewrite list_lookup_delete_ge in H by lia. by exists (S i).
Qed.

Lemma elem_of_delete {A} (l : list A) k x :
  x ∈ delete k l ↔ ∃ j, j ≠ k ∧ l !! j = Some x.
Proof.
  split.
  - intros [i H]%list_elem_of_lookup_1. destruct (lookup_delete_some l k i x H) as (j & Hj & ->).
    eexists. split; [|done]. case_decide; lia.
  - intros (j & Hj & H). apply (list_elem_of_lookup_2 _ (if decide (j < k)%nat then j else (j - 1)%nat)).
    case_decide; [by rewrite list_lookup_delete_lt by lia|].
    rewrite list_lookup_delete_ge by lia. by replace (S (j - 1)) with j by lia.
Qed.

Lemma remove_target_spec dev rs k t :
  inv dev rs → targets dev !! k = Some t →
  ∃ dev', __nvm_remove_target dev k t = Some dev' ∧ inv dev' (delete k rs) ∧ targets dev' = delete k (targets dev) ∧
    d_geo dev' = d_geo dev.
Proof.
  intros Hi Hk. pose proof Hi as []. destruct (Forall2_lookup_l _ _ _ _ _ iv_targets0 Hk) as (r & Hrs & Htd & Hr & Hu).
  destruct (remove_dev_spec dev r (t_dev t)) as (m & E & Hl & Hp); try done.
  { apply iv_geo0. }
  { intros x Hx. apply iv_taken0. exists r. split; [by eapply list_elem_of_lookup_2|done]. }
  unfold __nvm_remove_target. rewrite E. cbn [mbind option_bind]. eexists. split; [done|]. split; [|done].
  split; simpl; try done.
  - by rewrite Hl.
  - by apply Forall2_delete.
  - intros x. rewrite Hp. case_decide as Hx.
    + split; [done|]. intros (r' & (j & Hj & Hj')%elem_of_delete & Hx'). exfalso. by apply (iv_disj0 j k r' r Hj' Hrs Hj x).
    + rewrite iv_taken0. split; intros (r' & Hin & Hx'); exists r'; (split; [|done]).
      * apply list_elem_of_lookup_1 in Hin as [j Hj]. apply elem_of_delete. exists j. split; [|done]. intros ->. assert (r' = r) as -> by congruence. by apply Hx.
      * apply elem_of_delete in Hin as (j & _ & Hj). by eapply list_elem_of_lookup_2.
  - intros i j r1 r2 H1 H2 Hne. apply lookup_delete_some in H1 as (i' & H1 & Ei), H2 as (j' & H2 & Ej).
    apply (iv_disj0 i' j'); try done. subst. repeat case_decide; lia.
  - rewrite list_fmap_delete. eapply sublist_NoDup; [done|apply sublist_delete].
Qed.
End drive.
