(* ===== verification/NvmCoreThms.v ===== *)
(** * The LightNVM core: theorems

    Requests on a drive from its registration on: targets are created on well-placed ranges and
    removed.  Their addresses, the tables of bad blocks, and areas of sectors. *)

From stdpp Require Import strings.
From S2P Require Import Prelude Bitmap RingBuffer PblkAddr NvmCore NvmCoreInv.

Open Scope Z_scope.

(** ** Addresses *)

(** An address within a geometry. *)
Definition in_geo (geo : nvm_geo) (p : ppa_addr) : Prop :=
  match p with
  | Dev _ _ lun ch _ _ => 0 ≤ ch < nr_chnls geo ∧ 0 ≤ lun < luns_per_chnl geo
  | _ => False
  end.

(** The number of the LUN of an address of the drive. *)
Definition lun_id (geo : nvm_geo) (p : ppa_addr) : Z :=
  match p with Dev _ _ lun ch _ _ => ch * luns_per_chnl geo + lun | _ => 0 end.

Section addresses.
Context (C L : nat) (HC : (C ≤ 128)%nat) (HL : (L ≤ 256)%nat).

(** The number of the LUN of an address of a target of range [r]. *)
Definition slot (r : range) (p : ppa_addr) : nat :=
  match p with Dev _ _ lun ch _ _ => (r_ch r + Z.to_nat ch) * L + (r_lun r + Z.to_nat lun) | _ => 0 end.

(** An address of a target goes to one of its LUNs and comes back. *)
Lemma map_roundtrip dev rs t r p :
  inv C L dev rs → td_is (d_geo dev) r (t_dev t) → range_ok C L r → undone r (rmap dev) → in_geo (td_geo (t_dev t)) p →
  ∃ q, nvm_map_to_dev (t_dev t) p = Some q ∧ in_geo (d_geo dev) q ∧ nvm_map_to_tgt dev q = Some p ∧
    lun_id (d_geo dev) q = Z.of_nat (slot r p) ∧ owns L r (slot r p).
Proof using HC HL.
  intros Hi [Eg Em _] Hr Hu Hp. destruct p as [| |blk pg lun ch pl sec]; [done..|]. rewrite Eg in Hp. simpl in Hp.
  destruct Hp as [Hch Hlun]. pose proof Hr as []. pose proof (iv_geo _ _ _ _ Hi) as [Gc Gl _].
  assert (Ec : rd (td_map (t_dev t)) ch = Some (ch_map_of r)).
  { rewrite Em. apply rd_Some. split; [lia|]. apply lookup_replicate. split; [done|lia]. }
  assert (El : rd (lun_offs (ch_map_of r)) lun = Some (Z.of_nat (r_lun r))).
  { apply rd_Some. split; [lia|]. apply lookup_replicate. split; [done|lia]. }
  unfold nvm_map_to_dev. rewrite Ec. cbn [mbind option_bind]. rewrite El. cbn [mbind option_bind ch_map_of ch_off].
  change (2 ^ NVM_LUN_BITS) with 256. change (2 ^ NVM_CH_BITS) with 128. rewrite !Z.mod_small by lia.
  eexists. split; [done|]. split; [simpl; lia|]. split.
  - destruct (Hu (r_ch r + Z.to_nat ch)%nat) as (m & Hm & Eo & Ho); [lia|].
    assert (Er : rd (rmap dev) (ch + Z.of_nat (r_ch r)) = Some m).
    { apply rd_Some. split; [lia|]. by replace (Z.to_nat _) with (r_ch r + Z.to_nat ch)%nat by lia. }
    assert (Erl : rd (lun_offs m) (lun + Z.of_nat (r_lun r)) = Some (Z.of_nat (r_lun r))).
    { apply rd_Some. split; [lia|]. replace (Z.to_nat _) with (r_lun r + Z.to_nat lun)%nat by lia. apply Ho. lia. }
    unfold nvm_map_to_tgt. rewrite Er. cbn [mbind option_bind]. rewrite Erl, Eo. cbn [mbind option_bind].
    change (2 ^ NVM_LUN_BITS) with 256. change (2 ^ NVM_CH_BITS) with 128. rewrite !Z.mod_small by lia.
    do 2 f_equal; lia.
  - simpl. rewrite Gl. split; [lia|].
    apply (owns_lun C L); [done|lia..].
Qed.
End addresses.

(** ** Requests *)

(** A range that is refused because it is not on the drive, or that lies within a channel or consists of whole ones. *)
Definition placed (geo : nvm_geo) (lun_begin lun_end : Z) : Prop :=
  let per := luns_per_chnl geo in
  lun_end < lun_begin ∨ nr_luns geo ≤ lun_end ∨
  lun_begin mod per + (lun_end - lun_begin + 1) ≤ per ∨ (lun_begin mod per = 0 ∧ (lun_end + 1) mod per = 0).

Inductive nvm_event :=
  | CreateTgt (env : create_env) (simple : bool) (name : string) (lun_begin lun_end : Z)
  | RemoveTgt (name : string).

Definition nvm_step (dev : nvm_dev) (ev : nvm_event) : option (nvm_dev * Z) :=
  match ev with
  | CreateTgt env simple name b e => configure_dev dev env simple name b e
  | RemoveTgt name => nvm_remove_tgt dev name
  end.

Definition nvm_allowed (geo : nvm_geo) (ev : nvm_event) : Prop :=
  match ev with
  | CreateTgt _ _ _ b e => 0 ≤ b < 2 ^ 32 ∧ 0 ≤ e < 2 ^ 32 ∧ placed geo b e
  | RemoveTgt _ => True
  end.

(** What a drive reports: as many channels and LUNs as fit an address, sectors that are not empty, and no more pairs of
    pages than are listed. *)
Record grp_ok (grp : nvm_id_group) : Prop := {
  gr_ch : 0 < num_ch grp ≤ 128;
  gr_lun : 0 < num_lun grp ≤ 256;
  gr_csecs : csecs grp ≠ 0;
  gr_pairs : 0 ≤ num_pairs grp ≤ 2 * Z.of_nat (length (pairs grp))
}.

(** A drive from its registration on. *)
Inductive nvm_reachable (grp : nvm_id_group) : nvm_dev → Prop :=
  | nvm_reach_init env dev : nvm_core_init env grp = Some (inr dev) → nvm_reachable grp dev
  | nvm_reach_step dev ev dev' ret :
      nvm_reachable grp dev → nvm_allowed (d_geo dev) ev → nvm_step dev ev = Some (dev', ret) → nvm_reachable grp dev'.

Section requests.
Context (C L : nat) (HC : (0 < C ≤ 128)%nat) (HL : (0 < L ≤ 256)%nat).

Lemma placed_range geo b e :
  geo_is geo C L (C * L) → 0 ≤ b → b ≤ e < Z.of_nat (C * L) → placed geo b e →
  ∃ r, range_ok C L r ∧ lun_begin L r = b ∧ lun_end L r = e.
Proof using HC HL.
  intros [Gc Gl Gn] Hb He Hp. unfold placed in Hp. rewrite Gl, Gn in Hp.
  pose proof (Z.div_mod b (Z.of_nat L) ltac:(lia)) as Db. pose proof (Z.mod_pos_bound b (Z.of_nat L) ltac:(lia)) as Rb.
  pose proof (Z.div_pos b (Z.of_nat L) ltac:(lia) ltac:(lia)) as Qb.
  assert (Hc : b / Z.of_nat L < Z.of_nat C) by (apply Z.div_lt_upper_bound; lia).
  unfold lun_begin, lun_end, r_begin, r_size. destruct Hp as [?|[?|[H|[H1 H2]]]]; [lia..| |].
  - exists {| r_ch := Z.to_nat (b / Z.of_nat L); r_k := 1; r_lun := Z.to_nat (b mod Z.of_nat L); r_per := Z.to_nat (e - b + 1) |}.
    simpl. split; [split; simpl; lia|]. split; nia.
  - pose proof (Z.div_mod (e + 1) (Z.of_nat L) ltac:(lia)) as De. rewrite H2, Z.add_0_r in De. rewrite H1, Z.add_0_r in Db.
    assert (Hk : b / Z.of_nat L < (e + 1) / Z.of_nat L) by nia.
    assert (Hc' : (e + 1) / Z.of_nat L ≤ Z.of_nat C) by nia.
    exists {| r_ch := Z.to_nat (b / Z.of_nat L); r_k := Z.to_nat ((e + 1) / Z.of_nat L - b / Z.of_nat L); r_lun := 0; r_per := L |}.
    simpl. split; [split; simpl; lia|]. split; nia.
Qed.

(** A range on the drive: what is asked for, or all of it. *)
Lemma configure_range dev rs env name b e :
  inv C L dev rs → 0 ≤ b → b ≤ e < Z.of_nat (C * L) →
  configure_dev dev env true name b e = nvm_create_tgt dev env name b e.
Proof using HC HL.
  intros Hi Hb He. destruct (iv_geo _ _ _ _ Hi) as [Gc Gl Gn]. unfold configure_dev. cbn [negb]. rewrite Gn.
  assert (Hn : Z.of_nat (C * L) ≤ 32768) by nia.
  rewrite (proj2 (Z.eqb_neq b (2 ^ 32 - 1))) by lia. cbn [andb]. rewrite (u32_small (Z.of_nat (C * L))) by lia.
  rewrite (proj2 (Z.ltb_ge _ _)), (proj2 (Z.leb_gt _ _)) by lia. done.
Qed.

Lemma configure_refused dev rs env name b e :
  inv C L dev rs → 0 ≤ b < 2 ^ 32 → 0 ≤ e < 2 ^ 32 → e < b ∨ Z.of_nat (C * L) ≤ e → (b, e) ≠ (2 ^ 32 - 1, 2 ^ 32 - 1) →
  configure_dev dev env true name b e = Some (dev, - EINVAL).
Proof using HC HL.
  intros Hi Hb He H Hne. destruct (iv_geo _ _ _ _ Hi) as [Gc Gl Gn]. unfold configure_dev. cbn [negb]. rewrite Gn.
  assert (Hn : Z.of_nat (C * L) ≤ 32768) by nia.
  destruct ((b =? 2 ^ 32 - 1) && (e =? 2 ^ 32 - 1)) eqn:E; [bools; congruence|]. rewrite (u32_small (Z.of_nat (C * L))) by lia.
  destruct H; [rewrite (proj2 (Z.ltb_lt _ _)) by lia|rewrite (proj2 (Z.leb_le _ _)), orb_true_r by lia]; done.
Qed.

Lemma configure_whole dev rs env name :
  inv C L dev rs →
  configure_dev dev env true name (2 ^ 32 - 1) (2 ^ 32 - 1) = nvm_create_tgt dev env name 0 (Z.of_nat (C * L) - 1).
Proof using HC HL.
  intros Hi. destruct (iv_geo _ _ _ _ Hi) as [Gc Gl Gn]. unfold configure_dev. cbn [negb]. rewrite Gn.
  assert (Hn : Z.of_nat (C * L) ≤ 32768) by nia. assert (0 < Z.of_nat (C * L)) by nia. rewrite !Z.eqb_refl. cbn [andb].
  rewrite !u32_small by lia. rewrite (proj2 (Z.ltb_ge _ _)), (proj2 (Z.leb_gt _ _)) by lia. done.
Qed.

Lemma nvm_step_inv dev rs ev :
  inv C L dev rs → nvm_allowed (d_geo dev) ev →
  ∃ dev' ret rs', nvm_step dev ev = Some (dev', ret) ∧ inv C L dev' rs'.
Proof using HC HL.
  intros Hi Ha. pose proof (iv_geo _ _ _ _ Hi) as Hg. destruct ev as [env simple name b e|name]; simpl.
  - destruct simple; [|by exists dev, (- EINVAL), rs]. destruct Ha as (Hb & He & Hp).
    assert (Hc : ∀ r, range_ok C L r →
      ∃ dev' ret rs', nvm_create_tgt dev env name (lun_begin L r) (lun_end L r) = Some (dev', ret) ∧ inv C L dev' rs').
    { intros r Hr. destruct (create_spec C L dev rs env name r Hi Hr) as (dev' & ret & E & [(_ & _ & _ & _ & H & _)|(_ & H & _)]).
      - by exists dev', ret, (rs ++ [r]).
      - by exists dev', ret, rs. }
    destruct (decide ((b, e) = (2 ^ 32 - 1, 2 ^ 32 - 1))) as [E|E].
    { injection E as -> ->. rewrite (configure_whole dev rs) by done.
      destruct (placed_range (d_geo dev) 0 (Z.of_nat (C * L) - 1) Hg) as (r & Hr & E1 & E2); [lia|nia| |].
      - right. right. right. destruct Hg as [_ Gl _]. rewrite Gl. split; [done|].
        replace (Z.of_nat (C * L) - 1 + 1) with (Z.of_nat C * Z.of_nat L) by lia. apply Z_mod_mult.
      - specialize (Hc r Hr). by rewrite E1, E2 in Hc. }
    destruct (decide (b ≤ e < Z.of_nat (C * L))) as [Hin|Hout].
    + rewrite (configure_range dev rs) by (done || lia).
      destruct (placed_range (d_geo dev) b e Hg) as (r & Hr & <- & <-); [lia|done|done|]. by apply Hc.
    + rewrite (configure_refused dev rs) by (done || lia). by exists dev, (- EINVAL), rs.
  - unfold nvm_remove_tgt. destruct (nvm_find_target dev name) as [[k t]|] eqn:E; [|by exists dev, 1, rs].
    apply list_find_Some in E as (Hk & _). destruct (remove_target_spec C L dev rs k t Hi Hk) as (dev' & E' & H & _).
    rewrite E'. cbn [mbind option_bind]. by exists dev', 0, (delete k rs).
Qed.
End requests.

(** ** Registration *)

Lemma core_geo_is grp geo :
  grp_ok grp → core_geo grp = Some geo →
  geo_is geo (Z.to_nat (num_ch grp)) (Z.to_nat (num_lun grp)) (Z.to_nat (num_ch grp) * Z.to_nat (num_lun grp)).
Proof.
  intros [] H. unfold core_geo in H. apply bind_Some in H as (_ & _ & H). injection H as <-. split; simpl; [lia..|].
  rewrite s32_small by nia. nia.
Qed.

Lemma core_init_inv env grp dev :
  grp_ok grp → nvm_core_init env grp = Some (inr dev) → inv (Z.to_nat (num_ch grp)) (Z.to_nat (num_lun grp)) dev [].
Proof.
  intros Hg H. unfold nvm_core_init in H. apply bind_Some in H as (geo & Eg & H).
  pose proof (core_geo_is grp geo Hg Eg) as Hgeo. set (C := Z.to_nat (num_ch grp)) in *. set (L := Z.to_nat (num_lun grp)) in *.
  assert (Hd : ∃ tbl, dev = {| d_geo := geo; lun_map := replicate (Z.to_nat ((nr_luns geo + 63) / 64 * 64)) false;
    rmap := nvm_register_map geo; area_list := []; targets := []; total_secs := u64 (s32 (nr_luns geo * geo_sec_per_lun geo));
    lptbl := tbl; d_warns := 0 |}).
  { destruct (nz (mtype grp)), (lun_map_alloc env), (rmap_alloc env); cbn [negb] in H; repeat case_match; try done;
      try (apply bind_Some in H as (tbl & _ & H); try done); injection H as <-; by eexists. }
  destruct Hd as [tbl ->]. destruct Hgeo as [Gc Gl Gn]. split; simpl.
  - done.
  - rewrite length_replicate, Gn. pose proof (Z.div_mod (Z.of_nat (C * L) + 63) 64 ltac:(lia)).
    pose proof (Z.mod_pos_bound (Z.of_nat (C * L) + 63) 64 ltac:(lia)). lia.
  - unfold nvm_register_map. rewrite Gc, Gl, !Nat2Z.id. split; [apply length_replicate|].
    intros c m [-> _]%lookup_replicate. simpl. apply length_replicate.
  - constructor.
  - intros x. split; [intros [? _]%lookup_replicate; done|]. by intros (r & []%not_elem_of_nil & _).
  - done.
  - constructor.
  - done.
Qed.

Lemma nvm_reachable_inv grp dev :
  grp_ok grp → nvm_reachable grp dev → ∃ rs, inv (Z.to_nat (num_ch grp)) (Z.to_nat (num_lun grp)) dev rs.
Proof.
  intros Hg Hr. induction Hr as [env dev E|dev ev dev' ret _ [rs Hi] Ha E]; [exists []; by apply (core_init_inv env)|].
  pose proof Hg as []. destruct (nvm_step_inv (Z.to_nat (num_ch grp)) (Z.to_nat (num_lun grp)) ltac:(lia) ltac:(lia) dev rs ev Hi Ha)
    as (dev2 & ret2 & rs' & E2 & Hi2). rewrite E2 in E. injection E as <- <-. by exists rs'.
Qed.

(** Registration is never stuck. *)
Lemma mlc_loop_total n ps i prev :
  0 ≤ i → i + Z.of_nat n ≤ 2 * Z.of_nat (length ps) → is_Some (mlc_loop n ps i prev).
Proof.
  revert i prev. induction n as [|n IH]; intros i prev Hi Hn; [by eexists|]. cbn [mlc_loop].
  destruct (rd_is_Some ps (Z.shiftr i 1)) as [p ->].
  { rewrite Z.shiftr_div_pow2 by lia. split; [by apply Z.div_pos; lia|]. apply Z.div_lt_upper_bound; lia. }
  cbn [mbind option_bind]. edestruct IH as [l ->]; [| |by eexists]; lia.
Qed.

Lemma core_init_total env grp : grp_ok grp → is_Some (nvm_core_init env grp).
Proof.
  intros []. assert (Hc : nz (csecs grp) = true) by (unfold nz; by rewrite (proj2 (Z.eqb_neq (csecs grp) 0))).
  unfold nvm_core_init, core_geo. rewrite Hc.
  cbn [ensure negb mbind option_bind]. assert (Hm : is_Some (nvm_init_mlc_tbl grp)).
  { unfold nvm_init_mlc_tbl. destruct (Z.eqb_spec (num_pairs grp) 0); [by eexists|].
    destruct (rd_is_Some (pairs grp) 0) as [p ->]; [lia|]. cbn [mbind option_bind].
    edestruct (mlc_loop_total (Z.to_nat (num_pairs grp - 1)) (pairs grp) 1) as [l ->]; [| |by eexists]; lia. }
  destruct Hm as [tbl ->]. repeat case_match; by eexists.
Qed.

(** ** LUNs in use *)

(** The LUNs in use are those that targets have addresses for. *)
Definition luns_exact (dev : nvm_dev) : Prop :=
  ∀ x, rd (lun_map dev) x = Some true ↔
    ∃ t p q, t ∈ targets dev ∧ in_geo (td_geo (t_dev t)) p ∧ nvm_map_to_dev (t_dev t) p = Some q ∧ lun_id (d_geo dev) q = x.

Lemma luns_exact_inv C L dev rs : (C ≤ 128)%nat → (L ≤ 256)%nat → inv C L dev rs → luns_exact dev.
Proof.
  intros HC HL Hi x. pose proof (iv_targets _ _ _ _ Hi) as Hf. rewrite rd_Some, (iv_taken _ _ _ _ Hi). split.
  - intros (Hx & r & (k & Hk)%list_elem_of_lookup_1 & Ho).
    destruct (Forall2_lookup_r _ _ _ _ _ Hf Hk) as (t & Ht & Htd & Hr & Hu).
    destruct (owns_split C L r _ Hr Ho) as (i & j & H1 & H2 & Ex). set (p := Dev 0 0 (Z.of_nat j) (Z.of_nat i) 0 0).
    assert (Hp : in_geo (td_geo (t_dev t)) p). { destruct Htd as [-> _ _]. simpl. lia. }
    destruct (map_roundtrip C L HC HL dev rs t r p) as (q & Eq & _ & _ & El & _); try done.
    exists t, p, q. split; [by eapply list_elem_of_lookup_2|]. do 2 (split; [done|]). rewrite El. simpl. rewrite !Nat2Z.id. lia.
  - intros (t & p & q & (k & Hk)%list_elem_of_lookup_1 & Hp & Eq & <-).
    destruct (Forall2_lookup_l _ _ _ _ _ Hf Hk) as (r & Hrs & Htd & Hr & Hu).
    destruct (map_roundtrip C L HC HL dev rs t r p) as (q' & Eq' & _ & _ & El & Ho); try done.
    assert (q' = q) as -> by congruence. rewrite El, Nat2Z.id. split; [lia|]. exists r. split; [by eapply list_elem_of_lookup_2|done].
Qed.

(** ** Areas *)

(** Areas in order, not overlapping, between [lo] and [hi]. *)
Fixpoint areas_ok (lo hi : Z) (l : list nvm_area) : Prop :=
  match l with
  | [] => True
  | a :: l => lo ≤ area_begin a ∧ area_begin a ≤ area_end a ∧ area_end a ≤ hi ∧ areas_ok (area_end a) hi l
  end.

(** An area that leaves no room for [len] sectors at [b]. *)
Definition overlaps (a : nvm_area) (b len : Z) : Prop := area_begin a < b + len ∧ b < area_end a.

Lemma areas_weaken lo lo' hi l : lo' ≤ lo → areas_ok lo hi l → areas_ok lo' hi l.
Proof. destruct l; simpl; [done|]. intros. intuition lia. Qed.

Lemma areas_app lo hi l1 l2 :
  areas_ok lo hi (l1 ++ l2) ↔ areas_ok lo hi l1 ∧ areas_ok (default lo (area_end <$> last l1)) hi l2.
Proof.
  revert lo. induction l1 as [|a l1 IH]; intros lo; [simpl; tauto|]. rewrite last_cons. simpl. rewrite IH.
  destruct (last l1); simpl; tauto.
Qed.

Lemma areas_range lo hi l a : areas_ok lo hi l → a ∈ l → lo ≤ area_begin a ∧ area_begin a ≤ area_end a ≤ hi.
Proof.
  revert lo. induction l as [|b l IH]; intros lo; simpl; [by intros _ ?%not_elem_of_nil|].
  intros (H1 & H2 & H3 & H4) [->|Hin]%elem_of_cons; [lia|]. destruct (IH _ H4 Hin). lia.
Qed.

(** The place found: the first one with enough room behind [lo]. *)
Lemma area_loop_spec l len lo hi k0 b k :
  areas_ok lo hi l → 0 ≤ lo → 0 ≤ len ≤ hi → lo ≤ hi → hi < 2 ^ 63 → area_loop l len lo k0 = (b, k) →
  ∃ j, k = (k0 + j)%nat ∧ (j ≤ length l)%nat ∧ lo ≤ b ≤ hi ∧ b = default lo (area_end <$> last (take j l)) ∧
    (∀ a, a ∈ drop j l → b + len ≤ area_begin a) ∧
    ∀ b', lo ≤ b' < b → ∃ a, a ∈ l ∧ overlaps a b' len.
Proof.
  revert lo k0. induction l as [|a l IH]; intros lo k0 Ha Hlo Hlen Hh Hhi E; simpl in E.
  { injection E as <- <-. exists 0%nat. simpl. repeat split; try lia. intros ? []%not_elem_of_nil. }
  destruct Ha as (H1 & H2 & H3 & H4). rewrite u64_small in E by lia. destruct (Z.ltb_spec (area_begin a) (lo + len)) as [Hlt|Hge].
  - destruct (IH (area_end a) (S k0) H4 ltac:(lia) Hlen ltac:(lia) Hhi E) as (j & -> & Hj & Hb & Eb & Hd & Hf).
    exists (S j). simpl. split; [lia|]. split; [lia|]. split; [lia|]. split; [|split; [done|]].
    + rewrite Eb, last_cons. by destruct (last (take j l)).
    + intros b' Hb'. destruct (decide (area_end a ≤ b')) as [Hin|Hin].
      * destruct (Hf b' ltac:(lia)) as (a' & Hin' & Ho). exists a'. split; [by right|done].
      * exists a. split; [left|]. unfold overlaps. lia.
  - injection E as <- <-. exists 0%nat. simpl. repeat split; try lia.
    intros a' [->|Hin]%elem_of_cons; [lia|]. destruct (areas_range _ _ _ _ H4 Hin). lia.
Qed.

(** Operations on areas. *)
Inductive area_op := GetArea (alloc : bool) (len : Z) | PutArea (begin : Z).

Definition area_step (dev : nvm_dev) (op : area_op) : nvm_dev :=
  match op with GetArea alloc len => fst (nvm_get_area dev alloc len) | PutArea b => nvm_put_area dev b end.

Definition area_run (dev : nvm_dev) (ops : list area_op) : nvm_dev := foldl area_step dev ops.

Definition area_op_ok (op : area_op) : Prop := match op with GetArea _ len => 0 ≤ len | PutArea _ => True end.

(** First fit: an area is found if there is room, at the first place with room, next to the areas in use. *)
Lemma get_area_spec dev len :
  areas_ok 0 (max_sectors dev) (area_list dev) → 0 ≤ len → max_sectors dev < 2 ^ 63 →
  match nvm_get_area dev true len with
  | (dev', inr b) =>
      0 ≤ b ∧ b + len ≤ max_sectors dev ∧ (∀ a, a ∈ area_list dev → ¬ overlaps a b len) ∧
      (∀ b', 0 ≤ b' < b → ∃ a, a ∈ area_list dev ∧ overlaps a b' len) ∧
      areas_ok 0 (max_sectors dev) (area_list dev') ∧
      area_list dev' ≡ₚ {| area_begin := b; area_end := b + len |} :: area_list dev ∧ dev' = dev <| area_list := area_list dev' |>
  | (dev', inl _) => dev' = dev ∧ ∀ b', 0 ≤ b' → b' + len ≤ max_sectors dev → ∃ a, a ∈ area_list dev ∧ overlaps a b' len
  end.
Proof.
  intros Ha Hlen Hmax. assert (0 ≤ max_sectors dev) by (apply Z.shiftr_nonneg, Z.mod_pos_bound; lia).
  unfold nvm_get_area. destruct (Z.ltb_spec (max_sectors dev) len); [split; [done|lia]|]. cbn [negb].
  destruct (area_loop (area_list dev) len 0 0) as [b k] eqn:E.
  destruct (area_loop_spec _ len 0 (max_sectors dev) 0 b k Ha) as (j & -> & Hj & Hb & Eb & Hd & Hf); try done; try lia.
  cbn [Nat.add]. rewrite u64_small by lia. destruct (Z.ltb_spec (max_sectors dev) (b + len)).
  { split; [done|]. intros b' Hb1 Hb2. apply Hf. lia. }
  cbn [area_list setter]. pose proof Ha as Ha'. rewrite <- (take_drop j (area_list dev)), areas_app in Ha'. destruct Ha' as [Ha1 Ha2].
  rewrite <- Eb in Ha2. split; [lia|]. split; [lia|]. split; [|split; [done|split; [|split; [|done]]]].
  - intros a Hin [Ho1 Ho2]. rewrite <- (take_drop j (area_list dev)) in Hin. apply elem_of_app in Hin as [Hin|Hin]; [|specialize (Hd a Hin); lia].
    apply list_elem_of_split in Hin as (l1 & l2 & El). rewrite El in Ha1, Eb. rewrite areas_app in Ha1. destruct Ha1 as [_ (_ & _ & _ & Hl2)].
    rewrite last_app_cons in Eb. destruct l2 as [|c l2]; [simpl in Eb; lia|].
    destruct (last (a :: c :: l2)) as [z|] eqn:Ez; [|by apply last_None in Ez]. simpl in Eb. subst b.
    assert (Hz : z ∈ c :: l2) by (apply last_Some_elem_of; simpl in Ez |- *; done).
    destruct (areas_range _ _ _ _ Hl2 Hz). lia.
  - apply areas_app. split; [done|]. rewrite <- Eb. simpl. split; [lia|]. split; [lia|]. split; [lia|].
    destruct (drop j (area_list dev)) as [|a l]; simpl in *; [done|]. specialize (Hd a ltac:(left)). intuition lia.
  - rewrite <- (take_drop j (area_list dev)) at 3. symmetry. apply Permutation_middle.
Qed.

Lemma put_area_ok dev b hi : areas_ok 0 hi (area_list dev) → areas_ok 0 hi (area_list (nvm_put_area dev b)).
Proof.
  intros H. unfold nvm_put_area. destruct (list_find _ _) as [[k a]|] eqn:E; [|done]. apply list_find_Some in E as (Hk & _).
  simpl. rewrite delete_take_drop. rewrite <- (take_drop_middle _ _ _ Hk), areas_app in H. destruct H as (H1 & H2 & H3 & H4 & H5).
  apply areas_app. split; [done|]. eapply areas_weaken; [|exact H5]. lia.
Qed.

Lemma area_run_ok dev ops :
  area_list dev = [] → max_sectors dev < 2 ^ 63 → Forall area_op_ok ops →
  areas_ok 0 (max_sectors dev) (area_list (area_run dev ops)) ∧ max_sectors (area_run dev ops) = max_sectors dev.
Proof.
  intros E Hmax. induction ops as [|op ops IH] using rev_ind; intros Hops; [unfold area_run; cbn [foldl]; by rewrite E|].
  apply Forall_app in Hops as [Hops Hop]. rewrite Forall_singleton in Hop. destruct (IH Hops) as [H1 H2]. unfold area_run in *. rewrite foldl_app. cbn [foldl].
  set (d := foldl area_step dev ops) in *. destruct op as [alloc len|b]; cbn [area_step].
  - destruct alloc; [|by unfold nvm_get_area; destruct (_ <? _)].
    rewrite <- H2 in H1. pose proof (get_area_spec d len H1 Hop ltac:(lia)) as Hs. destruct (nvm_get_area d true len) as [d' [r|r]]; simpl.
    + destruct Hs as [-> _]. by rewrite <- H2.
    + destruct Hs as (_ & _ & _ & _ & H3 & _ & ->). by rewrite <- H2.
  - split; [by apply put_area_ok|]. unfold nvm_put_area. by destruct (list_find _ _) as [[]|].
Qed.

(** ** Tables of bad blocks *)

Definition is_bad (t : Z) : bool := nz (Z.land t (Z.lor NVM_BLK_T_BAD NVM_BLK_T_GRWN_BAD)).

(** The type of a block with planes of types [ts]. *)
Definition block_type (ts : list Z) : Z :=
  match list_find (λ t, is_bad t = true) ts with Some (_, t) => t | None => default 0 (head ts) end.

Lemma bad_plane_spec n blks o pl t0 :
  (o + pl + n ≤ length blks)%nat →
  bad_plane n blks (Z.of_nat o) (Z.of_nat pl) t0 =
    Some (match list_find (λ t, is_bad t = true) (take n (drop (o + pl) blks)) with Some (_, t) => t | None => t0 end).
Proof.
  revert pl. induction n as [|n IH]; intros pl Hn; [done|]. cbn [bad_plane].
  destruct (lookup_lt_is_Some_2 blks (o + pl)) as [t Ht]; [lia|].
  assert (Er : rd blks (Z.of_nat o + Z.of_nat pl) = Some t).
  { apply rd_Some. split; [lia|]. by replace (Z.to_nat _) with (o + pl)%nat by lia. }
  rewrite Er. cbn [mbind option_bind]. rewrite (drop_S _ _ _ Ht). cbn [take list_find].
  fold (is_bad t). case_decide as Eb; [by rewrite Eb|]. apply not_true_is_false in Eb. rewrite Eb.
  replace (Z.of_nat pl + 1) with (Z.of_nat (S pl)) by lia. rewrite IH by lia. rewrite Nat.add_succ_r.
  by destruct (list_find _ _) as [[]|].
Qed.

Lemma drop_agree {A} (l l' : list A) b c : (∀ x, (b ≤ x)%nat → l !! x = l' !! x) → (b ≤ c)%nat → drop c l = drop c l'.
Proof. intros H Hc. apply list_eq. intros x. rewrite !lookup_drop. apply H. lia. Qed.

(** Folding in place never reads a type that was overwritten. *)
Lemma fold_loop_spec M n b blks blks0 :
  (0 < M)%nat → length blks = length blks0 → ((b + n) * M ≤ length blks0)%nat → (∀ x, (b ≤ x)%nat → blks !! x = blks0 !! x) →
  ∃ blks', fold_loop n (Z.of_nat M) (Z.of_nat b) blks = Some blks' ∧ length blks' = length blks0 ∧
    (∀ x, (x < b)%nat → blks' !! x = blks !! x) ∧
    ∀ k, (b ≤ k < b + n)%nat → blks' !! k = Some (block_type (take M (drop (k * M) blks0))).
Proof.
  intros HM. revert b blks. induction n as [|n IH]; intros b blks Hl Hn Hx; cbn [fold_loop].
  { exists blks. split; [done|]. split; [done|]. split; [done|]. lia. }
  destruct (lookup_lt_is_Some_2 blks (b * M)) as [t0 Ht0]; [nia|].
  assert (Er : rd blks (Z.of_nat b * Z.of_nat M) = Some t0).
  { apply rd_Some. split; [lia|]. by replace (Z.to_nat _) with (b * M)%nat by lia. }
  rewrite Er. cbn [mbind option_bind]. replace (Z.of_nat b * Z.of_nat M) with (Z.of_nat (b * M)) by lia. rewrite Nat2Z.id.
  pose proof (bad_plane_spec M blks (b * M) 0 t0 ltac:(nia)) as Ep. change (Z.of_nat 0) with 0 in Ep.
  rewrite Ep, Nat.add_0_r. cbn [mbind option_bind].
  assert (Eb : match list_find (λ t, is_bad t = true) (take M (drop (b * M) blks)) with Some (_, t) => t | None => t0 end
               = block_type (take M (drop (b * M) blks0))).
  { rewrite (drop_agree blks blks0 b (b * M)) by (done || nia). unfold block_type.
    destruct (list_find (λ t, is_bad t = true) (take M (drop (b * M) blks0))) as [[]|]; [done|]. rewrite Hx in Ht0 by nia. rewrite (drop_S _ _ _ Ht0). by destruct M; [lia|]. }
  rewrite Eb. set (t := block_type _). rewrite wr_in_range by nia. cbn [mbind option_bind]. rewrite Nat2Z.id.
  replace (Z.of_nat b + 1) with (Z.of_nat (S b)) by lia.
  destruct (IH (S b) (<[b := t]> blks)) as (blks' & E & Hl' & Hb & Hk); [by rewrite length_insert|nia| |].
  { intros x Hxb. rewrite list_lookup_insert_ne by lia. apply Hx. lia. }
  exists blks'. split; [done|]. split; [done|]. split.
  - intros x Hxb. rewrite Hb by lia. by rewrite list_lookup_insert_ne by lia.
  - intros k Hkb. destruct (decide (k = b)) as [->|]; [|apply Hk; lia]. rewrite Hb by lia. apply list_lookup_insert_eq. nia.
Qed.

(** ** What a target sees *)

Lemma bind_lookup {A} (f : nat → list A) n a m k i :
  (∀ x, length (f x) = n) → (i < n)%nat → (k < m)%nat → (seq a m ≫= f) !! (k * n + i)%nat = f (a + k)%nat !! i.
Proof.
  intros Hf Hi. revert a k. induction m as [|m IH]; intros a k Hk; [lia|]. cbn [seq]. rewrite bind_cons. destruct k as [|k].
  - rewrite lookup_app_l by (rewrite Hf; lia). by rewrite Nat.add_0_r.
  - rewrite lookup_app_r by (rewrite Hf; lia). rewrite Hf. replace (S k * n + i - n)%nat with (k * n + i)%nat by lia.
    rewrite IH by lia. f_equal. f_equal. lia.
Qed.

Lemma luns_lookup r i n ch l :
  (ch < n)%nat → (l < r_per r)%nat → luns_of r i n !! (ch * r_per r + l)%nat = Some (Z.of_nat (i + ch), Z.of_nat l).
Proof.
  intros Hch Hl. unfold luns_of. rewrite bind_lookup by (done || intros; by rewrite length_fmap, length_seq).
  rewrite list_lookup_fmap, lookup_seq_lt by lia. done.
Qed.

Lemma td_luns_rd C L geo r td ch l :
  range_ok C L r → td_is geo r td → 0 ≤ ch < nr_chnls (td_geo td) → 0 ≤ l < luns_per_chnl (td_geo td) →
  rd (td_luns td) (l + ch * luns_per_chnl (td_geo td)) = Some (ch, l).
Proof.
  intros Hr [-> _ ->] Hch Hl. simpl in *. apply rd_Some. split; [nia|].
  replace (Z.to_nat _) with (Z.to_nat ch * r_per r + Z.to_nat l)%nat by nia.
  rewrite luns_lookup by lia. do 3 f_equal; lia.
Qed.

Lemma owns_between C L r x :
  range_ok C L r → owns L r x ↔ lun_begin L r ≤ Z.of_nat x ≤ lun_end L r.
Proof. intros _. unfold owns, lun_begin, lun_end. lia. Qed.

Lemma find_new dev name : nvm_find_target dev name = None ↔ name ∉ t_name <$> targets dev.
Proof.
  unfold nvm_find_target. rewrite list_find_None, Forall_forall, list_elem_of_fmap. split.
  - intros H (t & -> & Ht). by apply (H t).
  - intros H t Ht <-. apply H. by exists t.
Qed.

(** ** Ranges that cross channels *)

Lemma roffs_overrun n roffs j blun :
  0 ≤ j → 0 ≤ blun → Z.of_nat (length roffs) < j + blun + Z.of_nat n → j + blun ≤ Z.of_nat (length roffs) → roffs_loop n roffs j blun = None.
Proof.
  revert roffs j. induction n as [|n IH]; intros roffs j Hj Hb Hn Hle; [lia|]. cbn [roffs_loop].
  destruct (decide (j + blun < Z.of_nat (length roffs))) as [H|H].
  - rewrite wr_in_range by lia. cbn [mbind option_bind]. apply IH; rewrite ?length_insert; lia.
  - unfold wr. rewrite (proj2 (Z.ltb_ge (j + blun) _)) by lia. by rewrite andb_false_r.
Qed.

Lemma reserve_free dev b e :
  0 ≤ b ≤ e → (∀ x, b ≤ x ≤ e → rd (lun_map dev) x = Some false) → ∃ m, nvm_reserve_luns dev b e = Some (dev <| lun_map := m |>, 0).
Proof.
  intros Hb Hf. pose proof (rd_lt _ _ _ (Hf e ltac:(lia))) as Hl. unfold nvm_reserve_luns.
  destruct (reserve_spec (Z.to_nat (e - b + 1)) (lun_map dev) (Z.to_nat b)) as [(m & E & _)|(m & j & _ & Hj & Ht & _)]; [lia| |].
  - rewrite Z2Nat.id in E by lia. rewrite E. by exists m.
  - exfalso. specialize (Hf (Z.of_nat j) ltac:(lia)). apply rd_Some in Hf as [_ Hf]. rewrite Nat2Z.id in Hf. congruence.
Qed.

(** The first channel of a range that does not start at its first LUN and goes on in the next one. *)
Lemma crossing_overruns C L dev env b e :
  geo_is (d_geo dev) C L (C * L) → rmap_ok C L (rmap dev) → (0 < L)%nat → 0 ≤ b → b ≤ e < Z.of_nat (C * L) → Z.of_nat L - b mod Z.of_nat L < Z.min (Z.of_nat L) (e - b + 1) →
  memory_ok env → nvm_create_tgt_dev dev env b e = None.
Proof.
  intros [_ Gl _] [Hrl Hro] HL Hb He Hx (_ & Hm & Ho & _).
  unfold nvm_create_tgt_dev. rewrite Gl, Hm. unfold nz. rewrite (proj2 (Z.eqb_neq (Z.of_nat L) 0)) by lia. cbn [negb ensure mbind option_bind].
  rewrite Z.quot_div_nonneg, Z.rem_mod_nonneg, (Z.quot_div_nonneg b), (Z.rem_mod_nonneg b) by lia.
  pose proof (Z.div_mod b (Z.of_nat L) ltac:(lia)) as Db. pose proof (Z.mod_pos_bound b (Z.of_nat L) ltac:(lia)) as Rb.
  assert (Hk : ∃ k, Z.to_nat (if (e - b + 1) mod Z.of_nat L =? 0 then (e - b + 1) / Z.of_nat L else (e - b + 1) / Z.of_nat L + 1) = S k).
  { exists (Z.to_nat (if (e - b + 1) mod Z.of_nat L =? 0 then (e - b + 1) / Z.of_nat L - 1 else (e - b + 1) / Z.of_nat L)).
    pose proof (Z.div_mod (e - b + 1) (Z.of_nat L) ltac:(lia)). pose proof (Z.div_pos (e - b + 1) (Z.of_nat L) ltac:(lia) ltac:(lia)).
    destruct (Z.eqb_spec ((e - b + 1) mod Z.of_nat L) 0); [|lia]. assert ((e - b + 1) / Z.of_nat L ≠ 0) by nia. lia. }
  destruct Hk as [k ->]. cbn [ch_loop b_rmap b_map b_luns b_balanced].
  assert (Hc : 0 ≤ b / Z.of_nat L < Z.of_nat C) by (split; [by apply Z.div_pos; lia|apply Z.div_lt_upper_bound; lia]).
  destruct (rd_is_Some (rmap dev) (0 + b / Z.of_nat L)) as [r Er]; [rewrite Hrl; lia|]. rewrite Er, Ho. cbn [mbind option_bind negb].
  apply rd_Some in Er as [_ Er]. rewrite roffs_overrun; [done|lia|lia| |]; rewrite (Hro _ _ Er); [|lia].
  destruct (Z.ltb_spec (Z.of_nat L) (e - b + 1)); lia.
Qed.

(** ** The control device *)

Inductive core_event :=
  | RegisterType (name : string)
  | UnregisterType (name : string)
  | RegisterDev (name : string) (d : driver)
  | UnregisterDev (k : nat)
  | IoctlCreate (w : caller) (env : create_env) (c : nvm_ioctl_create)
  | IoctlRemove (w : caller) (name : string) (flags : Z).

Definition core_step (s : nvm_core) (ev : core_event) : option (nvm_core * Z) :=
  match ev with
  | RegisterType name => Some (nvm_register_tgt_type s name)
  | UnregisterType name => Some (nvm_unregister_tgt_type s name, 0)
  | RegisterDev name d => nvm_register s name d
  | UnregisterDev k => s ← unregister_nth s k; Some (s, 0)
  | IoctlCreate w env c => nvm_ioctl_dev_create s w env c
  | IoctlRemove w name flags => nvm_ioctl_dev_remove s w name flags
  end.

(** Drives report what [grp_ok] says, a drive that is removed is there, and a range of LUNs is well placed on the
    drive it is asked of. *)
Definition core_allowed (s : nvm_core) (ev : core_event) : Prop :=
  match ev with
  | RegisterDev _ d => match identity d with Some (_, grp) => grp_ok grp | None => True end
  | UnregisterDev k => (k < length (nvm_devices s))%nat
  | IoctlCreate _ _ c =>
      0 ≤ cr_begin c < 2 ^ 32 ∧ 0 ≤ cr_end c < 2 ^ 32 ∧
      match nvm_find_nvm_dev s (cut DISK_NAME_LEN (cr_dev c)) with
      | Some (_, (_, dev)) => placed (d_geo dev) (cr_begin c) (cr_end c)
      | None => True
      end
  | _ => True
  end.

Inductive core_reachable : nvm_core → Prop :=
  | core_reach_init : core_reachable {| nvm_tgt_types := []; nvm_devices := [] |}
  | core_reach_step s ev s' ret :
      core_reachable s → core_allowed s ev → core_step s ev = Some (s', ret) → core_reachable s'.

(** A drive of the list. *)
Definition drive_reachable (d : string * nvm_dev) : Prop := ∃ grp, grp_ok grp ∧ nvm_reachable grp d.2.

Lemma drive_inv d :
  drive_reachable d → ∃ C L rs, (0 < C ≤ 128)%nat ∧ (0 < L ≤ 256)%nat ∧ inv C L d.2 rs.
Proof.
  intros (grp & Hg & Hr). destruct (nvm_reachable_inv grp d.2 Hg Hr) as [rs Hi]. destruct Hg.
  exists (Z.to_nat (num_ch grp)), (Z.to_nat (num_lun grp)), rs. split; [lia|]. split; [lia|done].
Qed.

Lemma drive_step d ev :
  drive_reachable d → nvm_allowed (d_geo d.2) ev →
  ∃ dev' ret, nvm_step d.2 ev = Some (dev', ret) ∧ drive_reachable (d.1, dev').
Proof.
  intros Hd Ha. destruct (drive_inv d Hd) as (C & L & rs & HC & HL & Hi).
  destruct (nvm_step_inv C L HC HL d.2 rs ev Hi Ha) as (dev' & ret & rs' & E & _). exists dev', ret. split; [done|].
  destruct Hd as (grp & Hg & Hr). exists grp. split; [done|]. by apply (nvm_reach_step grp d.2 ev dev' ret).
Qed.

Lemma unregister_ok C L dev rs :
  inv C L dev rs →
  ∃ dev', nvm_unregister dev = Some dev' ∧ targets dev' = [] ∧ (∀ x, rd (lun_map dev') x ≠ Some true) ∧ d_warns dev' = 0%nat.
Proof.
  unfold nvm_unregister. remember (targets dev) as ts eqn:Et. revert dev rs Et.
  induction ts as [|t ts IH]; intros dev rs Et Hi; cbn [remove_all].
  - exists dev. split; [done|]. split; [done|]. split; [|apply Hi]. intros x [_ Hx]%rd_Some.
    apply (iv_taken _ _ _ _ Hi) in Hx as (r & Hin & _). pose proof (iv_targets _ _ _ _ Hi) as Hf. rewrite <- Et in Hf.
    inversion Hf; subst. by apply not_elem_of_nil in Hin.
  - destruct (remove_target_spec C L dev rs 0 t Hi) as (dev' & E & Hi' & Et' & _); [by rewrite <- Et|].
    rewrite E. cbn [mbind option_bind]. apply (IH dev' (delete 0%nat rs)); [by rewrite Et', <- Et|done].
Qed.

(** A drive that is registered. *)
Lemma register_dev_ok d :
  match identity d with Some (_, grp) => grp_ok grp | None => True end →
  ∃ r, register_dev d = Some r ∧ match r with inr dev => drive_reachable (EmptyString, dev) | inl _ => True end.
Proof.
  intros H. unfold register_dev, nvm_init. assert (Hno : ∀ e : Z, ∃ r, Some (inl e) = Some r ∧
    match r with inr dev => drive_reachable (EmptyString, dev) | inl _ => True end) by (intros e; by exists (inl e)).
  destruct (has_ops d); cbn [negb]; [|apply Hno]. destruct (256 <? max_phys_sect d); [apply Hno|].
  destruct ((1 <? max_phys_sect d) && negb (pool_created d)); [apply Hno|].
  destruct (identity d) as [[ver grp]|]; [|apply Hno]. destruct (ver =? 1); cbn [negb]; [|apply Hno].
  destruct (core_init_total (core_alloc d) grp H) as [r E]. exists r. split; [done|]. destruct r as [|dev]; [done|].
  exists grp. split; [done|]. by apply (nvm_reach_init grp (core_alloc d)).
Qed.

Lemma remove_loop_ok devs name ret :
  Forall drive_reachable devs → ∃ devs' ret', remove_loop devs name ret = Some (devs', ret') ∧ Forall drive_reachable devs'.
Proof.
  revert ret. induction devs as [|[n dev] devs IH]; intros ret H; cbn [remove_loop]; [by eexists _, _|].
  apply Forall_cons in H as [Hd H]. destruct (drive_step _ (RemoveTgt name) Hd I) as (dev' & ret1 & E & Hd'). cbn [nvm_step snd fst] in *.
  rewrite E. cbn [mbind option_bind]. case_match; [eexists _, _; split; [done|]; by constructor|].
  destruct (IH ret1 H) as (devs' & ret2 & E2 & H2). rewrite E2. cbn [mbind option_bind]. eexists _, _. split; [done|]. by constructor.
Qed.

Lemma core_step_ok s ev :
  Forall drive_reachable (nvm_devices s) → core_allowed s ev →
  ∃ s' ret, core_step s ev = Some (s', ret) ∧ Forall drive_reachable (nvm_devices s').
Proof.
  intros Hs Ha. destruct ev as [name|name|name d|k|w env c|w name flags]; cbn [core_step core_allowed] in *.
  - unfold nvm_register_tgt_type. case_match; by eexists _, _.
  - unfold nvm_unregister_tgt_type. repeat case_match; by eexists _, _.
  - unfold nvm_register. destruct (register_dev_ok d Ha) as (r & -> & Hr). cbn [mbind option_bind].
    destruct r as [e|dev]; eexists _, _; (split; [done|]); [done|]. by constructor.
  - unfold unregister_nth. destruct (lookup_lt_is_Some_2 _ _ Ha) as [[n dev] Hk]. rewrite Hk. cbn [mbind option_bind].
    destruct (drive_inv _ (Forall_lookup_1 _ _ _ _ Hs Hk)) as (C & L & rs & _ & _ & Hi).
    destruct (unregister_ok C L _ rs Hi) as (dev' & E & _). cbn [snd] in E. rewrite E. cbn [mbind option_bind].
    eexists _, _. split; [done|]. cbn. by apply Forall_delete.
  - unfold nvm_ioctl_dev_create. destruct (capable w), (copied w); cbn [negb]; [|by eexists _, _..]. cbn [cr_flags].
    destruct (nz _); [by eexists _, _|]. unfold __nvm_configure_create. cbn [cr_dev cr_begin cr_end].
    destruct Ha as (Hb & He & Hp). destruct (nvm_find_nvm_dev _ _) as [[k [n dev]]|] eqn:E; [|by eexists _, _].
    apply list_find_Some in E as (Hk & _). cbn [cr_tgttype cr_simple cr_tgtname].
    set (env' := env <| type_found := _ |>).
    destruct (drive_step (n, dev) (CreateTgt env' (cr_simple c) (cut DISK_NAME_LEN (cr_tgtname c)) (cr_begin c) (cr_end c)))
      as (dev' & ret & E' & Hd'); [by apply (Forall_lookup_1 _ _ _ _ Hs Hk)|done|].
    cbn [nvm_step snd fst] in *. rewrite E'. cbn [mbind option_bind]. eexists _, _. split; [done|]. cbn. by apply Forall_insert.
  - unfold nvm_ioctl_dev_remove. repeat (case_match; [by eexists _, _|]).
    destruct (remove_loop_ok _ (cut DISK_NAME_LEN name) 0 Hs) as (devs & ret & E & Hok). rewrite E. by eexists _, _.
Qed.

Lemma core_reachable_ok s : core_reachable s → Forall drive_reachable (nvm_devices s).
Proof.
  intros H. induction H as [|s ev s' ret _ IH Ha E]; [constructor|].
  destruct (core_step_ok s ev IH Ha) as (s2 & ret2 & E2 & H2). rewrite E2 in E. by injection E as <- <-.
Qed.

(** ** Requests for sectors *)

Definition rqd_list {A} (r : rqd_ppas A) : list A := match r with OnePpa p => [p] | PpaList l => l end.

Lemma reachable_map grp dev t p :
  grp_ok grp → nvm_reachable grp dev → t ∈ targets dev → in_geo (td_geo (t_dev t)) p →
  ∃ q, nvm_map_to_dev (t_dev t) p = Some q ∧ in_geo (d_geo dev) q ∧ nvm_map_to_tgt dev q = Some p.
Proof.
  intros Hgrp Hr [i Hi]%list_elem_of_lookup_1 Hp. destruct (nvm_reachable_inv grp dev Hgrp Hr) as [rs Hinv]. destruct Hgrp.
  destruct (Forall2_lookup_l _ _ _ _ _ (iv_targets _ _ _ _ Hinv) Hi) as (r & _ & Htd & Hok & Hu).
  destruct (map_roundtrip (Z.to_nat (num_ch grp)) (Z.to_nat (num_lun grp)) ltac:(lia) ltac:(lia) dev rs t r p)
    as (q & E1 & E2 & E3 & _); try done. by exists q.
Qed.

Lemma set_rqd_planes geo ppas :
  Forall (λ p, set_plane 0 p = p) ppas →
  ∃ r, nvm_set_rqd_ppalist geo true ppas true = inr r ∧ rqd_list r = plane_list (plane_mode geo) ppas.
Proof.
  intros H. unfold nvm_set_rqd_ppalist. cbn [negb orb]. destruct ppas as [|p [|p' ppas]]; [by eexists| |by eexists].
  destruct (Z.eqb_spec (plane_mode geo) NVM_PLANE_SINGLE) as [E|E]; [|by eexists]. exists (OnePpa p). split; [done|].
  rewrite E. apply Forall_cons in H as [H _]. change (plane_list NVM_PLANE_SINGLE [p]) with [set_plane 0 p]. by rewrite H.
Qed.

Lemma plane_list_lookup mode ppas i p pl :
  ppas !! i = Some p → (pl < Z.to_nat mode)%nat → plane_list mode ppas !! (pl * length ppas + i)%nat = Some (set_plane (Z.of_nat pl) p).
Proof.
  intros Hp Hpl. pose proof (lookup_lt_Some _ _ _ Hp). unfold plane_list.
  rewrite bind_lookup by (done || intros; by rewrite length_fmap). by rewrite list_lookup_fmap, Hp.
Qed.

Lemma plane_list_length mode ppas : length (plane_list mode ppas) = (Z.to_nat mode * length ppas)%nat.
Proof.
  unfold plane_list. generalize 0%nat. induction (Z.to_nat mode) as [|m IH]; intros a; [done|].
  cbn [seq]. rewrite bind_cons, length_app, length_fmap, IH. lia.
Qed.

Lemma plane_list_elem mode ppas p : p ∈ plane_list mode ppas → ∃ pl p0, p0 ∈ ppas ∧ p = set_plane pl p0.
Proof.
  unfold plane_list. intros (pl & (p0 & -> & Hp)%list_elem_of_fmap & _)%list_elem_of_bind. by exists (Z.of_nat pl), p0.
Qed.

Section conversions.
Context (g2d : nvm_geo → ppa_addr → Z) (d2g : nvm_geo → Z → ppa_addr).

(** Address [p] of a target is [q] of the drive. *)
Definition goes (dev : nvm_dev) (td : nvm_tgt_dev) (p q : ppa_addr) : Prop :=
  nvm_map_to_dev td p = Some q ∧ in_geo (d_geo dev) q ∧ nvm_map_to_tgt dev q = Some p.

Lemma ppas_down dev td l :
  (∀ p, p ∈ l → ∃ q, goes dev td p q) →
  ∃ qs, Forall2 (goes dev td) l qs ∧ nvm_ppa_tgt_to_dev g2d td l = Some (g2d (td_geo td) <$> qs).
Proof.
  induction l as [|p l IH]; intros H; [by exists []|]. destruct IH as (qs & Hq & E); [intros; apply H; by right|].
  destruct (H p) as (q & Hpq); [by left|]. exists (q :: qs). split; [by constructor|]. destruct Hpq as (F & _).
  unfold nvm_ppa_tgt_to_dev in *. cbn [mapM fmap list_fmap]. rewrite F. cbn [mbind option_bind]. by rewrite E.
Qed.

Lemma ppas_up dev td l qs :
  Forall2 (goes dev td) l qs →
  (∀ p q, p ∈ l → nvm_map_to_dev td p = Some q → d2g (td_geo td) (g2d (td_geo td) q) = q) →
  nvm_ppa_dev_to_tgt d2g dev td (g2d (td_geo td) <$> qs) = Some l.
Proof.
  unfold nvm_ppa_dev_to_tgt. induction 1 as [|p q l qs (F1 & _ & F2) _ IH]; intros H; [done|]. cbn [mapM fmap list_fmap].
  rewrite (H p q), F2 by (done || by left). cbn [mbind option_bind]. rewrite IH; [done|]. intros p' q' Hp. apply H. by right.
Qed.

Lemma rq_down td r l :
  nvm_ppa_tgt_to_dev g2d td (rqd_list r) = Some l →
  ∃ d, nvm_rq_tgt_to_dev g2d td r = Some d ∧ rqd_list d = l ∧
    ∀ dev, nvm_ppa_dev_to_tgt d2g dev td l = Some (rqd_list r) → nvm_rq_dev_to_tgt d2g dev td d = Some r.
Proof.
  intros E. destruct r as [p|ps]; cbn [nvm_rq_tgt_to_dev rqd_list] in *; rewrite E; cbn [mbind option_bind].
  - destruct l as [|a [|? l]]; [by apply length_mapM in E| |by apply length_mapM in E].
    exists (OnePpa a). split; [done|]. split; [done|]. intros dev E2. cbn [nvm_rq_dev_to_tgt]. by rewrite E2.
  - exists (PpaList l). split; [done|]. split; [done|]. intros dev E2. cbn [nvm_rq_dev_to_tgt]. by rewrite E2.
Qed.
End conversions.

(** ** Theorems *)


Section claims.
Context (grp : nvm_id_group) (Hgrp : grp_ok grp).




(** An erasure that the drive takes is for every plane of every block, each on a LUN of the target: entry
    [pl * n + i] of the request is block [i] of [n] on plane [pl]. *)
Lemma nvm_erase_planes g2d d2g submit dev t ppas :
  nvm_reachable grp dev → t ∈ targets dev → Forall (in_geo (td_geo (t_dev t))) ppas → Forall (λ p, set_plane 0 p = p) ppas →
  (∀ d, submit d = 0) →
  let geo := td_geo (t_dev t) in
  ∃ d, nvm_erase_sync g2d d2g dev (t_dev t) true (Some submit) ppas = Some (0, Some d) ∧
    length (rqd_list d) = (Z.to_nat (plane_mode geo) * length ppas)%nat ∧
    ∀ i p pl, ppas !! i = Some p → (pl < Z.to_nat (plane_mode geo))%nat →
      ∃ q, goes dev (t_dev t) (set_plane (Z.of_nat pl) p) q ∧ rqd_list d !! (pl * length ppas + i)%nat = Some (g2d geo q).
Proof using Hgrp.
  intros Hr Ht Hg Hp Hs geo. rewrite Forall_forall in Hg. destruct (set_rqd_planes geo ppas Hp) as (r & E & El).
  destruct (ppas_down g2d dev (t_dev t) (rqd_list r)) as (qs & Hqs & E1).
  { intros p' Hp'. rewrite El in Hp'. apply plane_list_elem in Hp' as (pl & p & Hin & ->).
    apply (reachable_map grp dev t); [done..|]. specialize (Hg p Hin). by destruct p. }
  destruct (rq_down g2d d2g (t_dev t) r _ E1) as (d & F1 & F2 & _). exists d. unfold nvm_erase_sync. fold geo. rewrite E.
  unfold nvm_submit_io. rewrite F1. cbn [mbind option_bind]. rewrite Hs. split; [done|].
  rewrite F2, length_fmap, <- (Forall2_length _ _ _ Hqs), El, plane_list_length. split; [done|].
  intros i p pl Hi Hpl. rewrite El in Hqs. pose proof (plane_list_lookup (plane_mode geo) ppas i p pl Hi Hpl) as Hl.
  destruct (Forall2_lookup_l _ _ _ _ _ Hqs Hl) as (q & Hq & Hgo). exists q. split; [done|]. by rewrite list_lookup_fmap, Hq.
Qed.
(** A range that starts within a channel and goes on in the next one is accepted by the checks of its bounds, but the
    entries for its first channel are written past the end of the table of that channel. *)
Lemma nvm_crossing_range_overruns dev env name b e :
  nvm_reachable grp dev → 0 ≤ b → b ≤ e < nr_luns (d_geo dev) →
  luns_per_chnl (d_geo dev) - b mod luns_per_chnl (d_geo dev) < Z.min (luns_per_chnl (d_geo dev)) (e - b + 1) →
  (∀ x, b ≤ x ≤ e → rd (lun_map dev) x = Some false) → type_found env = true → name ∉ t_name <$> targets dev → memory_ok env →
  configure_dev dev env true name b e = None.
Proof using Hgrp.
  intros Hr Hb He Hx Hf Ht Hn Hm. destruct (nvm_reachable_inv grp dev Hgrp Hr) as [rs Hi]. pose proof Hgrp as [].
  destruct (iv_geo _ _ _ _ Hi) as [_ Gl Gn]. rewrite Gl in Hx. rewrite Gn in He.
  rewrite (configure_range (Z.to_nat (num_ch grp)) (Z.to_nat (num_lun grp)) ltac:(lia) ltac:(lia) dev rs) by done.
  unfold nvm_create_tgt. rewrite Ht, (proj2 (find_new dev name) Hn). cbn [negb].
  destruct (reserve_free dev b e) as [m E]; [lia|done|]. rewrite E. cbn [mbind option_bind]. change (nz 0) with false. cbn iota.
  rewrite (proj1 Hm). cbn [negb]. set (dev1 := dev <| lun_map := m |>).
  rewrite (crossing_overruns (Z.to_nat (num_ch grp)) (Z.to_nat (num_lun grp)) dev1 env b e);
    [done|apply Hi|apply Hi|lia|lia|lia|done|done].
Qed.
End claims.

(** C22: Areas of sectors: after any sequence of requests, the areas in use are in order and do not overlap.  A new area gets
    the first place with room for it, does not overlap the others, and is refused just if there is no room at all. *)
Theorem area_first_fit dev ops len :
  area_list dev = [] → max_sectors dev < 2 ^ 63 → Forall area_op_ok ops → 0 ≤ len →
  let d := area_run dev ops in
  areas_ok 0 (max_sectors dev) (area_list d) ∧
  match nvm_get_area d true len with
  | (d', inr b) =>
      0 ≤ b ∧ b + len ≤ max_sectors dev ∧ (∀ a, a ∈ area_list d → ¬ overlaps a b len) ∧
      (∀ b', 0 ≤ b' < b → ∃ a, a ∈ area_list d ∧ overlaps a b' len) ∧
      area_list d' ≡ₚ {| area_begin := b; area_end := b + len |} :: area_list d
  | (d', inl _) => d' = d ∧ ∀ b', 0 ≤ b' → b' + len ≤ max_sectors dev → ∃ a, a ∈ area_list d ∧ overlaps a b' len
  end.
Proof.
  intros E Hmax Hops Hlen d. destruct (area_run_ok dev ops E Hmax Hops) as [H1 H2]. split; [done|]. fold d in H1, H2.
  rewrite <- H2 in H1. pose proof (get_area_spec d len H1 Hlen ltac:(lia)) as Hs. rewrite H2 in Hs.
  destruct (nvm_get_area d true len) as [d' [r|b]]; [done|]. destruct Hs as (? & ? & ? & ? & _ & ? & _). done.
Qed.

(** C23: Folding a table of planes in place gives for each block the type of its first bad plane, or of plane 0 if none is bad, although
    the types of planes are overwritten while others are still to be read. *)
Theorem bb_tbl_fold_exact geo blks :
  0 < plane_mode geo → 0 ≤ blks_per_lun geo → blks_per_lun geo * plane_mode geo < 2 ^ 31 →
  Z.of_nat (length blks) = blks_per_lun geo * plane_mode geo →
  ∃ blks', nvm_bb_tbl_fold geo blks (Z.of_nat (length blks)) = Some (blks', blks_per_lun geo) ∧
    ∀ k, 0 ≤ k < blks_per_lun geo →
      rd blks' k = Some (block_type (take (Z.to_nat (plane_mode geo)) (drop (Z.to_nat (k * plane_mode geo)) blks))).
Proof.
  intros Hm Hb Hi Hl. unfold nvm_bb_tbl_fold. rewrite s32_small, Hl, Z.eqb_refl by nia. cbn [negb].
  destruct (fold_loop_spec (Z.to_nat (plane_mode geo)) (Z.to_nat (blks_per_lun geo)) 0 blks blks) as (blks' & E & _ & _ & Hk); [lia|done|nia|done|].
  rewrite Z2Nat.id in E by lia. change (Z.of_nat 0) with 0 in E. rewrite E. cbn [mbind option_bind]. exists blks'. split; [done|].
  intros k Hk0. apply rd_Some. split; [lia|]. rewrite Hk by lia. by rewrite Z2Nat.inj_mul by lia.
Qed.

(** ** Examples *)

Module Sample.
(** 2 channels of 4 LUNs, 4 blocks of 2 planes, and 2 pages of 2 sectors each. *)
Definition grp : nvm_id_group :=
  {| mtype := 0; fmtype := 0; num_ch := 2; num_lun := 4; num_pln := 2; num_blk := 4; num_pg := 2;
     fpg_sz := 8192; csecs := 4096; mpos := 131586; num_pairs := 0; pairs := [];
     id_sect_len := 1; id_pln_len := 1; id_pg_len := 1; id_blk_len := 2 |}.

Definition memory : core_env := {| lun_map_alloc := true; lptbl_alloc := true; rmap_alloc := true |}.

Definition nvme : driver :=
  {| has_ops := true; max_phys_sect := 64; pool_created := true; identity := Some (1, grp); core_alloc := memory |}.

Definition env : create_env :=
  {| type_found := true; target_alloc := true; map_alloc := true; lun_offs_alloc := λ _, true; tgt_dev_alloc := true; setup := 0 |}.

Lemma grp_fits : grp_ok grp.
Proof. split; simpl; lia. Qed.

(** The drive, after requests [evs]. *)
Fixpoint after (o : option nvm_dev) (evs : list nvm_event) : option nvm_dev :=
  match evs with
  | [] => o
  | ev :: evs => after (dev ← o; '(dev, _) ← nvm_step dev ev; Some dev) evs
  end.

Definition start : option nvm_dev := match nvm_core_init memory grp with Some (inr dev) => Some dev | _ => None end.

(** Target a has channel 0, target b two LUNs of channel 1. *)
Definition create_a : nvm_event := CreateTgt env true "a" 0 3.
Definition create_b : nvm_event := CreateTgt env true "b" 5 6.

Definition no_drive : nvm_dev :=
  {| d_geo := {| nr_chnls := 0; nr_luns := 0; luns_per_chnl := 0; blks_per_lun := 0; geo_sec_per_blk := 0; geo_sec_per_pl := 0;
                 geo_sec_per_lun := 0; geo_sec_size := 0; plane_mode := 0; sect_len := 0; pln_len := 0; pg_len := 0; blk_len := 0 |};
     lun_map := []; rmap := []; area_list := []; targets := []; total_secs := 0; lptbl := []; d_warns := 0 |}.

Definition dev0 : nvm_dev := default no_drive start.
Definition dev1 : nvm_dev := default no_drive (after start [create_a]).
Definition dev2 : nvm_dev := default no_drive (after start [create_a; create_b]).
Definition tgt_b : nvm_target := default {| t_name := EmptyString; t_dev := {| td_geo := d_geo no_drive; td_map := []; td_luns := []; td_total_secs := 0 |} |} (targets dev2 !! 1%nat).

Lemma reach0 : nvm_reachable grp dev0.
Proof. apply (nvm_reach_init grp memory). vm_compute. reflexivity. Qed.

Lemma reach1 : nvm_reachable grp dev1.
Proof.
  apply (nvm_reach_step grp dev0 create_a dev1 0 reach0); [|vm_compute; reflexivity].
  split; [lia|]. split; [lia|]. right. right. left. vm_compute. done.
Qed.

Lemma reach2 : nvm_reachable grp dev2.
Proof.
  apply (nvm_reach_step grp dev1 create_b dev2 0 reach1); [|vm_compute; reflexivity].
  split; [lia|]. split; [lia|]. right. right. left. vm_compute. done.
Qed.

Lemma tgt_b_listed : tgt_b ∈ targets dev2.
Proof. apply (list_elem_of_lookup_2 _ 1). vm_compute. reflexivity. Qed.

(** A format of addresses: 8 bits for each part. *)
Definition pack (_ : nvm_geo) (p : ppa_addr) : Z :=
  match p with
  | Dev blk pg lun ch pl sec => ((((blk * 256 + pg) * 256 + lun) * 256 + ch) * 256 + pl) * 256 + sec
  | _ => 0
  end.

Definition unpack (_ : nvm_geo) (a : Z) : ppa_addr :=
  Dev (a / 2 ^ 40) (a / 2 ^ 32 mod 256) (a / 2 ^ 24 mod 256) (a / 2 ^ 16 mod 256) (a / 2 ^ 8 mod 256) (a mod 256).

(** The core, with type pblk and that drive. *)
Definition core0 : nvm_core := {| nvm_tgt_types := []; nvm_devices := [] |}.
Definition core1 : nvm_core := {| nvm_tgt_types := ["pblk"%string]; nvm_devices := [] |}.
Definition core2 : nvm_core := {| nvm_tgt_types := ["pblk"%string]; nvm_devices := [("nvme0n1"%string, dev0)] |}.

Lemma core2_reachable : core_reachable core2.
Proof.
  apply (core_reach_step core1 (RegisterDev "nvme0n1" nvme) core2 0); [|exact grp_fits|vm_compute; reflexivity].
  apply (core_reach_step core0 (RegisterType "pblk") core1 0); [|done|vm_compute; reflexivity]. apply core_reach_init.
Qed.

Definition request : core_event :=
  IoctlCreate {| capable := true; copied := true |} env
    {| cr_dev := "nvme0n1"; cr_tgttype := "pblk"; cr_tgtname := "a"; cr_flags := 1; cr_simple := true; cr_begin := 0; cr_end := 3 |}.
End Sample.





Lemma area_first_fit_witness :
  areas_ok 0 (max_sectors Sample.dev0) (area_list (area_run Sample.dev0 [GetArea true 8; GetArea true 16; PutArea 0])).
Proof.
  destruct (area_first_fit Sample.dev0 [GetArea true 8; GetArea true 16; PutArea 0] 8) as [H _];
    [reflexivity|vm_compute; done|repeat constructor; simpl; lia|lia|exact H].
Defined.

Lemma bb_tbl_fold_exact_witness :
  ∃ blks', nvm_bb_tbl_fold (d_geo Sample.dev0) [0; 0; 0; 2; 4; 0; 1; 8] 8 = Some (blks', 4) ∧ rd blks' 1 = Some 2.
Proof.
  destruct (bb_tbl_fold_exact (d_geo Sample.dev0) [0; 0; 0; 2; 4; 0; 1; 8]) as (blks' & E & H);
    [vm_compute; done|vm_compute; done|vm_compute; done|reflexivity|].
  exists blks'. split; [exact E|]. rewrite H by (vm_compute; done). vm_compute. reflexivity.
Defined.
