(* ===== verification/PblkMap.v ===== *)
(** * The map of pblk (src/mstream-pblk/pblk.h, pblk-dftl.c, pblk-core.c)

    The map from logical to physical sectors has one entry per segment, as many sectors as a line has.  A
    segment belongs to a stream, and the stream says how it is mapped: sector by sector; as a whole, with a log of its sectors while it is
    being written; or page by page, with a log for each page being written.  Parts of the map are
    counted as cached by a list of segments in the order of their use, from which the oldest are evicted.

    [struct pba_addr] belongs to the patched kernel header linux/lightnvm.h.  The code uses the fields of its
    part [m] next to one of an address [b], the empty address or a pointer, so an entry is a record of the
    former with a variant of the latter.  Each array belongs to one entry and is a value of that
    entry.  Allocations succeed, as the code takes for granted.  The tree the cached segments are
    searched in holds the same entries as their list. *)

From S2P Require Import Prelude RingBuffer PblkAddr PblkLine PblkInit.

Open Scope Z_scope.

(** ** Data *)

Record pblk_lstream := { map_type : Z; map_size : Z; log_size : Z; invalid_line : Z }.

Inductive page_val := PEmpty | PAddr (blk pg lun ch pl : Z) | PLog (l : list ppa_addr).

(** An entry of the map of pages. *)
Record page_entry := { pe_cached : bool; pe_val : page_val }.

(** An address of which only the block is set, a map or log of sectors, or a map of pages. *)
Inductive seg_val := SEmpty | SAddr (blk : Z) | SArray (l : list ppa_addr) | SPages (l : list page_entry).

Record seg := { m_map : Z; m_lstream : Z; m_cached : bool; seg_val_of : seg_val }.

#[global] Instance pblk_lstream_fields : Fields pblk_lstream := λ x,
  {| map_type := map_type x; map_size := map_size x; log_size := log_size x; invalid_line := invalid_line x |}.
#[global] Instance seg_fields : Fields seg := λ x,
  {| m_map := m_map x; m_lstream := m_lstream x; m_cached := m_cached x; seg_val_of := seg_val_of x |}.

(** A cached segment. *)
Record map_entry := { me_lseg : Z; me_dirty : bool; me_nr_log : Z; me_map_size : Z }.

#[global] Instance map_entry_fields : Fields map_entry := λ x,
  {| me_lseg := me_lseg x; me_dirty := me_dirty x; me_nr_log := me_nr_log x; me_map_size := me_map_size x |}.

(** The map, the streams, the cached segments, and what the map sees of the rest of pblk: the entries of the write
    buffers, the lines, and the addresses that were invalidated, the last one first. *)
Record l2p := {
  bmap : list seg;
  lstreams : list pblk_lstream;
  nr_lstream : Z;
  max_res : Z;
  alloc_res : Z;
  map_list : list map_entry;
  nr_mapread : Z;
  nr_mapwrite : Z;
  preinvalid_map : list Z;
  l_fmt : pblk_addr_format;
  l_nr_lines : Z;
  l_nr_secs : Z;
  rwbs : list pblk_rb;
  invalidated : list ppa_addr;
  l_warns : nat
}.

#[global] Instance l2p_fields : Fields l2p := λ x,
  {| bmap := bmap x; lstreams := lstreams x; nr_lstream := nr_lstream x; max_res := max_res x; alloc_res := alloc_res x;
     map_list := map_list x; nr_mapread := nr_mapread x; nr_mapwrite := nr_mapwrite x; preinvalid_map := preinvalid_map x;
     l_fmt := l_fmt x; l_nr_lines := l_nr_lines x; l_nr_secs := l_nr_secs x; rwbs := rwbs x; invalidated := invalidated x;
     l_warns := l_warns x |}.

Definition pointer_sectors (v : seg_val) : option (list ppa_addr) := match v with SArray l => Some l | _ => None end.
Definition pointer_pages (v : seg_val) : option (list page_entry) := match v with SPages l => Some l | _ => None end.
Definition pointer_log (v : page_val) : option (list ppa_addr) := match v with PLog l => Some l | _ => None end.

(** [1 << blk_offset], [lba >> blk_offset] and [lba & (entry_num - 1)]. *)
Definition entry_num (s : l2p) : Z := s32 (Z.shiftl 1 (blk_offset (l_fmt s))).
Definition lseg_of (s : l2p) (lba : Z) : Z := Z.shiftr lba (blk_offset (l_fmt s)).
Definition loff_of (s : l2p) (lba : Z) : Z := Z.land lba (entry_num s - 1).

(** ** Cached segments (pblk-dftl.c) *)

Definition pblk_search_cmt (s : l2p) (lseg : Z) : option (nat * map_entry) :=
  list_find (λ e, me_lseg e = lseg) (map_list s).

Definition pblk_insert_cmt (s : l2p) (lseg map_size nr_log : Z) (dirty : bool) : l2p :=
  match pblk_search_cmt s lseg with
  | Some _ => s
  | None =>
      s <| map_list ::= (.++ [{| me_lseg := lseg; me_dirty := dirty; me_nr_log := u32 nr_log; me_map_size := u32 map_size |}]) |>
        <| nr_mapread ::= Z.succ |> <| alloc_res ::= λ a, u32 (a + (map_size + nr_log)) |>
  end.

Definition pblk_delete_cmt (s : l2p) (lseg : Z) : l2p :=
  match pblk_search_cmt s lseg with
  | Some (k, e) => s <| map_list ::= delete k |> <| alloc_res ::= λ a, u32 (a - me_map_size e - me_nr_log e) |>
  | None => s
  end.

(** Entries leave from the front of [l] until there is room; what is left of the list, the room that was gained and the
    number of entries that were written.  An empty list is a [BUG_ON]. *)
Fixpoint evict_loop (l : list map_entry) (need free get : Z) (writes : Z) : option (list map_entry * Z * Z) :=
  if need <=? free then Some (l, get, writes) else
  match l with
  | [] => None
  | e :: l =>
      evict_loop l need (s32 (free + me_map_size e + me_nr_log e)) (u32 (get + (me_map_size e + me_nr_log e)))
        (if me_dirty e then writes + 1 else writes)
  end.

Definition pblk_evict_cmt (s : l2p) (need : Z) : option l2p :=
  '(l, get, writes) ← evict_loop (map_list s) need (s32 (max_res s - alloc_res s)) 0 (nr_mapwrite s);
  Some (s <| map_list := l |> <| nr_mapwrite := writes |> <| alloc_res ::= λ a, u32 (a - get) |>).

Definition pmap_entry_num (s : l2p) : Z := Z.shiftr (entry_num s) (pln_offset (l_fmt s)).

(** The sizes of the part of the map for a segment that is to be cached. *)
Definition load_sizes (s : l2p) (x : seg) (st : pblk_lstream) : option (Z * Z) :=
  if map_type st =? PAGE_MAP then
    pmap ← pointer_pages (seg_val_of x);
    _ ← ensure (pmap_entry_num s <=? Z.of_nat (length pmap));
    Some (4096, log_size st * Z.of_nat (length (filter (λ e, pe_cached e = true) (take (Z.to_nat (pmap_entry_num s)) pmap))))
  else if m_map x =? BLOCK_MAP then Some (log_size st, 0) else Some (4096, 0).

Definition pblk_load_cmt (s : l2p) (lseg : Z) (dirty : bool) : option l2p :=
  x ← rd (bmap s) lseg;
  st ← rd (lstreams s) (m_lstream x);
  if (map_type st =? BLOCK_MAP) && negb (m_cached x) then Some s else
  match pblk_search_cmt s lseg with
  | Some (k, e) => Some (s <| map_list ::= λ l, delete k l ++ [if dirty then e <| me_dirty := true |> else e] |>)
  | None =>
      '(map_size, log_size) ← load_sizes s x st;
      s ← (if s32 (max_res s - alloc_res s) <? map_size + log_size then pblk_evict_cmt s (map_size + log_size) else Some s);
      Some (pblk_insert_cmt s lseg map_size log_size dirty)
  end.

(** The cached segment [lseg], loaded if necessary. *)
Definition find_or_load (s : l2p) (lseg : Z) : option (l2p * nat) :=
  match pblk_search_cmt s lseg with
  | Some (k, _) => Some (s, k)
  | None => s ← pblk_load_cmt s lseg true; '(k, _) ← pblk_search_cmt s lseg; Some (s, k)
  end.

(** Room for a log.  The entry of a page-mapped segment was found before others are evicted; [None] if it is
    one of those. *)
Definition pblk_alloc_log (s : l2p) (lseg type log_size : Z) : option l2p :=
  s ← (if type =? BLOCK_MAP then Some s else
       if type =? PAGE_MAP then '(s, _) ← find_or_load s lseg; Some s else None);
  s ← (if u32 (max_res s - alloc_res s) <? log_size then pblk_evict_cmt s log_size else Some s);
  if type =? BLOCK_MAP then Some (pblk_insert_cmt s lseg 0 log_size true) else
  '(k, _) ← pblk_search_cmt s lseg;
  Some (s <| map_list ::= alter (λ e, e <| me_nr_log := u32 (me_nr_log e + log_size) |> <| me_dirty := true |>) k |>
          <| alloc_res ::= λ a, u32 (a + log_size) |>).

Definition pblk_free_log (s : l2p) (lseg type log_size : Z) : option l2p :=
  if type =? BLOCK_MAP then Some (pblk_delete_cmt s lseg) else
  if type =? PAGE_MAP then
    '(s, k) ← find_or_load s lseg;
    Some (s <| map_list ::= alter (λ e, e <| me_nr_log := u32 (me_nr_log e - log_size) |>) k |>
            <| alloc_res ::= λ a, u32 (a - log_size) |>)
  else None.

Definition pblk_change_map (s : l2p) (lseg : Z) : option l2p := pblk_load_cmt (pblk_delete_cmt s lseg) lseg true.

(** ** Lookup *)

(** [c.is_cached], a bit that is also set in the empty address. *)
Definition cached_bit (p : ppa_addr) : bool := match p with Dev _ _ _ _ _ _ => false | _ => true end.

(** A sector of a segment that is mapped as a whole, on line [blk]. *)
Definition block_addr (s : l2p) (lba blk : Z) : option ppa_addr :=
  _ ← ensure (blk <? l_nr_lines s);
  Some (addr_to_gen_ppa (l_fmt s) lba blk).

Definition get_sector (s : l2p) (x : seg) (lba : Z) : option ppa_addr :=
  _ ← ensure (m_map x =? SECTOR_MAP);
  smap ← pointer_sectors (seg_val_of x);
  p ← rd smap (loff_of s lba);
  match p with
  | Dev blk _ _ _ _ _ => _ ← ensure (blk <? l_nr_lines s); Some p
  | _ => Some p
  end.

Definition get_block (s : l2p) (x : seg) (lba : Z) : option ppa_addr :=
  _ ← ensure (m_map x =? BLOCK_MAP);
  if m_cached x then bmtlog ← pointer_sectors (seg_val_of x); rd bmtlog (loff_of s lba) else
  match seg_val_of x with
  | SEmpty => Some ADDR_EMPTY
  | SAddr blk =>
      if (loff_of s lba <? 8) || (entry_num s - 17 <? loff_of s lba) then Some ADDR_EMPTY else block_addr s lba blk
  | _ => None
  end.

Definition pindex_of (s : l2p) (lba : Z) : Z := Z.shiftr (loff_of s lba) (pln_offset (l_fmt s)).
Definition poffset_of (s : l2p) (lba : Z) : Z := Z.land lba (s32 (Z.shiftl 1 (pln_offset (l_fmt s))) - 1).

Definition get_page (s : l2p) (x : seg) (lba : Z) : option ppa_addr :=
  _ ← ensure (m_map x =? PAGE_MAP);
  pmap ← pointer_pages (seg_val_of x);
  e ← rd pmap (pindex_of s lba);
  if pe_cached e then pmap_log ← pointer_log (pe_val e); rd pmap_log (poffset_of s lba) else
  match pe_val e with
  | PEmpty => Some ADDR_EMPTY
  | PAddr blk pg lun ch pl => Some (Dev blk pg lun ch pl (poffset_of s lba))
  | PLog _ => None
  end.

(** What a segment of stream [st] says of a sector. *)
Definition get_in (s : l2p) (x : seg) (st : pblk_lstream) (lba : Z) : option ppa_addr :=
  if map_type st =? SECTOR_MAP then get_sector s x lba
  else if map_type st =? BLOCK_MAP then get_block s x lba
  else if map_type st =? PAGE_MAP then get_page s x lba else None.

Definition pblk_trans_map_get (s : l2p) (lba : Z) : option (l2p * ppa_addr) :=
  x ← rd (bmap s) (lseg_of s lba);
  if m_map x =? NONE_MAP then Some (s, ADDR_EMPTY) else
  _ ← ensure (m_lstream x <? nr_lstream s);
  st ← rd (lstreams s) (m_lstream x);
  s ← pblk_load_cmt s (lseg_of s lba) false;
  p ← get_in s x st lba;
  Some (s, p).

Definition pblk_get_maptype (s : l2p) (lba : Z) : option Z := x ← rd (bmap s) (lseg_of s lba); Some (m_map x).

Definition pblk_get_log_maptype (s : l2p) (lba : Z) : option Z :=
  x ← rd (bmap s) (lseg_of s lba);
  _ ← ensure (m_lstream x <? nr_lstream s);
  st ← rd (lstreams s) (m_lstream x);
  Some (map_type st).

(** [n] sectors from [lba] on. *)
Fixpoint get_range (n : nat) (s : l2p) (lba : Z) : option (l2p * list ppa_addr) :=
  match n with
  | O => Some (s, [])
  | S n => '(s, p) ← pblk_trans_map_get s lba; '(s, l) ← get_range n s (lba + 1); Some (s, p :: l)
  end.

(** ** The write buffers *)

(** The write context of an entry, and its change. *)
Definition rb_entry (s : l2p) (line nrb : Z) : option (pblk_rb * Z * pblk_rb_entry) :=
  rb ← rd (rwbs s) nrb;
  let pos := pblk_rb_wrap_pos rb line in
  e ← rd (entries rb) pos;
  Some (rb, pos, e).

Definition set_wctx (s : l2p) (nrb : Z) (rb : pblk_rb) (pos : Z) (e : pblk_rb_entry) (p : ppa_addr) (f : Z) : option l2p :=
  es ← wr (entries rb) pos (e <| w_ctx := (w_ctx e) <| ppa := p |> <| flags := f |> |>);
  rbs ← wr (rwbs s) nrb (rb <| entries := es |>);
  Some (s <| rwbs := rbs |>).

Definition pblk_cache_invalidate (s : l2p) (r_ppa : ppa_addr) : option (l2p * ppa_addr) :=
  match r_ppa with
  | Cache line nrb _ =>
      '(rb, pos, e) ← rb_entry s line nrb;
      let f := flags (w_ctx e) in
      if has f PBLK_INVALIDATE_ENTRY then Some (s, r_ppa)
      else if has f PBLK_RESERVED_ENTRY then
        s ← set_wctx s nrb rb pos e ADDR_EMPTY (Z.lor f PBLK_INVALIDATE_ENTRY); Some (s, ppa (w_ctx e))
      else if has f PBLK_WAITREAD_ENTRY then
        s ← set_wctx s nrb rb pos e ADDR_EMPTY (Z.lor (clr f PBLK_WAITREAD_ENTRY) PBLK_INVALIDATE_ENTRY); Some (s, ppa (w_ctx e))
      else Some (s, r_ppa)
  | _ => Some (s, r_ppa)
  end.

Definition pblk_get_reserved_old_addr (s : l2p) (r_ppa : ppa_addr) : option ppa_addr :=
  match r_ppa with
  | Cache line nrb _ =>
      '(_, _, e) ← rb_entry s line nrb;
      let f := flags (w_ctx e) in
      if has f PBLK_WRITTEN_DATA || has f PBLK_SUBMITTED_ENTRY then Some r_ppa
      else if has f PBLK_RESERVED_ENTRY || has f PBLK_WAITREAD_ENTRY then Some (ppa (w_ctx e)) else Some r_ppa
  | _ => Some r_ppa
  end.

Definition pblk_get_reserved_old_addr2 (s : l2p) (r_ppa : ppa_addr) : option ppa_addr :=
  match r_ppa with
  | Cache line nrb _ =>
      '(_, _, e) ← rb_entry s line nrb;
      let f := flags (w_ctx e) in
      if has f PBLK_WRITTEN_DATA then Some r_ppa
      else if has f PBLK_SUBMITTED_ENTRY || has f PBLK_RESERVED_ENTRY || has f PBLK_WAITREAD_ENTRY then Some (ppa (w_ctx e))
      else Some r_ppa
  | _ => Some r_ppa
  end.

(** The address is handed to its line. *)
Definition pblk_map_invalidate (s : l2p) (p : ppa_addr) : option l2p :=
  line_id ← pblk_tgt_ppa_to_line p;
  _ ← ensure (line_id <? l_nr_lines s);
  Some (s <| invalidated ::= cons p |>).

(** ** Changes *)

Definition put_seg (s : l2p) (lseg : Z) (x : seg) : option l2p :=
  m ← wr (bmap s) lseg x;
  Some (s <| bmap := m |>).

(** [preinvalid_map[lba] = 0] *)
Definition not_preinvalid (s : l2p) (lba : Z) : option l2p :=
  m ← wr (preinvalid_map s) lba 0;
  Some (s <| preinvalid_map := m |>).

(** Four sectors from [start_lba] on, and whether they are a page: all empty, or four sectors in a row from sector 0 on. *)
Definition pblk_check_page_align (s : l2p) (start_lba : Z) : option (l2p * list ppa_addr * bool) :=
  '(s, copy) ← get_range 4 s start_lba;
  let ppa32 := pblk_ppa64_to_ppa32 (l_fmt s) <$> copy in
  let row :=
    match ppa32 with
    | [a; b; c; d] => (b =? u32 (a + 1)) && (c =? u32 (a + 2)) && (d =? u32 (a + 3))
    | _ => false
    end in
  let first := match copy with Dev _ _ _ _ _ sec :: _ => sec =? 0 | _ => false end in
  Some (s, copy,
    if forallb pblk_ppa_empty copy then true
    else if forallb (λ p, negb (cached_bit p)) copy then row && first else false).

(** The entry of a page whose sectors are [copy]: of their block, page, plane, LUN and channel. *)
Definition page_of (copy : list ppa_addr) : page_entry :=
  {| pe_cached := false;
     pe_val := match copy with Dev blk pg lun ch pl _ :: _ => PAddr blk pg lun ch pl | _ => PEmpty end |}.

(** The loop of [pblk_setting_page_map] over the pages of a segment. *)
Fixpoint page_map_loop (n : nat) (s : l2p) (lba : Z) : option (l2p * list page_entry) :=
  match n with
  | O => Some (s, [])
  | S n =>
      '(s, copy, found) ← pblk_check_page_align s lba;
      let e := if found : bool then page_of copy else {| pe_cached := true; pe_val := PLog copy |} in
      '(s, l) ← page_map_loop n s (lba + 4);
      Some (s, e :: l)
  end.

(** The entries of four sectors each are put into an array of [pmap_entry_num]; the rest of it is zero, an address. *)
Definition pblk_setting_page_map (s : l2p) (lba : Z) : option l2p :=
  let lseg := lseg_of s lba in
  '(s, l) ← page_map_loop (Z.to_nat ((entry_num s + 3) / 4)) s (Z.shiftl lseg (blk_offset (l_fmt s)));
  _ ← ensure (Z.of_nat (length l) <=? pmap_entry_num s);
  let zero := {| pe_cached := false; pe_val := PAddr 0 0 0 0 0 |} in
  let pmap := l ++ replicate (Z.to_nat (pmap_entry_num s) - length l) zero in
  x ← rd (bmap s) lseg;
  s ← put_seg s lseg (x <| m_cached := if m_map x =? BLOCK_MAP then false else m_cached x |>
                        <| seg_val_of := SPages pmap |> <| m_map := PAGE_MAP |>);
  pblk_change_map s lseg.

(** The log of a page: the one it has, or a new one with its sectors. *)
Definition page_log (s : l2p) (lseg lba : Z) (e : page_entry) : option (l2p * list ppa_addr) :=
  if pe_cached e then l ← pointer_log (pe_val e); Some (s, l) else
  let n := s32 (Z.shiftl 1 (pln_offset (l_fmt s))) in
  s ← pblk_alloc_log s lseg PAGE_MAP n;
  get_range (Z.to_nat n) s (lba - poffset_of s lba).

Definition put_page (s : l2p) (lseg pindex : Z) (e : page_entry) : option l2p :=
  x ← rd (bmap s) lseg;
  pmap ← pointer_pages (seg_val_of x);
  pmap ← wr pmap pindex e;
  put_seg s lseg (x <| seg_val_of := SPages pmap |>).

(** After the last sector of a page: if its sectors are a page, [entry] replaces the log. *)
Definition close_page (s : l2p) (lseg lba : Z) (entry : list ppa_addr → page_entry) : option l2p :=
  '(s, copy, found) ← pblk_check_page_align s (lba - poffset_of s lba);
  if negb found then Some s else
  s ← pblk_free_log s lseg PAGE_MAP (s32 (Z.shiftl 1 (pln_offset (l_fmt s))));
  put_page s lseg (pindex_of s lba) (entry copy).

Definition last_of_page (s : l2p) (lba : Z) : bool := poffset_of s lba =? s32 (Z.shiftl 1 (pln_offset (l_fmt s))) - 1.

(** The log of a segment that is mapped as a whole: the one it has, or a new one with its sectors. *)
Definition block_log (s : l2p) (lseg lba : Z) (x : seg) : option (l2p * list ppa_addr) :=
  if m_cached x then l ← pointer_sectors (seg_val_of x); Some (s, l) else
  '(s, l) ← get_range (Z.to_nat (entry_num s)) s (lba - loff_of s lba);
  s ← pblk_alloc_log s lseg BLOCK_MAP (entry_num s);
  Some (s, l).

(** A segment without a map gets one of sectors, all empty. *)
Definition fresh_smap (s : l2p) : list ppa_addr := replicate (Z.to_nat (entry_num s)) ADDR_EMPTY.
Definition sector_seg (l : list ppa_addr) : seg :=
  {| m_map := SECTOR_MAP; m_lstream := 0; m_cached := false; seg_val_of := SArray l |}.

(** [smap[loff] = ppa] *)
Definition set_sector (s : l2p) (x : seg) (lba : Z) (p : ppa_addr) : option l2p :=
  _ ← ensure (m_map x =? SECTOR_MAP);
  smap ← pointer_sectors (seg_val_of x);
  smap ← wr smap (loff_of s lba) p;
  put_seg s (lseg_of s lba) (x <| seg_val_of := SArray smap |>).

(** As [pblk_trans_map_set] closes a page, with the block where the page should be. *)
Definition page_of_set (copy : list ppa_addr) : page_entry :=
  {| pe_cached := false;
     pe_val := match copy with Dev blk _ lun ch pl _ :: _ => PAddr blk blk lun ch pl | _ => PEmpty end |}.

(** [pblk_trans_map_set] on a segment of a stream that is mapped block by block. *)
Definition trans_set_block (s : l2p) (x : seg) (lba : Z) (p : ppa_addr) : option l2p :=
  let n := entry_num s in
  let loff := loff_of s lba in
  let lseg := lseg_of s lba in
  if (loff <? 8) || (n - 16 <=? loff) then Some s else
  '(s, bmtlog) ← block_log s lseg lba x;
  bmtlog ← wr bmtlog loff p;
  let x := x <| m_cached := true |> <| seg_val_of := SArray bmtlog |> in
  if negb (loff =? n - 17) then put_seg s lseg x else
  a ← rd bmtlog 8; b ← rd bmtlog (n - 17);
  if pblk_ppa_empty a && pblk_ppa_empty b then
    s ← pblk_free_log s lseg BLOCK_MAP n;
    put_seg s lseg (x <| m_cached := false |> <| seg_val_of := SEmpty |>)
  else put_seg s lseg x.

(** [pmtlog[poffset] = ppa], with a new log if there is none. *)
Definition set_in_page (s : l2p) (lba : Z) (p : ppa_addr) : option l2p :=
  let lseg := lseg_of s lba in
  x ← rd (bmap s) lseg;
  pmap ← pointer_pages (seg_val_of x);
  e ← rd pmap (pindex_of s lba);
  '(s, pmtlog) ← page_log s lseg lba e;
  pmtlog ← wr pmtlog (poffset_of s lba) p;
  put_page s lseg (pindex_of s lba) {| pe_cached := true; pe_val := PLog pmtlog |}.

Definition pblk_trans_map_set (s : l2p) (lba : Z) (p : ppa_addr) : option l2p :=
  let lseg := lseg_of s lba in
  s ← not_preinvalid s lba;
  x ← rd (bmap s) lseg;
  '(s, x) ←
    (if m_map x =? NONE_MAP then
       let x := sector_seg (fresh_smap s) in
       s ← put_seg s lseg x; s ← pblk_change_map s lseg; Some (s, x)
     else Some (s, x));
  s ← pblk_load_cmt s lseg true;
  _ ← ensure (m_lstream x <? nr_lstream s);
  st ← rd (lstreams s) (m_lstream x);
  if map_type st =? SECTOR_MAP then set_sector s x lba p
  else if map_type st =? BLOCK_MAP then trans_set_block s x lba p
  else if map_type st =? PAGE_MAP then
    _ ← ensure (m_map x =? PAGE_MAP);
    s ← set_in_page s lba p;
    if last_of_page s lba && negb (pblk_addr_in_cache p) then close_page s lseg lba page_of_set else Some s
  else None.

(** [pblk_dev_map_set] on a segment of a stream that is mapped block by block: the sector has to be at the same place in
    the line and in the segment, and the last one makes the segment point to the line of the first and the last one. *)
Definition dev_set_block (s : l2p) (x : seg) (lba : Z) (p : ppa_addr) : option l2p :=
  let n := entry_num s in
  let loff := loff_of s lba in
  let lseg := lseg_of s lba in
  poff ← pblk_dev_ppa_to_line_addr (l_fmt s) p;
  _ ← ensure (loff =? s32 poff);
  _ ← ensure (m_cached x);
  bmtlog ← pointer_sectors (seg_val_of x);
  bmtlog ← wr bmtlog loff p;
  let x := x <| seg_val_of := SArray bmtlog |> in
  if loff =? n - 17 then
    a ← rd bmtlog 8;
    line ← pblk_dev_ppa_to_line p;
    if bool_decide (pblk_dev_ppa_to_line a = Some line) then
      s ← pblk_free_log s lseg BLOCK_MAP n;
      put_seg s lseg (x <| m_cached := false |> <| seg_val_of := SAddr line |>)
    else put_seg s lseg x
  else _ ← ensure (loff <? n - 17); put_seg s lseg x.

Definition pblk_dev_map_set (s : l2p) (lba : Z) (p : ppa_addr) : option l2p :=
  let lseg := lseg_of s lba in
  x ← rd (bmap s) lseg;
  _ ← ensure (m_lstream x <? nr_lstream s);
  st ← rd (lstreams s) (m_lstream x);
  s ← pblk_load_cmt s lseg true;
  if map_type st =? SECTOR_MAP then set_sector s x lba p
  else if map_type st =? BLOCK_MAP then dev_set_block s x lba p
  else if map_type st =? PAGE_MAP then
    _ ← ensure (m_map x =? PAGE_MAP);
    pmap ← pointer_pages (seg_val_of x);
    e ← rd pmap (pindex_of s lba);
    _ ← ensure (pe_cached e);
    s ← set_in_page s lba p;
    if last_of_page s lba then close_page s lseg lba page_of else Some s
  else Some s.

(** [pblk_cache_map_set] on a segment of a stream that is mapped block by block; a log starts with sector 8. *)
Definition cache_set_block (s : l2p) (x : seg) (lba : Z) (p : ppa_addr) : option l2p :=
  let lseg := lseg_of s lba in
  _ ← ensure (m_cached x || (loff_of s lba =? 8));
  '(s, bmtlog) ← block_log s lseg lba x;
  bmtlog ← wr bmtlog (loff_of s lba) p;
  put_seg s lseg (x <| m_cached := true |> <| seg_val_of := SArray bmtlog |>).

Definition pblk_cache_map_set (s : l2p) (lba : Z) (p : ppa_addr) : option l2p :=
  let lseg := lseg_of s lba in
  s ← not_preinvalid s lba;
  x ← rd (bmap s) lseg;
  if m_map x =? NONE_MAP then
    s ← pblk_change_map s lseg;
    smap ← wr (fresh_smap s) (loff_of s lba) p;
    put_seg s lseg (sector_seg smap)
  else
  s ← pblk_load_cmt s lseg true;
  _ ← ensure (m_lstream x <? nr_lstream s);
  st ← rd (lstreams s) (m_lstream x);
  if map_type st =? SECTOR_MAP then set_sector s x lba p
  else if map_type st =? BLOCK_MAP then cache_set_block s x lba p
  else if map_type st =? PAGE_MAP then _ ← ensure (m_map x =? PAGE_MAP); set_in_page s lba p
  else Some s.

Definition pblk_empty_map_set (s : l2p) (lba : Z) : option l2p :=
  let lseg := lseg_of s lba in
  x ← rd (bmap s) lseg;
  s ← not_preinvalid s lba;
  let s := pblk_delete_cmt s lseg in
  s ← put_seg s lseg (x <| m_map := BLOCK_MAP |> <| seg_val_of := SEmpty |> <| m_cached := false |>);
  pblk_change_map s lseg.

(** ** Streams of segments *)

(** An entry of the buffer that is reserved is given up, and the sector keeps the address it had before. *)
Definition give_up_reserved (s : l2p) (p : ppa_addr) : option (l2p * ppa_addr) :=
  match p with
  | Cache line nrb _ =>
      '(rb, pos, e) ← rb_entry s line nrb;
      let f := flags (w_ctx e) in
      if has f PBLK_INVALIDATE_ENTRY || has f PBLK_WRITTEN_DATA || has f PBLK_SUBMITTED_ENTRY then Some (s, p)
      else if has f PBLK_RESERVED_ENTRY || has f PBLK_WAITREAD_ENTRY then
        s ← set_wctx s nrb rb pos e ADDR_EMPTY
              (Z.lor (clr (clr f PBLK_RESERVED_ENTRY) PBLK_WAITREAD_ENTRY) PBLK_INVALIDATE_ENTRY);
        Some (s, ppa (w_ctx e))
      else Some (s, p)
  | _ => Some (s, p)
  end.

(** The sectors of a segment for its new map of sectors. *)
Fixpoint copy_sectors (n : nat) (s : l2p) (lba : Z) : option (l2p * list ppa_addr) :=
  match n with
  | O => Some (s, [])
  | S n =>
      '(s, p) ← pblk_trans_map_get s lba;
      '(s, p) ← give_up_reserved s p;
      '(s, l) ← copy_sectors n s (lba + 1);
      Some (s, p :: l)
  end.

(** An address that a sector had is invalidated, if it is one of the device. *)
Definition drop_addr (s : l2p) (p : ppa_addr) : option l2p :=
  if negb (pblk_addr_in_cache p) && negb (pblk_ppa_empty p) then pblk_map_invalidate s p else Some s.

(** The sectors of a segment are invalidated. *)
Fixpoint drop_sectors (n : nat) (s : l2p) (lba : Z) : option l2p :=
  match n with
  | O => Some s
  | S n =>
      '(s, p) ← pblk_trans_map_get s lba;
      '(s, p) ← pblk_cache_invalidate s p;
      s ← drop_addr s p;
      drop_sectors n s (lba + 1)
  end.

(** The map of a segment that has none, for a stream of the given type.  The map of pages is not stored. *)
Definition first_map (s : l2p) (x : seg) (type : Z) : seg :=
  if type =? SECTOR_MAP then x <| m_map := type |> <| seg_val_of := SArray (fresh_smap s) |>
  else if type =? BLOCK_MAP then x <| m_map := type |> <| seg_val_of := SEmpty |>
  else x <| m_map := type |>.

Definition pblk_set_lstream (s : l2p) (lba lstream : Z) : option l2p :=
  let lseg := lseg_of s lba in
  let start := Z.shiftl lseg (blk_offset (l_fmt s)) in
  let n := Z.to_nat (entry_num s) in
  let lstream := if nr_lstream s <=? lstream then 0 else lstream in
  x ← rd (bmap s) lseg;
  log ← rd (lstreams s) lstream;
  if m_map x =? NONE_MAP then
    s ← put_seg s lseg ((first_map s x (map_type log)) <| m_cached := false |> <| m_lstream := lstream |>);
    pblk_change_map s lseg
  else
  log_old ← rd (lstreams s) (m_lstream x);
  s ← (if map_type log =? SECTOR_MAP then
         if map_type log_old =? SECTOR_MAP then Some s else
         _ ← ensure (negb (m_map x =? SECTOR_MAP));
         '(s, smap) ← copy_sectors n s start;
         _ ← ensure ((m_map x =? PAGE_MAP) || (m_map x =? BLOCK_MAP));
         s ← put_seg s lseg (x <| seg_val_of := SArray smap |> <| m_map := SECTOR_MAP |> <| m_cached := false |>);
         pblk_change_map s lseg
       else if (map_type log =? BLOCK_MAP) && negb (map_type log_old =? BLOCK_MAP) then
         s ← drop_sectors n s start;
         pblk_empty_map_set s lba
       else if (map_type log =? PAGE_MAP) && negb (map_type log_old =? PAGE_MAP) then pblk_setting_page_map s lba
       else Some s);
  x ← rd (bmap s) lseg;
  put_seg s lseg (x <| m_lstream := lstream |>).

(** ** Updates of the map (pblk-core.c) *)

(** A request beyond the end of the target is ignored with a warning. *)
Definition warn (s : l2p) : l2p := s <| l_warns ::= S |>.

Definition pblk_update_map (s : l2p) (lba : Z) (p : ppa_addr) : option l2p :=
  if negb (lba <? l_nr_secs s) then Some (warn s) else
  '(s, old) ← pblk_trans_map_get s lba;
  '(s, old) ← (if pblk_addr_in_cache p then pblk_cache_invalidate s old else Some (s, old));
  s ← drop_addr s old;
  pblk_trans_map_set s lba p.

(** [nrb] and [line] of an address in a buffer; the function stops for any other. *)
Definition pblk_update_map_cache (s : l2p) (lba : Z) (p : ppa_addr) : option l2p :=
  match p with
  | Cache line nrb _ =>
      rb ← rd (rwbs s) nrb;
      _ ← ensure (negb (pblk_rb_pos_oob rb line));
      '(s, old) ← pblk_trans_map_get s lba;
      '(s, old) ← pblk_cache_invalidate s old;
      s ← match old with
          | Dev line_id _ _ _ _ _ =>
              st ← rd (lstreams s) nrb;
              sts ← wr (lstreams s) nrb (st <| invalid_line := line_id |>);
              pblk_map_invalidate (s <| lstreams := sts |>) old
          | _ => Some s
          end;
      pblk_cache_map_set s lba p
  | _ => None
  end.

(** The answer is whether the sector was still on the line that is collected. *)
Definition pblk_update_map_gc (s : l2p) (lba : Z) (p : ppa_addr) (gc_line : Z) : option (l2p * bool) :=
  match p with
  | Cache line nrb _ =>
      rb ← rd (rwbs s) nrb;
      _ ← ensure (negb (pblk_rb_pos_oob rb line));
      if negb (lba <? l_nr_secs s) then Some (warn s, false) else
      '(s, old) ← pblk_trans_map_get s lba;
      old ← pblk_get_reserved_old_addr2 s old;
      if negb (bool_decide (pblk_tgt_ppa_to_line old = Some gc_line)) then Some (s, false) else
      type ← pblk_get_log_maptype s lba;
      if type =? BLOCK_MAP then Some (s, false) else
      s ← pblk_trans_map_set s lba p;
      Some (s, true)
  | _ => None
  end.

Definition pblk_update_map_dev (s : l2p) (lba : Z) (p entry_line : ppa_addr) : option l2p :=
  _ ← ensure (negb (pblk_addr_in_cache p));
  if lba =? LBA_EMPTY then pblk_map_invalidate s p else
  if negb (lba <? l_nr_secs s) then Some (warn s) else
  '(s, old) ← pblk_trans_map_get s lba;
  if negb (pblk_ppa_comp old entry_line) then
    (if pblk_ppa_empty p then Some s else pblk_map_invalidate s p)
  else
    let s := match old with Dev _ _ _ _ _ _ => warn s | _ => s end in
    pblk_dev_map_set s lba p.

Fixpoint pblk_lookup_l2p_seq (n : nat) (s : l2p) (blba : Z) : option (l2p * list ppa_addr) :=
  match n with
  | O => Some (s, [])
  | S n =>
      '(s, p) ← pblk_trans_map_get s blba;
      p ← pblk_get_reserved_old_addr s p;
      '(s, l) ← pblk_lookup_l2p_seq n s (blba + 1);
      Some (s, p :: l)
  end.

(** [ppas] is what the array of the caller holds; it keeps what it has for a sector beyond the end. *)
Fixpoint pblk_lookup_l2p_rand (s : l2p) (ppas : list ppa_addr) (lba_list : list Z) : option (l2p * list ppa_addr) :=
  match lba_list, ppas with
  | [], _ => Some (s, ppas)
  | lba :: lba_list, p :: ppas =>
      '(s, p) ←
        (if lba =? LBA_EMPTY then Some (s, ADDR_EMPTY) else
         if negb (lba <? l_nr_secs s) then Some (warn s, p) else
         '(s, p) ← pblk_trans_map_get s lba;
         p ← pblk_get_reserved_old_addr2 s p;
         Some (s, p));
      '(s, ppas) ← pblk_lookup_l2p_rand s ppas lba_list;
      Some (s, p :: ppas)
  | _ :: _, [] => None
  end.

(** ** Discards (pblk-core.c) *)

(** A sector of a segment that is not mapped as a whole. *)
Definition invalidate_sector (s : l2p) (lba : Z) : option l2p :=
  '(s, p) ← pblk_trans_map_get s lba;
  '(s, p) ← pblk_cache_invalidate s p;
  s ← drop_addr s p;
  pblk_trans_map_set s lba ADDR_EMPTY.

(** The [n] sectors of a segment that is. *)
Fixpoint invalidate_segment (n : nat) (s : l2p) (lba : Z) : option l2p :=
  match n with
  | O => Some s
  | S n =>
      '(s, p) ← pblk_trans_map_get s lba;
      s ← drop_addr s p;
      s ← pblk_trans_map_set s lba ADDR_EMPTY;
      invalidate_segment n s (lba + 1)
  end.

(** The loop of [pblk_invalidate_range] up to [end_lba], which skips what a request covers of a segment that is mapped as
    a whole unless it covers all of it.  Each turn takes a sector at least. *)
Fixpoint invalidate_loop (fuel : nat) (s : l2p) (lba end_lba : Z) : option l2p :=
  match fuel with
  | O => None
  | S fuel =>
      if negb (lba <? end_lba) then Some s else
      mtype ← pblk_get_maptype s lba;
      if mtype =? BLOCK_MAP then
        let loff := loff_of s lba in
        if negb (loff =? 0) then invalidate_loop fuel s (lba + (entry_num s - loff) - 1 + 1) end_lba else
        if end_lba <? lba + entry_num s then Some s else
        s ← invalidate_segment (Z.to_nat (entry_num s)) s lba;
        invalidate_loop fuel s (lba + (entry_num s - loff) - 1 + 1) end_lba
      else
        s ← invalidate_sector s lba;
        invalidate_loop fuel s (lba + 1) end_lba
  end.

Definition pblk_invalidate_range (s : l2p) (slba nr_secs : Z) : option l2p :=
  invalidate_loop (S (Z.to_nat nr_secs)) s slba (slba + nr_secs).

(** ** Set-up *)

(** The streams of the set-up: [block i] says whether stream [i] is mapped block by block, which the build
    decides. *)
Definition init_lstream (entry_num : Z) (block : Z → bool) (i : Z) : pblk_lstream :=
  if block i then {| map_type := BLOCK_MAP; map_size := 1; log_size := entry_num; invalid_line := -1 |}
  else {| map_type := SECTOR_MAP; map_size := entry_num; log_size := 0; invalid_line := -1 |}.

Definition pblk_l2p_init (fmt : pblk_addr_format) (nr_secs nr_lines : Z) (block : Z → bool) (rbs : list pblk_rb) : l2p :=
  let n := s32 (Z.shiftl 1 (blk_offset fmt)) in
  {| bmap := replicate (Z.to_nat (Z.shiftr nr_secs (blk_offset fmt) + 1))
               {| m_map := NONE_MAP; m_lstream := 0; m_cached := false; seg_val_of := SEmpty |};
     lstreams := init_lstream n block ∘ Z.of_nat <$> seq 0 (Z.to_nat MAX_PSTREAM);
     nr_lstream := MAX_PSTREAM; max_res := 64 * 1024; alloc_res := 4096; map_list := []; nr_mapread := 0; nr_mapwrite := 0;
     preinvalid_map := replicate (Z.to_nat nr_secs) 0; l_fmt := fmt; l_nr_lines := nr_lines; l_nr_secs := nr_secs;
     rwbs := rbs; invalidated := []; l_warns := 0 |}.
