(* ===== verification/PblkMapInv.v ===== *)
(** * The map of pblk: invariant

    The room the cached segments take, what the map says of a sector, and what lookups and changes do to it. *)

From S2P Require Import Prelude RingBuffer PblkAddr PblkLine PblkInit PblkMap.

Open Scope Z_scope.

(** ** Cached segments *)

(** The room that entries take. *)
Fixpoint room (l : list map_entry) : Z :=
  match l with [] => 0 | e :: l => (me_map_size e + me_nr_log e) + room l end.

Definition sizes_ok (l : list map_entry) : Prop := Forall (λ e, 0 ≤ me_map_size e ∧ 0 ≤ me_nr_log e) l.

(** The room in use is that of the listed segments and of the map of segments itself. *)
Record cmt_ok (s : l2p) : Prop := {
  co_alloc : alloc_res s = 4096 + room (map_list s);
  co_le : alloc_res s ≤ max_res s;
  co_max : max_res s = 65536;
  co_sizes : sizes_ok (map_list s);
  co_nodup : NoDup (me_lseg <$> map_list s)
}.

(** Nothing but the cached segments differs. *)
Record same (s s' : l2p) : Prop := {
  sm_bmap : bmap s' = bmap s;
  sm_streams : lstreams s' = lstreams s;
  sm_nr : nr_lstream s' = nr_lstream s;
  sm_max : max_res s' = max_res s;
  sm_pre : preinvalid_map s' = preinvalid_map s;
  sm_fmt : l_fmt s' = l_fmt s;
  sm_lines : l_nr_lines s' = l_nr_lines s;
  sm_secs : l_nr_secs s' = l_nr_secs s;
  sm_rwbs : rwbs s' = rwbs s;
  sm_inv : invalidated s' = invalidated s;
  sm_warns : l_warns s' = l_warns s
}.

Lemma same_refl s : same s s.
Proof. by split. Qed.

Lemma same_trans s1 s2 s3 : same s1 s2 → same s2 s3 → same s1 s3.
Proof. intros [] []. split; congruence. Qed.

Lemma room_app l1 l2 : room (l1 ++ l2) = room l1 + room l2.
Proof. induction l1 as [|e l1 IH]; simpl; lia. Qed.

Lemma room_pos l : sizes_ok l → 0 ≤ room l.
Proof. induction 1; simpl; lia. Qed.

Lemma room_perm l1 l2 : l1 ≡ₚ l2 → room l1 = room l2.
Proof. induction 1; simpl; lia. Qed.

Lemma search_Some s lseg k e : pblk_search_cmt s lseg = Some (k, e) → map_list s !! k = Some e ∧ me_lseg e = lseg.
Proof. intros (H1 & H2 & _)%list_find_Some. done. Qed.

Lemma search_None s lseg : pblk_search_cmt s lseg = None ↔ lseg ∉ me_lseg <$> map_list s.
Proof.
  unfold pblk_search_cmt. rewrite list_find_None, Forall_forall, list_elem_of_fmap. naive_solver.
Qed.

(** Evicting makes room, whatever the order of the list. *)
Lemma evict_loop_ok l need free get w :
  sizes_ok l → 0 ≤ free → need ≤ free + room l → free + room l < 2 ^ 31 → 0 ≤ get → get + room l < 2 ^ 32 →
  ∃ pre l' w', evict_loop l need free get w = Some (l', get + room pre, w') ∧ l = pre ++ l' ∧ need ≤ free + room pre.
Proof.
  intros Hs Hf. revert free get w Hf. induction Hs as [|e l [H1 H2] Hs IH]; intros free get w Hf Hn Hi Hg Hu; cbn [evict_loop].
  - rewrite (proj2 (Z.leb_le need free)) by (simpl in Hn; lia). exists [], [], w. simpl. rewrite Z.add_0_r.
    split; [done|]. split; [done|simpl in Hn; lia].
  - simpl in *. pose proof (room_pos l Hs). destruct (Z.leb_spec need free).
    + exists [], (e :: l), w. simpl. rewrite Z.add_0_r. split; [done|]. split; [done|lia].
    + rewrite s32_small, u32_small by lia.
      destruct (IH (free + me_map_size e + me_nr_log e) (get + (me_map_size e + me_nr_log e)) (if me_dirty e then w + 1 else w))
        as (pre & l' & w' & E & -> & Hp); [lia..|].
      exists (e :: pre), l', w'. simpl. split; [rewrite E; do 3 f_equal; lia|]. split; [done|lia].
Qed.

Lemma evict_ok s need :
  cmt_ok s → 0 ≤ need ≤ 61440 →
  ∃ s', pblk_evict_cmt s need = Some s' ∧ cmt_ok s' ∧ same s s' ∧ need ≤ max_res s' - alloc_res s' ∧ map_list s' `suffix_of` map_list s.
Proof.
  intros [Ha Hle Hm Hs Hnd] Hn. pose proof (room_pos _ Hs). unfold pblk_evict_cmt. rewrite s32_small by lia.
  destruct (evict_loop_ok (map_list s) need (max_res s - alloc_res s) 0 (nr_mapwrite s) Hs) as (pre & l' & w' & -> & El & Hp); [lia..|].
  rewrite El in *. pose proof (proj1 (proj1 (Forall_app _ _ _) Hs)) as Hs1. pose proof (proj2 (proj1 (Forall_app _ _ _) Hs)) as Hs2.
  pose proof (room_pos _ Hs1). pose proof (room_pos _ Hs2). rewrite room_app in *. cbn [mbind option_bind]. eexists. split; [done|].
  cbn. rewrite u32_small by lia. split; [split; cbn; try done; rewrite ?u32_small by lia; try lia|].
  - rewrite fmap_app in Hnd. by apply NoDup_app in Hnd as (_ & _ & ?).
  - split; [done|]. split; [lia|]. by exists pre.
Qed.

Lemma insert_ok s lseg ms nl d :
  cmt_ok s → 0 ≤ ms → 0 ≤ nl → ms + nl ≤ max_res s - alloc_res s →
  cmt_ok (pblk_insert_cmt s lseg ms nl d) ∧ same s (pblk_insert_cmt s lseg ms nl d).
Proof.
  intros [Ha Hle Hm Hs Hnd] H1 H2 Hr. pose proof (room_pos _ Hs). unfold pblk_insert_cmt.
  destruct (pblk_search_cmt s lseg) eqn:E; [split; [by split|apply same_refl]|]. apply search_None in E.
  split; [|done]. split; cbn; rewrite ?u32_small by lia; [rewrite room_app; simpl; rewrite ?u32_small by lia; lia|lia|done| |].
  - apply Forall_app. split; [done|]. constructor; [|constructor]. cbn. rewrite ?u32_small by lia. done.
  - rewrite fmap_app. apply NoDup_app. split; [done|]. split; [|apply NoDup_singleton].
    intros x Hx ->%list_elem_of_singleton. done.
Qed.

Lemma room_delete l k e : l !! k = Some e → room (delete k l) = room l - me_map_size e - me_nr_log e.
Proof. intros H. rewrite (room_perm l (e :: delete k l)); [simpl; lia|]. by apply delete_Permutation. Qed.

Lemma delete_ok s lseg : cmt_ok s → cmt_ok (pblk_delete_cmt s lseg) ∧ same s (pblk_delete_cmt s lseg).
Proof.
  intros Hc. unfold pblk_delete_cmt. destruct (pblk_search_cmt s lseg) as [[k e]|] eqn:E; [|split; [done|apply same_refl]].
  apply search_Some in E as [Hk _]. destruct Hc as [Ha Hle Hm Hs Hnd]. pose proof (room_pos _ Hs).
  pose proof (room_delete _ _ _ Hk) as Hd. pose proof (room_pos (delete k (map_list s)) (Forall_delete _ _ _ Hs)).
  assert (0 ≤ me_map_size e ∧ 0 ≤ me_nr_log e) by (by apply (Forall_lookup_1 _ _ _ _ Hs Hk)).
  split; [|done]. split; cbn; rewrite ?u32_small by lia; [lia|lia|done|by apply Forall_delete|].
  rewrite list_fmap_delete. eapply sublist_NoDup; [done|apply sublist_delete].
Qed.

(** An entry moves to the end of the list. *)
Lemma move_ok s k e e' :
  cmt_ok s → map_list s !! k = Some e → me_lseg e' = me_lseg e → me_map_size e' = me_map_size e → me_nr_log e' = me_nr_log e →
  cmt_ok (s <| map_list := delete k (map_list s) ++ [e'] |>).
Proof.
  intros [Ha Hle Hm Hs Hnd] Hk E1 E2 E3. pose proof (room_delete _ _ _ Hk) as Hd.
  split; cbn; [rewrite room_app; simpl; lia|done|done| |].
  - apply Forall_app. split; [by apply Forall_delete|]. constructor; [|constructor]. rewrite E2, E3. by apply (Forall_lookup_1 _ _ _ _ Hs Hk).
  - rewrite fmap_app. cbn [fmap list_fmap]. rewrite E1, <- Permutation_cons_append, list_fmap_delete.
    rewrite <- (delete_Permutation (me_lseg <$> map_list s) k (me_lseg e)); [done|]. by rewrite list_lookup_fmap, Hk.
Qed.

Lemma load_ok s lseg d x st :
  cmt_ok s → rd (bmap s) lseg = Some x → rd (lstreams s) (m_lstream x) = Some st → map_type st ≠ PAGE_MAP →
  0 ≤ log_size st ≤ 61440 →
  ∃ s', pblk_load_cmt s lseg d = Some s' ∧ cmt_ok s' ∧ same s s'.
Proof.
  intros Hc Hx Hst Hp Hl. unfold pblk_load_cmt. rewrite Hx. cbn [mbind option_bind]. rewrite Hst. cbn [mbind option_bind].
  destruct ((map_type st =? BLOCK_MAP) && negb (m_cached x)); [exists s; split; [done|]; split; [done|apply same_refl]|].
  destruct (pblk_search_cmt s lseg) as [[k e]|] eqn:E.
  - apply search_Some in E as [Hk _]. eexists. split; [done|]. split; [|done].
    apply (move_ok s k e); [done|done|by destruct d..].
  - unfold load_sizes. rewrite (proj2 (Z.eqb_neq (map_type st) PAGE_MAP)) by done.
    assert (∃ ms, (if m_map x =? BLOCK_MAP then Some (log_size st, 0) else Some (4096, 0)) = Some (ms, 0) ∧ 0 ≤ ms ≤ 61440) as (ms & -> & Hms).
    { destruct (m_map x =? BLOCK_MAP); [by exists (log_size st)|]. exists 4096. split; [done|lia]. }
    cbn [mbind option_bind]. rewrite Z.add_0_r. pose proof (room_pos _ (co_sizes _ Hc)) as Hr. destruct Hc as [Ha Hle Hm Hs Hnd] eqn:Ec.
    rewrite s32_small by lia. destruct (Z.ltb_spec (max_res s - alloc_res s) ms).
    + destruct (evict_ok s ms Hc Hms) as (s1 & E1 & Hc1 & Hs1 & Hf & _). rewrite E1. cbn [mbind option_bind]. eexists. split; [done|].
      destruct (insert_ok s1 lseg ms 0 d Hc1) as [? ?]; [lia..|]. split; [done|]. by eapply same_trans.
    + cbn [mbind option_bind]. eexists. split; [done|]. apply insert_ok; [done|lia..].
Qed.

(** A log of a segment that is mapped as a whole, and its end. *)
Lemma alloc_block_ok s lseg n :
  cmt_ok s → 0 ≤ n ≤ 61440 → ∃ s', pblk_alloc_log s lseg BLOCK_MAP n = Some s' ∧ cmt_ok s' ∧ same s s'.
Proof.
  intros Hc Hn. unfold pblk_alloc_log. rewrite Z.eqb_refl. cbn [mbind option_bind]. pose proof (room_pos _ (co_sizes _ Hc)).
  pose proof (co_alloc _ Hc). pose proof (co_le _ Hc). pose proof (co_max _ Hc). rewrite u32_small by lia.
  destruct (Z.ltb_spec (max_res s - alloc_res s) n).
  - destruct (evict_ok s n Hc Hn) as (s1 & E1 & Hc1 & Hs1 & Hf & _). rewrite E1. cbn [mbind option_bind]. eexists. split; [done|].
    destruct (insert_ok s1 lseg 0 n true Hc1) as [? ?]; [lia..|]. split; [done|]. by eapply same_trans.
  - cbn [mbind option_bind]. eexists. split; [done|]. apply insert_ok; [done|lia..].
Qed.

Lemma change_ok s lseg x st :
  cmt_ok s → rd (bmap s) lseg = Some x → rd (lstreams s) (m_lstream x) = Some st → map_type st ≠ PAGE_MAP →
  0 ≤ log_size st ≤ 61440 →
  ∃ s', pblk_change_map s lseg = Some s' ∧ cmt_ok s' ∧ same s s'.
Proof.
  intros Hc Hx Hst Hp Hl. destruct (delete_ok s lseg Hc) as [Hc1 Hs1]. unfold pblk_change_map.
  destruct (load_ok (pblk_delete_cmt s lseg) lseg true x st Hc1) as (s' & E & Hc' & Hs'); [by rewrite (sm_bmap _ _ Hs1)|by rewrite (sm_streams _ _ Hs1)|done..|].
  exists s'. split; [done|]. split; [done|]. by eapply same_trans.
Qed.

(** ** The map *)

(** Addresses the map may hold. *)
Definition addr_ok (s : l2p) (p : ppa_addr) : Prop :=
  match p with
  | ADDR_EMPTY => True
  | Dev blk _ _ _ _ _ => 0 ≤ blk < l_nr_lines s
  | Cache line nrb _ => 0 ≤ line ∧ 0 ≤ nrb < Z.of_nat (length (rwbs s))
  end.

(** Entries of the buffers that are not reserved: there are no streams that are mapped page by page. *)
Definition plain (e : pblk_rb_entry) : Prop :=
  has (flags (w_ctx e)) PBLK_RESERVED_ENTRY = false ∧ has (flags (w_ctx e)) PBLK_WAITREAD_ENTRY = false.

Record ring_plain (rb : pblk_rb) : Prop := {
  rp_size : ∃ k, 0 ≤ k ∧ nr_entries rb = 2 ^ k;
  rp_len : Z.of_nat (length (entries rb)) = nr_entries rb;
  rp_plain : Forall plain (entries rb)
}.

Record stream_ok (n : Z) (st : pblk_lstream) : Prop := {
  st_type : map_type st = SECTOR_MAP ∨ map_type st = BLOCK_MAP;
  st_log : 0 ≤ log_size st ≤ n
}.

Record streams_ok (s : l2p) : Prop := {
  so_nr : nr_lstream s = Z.of_nat (length (lstreams s));
  so_rwbs : (length (rwbs s) ≤ length (lstreams s))%nat;
  so_each : Forall (stream_ok (entry_num s)) (lstreams s);
  so_first : ∃ st, rd (lstreams s) 0 = Some st ∧ map_type st = SECTOR_MAP
}.

(** Whether sector [i] of a segment of [n] holds data when the segment is mapped as a whole. *)
Definition data_off (n i : Z) : Prop := 8 ≤ i ≤ n - 17.

(** The segments of streams that are mapped sector by sector or as a whole. *)
Inductive seg_ok (s : l2p) : seg → Prop :=
  | SegNone v : seg_ok s {| m_map := NONE_MAP; m_lstream := 0; m_cached := false; seg_val_of := v |}
  | SegSector i st l :
      rd (lstreams s) i = Some st → map_type st = SECTOR_MAP → Z.of_nat (length l) = entry_num s → Forall (addr_ok s) l →
      seg_ok s {| m_map := SECTOR_MAP; m_lstream := i; m_cached := false; seg_val_of := SArray l |}
  | SegLog i st l :
      rd (lstreams s) i = Some st → map_type st = BLOCK_MAP → Z.of_nat (length l) = entry_num s → Forall (addr_ok s) l →
      (∀ j p, rd l j = Some p → ¬ data_off (entry_num s) j → p = ADDR_EMPTY) →
      seg_ok s {| m_map := BLOCK_MAP; m_lstream := i; m_cached := true; seg_val_of := SArray l |}
  | SegEmpty i st :
      rd (lstreams s) i = Some st → map_type st = BLOCK_MAP →
      seg_ok s {| m_map := BLOCK_MAP; m_lstream := i; m_cached := false; seg_val_of := SEmpty |}
  | SegBlock i st blk :
      rd (lstreams s) i = Some st → map_type st = BLOCK_MAP → 0 ≤ blk < l_nr_lines s →
      seg_ok s {| m_map := BLOCK_MAP; m_lstream := i; m_cached := false; seg_val_of := SAddr blk |}.

Record wf (s : l2p) : Prop := {
  wf_cmt : cmt_ok s;
  wf_fmt : ∃ l, fmt_of l (l_fmt s) ∧ lens_ok 64 l;
  wf_bits : 5 ≤ blk_offset (l_fmt s) ≤ 15;
  wf_secs : 0 ≤ l_nr_secs s;
  wf_len : Z.of_nat (length (bmap s)) = l_nr_secs s / entry_num s + 1;
  wf_pre : Z.of_nat (length (preinvalid_map s)) = l_nr_secs s;
  wf_streams : streams_ok s;
  wf_segs : Forall (seg_ok s) (bmap s);
  wf_rings : Forall ring_plain (rwbs s)
}.

(** A sector that is in a segment of the map. *)
Definition in_map (s : l2p) (lba : Z) : Prop := 0 ≤ lba ∧ lseg_of s lba < Z.of_nat (length (bmap s)).

(** What a segment and the map say of a sector. *)
Definition seg_view (s : l2p) (x : seg) (lba : Z) : option ppa_addr :=
  if m_map x =? NONE_MAP then Some ADDR_EMPTY else st ← rd (lstreams s) (m_lstream x); get_in s x st lba.

Definition view (s : l2p) (lba : Z) : ppa_addr :=
  default ADDR_EMPTY (x ← rd (bmap s) (lseg_of s lba); seg_view s x lba).

(** Whether the segment of a sector is mapped as a whole. *)
Definition whole (s : l2p) (lba : Z) : bool :=
  match rd (bmap s) (lseg_of s lba) with Some x => m_map x =? BLOCK_MAP | None => false end.

(** Nothing but the map and the cached segments differs. *)
Record env_same (s s' : l2p) : Prop := {
  es_streams : lstreams s' = lstreams s;
  es_nr : nr_lstream s' = nr_lstream s;
  es_fmt : l_fmt s' = l_fmt s;
  es_lines : l_nr_lines s' = l_nr_lines s;
  es_secs : l_nr_secs s' = l_nr_secs s;
  es_rwbs : rwbs s' = rwbs s;
  es_inv : invalidated s' = invalidated s;
  es_warns : l_warns s' = l_warns s
}.

Lemma same_env s s' : same s s' → env_same s s'.
Proof. intros []. by split. Qed.

Lemma env_same_trans s1 s2 s3 : env_same s1 s2 → env_same s2 s3 → env_same s1 s3.
Proof. intros [] []. split; congruence. Qed.

(** *** Numbers *)

Lemma entry_num_eq s : 5 ≤ blk_offset (l_fmt s) ≤ 15 → entry_num s = 2 ^ blk_offset (l_fmt s) ∧ 32 ≤ entry_num s ≤ 32768.
Proof.
  intros H. unfold entry_num. rewrite Z.shiftl_1_l.
  assert (2 ^ 5 ≤ 2 ^ blk_offset (l_fmt s) ≤ 2 ^ 15) by (split; apply Z.pow_le_mono_r; lia).
  rewrite s32_small by lia. lia.
Qed.

Lemma split_lba s lba :
  5 ≤ blk_offset (l_fmt s) ≤ 15 →
  lseg_of s lba = lba / entry_num s ∧ loff_of s lba = lba mod entry_num s ∧ 0 ≤ loff_of s lba < entry_num s ∧
  lba = lseg_of s lba * entry_num s + loff_of s lba.
Proof.
  intros H. destruct (entry_num_eq s H) as [En Hn]. unfold lseg_of, loff_of. rewrite Z.shiftr_div_pow2, En, land_mask by lia.
  rewrite <- En. pose proof (Z.mod_pos_bound lba (entry_num s) ltac:(lia)). pose proof (Z.div_mod lba (entry_num s) ltac:(lia)).
  split; [done|]. split; [done|]. lia.
Qed.

(** A sector of the target is in the map. *)
Lemma sec_in_map s lba : wf s → 0 ≤ lba < l_nr_secs s → in_map s lba.
Proof.
  intros Hw H. destruct (split_lba s lba (wf_bits _ Hw)) as (E & _). destruct (entry_num_eq s (wf_bits _ Hw)) as [_ Hn].
  split; [lia|]. rewrite E, (wf_len _ Hw). assert (lba / entry_num s ≤ l_nr_secs s / entry_num s) by (apply Z.div_le_mono; lia). lia.
Qed.

Lemma in_map_seg s lba : wf s → in_map s lba → ∃ x, rd (bmap s) (lseg_of s lba) = Some x ∧ seg_ok s x.
Proof.
  intros Hw [H1 H2]. destruct (split_lba s lba (wf_bits _ Hw)) as (E & _). destruct (entry_num_eq s (wf_bits _ Hw)) as [_ Hn].
  destruct (rd_is_Some (bmap s) (lseg_of s lba)) as [x Hx]; [split; [rewrite E; apply Z.div_pos; lia|done]|].
  exists x. split; [done|]. apply rd_Some in Hx as [_ Hx]. by apply (Forall_lookup_1 _ _ _ _ (wf_segs _ Hw) Hx).
Qed.

(** *** Frames *)

Lemma get_in_env s s' x st lba : env_same s s' → get_in s' x st lba = get_in s x st lba.
Proof.
  intros []. unfold get_in, get_sector, get_block, get_page, block_addr, pindex_of, poffset_of, loff_of, entry_num.
  by rewrite es_fmt0, es_lines0.
Qed.

Lemma seg_view_env s s' x lba : env_same s s' → seg_view s' x lba = seg_view s x lba.
Proof.
  intros He. unfold seg_view. rewrite (es_streams _ _ He). destruct (m_map x =? NONE_MAP); [done|].
  destruct (rd (lstreams s) (m_lstream x)); [|done]. cbn. by apply get_in_env.
Qed.

Lemma entry_num_env s s' : env_same s s' → entry_num s' = entry_num s.
Proof. intros []. unfold entry_num. by rewrite es_fmt0. Qed.

Lemma addr_ok_env s s' p : env_same s s' → addr_ok s' p ↔ addr_ok s p.
Proof. intros []. unfold addr_ok. by rewrite es_lines0, es_rwbs0. Qed.

Lemma seg_ok_env s s' x : env_same s s' → seg_ok s x → seg_ok s' x.
Proof.
  intros He Hx. pose proof (entry_num_env s s' He) as En.
  assert (Hf : ∀ l, Forall (addr_ok s) l → Forall (addr_ok s') l) by (intros l Hl; apply (Forall_impl _ _ _ Hl); intros p; by rewrite (addr_ok_env s s')).
  destruct Hx as [|i st l|i st l|i st|i st blk]; econstructor; rewrite ?En, ?(es_streams _ _ He), ?(es_lines _ _ He); eauto.
Qed.

(** What [wf] says apart from the map and the cached segments. *)
Lemma wf_env s s' :
  wf s → env_same s s' → cmt_ok s' → length (bmap s') = length (bmap s) → length (preinvalid_map s') = length (preinvalid_map s) →
  Forall (seg_ok s) (bmap s') → wf s'.
Proof.
  intros [] He Hc Hl Hp Hsegs. pose proof (entry_num_env s s' He) as En. destruct wf_streams0 as [S1 S2 S3 S4].
  split; rewrite ?En, ?(es_fmt _ _ He), ?(es_secs _ _ He), ?(es_rwbs _ _ He), ?Hl, ?Hp; try done.
  - split; rewrite ?En, ?(es_nr _ _ He), ?(es_streams _ _ He), ?(es_rwbs _ _ He); done.
  - apply (Forall_impl _ _ _ Hsegs). intros x. by apply seg_ok_env.
Qed.

Lemma wf_same s s' : wf s → same s s' → cmt_ok s' → wf s'.
Proof.
  intros Hw Hs Hc. apply (wf_env s s' Hw (same_env _ _ Hs) Hc); rewrite ?(sm_bmap _ _ Hs), ?(sm_pre _ _ Hs); try done. apply Hw.
Qed.

Lemma view_same s s' lba : same s s' → view s' lba = view s lba.
Proof.
  intros Hs. unfold view, lseg_of. rewrite (sm_bmap _ _ Hs), (sm_fmt _ _ Hs).
  destruct (rd (bmap s) _); [|done]. cbn. by rewrite (seg_view_env s s' _ _ (same_env _ _ Hs)).
Qed.

Lemma in_map_same s s' lba : same s s' → in_map s' lba ↔ in_map s lba.
Proof. intros Hs. unfold in_map, lseg_of. by rewrite (sm_bmap _ _ Hs), (sm_fmt _ _ Hs). Qed.

(** *** Lookup *)

Lemma rd_Forall {A} (P : A → Prop) l i x : Forall P l → rd l i = Some x → P x.
Proof. intros H [_ Hx]%rd_Some. by apply (Forall_lookup_1 _ _ _ _ H Hx). Qed.

Lemma stream_at s i st : wf s → rd (lstreams s) i = Some st → stream_ok (entry_num s) st ∧ i < nr_lstream s.
Proof.
  intros Hw H. destruct (wf_streams _ Hw) as [S1 _ S3 _]. split; [by apply (rd_Forall _ _ _ _ S3 H)|].
  apply rd_lt in H. lia.
Qed.

Lemma types_differ : SECTOR_MAP ≠ BLOCK_MAP ∧ SECTOR_MAP ≠ PAGE_MAP ∧ BLOCK_MAP ≠ PAGE_MAP.
Proof. done. Qed.

Lemma rd_log (l : list ppa_addr) n j : Z.of_nat (length l) = n → 0 ≤ j < n → ∃ p, rd l j = Some p.
Proof. intros E H. apply rd_is_Some. lia. Qed.

(** A segment answers for each of its sectors. *)
Lemma seg_view_ok s x lba : wf s → seg_ok s x → ∃ p, seg_view s x lba = Some p ∧ addr_ok s p.
Proof.
  intros Hw Hx. destruct (split_lba s lba (wf_bits _ Hw)) as (_ & _ & Ho & _). unfold seg_view.
  destruct Hx as [v|i st l Hst Ht Hl Ha|i st l Hst Ht Hl Ha Hd|i st Hst Ht|i st blk Hst Ht Hb]; cbn [m_map m_lstream];
    [by exists ADDR_EMPTY|..]; rewrite Hst; cbn [mbind option_bind]; unfold get_in; rewrite Ht.
  - change (SECTOR_MAP =? SECTOR_MAP) with true. cbn iota. unfold get_sector. cbn.
    destruct (rd_log l _ _ Hl Ho) as [p Hp]. rewrite Hp. cbn. pose proof (rd_Forall _ _ _ _ Ha Hp) as Hok.
    destruct p as [| |blk]; [by eexists..|]. simpl in Hok. rewrite (proj2 (Z.ltb_lt blk _)) by lia. by eexists.
  - unfold get_block. cbn. destruct (rd_log l _ _ Hl Ho) as [p Hp]. rewrite Hp. exists p. split; [done|]. by apply (rd_Forall _ _ _ _ Ha Hp).
  - unfold get_block. cbn. by exists ADDR_EMPTY.
  - unfold get_block. cbn. destruct (_ || _); [by exists ADDR_EMPTY|]. unfold block_addr. rewrite (proj2 (Z.ltb_lt blk _)) by lia.
    cbn. eexists. split; [done|]. done.
Qed.

Lemma view_eq s x lba : wf s → rd (bmap s) (lseg_of s lba) = Some x → seg_ok s x → seg_view s x lba = Some (view s lba) ∧ addr_ok s (view s lba).
Proof.
  intros Hw Hx Hs. destruct (seg_view_ok s x lba Hw Hs) as (p & E & Hp). unfold view. rewrite Hx. cbn [mbind option_bind]. by rewrite E.
Qed.

(** The stream of a segment that has a map. *)
Lemma seg_stream s x : wf s → seg_ok s x → ∃ st, rd (lstreams s) (m_lstream x) = Some st ∧ stream_ok (entry_num s) st ∧ m_lstream x < nr_lstream s.
Proof.
  intros Hw Hx. assert (∃ st, rd (lstreams s) (m_lstream x) = Some st) as [st Hst].
  { destruct Hx; cbn; eauto. destruct (wf_streams _ Hw) as [_ _ _ (st & Hst & _)]. eauto. }
  exists st. split; [done|]. by apply stream_at.
Qed.

Lemma stream_sizes s st : wf s → stream_ok (entry_num s) st → map_type st ≠ PAGE_MAP ∧ 0 ≤ log_size st ≤ 61440.
Proof.
  intros Hw [[-> | ->] Hl]; destruct (entry_num_eq s (wf_bits _ Hw)) as [_ Hn]; (split; [done|lia]).
Qed.

(** Loading the segment of a sector. *)
Lemma load_wf s lba d : wf s → in_map s lba → ∃ s', pblk_load_cmt s (lseg_of s lba) d = Some s' ∧ wf s' ∧ same s s'.
Proof.
  intros Hw Hm. destruct (in_map_seg s lba Hw Hm) as (x & Hx & Hok). destruct (seg_stream s x Hw Hok) as (st & Hst & Hs & _).
  destruct (stream_sizes s st Hw Hs) as [Hp Hl]. destruct (load_ok s (lseg_of s lba) d x st (wf_cmt _ Hw) Hx Hst Hp Hl) as (s' & E & Hc & Hsm).
  exists s'. split; [done|]. split; [by apply (wf_same s s')|done].
Qed.

Lemma change_wf s lba : wf s → in_map s lba → ∃ s', pblk_change_map s (lseg_of s lba) = Some s' ∧ wf s' ∧ same s s'.
Proof.
  intros Hw Hm. destruct (in_map_seg s lba Hw Hm) as (x & Hx & Hok). destruct (seg_stream s x Hw Hok) as (st & Hst & Hs & _).
  destruct (stream_sizes s st Hw Hs) as [Hp Hl]. destruct (change_ok s (lseg_of s lba) x st (wf_cmt _ Hw) Hx Hst Hp Hl) as (s' & E & Hc & Hsm).
  exists s'. split; [done|]. split; [by apply (wf_same s s')|done].
Qed.

Lemma get_ok s lba : wf s → in_map s lba → ∃ s', pblk_trans_map_get s lba = Some (s', view s lba) ∧ wf s' ∧ same s s'.
Proof.
  intros Hw Hm. destruct (in_map_seg s lba Hw Hm) as (x & Hx & Hok). destruct (view_eq s x lba Hw Hx Hok) as [Hv _].
  unfold pblk_trans_map_get. rewrite Hx. cbn [mbind option_bind]. unfold seg_view in Hv.
  destruct (m_map x =? NONE_MAP); [injection Hv as <-; exists s; split; [done|]; split; [done|apply same_refl]|].
  destruct (seg_stream s x Hw Hok) as (st & Hst & Hs & Hi). rewrite (proj2 (Z.ltb_lt _ _)) by done. cbn [ensure mbind option_bind].
  rewrite Hst in *. cbn [mbind option_bind] in *. destruct (load_wf s lba false Hw Hm) as (s' & E & Hw' & Hsm). rewrite E. cbn [mbind option_bind].
  rewrite (get_in_env s s' _ _ _ (same_env _ _ Hsm)), Hv. by exists s'.
Qed.

Lemma get_range_ok n s lba :
  wf s → (∀ i, 0 ≤ i < Z.of_nat n → in_map s (lba + i)) →
  ∃ s', get_range n s lba = Some (s', (λ i, view s (lba + Z.of_nat i)) <$> seq 0 n) ∧ wf s' ∧ same s s'.
Proof.
  revert s lba. induction n as [|n IH]; intros s lba Hw Hm; cbn [get_range]; [exists s; split; [done|]; split; [done|apply same_refl]|].
  destruct (get_ok s lba Hw) as (s1 & E1 & Hw1 & Hs1); [rewrite <- (Z.add_0_r lba); apply Hm; lia|]. rewrite E1. cbn [mbind option_bind].
  destruct (IH s1 (lba + 1) Hw1) as (s2 & E2 & Hw2 & Hs2).
  { intros i Hi. rewrite (in_map_same s s1) by done. replace (lba + 1 + i) with (lba + (1 + i)) by lia. apply Hm. lia. }
  rewrite E2. cbn [mbind option_bind]. exists s2. split; [|split; [done|by eapply same_trans]].
  rewrite <- cons_seq. cbn [fmap list_fmap]. rewrite <- fmap_S_seq, <- list_fmap_compose. do 2 f_equal. f_equal; [f_equal; lia|].
  apply list_fmap_ext. intros i j _. unfold compose. rewrite (view_same s s1) by done. f_equal. lia.
Qed.

(** *** Changes *)

(** The map [s'] differs from [s] in what it says of [lba], which is [p]. *)
Definition updated (s s' : l2p) (lba : Z) (p : ppa_addr) : Prop :=
  ∀ lba', in_map s lba' → view s' lba' = if lba' =? lba then p else view s lba'.

Lemma put_seg_ok s lba x' :
  wf s → in_map s lba → seg_ok s x' →
  ∃ s', put_seg s (lseg_of s lba) x' = Some s' ∧ wf s' ∧ env_same s s' ∧
    rd (bmap s') (lseg_of s lba) = Some x' ∧ length (bmap s') = length (bmap s) ∧
    ∀ lba', in_map s lba' →
      view s' lba' = if lseg_of s lba' =? lseg_of s lba then default ADDR_EMPTY (seg_view s x' lba') else view s lba'.
Proof.
  intros Hw Hm Hx'. destruct (in_map_seg s lba Hw Hm) as (x & Hx & _). pose proof (rd_lt _ _ _ Hx) as Hr.
  unfold put_seg. rewrite wr_in_range by done. cbn [mbind option_bind]. eexists. split; [done|].
  set (s' := s <| bmap := <[Z.to_nat (lseg_of s lba) := x']> (bmap s) |>).
  assert (He : env_same s s') by done. assert (Hb : bmap s' = <[Z.to_nat (lseg_of s lba) := x']> (bmap s)) by done.
  assert (Hl : length (bmap s') = length (bmap s)) by (rewrite Hb; apply length_insert).
  assert (Hrd : ∀ j, rd (bmap s') j = if j =? lseg_of s lba then Some x' else rd (bmap s) j).
  { intros j. rewrite (rd_wr (bmap s) (bmap s') (lseg_of s lba) j x') by (rewrite Hb; by apply wr_in_range).
    case_decide as Hj; [by rewrite Hj, Z.eqb_refl|by rewrite (proj2 (Z.eqb_neq _ _))]. }
  split. { apply (wf_env s s' Hw He); [split; apply Hw|done|done|]. rewrite Hb. apply Forall_insert; [apply Hw|done]. }
  split; [done|]. split; [by rewrite Hrd, Z.eqb_refl|]. split; [done|]. intros lba' Hm'. unfold view at 1.
  change (lseg_of s' lba') with (lseg_of s lba'). rewrite Hrd. destruct (lseg_of s lba' =? lseg_of s lba); [|done].
  cbn. by rewrite (seg_view_env s s').
Qed.

Lemma put_whole s s' lba x x' :
  put_seg s (lseg_of s lba) x' = Some s' → rd (bmap s) (lseg_of s lba) = Some x → (m_map x' =? BLOCK_MAP) = (m_map x =? BLOCK_MAP) →
  ∀ lba', whole s' lba' = whole s lba'.
Proof.
  intros E Hx Hm lba'. unfold put_seg in E. apply bind_Some in E as (m & Hwr & [= <-]). unfold whole, lseg_of. cbn.
  rewrite (rd_wr _ _ _ _ _ Hwr). case_decide as Hd; [|done]. by rewrite <- Hd, Hx.
Qed.

(** Segments with an array answer from it. *)
Lemma sector_view s i st l lba :
  rd (lstreams s) i = Some st → map_type st = SECTOR_MAP → Forall (addr_ok s) l →
  seg_view s {| m_map := SECTOR_MAP; m_lstream := i; m_cached := false; seg_val_of := SArray l |} lba = rd l (loff_of s lba).
Proof.
  intros Hst Ht Ha. unfold seg_view. cbn [m_map m_lstream]. change (SECTOR_MAP =? NONE_MAP) with false. cbn iota.
  rewrite Hst. cbn [mbind option_bind]. unfold get_in. rewrite Ht. cbn. destruct (rd l (loff_of s lba)) as [p|] eqn:Hp; [|done]. cbn.
  pose proof (rd_Forall _ _ _ _ Ha Hp) as Hok. destruct p; [done..|]. simpl in Hok. by rewrite (proj2 (Z.ltb_lt blk _)) by lia.
Qed.

Lemma log_view s i st l lba :
  rd (lstreams s) i = Some st → map_type st = BLOCK_MAP →
  seg_view s {| m_map := BLOCK_MAP; m_lstream := i; m_cached := true; seg_val_of := SArray l |} lba = rd l (loff_of s lba).
Proof.
  intros Hst Ht. unfold seg_view. cbn [m_map m_lstream]. change (BLOCK_MAP =? NONE_MAP) with false. cbn iota.
  rewrite Hst. cbn [mbind option_bind]. unfold get_in. by rewrite Ht.
Qed.

(** Sectors of one segment are told apart by their places. *)
Lemma same_place s lba lba' :
  5 ≤ blk_offset (l_fmt s) ≤ 15 → lseg_of s lba' = lseg_of s lba → (loff_of s lba' =? loff_of s lba) = (lba' =? lba).
Proof.
  intros Hb Hl. destruct (split_lba s lba Hb) as (_ & _ & _ & E). destruct (split_lba s lba' Hb) as (_ & _ & _ & E').
  destruct (Z.eqb_spec (loff_of s lba') (loff_of s lba)), (Z.eqb_spec lba' lba); (done || congruence || nia).
Qed.

Lemma Forall_wr {A} (P : A → Prop) l l' i x : Forall P l → P x → wr l i x = Some l' → Forall P l'.
Proof. intros H Hx (_ & ->)%wr_Some. by apply Forall_insert. Qed.

(** A segment [x] whose sectors are those of [l] is replaced by [x'] with [l'], which is [l] but for one place. *)
Lemma put_array_ok s lba p l l' x' :
  wf s → in_map s lba → wr l (loff_of s lba) p = Some l' → seg_ok s x' →
  (∀ lba', in_map s lba' → lseg_of s lba' = lseg_of s lba → rd l (loff_of s lba') = Some (view s lba')) →
  (∀ lba', seg_view s x' lba' = rd l' (loff_of s lba')) →
  ∃ s', put_seg s (lseg_of s lba) x' = Some s' ∧ wf s' ∧ env_same s s' ∧ length (bmap s') = length (bmap s) ∧ updated s s' lba p.
Proof.
  intros Hw Hm Hwr Hok Hl Hl'. destruct (put_seg_ok s lba x' Hw Hm Hok) as (s' & E & Hw' & He & _ & Hlen & Hv).
  exists s'. do 4 (split; [done|]). intros lba' Hm'. rewrite (Hv lba' Hm').
  destruct (Z.eqb_spec (lseg_of s lba') (lseg_of s lba)) as [Hs|Hs].
  - rewrite Hl', (rd_wr _ _ _ _ _ Hwr). pose proof (same_place s lba lba' (wf_bits _ Hw) Hs) as Hp.
    case_decide as Hd; [rewrite Hd, Z.eqb_refl in Hp; by rewrite <- Hp|].
    rewrite (proj2 (Z.eqb_neq _ _)) in Hp by done. rewrite <- Hp. by rewrite (Hl lba' Hm' Hs).
  - destruct (Z.eqb_spec lba' lba) as [->|]; done.
Qed.

(** The sectors of a segment that has an array. *)
Lemma array_views s lba x l :
  wf s → rd (bmap s) (lseg_of s lba) = Some x → seg_ok s x → (∀ lba', seg_view s x lba' = rd l (loff_of s lba')) →
  ∀ lba', in_map s lba' → lseg_of s lba' = lseg_of s lba → rd l (loff_of s lba') = Some (view s lba').
Proof. intros Hw Hx Hok Hv lba' _ Hs. rewrite <- Hv. apply (view_eq s x lba' Hw); [by rewrite Hs|done]. Qed.

Lemma set_sector_ok s x st lba p :
  wf s → in_map s lba → rd (bmap s) (lseg_of s lba) = Some x → seg_ok s x → m_map x ≠ NONE_MAP →
  rd (lstreams s) (m_lstream x) = Some st → map_type st = SECTOR_MAP → addr_ok s p →
  ∃ s', set_sector s x lba p = Some s' ∧ wf s' ∧ env_same s s' ∧ length (bmap s') = length (bmap s) ∧ updated s s' lba p.
Proof.
  intros Hw Hm Hx Hok Hn Hst Ht Hp. destruct (split_lba s lba (wf_bits _ Hw)) as (_ & _ & Ho & _).
  pose proof types_differ. inversion Hok as [v E|i st' l Hst' Ht' Hl Ha E|i st' l Hst' Ht' Hl Ha Hd E|i st' Hst' Ht' E|i st' blk Hst' Ht' Hb E];
    subst x; cbn [m_map m_lstream] in *; try done; try (assert (st' = st) as -> by congruence; exfalso; intuition congruence).
  unfold set_sector. cbn [m_map seg_val_of pointer_sectors]. rewrite Z.eqb_refl. cbn [ensure mbind option_bind].
  destruct (wr l (loff_of s lba) p) as [l'|] eqn:Hwr; [|rewrite wr_in_range in Hwr by lia; done]. cbn [mbind option_bind].
  pose proof (Forall_wr _ _ _ _ _ Ha Hp Hwr) as Ha'. apply (put_array_ok s lba p l l'); [done|done|done| | |].
  - apply (SegSector s i st'); [done|done|by rewrite (wr_length _ _ _ _ Hwr)|done].
  - by apply (array_views s lba _ l Hw Hx Hok); intros lba'; apply (sector_view s i st').
  - intros lba'. by apply (sector_view s i st').
Qed.

(** *** Segments that are mapped as a whole *)

Definition is_block (s : l2p) (x : seg) : Prop :=
  m_map x ≠ NONE_MAP ∧ ∃ st, rd (lstreams s) (m_lstream x) = Some st ∧ map_type st = BLOCK_MAP.

(** Sectors that hold no data are empty. *)
Lemma block_meta s x lba :
  wf s → rd (bmap s) (lseg_of s lba) = Some x → seg_ok s x → is_block s x → ¬ data_off (entry_num s) (loff_of s lba) → view s lba = ADDR_EMPTY.
Proof.
  intros Hw Hx Hok (Hn & st & Hst & Ht) Hd. destruct (view_eq s x lba Hw Hx Hok) as [Hv _]. unfold data_off in Hd. pose proof types_differ.
  inversion Hok as [v E|i st' l Hst' Ht' Hl Ha E|i st' l Hst' Ht' Hl Ha Hm E|i st' Hst' Ht' E|i st' blk Hst' Ht' Hb E];
    subst x; cbn [m_map m_lstream] in *; try done; assert (st' = st) as -> by congruence; try (exfalso; intuition congruence).
  - rewrite (log_view s i st) in Hv by done. by apply (Hm _ _ Hv).
  - unfold seg_view in Hv. cbn in Hv. rewrite Hst in Hv. cbn in Hv. unfold get_in in Hv. rewrite Ht in Hv. cbn in Hv. by injection Hv as <-.
  - unfold seg_view in Hv. cbn in Hv. rewrite Hst in Hv. cbn in Hv. unfold get_in in Hv. rewrite Ht in Hv. cbn in Hv.
    assert ((loff_of s lba <? 8) || (entry_num s - 17 <? loff_of s lba) = true) as E.
    { apply orb_true_iff. destruct (Z.ltb_spec (loff_of s lba) 8); [by left|right]. apply Z.ltb_lt. lia. }
    unfold get_block in Hv. cbn in Hv. rewrite E in Hv. by injection Hv as <-.
Qed.

(** The first sector of the segment of [lba], and the others. *)
Lemma seg_start s lba i :
  wf s → in_map s lba → 0 ≤ i < entry_num s →
  in_map s (lba - loff_of s lba + i) ∧ lseg_of s (lba - loff_of s lba + i) = lseg_of s lba ∧ loff_of s (lba - loff_of s lba + i) = i.
Proof.
  intros Hw [H1 H2] Hi. pose proof (wf_bits _ Hw) as Hb. destruct (entry_num_eq s Hb) as [_ Hn]. destruct (split_lba s lba Hb) as (E1 & E2 & Ho & E).
  set (a := lba - loff_of s lba + i). assert (Ea : a = lseg_of s lba * entry_num s + i) by (unfold a; lia).
  destruct (split_lba s a Hb) as (F1 & F2 & _). assert (Hs : lseg_of s a = lseg_of s lba).
  { rewrite F1, Ea, Z.div_add_l by lia. rewrite (Z.div_small i) by lia. lia. }
  assert (0 ≤ lseg_of s lba) by (rewrite E1; apply Z.div_pos; lia).
  split; [split; [unfold a; nia|by rewrite Hs]|]. split; [done|].
  rewrite F2, Ea, Z.add_comm, Z_mod_plus_full. by apply Z.mod_small.
Qed.

Lemma block_log_ok s x lba :
  wf s → in_map s lba → rd (bmap s) (lseg_of s lba) = Some x → seg_ok s x → is_block s x →
  ∃ s' l, block_log s (lseg_of s lba) lba x = Some (s', l) ∧ wf s' ∧ same s s' ∧ Z.of_nat (length l) = entry_num s ∧ Forall (addr_ok s) l ∧
    (∀ j p, rd l j = Some p → ¬ data_off (entry_num s) j → p = ADDR_EMPTY) ∧
    (∀ lba', in_map s lba' → lseg_of s lba' = lseg_of s lba → rd l (loff_of s lba') = Some (view s lba')).
Proof.
  intros Hw Hm Hx Hok Hbl. unfold block_log. destruct (entry_num_eq s (wf_bits _ Hw)) as [_ Hn]. destruct (m_cached x) eqn:Hc.
  - destruct Hbl as (_ & st & Hst & Ht).
    inversion Hok as [v E|i st' l Hst' Ht' Hl Ha E|i st' l Hst' Ht' Hl Ha Hd E|i st' Hst' Ht' E|i st' blk Hst' Ht' Hb E]; subst x; try done.
    cbn [seg_val_of pointer_sectors mbind option_bind]. exists s, l. split; [done|]. split; [done|]. split; [apply same_refl|].
    do 3 (split; [done|]). apply (array_views s lba _ l Hw Hx Hok). intros lba'. by apply (log_view s i st').
  - destruct (get_range_ok (Z.to_nat (entry_num s)) s (lba - loff_of s lba) Hw) as (s1 & E1 & Hw1 & Hs1).
    { intros i Hi. apply seg_start; [done|done|lia]. }
    rewrite E1. cbn [mbind option_bind]. rewrite (entry_num_env s s1) by (by apply same_env).
    destruct (alloc_block_ok s1 (lseg_of s lba) (entry_num s) (wf_cmt _ Hw1)) as (s2 & E2 & Hc2 & Hs2); [lia|].
    rewrite E2. cbn [mbind option_bind]. eexists s2, _. split; [done|]. split; [by apply (wf_same s1 s2)|]. split; [by eapply same_trans|].
    assert (Hrd : ∀ j, 0 ≤ j < entry_num s → rd ((λ i, view s (lba - loff_of s lba + Z.of_nat i)) <$> seq 0 (Z.to_nat (entry_num s))) j
                       = Some (view s (lba - loff_of s lba + j))).
    { intros j Hj. apply rd_Some. split; [lia|]. rewrite list_lookup_fmap, lookup_seq_lt by lia. cbn. do 2 f_equal. lia. }
    assert (Hlen : Z.of_nat (length ((λ i, view s (lba - loff_of s lba + Z.of_nat i)) <$> seq 0 (Z.to_nat (entry_num s)))) = entry_num s).
    { rewrite length_fmap, length_seq. lia. }
    split; [done|]. split; [|split].
    + apply Forall_fmap, Forall_forall. intros i [_ Hi]%elem_of_seq. destruct (seg_start s lba (Z.of_nat i) Hw Hm ltac:(lia)) as (_ & Hs & _).
      apply (view_eq s x); [done|by rewrite Hs|done].
    + intros j p Hp Hj. pose proof (rd_lt _ _ _ Hp) as Hr. rewrite Hlen in Hr. rewrite (Hrd j Hr) in Hp. injection Hp as <-.
      destruct (seg_start s lba j Hw Hm Hr) as (_ & Hs & Hoff). apply (block_meta s x); [done|by rewrite Hs|done|done|by rewrite Hoff].
    + intros lba' _ Hs. destruct (split_lba s lba' (wf_bits _ Hw)) as (_ & _ & Ho & E). rewrite (Hrd _ Ho). do 2 f_equal.
      destruct (split_lba s lba (wf_bits _ Hw)) as (_ & _ & _ & E'). rewrite Hs in E. lia.
Qed.

(** A log with one sector changed. *)
Lemma put_log_ok s x st lba p l l' :
  wf s → in_map s lba → m_map x = BLOCK_MAP → rd (lstreams s) (m_lstream x) = Some st → map_type st = BLOCK_MAP →
  Z.of_nat (length l) = entry_num s → Forall (addr_ok s) l → (∀ j p, rd l j = Some p → ¬ data_off (entry_num s) j → p = ADDR_EMPTY) →
  (∀ lba', in_map s lba' → lseg_of s lba' = lseg_of s lba → rd l (loff_of s lba') = Some (view s lba')) →
  data_off (entry_num s) (loff_of s lba) → addr_ok s p → wr l (loff_of s lba) p = Some l' →
  ∃ s', put_seg s (lseg_of s lba) (x <| m_cached := true |> <| seg_val_of := SArray l' |>) = Some s' ∧ wf s' ∧ env_same s s' ∧
    length (bmap s') = length (bmap s) ∧ updated s s' lba p.
Proof.
  intros Hw Hm Hmx Hst Ht Hl Ha Hd Hv Ho Hp Hwr. destruct x as [mm i c v]. cbn in *. subst mm.
  apply (put_array_ok s lba p l l'); [done|done|done| |done|].
  - apply (SegLog s i st); [done|done|by rewrite (wr_length _ _ _ _ Hwr)|by apply (Forall_wr _ _ _ _ _ Ha Hp Hwr)|].
    intros j q Hq Hj. rewrite (rd_wr _ _ _ _ _ Hwr) in Hq. case_decide as E; [subst j; done|]. by apply (Hd j).
  - intros lba'. by apply (log_view s i st).
Qed.

(** *** Operations *)

(** A step that leaves the map as it is. *)
Record kept (s s' : l2p) : Prop := { kp_wf : wf s'; kp_env : env_same s s'; kp_bmap : bmap s' = bmap s }.

Lemma kept_same s s' : wf s' → same s s' → kept s s'.
Proof. intros Hw Hs. split; [done|by apply same_env|apply Hs]. Qed.

Lemma l2p_kept_trans s1 s2 s3 : kept s1 s2 → kept s2 s3 → kept s1 s3.
Proof. intros [] []. split; [done|by eapply env_same_trans|congruence]. Qed.

Lemma kept_lseg s s' lba : kept s s' → lseg_of s' lba = lseg_of s lba.
Proof. intros [_ He _]. unfold lseg_of. by rewrite (es_fmt _ _ He). Qed.

Lemma kept_loff s s' lba : kept s s' → loff_of s' lba = loff_of s lba.
Proof. intros [_ He _]. unfold loff_of. by rewrite (entry_num_env s s' He). Qed.

Lemma kept_view s s' lba : kept s s' → view s' lba = view s lba.
Proof.
  intros Hk. unfold view. rewrite (kept_lseg s s' lba Hk), (kp_bmap _ _ Hk). destruct (rd (bmap s) _); [|done]. cbn.
  by rewrite (seg_view_env s s' _ _ (kp_env _ _ Hk)).
Qed.

Lemma kept_in_map s s' lba : kept s s' → in_map s' lba ↔ in_map s lba.
Proof. intros Hk. unfold in_map. by rewrite (kept_lseg s s' lba Hk), (kp_bmap _ _ Hk). Qed.

Lemma not_preinvalid_ok s lba : wf s → 0 ≤ lba < l_nr_secs s → ∃ s', not_preinvalid s lba = Some s' ∧ kept s s'.
Proof.
  intros Hw Hl. unfold not_preinvalid. rewrite wr_in_range by (rewrite (wf_pre _ Hw); lia). cbn [mbind option_bind]. eexists. split; [done|].
  split; [|done..]. apply (wf_env s); [done|done|split; apply Hw|done|cbn; apply length_insert|apply Hw].
Qed.

Lemma load_kept s lba d : wf s → in_map s lba → ∃ s', pblk_load_cmt s (lseg_of s lba) d = Some s' ∧ kept s s'.
Proof. intros Hw Hm. destruct (load_wf s lba d Hw Hm) as (s' & E & Hw' & Hs). exists s'. split; [done|by apply kept_same]. Qed.

(** The effect of a change, seen from the state before steps that leave the map as it is. *)
Record changed (s s' : l2p) (lba : Z) (p : ppa_addr) : Prop := {
  ch_wf : wf s';
  ch_env : env_same s s';
  ch_len : length (bmap s') = length (bmap s);
  ch_whole : ∀ lba', whole s' lba' = whole s lba';
  ch_view : updated s s' lba p
}.

Lemma kept_whole s s' lba : kept s s' → whole s' lba = whole s lba.
Proof. intros Hk. unfold whole. by rewrite (kept_lseg s s' lba Hk), (kp_bmap _ _ Hk). Qed.

Lemma changed_after s s1 s' lba p : kept s s1 → changed s1 s' lba p → changed s s' lba p.
Proof.
  intros Hk [H1 H2 H3 H5 H4].
  split; [done|by eapply env_same_trans; [apply Hk|]|by rewrite H3, (kp_bmap _ _ Hk)|intros; by rewrite H5, (kept_whole s s1)|].
  intros lba' Hm. rewrite H4 by (by apply (kept_in_map s s1)). by rewrite (kept_view s s1).
Qed.

Lemma sector_changed s x st lba p :
  wf s → in_map s lba → rd (bmap s) (lseg_of s lba) = Some x → seg_ok s x → m_map x ≠ NONE_MAP →
  rd (lstreams s) (m_lstream x) = Some st → map_type st = SECTOR_MAP → addr_ok s p →
  ∃ s', set_sector s x lba p = Some s' ∧ changed s s' lba p.
Proof.
  intros Hw Hm Hx Hok Hn Hst Ht Hp. destruct (set_sector_ok s x st lba p) as (s' & E & Hw' & He & Hlen & Hu); try done.
  exists s'. split; [done|]. split; [done..| |done]. unfold set_sector in E.
  apply bind_Some in E as (_ & _ & E). apply bind_Some in E as (l & _ & E). apply bind_Some in E as (l' & _ & E). by apply (put_whole _ _ _ x _ E Hx).
Qed.

(** What is known of a segment after such steps. *)
Lemma seg_after s s1 lba x : kept s s1 → rd (bmap s) (lseg_of s lba) = Some x → seg_ok s x → rd (bmap s1) (lseg_of s1 lba) = Some x ∧ seg_ok s1 x.
Proof.
  intros Hk Hx Hok. rewrite (kept_lseg s s1 lba Hk), (kp_bmap _ _ Hk). split; [done|]. by apply (seg_ok_env s s1); [apply Hk|].
Qed.

(** Whether the segment of a sector is mapped as a whole, and has a log. *)
Definition on_block (s : l2p) (lba : Z) : Prop := ∃ x, rd (bmap s) (lseg_of s lba) = Some x ∧ is_block s x.
Definition has_log (s : l2p) (lba : Z) : Prop := ∃ x, rd (bmap s) (lseg_of s lba) = Some x ∧ m_cached x = true.

Lemma is_block_after s s1 x : kept s s1 → is_block s1 x ↔ is_block s x.
Proof. intros Hk. unfold is_block. by rewrite (es_streams _ _ (kp_env _ _ Hk)). Qed.

Lemma block_map s x : seg_ok s x → is_block s x → m_map x = BLOCK_MAP.
Proof.
  intros Hok (Hn & st & Hst & Ht). pose proof types_differ. destruct Hok; cbn in *; try done. exfalso. intuition congruence.
Qed.

(** A sector is written to the log of its segment. *)
Lemma log_write_ok s x lba p :
  wf s → in_map s lba → rd (bmap s) (lseg_of s lba) = Some x → seg_ok s x → is_block s x →
  addr_ok s p → data_off (entry_num s) (loff_of s lba) →
  ∃ s1 l l' s', block_log s (lseg_of s lba) lba x = Some (s1, l) ∧ kept s s1 ∧ wr l (loff_of s lba) p = Some l' ∧
    (∀ lba', in_map s lba' → lseg_of s lba' = lseg_of s lba → rd l (loff_of s lba') = Some (view s lba')) ∧
    put_seg s1 (lseg_of s lba) (x <| m_cached := true |> <| seg_val_of := SArray l' |>) = Some s' ∧ changed s s' lba p.
Proof.
  intros Hw Hm Hx Hok Hbl Hp Ho. pose proof (block_map s x Hok Hbl) as Hmx. pose proof Hbl as (_ & st & Hst & Ht).
  destruct (block_log_ok s x lba Hw Hm Hx Hok Hbl) as (s1 & l & E & Hw1 & Hs1 & Hl & Ha & Hd & Hv). exists s1, l.
  pose proof (kept_same s s1 Hw1 Hs1) as Hk. destruct (split_lba s lba (wf_bits _ Hw)) as (_ & _ & Hlo & _).
  destruct (wr l (loff_of s lba) p) as [l'|] eqn:Hwr; [|rewrite wr_in_range in Hwr by lia; done]. exists l'.
  pose proof (es_streams _ _ (kp_env _ _ Hk)) as Es. pose proof (entry_num_env s s1 (kp_env _ _ Hk)) as En.
  destruct (put_log_ok s1 x st lba p l l') as (s' & E' & Hw' & He' & Hlen' & Hu); rewrite ?Es, ?En, ?(kept_loff s s1 lba Hk); try done.
  - by apply (kept_in_map s s1).
  - apply (Forall_impl _ _ _ Ha). intros q. by rewrite (addr_ok_env s s1) by apply Hk.
  - intros lba' Hm' Hs'. rewrite !(kept_lseg s s1) in Hs' by done. rewrite (kept_loff s s1), (kept_view s s1) by done.
    apply Hv; [by apply (kept_in_map s s1)|done].
  - by apply (addr_ok_env s s1); [apply Hk|].
  - pose proof (λ H, put_whole _ _ _ x _ E' H eq_refl) as Hwh. rewrite (kept_lseg s s1 lba Hk) in E', Hwh. exists s'. do 5 (split; [done|]).
    apply (changed_after s s1); [done|]. split; [done..| |done]. apply Hwh. by rewrite (kp_bmap _ _ Hk).
Qed.

Lemma cache_set_block_ok s x lba p :
  wf s → in_map s lba → rd (bmap s) (lseg_of s lba) = Some x → seg_ok s x → is_block s x →
  addr_ok s p → data_off (entry_num s) (loff_of s lba) → m_cached x = true ∨ loff_of s lba = 8 →
  ∃ s', cache_set_block s x lba p = Some s' ∧ changed s s' lba p.
Proof.
  intros Hw Hm Hx Hok Hbl Hp Ho Hlog. unfold cache_set_block. rewrite (proj2 (orb_true_iff _ _)) by (by rewrite Z.eqb_eq).
  cbn [ensure mbind option_bind].
  destruct (log_write_ok s x lba p) as (s1 & l & l' & s' & E & Hk & Hwr & _ & E' & Hch); try done.
  rewrite E. cbn [mbind option_bind]. rewrite (kept_loff s s1 lba Hk), Hwr. cbn [mbind option_bind]. by exists s'.
Qed.

(** The sectors of the segment of [lba], but for [lba] itself. *)
Definition others (s : l2p) (lba : Z) (P : Z → ppa_addr → Prop) : Prop :=
  ∀ lba', in_map s lba' → lseg_of s lba' = lseg_of s lba → lba' ≠ lba → P lba' (view s lba').

(** The log of a segment is given up, for [x'], which says the same. *)
Lemma drop_log_ok s s1 lba p n x x' :
  wf s → in_map s lba → kept s s1 → seg_ok s x' → rd (bmap s) (lseg_of s lba) = Some x → m_map x' = m_map x →
  (∀ lba', in_map s lba' → lseg_of s lba' = lseg_of s lba → seg_view s x' lba' = Some (if lba' =? lba then p else view s lba')) →
  ∃ s2 s', pblk_free_log s1 (lseg_of s lba) BLOCK_MAP n = Some s2 ∧ put_seg s2 (lseg_of s lba) x' = Some s' ∧ changed s s' lba p.
Proof.
  intros Hw Hm Hk Hok Hx Hmx Hv. unfold pblk_free_log. rewrite Z.eqb_refl. eexists.
  destruct (delete_ok s1 (lseg_of s lba) (wf_cmt _ (kp_wf _ _ Hk))) as [Hc Hs].
  set (s2 := pblk_delete_cmt s1 (lseg_of s lba)) in *. assert (Hk2 : kept s s2).
  { eapply l2p_kept_trans; [done|]. apply kept_same; [|done]. by apply (wf_same s1); [apply Hk|..]. }
  destruct (put_seg_ok s2 lba x') as (s' & E & Hw' & He & _ & Hlen & Hview); [apply Hk2|by apply (kept_in_map s s2)|by apply (seg_ok_env s s2); [apply Hk2|]|].
  pose proof (λ H, put_whole _ _ _ x _ E H (f_equal (λ t, t =? BLOCK_MAP) Hmx)) as Hwh. rewrite (kept_lseg s s2 lba Hk2) in E, Hwh.
  exists s'. split; [done|]. split; [done|]. apply (changed_after s s2); [done|]. split; [done|done|done|apply Hwh; by rewrite (kp_bmap _ _ Hk2)|].
  intros lba' Hm'. rewrite (Hview lba' Hm'), !(kept_lseg s s2) by done. destruct (Z.eqb_spec (lseg_of s lba') (lseg_of s lba)) as [Hs'|Hs'].
  - rewrite (seg_view_env s s2) by apply Hk2. rewrite Hv by (by rewrite <- (kept_in_map s s2)||done). cbn. by rewrite (kept_view s s2).
  - destruct (Z.eqb_spec lba' lba) as [->|]; done.
Qed.

(** A change of a segment that is mapped as a whole: the last sector ends the log if the first and it are empty. *)
Lemma trans_set_block_ok s x lba p :
  wf s → in_map s lba → rd (bmap s) (lseg_of s lba) = Some x → seg_ok s x → is_block s x →
  addr_ok s p → data_off (entry_num s) (loff_of s lba) →
  (loff_of s lba = entry_num s - 17 → p = ADDR_EMPTY → view s (lba - loff_of s lba + 8) = ADDR_EMPTY → others s lba (λ _ q, q = ADDR_EMPTY)) →
  ∃ s', trans_set_block s x lba p = Some s' ∧ changed s s' lba p.
Proof.
  intros Hw Hm Hx Hok Hbl Hp Ho Hend. destruct (entry_num_eq s (wf_bits _ Hw)) as [_ Hn]. pose proof Ho as [Ho1 Ho2].
  destruct (log_write_ok s x lba p) as (s1 & l & l' & s' & E & Hk & Hwr & Hv & E' & Hch); try done.
  unfold trans_set_block. rewrite (proj2 (Z.ltb_ge _ 8)), (proj2 (Z.leb_gt _ (loff_of s lba))) by lia. cbn [orb].
  rewrite E. cbn [mbind option_bind]. rewrite Hwr. cbn [mbind option_bind].
  destruct (Z.eqb_spec (loff_of s lba) (entry_num s - 17)) as [El|El]; cbn [negb]; [|by exists s'].
  destruct (seg_start s lba 8 Hw Hm ltac:(lia)) as (Hm8 & Hs8 & Ho8). pose proof (Hv _ Hm8 Hs8) as Ha. rewrite Ho8 in Ha.
  assert (E8 : rd l' 8 = Some (view s (lba - loff_of s lba + 8))) by (rewrite (rd_wr _ _ _ _ _ Hwr), decide_False by lia; done).
  assert (E17 : rd l' (entry_num s - 17) = Some p) by (rewrite (rd_wr _ _ _ _ _ Hwr), decide_True by lia; done).
  rewrite E8, E17. cbn [mbind option_bind]. unfold pblk_ppa_empty.
  destruct (bool_decide_reflect (view s (lba - loff_of s lba + 8) = ADDR_EMPTY)) as [H8|H8]; cbn [andb]; [|by exists s'].
  destruct (bool_decide_reflect (p = ADDR_EMPTY)) as [Hpe|Hpe]; [|by exists s'].
  pose proof (block_map s x Hok Hbl) as Hmx. pose proof Hbl as (_ & st & Hst & Ht). destruct x as [mm i c v]. cbn in Hmx, Hst. subst mm.
  destruct (drop_log_ok s s1 lba p (entry_num s) {| m_map := BLOCK_MAP; m_lstream := i; m_cached := c; seg_val_of := v |}
    {| m_map := BLOCK_MAP; m_lstream := i; m_cached := false; seg_val_of := SEmpty |})
    as (s2 & s3 & F1 & F2 & Hch'); [done|done|done|by apply (SegEmpty s i st)|exact Hx|done| |].
  - intros lba' Hm' Hs'. unfold seg_view. cbn [m_map m_lstream]. change (BLOCK_MAP =? NONE_MAP) with false. cbn iota. rewrite Hst.
    cbn [mbind option_bind].
    unfold get_in. rewrite Ht. cbn. f_equal. destruct (Z.eqb_spec lba' lba); [done|]. symmetry. by apply (Hend El Hpe H8).
  - rewrite F1. cbn [mbind option_bind]. by exists s3.
Qed.

(** A sector that is at the same place in its line and in its segment. *)
Lemma field_low x B len off :
  0 ≤ len → 0 ≤ off → off + len ≤ B → B ≤ 64 → field (x mod 2 ^ B) (field_mask len off) off = field x (field_mask len off) off.
Proof.
  intros Hl Ho Hb HB. rewrite !field_eq by lia. apply Z.bits_inj'. intros j Hj. destruct (decide (j < len)).
  - rewrite !Z.mod_pow2_bits_low by lia. rewrite <- !Z.shiftr_div_pow2, !Z.shiftr_spec by lia. apply Z.mod_pow2_bits_low. lia.
  - rewrite !Z.mod_pow2_bits_high by lia. done.
Qed.

Lemma place_addr s lba line :
  wf s → pblk_dev_ppa_to_line_addr (l_fmt s) (addr_to_gen_ppa (l_fmt s) lba line) = Some (loff_of s lba).
Proof.
  intros Hw. destruct (wf_fmt _ Hw) as (l & Hf & Hl). destruct (split_lba s lba (wf_bits _ Hw)) as (_ & E & Ho & _).
  destruct (entry_num_eq s (wf_bits _ Hw)) as [En _]. rewrite E, En in *.
  destruct (pack_of l (l_fmt s) Hf _ Hl Ho) as (pg & lun & ch & pl & sec & Ea & Hd).
  destruct (pack_fields l (l_fmt s) Hf 64 0 pg lun ch pl sec Hl ltac:(lia) Hd) as (F1 & F2 & F3 & F4 & F5 & _). rewrite <- Ea in *.
  pose proof Hl as (H1 & H2 & H3 & H4 & H5 & H6 & H7). pose proof (wf_bits _ Hw) as Hb.
  pose proof Hf as [[E1 M1] [E2 M2] [E3 M3] [E4 M4] [E5 M5] [E6 _]].
  unfold addr_to_gen_ppa. rewrite M1, M2, M3, M4, M5, E1, E2, E3, E4, E5, E6 in *.
  rewrite field_low in F1 by lia. rewrite field_low in F2 by lia. rewrite field_low in F3 by lia. rewrite field_low in F4 by lia.
  rewrite field_low in F5 by lia.
  rewrite F1, F2, F3, F4, F5, Ea. exact (line_addr_pack l (l_fmt s) Hf 0 pg lun ch pl sec Hl Hd).
Qed.

Lemma block_view s i st blk lba :
  rd (lstreams s) i = Some st → map_type st = BLOCK_MAP → 0 ≤ blk < l_nr_lines s →
  data_off (entry_num s) (loff_of s lba) →
  seg_view s {| m_map := BLOCK_MAP; m_lstream := i; m_cached := false; seg_val_of := SAddr blk |} lba = Some (addr_to_gen_ppa (l_fmt s) lba blk).
Proof.
  intros Hst Ht Hb [H1 H2]. unfold seg_view. cbn [m_map m_lstream]. change (BLOCK_MAP =? NONE_MAP) with false. cbn iota. rewrite Hst.
  cbn [mbind option_bind].
  unfold get_in. rewrite Ht. cbn -[Z.ltb]. unfold get_block. cbn -[Z.ltb].
  rewrite (proj2 (Z.ltb_ge _ 8)), (proj2 (Z.ltb_ge _ (loff_of s lba))) by lia. cbn [orb].
  unfold block_addr. by rewrite (proj2 (Z.ltb_lt blk _)) by lia.
Qed.

(** The sector is on line [line] at its place; the last one ends the log if the first one is there, too, and then all are. *)
Lemma dev_set_block_ok s x lba line :
  wf s → in_map s lba → rd (bmap s) (lseg_of s lba) = Some x → seg_ok s x → is_block s x → m_cached x = true →
  0 ≤ line < l_nr_lines s → data_off (entry_num s) (loff_of s lba) →
  (loff_of s lba = entry_num s - 17 → pblk_dev_ppa_to_line (view s (lba - loff_of s lba + 8)) = Some line →
   others s lba (λ lba' q, data_off (entry_num s) (loff_of s lba') → q = addr_to_gen_ppa (l_fmt s) lba' line)) →
  ∃ s', dev_set_block s x lba (addr_to_gen_ppa (l_fmt s) lba line) = Some s' ∧ changed s s' lba (addr_to_gen_ppa (l_fmt s) lba line).
Proof.
  intros Hw Hm Hx Hok Hbl Hc Hline Ho Hend. destruct (entry_num_eq s (wf_bits _ Hw)) as [_ Hn]. pose proof Ho as [Ho1 Ho2].
  set (p := addr_to_gen_ppa (l_fmt s) lba line) in *. assert (Hp : addr_ok s p) by done.
  destruct (log_write_ok s x lba p) as (s1 & l & l' & s' & E & Hk & Hwr & Hv & E' & Hch); try done.
  unfold block_log in E. rewrite Hc in E. unfold dev_set_block.
  rewrite (place_addr s lba line Hw : pblk_dev_ppa_to_line_addr (l_fmt s) p = _). cbn [mbind option_bind].
  rewrite s32_small, Z.eqb_refl, Hc by lia. cbn [ensure mbind option_bind].
  destruct (pointer_sectors (seg_val_of x)) as [l0|]; [|done]. cbn [mbind option_bind] in *. injection E as <- <-. rewrite Hwr.
  cbn [mbind option_bind].
  assert (Ex : x <| m_cached := true |> <| seg_val_of := SArray l' |> = x <| seg_val_of := SArray l' |>) by (destruct x; cbn in *; by subst).
  rewrite Ex in E'. destruct (Z.eqb_spec (loff_of s lba) (entry_num s - 17)) as [El|El].
  2:{ rewrite (proj2 (Z.ltb_lt (loff_of s lba) _)) by lia. cbn [ensure mbind option_bind]. by exists s'. }
  destruct (seg_start s lba 8 Hw Hm ltac:(lia)) as (Hm8 & Hs8 & Ho8). pose proof (Hv _ Hm8 Hs8) as Ha. rewrite Ho8 in Ha.
  rewrite (rd_wr _ _ _ _ _ Hwr), decide_False, Ha by lia. cbn [mbind option_bind]. change (pblk_dev_ppa_to_line p) with (Some line).
  cbn [mbind option_bind].
  case_bool_decide as Hb; [|by exists s'].
  pose proof (block_map s x Hok Hbl) as Hmx. pose proof Hbl as (_ & st & Hst & Ht). destruct x as [mm i c v]. cbn in Hmx, Hst, Hc. subst mm c.
  destruct (drop_log_ok s s lba p (entry_num s) {| m_map := BLOCK_MAP; m_lstream := i; m_cached := true; seg_val_of := v |}
    {| m_map := BLOCK_MAP; m_lstream := i; m_cached := false; seg_val_of := SAddr line |})
    as (s2 & s3 & F1 & F2 & Hch'); [done|done|done|by apply (SegBlock s i st)|exact Hx|done| |].
  - intros lba' Hm' Hs'. destruct (decide (data_off (entry_num s) (loff_of s lba'))) as [Hd|Hd].
    + rewrite (block_view s i st line lba') by done. f_equal. destruct (Z.eqb_spec lba' lba) as [->|]; [done|]. symmetry. by apply (Hend El Hb lba').
    + destruct (Z.eqb_spec lba' lba) as [->|_]; [done|]. rewrite (block_meta s _ lba' Hw ltac:(by rewrite Hs') Hok Hbl Hd).
      unfold seg_view. cbn [m_map m_lstream]. change (BLOCK_MAP =? NONE_MAP) with false. cbn iota. rewrite Hst. cbn [mbind option_bind].
      unfold get_in. rewrite Ht. cbn -[Z.ltb]. unfold get_block. cbn -[Z.ltb].
      assert ((loff_of s lba' <? 8) || (entry_num s - 17 <? loff_of s lba') = true) as ->; [|done].
      apply orb_true_iff. unfold data_off in Hd. destruct (Z.ltb_spec (loff_of s lba') 8); [by left|right]. apply Z.ltb_lt. lia.
  - rewrite F1. cbn [mbind option_bind]. by exists s3.
Qed.

(** *** Segments without a map *)

Lemma sector_stream s x : wf s → seg_ok s x → m_map x = NONE_MAP →
  x = {| m_map := NONE_MAP; m_lstream := 0; m_cached := false; seg_val_of := seg_val_of x |}.
Proof. intros Hw Hok Hn. by destruct Hok. Qed.

Lemma none_view s x lba : rd (bmap s) (lseg_of s lba) = Some x → m_map x = NONE_MAP → view s lba = ADDR_EMPTY.
Proof. intros Hx Hn. unfold view. rewrite Hx. cbn. unfold seg_view. by rewrite Hn. Qed.

(** The first map of a segment, with [p] for [lba]. *)
Lemma fresh_ok s x lba p l' :
  wf s → in_map s lba → rd (bmap s) (lseg_of s lba) = Some x → m_map x = NONE_MAP → addr_ok s p →
  wr (fresh_smap s) (loff_of s lba) p = Some l' →
  ∃ s', put_seg s (lseg_of s lba) (sector_seg l') = Some s' ∧ changed s s' lba p.
Proof.
  intros Hw Hm Hx Hn Hp Hwr. destruct (wf_streams _ Hw) as [_ _ _ (st & Hst & Ht)]. destruct (entry_num_eq s (wf_bits _ Hw)) as [_ Hen].
  assert (Hf : Forall (addr_ok s) (fresh_smap s)) by (by apply Forall_replicate).
  pose proof (Forall_wr _ _ _ _ _ Hf Hp Hwr) as Hl'.
  destruct (put_array_ok s lba p (fresh_smap s) l' (sector_seg l')) as (s' & E & Hw' & He & Hlen & Hu); try done.
  - apply (SegSector s 0 st); [done|done| |done]. rewrite (wr_length _ _ _ _ Hwr). unfold fresh_smap. rewrite length_replicate. lia.
  - intros lba' _ Hs. rewrite (none_view s x) by (by rewrite ?Hs). apply rd_Some. destruct (split_lba s lba' (wf_bits _ Hw)) as (_ & _ & Ho & _).
    split; [lia|]. apply lookup_replicate. split; [done|lia].
  - intros lba'. by apply (sector_view s 0 st).
  - exists s'. split; [done|]. split; [done..| |done]. apply (put_whole _ _ _ x _ E Hx). by rewrite Hn.
Qed.

Lemma fresh_wr s lba p : wf s → ∃ l', wr (fresh_smap s) (loff_of s lba) p = Some l'.
Proof.
  intros Hw. destruct (split_lba s lba (wf_bits _ Hw)) as (_ & _ & Ho & _). eexists. apply wr_in_range.
  unfold fresh_smap. rewrite length_replicate. lia.
Qed.

Lemma changed_in_map s s' lba p lba' : changed s s' lba p → in_map s' lba' ↔ in_map s lba'.
Proof. intros [_ He Hl _]. unfold in_map, lseg_of. by rewrite Hl, (es_fmt _ _ He). Qed.

Lemma changed_trans s s1 s2 lba q p : changed s s1 lba q → changed s1 s2 lba p → changed s s2 lba p.
Proof.
  intros H1 H2. pose proof H1 as [W1 E1 L1 B1 V1]. pose proof H2 as [W2 E2 L2 B2 V2].
  split; [done|by eapply env_same_trans|congruence|intros; by rewrite B2|]. intros lba' Hm. rewrite V2 by (by apply (changed_in_map s s1 lba q)).
  destruct (Z.eqb_spec lba' lba); [done|]. rewrite V1 by done. by rewrite (proj2 (Z.eqb_neq _ _)).
Qed.

Lemma changed_kept s s1 s2 lba p : changed s s1 lba p → kept s1 s2 → changed s s2 lba p.
Proof.
  intros H1 Hk. pose proof H1 as [W1 E1 L1 B1 V1].
  split; [apply Hk|by eapply env_same_trans; [|apply Hk]|by rewrite (kp_bmap _ _ Hk)|intros; by rewrite (kept_whole s1 s2)|].
  intros lba' Hm. rewrite (kept_view s1 s2) by done. by apply V1.
Qed.

(** *** The three changes *)

Lemma map_stream s x : wf s → seg_ok s x → m_map x ≠ NONE_MAP →
  ∃ st, rd (lstreams s) (m_lstream x) = Some st ∧ m_lstream x < nr_lstream s ∧
    (map_type st = SECTOR_MAP ∨ (map_type st = BLOCK_MAP ∧ is_block s x)).
Proof.
  intros Hw Hok Hn. destruct (seg_stream s x Hw Hok) as (st & Hst & [[Ht|Ht] _] & Hi); exists st; (split; [done|]); (split; [done|]); [by left|].
  right. split; [done|]. split; [done|]. by exists st.
Qed.

Lemma cache_map_set_ok s lba p :
  wf s → 0 ≤ lba < l_nr_secs s → addr_ok s p →
  (on_block s lba → data_off (entry_num s) (loff_of s lba) ∧ (has_log s lba ∨ loff_of s lba = 8)) →
  ∃ s', pblk_cache_map_set s lba p = Some s' ∧ changed s s' lba p.
Proof.
  intros Hw Hl Hp Hb. pose proof (sec_in_map s lba Hw Hl) as Hm. unfold pblk_cache_map_set.
  destruct (not_preinvalid_ok s lba Hw Hl) as (s1 & E1 & Hk1). rewrite E1. cbn [mbind option_bind].
  destruct (in_map_seg s lba Hw Hm) as (x & Hx & Hok). destruct (seg_after s s1 lba x Hk1 Hx Hok) as [Hx1 Hok1].
  rewrite <- (kept_lseg s s1 lba Hk1), Hx1. cbn [mbind option_bind]. pose proof (kp_wf _ _ Hk1) as Hw1.
  assert (Hm1 : in_map s1 lba) by (by apply (kept_in_map s s1)). destruct (Z.eqb_spec (m_map x) NONE_MAP) as [Hn|Hn].
  - destruct (change_wf s1 lba Hw1 Hm1) as (s2 & E2 & Hw2 & Hs2). rewrite E2. cbn [mbind option_bind]. pose proof (kept_same s1 s2 Hw2 Hs2) as Hk2.
    pose proof (l2p_kept_trans _ _ _ Hk1 Hk2) as Hk. destruct (fresh_wr s2 lba p Hw2) as [l' Hwr]. rewrite Hwr. cbn [mbind option_bind].
    destruct (seg_after s s2 lba x Hk Hx Hok) as [Hx2 Hok2].
    destruct (fresh_ok s2 x lba p l' Hw2) as (s' & E & Hch); try done; [by apply (kept_in_map s s2)|by apply (addr_ok_env s s2); [apply Hk|]|].
    rewrite (kept_lseg s1 s2 lba Hk2) in E. exists s'. split; [done|]. by apply (changed_after s s2).
  - destruct (load_kept s1 lba true Hw1 Hm1) as (s2 & E2 & Hk2). rewrite E2. cbn [mbind option_bind]. pose proof (l2p_kept_trans _ _ _ Hk1 Hk2) as Hk.
    destruct (seg_after s s2 lba x Hk Hx Hok) as [Hx2 Hok2]. pose proof (kp_wf _ _ Hk) as Hw2.
    destruct (map_stream s2 x Hw2 Hok2 Hn) as (st & Hst & Hi & Ht). rewrite (proj2 (Z.ltb_lt _ _)) by done. cbn [ensure mbind option_bind].
    rewrite Hst. cbn [mbind option_bind]. assert (Hm2 : in_map s2 lba) by (by apply (kept_in_map s s2)).
    assert (Hp2 : addr_ok s2 p) by (by apply (addr_ok_env s s2); [apply Hk|]). destruct Ht as [Ht|[Ht Hbl]]; rewrite Ht.
    + rewrite Z.eqb_refl. destruct (sector_changed s2 x st lba p) as (s' & E & Hch); try done.
      exists s'. split; [done|by apply (changed_after s s2)].
    + change (BLOCK_MAP =? SECTOR_MAP) with false. rewrite Z.eqb_refl. cbn iota.
      assert (on_block s lba) as Hob by (exists x; split; [done|by apply (is_block_after s s2)]). destruct (Hb Hob) as [Ho Hlog].
      destruct (cache_set_block_ok s2 x lba p) as (s' & E & Hch); try done; rewrite ?(kept_loff s s2 lba Hk), ?(entry_num_env s s2 (kp_env _ _ Hk)); [done| |].
      * destruct Hlog as [(x' & Hx' & Hc)|?]; [left; congruence|by right].
      * exists s'. split; [done|]. by apply (changed_after s s2).
Qed.

(** What [pblk_trans_map_set] does once the segment has a map. *)
Definition trans_rest (s : l2p) (x : seg) (lba : Z) (p : ppa_addr) : option l2p :=
  let g := lseg_of s lba in
  s ← pblk_load_cmt s g true;
  _ ← ensure (m_lstream x <? nr_lstream s);
  st ← rd (lstreams s) (m_lstream x);
  if map_type st =? SECTOR_MAP then set_sector s x lba p
  else if map_type st =? BLOCK_MAP then trans_set_block s x lba p
  else if map_type st =? PAGE_MAP then
    _ ← ensure (m_map x =? PAGE_MAP);
    s ← set_in_page s lba p;
    if last_of_page s lba && negb (pblk_addr_in_cache p) then close_page s g lba page_of_set else Some s
  else None.

(** When a change of a segment that is mapped as a whole is exact. *)
Definition trans_rule (s : l2p) (lba : Z) (p : ppa_addr) : Prop :=
  on_block s lba → data_off (entry_num s) (loff_of s lba) ∧
    (loff_of s lba = entry_num s - 17 → p = ADDR_EMPTY → view s (lba - loff_of s lba + 8) = ADDR_EMPTY → others s lba (λ _ q, q = ADDR_EMPTY)).

Lemma others_after s s1 lba P : kept s s1 → others s lba P → others s1 lba P.
Proof.
  intros Hk H lba' Hm Hs Hne. rewrite !(kept_lseg s s1) in Hs by done. rewrite (kept_view s s1) by done.
  apply H; [by apply (kept_in_map s s1)|done|done].
Qed.

Lemma trans_rest_ok s x lba p :
  wf s → in_map s lba → rd (bmap s) (lseg_of s lba) = Some x → seg_ok s x → m_map x ≠ NONE_MAP → addr_ok s p → trans_rule s lba p →
  ∃ s', trans_rest s x lba p = Some s' ∧ changed s s' lba p.
Proof.
  intros Hw Hm Hx Hok Hn Hp Hr. unfold trans_rest. cbn zeta. destruct (load_kept s lba true Hw Hm) as (s2 & E2 & Hk). rewrite E2.
  cbn [mbind option_bind].
  destruct (seg_after s s2 lba x Hk Hx Hok) as [Hx2 Hok2]. pose proof (kp_wf _ _ Hk) as Hw2.
  destruct (map_stream s2 x Hw2 Hok2 Hn) as (st & Hst & Hi & Ht). rewrite (proj2 (Z.ltb_lt _ _)) by done. cbn [ensure mbind option_bind].
  rewrite Hst. cbn [mbind option_bind]. assert (Hm2 : in_map s2 lba) by (by apply (kept_in_map s s2)).
  assert (Hp2 : addr_ok s2 p) by (by apply (addr_ok_env s s2); [apply Hk|]). destruct Ht as [Ht|[Ht Hbl]]; rewrite Ht.
  - rewrite Z.eqb_refl. destruct (sector_changed s2 x st lba p) as (s' & E & Hch); try done.
    exists s'. split; [done|by apply (changed_after s s2)].
  - change (BLOCK_MAP =? SECTOR_MAP) with false. rewrite Z.eqb_refl. cbn iota.
    assert (on_block s lba) as Hob by (exists x; split; [done|by apply (is_block_after s s2)]). destruct (Hr Hob) as [Ho Hend].
    pose proof (entry_num_env s s2 (kp_env _ _ Hk)) as En.
    destruct (trans_set_block_ok s2 x lba p) as (s' & E & Hch); try done; rewrite ?(kept_loff s s2 lba Hk), ?En; [done| |].
    + intros H1 H2 H3. rewrite (kept_view s s2) in H3 by done. by apply (others_after s s2), Hend.
    + exists s'. split; [done|]. by apply (changed_after s s2).
Qed.

Lemma trans_map_set_ok s lba p :
  wf s → 0 ≤ lba < l_nr_secs s → addr_ok s p → trans_rule s lba p → ∃ s', pblk_trans_map_set s lba p = Some s' ∧ changed s s' lba p.
Proof.
  intros Hw Hl Hp Hr. pose proof (sec_in_map s lba Hw Hl) as Hm. unfold pblk_trans_map_set.
  destruct (not_preinvalid_ok s lba Hw Hl) as (s1 & E1 & Hk1). rewrite E1. cbn [mbind option_bind].
  destruct (in_map_seg s lba Hw Hm) as (x & Hx & Hok). destruct (seg_after s s1 lba x Hk1 Hx Hok) as [Hx1 Hok1].
  rewrite <- (kept_lseg s s1 lba Hk1), Hx1. cbn [mbind option_bind]. pose proof (kp_wf _ _ Hk1) as Hw1.
  assert (Hm1 : in_map s1 lba) by (by apply (kept_in_map s s1)).
  assert (Hp1 : addr_ok s1 p) by (by apply (addr_ok_env s s1); [apply Hk1|]). destruct (Z.eqb_spec (m_map x) NONE_MAP) as [Hn|Hn].
  - assert (Hwr : wr (fresh_smap s1) (loff_of s1 lba) ADDR_EMPTY = Some (fresh_smap s1)).
    { destruct (split_lba s1 lba (wf_bits _ Hw1)) as (_ & _ & Ho & _). rewrite wr_in_range by (unfold fresh_smap; rewrite length_replicate; lia).
      f_equal. apply list_insert_id. apply lookup_replicate. split; [done|lia]. }
    destruct (fresh_ok s1 x lba ADDR_EMPTY _ Hw1 Hm1 Hx1 Hn I Hwr) as (s2 & E2 & Hc2). rewrite E2. cbn [mbind option_bind].
    pose proof (ch_wf _ _ _ _ Hc2) as Hw2. assert (Hm2 : in_map s2 lba) by (by apply (changed_in_map s1 s2 lba ADDR_EMPTY)).
    assert (Hls : lseg_of s2 lba = lseg_of s1 lba) by (unfold lseg_of; by rewrite (es_fmt _ _ (ch_env _ _ _ _ Hc2))).
    destruct (change_wf s2 lba Hw2 Hm2) as (s3 & E3 & Hw3 & Hs3). rewrite Hls in E3. rewrite E3. cbn [mbind option_bind].
    pose proof (kept_same s2 s3 Hw3 Hs3) as Hk3. pose proof (changed_kept _ _ _ _ _ Hc2 Hk3) as Hc3.
    assert (Hx3 : rd (bmap s3) (lseg_of s3 lba) = Some (sector_seg (fresh_smap s1)) ∧ seg_ok s3 (sector_seg (fresh_smap s1))).
    { unfold put_seg in E2. apply bind_Some in E2 as (m & Em & E2). injection E2 as E2.
      assert (Hx2 : rd (bmap s2) (lseg_of s2 lba) = Some (sector_seg (fresh_smap s1))).
      { rewrite Hls, <- E2. cbn. rewrite (rd_wr _ _ _ _ _ Em). by rewrite decide_True. }
      apply (seg_after s2 s3); [done|done|]. destruct (in_map_seg s2 lba Hw2 Hm2) as (y & Hy & Hoky). congruence. }
    destruct Hx3 as [Hx3 Hok3]. assert (Hls3 : lseg_of s3 lba = lseg_of s1 lba) by (by rewrite (kept_lseg s2 s3)).
    destruct (trans_rest_ok s3 (sector_seg (fresh_smap s1)) lba p) as (s' & E & Hch); try done.
    + by apply (kept_in_map s2 s3).
    + by apply (addr_ok_env s1 s3); [apply Hc3|].
    + intros (y & Hy & _ & st & Hst & Ht). assert (y = sector_seg (fresh_smap s1)) as -> by congruence. exfalso. cbn [sector_seg m_lstream] in Hst.
      destruct (wf_streams _ Hw3) as [_ _ _ (st0 & Hst0 & Ht0)]. rewrite Hst0 in Hst. injection Hst as <-. pose proof types_differ.
      intuition congruence.
    + exists s'. unfold trans_rest in E. cbn zeta in E. rewrite Hls3 in E. split; [exact E|]. apply (changed_after s s1); [done|].
      by apply (changed_trans s1 s3 s' lba ADDR_EMPTY).
  - cbn [mbind option_bind]. destruct (trans_rest_ok s1 x lba p) as (s' & E & Hch); try done.
    + intros (y & Hy & Hbl). assert (y = x) as -> by congruence. destruct Hr as [Ho Hend]; [exists x; split; [done|by apply (is_block_after s s1)]|].
      rewrite (kept_loff s s1 lba Hk1), (entry_num_env s s1 (kp_env _ _ Hk1)). split; [done|].
      intros H1 H2 H3. rewrite (kept_view s s1) in H3 by done. by apply (others_after s s1), Hend.
    + exists s'. split; [exact E|]. by apply (changed_after s s1).
Qed.

(** Sectors without data of a segment that is mapped as a whole do not change. *)
Lemma trans_map_set_meta s lba p :
  wf s → 0 ≤ lba < l_nr_secs s → on_block s lba → ¬ data_off (entry_num s) (loff_of s lba) →
  ∃ s', pblk_trans_map_set s lba p = Some s' ∧ kept s s'.
Proof.
  intros Hw Hl (x & Hx & Hbl) Ho. pose proof (sec_in_map s lba Hw Hl) as Hm. unfold pblk_trans_map_set.
  destruct (in_map_seg s lba Hw Hm) as (y & Hy & Hok). assert (y = x) as -> by congruence.
  destruct (not_preinvalid_ok s lba Hw Hl) as (s1 & E1 & Hk1). rewrite E1. cbn [mbind option_bind].
  destruct (seg_after s s1 lba x Hk1 Hx Hok) as [Hx1 Hok1].
  rewrite <- (kept_lseg s s1 lba Hk1), Hx1. cbn [mbind option_bind]. pose proof (kp_wf _ _ Hk1) as Hw1.
  rewrite (proj2 (Z.eqb_neq (m_map x) NONE_MAP)) by apply Hbl. cbn [mbind option_bind].
  destruct (load_kept s1 lba true Hw1) as (s2 & E2 & Hk2); [by apply (kept_in_map s s1)|]. rewrite E2. cbn [mbind option_bind].
  pose proof (l2p_kept_trans _ _ _ Hk1 Hk2) as Hk. destruct (seg_after s s2 lba x Hk Hx Hok) as [Hx2 Hok2].
  destruct (map_stream s2 x (kp_wf _ _ Hk) Hok2) as (st & Hst & Hi & _); [apply Hbl|]. rewrite (proj2 (Z.ltb_lt _ _)) by done.
  cbn [ensure mbind option_bind].
  rewrite Hst. cbn [mbind option_bind]. destruct Hbl as (_ & st' & Hst' & Ht). rewrite (es_streams _ _ (kp_env _ _ Hk)) in Hst.
  assert (st' = st) as -> by congruence. rewrite Ht. change (BLOCK_MAP =? SECTOR_MAP) with false. rewrite Z.eqb_refl. cbn iota.
  unfold trans_set_block. rewrite (kept_loff s s2 lba Hk), (entry_num_env s s2 (kp_env _ _ Hk)).
  assert ((loff_of s lba <? 8) || (entry_num s - 16 <=? loff_of s lba) = true) as ->; [|by exists s2].
  apply orb_true_iff. unfold data_off in Ho. destruct (Z.ltb_spec (loff_of s lba) 8); [by left|right]. apply Z.leb_le. lia.
Qed.

(** An address of the device for a sector of the buffer. *)
Definition dev_rule (s : l2p) (lba : Z) (p : ppa_addr) : Prop :=
  on_block s lba → has_log s lba ∧ data_off (entry_num s) (loff_of s lba) ∧ ∃ line, 0 ≤ line < l_nr_lines s ∧ p = addr_to_gen_ppa (l_fmt s) lba line ∧
    (loff_of s lba = entry_num s - 17 → pblk_dev_ppa_to_line (view s (lba - loff_of s lba + 8)) = Some line →
     others s lba (λ lba' q, data_off (entry_num s) (loff_of s lba') → q = addr_to_gen_ppa (l_fmt s) lba' line)).

Lemma dev_map_set_ok s lba p :
  wf s → in_map s lba → addr_ok s p → view s lba ≠ ADDR_EMPTY → dev_rule s lba p → ∃ s', pblk_dev_map_set s lba p = Some s' ∧ changed s s' lba p.
Proof.
  intros Hw Hm Hp Hv Hr. unfold pblk_dev_map_set. destruct (in_map_seg s lba Hw Hm) as (x & Hx & Hok). rewrite Hx. cbn [mbind option_bind].
  assert (Hn : m_map x ≠ NONE_MAP) by (intros Hn; by apply Hv, (none_view s x)).
  destruct (map_stream s x Hw Hok Hn) as (st & Hst & Hi & Ht). rewrite (proj2 (Z.ltb_lt _ _)) by done. cbn [ensure mbind option_bind].
  rewrite Hst. cbn [mbind option_bind]. destruct (load_kept s lba true Hw Hm) as (s2 & E2 & Hk). rewrite E2. cbn [mbind option_bind].
  destruct (seg_after s s2 lba x Hk Hx Hok) as [Hx2 Hok2]. pose proof (kp_wf _ _ Hk) as Hw2. pose proof (es_streams _ _ (kp_env _ _ Hk)) as Es.
  assert (Hm2 : in_map s2 lba) by (by apply (kept_in_map s s2)). destruct Ht as [Ht|[Ht Hbl]]; rewrite Ht.
  - rewrite Z.eqb_refl. destruct (sector_changed s2 x st lba p) as (s' & E & Hch); try done; [by rewrite Es|by apply (addr_ok_env s s2); [apply Hk|]|].
    exists s'. split; [done|by apply (changed_after s s2)].
  - change (BLOCK_MAP =? SECTOR_MAP) with false. rewrite Z.eqb_refl. cbn iota.
    destruct Hr as ((y & Hy & Hc) & Ho & line & Hline & -> & Hend); [by exists x|]. assert (y = x) as -> by congruence.
    pose proof (entry_num_env s s2 (kp_env _ _ Hk)) as En. pose proof (es_fmt _ _ (kp_env _ _ Hk)) as Ef. rewrite <- Ef.
    destruct (dev_set_block_ok s2 x lba line) as (s' & E & Hch); try done; rewrite ?(kept_loff s s2 lba Hk), ?En, ?(es_lines _ _ (kp_env _ _ Hk)); try done.
    + by apply (is_block_after s s2).
    + intros H1 H2. rewrite (kept_view s s2) in H2 by done. intros lba' Hm' Hs' Hne Hd. rewrite !(kept_lseg s s2) in Hs' by done.
      rewrite (kept_view s s2), Ef by done. rewrite (kept_loff s s2) in Hd by done. apply (Hend H1 H2); [by apply (kept_in_map s s2)|done|done|done].
    + exists s'. split; [done|]. by apply (changed_after s s2).
Qed.
