(* ===== verification/PblkMapRun.v ===== *)
(** * The map of pblk: requests

    What the updates, lookups and discards of pblk-core.c and the changes of streams do to the map, each
    from what the map says of the sectors. *)

From stdpp Require Import functions.
From S2P Require Import Prelude RingBuffer PblkAddr PblkLine PblkInit PblkMap PblkMapInv.

Open Scope Z_scope.

(** ** States with the same segments *)

Lemma rd_map {A B} (f : A → B) l i : rd (f <$> l) i = f <$> rd l i.
Proof. unfold rd. destruct (0 <=? i); [apply list_lookup_fmap|done]. Qed.

(** What no request changes. *)
Record frame (s s' : l2p) : Prop := {
  fr_fmt : l_fmt s' = l_fmt s;
  fr_lines : l_nr_lines s' = l_nr_lines s;
  fr_secs : l_nr_secs s' = l_nr_secs s;
  fr_rwbs : rwbs s' = rwbs s;
  fr_nr : nr_lstream s' = nr_lstream s;
  fr_types : map_type <$> lstreams s' = map_type <$> lstreams s;
  fr_len : length (bmap s') = length (bmap s)
}.

Lemma frame_refl s : frame s s.
Proof. by split. Qed.

Lemma l2p_frame_trans s1 s2 s3 : frame s1 s2 → frame s2 s3 → frame s1 s3.
Proof. intros [] []. split; congruence. Qed.

Lemma env_frame s s' : env_same s s' → length (bmap s') = length (bmap s) → frame s s'.
Proof. intros [] Hl. split; congruence. Qed.

(** States that say the same of each sector, for the same reason. *)
Record alike (s s' : l2p) : Prop := { al_wf : wf s'; al_frame : frame s s'; al_bmap : bmap s' = bmap s }.

Lemma kept_alike s s' : kept s s' → alike s s'.
Proof. intros [Hw He Hb]. split; [done|apply env_frame; [done|by rewrite Hb]|done]. Qed.

Lemma alike_trans s1 s2 s3 : alike s1 s2 → alike s2 s3 → alike s1 s3.
Proof. intros [] []. split; [done|by eapply l2p_frame_trans|congruence]. Qed.

Section Frame.
Context (s s' : l2p) (Hf : frame s s').

Lemma frame_lseg lba : lseg_of s' lba = lseg_of s lba.
Proof using Hf. unfold lseg_of. by rewrite (fr_fmt _ _ Hf). Qed.

Lemma frame_entry_num : entry_num s' = entry_num s.
Proof using Hf. unfold entry_num. by rewrite (fr_fmt _ _ Hf). Qed.

Lemma frame_loff lba : loff_of s' lba = loff_of s lba.
Proof using Hf. unfold loff_of. by rewrite frame_entry_num. Qed.

Lemma frame_in_map lba : in_map s' lba ↔ in_map s lba.
Proof using Hf. unfold in_map. by rewrite frame_lseg, (fr_len _ _ Hf). Qed.

Lemma frame_addr_ok p : addr_ok s' p ↔ addr_ok s p.
Proof using Hf. unfold addr_ok. by rewrite (fr_lines _ _ Hf), (fr_rwbs _ _ Hf). Qed.

Lemma frame_type i : map_type <$> rd (lstreams s') i = map_type <$> rd (lstreams s) i.
Proof using Hf. by rewrite <- !rd_map, (fr_types _ _ Hf). Qed.

Lemma frame_is_block x : is_block s' x ↔ is_block s x.
Proof using Hf.
  unfold is_block. f_equiv. pose proof (frame_type (m_lstream x)) as H.
  destruct (rd (lstreams s') _) as [a|], (rd (lstreams s) _) as [b|]; simplify_eq/=; [|naive_solver].
  split; intros (st & [= <-] & Ht); eexists; (split; [done|congruence]).
Qed.

Lemma frame_seg_view x lba : seg_view s' x lba = seg_view s x lba.
Proof using Hf.
  unfold seg_view. pose proof (frame_type (m_lstream x)) as H. destruct (_ =? _); [done|].
  destruct (rd (lstreams s') _) as [a|], (rd (lstreams s) _) as [b|]; simplify_eq/=; [|done].
  unfold get_in, get_sector, get_block, get_page, block_addr, pindex_of, poffset_of. rewrite !frame_loff, !frame_entry_num.
  by rewrite H, (fr_fmt _ _ Hf), (fr_lines _ _ Hf).
Qed.
End Frame.

Section Alike.
Context (s s' : l2p) (Ha : alike s s').

Lemma alike_view lba : view s' lba = view s lba.
Proof using Ha.
  destruct Ha as [_ Hf Hb]. unfold view. rewrite (frame_lseg s s'), Hb by done. destruct (rd (bmap s) _); [|done]. cbn.
  by rewrite (frame_seg_view s s').
Qed.

Lemma alike_whole lba : whole s' lba = whole s lba.
Proof using Ha. destruct Ha as [_ Hf Hb]. unfold whole. by rewrite (frame_lseg s s'), Hb by done. Qed.

Lemma alike_on_block lba : on_block s' lba ↔ on_block s lba.
Proof using Ha.
  destruct Ha as [_ Hf Hb]. unfold on_block. rewrite (frame_lseg s s'), Hb by done. f_equiv. intros x. by rewrite (frame_is_block s s').
Qed.

Lemma alike_has_log lba : has_log s' lba ↔ has_log s lba.
Proof using Ha. destruct Ha as [_ Hf Hb]. unfold has_log. by rewrite (frame_lseg s s'), Hb by done. Qed.

Lemma alike_others lba P : others s lba P → others s' lba P.
Proof using Ha.
  intros H lba' Hm Hs Hne. pose proof (al_frame _ _ Ha) as Hf. rewrite !(frame_lseg s s') in Hs by done. rewrite alike_view.
  apply H; [by apply (frame_in_map s s')|done|done].
Qed.

Lemma alike_trans_rule lba p : trans_rule s lba p → trans_rule s' lba p.
Proof using Ha.
  intros H Hb. pose proof (al_frame _ _ Ha) as Hf. rewrite (frame_entry_num s s'), (frame_loff s s'), alike_view by done.
  apply alike_on_block in Hb. destruct (H Hb) as [H1 H2]. split; [done|]. intros. by apply alike_others, H2.
Qed.

Lemma alike_dev_rule lba p : dev_rule s lba p → dev_rule s' lba p.
Proof using Ha.
  intros H Hb. pose proof (al_frame _ _ Ha) as Hf. apply alike_on_block in Hb. destruct (H Hb) as (H1 & H2 & line & H3 & H4 & H5).
  rewrite alike_has_log, (frame_entry_num s s'), (frame_loff s s'), alike_view, (fr_fmt _ _ Hf), (fr_lines _ _ Hf) by done.
  split; [done|]. split; [done|]. exists line. split; [done|]. split; [done|]. intros H6 H7 lba' Hm Hs Hne Hd.
  rewrite (frame_loff s s') in Hd by done. by apply (alike_others lba _ (H5 H6 H7) lba' Hm Hs Hne).
Qed.
End Alike.

(** The map does not depend on the lines that were invalidated last nor on the addresses that were. *)
Lemma wf_like s s' :
  wf s → bmap s' = bmap s → alloc_res s' = alloc_res s → max_res s' = max_res s → map_list s' = map_list s → preinvalid_map s' = preinvalid_map s →
  frame s s' → log_size <$> lstreams s' = log_size <$> lstreams s → alike s s'.
Proof.
  intros Hw Hb H1 H2 H3 H4 Hf Hlog. split; [|done|done]. pose proof (frame_entry_num s s' Hf) as En.
  destruct Hw as [[] Hfmt Hbits Hsecs Hlen Hpre [S1 S2 S3 S4] Hsegs Hrings].
  assert (Hls : length (lstreams s') = length (lstreams s)) by (rewrite <- (length_fmap map_type), (fr_types _ _ Hf); apply length_fmap).
  assert (Hst : ∀ i st, rd (lstreams s) i = Some st → ∃ st', rd (lstreams s') i = Some st' ∧ map_type st' = map_type st).
  { intros i st Hi. pose proof (frame_type s s' Hf i) as H. rewrite Hi in H. destruct (rd (lstreams s') i) as [st'|]; [|done].
    exists st'. split; [done|]. by injection H. }
  split; rewrite ?Hb, ?En, ?H4, ?(fr_fmt _ _ Hf), ?(fr_secs _ _ Hf), ?(fr_rwbs _ _ Hf); try done.
  - split; rewrite ?H1, ?H2, ?H3; done.
  - split; rewrite ?En, ?Hls, ?(fr_nr _ _ Hf), ?(fr_rwbs _ _ Hf); [done|done| |].
    + apply Forall_lookup_2. intros i st' Hi.
      assert (H : is_Some (lstreams s !! i)) by (apply lookup_lt_is_Some; rewrite <- Hls; by eapply lookup_lt_Some).
      destruct H as [st Hi']. pose proof (Forall_lookup_1 _ _ _ _ S3 Hi') as [T1 T2].
      pose proof (f_equal (.!! i) (fr_types _ _ Hf)) as E1. pose proof (f_equal (.!! i) Hlog) as E2. cbn beta in E1, E2.
      rewrite !list_lookup_fmap, Hi, Hi' in E1, E2. injection E1 as E1. injection E2 as E2.
      split; by rewrite ?E1, ?E2.
    + destruct S4 as (st & Hi & Ht). destruct (Hst _ _ Hi) as (st' & Hi' & Ht'). exists st'. split; [done|congruence].
  - apply (Forall_impl _ _ _ Hsegs). intros x Hx. assert (Ha : ∀ l, Forall (addr_ok s) l → Forall (addr_ok s') l).
    { intros l Hl. apply (Forall_impl _ _ _ Hl). intros p. by rewrite (frame_addr_ok s s'). }
    destruct Hx as [|i st l Hi Ht Hl Hok|i st l Hi Ht Hl Hok|i st Hi Ht|i st blk Hi Ht]; [constructor|destruct (Hst _ _ Hi) as (st' & Hi' & Ht')..];
      econstructor; rewrite ?En, ?(fr_lines _ _ Hf), ?Ht'; eauto.
Qed.

(** ** What a request does *)

Definition is_dev (p : ppa_addr) : bool := match p with Dev _ _ _ _ _ _ => true | _ => false end.

(** The addresses of the device among [l], the last one first. *)
Definition dead (l : list ppa_addr) : list ppa_addr := reverse (filter (λ p, is_dev p = true) l).

Lemma dead_app l1 l2 : dead (l1 ++ l2) = dead l2 ++ dead l1.
Proof. unfold dead. by rewrite filter_app, reverse_app. Qed.

Lemma dead_cons p l : dead (p :: l) = dead l ++ dead [p].
Proof. apply (dead_app [p]). Qed.

(** After a request the map is [m] and the addresses [d] have been invalidated. *)
Record after (s s' : l2p) (m : Z → ppa_addr) (d : list ppa_addr) : Prop := {
  af_wf : wf s';
  af_frame : frame s s';
  af_whole : ∀ lba, whole s' lba = whole s lba;
  af_view : ∀ lba, view s' lba = m lba;
  af_dead : invalidated s' = d
}.

Lemma after_trans s s1 s2 m1 d1 m2 d2 : after s s1 m1 d1 → after s1 s2 m2 d2 → after s s2 m2 d2.
Proof. intros [] []. split; [done|by eapply l2p_frame_trans|congruence|done|done]. Qed.

Lemma after_ext s s' m m' d d' : after s s' m d → (∀ lba, m lba = m' lba) → d = d' → after s s' m' d'.
Proof. intros [] H <-. split; [done..| |done]. intros. by rewrite <- H. Qed.

Lemma alike_after s s' : alike s s' → after s s' (view s) (invalidated s').
Proof. intros Ha. split; [apply Ha|apply Ha|apply (alike_whole s s' Ha)|apply (alike_view s s' Ha)|done]. Qed.

Lemma kept_after s s' : kept s s' → after s s' (view s) (invalidated s).
Proof. intros Hk. rewrite <- (es_inv _ _ (kp_env _ _ Hk)). by apply alike_after, kept_alike. Qed.

Lemma view_out s lba : ¬ in_map s lba → 5 ≤ blk_offset (l_fmt s) ≤ 15 → view s lba = ADDR_EMPTY.
Proof.
  intros Hm Hb. unfold view. rewrite (proj2 (rd_None _ _)); [done|]. intros H. apply Hm. split; [|lia].
  destruct (split_lba s lba Hb) as (_ & _ & H1 & H2).
  destruct (entry_num_eq s Hb). nia.
Qed.

Lemma changed_after_set s s' lba p : wf s → in_map s lba → changed s s' lba p → after s s' (<[lba := p]> (view s)) (invalidated s).
Proof.
  intros Hw Hm [Hw' He Hl Hwh Hv]. pose proof (env_frame s s' He Hl) as Hf. split; [done|done|done| |by rewrite (es_inv _ _ He)].
  intros lba'. destruct (decide (in_map s lba')) as [Hm'|Hm'].
  - rewrite (Hv lba' Hm'). destruct (Z.eqb_spec lba' lba) as [->|Hn]; [by rewrite fn_lookup_insert|by rewrite fn_lookup_insert_ne].
  - rewrite fn_lookup_insert_ne by congruence. rewrite !view_out; [done|done|apply Hw|by rewrite (frame_in_map s s')|apply Hw'].
Qed.

(** ** The buffers *)

Lemma entry_plain s line nrb r : wf s → addr_ok s (Cache line nrb r) → ∃ rb pos e, rb_entry s line nrb = Some (rb, pos, e) ∧ plain e.
Proof.
  intros Hw [Hl Hn]. unfold rb_entry. destruct (rd_is_Some (rwbs s) nrb Hn) as [rb Hrb]. rewrite Hrb. cbn [mbind option_bind].
  pose proof (rd_Forall _ _ _ _ (wf_rings _ Hw) Hrb) as [(k & Hk & En) Hlen Hp]. unfold pblk_rb_wrap_pos. rewrite En, land_mask by done.
  destruct (rd_is_Some (entries rb) (line mod 2 ^ k)) as [e He]; [rewrite Hlen, En; apply Z.mod_pos_bound; lia|].
  rewrite He. cbn [mbind option_bind]. do 3 eexists. split; [done|]. by apply (rd_Forall _ _ _ _ Hp He).
Qed.

(** No entry is reserved, so an address of the buffer is left as it is. *)
Lemma cache_invalidate_ok s p : wf s → addr_ok s p → pblk_cache_invalidate s p = Some (s, p).
Proof.
  intros Hw Hp. destruct p as [|line nrb r|]; [done| |done]. unfold pblk_cache_invalidate.
  destruct (entry_plain s line nrb r Hw Hp) as (rb & pos & e & -> & H1 & H2). cbn [mbind option_bind]. cbn zeta. rewrite H1, H2.
  by destruct (has _ PBLK_INVALIDATE_ENTRY).
Qed.

Lemma reserved_old_ok s p : wf s → addr_ok s p → pblk_get_reserved_old_addr s p = Some p.
Proof.
  intros Hw Hp. destruct p as [|line nrb r|]; [done| |done]. unfold pblk_get_reserved_old_addr.
  destruct (entry_plain s line nrb r Hw Hp) as (rb & pos & e & -> & H1 & H2). cbn [mbind option_bind]. cbn zeta. rewrite H1, H2.
  by destruct (_ || has _ PBLK_SUBMITTED_ENTRY).
Qed.

(** Where a sector is: for an entry of the buffer that was submitted, where it is being written to. *)
Definition landed_in (rbs : list pblk_rb) (p : ppa_addr) : ppa_addr :=
  match p with
  | Cache line nrb _ =>
      default p (
        rb ← rd rbs nrb;
        e ← rd (entries rb) (pblk_rb_wrap_pos rb line);
        let f := flags (w_ctx e) in
        Some (if negb (has f PBLK_WRITTEN_DATA) && has f PBLK_SUBMITTED_ENTRY then ppa (w_ctx e) else p))
  | _ => p
  end.

Definition landed (s : l2p) (p : ppa_addr) : ppa_addr := landed_in (rwbs s) p.

Lemma landed_ok s p : wf s → addr_ok s p → pblk_get_reserved_old_addr2 s p = Some (landed s p).
Proof.
  intros Hw Hp. unfold landed, landed_in. destruct p as [|line nrb r|]; [done| |done]. unfold pblk_get_reserved_old_addr2.
  destruct (entry_plain s line nrb r Hw Hp) as (rb & pos & e & E & H1 & H2). rewrite E. cbn [mbind option_bind]. unfold rb_entry in E.
  apply bind_Some in E as (rb' & -> & E). apply bind_Some in E as (e' & He & [= -> <- ->]). cbn [mbind option_bind]. rewrite He.
  cbn [mbind option_bind]. cbn zeta.
  rewrite H1, H2, !orb_false_r. by destruct (has _ PBLK_WRITTEN_DATA), (has _ PBLK_SUBMITTED_ENTRY).
Qed.

Lemma frame_landed s s' p : frame s s' → landed s' p = landed s p.
Proof. intros Hf. unfold landed. by rewrite (fr_rwbs _ _ Hf). Qed.

(** ** Updates *)

Lemma set_inv_alike s d : wf s → alike s (s <| invalidated := d |>).
Proof. intros Hw. by apply wf_like. Qed.

Lemma warn_alike s : wf s → alike s (warn s).
Proof. intros Hw. by apply wf_like. Qed.

Lemma map_invalidate_ok s p : wf s → addr_ok s p → is_dev p = true → ∃ s', pblk_map_invalidate s p = Some s' ∧ alike s s' ∧ invalidated s' = p :: invalidated s.
Proof.
  intros Hw Hp Hd. destruct p as [| |blk pg lun ch pl sec]; [done..|]. cbn in Hp. unfold pblk_map_invalidate.
  cbn [pblk_tgt_ppa_to_line mbind option_bind].
  rewrite (proj2 (Z.ltb_lt _ _)) by lia. cbn [ensure mbind option_bind]. eexists. split; [done|]. split; [|done]. by apply wf_like.
Qed.

Lemma drop_addr_ok s p : wf s → addr_ok s p → ∃ s', drop_addr s p = Some s' ∧ alike s s' ∧ invalidated s' = dead [p] ++ invalidated s.
Proof.
  intros Hw Hp. unfold drop_addr. destruct (is_dev p) eqn:Hd.
  - destruct (map_invalidate_ok s p Hw Hp Hd) as (s' & E & Ha & Hi). exists s'. unfold dead. rewrite filter_cons_True by done. by destruct p.
  - exists s. unfold dead. rewrite filter_cons_False by (by rewrite Hd). split; [by destruct p|]. split; [|done]. by apply wf_like.
Qed.

Lemma view_addr_ok s lba : wf s → addr_ok s (view s lba).
Proof.
  intros Hw. destruct (decide (in_map s lba)) as [Hm|Hm]; [|rewrite view_out; [done|done|apply Hw]].
  destruct (in_map_seg s lba Hw Hm) as (x & Hx & Hok). by apply (view_eq s x lba Hw Hx Hok).
Qed.

(** Reading a sector and invalidating its address, as most requests begin. *)
Lemma get_drop_ok s lba :
  wf s → in_map s lba → ∃ s1 s2, pblk_trans_map_get s lba = Some (s1, view s lba) ∧ wf s1 ∧ addr_ok s1 (view s lba) ∧
    drop_addr s1 (view s lba) = Some s2 ∧ alike s s2 ∧ invalidated s2 = dead [view s lba] ++ invalidated s.
Proof.
  intros Hw Hm. destruct (get_ok s lba Hw Hm) as (s1 & E1 & Hw1 & Hs1). pose proof (kept_same _ _ Hw1 Hs1) as Hk.
  pose proof (kept_alike _ _ Hk) as Ha.
  assert (Hp : addr_ok s1 (view s lba)) by (apply (frame_addr_ok s s1); [apply Ha|by apply view_addr_ok]).
  destruct (drop_addr_ok s1 (view s lba) Hw1 Hp) as (s2 & E2 & Ha2 & Hi). exists s1, s2. do 4 (split; [done|]).
  split; [by eapply alike_trans|]. by rewrite Hi, (es_inv _ _ (kp_env _ _ Hk)).
Qed.

(** A change after which [lba] is at [p], once the old address was invalidated. *)
Lemma drop_then_set s s2 s' lba p :
  wf s → in_map s lba → alike s s2 → invalidated s2 = dead [view s lba] ++ invalidated s → changed s2 s' lba p →
  after s s' (<[lba := p]> (view s)) (dead [view s lba] ++ invalidated s).
Proof.
  intros Hw Hm Ha Hi Hch. eapply after_trans; [by apply alike_after|]. eapply after_ext; [apply changed_after_set; [apply Ha| |done]| |done].
  - apply (frame_in_map s s2); [apply Ha|done].
  - intros lba'. destruct (decide (lba = lba')) as [->|]; [by rewrite !fn_lookup_insert|]. rewrite !fn_lookup_insert_ne by done. by apply alike_view.
Qed.

Lemma update_map_ok s lba p :
  wf s → 0 ≤ lba < l_nr_secs s → addr_ok s p → trans_rule s lba p →
  ∃ s', pblk_update_map s lba p = Some s' ∧ after s s' (<[lba := p]> (view s)) (dead [view s lba] ++ invalidated s).
Proof.
  intros Hw Hl Hp Hr. pose proof (sec_in_map s lba Hw Hl) as Hm. unfold pblk_update_map. rewrite (proj2 (Z.ltb_lt _ _)) by lia. cbn [negb].
  destruct (get_drop_ok s lba Hw Hm) as (s1 & s2 & E1 & Hw1 & Hp1 & E2 & Ha & Hi). rewrite E1. cbn [mbind option_bind].
  assert ((if pblk_addr_in_cache p then pblk_cache_invalidate s1 (view s lba) else Some (s1, view s lba)) = Some (s1, view s lba)) as ->.
  { destruct (pblk_addr_in_cache p); [|done]. by apply cache_invalidate_ok. }
  cbn [mbind option_bind]. rewrite E2. cbn [mbind option_bind]. pose proof (al_frame _ _ Ha) as Hf.
  destruct (trans_map_set_ok s2 lba p) as (s' & E & Hch); [apply Ha|by rewrite (fr_secs _ _ Hf)|by apply (frame_addr_ok s s2)|by apply (alike_trans_rule s s2)|].
  exists s'. split; [done|]. by apply (drop_then_set s s2).
Qed.

Lemma invalidate_sector_ok s lba :
  wf s → 0 ≤ lba < l_nr_secs s → ¬ on_block s lba →
  ∃ s', invalidate_sector s lba = Some s' ∧ after s s' (<[lba := ADDR_EMPTY]> (view s)) (dead [view s lba] ++ invalidated s).
Proof.
  intros Hw Hl Hb. pose proof (sec_in_map s lba Hw Hl) as Hm. unfold invalidate_sector.
  destruct (get_drop_ok s lba Hw Hm) as (s1 & s2 & E1 & Hw1 & Hp1 & E2 & Ha & Hi). rewrite E1. cbn [mbind option_bind].
  rewrite cache_invalidate_ok by done. cbn [mbind option_bind]. rewrite E2. cbn [mbind option_bind]. pose proof (al_frame _ _ Ha) as Hf.
  destruct (trans_map_set_ok s2 lba ADDR_EMPTY) as (s' & E & Hch); [apply Ha|by rewrite (fr_secs _ _ Hf)|done| |].
  { intros H. by apply (alike_on_block s s2) in H. }
  exists s'. split; [done|]. by apply (drop_then_set s s2).
Qed.

(** An entry of a buffer. *)
Definition in_buffer (s : l2p) (p : ppa_addr) : Prop :=
  match p with Cache line nrb _ => 0 ≤ line ∧ ∃ rb, rd (rwbs s) nrb = Some rb ∧ line < nr_entries rb | _ => False end.

Lemma in_buffer_ok s p : in_buffer s p → addr_ok s p.
Proof. destruct p as [|line nrb r|]; [done| |done]. intros (Hl & rb & Hrb & _). split; [done|by eapply rd_lt]. Qed.

Lemma invalid_line_alike s i st sts l :
  wf s → rd (lstreams s) i = Some st → wr (lstreams s) i (st <| invalid_line := l |>) = Some sts → alike s (s <| lstreams := sts |>).
Proof.
  intros Hw Hi [_ ->]%wr_Some. apply rd_Some in Hi as [_ Hi]. apply wf_like; [done..| |].
  - split; try done. cbn. rewrite list_fmap_insert. apply list_insert_id. by rewrite list_lookup_fmap, Hi.
  - cbn. rewrite list_fmap_insert. apply list_insert_id. by rewrite list_lookup_fmap, Hi.
Qed.

(** What [pblk_update_map_cache] does with the old address: as [drop_addr], and the stream notes its line. *)
Lemma note_line_ok s p nrb :
  wf s → addr_ok s p → 0 ≤ nrb < Z.of_nat (length (rwbs s)) →
  ∃ s', match p with
        | Dev line_id _ _ _ _ _ =>
            st ← rd (lstreams s) nrb;
            sts ← wr (lstreams s) nrb (st <| invalid_line := line_id |>);
            pblk_map_invalidate (s <| lstreams := sts |>) p
        | _ => Some s
        end = Some s' ∧ alike s s' ∧ invalidated s' = dead [p] ++ invalidated s.
Proof.
  intros Hw Hp Hn. destruct p as [| |blk pg lun ch pl sec]; [exists s; split; [done|]; split; [by apply wf_like|done]..|].
  destruct (wf_streams _ Hw) as [_ Hlen _ _]. destruct (rd_is_Some (lstreams s) nrb) as [st Hst]; [lia|]. rewrite Hst. cbn [mbind option_bind].
  destruct (wr (lstreams s) nrb (st <| invalid_line := blk |>)) as [sts|] eqn:Hwr; [|rewrite wr_in_range in Hwr by lia; done].
  cbn [mbind option_bind].
  pose proof (invalid_line_alike s nrb st sts blk Hw Hst Hwr) as Ha. set (s1 := s <| lstreams := sts |>) in *.
  destruct (map_invalidate_ok s1 (Dev blk pg lun ch pl sec)) as (s' & E & Ha' & Hi); [apply Ha|done|done|]. exists s'. split; [done|].
  split; [by eapply alike_trans|]. by rewrite Hi.
Qed.

(** A segment that is mapped as a whole is written from sector 8 on. *)
Definition cache_rule (s : l2p) (lba : Z) : Prop :=
  on_block s lba → data_off (entry_num s) (loff_of s lba) ∧ (has_log s lba ∨ loff_of s lba = 8).

Lemma update_map_cache_set s lba p :
  wf s → 0 ≤ lba < l_nr_secs s → in_buffer s p →
  ∃ s2, pblk_update_map_cache s lba p = pblk_cache_map_set s2 lba p ∧ alike s s2 ∧ invalidated s2 = dead [view s lba] ++ invalidated s.
Proof.
  intros Hw Hl Hb. pose proof (sec_in_map s lba Hw Hl) as Hm. destruct p as [|line nrb r|]; [done| |done].
  destruct Hb as (Hline & rb & Hrb & Hlt). unfold pblk_update_map_cache, pblk_rb_pos_oob. rewrite Hrb. cbn [mbind option_bind].
  rewrite (proj2 (Z.leb_gt _ _)) by done. cbn [negb ensure mbind option_bind].
  destruct (get_ok s lba Hw Hm) as (s1 & E1 & Hw1 & Hs1). rewrite E1. cbn [mbind option_bind].
  pose proof (kept_same _ _ Hw1 Hs1) as Hk. pose proof (kept_alike _ _ Hk) as Ha1. pose proof (al_frame _ _ Ha1) as Hf1.
  assert (Hv : addr_ok s1 (view s lba)) by (by apply (frame_addr_ok s s1), view_addr_ok).
  rewrite cache_invalidate_ok by done. cbn [mbind option_bind].
  destruct (note_line_ok s1 (view s lba) nrb Hw1 Hv) as (s2 & E2 & Ha2 & Hi); [rewrite (fr_rwbs _ _ Hf1); by eapply rd_lt|].
  rewrite E2. cbn [mbind option_bind]. exists s2. split; [done|]. split; [by eapply alike_trans|]. by rewrite Hi, (es_inv _ _ (kp_env _ _ Hk)).
Qed.

Lemma update_map_cache_ok s lba p :
  wf s → 0 ≤ lba < l_nr_secs s → in_buffer s p → cache_rule s lba →
  ∃ s', pblk_update_map_cache s lba p = Some s' ∧ after s s' (<[lba := p]> (view s)) (dead [view s lba] ++ invalidated s).
Proof.
  intros Hw Hl Hb Hr. destruct (update_map_cache_set s lba p Hw Hl Hb) as (s2 & -> & Ha & Hi). pose proof (al_frame _ _ Ha) as Hf.
  destruct (cache_map_set_ok s2 lba p) as (s' & E & Hch); [apply Ha|by rewrite (fr_secs _ _ Hf)|by apply (frame_addr_ok s s2), in_buffer_ok| |].
  { rewrite (alike_on_block s s2), (alike_has_log s s2), (frame_entry_num s s2), (frame_loff s s2) by done. done. }
  exists s'. split; [done|]. apply (drop_then_set s s2); [done|by apply sec_in_map|done..].
Qed.

Lemma whole_on_block s lba : wf s → whole s lba = true ↔ on_block s lba.
Proof.
  intros Hw. unfold whole, on_block. pose proof types_differ as (Hsb & _). destruct (rd (bmap s) (lseg_of s lba)) as [x|] eqn:Hx; [|naive_solver].
  pose proof (rd_Forall _ _ _ _ (wf_segs _ Hw) Hx) as Hok. split.
  - intros Hm%Z.eqb_eq. exists x. split; [done|]. unfold is_block. rewrite Hm. split; [done|]. destruct Hok; cbn in *; try done; eauto.
  - intros (y & [= <-] & Hb). by rewrite (block_map s x Hok Hb).
Qed.

Lemma log_maptype_ok s lba : wf s → in_map s lba → ∃ t, pblk_get_log_maptype s lba = Some t ∧ (t =? BLOCK_MAP) = whole s lba.
Proof.
  intros Hw Hm. destruct (in_map_seg s lba Hw Hm) as (x & Hx & Hok). unfold pblk_get_log_maptype, whole. rewrite Hx. cbn [mbind option_bind].
  destruct (seg_stream s x Hw Hok) as (st & Hst & _ & Hi). rewrite (proj2 (Z.ltb_lt _ _)) by done. cbn [ensure mbind option_bind]. rewrite Hst.
  cbn [mbind option_bind].
  exists (map_type st). split; [done|].
  destruct Hok as [v|i st' l Hst' Ht|i st' l Hst' Ht|i st' Hst' Ht|i st' blk Hst' Ht]; cbn [m_map m_lstream] in *;
    [|assert (st' = st) as -> by congruence; by rewrite Ht..].
  destruct (wf_streams _ Hw) as [_ _ _ (st0 & Hst0 & Ht0)]. assert (st0 = st) as -> by congruence. by rewrite Ht0.
Qed.

(** Whether garbage collection of [line] may move a sector. *)
Definition collectable (s : l2p) (lba line : Z) : bool :=
  (lba <? l_nr_secs s) && bool_decide (pblk_tgt_ppa_to_line (landed s (view s lba)) = Some line) && negb (whole s lba).

Lemma update_map_gc_ok s lba p line :
  wf s → 0 ≤ lba → in_buffer s p →
  ∃ s', pblk_update_map_gc s lba p line = Some (s', collectable s lba line) ∧
    after s s' (if collectable s lba line then <[lba := p]> (view s) else view s) (invalidated s).
Proof.
  intros Hw Hl Hb. pose proof (in_buffer_ok s p Hb) as Hp. destruct p as [|pos nrb r|]; [done| |done].
  destruct Hb as (Hline & rb & Hrb & Hlt). unfold pblk_update_map_gc, pblk_rb_pos_oob, collectable. rewrite Hrb. cbn [mbind option_bind].
  rewrite (proj2 (Z.leb_gt _ _)) by done. cbn [negb ensure mbind option_bind]. destruct (Z.ltb_spec lba (l_nr_secs s)) as [Hs|Hs]; cbn [negb andb].
  2:{ exists (warn s). split; [done|]. apply (alike_after s (warn s)). by apply warn_alike. }
  pose proof (sec_in_map s lba Hw (conj Hl Hs)) as Hm. destruct (get_ok s lba Hw Hm) as (s1 & E1 & Hw1 & Hs1). rewrite E1. cbn [mbind option_bind].
  pose proof (kept_same _ _ Hw1 Hs1) as Hk. pose proof (kept_alike _ _ Hk) as Ha. pose proof (al_frame _ _ Ha) as Hf.
  rewrite landed_ok by (try done; by apply (frame_addr_ok s s1), view_addr_ok). cbn [mbind option_bind]. rewrite (frame_landed s s1) by done.
  case_bool_decide as Hd; cbn [negb andb]; [|exists s1; split; [done|by apply kept_after]].
  destruct (log_maptype_ok s1 lba Hw1) as (t & Et & Hwh); [by apply (frame_in_map s s1)|]. rewrite Et. cbn [mbind option_bind].
  rewrite Hwh, (alike_whole s s1) by done. destruct (whole s lba) eqn:Hwl; cbn [negb]; [exists s1; split; [done|by apply kept_after]|].
  destruct (trans_map_set_ok s1 lba (Cache pos nrb r)) as (s' & E & Hch); [done|by rewrite (fr_secs _ _ Hf)|by apply (frame_addr_ok s s1)| |].
  { intros H. apply (alike_on_block s s1), whole_on_block in H; [congruence|done|done]. }
  rewrite E. cbn [mbind option_bind]. exists s'. split; [done|]. apply changed_after_set; [done|done|].
  by apply (changed_after s s1).
Qed.

(** The entry of the buffer that was written to the device is still that of the sector. *)
Definition current (s : l2p) (lba : Z) (e : ppa_addr) : bool := (lba <? l_nr_secs s) && bool_decide (view s lba = e).

Lemma update_map_dev_set s lba p e :
  wf s → 0 ≤ lba → is_dev p = true → pblk_addr_in_cache e = true → lba ≠ LBA_EMPTY → current s lba e = true →
  ∃ s1, pblk_update_map_dev s lba p e = pblk_dev_map_set s1 lba p ∧ kept s s1.
Proof.
  intros Hw Hl Hd Hc He (Hs%Z.ltb_lt & Hv%bool_decide_eq_true)%andb_prop. unfold pblk_update_map_dev.
  assert (pblk_addr_in_cache p = false) as -> by (by destruct p). cbn [negb ensure mbind option_bind].
  rewrite (proj2 (Z.eqb_neq _ _)), (proj2 (Z.ltb_lt _ _)) by done. cbn [negb].
  destruct (get_ok s lba Hw (sec_in_map s lba Hw (conj Hl Hs))) as (s1 & E1 & Hw1 & Hs1). rewrite E1. cbn [mbind option_bind]. unfold pblk_ppa_comp.
  rewrite bool_decide_true by done. cbn [negb]. exists s1. split; [|by apply kept_same]. rewrite Hv. by destruct e.
Qed.

Lemma update_map_dev_ok s lba p e :
  wf s → 0 ≤ lba → addr_ok s p → is_dev p = true → pblk_addr_in_cache e = true → (current s lba e = true → dev_rule s lba p) →
  ∃ s', pblk_update_map_dev s lba p e = Some s' ∧
    after s s' (if (negb (lba =? LBA_EMPTY)) && current s lba e then <[lba := p]> (view s) else view s)
      ((if (lba =? LBA_EMPTY) || ((lba <? l_nr_secs s) && negb (current s lba e)) then [p] else []) ++ invalidated s).
Proof.
  intros Hw Hl Hp Hd Hc Hr. unfold pblk_update_map_dev. assert (pblk_addr_in_cache p = false) as -> by (by destruct p).
  cbn [negb ensure mbind option_bind].
  destruct (Z.eqb_spec lba LBA_EMPTY) as [He|He]; cbn [negb andb orb].
  { destruct (map_invalidate_ok s p Hw Hp Hd) as (s' & E & Ha & Hi). exists s'. split; [done|]. cbn [app]. rewrite <- Hi. by apply alike_after. }
  unfold current in *. destruct (Z.ltb_spec lba (l_nr_secs s)) as [Hs|Hs]; cbn [negb andb orb] in *.
  2:{ exists (warn s). split; [done|]. apply (alike_after s (warn s)). by apply warn_alike. }
  pose proof (sec_in_map s lba Hw (conj Hl Hs)) as Hm. destruct (get_ok s lba Hw Hm) as (s1 & E1 & Hw1 & Hs1). rewrite E1. cbn [mbind option_bind].
  pose proof (kept_same _ _ Hw1 Hs1) as Hk. pose proof (kept_alike _ _ Hk) as Ha. pose proof (al_frame _ _ Ha) as Hf. unfold pblk_ppa_comp.
  destruct (bool_decide_reflect (view s lba = e)) as [Hv|Hv]; cbn [negb].
  - assert (match view s lba with Dev _ _ _ _ _ _ => warn s1 | _ => s1 end = s1) as -> by (rewrite Hv; by destruct e).
    destruct (dev_map_set_ok s1 lba p) as (s' & E & Hch); [done|by apply (frame_in_map s s1)|by apply (frame_addr_ok s s1)| | |].
    + rewrite (alike_view s s1), Hv by done. by destruct e.
    + apply (alike_dev_rule s s1); [done|by apply Hr].
    + exists s'. split; [done|]. apply changed_after_set; [done|done|]. by apply (changed_after s s1).
  - assert (pblk_ppa_empty p = false) as -> by (by destruct p).
    destruct (map_invalidate_ok s1 p Hw1) as (s' & E & Ha' & Hi); [by apply (frame_addr_ok s s1)|done|]. exists s'. split; [done|]. cbn [app].
    rewrite <- (es_inv _ _ (kp_env _ _ Hk)), <- Hi. apply alike_after. by eapply alike_trans.
Qed.

(** ** Lookups *)

Lemma lookup_seq_ok n s lba :
  wf s → (∀ i, 0 ≤ i < Z.of_nat n → in_map s (lba + i)) →
  ∃ s', pblk_lookup_l2p_seq n s lba = Some (s', view s <$> seqZ lba (Z.of_nat n)) ∧ kept s s'.
Proof.
  revert s lba. induction n as [|n IH]; intros s lba Hw Hm; cbn [pblk_lookup_l2p_seq]; [exists s; split; [done|]; by apply kept_same|].
  destruct (get_ok s lba Hw) as (s1 & E1 & Hw1 & Hs1); [rewrite <- (Z.add_0_r lba); apply Hm; lia|]. rewrite E1. cbn [mbind option_bind].
  pose proof (kept_same _ _ Hw1 Hs1) as Hk. pose proof (al_frame _ _ (kept_alike _ _ Hk)) as Hf.
  rewrite reserved_old_ok by (try done; by apply (frame_addr_ok s s1), view_addr_ok). cbn [mbind option_bind].
  destruct (IH s1 (lba + 1) Hw1) as (s2 & E2 & Hk2).
  { intros i Hi. rewrite (frame_in_map s s1) by done. replace (lba + 1 + i) with (lba + (1 + i)) by lia. apply Hm. lia. }
  rewrite E2. cbn [mbind option_bind]. exists s2. split; [|by eapply l2p_kept_trans]. rewrite (seqZ_cons lba) by lia. cbn [fmap list_fmap].
  replace (Z.pred (Z.of_nat (S n))) with (Z.of_nat n) by lia. do 3 f_equal. apply list_fmap_ext. intros _ x _. by apply (kept_view s s1).
Qed.

(** The answer for one sector of a list. *)
Definition rand_addr (s : l2p) (lba : Z) (p : ppa_addr) : ppa_addr :=
  if lba =? LBA_EMPTY then ADDR_EMPTY else if lba <? l_nr_secs s then landed s (view s lba) else p.

Lemma lookup_rand_ok lbas s ppas :
  wf s → length ppas = length lbas → Forall (λ lba, 0 ≤ lba) lbas →
  ∃ s', pblk_lookup_l2p_rand s ppas lbas = Some (s', zip_with (rand_addr s) lbas ppas) ∧ alike s s' ∧ invalidated s' = invalidated s.
Proof.
  revert s ppas. induction lbas as [|lba lbas IH]; intros s [|p ppas] Hw Hlen Hpos; try done; [exists s; split; [done|]; split; [by apply wf_like|done]|].
  cbn [pblk_lookup_l2p_rand]. apply Forall_cons in Hpos as [Hl Hpos].
  assert (∃ s1, (if lba =? LBA_EMPTY then Some (s, ADDR_EMPTY) else if negb (lba <? l_nr_secs s) then Some (warn s, p) else
    '(s, p) ← pblk_trans_map_get s lba; p ← pblk_get_reserved_old_addr2 s p; Some (s, p)) = Some (s1, rand_addr s lba p) ∧ alike s s1 ∧ invalidated s1 = invalidated s)
    as (s1 & E1 & Ha & Hi).
  { unfold rand_addr. destruct (lba =? LBA_EMPTY); [exists s; split; [done|]; split; [by apply wf_like|done]|].
    destruct (Z.ltb_spec lba (l_nr_secs s)) as [Hs|Hs]; cbn [negb]; [|exists (warn s); split; [done|]; split; [by apply wf_like|done]].
    destruct (get_ok s lba Hw (sec_in_map s lba Hw (conj Hl Hs))) as (s1 & E1 & Hw1 & Hs1). rewrite E1. cbn [mbind option_bind].
    pose proof (kept_same _ _ Hw1 Hs1) as Hk. pose proof (kept_alike _ _ Hk) as Ha. pose proof (al_frame _ _ Ha) as Hf.
    rewrite landed_ok by (try done; by apply (frame_addr_ok s s1), view_addr_ok). cbn [mbind option_bind]. rewrite (frame_landed s s1) by done.
    exists s1. split; [done|]. split; [done|]. apply Hk. }
  rewrite E1. cbn [mbind option_bind]. destruct (IH s1 ppas) as (s2 & E2 & Ha2 & Hi2); [apply Ha|by injection Hlen|done|].
  rewrite E2. cbn [mbind option_bind]. exists s2. split; [|split; [by eapply alike_trans|congruence]]. cbn [zip_with]. do 3 f_equal.
  apply zip_with_ext; [|done|done]. intros x q. unfold rand_addr. pose proof (al_frame _ _ Ha) as Hf.
  by rewrite (fr_secs _ _ Hf), (alike_view s s1), (frame_landed s s1) by done.
Qed.

(** ** Discards *)

Definition erase (m : Z → ppa_addr) (l : list Z) (lba : Z) : ppa_addr := if bool_decide (lba ∈ l) then ADDR_EMPTY else m lba.

(** The sectors [l] are empty and their addresses invalid. *)
Definition clears (s s' : l2p) (l : list Z) : Prop := after s s' (erase (view s) l) (dead (view s <$> l) ++ invalidated s).

Lemma clears_nil s s' : alike s s' → invalidated s' = invalidated s → clears s s' [].
Proof. intros Ha Hi. eapply after_ext; [by apply alike_after|done|done]. Qed.

Lemma clears_one s s' lba : after s s' (<[lba := ADDR_EMPTY]> (view s)) (dead [view s lba] ++ invalidated s) → clears s s' [lba].
Proof.
  intros H. eapply after_ext; [done| |done]. intros lba'. unfold erase. case_bool_decide as Hin; rewrite list_elem_of_singleton in Hin.
  - subst lba'. by rewrite fn_lookup_insert.
  - by rewrite fn_lookup_insert_ne.
Qed.

Lemma clears_view s s' l lba : clears s s' l → lba ∉ l → view s' lba = view s lba.
Proof. intros H Hn. rewrite (af_view _ _ _ _ H). unfold erase. by rewrite bool_decide_false. Qed.

Lemma clears_app s s1 s2 l1 l2 : clears s s1 l1 → clears s1 s2 l2 → (∀ lba, lba ∈ l2 → lba ∉ l1) → clears s s2 (l1 ++ l2).
Proof.
  intros H1 H2 Hd. eapply after_trans; [apply H1|]. eapply after_ext; [apply H2| |].
  - intros lba. unfold erase. rewrite (af_view _ _ _ _ H1). unfold erase. repeat case_bool_decide; set_solver.
  - rewrite (af_dead _ _ _ _ H1), fmap_app, dead_app, <- app_assoc. f_equal. f_equal. apply Forall_fmap_ext. apply Forall_forall. intros lba Hin.
    apply (clears_view s s1 l1); [done|by apply Hd].
Qed.

(** One sector of a segment that is mapped as a whole and whose sectors before it are empty. *)
Lemma clear_block_sector s lba :
  wf s → 0 ≤ lba < l_nr_secs s → on_block s lba →
  (∀ lba', in_map s lba' → lseg_of s lba' = lseg_of s lba → loff_of s lba' < loff_of s lba → view s lba' = ADDR_EMPTY) →
  ∃ s1 s2 s', pblk_trans_map_get s lba = Some (s1, view s lba) ∧ drop_addr s1 (view s lba) = Some s2 ∧
    pblk_trans_map_set s2 lba ADDR_EMPTY = Some s' ∧ clears s s' [lba].
Proof.
  intros Hw Hl Hb Hbefore. pose proof (sec_in_map s lba Hw Hl) as Hm.
  destruct (get_drop_ok s lba Hw Hm) as (s1 & s2 & E1 & Hw1 & Hp1 & E2 & Ha & Hi). exists s1, s2. pose proof (al_frame _ _ Ha) as Hf.
  assert (Hl2 : 0 ≤ lba < l_nr_secs s2) by (by rewrite (fr_secs _ _ Hf)). destruct Hb as (x & Hx & Hbx).
  pose proof (rd_Forall _ _ _ _ (wf_segs _ Hw) Hx) as Hok. destruct (decide (data_off (entry_num s) (loff_of s lba))) as [Hd|Hd].
  - destruct (trans_map_set_ok s2 lba ADDR_EMPTY) as (s' & E & Hch); [apply Ha|done|done| |].
    + apply (alike_trans_rule s s2 Ha). intros _. split; [done|]. intros Hend _ _ lba' Hm' Hs Hne.
      destruct (decide (loff_of s lba' < loff_of s lba)) as [Hlt|Hge]; [by apply Hbefore|].
      apply (block_meta s x); [done|by rewrite Hs|done|done|]. pose proof (same_place s lba lba' (wf_bits _ Hw) Hs) as Hpl.
      rewrite (proj2 (Z.eqb_neq lba' lba)) in Hpl by done. apply Z.eqb_neq in Hpl. unfold data_off. lia.
    + exists s'. do 3 (split; [done|]). by apply clears_one, (drop_then_set s s2).
  - destruct (trans_map_set_meta s2 lba ADDR_EMPTY) as (s' & E & Hk); [apply Ha|done|apply (alike_on_block s s2 Ha); by exists x| |].
    { by rewrite (frame_entry_num s s2), (frame_loff s s2). }
    exists s'. do 3 (split; [done|]). pose proof (block_meta s x lba Hw Hx Hok Hbx Hd) as Hv. apply clears_one.
    eapply after_trans; [by apply alike_after|]. eapply after_ext; [by apply kept_after| |].
    + intros lba'. rewrite (alike_view s s2) by done.
      destruct (decide (lba = lba')) as [<-|]; [by rewrite fn_lookup_insert|by rewrite fn_lookup_insert_ne].
    + by rewrite Hi.
Qed.

Lemma next_sector s lba :
  5 ≤ blk_offset (l_fmt s) ≤ 15 → loff_of s lba + 1 < entry_num s → lseg_of s (lba + 1) = lseg_of s lba ∧ loff_of s (lba + 1) = loff_of s lba + 1.
Proof.
  intros Hb H. destruct (entry_num_eq s Hb) as [_ Hn]. destruct (split_lba s lba Hb) as (_ & _ & H1 & H2).
  destruct (split_lba s (lba + 1) Hb) as (_ & _ & H3 & H4).
  assert (lseg_of s (lba + 1) = lseg_of s lba) as E by nia. split; [done|]. rewrite E in H4. lia.
Qed.

Lemma invalidate_segment_ok n s lba :
  wf s → 0 ≤ lba → lba + Z.of_nat n ≤ l_nr_secs s → loff_of s lba + Z.of_nat n = entry_num s ∨ n = O → (n ≠ O → on_block s lba) →
  (∀ lba', in_map s lba' → lseg_of s lba' = lseg_of s lba → loff_of s lba' < loff_of s lba → view s lba' = ADDR_EMPTY) →
  ∃ s', invalidate_segment n s lba = Some s' ∧ clears s s' (seqZ lba (Z.of_nat n)).
Proof.
  revert s lba. induction n as [|n IH]; intros s lba Hw Hl Hs Hn Hb Hbefore; cbn [invalidate_segment]; [exists s; split; [done|]; apply clears_nil; [by apply wf_like|done]|].
  destruct Hn as [Hn|?]; [|done]. specialize (Hb ltac:(done)).
  destruct (clear_block_sector s lba) as (s1 & s2 & s3 & E1 & E2 & E3 & Hc); [done|lia|done|done|].
  rewrite E1. cbn [mbind option_bind]. rewrite E2. cbn [mbind option_bind]. rewrite E3. cbn [mbind option_bind].
  pose proof (af_frame _ _ _ _ Hc) as Hf. pose proof (af_wf _ _ _ _ Hc) as Hw3.
  assert (Hnx : n ≠ O → lseg_of s (lba + 1) = lseg_of s lba ∧ loff_of s (lba + 1) = loff_of s lba + 1) by (intros; apply next_sector; [apply Hw|lia]).
  destruct (IH s3 (lba + 1)) as (s' & E & Hc'); [done|lia|rewrite (fr_secs _ _ Hf); lia| | | |].
  - rewrite (frame_loff s s3), (frame_entry_num s s3) by done. destruct (decide (n = O)) as [|H0]; [by right|]. left. destruct (Hnx H0). lia.
  - intros H0. apply whole_on_block; [done|]. rewrite (af_whole _ _ _ _ Hc). apply whole_on_block in Hb; [|done]. revert Hb. unfold whole.
    by rewrite (proj1 (Hnx H0)).
  - intros lba' Hm'. rewrite !(frame_lseg s s3), !(frame_loff s s3) by done. intros Hs' Hlt. rewrite (af_view _ _ _ _ Hc). unfold erase.
    case_bool_decide as Hin; [done|].
    rewrite (frame_in_map s s3) in Hm' by done. rewrite list_elem_of_singleton in Hin. destruct (decide (n = O)) as [->|H0].
    + exfalso. destruct (split_lba s lba (wf_bits _ Hw)) as (_ & _ & H1 & H2). destruct (split_lba s (lba + 1) (wf_bits _ Hw)) as (_ & _ & H3 & H4).
      destruct (split_lba s lba' (wf_bits _ Hw)) as (_ & _ & H5 & _).
      destruct (Z.lt_trichotomy (lseg_of s (lba + 1)) (lseg_of s lba + 1)) as [?|[E|?]]; [nia|rewrite E in H4; lia|nia].
    + destruct (Hnx H0) as [N1 N2]. rewrite N1 in Hs'. rewrite N2 in Hlt. apply Hbefore; [done|done|].
      pose proof (same_place s lba lba' (wf_bits _ Hw) Hs') as Hp. rewrite (proj2 (Z.eqb_neq lba' lba)) in Hp by done. apply Z.eqb_neq in Hp. lia.
  - exists s'. split; [done|]. rewrite (seqZ_cons lba) by lia. replace (Z.pred (Z.of_nat (S n))) with (Z.of_nat n) by lia.
    change (lba :: ?l) with ([lba] ++ l).
    replace (Z.succ lba) with (lba + 1) by lia. apply (clears_app s s3); [done|done|]. intros lba' Hin. apply elem_of_seqZ in Hin.
    rewrite list_elem_of_singleton. lia.
Qed.

(** The sectors of a discard from [slba] to [end_lba]: of a segment that is mapped as a whole, all or none. *)
Definition covered (s : l2p) (slba end_lba lba : Z) : bool :=
  negb (whole s lba) || ((slba <=? lba - loff_of s lba) && (lba - loff_of s lba + entry_num s <=? end_lba)).

Definition erased (s : l2p) (slba end_lba : Z) : list Z :=
  filter (λ lba, covered s slba end_lba lba = true) (seqZ slba (end_lba - slba)).

Lemma filter_true {A} (P : A → Prop) `{!∀ x, Decision (P x)} l : Forall P l → filter P l = l.
Proof. induction 1 as [|x l Hx _ IH]; [done|]. by rewrite filter_cons_True, IH. Qed.

Lemma filter_false {A} (P : A → Prop) `{!∀ x, Decision (P x)} l : Forall (λ x, ¬ P x) l → filter P l = [].
Proof. induction 1 as [|x l Hx _ IH]; [done|]. by rewrite filter_cons_False, IH. Qed.

Lemma filter_ext {A} (P Q : A → Prop) `{!∀ x, Decision (P x), !∀ x, Decision (Q x)} l : Forall (λ x, P x ↔ Q x) l → filter P l = filter Q l.
Proof.
  induction 1 as [|x l Hx _ IH]; [done|].
  destruct (decide (P x)); [rewrite !filter_cons_True by naive_solver|rewrite !filter_cons_False by naive_solver]; by rewrite IH.
Qed.

Lemma erased_frame s s' slba end_lba : frame s s' → (∀ lba, whole s' lba = whole s lba) → erased s' slba end_lba = erased s slba end_lba.
Proof.
  intros Hf Hw. unfold erased. apply list_filter_iff. intros lba. unfold covered. by rewrite Hw, (frame_loff s s'), (frame_entry_num s s').
Qed.

(** The sectors from [slba] on, for a place [mid] no segment that is mapped as a whole and begins from [slba] on crosses. *)
Lemma erased_split s slba mid end_lba :
  slba ≤ mid ≤ end_lba → (∀ lba, mid ≤ lba → whole s lba = true → slba ≤ lba - loff_of s lba → mid ≤ lba - loff_of s lba) →
  erased s slba end_lba = filter (λ lba, covered s slba end_lba lba = true) (seqZ slba (mid - slba)) ++ erased s mid end_lba.
Proof.
  intros Hm H. unfold erased. replace (end_lba - slba) with ((mid - slba) + (end_lba - mid)) by lia. rewrite seqZ_app, filter_app by lia. f_equal.
  replace (slba + (mid - slba)) with mid by lia. apply filter_ext, Forall_forall. intros lba [Hin _]%elem_of_seqZ.
  unfold covered. destruct (whole s lba) eqn:Hw; [|done]. cbn [negb orb]. specialize (H lba Hin Hw).
  destruct (Z.leb_spec slba (lba - loff_of s lba)), (Z.leb_spec mid (lba - loff_of s lba)); cbn [andb]; try done; lia.
Qed.

(** *** Segments as ranges of sectors *)

Lemma in_segment s lba l :
  5 ≤ blk_offset (l_fmt s) ≤ 15 → lba - loff_of s lba ≤ l < lba - loff_of s lba + entry_num s →
  lseg_of s l = lseg_of s lba ∧ l - loff_of s l = lba - loff_of s lba.
Proof.
  intros Hb H. destruct (entry_num_eq s Hb) as [_ Hn]. destruct (split_lba s lba Hb) as (_ & _ & H1 & H2).
  destruct (split_lba s l Hb) as (_ & _ & H3 & H4).
  assert (lseg_of s l = lseg_of s lba) as E by nia. split; [done|]. rewrite E in H4. lia.
Qed.

(** The start of the segment of a later sector. *)
Lemma later_segment s lba l :
  5 ≤ blk_offset (l_fmt s) ≤ 15 → lba - loff_of s lba + entry_num s ≤ l → lba - loff_of s lba + entry_num s ≤ l - loff_of s l.
Proof.
  intros Hb H. destruct (entry_num_eq s Hb) as [_ Hn]. destruct (split_lba s lba Hb) as (_ & _ & H1 & H2).
  destruct (split_lba s l Hb) as (_ & _ & H3 & H4).
  assert (lseg_of s lba + 1 ≤ lseg_of s l) by nia. nia.
Qed.

Lemma whole_segment s lba l :
  5 ≤ blk_offset (l_fmt s) ≤ 15 → lba - loff_of s lba ≤ l < lba - loff_of s lba + entry_num s → whole s l = whole s lba.
Proof. intros Hb H. unfold whole. by rewrite (proj1 (in_segment s lba l Hb H)). Qed.

Lemma erased_empty s slba end_lba : end_lba ≤ slba → erased s slba end_lba = [].
Proof. intros H. unfold erased. by rewrite seqZ_nil by lia. Qed.

(** Nothing of a segment that is not covered, from [lba] on, up to its end or [end_lba]. *)
Lemma uncovered s lba end_lba k :
  wf s → whole s lba = true → loff_of s lba ≠ 0 ∨ end_lba < lba - loff_of s lba + entry_num s → k ≤ entry_num s - loff_of s lba →
  filter (λ l, covered s lba end_lba l = true) (seqZ lba k) = [].
Proof.
  intros Hw Hwh H Hk. pose proof (wf_bits _ Hw) as Hb. destruct (split_lba s lba Hb) as (_ & _ & Ho & _). apply filter_false, Forall_forall.
  intros l Hin%elem_of_seqZ.
  assert (Hr : lba - loff_of s lba ≤ l < lba - loff_of s lba + entry_num s) by lia. unfold covered.
  rewrite (whole_segment s lba l Hb Hr), Hwh, (proj2 (in_segment s lba l Hb Hr)). cbn [negb orb]. destruct H as [H|H].
  - by rewrite (proj2 (Z.leb_gt lba _)) by lia.
  - rewrite (proj2 (Z.leb_gt _ end_lba)) by lia. by rewrite andb_false_r.
Qed.

Lemma skip_segment s lba end_lba :
  wf s → whole s lba = true → loff_of s lba ≠ 0 → erased s lba end_lba = erased s (lba - loff_of s lba + entry_num s) end_lba.
Proof.
  intros Hw Hwh H0. pose proof (wf_bits _ Hw) as Hb. destruct (split_lba s lba Hb) as (_ & _ & Ho & _).
  set (next := lba - loff_of s lba + entry_num s).
  destruct (Z.le_gt_cases next end_lba) as [Hn|Hn].
  - rewrite (erased_split s lba next) by (try lia; intros l Hl _ _; by apply later_segment). rewrite uncovered; [done|done|done|by left|lia].
  - rewrite (erased_empty s next) by lia. unfold erased. apply uncovered; [done|done|by left|lia].
Qed.

Lemma take_segment s lba end_lba :
  wf s → whole s lba = true → loff_of s lba = 0 → lba + entry_num s ≤ end_lba →
  erased s lba end_lba = seqZ lba (entry_num s) ++ erased s (lba + entry_num s) end_lba.
Proof.
  intros Hw Hwh H0 Hn. pose proof (wf_bits _ Hw) as Hb. destruct (entry_num_eq s Hb) as [_ He].
  rewrite (erased_split s lba (lba + entry_num s)) by (try lia; intros l Hl _ _; pose proof (later_segment s lba l Hb); lia).
  f_equal. replace (lba + entry_num s - lba) with (entry_num s) by lia. apply filter_true, Forall_forall. intros l Hin%elem_of_seqZ.
  assert (Hr : lba - loff_of s lba ≤ l < lba - loff_of s lba + entry_num s) by lia. unfold covered. rewrite (proj2 (in_segment s lba l Hb Hr)), H0.
  rewrite !(proj2 (Z.leb_le _ _)) by lia. by rewrite orb_true_r.
Qed.

Lemma take_sector s lba end_lba : wf s → whole s lba = false → lba < end_lba → erased s lba end_lba = lba :: erased s (lba + 1) end_lba.
Proof.
  intros Hw Hwh Hn. pose proof (wf_bits _ Hw) as Hb. destruct (entry_num_eq s Hb) as [_ He]. rewrite (erased_split s lba (lba + 1)); [|lia|].
  - replace (lba + 1 - lba) with 1 by lia. rewrite (seqZ_cons lba), seqZ_nil by lia. rewrite filter_cons_True; [done|]. unfold covered.
    by rewrite Hwh.
  - intros l Hl Hwl Hs. destruct (decide (l - loff_of s l = lba)) as [E|]; [exfalso|lia]. destruct (split_lba s l Hb) as (_ & _ & Ho & _).
    rewrite (whole_segment s l lba) in Hwh by lia. congruence.
Qed.

Lemma maptype_ok s lba : wf s → in_map s lba → ∃ t, pblk_get_maptype s lba = Some t ∧ (t =? BLOCK_MAP) = whole s lba.
Proof. intros Hw Hm. destruct (in_map_seg s lba Hw Hm) as (x & Hx & _). unfold pblk_get_maptype, whole. rewrite Hx. by exists (m_map x). Qed.

Lemma clears_next s s1 s' l lba end_lba :
  clears s s1 l → clears s1 s' (erased s1 lba end_lba) → (∀ x, x ∈ l → x < lba) → clears s s' (l ++ erased s lba end_lba).
Proof.
  intros H1 H2 Hl. rewrite (erased_frame s s1) in H2 by apply H1. apply (clears_app s s1); [done|done|].
  intros x [_ Hx]%list_elem_of_filter Hin. apply elem_of_seqZ in Hx. specialize (Hl x Hin). lia.
Qed.

Lemma invalidate_loop_ok fuel s lba end_lba :
  wf s → 0 ≤ lba → end_lba ≤ l_nr_secs s → (Z.to_nat (end_lba - lba) < fuel)%nat →
  ∃ s', invalidate_loop fuel s lba end_lba = Some s' ∧ clears s s' (erased s lba end_lba).
Proof.
  revert s lba. induction fuel as [|fuel IH]; intros s lba Hw Hl Hs Hfuel; [lia|]. cbn [invalidate_loop].
  assert (Hnil : clears s s []) by (apply clears_nil; [by apply wf_like|done]).
  destruct (Z.ltb_spec lba end_lba) as [Hlt|Hge]; cbn [negb]; [|exists s; split; [done|]; by rewrite erased_empty].
  destruct (maptype_ok s lba Hw) as (t & Et & Hwh); [apply sec_in_map; [done|lia]|]. rewrite Et. cbn [mbind option_bind]. rewrite Hwh.
  pose proof (wf_bits _ Hw) as Hb. destruct (entry_num_eq s Hb) as [_ Hn]. destruct (split_lba s lba Hb) as (_ & _ & Ho & _).
  destruct (whole s lba) eqn:Hwl.
  - cbn zeta. destruct (Z.eqb_spec (loff_of s lba) 0) as [H0|H0]; cbn [negb].
    2:{ rewrite (skip_segment s lba) by done. replace (lba + (entry_num s - loff_of s lba) - 1 + 1) with (lba - loff_of s lba + entry_num s) by lia.
        apply IH; [done|lia..]. }
    destruct (Z.ltb_spec end_lba (lba + entry_num s)) as [He|He].
    { exists s. split; [done|]. unfold erased. rewrite uncovered; [done|done|done|right; lia|lia]. }
    destruct (invalidate_segment_ok (Z.to_nat (entry_num s)) s lba) as (s1 & E1 & Hc); [done|done|lia|left; lia|intros _; by apply whole_on_block| |].
    { intros lba' _ _ Hlt'. destruct (split_lba s lba' Hb) as (_ & _ & ? & _). lia. }
    rewrite E1. cbn [mbind option_bind]. pose proof (af_frame _ _ _ _ Hc) as Hf. rewrite (frame_entry_num s s1) by done.
    replace (lba + (entry_num s - loff_of s lba) - 1 + 1) with (lba + entry_num s) by lia. rewrite Z2Nat.id in Hc by lia.
    destruct (IH s1 (lba + entry_num s)) as (s' & E & Hc'); [apply Hc|lia|rewrite (fr_secs _ _ Hf); lia|lia|]. exists s'. split; [done|].
    rewrite take_segment by done. apply (clears_next s s1); [done|done|]. intros x Hx%elem_of_seqZ. lia.
  - destruct (invalidate_sector_ok s lba) as (s1 & E1 & Hc%clears_one); [done|lia|rewrite <- whole_on_block by done; congruence|].
    rewrite E1. cbn [mbind option_bind]. pose proof (af_frame _ _ _ _ Hc) as Hf.
    destruct (IH s1 (lba + 1)) as (s' & E & Hc'); [apply Hc|lia|rewrite (fr_secs _ _ Hf); lia|lia|]. exists s'. split; [done|].
    rewrite take_sector by done. change (lba :: ?l) with ([lba] ++ l). apply (clears_next s s1); [done|done|]. intros x ->%list_elem_of_singleton.
    lia.
Qed.

Lemma invalidate_range_ok s slba nr_secs :
  wf s → 0 ≤ slba → 0 ≤ nr_secs → slba + nr_secs ≤ l_nr_secs s →
  ∃ s', pblk_invalidate_range s slba nr_secs = Some s' ∧ clears s s' (erased s slba (slba + nr_secs)).
Proof. intros Hw H1 H2 H3. apply invalidate_loop_ok; [done|done|done|lia]. Qed.

(** ** Streams of segments *)

Lemma give_up_ok s p : wf s → addr_ok s p → give_up_reserved s p = Some (s, p).
Proof.
  intros Hw Hp. destruct p as [|line nrb r|]; [done| |done]. unfold give_up_reserved.
  destruct (entry_plain s line nrb r Hw Hp) as (rb & pos & e & -> & H1 & H2). cbn [mbind option_bind]. cbn zeta. rewrite H1, H2.
  by destruct (_ || _ || _).
Qed.

Lemma copy_sectors_ok n s lba :
  wf s → (∀ i, 0 ≤ i < Z.of_nat n → in_map s (lba + i)) →
  ∃ s', copy_sectors n s lba = Some (s', view s <$> seqZ lba (Z.of_nat n)) ∧ kept s s'.
Proof.
  revert s lba. induction n as [|n IH]; intros s lba Hw Hm; cbn [copy_sectors]; [exists s; split; [done|]; by apply kept_same|].
  destruct (get_ok s lba Hw) as (s1 & E1 & Hw1 & Hs1); [rewrite <- (Z.add_0_r lba); apply Hm; lia|]. rewrite E1. cbn [mbind option_bind].
  pose proof (kept_same _ _ Hw1 Hs1) as Hk. pose proof (al_frame _ _ (kept_alike _ _ Hk)) as Hf.
  assert (Hp : addr_ok s1 (view s lba)) by (by apply (frame_addr_ok s s1), view_addr_ok).
  rewrite give_up_ok by done. cbn [mbind option_bind]. destruct (IH s1 (lba + 1) Hw1) as (s2 & E2 & Hk2).
  { intros i Hi. rewrite (frame_in_map s s1) by done. replace (lba + 1 + i) with (lba + (1 + i)) by lia. apply Hm. lia. }
  rewrite E2. cbn [mbind option_bind]. exists s2. split; [|by eapply l2p_kept_trans]. rewrite (seqZ_cons lba) by lia. cbn [fmap list_fmap].
  replace (Z.pred (Z.of_nat (S n))) with (Z.of_nat n) by lia. do 3 f_equal. apply list_fmap_ext. intros _ x _. by apply (kept_view s s1).
Qed.

Lemma drop_sectors_ok n s lba :
  wf s → (∀ i, 0 ≤ i < Z.of_nat n → in_map s (lba + i)) →
  ∃ s', drop_sectors n s lba = Some s' ∧ alike s s' ∧ invalidated s' = dead (view s <$> seqZ lba (Z.of_nat n)) ++ invalidated s.
Proof.
  revert s lba. induction n as [|n IH]; intros s lba Hw Hm; cbn [drop_sectors]; [exists s; split; [done|]; split; [by apply wf_like|done]|].
  destruct (get_drop_ok s lba Hw) as (s1 & s2 & E1 & Hw1 & Hp1 & E2 & Ha & Hi); [rewrite <- (Z.add_0_r lba); apply Hm; lia|].
  rewrite E1. cbn [mbind option_bind]. rewrite cache_invalidate_ok by done. cbn [mbind option_bind]. rewrite E2. cbn [mbind option_bind].
  destruct (IH s2 (lba + 1)) as (s' & E & Ha' & Hi'); [apply Ha| |].
  { intros i Hi'. rewrite (frame_in_map s s2) by apply Ha. replace (lba + 1 + i) with (lba + (1 + i)) by lia. apply Hm. lia. }
  exists s'. split; [done|]. split; [by eapply alike_trans|]. rewrite Hi', Hi, (seqZ_cons lba) by lia. cbn [fmap list_fmap].
  replace (Z.pred (Z.of_nat (S n))) with (Z.of_nat n) by lia. rewrite (dead_cons _ (view s <$> _)), <- app_assoc.
  replace (Z.succ lba) with (lba + 1) by lia. f_equal. f_equal. apply list_fmap_ext. intros _ x _. by apply (alike_view s s2).
Qed.

(** A segment is replaced and counted anew before it gets its stream. *)
Lemma swap_entry s lba x y i st :
  wf s → in_map s lba → rd (bmap s) (lseg_of s lba) = Some x → rd (lstreams s) (m_lstream y) = Some st → seg_ok s (y <| m_lstream := i |>) →
  ∃ s2 s3 s4 t, put_seg s (lseg_of s lba) y = Some s2 ∧ pblk_change_map s2 (lseg_of s lba) = Some s3 ∧ rd (bmap s3) (lseg_of s lba) = Some y ∧
    put_seg s3 (lseg_of s lba) (y <| m_lstream := i |>) = Some s4 ∧ put_seg s (lseg_of s lba) (y <| m_lstream := i |>) = Some t ∧ kept t s4.
Proof.
  intros Hw Hm Hx Hst Hok. pose proof (rd_lt _ _ _ Hx) as Hr. destruct (put_seg_ok s lba _ Hw Hm Hok) as (t & Et & Hwt & Het & _ & Hlt & _).
  destruct (put_seg s (lseg_of s lba) y) as [s2|] eqn:E2; [|unfold put_seg in E2; by rewrite wr_in_range in E2]. exists s2.
  pose proof E2 as F2. unfold put_seg in F2. apply bind_Some in F2 as (m & Hwr & F2). injection F2 as F2.
  assert (Hc2 : cmt_ok s2) by (rewrite <- F2; split; apply Hw). assert (Hb2 : bmap s2 = m) by (by rewrite <- F2).
  assert (Hy2 : rd (bmap s2) (lseg_of s lba) = Some y) by (rewrite Hb2, (rd_wr _ _ _ _ _ Hwr); by rewrite decide_True).
  destruct (stream_at s _ _ Hw Hst) as [Hso _]. destruct (stream_sizes s st Hw Hso) as [Hp Hl].
  destruct (change_ok s2 (lseg_of s lba) y st Hc2 Hy2) as (s3 & E3 & Hc3 & Hs3); [by rewrite <- F2|done|done|]. exists s3.
  pose proof (sm_bmap _ _ Hs3) as Hb3. assert (Hy3 : rd (bmap s3) (lseg_of s lba) = Some y) by (by rewrite Hb3).
  destruct (put_seg s3 (lseg_of s lba) (y <| m_lstream := i |>)) as [s4|] eqn:E4; [|unfold put_seg in E4; rewrite wr_in_range in E4 by (by eapply rd_lt); done].
  exists s4, t. do 5 (split; [done|]). apply wr_Some in Hwr as [_ Em].
  unfold put_seg in E4, Et. rewrite wr_in_range in E4 by (by eapply rd_lt). rewrite wr_in_range in Et by done. cbn [mbind option_bind] in E4, Et.
  injection E4 as E4. injection Et as Et.
  assert (Hbt : bmap s4 = bmap t) by (rewrite <- E4, <- Et; cbn; rewrite Hb3, Hb2, Em; apply list_insert_insert_eq).
  assert (He : env_same t s4). { destruct Hs3. rewrite <- E4, <- Et. rewrite <- F2 in *. by split. }
  split; [|done|done]. apply (wf_env t s4 Hwt He); [rewrite <- E4; split; apply Hc3|by rewrite Hbt| |rewrite Hbt; apply Hwt].
  rewrite <- E4, <- Et. cbn. rewrite (sm_pre _ _ Hs3), <- F2. done.
Qed.

(** The stream a request for [i] gives, whether its segments are mapped as a whole, and the sectors of a segment. *)
Definition target (s : l2p) (i : Z) : Z := if nr_lstream s <=? i then 0 else i.
Definition to_block (s : l2p) (i : Z) : bool := match rd (lstreams s) (target s i) with Some st => map_type st =? BLOCK_MAP | None => false end.
Definition segment (s : l2p) (lba : Z) : list Z := seqZ (lba - loff_of s lba) (entry_num s).

(** The segment of [lba] is given up, or says what it said before. *)
Record restreamed (s s' : l2p) (lba : Z) (b empties : bool) : Prop := {
  re_wf : wf s';
  re_frame : frame s s';
  re_whole : ∀ l, whole s' l = if lseg_of s l =? lseg_of s lba then b else whole s l;
  re_view : ∀ l, view s' l = if empties then erase (view s) (segment s lba) l else view s l;
  re_dead : invalidated s' = (if empties then dead (view s <$> segment s lba) else []) ++ invalidated s
}.

Lemma in_segment_list s lba l : 5 ≤ blk_offset (l_fmt s) ≤ 15 → l ∈ segment s lba ↔ lseg_of s l = lseg_of s lba.
Proof.
  intros Hb. unfold segment. rewrite elem_of_seqZ. destruct (entry_num_eq s Hb) as [_ Hn]. split; [intros H; by apply in_segment|]. intros E.
  destruct (split_lba s lba Hb) as (_ & _ & H1 & H2). destruct (split_lba s l Hb) as (_ & _ & H3 & H4). rewrite E in H4. lia.
Qed.

(** A segment with the new entry [x'], after which nothing but the cached segments differs. *)
Lemma placed s0 s t s4 lba x x' b empties :
  alike s0 s → in_map s lba → rd (bmap s) (lseg_of s lba) = Some x → seg_ok s x' → put_seg s (lseg_of s lba) x' = Some t → kept t s4 →
  (∀ l, in_map s l → lseg_of s l = lseg_of s lba → seg_view s x' l = Some (if empties : bool then ADDR_EMPTY else view s l)) →
  invalidated s = (if empties then dead (view s0 <$> segment s0 lba) else []) ++ invalidated s0 →
  (m_map x' =? BLOCK_MAP) = b → restreamed s0 s4 lba b empties.
Proof.
  intros Ha Hm Hx Hok Et Hk Hv Hi <-. pose proof (al_wf _ _ Ha) as Hw. pose proof (al_frame _ _ Ha) as Hf0.
  destruct (put_seg_ok s lba x' Hw Hm Hok) as (t' & Et' & Hwt & Het & Hxt & Hlt & Hvt).
  assert (t' = t) as -> by congruence. pose proof (env_frame s t Het Hlt) as Hft. pose proof (al_frame _ _ (kept_alike _ _ Hk)) as Hf4.
  split; [apply Hk|by eapply l2p_frame_trans; [|eapply l2p_frame_trans]| | |].
  - intros l. rewrite (kept_whole t s4), <- (alike_whole s0 s Ha) by done. rewrite <- (frame_lseg s0 s Hf0 l), <- (frame_lseg s0 s Hf0 lba).
    unfold whole. rewrite (frame_lseg s t) by done. unfold put_seg in Et. apply bind_Some in Et as (m & Hwr & [= Et]). rewrite <- Et. cbn [bmap].
    change (bmap (s <| bmap := m |>)) with m. rewrite (rd_wr _ _ _ _ _ Hwr). destruct (Z.eqb_spec (lseg_of s l) (lseg_of s lba)) as [E|E].
    + by rewrite decide_True.
    + by rewrite decide_False by congruence.
  - intros l. rewrite (kept_view t s4) by done. destruct (decide (in_map s l)) as [Hml|Hml].
    + rewrite (Hvt l Hml). assert (Hin : lseg_of s l = lseg_of s lba ↔ l ∈ segment s0 lba).
      { rewrite in_segment_list by (rewrite <- (fr_fmt _ _ Hf0); apply Hw). by rewrite !(frame_lseg s0 s). }
      destruct (Z.eqb_spec (lseg_of s l) (lseg_of s lba)) as [E|E]; [rewrite (Hv l Hml E); cbn|]; unfold erase; rewrite ?(alike_view s0 s Ha);
        destruct empties; try done; [by rewrite bool_decide_true by (by apply Hin)|by rewrite bool_decide_false by (by rewrite <- Hin)].
    + rewrite view_out; [|by rewrite (frame_in_map s t)|apply Hwt].
      assert (view s l = ADDR_EMPTY) as H by (apply view_out; [done|apply Hw]). unfold erase. rewrite <- (alike_view s0 s Ha l), H.
      destruct empties; [by case_bool_decide|done].
  - by rewrite (es_inv _ _ (kp_env _ _ Hk)), (es_inv _ _ Het), Hi.
Qed.

Lemma dead_empty l : Forall (λ p, p = ADDR_EMPTY) l → dead l = [].
Proof. intros H. unfold dead. rewrite filter_false; [done|]. apply (Forall_impl _ _ _ H). by intros ? ->. Qed.

Section SetStream.
Context (s : l2p) (lba i : Z) (x : seg) (log : pblk_lstream).
Context (Hw : wf s) (Hl : 0 ≤ lba < l_nr_secs s) (Hx : rd (bmap s) (lseg_of s lba) = Some x) (Hi : rd (lstreams s) i = Some log).

Let Hm : in_map s lba := sec_in_map s lba Hw Hl.
Let Hok : seg_ok s x := rd_Forall _ _ _ _ (wf_segs _ Hw) Hx.
Let Hso : stream_ok (entry_num s) log := proj1 (stream_at s i log Hw Hi).

(** A segment without a map. *)
Lemma first_map_ok :
  m_map x = NONE_MAP →
  ∃ t s4, put_seg s (lseg_of s lba) ((first_map s x (map_type log)) <| m_cached := false |> <| m_lstream := i |>) = Some t ∧
    pblk_change_map t (lseg_of s lba) = Some s4 ∧ restreamed s s4 lba (map_type log =? BLOCK_MAP) (map_type log =? BLOCK_MAP).
Proof using Hw Hl Hx Hi Hm Hok Hso.
  intros Hn. destruct (entry_num_eq s (wf_bits _ Hw)) as [_ Hen].
  set (x' := (first_map s x (map_type log)) <| m_cached := false |> <| m_lstream := i |>).
  assert (seg_ok s x' ∧ (m_map x' =? BLOCK_MAP) = (map_type log =? BLOCK_MAP) ∧ ∀ l, seg_view s x' l = Some ADDR_EMPTY) as (Hok' & Hb & Hv).
  { destruct Hso as [[Ht|Ht] _]; unfold x', first_map; rewrite Ht.
    - assert (Hlen : Z.of_nat (length (fresh_smap s)) = entry_num s) by (unfold fresh_smap; rewrite length_replicate; lia).
      split; [apply (SegSector s i log); [done..|by apply Forall_replicate]|]. split; [done|]. intros l.
      trans (rd (fresh_smap s) (loff_of s l)); [apply (sector_view s i log); [done|done|by apply Forall_replicate]|].
      destruct (split_lba s l (wf_bits _ Hw)) as (_ & _ & Ho & _). apply rd_Some. split; [lia|]. apply lookup_replicate. split; [done|lia].
    - split; [by apply (SegEmpty s i log)|]. split; [done|]. intros l. unfold seg_view. cbn [m_map m_lstream].
      change (BLOCK_MAP =? NONE_MAP) with false. cbn iota.
      cbn -[rd]. rewrite Hi. cbn [mbind option_bind]. unfold get_in. by rewrite Ht. }
  destruct (put_seg_ok s lba x' Hw Hm Hok') as (t & Et & Hwt & Het & _ & Hlt & _). exists t. pose proof (env_frame s t Het Hlt) as Hft.
  destruct (change_wf t lba Hwt) as (s4 & E4 & Hw4 & Hs4); [by apply (frame_in_map s t)|]. rewrite (frame_lseg s t) in E4 by done.
  exists s4. split; [done|]. split; [done|].
  assert (Hempty : ∀ l, lseg_of s l = lseg_of s lba → view s l = ADDR_EMPTY) by (intros l E; apply (none_view s x); [by rewrite E|done]).
  apply (placed s s t s4 lba x x'); [by apply wf_like|done|done|done|done|by apply kept_same| | |done].
  - intros l _ E. rewrite Hv, (Hempty l E). by destruct (map_type log =? _).
  - rewrite dead_empty; [by destruct (map_type log =? _)|]. apply Forall_fmap, Forall_forall.
    intros l Hin%in_segment_list; [by apply Hempty|apply Hw].
Qed.

(** A segment of a stream of the same kind. *)
Lemma relabel_ok :
  m_map x ≠ NONE_MAP → (m_map x =? BLOCK_MAP) = (map_type log =? BLOCK_MAP) →
  ∃ s4, put_seg s (lseg_of s lba) (x <| m_lstream := i |>) = Some s4 ∧ restreamed s s4 lba (map_type log =? BLOCK_MAP) false.
Proof using Hw Hl Hx Hi Hm Hok Hso.
  intros Hn Hb. assert (seg_ok s (x <| m_lstream := i |>) ∧ ∀ l, seg_view s (x <| m_lstream := i |>) l = seg_view s x l) as [Hok' Hv].
  { assert (Hr : ∀ st, map_type st = map_type log → ∀ j, rd (lstreams s) j = Some st → ∀ y : seg, m_lstream y = j → ∀ l, seg_view s (y <| m_lstream := i |>) l = seg_view s y l).
    { intros st Ht j Hj y <- l. unfold seg_view. cbn [m_map m_lstream]. change (m_map (y <| m_lstream := i |>)) with (m_map y).
      destruct (m_map y =? NONE_MAP); [done|].
      change (m_lstream (y <| m_lstream := i |>)) with i. rewrite Hi, Hj. cbn [mbind option_bind]. unfold get_in. by rewrite Ht. }
    destruct Hso as [Hty _].
    destruct Hok as [v|j st l Hst Ht Hlen Ha|j st l Hst Ht Hlen Ha Hd|j st Hst Ht|j st blk Hst Ht Hblk]; cbn [m_map] in *; try done;
      (split; [|apply (Hr st) with j; [|done|done]]); destruct Hty as [Hty|Hty]; rewrite Hty in *; try done.
    - by apply (SegSector s i log).
    - by apply (SegLog s i log).
    - by apply (SegEmpty s i log).
    - by apply (SegBlock s i log). }
  destruct (put_seg_ok s lba _ Hw Hm Hok') as (t & Et & Hwt & Het & _). exists t. split; [done|].
  apply (placed s s t t lba x (x <| m_lstream := i |>)); [by apply wf_like|done|done|done|done|by apply kept_same| |done|done].
  intros l Hml E. rewrite Hv. apply (view_eq s x); [done|by rewrite E|done].
Qed.
(** The sectors of the segment, as the loops see them. *)
Lemma segment_start : Z.shiftl (lseg_of s lba) (blk_offset (l_fmt s)) = lba - loff_of s lba.
Proof using Hw.
  destruct (split_lba s lba (wf_bits _ Hw)) as (_ & _ & _ & E). destruct (entry_num_eq s (wf_bits _ Hw)) as [En _].
  rewrite Z.shiftl_mul_pow2, <- En by (pose proof (wf_bits _ Hw); lia). lia.
Qed.

Lemma segment_in_map j : 0 ≤ j < Z.of_nat (Z.to_nat (entry_num s)) → in_map s (lba - loff_of s lba + j).
Proof using Hw Hm. intros Hj. apply seg_start; [done|done|lia]. Qed.

Lemma segment_nth j : 0 ≤ j < entry_num s → rd (view s <$> segment s lba) j = Some (view s (lba - loff_of s lba + j)).
Proof using. intros Hj. rewrite rd_map. unfold segment. rewrite (proj2 (rd_Some _ _ (lba - loff_of s lba + j))); [done|]. split; [lia|]. rewrite lookup_seqZ. lia. Qed.

(** A segment that was mapped as a whole gets a map of sectors. *)
Lemma to_sectors_ok :
  m_map x = BLOCK_MAP → map_type log = SECTOR_MAP →
  ∃ s1 s2 s3 s4, let y := x <| seg_val_of := SArray (view s <$> segment s lba) |> <| m_map := SECTOR_MAP |> <| m_cached := false |> in
    copy_sectors (Z.to_nat (entry_num s)) s (lba - loff_of s lba) = Some (s1, view s <$> segment s lba) ∧ put_seg s1 (lseg_of s lba) y = Some s2 ∧
    pblk_change_map s2 (lseg_of s lba) = Some s3 ∧ rd (bmap s3) (lseg_of s lba) = Some y ∧ put_seg s3 (lseg_of s lba) (y <| m_lstream := i |>) = Some s4 ∧
    restreamed s s4 lba false false.
Proof using Hw Hl Hx Hi Hm Hok Hso.
  intros Hmx Ht. destruct (entry_num_eq s (wf_bits _ Hw)) as [_ Hen]. destruct (seg_stream s x Hw Hok) as (st & Hst & _).
  destruct (copy_sectors_ok (Z.to_nat (entry_num s)) s (lba - loff_of s lba) Hw segment_in_map) as (s1 & E1 & Hk).
  rewrite Z2Nat.id in E1 by lia. change (seqZ _ _) with (segment s lba) in E1. pose proof (kp_wf _ _ Hk) as Hw1. pose proof (kept_alike _ _ Hk) as Ha.
  pose proof (al_frame _ _ Ha) as Hf.
  set (y := x <| seg_val_of := SArray (view s <$> segment s lba) |> <| m_map := SECTOR_MAP |> <| m_cached := false |>).
  assert (Hokl : Forall (addr_ok s1) (view s <$> segment s lba)).
  { apply Forall_fmap, Forall_forall. intros l _. cbn. by apply (frame_addr_ok s s1), view_addr_ok. }
  assert (Hi1 : rd (lstreams s1) i = Some log) by (by rewrite (es_streams _ _ (kp_env _ _ Hk))).
  assert (Hlen : Z.of_nat (length (view s <$> segment s lba)) = entry_num s1) by (rewrite length_fmap, (frame_entry_num s s1) by done; unfold segment; rewrite length_seqZ; lia).
  assert (Hm1 : in_map s1 lba) by (by apply (frame_in_map s s1)).
  assert (Hx1 : rd (bmap s1) (lseg_of s1 lba) = Some x) by (by rewrite (frame_lseg s s1), (kp_bmap _ _ Hk)).
  assert (Hoky : seg_ok s1 (y <| m_lstream := i |>)) by (by apply (SegSector s1 i log)).
  destruct (swap_entry s1 lba x y i st Hw1 Hm1 Hx1) as (s2 & s3 & s4 & t & E2 & E3 & E4 & E5 & Et & Hkt); [by rewrite (es_streams _ _ (kp_env _ _ Hk))|done|].
  rewrite (frame_lseg s s1 Hf lba) in E2, E3, E4, E5. exists s1, s2, s3, s4. cbn zeta. do 5 (split; [done|]).
  apply (placed s s1 t s4 lba x (y <| m_lstream := i |>)); [done|done|done|done|done|done| |apply Hk|done].
  intros l Hml E. trans (rd (view s <$> segment s lba) (loff_of s1 l)); [by apply (sector_view s1 i log)|].
  rewrite (frame_loff s s1), (alike_view s s1) by done.
  destruct (split_lba s l (wf_bits _ Hw)) as (_ & _ & Ho & _). rewrite segment_nth by done. do 2 f_equal.
  rewrite !(frame_lseg s s1) in E by done. apply in_segment_list in E; [|apply Hw]. unfold segment in E. apply elem_of_seqZ in E.
  destruct (in_segment s lba l (wf_bits _ Hw)); lia.
Qed.

(** A segment that was mapped sector by sector is given up. *)
Lemma to_block_ok :
  m_map x = SECTOR_MAP → map_type log = BLOCK_MAP →
  ∃ s1 s3 s4 y, drop_sectors (Z.to_nat (entry_num s)) s (lba - loff_of s lba) = Some s1 ∧ pblk_empty_map_set s1 lba = Some s3 ∧
    rd (bmap s3) (lseg_of s lba) = Some y ∧ put_seg s3 (lseg_of s lba) (y <| m_lstream := i |>) = Some s4 ∧ restreamed s s4 lba true true.
Proof using Hw Hl Hx Hi Hm Hok Hso.
  intros Hmx Ht. destruct (entry_num_eq s (wf_bits _ Hw)) as [_ Hen]. destruct (seg_stream s x Hw Hok) as (st & Hst & _).
  destruct (drop_sectors_ok (Z.to_nat (entry_num s)) s (lba - loff_of s lba) Hw segment_in_map) as (s1 & E1 & Ha & Hd).
  rewrite Z2Nat.id in Hd by lia. change (seqZ _ _) with (segment s lba) in Hd. pose proof (al_frame _ _ Ha) as Hf. pose proof (al_wf _ _ Ha) as Hw1.
  destruct (not_preinvalid_ok s1 lba Hw1) as (s2 & E2 & Hk2); [by rewrite (fr_secs _ _ Hf)|].
  set (s3 := pblk_delete_cmt s2 (lseg_of s lba)). destruct (delete_ok s2 (lseg_of s lba) (wf_cmt _ (kp_wf _ _ Hk2))) as [Hc3 Hs3].
  assert (Hk3 : kept s2 s3) by (apply kept_same; [by apply (wf_same s2); [apply Hk2|..]|done]). pose proof (l2p_kept_trans _ _ _ Hk2 Hk3) as Hk.
  pose proof (alike_trans _ _ _ Ha (kept_alike _ _ Hk)) as Ha3. pose proof (al_frame _ _ Ha3) as Hf3. pose proof (kp_wf _ _ Hk) as Hw3.
  set (y := x <| m_map := BLOCK_MAP |> <| seg_val_of := SEmpty |> <| m_cached := false |>).
  assert (Hty : ∀ j b, rd (lstreams s) j = Some b → ∃ a, rd (lstreams s3) j = Some a ∧ map_type a = map_type b).
  { intros j b Hj. pose proof (frame_type s s3 Hf3 j) as H. rewrite Hj in H. destruct (rd (lstreams s3) j) as [a|]; [|done]. exists a. split; [done|].
    by injection H. }
  destruct (Hty _ _ Hi) as (log3 & Hi3 & Ht3). destruct (Hty _ _ Hst) as (st3 & Hst3 & _). rewrite Ht in Ht3.
  destruct (swap_entry s3 lba x y i st3 Hw3) as (t2 & t3 & s4 & t & F2 & F3 & F4 & F5 & Et & Hkt);
    [by apply (frame_in_map s s3)|by rewrite (frame_lseg s s3), (al_bmap _ _ Ha3)|done|by apply (SegEmpty s3 i log3)|].
  rewrite (frame_lseg s s3 Hf3 lba) in F2, F3, F4, F5. exists s1, t3, s4, y. split; [done|]. split.
  { unfold pblk_empty_map_set. rewrite (frame_lseg s s1 Hf lba), (al_bmap _ _ Ha), Hx. cbn [mbind option_bind]. rewrite E2. cbn [mbind option_bind].
    change (pblk_delete_cmt s2 (lseg_of s lba)) with s3.
    change (x <| m_map := BLOCK_MAP |> <| seg_val_of := SEmpty |> <| m_cached := false |>) with y.
    rewrite F2. cbn [mbind option_bind]. done. }
  split; [done|]. split; [done|]. apply (placed s s3 t s4 lba x (y <| m_lstream := i |>));
    [done|by apply (frame_in_map s s3)|by rewrite (frame_lseg s s3), (al_bmap _ _ Ha3)|by apply (SegEmpty s3 i log3)|done|done| | |done].
  - intros l _ _. unfold seg_view. change (m_map (y <| m_lstream := i |>)) with BLOCK_MAP. change (BLOCK_MAP =? NONE_MAP) with false. cbn iota.
    change (m_lstream (y <| m_lstream := i |>)) with i. rewrite Hi3. cbn [mbind option_bind]. unfold get_in. by rewrite Ht3.
  - by rewrite (es_inv _ _ (kp_env _ _ Hk)), Hd.
Qed.
End SetStream.

Lemma set_lstream_ok s lba i :
  wf s → 0 ≤ lba < l_nr_secs s → 0 ≤ i →
  ∃ s', pblk_set_lstream s lba i = Some s' ∧ restreamed s s' lba (to_block s i) (to_block s i && negb (whole s lba)).
Proof.
  intros Hw Hl Hi0. pose proof (sec_in_map s lba Hw Hl) as Hm. destruct (in_map_seg s lba Hw Hm) as (x & Hx & Hok).
  pose proof types_differ as (Tsb & _).
  assert (∃ log, rd (lstreams s) (target s i) = Some log) as [log Hlog].
  { unfold target. destruct (wf_streams _ Hw) as [Hn _ _ (st & Hst & _)]. destruct (Z.leb_spec (nr_lstream s) i); [by eauto|]. apply rd_is_Some. lia.
    }
  destruct (stream_at s _ _ Hw Hlog) as [[Hty _] _]. unfold pblk_set_lstream, to_block. fold (target s i). rewrite segment_start by done.
  unfold whole. rewrite Hx. cbn [mbind option_bind]. rewrite Hlog. cbn [mbind option_bind].
  destruct (Z.eqb_spec (m_map x) NONE_MAP) as [Hn|Hn].
  { destruct (first_map_ok s lba (target s i) x log Hw Hl Hx Hlog Hn) as (t & s4 & E1 & E2 & Hr). rewrite E1. cbn [mbind option_bind]. exists s4.
    split; [done|]. rewrite Hn. change (NONE_MAP =? BLOCK_MAP) with false. cbn [negb]. by rewrite andb_true_r. }
  destruct (map_stream s x Hw Hok Hn) as (st & Hst & _ & Hold). rewrite Hst. cbn [mbind option_bind].
  assert (Hkind : (map_type st = SECTOR_MAP ∧ m_map x = SECTOR_MAP) ∨ (map_type st = BLOCK_MAP ∧ m_map x = BLOCK_MAP)).
  { destruct Hold as [Ht|[Ht Hb]]; [left; split; [done|]|right; split; [done|by apply (block_map s x)]]. destruct Hok; cbn in *; try done; congruence.
    }
  destruct Hkind as [[Ht Hmx]|[Ht Hmx]], Hty as [Hty|Hty]; rewrite Ht, Hty; cbn [mbind option_bind]; rewrite ?Hmx.
  - destruct (relabel_ok s lba (target s i) x log Hw Hl Hx Hlog) as (s4 & E & Hr); [done|by rewrite Hmx, Hty|]. rewrite Hty in Hr. cbn. rewrite Hx.
    cbn [mbind option_bind]. by exists s4.
  - destruct (to_block_ok s lba (target s i) x log Hw Hl Hx Hlog Hmx Hty) as (s1 & s3 & s4 & y & E1 & E2 & E3 & E4 & Hr).
    exists s4. cbn. rewrite E1. cbn [mbind option_bind]. rewrite E2. cbn [mbind option_bind]. rewrite E3. done.
  - destruct (to_sectors_ok s lba (target s i) x log Hw Hl Hx Hlog Hmx Hty) as (s1 & s2 & s3 & s4 & E1 & E2 & E3 & E4 & E5 & Hr).
    exists s4. cbn. rewrite E1. cbn [mbind option_bind ensure]. rewrite E2. cbn [mbind option_bind]. rewrite E3. cbn [mbind option_bind]. rewrite E4.
    done.
  - destruct (relabel_ok s lba (target s i) x log Hw Hl Hx Hlog) as (s4 & E & Hr); [done|by rewrite Hmx, Hty|]. rewrite Hty in Hr. cbn. rewrite Hx.
    cbn [mbind option_bind]. by exists s4.
Qed.
