(* ===== verification/PblkMapThms.v ===== *)
(** * The map of pblk: theorems

    Requests to the map, the plain map they stand for, and what holds after each request and each sequence of requests from the
    set-up on.  A plain map gives each sector an address, and knows the addresses that were invalidated.  Between
    requests the entries of the buffers change as the threads of the buffers want it, but none is reserved, which only
    streams that are mapped page by page would do. *)

From stdpp Require Import functions.
From S2P Require Import Prelude RingBuffer PblkAddr PblkLine PblkInit PblkMap PblkMapInv PblkMapRun.

Open Scope Z_scope.

(** ** Requests *)

Inductive request :=
  | Update (lba : Z) (p : ppa_addr)                        (* pblk_update_map *)
  | ToBuffer (lba : Z) (p : ppa_addr)                      (* pblk_update_map_cache *)
  | Collect (lba : Z) (p : ppa_addr) (line : Z)            (* pblk_update_map_gc *)
  | ToDevice (lba : Z) (p entry_line : ppa_addr)           (* pblk_update_map_dev *)
  | Lookup (lba : Z) (n : nat)                             (* pblk_lookup_l2p_seq *)
  | LookupList (ppas : list ppa_addr) (lbas : list Z)      (* pblk_lookup_l2p_rand *)
  | Discard (slba n : Z)                                   (* pblk_invalidate_range *)
  | SetStream (lba i : Z)                                  (* pblk_set_lstream *)
  | Buffers (rbs : list pblk_rb).                          (* the buffers move on *)

Inductive answer := Nothing | Moved (b : bool) | Found (l : list ppa_addr).

Definition step (s : l2p) (r : request) : option (l2p * answer) :=
  match r with
  | Update lba p => s ← pblk_update_map s lba p; Some (s, Nothing)
  | ToBuffer lba p => s ← pblk_update_map_cache s lba p; Some (s, Nothing)
  | Collect lba p line => '(s, b) ← pblk_update_map_gc s lba p line; Some (s, Moved b)
  | ToDevice lba p e => s ← pblk_update_map_dev s lba p e; Some (s, Nothing)
  | Lookup lba n => '(s, l) ← pblk_lookup_l2p_seq n s lba; Some (s, Found l)
  | LookupList ppas lbas => '(s, l) ← pblk_lookup_l2p_rand s ppas lbas; Some (s, Found l)
  | Discard slba n => s ← pblk_invalidate_range s slba n; Some (s, Nothing)
  | SetStream lba i => s ← pblk_set_lstream s lba i; Some (s, Nothing)
  | Buffers rbs => Some (s <| rwbs := rbs |>, Nothing)
  end.

(** What the callers see to.  Segments that are mapped as a whole are written from sector 8 to the 17th before the last, each
    sector at the same place of one line. *)
Definition valid (s : l2p) (r : request) : Prop :=
  match r with
  | Update lba p => 0 ≤ lba ∧ addr_ok s p ∧ (lba < l_nr_secs s → trans_rule s lba p)
  | ToBuffer lba p => 0 ≤ lba < l_nr_secs s ∧ in_buffer s p ∧ cache_rule s lba
  | Collect lba p _ => 0 ≤ lba ∧ in_buffer s p
  | ToDevice lba p e => 0 ≤ lba ∧ addr_ok s p ∧ is_dev p = true ∧ pblk_addr_in_cache e = true ∧ (current s lba e = true → dev_rule s lba p)
  | Lookup lba n => 0 ≤ lba ∧ lba + Z.of_nat n ≤ l_nr_secs s
  | LookupList ppas lbas => length ppas = length lbas ∧ Forall (λ lba, 0 ≤ lba) lbas
  | Discard slba n => 0 ≤ slba ∧ 0 ≤ n ∧ slba + n ≤ l_nr_secs s
  | SetStream lba i => 0 ≤ lba < l_nr_secs s ∧ 0 ≤ i
  | Buffers rbs => nr_entries <$> rbs = nr_entries <$> rwbs s ∧ Forall ring_plain rbs
  end.

(** ** The plain map *)

Record plain_map := { p_map : Z → ppa_addr; p_dead : list ppa_addr; p_rings : list pblk_rb }.

(** Each change of a plain map: a sector is put somewhere, with or without its old address being invalid then; an address is
    invalid; sectors are emptied. *)
Definition put (m : plain_map) (lba : Z) (p : ppa_addr) : plain_map := {| p_map := <[lba := p]> (p_map m); p_dead := p_dead m; p_rings := p_rings m |}.
Definition kill (m : plain_map) (l : list ppa_addr) : plain_map := {| p_map := p_map m; p_dead := dead l ++ p_dead m; p_rings := p_rings m |}.
Definition replace_at (m : plain_map) (lba : Z) (p : ppa_addr) : plain_map := put (kill m [p_map m lba]) lba p.
Definition wipe (m : plain_map) (l : list Z) : plain_map :=
  {| p_map := erase (p_map m) l; p_dead := dead (p_map m <$> l) ++ p_dead m; p_rings := p_rings m |}.

(** What a request does to a plain map.  Of the state [s] it takes the number of sectors and which segments and streams are
    mapped as a whole. *)
Definition plain_step (s : l2p) (m : plain_map) (r : request) : plain_map * answer :=
  match r with
  | Update lba p => (if lba <? l_nr_secs s then replace_at m lba p else m, Nothing)
  | ToBuffer lba p => (replace_at m lba p, Nothing)
  | Collect lba p line =>
      let ok := (lba <? l_nr_secs s) && bool_decide (pblk_tgt_ppa_to_line (landed_in (p_rings m) (p_map m lba)) = Some line) && negb (whole s lba) in
      (if ok then put m lba p else m, Moved ok)
  | ToDevice lba p e =>
      (if lba =? LBA_EMPTY then kill m [p]
       else if lba <? l_nr_secs s then if bool_decide (p_map m lba = e) then put m lba p else kill m [p]
       else m, Nothing)
  | Lookup lba n => (m, Found (p_map m <$> seqZ lba (Z.of_nat n)))
  | LookupList ppas lbas =>
      (m, Found (zip_with (λ lba p, if lba =? LBA_EMPTY then ADDR_EMPTY else if lba <? l_nr_secs s then landed_in (p_rings m) (p_map m lba) else p) lbas ppas))
  | Discard slba n => (wipe m (erased s slba (slba + n)), Nothing)
  | SetStream lba i => (if to_block s i && negb (whole s lba) then wipe m (segment s lba) else m, Nothing)
  | Buffers rbs => ({| p_map := p_map m; p_dead := p_dead m; p_rings := rbs |}, Nothing)
  end.

(** The plain map of a state. *)
Record shows (s : l2p) (m : plain_map) : Prop := {
  sh_map : ∀ lba, view s lba = p_map m lba;
  sh_dead : invalidated s = p_dead m;
  sh_rings : rwbs s = p_rings m
}.

(** What a request keeps besides: which segments are mapped as a whole, but for [SetStream]. *)
Definition keeps_whole (s s' : l2p) (r : request) : Prop :=
  ∀ l, whole s' l = match r with SetStream lba i => if lseg_of s l =? lseg_of s lba then to_block s i else whole s l | _ => whole s l end.

(** What no request and nothing else changes. *)
Record stable (s s' : l2p) : Prop := {
  sb_fmt : l_fmt s' = l_fmt s;
  sb_lines : l_nr_lines s' = l_nr_lines s;
  sb_secs : l_nr_secs s' = l_nr_secs s;
  sb_rings : nr_entries <$> rwbs s' = nr_entries <$> rwbs s;
  sb_nr : nr_lstream s' = nr_lstream s;
  sb_types : map_type <$> lstreams s' = map_type <$> lstreams s
}.

Lemma frame_stable s s' : frame s s' → stable s s'.
Proof. intros []. split; congruence. Qed.

Lemma stable_trans s1 s2 s3 : stable s1 s2 → stable s2 s3 → stable s1 s3.
Proof. intros [] []. split; congruence. Qed.

(** The effect of a request. *)
Record effect (s s' : l2p) (r : request) (a : answer) : Prop := {
  ef_wf : wf s';
  ef_stable : stable s s';
  ef_whole : keeps_whole s s' r;
  ef_map : ∀ m, shows s m → shows s' (plain_step s m r).1 ∧ a = (plain_step s m r).2
}.

Lemma after_shows s s' f d m m' :
  after s s' f d → shows s m → (∀ lba, f lba = p_map m' lba) → d = p_dead m' → p_rings m = p_rings m' → shows s' m'.
Proof.
  intros H Hm Hf Hd Hr. split; [intros lba; by rewrite (af_view _ _ _ _ H)|by rewrite (af_dead _ _ _ _ H)|].
  by rewrite (fr_rwbs _ _ (af_frame _ _ _ _ H)), <- Hr, (sh_rings _ _ Hm).
Qed.

Lemma insert_shows s m lba p : shows s m → ∀ l, <[lba := p]> (view s) l = <[lba := p]> (p_map m) l.
Proof.
  intros Hm l. pose proof (sh_map _ _ Hm) as Hv. destruct (decide (lba = l)) as [->|]; [by rewrite !fn_lookup_insert|by rewrite !fn_lookup_insert_ne].
Qed.

Lemma erase_shows s m l : shows s m → ∀ lba, erase (view s) l lba = erase (p_map m) l lba.
Proof. intros Hm lba. unfold erase. by rewrite (sh_map _ _ Hm). Qed.

Lemma views_shows s m (l : list Z) : shows s m → view s <$> l = p_map m <$> l.
Proof. intros Hm. apply list_fmap_ext. intros _ lba _. apply Hm. Qed.

Lemma dead_dev p : is_dev p = true → dead [p] = [p].
Proof. intros H. unfold dead. by rewrite filter_cons_True. Qed.

Lemma update_effect s lba p : wf s → valid s (Update lba p) → ∃ s' a, step s (Update lba p) = Some (s', a) ∧ effect s s' (Update lba p) a.
Proof.
  intros Hw (Hl & Hp & Hr). cbn [step]. destruct (Z.ltb_spec lba (l_nr_secs s)) as [Hs|Hs].
  - destruct (update_map_ok s lba p Hw (conj Hl Hs) Hp (Hr Hs)) as (s' & E & Ha). rewrite E. exists s', Nothing. split; [done|].
    split; [apply Ha|apply frame_stable, Ha|exact (af_whole _ _ _ _ Ha)|]. intros m Hm. split; [|done]. cbn [plain_step].
    rewrite (proj2 (Z.ltb_lt _ _)) by done.
    apply (after_shows _ _ _ _ m _ Ha Hm); [exact (insert_shows s m lba p Hm)| |done]. destruct Hm as [Hm Hd]. cbn. by rewrite Hm, Hd.
  - unfold pblk_update_map. rewrite (proj2 (Z.ltb_ge _ _)) by done. exists (warn s), Nothing. split; [done|].
    pose proof (alike_after _ _ (warn_alike s Hw)) as Ha.
    split; [apply Ha|apply frame_stable, Ha|exact (af_whole _ _ _ _ Ha)|]. intros m Hm. split; [|done]. cbn [plain_step].
    rewrite (proj2 (Z.ltb_ge _ _)) by done. apply (after_shows _ _ _ _ m _ Ha Hm); [apply Hm|apply Hm|done].
Qed.

Lemma buffer_effect s lba p : wf s → valid s (ToBuffer lba p) → ∃ s' a, step s (ToBuffer lba p) = Some (s', a) ∧ effect s s' (ToBuffer lba p) a.
Proof.
  intros Hw (Hl & Hb & Hr). destruct (update_map_cache_ok s lba p Hw Hl Hb Hr) as (s' & E & Ha). cbn [step]. rewrite E. exists s', Nothing.
  split; [done|].
  split; [apply Ha|apply frame_stable, Ha|exact (af_whole _ _ _ _ Ha)|]. intros m Hm. split; [|done].
  apply (after_shows _ _ _ _ m _ Ha Hm); [exact (insert_shows s m lba p Hm)| |done].
  destruct Hm as [Hm Hd]. cbn. by rewrite Hm, Hd.
Qed.

Lemma collect_effect s lba p line : wf s → valid s (Collect lba p line) → ∃ s' a, step s (Collect lba p line) = Some (s', a) ∧ effect s s' (Collect lba p line) a.
Proof.
  intros Hw (Hl & Hb). destruct (update_map_gc_ok s lba p line Hw Hl Hb) as (s' & E & Ha). cbn [step]. rewrite E. eexists s', _. split; [done|].
  split; [apply Ha|apply frame_stable, Ha|exact (af_whole _ _ _ _ Ha)|]. intros m Hm. cbn [plain_step].
  rewrite <- (sh_map _ _ Hm lba), <- (sh_rings _ _ Hm). fold (landed s (view s lba)).
  fold (collectable s lba line). split; [|done]. cbn [fst].
  destruct (collectable s lba line); apply (after_shows _ _ _ _ m _ Ha Hm); try done; try apply Hm. exact (insert_shows s m lba p Hm).
Qed.

Lemma device_effect s lba p e : wf s → valid s (ToDevice lba p e) → ∃ s' a, step s (ToDevice lba p e) = Some (s', a) ∧ effect s s' (ToDevice lba p e) a.
Proof.
  intros Hw (Hl & Hp & Hd & Hc & Hr). destruct (update_map_dev_ok s lba p e Hw Hl Hp Hd Hc Hr) as (s' & E & Ha). cbn [step]. rewrite E. eexists s', _.
  split; [done|].
  split; [apply Ha|apply frame_stable, Ha|exact (af_whole _ _ _ _ Ha)|]. intros m Hm. split; [|done]. cbn [plain_step fst]. unfold current in Ha.
  rewrite (sh_map _ _ Hm lba) in Ha.
  destruct (lba =? LBA_EMPTY), (lba <? l_nr_secs s), (bool_decide (p_map m lba = e)); cbn [negb andb orb app] in *;
    apply (after_shows _ _ _ _ m _ Ha Hm); cbn [kill put p_map p_dead]; rewrite ?dead_dev, ?(sh_dead _ _ Hm) by done; try done; try apply Hm; exact (insert_shows s m lba p Hm).
Qed.

Lemma lookup_effect s lba n : wf s → valid s (Lookup lba n) → ∃ s' a, step s (Lookup lba n) = Some (s', a) ∧ effect s s' (Lookup lba n) a.
Proof.
  intros Hw (Hl & Hn). destruct (lookup_seq_ok n s lba Hw) as (s' & E & Hk); [intros i Hi; apply sec_in_map; [done|lia]|]. cbn [step]. rewrite E.
  eexists s', _. split; [done|].
  pose proof (kept_after _ _ Hk) as Ha. split; [apply Ha|apply frame_stable, Ha|exact (af_whole _ _ _ _ Ha)|]. intros m Hm. cbn [plain_step fst snd].
  split; [|by rewrite (views_shows s m)].
  apply (after_shows _ _ _ _ m _ Ha Hm); [apply Hm|apply Hm|done].
Qed.

Lemma list_effect s ppas lbas : wf s → valid s (LookupList ppas lbas) → ∃ s' a, step s (LookupList ppas lbas) = Some (s', a) ∧ effect s s' (LookupList ppas lbas) a.
Proof.
  intros Hw (Hl & Hn). destruct (lookup_rand_ok lbas s ppas Hw Hl Hn) as (s' & E & Hal & Hi). cbn [step]. rewrite E. eexists s', _. split; [done|].
  pose proof (alike_after _ _ Hal) as Ha. split; [apply Ha|apply frame_stable, Ha|exact (af_whole _ _ _ _ Ha)|]. intros m Hm.
  cbn [plain_step fst snd]. split.
  - apply (after_shows _ _ _ _ m _ Ha Hm); [apply Hm| |done]. rewrite Hi. apply Hm.
  - f_equal. apply zip_with_ext; [|done|done]. intros lba p. unfold rand_addr, landed. by rewrite (sh_map _ _ Hm), (sh_rings _ _ Hm).
Qed.

Lemma discard_effect s slba n : wf s → valid s (Discard slba n) → ∃ s' a, step s (Discard slba n) = Some (s', a) ∧ effect s s' (Discard slba n) a.
Proof.
  intros Hw (H1 & H2 & H3). destruct (invalidate_range_ok s slba n Hw H1 H2 H3) as (s' & E & Ha). cbn [step]. rewrite E. eexists s', _.
  split; [done|].
  split; [apply Ha|apply frame_stable, Ha|exact (af_whole _ _ _ _ Ha)|]. intros m Hm. split; [|done].
  apply (after_shows _ _ _ _ m _ Ha Hm); [exact (erase_shows s m _ Hm)| |done].
  cbn. by rewrite (views_shows s m), (sh_dead _ _ Hm).
Qed.

Lemma stream_effect s lba i : wf s → valid s (SetStream lba i) → ∃ s' a, step s (SetStream lba i) = Some (s', a) ∧ effect s s' (SetStream lba i) a.
Proof.
  intros Hw (Hl & Hi). destruct (set_lstream_ok s lba i Hw Hl Hi) as (s' & E & Hr). cbn [step]. rewrite E. eexists s', _. split; [done|].
  split; [apply Hr|apply frame_stable, Hr|exact (re_whole _ _ _ _ _ Hr)|]. intros m Hm. split; [|done]. cbn [plain_step fst].
  destruct Hr as [_ Hf _ Hv Hd].
  destruct (_ && _); (split; [intros l; rewrite Hv|rewrite Hd|rewrite (fr_rwbs _ _ Hf); apply Hm]).
  - by apply erase_shows.
  - cbn. by rewrite (views_shows s m), (sh_dead _ _ Hm).
  - apply Hm.
  - apply Hm.
Qed.

Lemma buffers_effect s rbs : wf s → valid s (Buffers rbs) → ∃ s' a, step s (Buffers rbs) = Some (s', a) ∧ effect s s' (Buffers rbs) a.
Proof.
  intros Hw (Hn & Hr). eexists _, _. split; [done|]. set (s' := s <| rwbs := rbs |>).
  assert (Hlen : length rbs = length (rwbs s)) by (rewrite <- (length_fmap nr_entries), Hn; apply length_fmap).
  assert (Hok : ∀ p, addr_ok s p → addr_ok s' p) by (intros [| |] Hp; [done| |done]; unfold addr_ok, s' in *; cbn [rwbs]; change (rwbs (s <| rwbs := rbs |>)) with rbs; by rewrite Hlen).
  split; [|by split|done|intros m [H1 H2 H3]; split; [by split|done]].
  pose proof Hw as [[] Hfmt Hbits Hsecs Hlen' Hpre [S1 S2 S3 S4] Hsegs Hrings]. split; try done.
  - split; [done| |done|done]. change (length rbs ≤ length (lstreams s))%nat. by rewrite Hlen.
  - apply (Forall_impl _ _ _ Hsegs). intros x Hx.
    destruct Hx as [|i st l Hi Ht Hl Ha|i st l Hi Ht Hl Ha|i st Hi Ht|i st blk Hi Ht]; econstructor; try done;
      by apply (Forall_impl _ _ _ Ha).
Qed.

Lemma request_effect s r : wf s → valid s r → ∃ s' a, step s r = Some (s', a) ∧ effect s s' r a.
Proof.
  intros Hw Hv. destruct r; [by apply update_effect|by apply buffer_effect|by apply collect_effect|by apply device_effect|by apply lookup_effect|
    by apply list_effect|by apply discard_effect|by apply stream_effect|by apply buffers_effect].
Qed.

(** ** From the set-up on *)

(** What the set-up takes for granted: an address of at most 64 bits with segments of 32 to 32768 sectors, a first stream that is
    mapped sector by sector, and buffers, as many as streams at most, without reserved entries. *)
Record setup_ok (fmt : pblk_addr_format) (nr_secs : Z) (block : Z → bool) (rbs : list pblk_rb) : Prop := {
  se_fmt : ∃ l, fmt_of l fmt ∧ lens_ok 64 l;
  se_bits : 5 ≤ blk_offset fmt ≤ 15;
  se_secs : 0 ≤ nr_secs;
  se_first : block 0 = false;
  se_rings : Z.of_nat (length rbs) ≤ MAX_PSTREAM;
  se_plain : Forall ring_plain rbs
}.

Lemma init_wf fmt nr_secs nr_lines block rbs : setup_ok fmt nr_secs block rbs → wf (pblk_l2p_init fmt nr_secs nr_lines block rbs).
Proof.
  intros [Hf Hb Hs H0 Hr Hp]. set (s := pblk_l2p_init fmt nr_secs nr_lines block rbs). assert (Hbits : 5 ≤ blk_offset (l_fmt s) ≤ 15) by done.
  destruct (entry_num_eq s Hbits) as [En Hn].
  assert (Hst : lstreams s = init_lstream (entry_num s) block ∘ Z.of_nat <$> seq 0 (Z.to_nat MAX_PSTREAM)) by done.
  split; try done.
  - split; try done; [apply Forall_nil_2|apply NoDup_nil_2].
  - change (bmap s) with (replicate (Z.to_nat (Z.shiftr nr_secs (blk_offset fmt) + 1)) {| m_map := NONE_MAP; m_lstream := 0; m_cached := false; seg_val_of := SEmpty |}).
    rewrite length_replicate, Z.shiftr_div_pow2, En by lia. change (l_nr_secs s) with nr_secs. change (l_fmt s) with fmt.
    pose proof (Z.div_pos nr_secs (2 ^ blk_offset fmt) Hs ltac:(lia)). lia.
  - change (preinvalid_map s) with (replicate (Z.to_nat nr_secs) 0). rewrite length_replicate. change (l_nr_secs s) with nr_secs. lia.
  - split; rewrite ?Hst; [done|rewrite length_fmap, length_seq; change (rwbs s) with rbs; lia| |].
    + apply Forall_fmap, Forall_true. intros i. unfold compose, init_lstream.
      destruct (block (Z.of_nat i)); (split; cbn [map_type log_size]; [auto|lia]).
    + exists (init_lstream (entry_num s) block 0). split; [done|]. unfold init_lstream. by rewrite H0.
  - apply Forall_replicate. apply SegNone.
Qed.

Lemma init_view fmt nr_secs nr_lines block rbs lba : view (pblk_l2p_init fmt nr_secs nr_lines block rbs) lba = ADDR_EMPTY.
Proof.
  unfold view. destruct (rd (bmap _) _) as [x|] eqn:Hx; [|done]. cbn. apply rd_Some in Hx as [_ Hx]. apply lookup_replicate in Hx as [-> _]. done.
Qed.

(** The states that requests of which [ok] holds lead to. *)
Inductive reachable (ok : l2p → request → Prop) (s0 : l2p) : l2p → Prop :=
  | reach_start : reachable ok s0 s0
  | reach_step s r s' a : reachable ok s0 s → ok s r → step s r = Some (s', a) → reachable ok s0 s'.

Lemma reachable_wf ok s0 s : (∀ s r, ok s r → valid s r) → wf s0 → reachable ok s0 s → wf s.
Proof.
  intros Hok Hw. induction 1 as [|s r s' a _ IH Hr E]; [done|]. destruct (request_effect s r IH (Hok _ _ Hr)) as (s'' & b & E' & He).
  assert (s'' = s') as -> by congruence. apply He.
Qed.

(** ** Addresses *)

(** Every address of the device that the map has belongs to one sector and is valid; none was invalidated twice. *)
Record exclusive (m : plain_map) : Prop := {
  ex_inj : ∀ a b, is_dev (p_map m a) = true → p_map m a = p_map m b → a = b;
  ex_live : ∀ a, is_dev (p_map m a) = true → p_map m a ∉ p_dead m;
  ex_once : NoDup (p_dead m)
}.

(** An address of the device that is not in use. *)
Definition fresh (m : plain_map) (p : ppa_addr) : Prop := is_dev p = true → p ∉ p_dead m ∧ ∀ l, p_map m l ≠ p.

Lemma in_dead p l : p ∈ dead l ↔ p ∈ l ∧ is_dev p = true.
Proof. unfold dead. rewrite elem_of_reverse, list_elem_of_filter. tauto. Qed.

Lemma NoDup_dead (m : Z → ppa_addr) l :
  (∀ a b, is_dev (m a) = true → m a = m b → a = b) → NoDup l → NoDup (dead (m <$> l)).
Proof.
  intros Hi. intros Hl. unfold dead. rewrite reverse_Permutation. induction Hl as [|a l Ha Hl IH]; [apply NoDup_nil_2|]. cbn [fmap list_fmap].
  destruct (decide (is_dev (m a) = true)) as [Hd|Hd]; [|by rewrite filter_cons_False]. rewrite filter_cons_True by done. apply NoDup_cons_2; [|done].
  rewrite list_elem_of_filter, list_elem_of_fmap. intros (_ & b & E & Hb). by rewrite (Hi a b Hd E) in Ha.
Qed.

Lemma wipe_exclusive m l : NoDup l → exclusive m → exclusive (wipe m l).
Proof.
  intros Hl [Hi Hv Ho]. split; cbn.
  - intros a b. unfold erase. repeat case_bool_decide; try done; [|by apply Hi]. intros Hd E. rewrite E in Hd. done.
  - intros a. unfold erase. case_bool_decide as Ha; [done|]. intros Hd. rewrite elem_of_app, in_dead, list_elem_of_fmap.
    intros [[(b & E & Hb) _]|H]; [|by apply (Hv a)].
    by rewrite (Hi a b Hd E) in Ha.
  - apply NoDup_app. split; [by apply NoDup_dead|]. split; [|done]. intros p. rewrite in_dead, list_elem_of_fmap. intros [(b & -> & _) Hd].
    by apply Hv.
Qed.

Lemma put_exclusive m lba p : fresh m p → exclusive m → exclusive (put m lba p).
Proof.
  intros Hf [Hi Hv Ho]. split; cbn; [| |done].
  - intros a b. destruct (decide (lba = a)) as [<-|Ha], (decide (lba = b)) as [<-|Hb]; rewrite ?fn_lookup_insert, ?(fn_lookup_insert_ne _ _ _ _ Ha), ?(fn_lookup_insert_ne _ _ _ _ Hb); try done.
    + intros Hd E. destruct (Hf Hd) as [_ H]. by specialize (H b).
    + intros Hd E. rewrite E in Hd. destruct (Hf Hd) as [_ H]. by specialize (H a).
    + apply Hi.
  - intros a. destruct (decide (lba = a)) as [<-|Ha]; [rewrite fn_lookup_insert; intros Hd; by apply Hf|rewrite fn_lookup_insert_ne by done; apply Hv].
Qed.

(** A sector that is wiped and then put somewhere. *)
Lemma replace_exclusive m lba p : fresh m p → exclusive m → exclusive (replace_at m lba p).
Proof.
  intros Hf Hm. pose proof (wipe_exclusive m [lba] (NoDup_singleton _) Hm) as Hx.
  assert (Hp : exclusive (put (wipe m [lba]) lba p)).
  { apply put_exclusive; [|done]. intros Hd. destruct (Hf Hd) as [H1 H2]. split.
    - change (p_dead (wipe m [lba])) with (dead [p_map m lba] ++ p_dead m). rewrite elem_of_app, in_dead, list_elem_of_singleton.
      intros [[E _]|?]; [by apply (H2 lba)|done].
    - intros l. cbn. unfold erase. case_bool_decide; [by destruct p|done]. }
  assert (E : ∀ a, p_map (replace_at m lba p) a = p_map (put (wipe m [lba]) lba p) a).
  { intros a. cbn. destruct (decide (lba = a)) as [<-|Ha]; [by rewrite !fn_lookup_insert|rewrite !fn_lookup_insert_ne by done].
    unfold erase. rewrite bool_decide_false; [done|]. by rewrite list_elem_of_singleton. }
  destruct Hp as [Hi Hv Ho]. split; [|intros a; rewrite !E; apply Hv|done]. intros a b. rewrite !E. apply Hi.
Qed.

Lemma kill_exclusive m p : fresh m p → is_dev p = true → exclusive m → exclusive (kill m [p]).
Proof.
  intros Hf Hd [Hi Hv Ho]. destruct (Hf Hd) as [H1 H2]. split; cbn [kill p_map p_dead]; rewrite ?dead_dev by done; [done| |by apply NoDup_cons_2].
  intros a Ha. cbn [app]. rewrite not_elem_of_cons. split; [apply H2|by apply Hv].
Qed.

(** Requests give the map addresses of the device that are not in use. *)
Definition unused (m : plain_map) (r : request) : Prop :=
  match r with Update _ p | ToDevice _ p _ => fresh m p | _ => True end.

Lemma buffer_fresh s m p : in_buffer s p → fresh m p.
Proof. by destruct p. Qed.

Lemma step_exclusive s m r : valid s r → unused m r → exclusive m → exclusive (plain_step s m r).1.
Proof.
  intros Hv Hu Hm. destruct r as [lba p|lba p|lba p line|lba p e|lba n|ppas lbas|slba n|lba i|rbs]; cbn [plain_step fst]; try done.
  - destruct (_ <? _); [by apply replace_exclusive|done].
  - apply replace_exclusive; [|done]. by eapply buffer_fresh, Hv.
  - destruct (_ && _ && _); [|done]. apply put_exclusive; [|done]. by eapply buffer_fresh, Hv.
  - destruct Hv as (_ & _ & Hd & _). repeat case_match; try done; (by apply kill_exclusive) || by apply put_exclusive.
  - apply wipe_exclusive; [|done]. apply NoDup_filter, NoDup_seqZ.
  - destruct (_ && _); [|done]. apply wipe_exclusive; [apply NoDup_seqZ|done].
  - destruct Hm. by split.
Qed.

(** The plain map of a state. *)
Definition plain_of (s : l2p) : plain_map := {| p_map := view s; p_dead := invalidated s; p_rings := rwbs s |}.

Lemma shows_exclusive s m : shows s m → exclusive m → exclusive (plain_of s).
Proof.
  intros [Hm Hd _] [Hi Hv Ho]. split; cbn; [intros a b; rewrite !Hm; apply Hi|intros a; rewrite Hm, Hd; apply Hv|by rewrite Hd].
Qed.

Lemma reachable_exclusive s0 s :
  wf s0 → exclusive (plain_of s0) → reachable (λ s r, valid s r ∧ unused (plain_of s) r) s0 s → exclusive (plain_of s).
Proof.
  intros Hw Hx Hr. induction Hr as [|s r s' a Hr IH [Hv Hu] E]; [done|].
  pose proof (reachable_wf _ _ _ (λ s r H, proj1 H) Hw Hr) as Hws. destruct (request_effect s r Hws Hv) as (s'' & b & E' & He).
  assert (s'' = s') as -> by congruence. destruct (ef_map _ _ _ _ He (plain_of s)) as [Hs _]; [by split|].
  by apply (shows_exclusive _ _ Hs), step_exclusive.
Qed.

(** ** Builds that map every stream sector by sector *)

Fixpoint run (s : l2p) (rs : list request) : option (l2p * list answer) :=
  match rs with
  | [] => Some (s, [])
  | r :: rs => '(s, a) ← step s r; '(s, l) ← run s rs; Some (s, a :: l)
  end.

Fixpoint plain_run (s0 : l2p) (m : plain_map) (rs : list request) : plain_map * list answer :=
  match rs with
  | [] => (m, [])
  | r :: rs => let '(m, a) := plain_step s0 m r in let '(m, l) := plain_run s0 m rs in (m, a :: l)
  end.

Definition all_sectors (s : l2p) : Prop := Forall (λ t, t = SECTOR_MAP) (map_type <$> lstreams s).

Lemma sectors_type s i st : all_sectors s → rd (lstreams s) i = Some st → map_type st = SECTOR_MAP.
Proof. intros Ha [_ Hi]%rd_Some. apply (Forall_lookup_1 _ _ (Z.to_nat i) _ Ha). by rewrite list_lookup_fmap, Hi. Qed.

Lemma sectors_no_block s lba : all_sectors s → ¬ on_block s lba.
Proof. intros Ha (x & _ & _ & st & Hst & Ht). rewrite (sectors_type s _ _ Ha Hst) in Ht. done. Qed.

Lemma sectors_whole s lba : wf s → all_sectors s → whole s lba = false.
Proof. intros Hw Ha. apply not_true_is_false. rewrite whole_on_block by done. by apply sectors_no_block. Qed.

Lemma sectors_to_block s i : all_sectors s → to_block s i = false.
Proof. intros Ha. unfold to_block. destruct (rd _ _) as [st|] eqn:E; [|done]. by rewrite (sectors_type s _ _ Ha E). Qed.

Lemma stable_addr_ok s s' p : stable s s' → addr_ok s p → addr_ok s' p.
Proof.
  intros Hs Hp. assert (length (rwbs s') = length (rwbs s)) as El by (rewrite <- (length_fmap nr_entries), (sb_rings _ _ Hs); apply length_fmap).
  unfold addr_ok in *. by rewrite (sb_lines _ _ Hs), El.
Qed.

Lemma stable_in_buffer s s' p : stable s s' → in_buffer s p → in_buffer s' p.
Proof.
  intros Hs. destruct p as [|line nrb r|]; [done| |done]. intros (Hl & rb & Hrb & Hlt). split; [done|].
  pose proof (rd_map nr_entries (rwbs s') nrb) as E. rewrite (sb_rings _ _ Hs), rd_map, Hrb in E. destruct (rd (rwbs s') nrb) as [rb'|]; [|done].
  exists rb'. split; [done|]. injection E as <-. done.
Qed.

Lemma sectors_valid s s' r : stable s s' → all_sectors s' → valid s r → valid s' r.
Proof.
  intros Hs Ha. pose proof (λ lba, sectors_no_block s' lba Ha) as Hn. pose proof (stable_addr_ok s s') as Hok.
  pose proof (stable_in_buffer s s') as Hb.
  destruct r; cbn [valid]; rewrite ?(sb_secs _ _ Hs), ?(sb_rings _ _ Hs); try done.
  - intros (? & ? & _). split; [done|]. split; [by apply Hok|]. by intros _ ?%Hn.
  - intros (? & ? & _). split; [done|]. split; [by apply Hb|]. by intros ?%Hn.
  - intros (? & ?). split; [done|by apply Hb].
  - intros (? & ? & ? & ? & _). split; [done|]. split; [by apply Hok|]. split; [done|]. split; [done|]. by intros _ ?%Hn.
Qed.

Lemma sectors_plain_step s s' m r : wf s → wf s' → stable s s' → all_sectors s → all_sectors s' → plain_step s' m r = plain_step s m r.
Proof.
  intros Hw Hw' Hs Ha Ha'. destruct r; cbn [plain_step]; rewrite ?(sb_secs _ _ Hs), ?sectors_whole, ?sectors_to_block by done; try done.
  do 2 f_equal. unfold erased. apply list_filter_iff. intros l. unfold covered. by rewrite !sectors_whole.
Qed.

Lemma run_sectors s0 rs s m :
  wf s0 → all_sectors s0 → Forall (valid s0) rs → wf s → stable s0 s → shows s m →
  ∃ s', run s rs = Some (s', (plain_run s0 m rs).2) ∧ wf s' ∧ shows s' (plain_run s0 m rs).1.
Proof.
  intros Hw0 Ha0 Hv. revert s m. induction Hv as [|r rs Hr _ IH]; intros s m Hw Hs Hm; cbn [run plain_run]; [by exists s|].
  assert (Ha : all_sectors s) by (unfold all_sectors; by rewrite (sb_types _ _ Hs)).
  destruct (request_effect s r Hw) as (s1 & a & E & He); [by apply (sectors_valid s0 s)|]. rewrite E. cbn [mbind option_bind].
  destruct (ef_map _ _ _ _ He m Hm) as [Hm1 ->]. rewrite (sectors_plain_step s0 s) in Hm1 |- * by done. destruct (plain_step s0 m r) as [m1 a].
  destruct (IH s1 m1) as (s' & E' & Hw' & Hm'); [apply He|by eapply stable_trans; [|apply He]|done|]. rewrite E'. cbn [mbind option_bind].
  destruct (plain_run s0 m1 rs) as [m2 l]. by exists s'.
Qed.

(** ** Segments that are written as a whole *)

Lemma put_entry s s' g x : put_seg s g x = Some s' → rd (bmap s') g = Some x.
Proof. unfold put_seg. intros (m & Hwr & [= <-])%bind_Some. cbn. rewrite (rd_wr _ _ _ _ _ Hwr). by rewrite decide_True. Qed.

(** The segment has a log once a sector of it is in a buffer. *)
Lemma cache_set_log s s' lba p :
  wf s → 0 ≤ lba < l_nr_secs s → on_block s lba → pblk_cache_map_set s lba p = Some s' → ∃ x, rd (bmap s') (lseg_of s lba) = Some x ∧ m_cached x = true.
Proof.
  intros Hw Hl (x & Hx & Hb) E. pose proof (rd_Forall _ _ _ _ (wf_segs _ Hw) Hx) as Hok. pose proof Hb as (Hn & st & Hst & Ht).
  unfold pblk_cache_map_set in E.
  destruct (not_preinvalid_ok s lba Hw Hl) as (s1 & E1 & Hk1). rewrite E1 in E. cbn [mbind option_bind] in E. rewrite (kp_bmap _ _ Hk1), Hx in E.
  cbn [mbind option_bind] in E. rewrite (proj2 (Z.eqb_neq _ _)) in E by done. destruct (load_kept s1 lba true (kp_wf _ _ Hk1)) as (s2 & E2 & Hk2);
    [by apply (kept_in_map s s1), sec_in_map|]. pose proof (l2p_kept_trans _ _ _ Hk1 Hk2) as Hk. rewrite (kept_lseg s s1) in E2 by done.
    rewrite E2 in E. cbn [mbind option_bind] in E.
  apply bind_Some in E as (_ & _ & E). rewrite (es_streams _ _ (kp_env _ _ Hk)), Hst in E. cbn [mbind option_bind] in E. rewrite Ht in E.
  change (BLOCK_MAP =? SECTOR_MAP) with false in E. rewrite Z.eqb_refl in E. cbn iota in E. unfold cache_set_block in E.
  rewrite (kept_lseg s s2) in E by done.
  apply bind_Some in E as (_ & _ & E). apply bind_Some in E as ([s3 l] & _ & E). apply bind_Some in E as (l' & _ & E). apply put_entry in E.
  by eexists.
Qed.

(** The last sector of a segment makes its entry the line, and its log goes. *)
Definition closes (s : l2p) (lba line : Z) : Prop :=
  loff_of s lba = entry_num s - 17 ∧ pblk_dev_ppa_to_line (view s (lba - loff_of s lba + 8)) = Some line.

Lemma delete_search s g : cmt_ok s → pblk_search_cmt (pblk_delete_cmt s g) g = None.
Proof.
  intros Hc. unfold pblk_delete_cmt. destruct (pblk_search_cmt s g) as [[k e]|] eqn:E; [|done]. pose proof E as (Hk & He)%search_Some.
  apply search_None.
  change (map_list _) with (delete k (map_list s)). pose proof (co_nodup _ Hc) as Hd. rewrite (delete_Permutation _ _ _ Hk) in Hd. cbn in Hd.
  apply NoDup_cons_1_1 in Hd. by rewrite He in Hd.
Qed.

Lemma dev_set_log s s' lba line :
  wf s → in_map s lba → on_block s lba → 0 ≤ line < l_nr_lines s → data_off (entry_num s) (loff_of s lba) →
  pblk_dev_map_set s lba (addr_to_gen_ppa (l_fmt s) lba line) = Some s' →
  ∃ x, rd (bmap s') (lseg_of s lba) = Some x ∧
    (¬ closes s lba line → m_cached x = true) ∧
    (closes s lba line → m_cached x = false ∧ seg_val_of x = SAddr line ∧ pblk_search_cmt s' (lseg_of s lba) = None).
Proof.
  intros Hw Hm (x & Hx & Hb) Hline Hd E. pose proof (rd_Forall _ _ _ _ (wf_segs _ Hw) Hx) as Hok. pose proof Hb as (Hn & st & Hst & Ht).
  set (p := addr_to_gen_ppa (l_fmt s) lba line) in *.
  unfold pblk_dev_map_set in E. rewrite Hx in E. cbn [mbind option_bind] in E. apply bind_Some in E as (_ & _ & E). rewrite Hst in E.
  cbn [mbind option_bind] in E.
  destruct (load_kept s lba true Hw Hm) as (s2 & E2 & Hk). rewrite E2 in E. cbn [mbind option_bind] in E. rewrite Ht in E.
  change (BLOCK_MAP =? SECTOR_MAP) with false in E. rewrite Z.eqb_refl in E. cbn iota in E. unfold dev_set_block in E.
  rewrite (kept_lseg s s2), (kept_loff s s2), (entry_num_env s s2) in E by (done || apply Hk). apply bind_Some in E as (poff & _ & E).
  apply bind_Some in E as (_ & _ & E).
  apply bind_Some in E as ([] & Hc & E). apply ensure_Some in Hc as [Hc _]. apply bind_Some in E as (l & Hl & E).
  apply bind_Some in E as (l' & Hwr & E).
  assert (H8 : loff_of s lba = entry_num s - 17 → rd l' 8 = Some (view s (lba - loff_of s lba + 8))).
  { intros El. destruct (entry_num_eq s (wf_bits _ Hw)) as [_ He]. destruct (seg_start s lba 8 Hw Hm ltac:(lia)) as (Hm8 & Hs8 & Ho8).
    destruct Hok as [|i st' l0 Hst' Ht'|i st' l0 Hst' Ht' Hlen Ha|i st' Hst' Ht'|]; try done. cbn in Hl.
    injection Hl as ->. rewrite (rd_wr _ _ _ _ _ Hwr), decide_False by (unfold data_off in Hd; lia). rewrite <- Ho8 at 1.
    refine (array_views s lba _ l Hw Hx _ _ _ Hm8 Hs8); [by apply (SegLog s i st')|]. intros lba'. by apply (log_view s i st'). }
  destruct (Z.eqb_spec (loff_of s lba) (entry_num s - 17)) as [El|El].
  - rewrite (H8 El) in E. cbn [mbind option_bind] in E. change (pblk_dev_ppa_to_line p) with (Some line) in E. cbn [mbind option_bind] in E.
    case_bool_decide as Hv.
    + unfold pblk_free_log in E. rewrite Z.eqb_refl in E. cbn [mbind option_bind] in E. pose proof (put_entry _ _ _ _ E) as Hx'. eexists.
      split; [done|].
      split; [intros H; by destruct H|]. intros _. split; [done|]. split; [done|]. unfold put_seg in E. apply bind_Some in E as (m & _ & [= <-]).
      apply (delete_search s2). apply (wf_cmt _ (kp_wf _ _ Hk)).
    + apply put_entry in E. eexists. split; [done|]. split; [by intros _; cbn|]. by intros [_ ?].
  - apply bind_Some in E as (_ & _ & E). apply put_entry in E. eexists. split; [done|]. split; [by intros _; cbn|]. by intros [? _].
Qed.

Lemma buffer_log s s' a lba p : wf s → valid s (ToBuffer lba p) → whole s lba = true → step s (ToBuffer lba p) = Some (s', a) → has_log s' lba.
Proof.
  intros Hw (Hl & Hb & Hr) Hwh (s1 & E & [= -> _])%bind_Some. destruct (update_map_cache_ok s lba p Hw Hl Hb Hr) as (s'' & E' & Ha).
  assert (s'' = s') as -> by congruence. destruct (update_map_cache_set s lba p Hw Hl Hb) as (s2 & E2 & Ha2 & _). pose proof (al_frame _ _ Ha2) as Hf.
  destruct (cache_set_log s2 s' lba p) as (x & Hx & Hc); [apply Ha2|by rewrite (fr_secs _ _ Hf)|by apply (alike_on_block s s2), whole_on_block|congruence|].
  exists x. split; [|done]. rewrite (frame_lseg s s') by apply Ha. by rewrite (frame_lseg s s2) in Hx.
Qed.

Lemma device_log s s' a lba line e :
  wf s → lba ≠ LBA_EMPTY → valid s (ToDevice lba (addr_to_gen_ppa (l_fmt s) lba line) e) → whole s lba = true → current s lba e = true →
  step s (ToDevice lba (addr_to_gen_ppa (l_fmt s) lba line) e) = Some (s', a) →
  ∃ x, rd (bmap s') (lseg_of s' lba) = Some x ∧ (¬ closes s lba line → m_cached x = true) ∧
    (closes s lba line → m_cached x = false ∧ seg_val_of x = SAddr line ∧ pblk_search_cmt s' (lseg_of s' lba) = None).
Proof.
  intros Hw He (Hl & Hp & Hd & Hc & Hr) Hwh Hcur (s1 & E & [= -> _])%bind_Some. set (p := addr_to_gen_ppa (l_fmt s) lba line) in *.
  destruct (update_map_dev_ok s lba p e Hw Hl Hp Hd Hc Hr) as (s'' & E' & Ha). assert (s'' = s') as -> by congruence.
  destruct (update_map_dev_set s lba p e Hw Hl Hd Hc He Hcur) as (s2 & E2 & Hk). pose proof (al_frame _ _ (kept_alike _ _ Hk)) as Hf.
  apply whole_on_block in Hwh; [|done]. destruct (Hr Hcur Hwh) as (_ & Ho & line' & Hline & Ep & _). injection Ep as <-.
  assert (Hm : in_map s lba) by (apply sec_in_map; [done|]; apply andb_prop in Hcur as [?%Z.ltb_lt _]; lia).
  destruct (dev_set_log s2 s' lba line) as (x & Hx & H1 & H2); [apply Hk|by apply (frame_in_map s s2)|by apply (alike_on_block s s2 (kept_alike _ _ Hk))|by rewrite (fr_lines _ _ Hf)|
    by rewrite (frame_entry_num s s2), (frame_loff s s2)|rewrite (fr_fmt _ _ Hf); fold p; by rewrite <- E2|].
  assert (closes s2 lba line ↔ closes s lba line) as Hcl.
  { unfold closes. by rewrite (frame_entry_num s s2), (frame_loff s s2), (kept_view s s2). }
  rewrite Hcl in H1, H2. rewrite (frame_lseg s s' (af_frame _ _ _ _ Ha)). rewrite (frame_lseg s s2) in Hx, H2 by done. by exists x.
Qed.

(** The requests for a segment that starts at [start], for its sectors [ks]: to entries of the buffer, then to their places on a line. *)
Definition fill_buffer (start : Z) (f : Z → ppa_addr) (ks : list Z) : list request := (λ k, ToBuffer (start + k) (f k)) <$> ks.
Definition fill_device (fmt : pblk_addr_format) (start line : Z) (f : Z → ppa_addr) (ks : list Z) : list request :=
  (λ k, ToDevice (start + k) (addr_to_gen_ppa fmt (start + k) line) (f k)) <$> ks.

Lemma run_app s s1 s2 rs1 rs2 l1 l2 : run s rs1 = Some (s1, l1) → run s1 rs2 = Some (s2, l2) → run s (rs1 ++ rs2) = Some (s2, l1 ++ l2).
Proof.
  revert s l1. induction rs1 as [|r rs IH]; intros s l1 E1 E2; cbn in *; [by injection E1 as -> <-|].
  apply bind_Some in E1 as ([s' a] & E & E1). rewrite E. cbn [mbind option_bind]. apply bind_Some in E1 as ([s'' l] & E' & [= -> <-]).
  by rewrite (IH s' l E' E2).
Qed.

(** A segment of the target that is mapped as a whole. *)
Record block_at (s : l2p) (start : Z) : Prop := {
  ba_start : loff_of s start = 0;
  ba_low : 0 ≤ start;
  ba_high : start + entry_num s ≤ l_nr_secs s;
  ba_u64 : l_nr_secs s < 2 ^ 64;
  ba_whole : whole s start = true
}.

Section Block.
Context (start line : Z) (f : Z → ppa_addr).

Lemma block_sector s k : wf s → block_at s start → 0 ≤ k < entry_num s → lseg_of s (start + k) = lseg_of s start ∧ loff_of s (start + k) = k ∧ whole s (start + k) = true.
Proof.
  intros Hw Hb Hk. pose proof (wf_bits _ Hw) as Hbits. pose proof (ba_start _ _ Hb) as H0.
  destruct (in_segment s start (start + k) Hbits) as [H1 H2]; [lia|]. split; [done|]. split; [lia|]. rewrite (whole_segment s start) by (done || lia).
  apply Hb.
Qed.

Lemma block_at_after s s' r a : block_at s start → effect s s' r a → (∀ lba i, r ≠ SetStream lba i) → block_at s' start ∧ entry_num s' = entry_num s ∧ lseg_of s' start = lseg_of s start.
Proof.
  intros [H1 H2 H3 H4 H5] He Hr. destruct (ef_stable _ _ _ _ He) as [Ef _ Es _ _ _]. pose proof (ef_whole _ _ _ _ He start) as Hw.
  unfold loff_of, lseg_of, entry_num in *. split; [|by rewrite Ef]. split; unfold loff_of, entry_num; rewrite ?Ef, ?Es; try done.
  rewrite Hw. destruct r as [| | | | | | |x i|]; try done. by destruct (Hr x i).
Qed.

Lemma fill_buffer_ok n k s :
  wf s → block_at s start → 8 ≤ k → k + Z.of_nat n = entry_num s - 16 → k = 8 ∨ has_log s start →
  (∀ j, k ≤ j < k + Z.of_nat n → in_buffer s (f j)) →
  ∃ s' l, run s (fill_buffer start f (seqZ k (Z.of_nat n))) = Some (s', l) ∧ wf s' ∧ stable s s' ∧ block_at s' start ∧ (n ≠ O ∨ has_log s start → has_log s' start) ∧
    (∀ lba, view s' lba = if decide (k ≤ lba - start < k + Z.of_nat n) then f (lba - start) else view s lba) ∧
    invalidated s' = dead (view s <$> seqZ (start + k) (Z.of_nat n)) ++ invalidated s.
Proof.
  revert k s. induction n as [|n IH]; intros k s Hw Hb Hk Hn Hlog Hf.
  { exists s, []. do 2 (split; [done|]). split; [by split|]. split; [done|]. split; [by intros [?|?]|]. split; [|done]. intros lba.
    by rewrite decide_False by lia. }
  destruct (block_sector s k Hw Hb ltac:(lia)) as (Hs & Ho & Hwh). pose proof (ba_low _ _ Hb). pose proof (ba_high _ _ Hb).
  assert (Hlk : has_log s start → has_log s (start + k)) by (unfold has_log; by rewrite Hs).
  assert (Hv : valid s (ToBuffer (start + k) (f k))).
  { cbn [valid]. split; [lia|]. split; [apply Hf; lia|]. intros _. rewrite Ho. unfold data_off. split; [lia|].
    destruct Hlog as [->|?]; [by right|left; by apply Hlk]. }
  destruct (request_effect s _ Hw Hv) as (s1 & a & E1 & He). destruct (block_at_after s s1 _ a Hb He) as (Hb1 & En1 & Es1); [done|].
  destruct (ef_map _ _ _ _ He (plain_of s)) as [[Hm Hd _] _]; [by split|]. pose proof (ef_stable _ _ _ _ He) as Hst.
  assert (Hl1 : has_log s1 start).
  { pose proof (buffer_log s s1 a _ _ Hw Hv Hwh E1) as Hl. unfold has_log in *.
    destruct (block_sector s1 k (ef_wf _ _ _ _ He) Hb1 ltac:(lia)) as (Hs1 & _). by rewrite Hs1 in Hl. }
  destruct (IH (k + 1) s1) as (s' & l & E & Hw' & Hst' & Hb' & Hl' & Hv' & Hd'); [apply He|done|lia|lia|by right|intros j Hj; apply (stable_in_buffer s s1); [done|apply Hf; lia]|].
  exists s', (a :: l). split; [|split; [done|split; [by eapply stable_trans|split; [done|split; [intros _; apply Hl'; by right|split]]]]].
  - unfold fill_buffer. rewrite (seqZ_cons k) by lia. cbn [fmap list_fmap run]. rewrite E1. cbn [mbind option_bind].
    replace (Z.pred (Z.of_nat (S n))) with (Z.of_nat n) by lia. replace (Z.succ k) with (k + 1) by lia. fold (fill_buffer start f).
    unfold fill_buffer in E. rewrite E. done.
  - intros lba. rewrite Hv', (Hm lba). cbn. destruct (decide (start + k = lba)) as [<-|Hne].
    + rewrite decide_False, fn_lookup_insert, decide_True by lia. f_equal. lia.
    + rewrite fn_lookup_insert_ne by done.
      destruct (decide (k ≤ lba - start < k + Z.of_nat (S n))), (decide (k + 1 ≤ lba - start < k + 1 + Z.of_nat n)); (done || lia).
  - rewrite Hd', Hd. cbn [plain_step fst replace_at put kill p_dead plain_of p_map]. rewrite (seqZ_cons (start + k)) by lia. cbn [fmap list_fmap].
    rewrite (dead_cons _ (view s <$> _)), <- app_assoc. replace (Z.pred (Z.of_nat (S n))) with (Z.of_nat n) by lia.
    replace (Z.succ (start + k)) with (start + (k + 1)) by lia.
    f_equal. f_equal. apply Forall_fmap_ext, Forall_forall. intros lba Hin%elem_of_seqZ. rewrite (Hm lba). cbn. by rewrite fn_lookup_insert_ne by lia.
Qed.

(** The sector [k] of the segment on the line. *)
Definition place (s : l2p) (k : Z) : ppa_addr := addr_to_gen_ppa (l_fmt s) (start + k) line.

(** The entry of the segment is the line alone. *)
Definition on_line (s : l2p) : Prop :=
  ∃ x, rd (bmap s) (lseg_of s start) = Some x ∧ m_cached x = false ∧ seg_val_of x = SAddr line ∧ pblk_search_cmt s (lseg_of s start) = None.

(** One sector of the segment, once those before it are on the line. *)
Lemma fill_device_step s k :
  wf s → block_at s start → 0 ≤ line < l_nr_lines s → 8 ≤ k ≤ entry_num s - 17 → has_log s start → in_buffer s (f k) →
  view s (start + k) = f k → (∀ j, 8 ≤ j < k → view s (start + j) = place s j) →
  ∃ s1 a, step s (ToDevice (start + k) (place s k) (f k)) = Some (s1, a) ∧ effect s s1 (ToDevice (start + k) (place s k) (f k)) a ∧
    block_at s1 start ∧ (∀ lba, view s1 lba = <[start + k := place s k]> (view s) lba) ∧ invalidated s1 = invalidated s ∧
    (if decide (k = entry_num s - 17) then on_line s1 else has_log s1 start).
Proof.
  intros Hw Hb Hline Hk Hlog Hbuf Hv Hbefore. pose proof Hb as [H0 Hlo Hhi H64 _]. destruct (entry_num_eq s (wf_bits _ Hw)) as [_ Hn].
  destruct (block_sector s k Hw Hb ltac:(lia)) as (Hs & Ho & Hwh). assert (Hne : start + k ≠ LBA_EMPTY) by (unfold LBA_EMPTY; lia).
  assert (Hcur : current s (start + k) (f k) = true) by (unfold current; rewrite (proj2 (Z.ltb_lt _ _)), bool_decide_true by (done || lia); done).
  assert (Hvalid : valid s (ToDevice (start + k) (place s k) (f k))).
  { split; [lia|]. split; [done|]. split; [done|]. split; [by destruct (f k)|]. intros _ _. split; [unfold has_log; by rewrite Hs|]. rewrite Ho.
    split; [done|].
    exists line. split; [done|]. split; [done|]. intros Hlast _ lba' Hm Hs' Hne' Hd. rewrite Hs in Hs'.
    apply in_segment_list in Hs'; [|apply Hw]. unfold segment in Hs'. rewrite H0 in Hs'. apply elem_of_seqZ in Hs'.
    destruct (block_sector s (lba' - start) Hw Hb ltac:(lia)) as (_ & Ho' & _). replace (start + (lba' - start)) with lba' in Ho' by lia.
    rewrite Ho' in Hd. unfold data_off in Hd.
    rewrite <- (Z.add_simpl_l start lba') at 1. replace (start + lba' - start) with (start + (lba' - start)) by lia. rewrite Hbefore by lia.
    unfold place. f_equal. lia. }
  destruct (request_effect s _ Hw Hvalid) as (s1 & a & E1 & He). destruct (block_at_after s s1 _ a Hb He) as (Hb1 & En1 & Es1); [done|].
  exists s1, a. do 3 (split; [done|]). destruct (ef_map _ _ _ _ He (plain_of s)) as [[Hm Hd _] _]; [by split|].
  cbn [plain_step fst plain_of p_map p_dead] in Hm, Hd.
  rewrite (proj2 (Z.eqb_neq _ _)), (proj2 (Z.ltb_lt _ _)), bool_decide_true in Hm, Hd by (done || lia). split; [done|]. split; [done|].
  destruct (device_log s s1 a (start + k) line (f k) Hw Hne Hvalid Hwh Hcur E1) as (x & Hx & Hx1 & Hx2).
  destruct (block_sector s1 k (ef_wf _ _ _ _ He) Hb1 ltac:(lia)) as (Hs1 & _). rewrite Hs1 in Hx, Hx2. unfold closes in Hx1, Hx2.
  rewrite Ho in Hx1, Hx2.
  replace (start + k - k + 8) with (start + 8) in Hx1, Hx2 by lia. case_decide as Hlast.
  - exists x. split; [done|]. apply Hx2. split; [done|]. by rewrite Hbefore by lia.
  - exists x. split; [done|]. apply Hx1. by intros [? _].
Qed.

Lemma fill_device_ok n k s :
  wf s → block_at s start → 0 ≤ line < l_nr_lines s → 8 ≤ k → k + Z.of_nat n = entry_num s - 16 → n ≠ O → has_log s start →
  (∀ j, k ≤ j < k + Z.of_nat n → in_buffer s (f j) ∧ view s (start + j) = f j) → (∀ j, 8 ≤ j < k → view s (start + j) = place s j) →
  ∃ s' l, run s (fill_device (l_fmt s) start line f (seqZ k (Z.of_nat n))) = Some (s', l) ∧ wf s' ∧ stable s s' ∧ on_line s' ∧
    (∀ lba, view s' lba = if decide (k ≤ lba - start < k + Z.of_nat n) then addr_to_gen_ppa (l_fmt s) lba line else view s lba) ∧
    invalidated s' = invalidated s.
Proof.
  revert k s. induction n as [|n IH]; intros k s Hw Hb Hline Hk Hn Hn0 Hlog Hf Hbefore; [done|].
  destruct (Hf k ltac:(lia)) as [Hfk Hvk].
  destruct (fill_device_step s k Hw Hb Hline ltac:(lia) Hlog Hfk Hvk Hbefore) as (s1 & a & E1 & He & Hb1 & Hv1 & Hd1 & Hl1).
  pose proof (ef_stable _ _ _ _ He) as Hst. pose proof (sb_fmt _ _ Hst) as Ef.
  assert (En : entry_num s1 = entry_num s) by (unfold entry_num; by rewrite Ef).
  assert (Hrun : ∀ s' l, run s1 (fill_device (l_fmt s) start line f (seqZ (k + 1) (Z.of_nat n))) = Some (s', l) →
                         run s (fill_device (l_fmt s) start line f (seqZ k (Z.of_nat (S n)))) = Some (s', a :: l)).
  { intros s' l E. unfold fill_device. rewrite (seqZ_cons k) by lia. cbn [fmap list_fmap run]. fold (place s k). rewrite E1. cbn [mbind option_bind].
    replace (Z.pred (Z.of_nat (S n))) with (Z.of_nat n) by lia. replace (Z.succ k) with (k + 1) by lia. unfold fill_device in E. by rewrite E. }
  assert (Hk1 : place s k = addr_to_gen_ppa (l_fmt s) (start + k) line) by done. destruct (decide (n = O)) as [->|Hn1].
  { rewrite decide_True in Hl1 by lia. exists s1, [a]. split; [by apply Hrun|]. split; [apply He|]. split; [done|]. split; [done|]. split; [|done].
    intros lba. rewrite Hv1. destruct (decide (start + k = lba)) as [<-|]; [rewrite fn_lookup_insert, decide_True by lia; done|].
    rewrite fn_lookup_insert_ne by done.
    by rewrite decide_False by lia. }
  rewrite decide_False in Hl1 by lia.
  destruct (IH (k + 1) s1) as (s' & l & E & Hw' & Hst' & Hon & Hv' & Hd'); [apply He|done|by rewrite (sb_lines _ _ Hst)|lia|lia|done|done| | |].
  - intros j Hj. destruct (Hf j ltac:(lia)). split; [by apply (stable_in_buffer s s1)|]. by rewrite Hv1, fn_lookup_insert_ne by lia.
  - intros j Hj. rewrite Hv1. unfold place. rewrite Ef. destruct (decide (j = k)) as [->|]; [by rewrite fn_lookup_insert|].
    rewrite fn_lookup_insert_ne by lia. apply Hbefore. lia.
  - rewrite Ef in E, Hv'. exists s', (a :: l). split; [by apply Hrun|]. split; [done|]. split; [by eapply stable_trans|]. split; [done|].
    split; [|congruence].
    intros lba. rewrite Hv', Hv1. destruct (decide (start + k = lba)) as [<-|].
    + rewrite decide_False, fn_lookup_insert, decide_True by lia. done.
    + rewrite fn_lookup_insert_ne by done.
      destruct (decide (k ≤ lba - start < k + Z.of_nat (S n))), (decide (k + 1 ≤ lba - start < k + 1 + Z.of_nat n)); (done || lia).
Qed.
End Block.

(** ** Theorems *)

(** C14: From the set-up on, whichever streams are mapped as a whole and whatever the buffers do in between, every
    valid request is carried out without a BUG_ON, a failed eviction or an access outside an array.  Its effect and its answer are those
    of a plain map from sectors to addresses: an update puts the sector there and invalidates just its old address of the device,
    garbage collection moves a sector just if it is still on the line, a finished write is
    mapped just if its entry is still current and invalidated otherwise, a discard empties just the sectors it may, and a change of
    stream keeps the map or gives up the whole segment. *)
Theorem map_request_exact fmt nr_secs nr_lines block rbs s r :
  setup_ok fmt nr_secs block rbs → reachable valid (pblk_l2p_init fmt nr_secs nr_lines block rbs) s → valid s r →
  ∃ s' a, step s r = Some (s', a) ∧ ∀ m, shows s m → shows s' (plain_step s m r).1 ∧ a = (plain_step s m r).2.
Proof.
  intros Hs Hr Hv. pose proof (reachable_wf valid _ s (λ _ _ H, H) (init_wf _ _ nr_lines _ _ Hs) Hr) as Hw.
  destruct (request_effect s r Hw Hv) as (s' & a & E & He). exists s', a. split; [done|apply He].
Qed.

(** C15: In a build that maps every stream sector by sector, any sequence of requests for sectors and addresses that exist
    runs to its end, and gives the answers and leaves the map of the same sequence on a plain map that starts empty. *)
Theorem map_run_exact fmt nr_secs nr_lines rbs rs :
  setup_ok fmt nr_secs (λ _, false) rbs →
  let s0 := pblk_l2p_init fmt nr_secs nr_lines (λ _, false) rbs in
  let m0 := {| p_map := λ _, ADDR_EMPTY; p_dead := []; p_rings := rbs |} in
  Forall (valid s0) rs → ∃ s, run s0 rs = Some (s, (plain_run s0 m0 rs).2) ∧ shows s (plain_run s0 m0 rs).1.
Proof.
  intros Hs s0 m0 Hv. pose proof (init_wf _ _ nr_lines _ _ Hs) as Hw. assert (Ha : all_sectors s0) by (repeat constructor).
  assert (Hm0 : shows s0 m0) by (split; [intros; apply init_view|done|done]).
  destruct (run_sectors s0 rs s0 m0 Hw Ha Hv Hw) as (s & E & _ & Hm); [by split|done|]. by exists s.
Qed.


(** The room that is counted as used is always that of the map of segments and of the segments in the list, each of
    which is listed once, and never more than there is. *)
Lemma cached_segments_bounded fmt nr_secs nr_lines block rbs s :
  setup_ok fmt nr_secs block rbs → reachable valid (pblk_l2p_init fmt nr_secs nr_lines block rbs) s →
  alloc_res s = 4096 + room (map_list s) ∧ alloc_res s ≤ max_res s ∧ NoDup (me_lseg <$> map_list s).
Proof.
  intros Hs Hr. destruct (wf_cmt _ (reachable_wf valid _ s (λ _ _ H, H) (init_wf _ _ nr_lines _ _ Hs) Hr)). done.
Qed.

(** C17: A segment that is mapped as a whole and is written in order, first to the buffer and then to the same places of one line,
    ends with the line as its only entry, without a log and without room for one: its data sectors are on the line, all other
    sectors are where they were, and just the old addresses of the data sectors are invalidated. *)
Theorem block_write_collapses fmt nr_secs nr_lines block rbs s start line f :
  setup_ok fmt nr_secs block rbs → reachable valid (pblk_l2p_init fmt nr_secs nr_lines block rbs) s →
  block_at s start → 0 ≤ line < l_nr_lines s → (∀ k, 8 ≤ k < entry_num s - 16 → in_buffer s (f k)) →
  let data := seqZ 8 (entry_num s - 24) in
  ∃ s' l, run s (fill_buffer start f data ++ fill_device (l_fmt s) start line f data) = Some (s', l) ∧ on_line start line s' ∧
    (∀ lba, view s' lba = if decide (8 ≤ lba - start < entry_num s - 16) then addr_to_gen_ppa (l_fmt s) lba line else view s lba) ∧
    invalidated s' = dead (view s <$> seqZ (start + 8) (entry_num s - 24)) ++ invalidated s.
Proof.
  intros Hs Hr Hb Hline Hf data. pose proof (reachable_wf valid _ s (λ _ _ H, H) (init_wf _ _ nr_lines _ _ Hs) Hr) as Hw.
  destruct (entry_num_eq s (wf_bits _ Hw)) as [_ Hn]. set (n := Z.to_nat (entry_num s - 24)). assert (En : Z.of_nat n = entry_num s - 24) by lia.
  destruct (fill_buffer_ok start f n 8 s Hw Hb) as (s1 & l1 & E1 & Hw1 & Hst & Hb1 & Hlog & Hv1 & Hd1); [lia|lia|by left|intros j Hj; apply Hf; lia|].
  pose proof (sb_fmt _ _ Hst) as Ef. assert (En1 : entry_num s1 = entry_num s) by (unfold entry_num; by rewrite Ef).
  destruct (fill_device_ok start line f n 8 s1 Hw1 Hb1) as (s2 & l2 & E2 & Hw2 & Hst2 & Hon & Hv2 & Hd2); [by rewrite (sb_lines _ _ Hst)|lia|lia|lia|apply Hlog; left; lia| |lia|].
  - intros j Hj. split; [apply (stable_in_buffer s s1); [done|apply Hf; lia]|]. rewrite Hv1, decide_True by lia. f_equal. lia.
  - rewrite En in *. rewrite Ef in E2, Hv2. exists s2, (l1 ++ l2). split; [by apply (run_app s s1)|]. split; [done|]. split; [|by rewrite Hd2, Hd1].
    intros lba. rewrite Hv2, Hv1. replace (8 + (entry_num s - 24)) with (entry_num s - 16) by lia. by case_decide.
Qed.

(** ** A small drive *)

Module Sample.
(** Four segments of 32 sectors on eight lines, with stream 3 mapped as a whole and one buffer. *)
Definition fmt : pblk_addr_format :=
  {| sec_offset := 0; pln_offset := 1; ch_offset := 1; lun_offset := 2; pg_offset := 3; blk_offset := 5; sec_mask := 1; pln_mask := 0;
     ch_mask := 2; lun_mask := 4; pg_mask := 24; blk_mask := 480 |}.
Definition block (i : Z) : bool := i =? 3.
Definition s0 : l2p := pblk_l2p_init fmt 128 8 block [rb0].

Lemma fmt_ok : ∃ l, fmt_of l fmt ∧ lens_ok 64 l.
Proof. exists {| l_sec := 1; l_pl := 0; l_ch := 1; l_lun := 1; l_pg := 2; l_blk := 4 |}. split; [by split|]. unfold lens_ok. cbn. lia. Qed.

Lemma sample_ring : ring_plain rb0.
Proof. split; [by exists 5|done|]. repeat constructor. Qed.

Lemma sample_setup : setup_ok fmt 128 block [rb0].
Proof. split; [exact fmt_ok|done|done|done|done|]. repeat constructor; apply sample_ring. Qed.

Lemma plain_setup : setup_ok fmt 128 (λ _, false) [rb0].
Proof. split; [exact fmt_ok|done|done|done|done|]. repeat constructor; apply sample_ring. Qed.

Lemma entry_ok s k : rwbs s = [rb0] → 0 ≤ k < 32 → in_buffer s (Cache k 0 false).
Proof. intros E Hk. split; [lia|]. exists rb0. rewrite E. split; [done|]. change (nr_entries rb0) with 32. lia. Qed.

(** The second segment goes to stream 3. *)
Definition s1 : l2p := Eval vm_compute in match step s0 (SetStream 32 3) with Some (s, _) => s | None => s0 end.

Lemma s1_reachable : reachable valid s0 s1.
Proof. apply (reach_step valid s0 s0 (SetStream 32 3) s1 Nothing); [constructor|done|]. vm_compute. reflexivity. Qed.

(** The first sector of the drive is mapped to the device. *)
Definition s2 : l2p := Eval vm_compute in match step s0 (Update 0 (Dev 2 0 0 0 0 0)) with Some (s, _) => s | None => s0 end.

Lemma update_valid : valid s0 (Update 0 (Dev 2 0 0 0 0 0)).
Proof.
  split; [done|]. split; [done|]. intros _ (x & Hx & Hn & _). vm_compute in Hx. injection Hx as <-. done.
Qed.

Lemma s2_reachable : reachable (λ s r, valid s r ∧ unused (plain_of s) r) s0 s2.
Proof.
  apply (reach_step _ s0 s0 (Update 0 (Dev 2 0 0 0 0 0)) s2 Nothing); [constructor| |vm_compute; reflexivity]. split; [apply update_valid|].
  intros _. split; [by intros ?%elem_of_nil|]. intros l. change (p_map (plain_of s0) l) with (view s0 l). unfold s0. by rewrite init_view.
Qed.

Lemma map_request_exact_witness : ∃ s' a, step s1 (ToBuffer 40 (Cache 8 0 false)) = Some (s', a) ∧ view s' 40 = Cache 8 0 false.
Proof.
  destruct (map_request_exact fmt 128 8 block [rb0] s1 (ToBuffer 40 (Cache 8 0 false)) sample_setup s1_reachable) as (s' & a & E & H).
  - split; [done|]. split; [by apply entry_ok|]. intros _. split; [done|by right].
  - exists s', a. split; [exact E|]. destruct (H (plain_of s1)) as [[Hm _ _] _]; [by split|]. exact (Hm 40).
Defined.

Lemma map_run_exact_witness : ∃ s l, run (pblk_l2p_init fmt 128 8 (λ _, false) [rb0]) [ToBuffer 7 (Cache 1 0 false); Lookup 7 1] = Some (s, l) ∧ l = [Nothing; Found [Cache 1 0 false]].
Proof.
  destruct (map_run_exact fmt 128 8 [rb0] [ToBuffer 7 (Cache 1 0 false); Lookup 7 1] plain_setup) as (s & E & _).
  - constructor; [|constructor; [done|constructor]]. split; [done|]. split; [by apply entry_ok|]. intros (x & Hx & Hn & _). vm_compute in Hx.
    injection Hx as <-. done.
  - eexists s, _. split; [exact E|]. reflexivity.
Defined.


Lemma block_write_collapses_witness : ∃ s' l,
  run s1 (fill_buffer 32 (λ k, Cache k 0 false) (seqZ 8 8) ++ fill_device fmt 32 5 (λ k, Cache k 0 false) (seqZ 8 8)) = Some (s', l) ∧ on_line 32 5 s'.
Proof.
  destruct (block_write_collapses fmt 128 8 block [rb0] s1 32 5 (λ k, Cache k 0 false) sample_setup s1_reachable) as (s' & l & E & Hon & _).
  - by split.
  - done.
  - intros k Hk. change (entry_num s1) with 32 in Hk. apply entry_ok; [done|lia].
  - exists s', l. split; [exact E|exact Hon].
Defined.
End Sample.
